(* ===== verification/_CoqProject ===== *)
-Q . S2P
Prelude.v
Interfaces.v
Cpu.v
Pmm.v
Vmm.v
DList.v
Buddy.v
VmArea.v
Sched.v
Mutex.v
Slab.v
Kmalloc.v
CString.v
BootMem.v
Font.v
Lfb.v
Kring.v
Kprintf.v
Keyboard.v
FsSim.v
PageCache.v
Dfs.v
DfsDemo.v
DfsIo.v
DfsSync.v
Vfs.v
Time.v
Acpi.v
Desc.v
Pci.v
Virtio.v
Ahci.v
Thread.v
Mmap.v
Process.v
Serial.v
Vector.v
Syscalls.v
