(* ===== verification/Prelude.v ===== *)
(** * The DestinX kernel

    A development about the C code of the DestinX kernel, a kernel for x86-64 with
    its own memory management, scheduler, file system and drivers. The code is
    translated function by function into Rocq, and theorems state what each part
    does. Where the code has a bug, the model has it too, and a theorem says
    what happens.

    ** How the model is built

    - A function of the kernel is a computation in the monad [M St] of this file:
      a state goes in, a result and a state come out, or an error. [Fault] is an
      access through a null or dangling pointer, [Hang] an endless loop. The state
      [St] is a record of the global variables of a component and the memory it
      works on; a component that contains another runs its functions by [zoom].
    - Integers are [Z]. Where the C code computes in a type of fixed width and
      the value can leave it, the wrap-around is written out ([u64], [u32], [u16],
      [u8], [s32]).
    - Memory is a finite map from addresses to integers, read with [@@]: by bytes
      in [CString], the file system, the console and the firmware's tables, by
      words where the code only makes aligned accesses to words. Records that are
      only accessed through typed pointers (threads, areas, cache entries) are
      maps from pointers to records.
    - Loops that count are [for_loop] or structural recursion. Other loops take
      fuel, and run to [Hang] without it; the theorems are statements of total
      correctness ([wp]), so they give fuel that is enough: the number of free
      areas, threads, entries or pages the loop can meet.
    - A component uses another through a class of [Interfaces] with the laws it
      relies on: [PageSource] and others for the page allocator seen from page
      tables, heap and areas, [FsServices] for what the file system needs of memory
      and disk, [Ports] for device registers. The implementing file gives an
      instance, or a simulated device does for the witnesses. A disk may fail: where
      a theorem needs that it does not, this is a hypothesis of its own ([reliable],
      [fl_reliable], [pk_reliable]). Laws about functions of the kernel are stated only
      for the arguments for which these keep them, as [wp_pk_read] for the sizes of
      files that [dfs_read] gives completely.
    - Calls of [serial_print] and [kprintf] for diagnostics are left out, and so
      are memory barriers and cache flushes; interrupts are modelled by the
      interrupt flag, and by the handlers as functions of their own.

    ** The parts and the files

    Memory. [Pmm]: bitmap of physical pages ([mm/pmm.c]); allocation takes the
    first free page or the first run, and changes one bit. [Vmm]: page tables
    ([mm/vmm.c]) against the page walk of the processor; mapping and unmapping
    change the translation of one page only. [BootMem]: the start of both from the
    boot loader's memory map ([init_PMM], [init_VMM]). [DList]: doubly linked lists as
    the kernel writes them. [Buddy]: the block allocator of the heap ([mm/buddy.c])
    with its invariant: free and used blocks tile the heap. [Slab], [Kmalloc]: objects
    ([mm/slab.c]) and the heap interface ([mm/kmalloc.c]): blocks handed out do
    not overlap and keep their contents until freed. [VmArea]: the lists of memory
    areas ([mm/vmalloc.c], [mm/stack.c], [mm/mmap.c]). [Mmap]: mappings and the page
    fault handler, which fills pages when they are first used ([mm/mmap.c],
    [mm/page_fault.c]). [PageCache]: the pages of files in memory ([mm/page_cache.c]).

    Processor, threads and processes. [Cpu]: flags, control registers and spinlocks
    ([kernel/sync/spinlock.c]) with mutual exclusion of interleaved agents. [Sched]:
    the ring of threads and the handler that switches them
    ([kernel/scheduler/scheduler.c], [thread.c]). [Thread]: creation and destruction of
    threads, with the stacks they start on ([thread.c]). [Process]: the loader of ELF
    files and the creation of processes ([arch/x86_64/elf/elf.c], [process.c]).
    [Mutex]: the sleeping mutex over the scheduler ([kernel/sync/mutex.c]), a
    refinement of an abstract queue. [Vector]: the registers of the vector unit and
    their lazy switching ([arch/x86_64/context/vector.c]). [Desc]: segment and
    interrupt descriptors as the processor decodes them, and the dispatch of
    interrupts ([arch/x86_64/gdt/gdt.c], [idt/idt.c]). [Syscalls]: the way into the
    kernel and back, and the dispatch on the number of the call
    ([arch/x86_64/syscalls/]).

    Console. [CString]: the string functions ([libc/string.c]). [Font], [Lfb]: glyphs,
    cursor and scrolling on the frame buffer ([drivers/video/lfb.c]), a refinement
    of a grid of characters. [Kring]: the rings for output and input
    ([drivers/video/kring.c]). [Kprintf]: formatted output against a
    relation that says what the text of a format and its arguments is. [Keyboard]: key presses and terminal files ([keyboard.c], [console.c]).
    [Serial]: the serial port and its formatted output
    ([arch/x86_64/drivers/video/serial.c]).

    Files. [Dfs], [DfsIo], [DfsSync]: the file system ([fs/dfs.c]): paths, reading and
    writing through the page cache, writing back. [FsSim], [DfsDemo]: services and a
    small file system on which theorems are evaluated. [Vfs]: descriptors and the
    operations on open files ([fs/vfs.c], [mm/brk.c]).

    Devices. [Time]: clock, calendar and time stamp counter ([kernel/time/time.c] and
    the drivers it uses). [Acpi]: the tables of the firmware and interrupt routing
    ([arch/x86_64/apic]). [Pci]: configuration space and message signalled interrupts
    ([arch/x86_64/drivers/pci/pci.c]). [Ahci]: the disk driver
    ([drivers/storage/ahci.c]). [Virtio]: the graphics device ([drivers/virtio/virtio.c]).

    ** What the theorems show

    - Allocators ([Pmm], [BootMem], [Buddy], [Slab], [Kmalloc], [VmArea]): what is handed
      out was free, is in range and overlaps nothing in use; the invariant of the
      structure holds before and after; freeing gives back exactly that. For the
      page allocator this is also stated of every sequence of calls from its start
      on ([pmm_client]); for [vmalloc] with the frames behind each page of the area.
    - Translation ([Vmm], [Mmap], [Process]): what the processor's walk finds after
      each operation, at the address concerned and at every other.
    - Threads ([Sched], [Thread], [Mutex], [Cpu], [Vector], [Syscalls], [Ahci]): the state
      machines of threads, queues and register ownership; who runs next, that each
      ready thread runs within one round, that a critical section has one owner,
      that the registers of a thread are its own.
    - Text and files ([Lfb], [Kprintf], [Serial], [Keyboard], [Dfs] and its companions,
      [Vfs]): refinement of grids, strings, lists of characters and file contents;
      round trips of writing and reading, printing and parsing.
    - Devices and tables ([Desc], [Acpi], [Pci], [Ahci], [Virtio], [Time]): what the
      processor or device decodes from what the driver stored.
    - Theorems whose comment says so state a bug: the run that shows it, in the
      same definitions.

    ** Fuel and bounds

    Loops over data take the length of the data: areas and threads of a list,
    entries of a table, tags of the boot information, capabilities of a device
    (at most 256 bytes), functions of the bus (256 buses of 32 devices). Loops that
    walk memory by pages take one unit for each page of the machine. Spins on a
    lock and on a device take a number of rounds which the theorems relate to a
    device that answers within it, or show to be useless where the code waits for
    what cannot come. The recursion of the buddy allocator over orders and of the walks
    over levels is bounded by their number.

    ** What is not modelled

    - [lapic_timer.c], [init_PIT] and the mapping of the registers of the APICs
      ([init_lapic], [init_ioapic]): a fixed sequence of stores to registers of devices
      whose behaviour the code does not depend on.
    - [init_LFB] and [init_ahci]: the first reads the boot information as [BootMem] does
      and maps the frame buffer, the second searches the bus as [Virtio] does and
      calls [ahci_init_port], which is modelled.
    - The order of the initialisations in [kernel_main], but for the two managers of
      memory and the graphics device.
    - The rest of [boot.asm] and the stubs of [idt.asm] and [yield.asm]: pushes and pops
      around the handlers, which are modelled as they are called. The stubs of system
      calls and the switching of vector registers are modelled.
    - Timing, caches and barriers, and truly concurrent execution on several
      processors: the kernel starts one. Interleaving is modelled where the code
      guards against it: spinlocks, the mutex, the disk and the wait of readers. *)
From Stdlib Require Export ZArith Lia.
From stdpp Require Export base list gmap fin_maps.

#[global] Open Scope Z_scope.

(** * Machine integers *)

Definition u64 (z : Z) : Z := z mod 2 ^ 64.
Definition u32 (z : Z) : Z := z mod 2 ^ 32.
Definition u16 (z : Z) : Z := z mod 2 ^ 16.
Definition u8 (z : Z) : Z := z mod 2 ^ 8.
Definition s32 (z : Z) : Z := (z + 2 ^ 31) mod 2 ^ 32 - 2 ^ 31.

(** C truth value of an integer expression. *)
Definition truthy (z : Z) : bool := negb (z =? 0).

Definition PAGE_SIZE_4KB : Z := 0x1000.
Definition PAGE_MASK_4KB : Z := 2 ^ 64 - 0x1000.
Definition PAGE_SIZE_2MB : Z := 0x200000.
Definition KERNEL_OFFSET : Z := 0xFFFFFFFF80000000.
Definition DIRECT_OFFSET : Z := 0xFFFF800000000000.
Definition PTE_PRESENT : Z := 2 ^ 0.
Definition PTE_WRITABLE : Z := 2 ^ 1.

(** * Memories *)

(** A memory of integers, zero where it was never written, as bss is. *)
Definition rd {K : Type} `{Countable K} (m : gmap K Z) (k : K) : Z := default 0 (m !! k).
Declare Scope kernel_scope.
Delimit Scope kernel_scope with kernel.
Infix "@@" := rd (at level 20) : kernel_scope.
#[global] Open Scope kernel_scope.

(** * Computations of the kernel *)

(** [Fault] is an access through a null or dangling pointer; [Hang] is a loop
    that the code never leaves, or, for a fuelled loop, the fuel running out. *)
Inductive err : Type :=
  | Fault
  | Hang.

Inductive res (A : Type) : Type :=
  | Ok (a : A)
  | Err (e : err).
Arguments Ok {A} a.
Arguments Err {A} e.

Definition M (St A : Type) : Type := St -> res (A * St).

#[global] Instance M_ret (St : Type) : MRet (M St) := fun A a s => Ok (a, s).
#[global] Instance M_bind (St : Type) : MBind (M St) := fun A B f m s =>
  match m s with
  | Ok (a, s') => f a s'
  | Err e => Err e
  end.

Definition fail {St A : Type} (e : err) : M St A := fun _ => Err e.
Definition get {St : Type} : M St St := fun s => Ok (s, s).
Definition gets {St A : Type} (f : St -> A) : M St A := fun s => Ok (f s, s).
Definition modify {St : Type} (f : St -> St) : M St unit := fun s => Ok (tt, f s).
Definition when {St : Type} (b : bool) (m : M St unit) : M St unit :=
  if b then m else mret tt.

(** Pointer to a component of the state. *)
Record lens (St T : Type) : Type := Lens {
  view : St -> T;
  over : T -> St -> St;
}.
Arguments Lens {St T} view over.
Arguments view {St T} l s.
Arguments over {St T} l t s.

(** Running a computation of a component inside the state that contains it. *)
Definition zoom {St T A : Type} (l : lens St T) (m : M T A) : M St A := fun s =>
  match m (view l s) with
  | Ok (a, t) => Ok (a, over l t s)
  | Err e => Err e
  end.

Definition lens_compose {St T U : Type} (l : lens St T) (k : lens T U) : lens St U :=
  Lens (fun s => view k (view l s)) (fun u s => over l (over k u (view l s)) s).

(** [for (i = lo; n iterations; i++) body(i)] *)
Fixpoint for_loop {St : Type} (n : nat) (i : Z) (body : Z -> M St unit) : M St unit :=
  match n with
  | O => mret tt
  | S n' => body i;; for_loop n' (i + 1) body
  end.

Section rd_lemmas.
Context {K : Type} `{Countable K}.
Implicit Types (m : gmap K Z) (k : K) (x : Z).

Lemma rd_empty k : (∅ : gmap K Z) @@ k = 0.
Proof. unfold rd. by rewrite lookup_empty. Qed.

Lemma rd_insert_eq m k x : <[k := x]> m @@ k = x.
Proof. unfold rd. by rewrite lookup_insert_eq. Qed.

Lemma rd_insert_ne m k k' x : k <> k' -> <[k := x]> m @@ k' = m @@ k'.
Proof. intros Hne. unfold rd. by rewrite lookup_insert_ne. Qed.

Lemma rd_insert m k k' x : <[k := x]> m @@ k' = if decide (k = k') then x else m @@ k'.
Proof. case_decide; [subst; apply rd_insert_eq | by apply rd_insert_ne]. Qed.

End rd_lemmas.

(** * Weakest preconditions: total correctness of a computation *)

Definition wp {St A : Type} (m : M St A) (Q : A -> St -> Prop) (s : St) : Prop :=
  match m s with
  | Ok (a, s') => Q a s'
  | Err _ => False
  end.

(** Well-behaved lenses. *)
Class LensLaws {St T : Type} (l : lens St T) : Prop := {
  view_over : forall t s, view l (over l t s) = t;
  over_view : forall s, over l (view l s) s = s;
  over_over : forall t t' s, over l t (over l t' s) = over l t s;
}.

Section wp_rules.
Context {St : Type}.
Implicit Types s : St.

Lemma wp_ret {A} (a : A) (Q : A -> St -> Prop) s : Q a s -> wp (mret a) Q s.
Proof. done. Qed.

Lemma wp_bind {A B} (m : M St A) (f : A -> M St B) Q s :
  wp m (fun a s' => wp (f a) Q s') s -> wp (m ≫= f) Q s.
Proof. unfold wp, mbind, M_bind. by destruct (m s) as [[a s']|e]. Qed.

Lemma wp_bind_assoc {A B C} (m : M St A) (f : A -> M St B) (g : B -> M St C) Q s :
  wp ((m ≫= f) ≫= g) Q s -> wp (m ≫= (fun a => f a ≫= g)) Q s.
Proof. unfold wp, mbind, M_bind. by destruct (m s) as [[a s']|e]. Qed.

Lemma wp_bind_inv {A B} (m : M St A) (f : A -> M St B) Q s :
  wp (m ≫= f) Q s -> wp m (fun a s' => wp (f a) Q s') s.
Proof. unfold wp, mbind, M_bind. by destruct (m s) as [[a s']|e]. Qed.

Lemma wp_get (Q : St -> St -> Prop) s : Q s s -> wp get Q s.
Proof. done. Qed.

Lemma wp_gets {A} (f : St -> A) (Q : A -> St -> Prop) s : Q (f s) s -> wp (gets f) Q s.
Proof. done. Qed.

Lemma wp_modify (f : St -> St) (Q : unit -> St -> Prop) s : Q tt (f s) -> wp (modify f) Q s.
Proof. done. Qed.

Lemma wp_when (b : bool) (m : M St unit) (Q : unit -> St -> Prop) s :
  (b = true -> wp m Q s) -> (b = false -> Q tt s) -> wp (when b m) Q s.
Proof. destruct b; intros H1 H2; [by apply H1 | by apply wp_ret, H2]. Qed.

Lemma wp_mono {A} (m : M St A) (P Q : A -> St -> Prop) s :
  wp m P s -> (forall a s', P a s' -> Q a s') -> wp m Q s.
Proof. unfold wp. destruct (m s) as [[a s']|e]; eauto. Qed.

Lemma wp_and {A} (m : M St A) (P Q : A -> St -> Prop) s : wp m P s -> wp m Q s -> wp m (fun a s' => P a s' /\ Q a s') s.
Proof. unfold wp. by destruct (m s) as [[a s']|e]. Qed.

Lemma wp_ok {A} (m : M St A) (Q : A -> St -> Prop) s :
  wp m Q s -> exists a s', m s = Ok (a, s') /\ Q a s'.
Proof. unfold wp. destruct (m s) as [[a s']|e]; [eauto | done]. Qed.

Lemma bind_inv_ok {A B} (m : M St A) (k : A -> M St B) s b s' : (m ≫= k) s = Ok (b, s') -> exists a s1, m s = Ok (a, s1) /\ k a s1 = Ok (b, s').
Proof. unfold mbind, M_bind. destruct (m s) as [[a s1]|e]; [eauto | done]. Qed.

Lemma wp_of_ok {A} (m : M St A) (Q : A -> St -> Prop) s a s' :
  m s = Ok (a, s') -> Q a s' -> wp m Q s.
Proof. unfold wp. by intros ->. Qed.

Lemma wp_zoom {T A} (l : lens St T) (m : M T A) (Q : A -> St -> Prop) s :
  wp m (fun a t => Q a (over l t s)) (view l s) -> wp (zoom l m) Q s.
Proof. unfold wp, zoom. by destruct (m (view l s)) as [[a t]|e]. Qed.

(** Rule of the counted loop: an invariant of the iteration number. *)
Lemma wp_for (n : nat) (I : Z -> St -> Prop) (body : Z -> M St unit) i s :
  I i s ->
  (forall k s', i <= k < i + Z.of_nat n -> I k s' -> wp (body k) (fun _ => I (k + 1)) s') ->
  wp (for_loop n i body) (fun _ => I (i + Z.of_nat n)) s.
Proof.
  revert i s. induction n as [|n IH]; intros i s HI Hbody; cbn [for_loop].
  - apply wp_ret. by replace (i + Z.of_nat 0) with i by lia.
  - apply wp_bind. eapply wp_mono; [apply Hbody; [lia | done] |].
    cbv beta. intros _ s' HI'.
    replace (i + Z.of_nat (S n)) with (i + 1 + Z.of_nat n) by lia.
    apply IH; [done |]. intros k t Hk. apply Hbody. lia.
Qed.

End wp_rules.

#[global] Arguments for_loop {St} n i body : simpl never.

(** One step of symbolic execution of a monadic body. *)
Ltac wp_step :=
  lazymatch goal with
  | |- wp (mret _) _ _ => apply wp_ret
  | |- wp (mbind _ _) _ _ => apply wp_bind
  | |- wp get _ _ => apply wp_get
  | |- wp (gets _) _ _ => apply wp_gets
  | |- wp (modify _) _ _ => apply wp_modify
  | |- wp (zoom _ _) _ _ => apply wp_zoom
  | |- wp (when _ _) _ _ => apply wp_when; intros
  | |- wp (if ?b then _ else _) _ _ => destruct b eqn:?
  end.
Ltac wp_run := repeat wp_step.

(** * Arithmetic and bits *)

(** [lia] with division and remainder by constants. *)
Ltac dlia := Z.to_euclidean_division_equations; lia.

(** Ranges and equations between closed terms, by computation. *)
Ltac closed_range := repeat split; vm_compute; congruence.

Lemma u64_small z : 0 <= z < 2 ^ 64 -> u64 z = z.
Proof. intros. by apply Z.mod_small. Qed.

Lemma u64_range z : 0 <= u64 z < 2 ^ 64.
Proof. by apply Z.mod_pos_bound. Qed.

Lemma u32_small z : 0 <= z < 2 ^ 32 -> u32 z = z.
Proof. intros. by apply Z.mod_small. Qed.

Lemma s32_small z : - 2 ^ 31 <= z < 2 ^ 31 -> s32 z = z.
Proof. intros. unfold s32. rewrite Z.mod_small; lia. Qed.

Lemma u32_range z : 0 <= u32 z < 2 ^ 32.
Proof. by apply Z.mod_pos_bound. Qed.

Lemma u16_small z : 0 <= z < 2 ^ 16 -> u16 z = z.
Proof. intros. by apply Z.mod_small. Qed.

Lemma u16_range z : 0 <= u16 z < 2 ^ 16.
Proof. by apply Z.mod_pos_bound. Qed.

Lemma u8_small z : 0 <= z < 2 ^ 8 -> u8 z = z.
Proof. intros. by apply Z.mod_small. Qed.

Lemma u8_range z : 0 <= u8 z < 2 ^ 8.
Proof. by apply Z.mod_pos_bound. Qed.

(** Values that fit their type, and the values of conversions. *)
Create HintDb kernel.
Create Rewrite HintDb kernel.
#[export] Hint Resolve u64_range u32_range u16_range u8_range : kernel.
#[export] Hint Rewrite u64_small u32_small u16_small u8_small s32_small using lia : kernel.
Ltac machine_ints := autorewrite with kernel.

Lemma truthy_true z : truthy z = true <-> z <> 0.
Proof. unfold truthy. rewrite negb_true_iff. lia. Qed.

Lemma truthy_false z : truthy z = false <-> z = 0.
Proof. unfold truthy. rewrite negb_false_iff. lia. Qed.

(** Testing one bit with a mask. *)
Lemma land_pow2_testbit z n : 0 <= n -> truthy (Z.land z (2 ^ n)) = Z.testbit z n.
Proof.
  intros Hn. destruct (Z.testbit z n) eqn:E.
  - apply truthy_true. intros H0.
    assert (Z.testbit (Z.land z (2 ^ n)) n = false) as H by (rewrite H0; apply Z.testbit_0_l).
    rewrite Z.land_spec, E, Z.pow2_bits_true in H by lia. done.
  - apply truthy_false. apply Z.bits_inj'. intros m Hm.
    rewrite Z.land_spec, Z.testbit_0_l, Z.pow2_bits_eqb by lia.
    destruct (Z.eqb_spec n m) as [->|]; [by rewrite E | by rewrite andb_false_r].
Qed.

Lemma testbit_setbit z n m : 0 <= n ->
  Z.testbit (Z.lor z (2 ^ n)) m = (m =? n) || Z.testbit z m.
Proof.
  intros Hn. destruct (Z.ltb_spec m 0) as [Hm|Hm].
  - rewrite !Z.testbit_neg_r by lia. destruct (Z.eqb_spec m n); [lia | done].
  - rewrite Z.lor_spec, Z.pow2_bits_eqb by lia.
    rewrite orb_comm, (Z.eqb_sym n m). done.
Qed.

Lemma testbit_clearbit z n m : 0 <= n ->
  Z.testbit (Z.ldiff z (2 ^ n)) m = negb (m =? n) && Z.testbit z m.
Proof.
  intros Hn. destruct (Z.ltb_spec m 0) as [Hm|Hm].
  - rewrite !Z.testbit_neg_r by lia. by rewrite andb_false_r.
  - rewrite Z.ldiff_spec, Z.pow2_bits_eqb by lia.
    rewrite (Z.eqb_sym n m), andb_comm. done.
Qed.

Lemma testbit_page_mask n : 0 <= n -> Z.testbit PAGE_MASK_4KB n = (12 <=? n) && (n <? 64).
Proof.
  intros Hn. change PAGE_MASK_4KB with (Z.shiftl (Z.ones 52) 12).
  rewrite Z.shiftl_spec by lia. destruct (Z.leb_spec 12 n); simpl.
  - rewrite Z.testbit_ones_nonneg by lia. destruct (Z.ltb_spec n 64), (Z.ltb_spec (n - 12) 52); lia || done.
  - by rewrite Z.testbit_neg_r by lia.
Qed.


(** Masking off low bits rounds down. *)
Lemma land_high_mask n x : 0 <= n <= 64 -> 0 <= x < 2 ^ 64 -> Z.land x (2 ^ 64 - 2 ^ n) = x / 2 ^ n * 2 ^ n.
Proof.
  intros Hn Hx. replace (2 ^ 64 - 2 ^ n) with (Z.shiftl (Z.ones (64 - n)) n); cycle 1.
  { rewrite Z.ones_equiv, Z.shiftl_mul_pow2 by lia. rewrite Z.mul_pred_l, <- Z.pow_add_r by lia. f_equal. f_equal. lia. }
  apply Z.bits_inj'. intros m Hm. rewrite Z.land_spec, Z.shiftl_spec, Z.mul_pow2_bits by lia.
  destruct (Z.ltb_spec m n); [by rewrite !(Z.testbit_neg_r _ (m - n)), andb_false_r by lia |].
  rewrite Z.div_pow2_bits by lia. replace (m - n + n) with m by lia. rewrite Z.testbit_ones_nonneg by lia.
  destruct (Z.ltb_spec (m - n) (64 - n)); [by rewrite andb_true_r |]. rewrite andb_false_r.
  destruct (Z.eq_dec x 0) as [->|]; [by rewrite Z.bits_0 |].
  symmetry. apply Z.bits_above_log2; [lia |]. apply Z.lt_le_trans with 64; [apply Z.log2_lt_pow2; lia | lia].
Qed.

(** Bits side by side, and the low bits. *)
Lemma lor_shifted a k n : 0 <= n -> 0 <= a < 2 ^ n -> Z.lor a (2 ^ n * k) = a + 2 ^ n * k.
Proof.
  intros Hn Ha. symmetry. apply Z.add_nocarry_lor, Z.bits_inj'. intros i Hi. rewrite Z.land_spec, Z.bits_0, (Z.mul_comm (2 ^ n)), Z.mul_pow2_bits by lia.
  destruct (Z.ltb_spec i n); [by rewrite (Z.testbit_neg_r k), andb_false_r by lia |].
  rewrite <- (Z.mod_small a (2 ^ n)), Z.mod_pow2_bits_high by lia. done.
Qed.

Lemma land_mask x n mask : mask = Z.ones n -> 0 <= n -> Z.land x mask = x mod 2 ^ n.
Proof. intros -> Hn. by apply Z.land_ones. Qed.

Lemma land_page_mask x : 0 <= x < 2 ^ 64 -> Z.land x PAGE_MASK_4KB = x / PAGE_SIZE_4KB * PAGE_SIZE_4KB.
Proof. intros. by apply (land_high_mask 12). Qed.

(** A property of the first [n] integers, checked by computation. *)
Lemma forall_Z_lt (n : nat) (f : Z -> bool) :
  forallb (fun i => f (Z.of_nat i)) (seq 0 n) = true ->
  forall k, 0 <= k < Z.of_nat n -> f k = true.
Proof.
  intros H k Hk. rewrite forallb_forall in H.
  rewrite <- (Z2Nat.id k) by lia. apply H, in_seq. lia.
Qed.
