(* ===== verification/Interfaces.v ===== *)
(** What one component of the kernel promises to another. A client's
    definitions and theorems are written against these classes; the component
    that implements an interface discharges its laws in its own file. *)
From S2P Require Import Prelude.

(** * Physical pages *)

(** The allocator of physical pages, as the page-table code sees it: a state,
    the operation [pmm_alloc_page], which pages are in use, how many are left,
    and the invariant under which the promises hold. *)
Class PageAlloc (St : Type) : Type := {
  alloc_page : M St Z;
  page_used : St -> Z -> bool;
  pages_left : St -> Z;
  pa_ok : St -> Prop;
}.

(** [alloc_page] returns 0 only when no page is left; otherwise the page it
    returns is page-aligned, below 2^47, was free, and is the only page whose
    status changes. *)
Class PageAllocLaws (St : Type) `{PageAlloc St} : Prop := {
  wp_alloc_page (s : St) : pa_ok s ->
    wp alloc_page (fun r s' => pa_ok s' /\
      ((r = 0 /\ pages_left s = 0 /\ s' = s) \/
       (exists k, 0 < k < 2 ^ 35 /\ r = k * PAGE_SIZE_4KB /\ page_used s k = false /\
          pages_left s' = pages_left s - 1 /\
          forall j, page_used s' j = if decide (j = k) then true else page_used s j))) s;
  pages_left_nonneg (s : St) : pa_ok s -> 0 <= pages_left s;
}.

(** * Memory for the heap *)

(** Where the heap allocator gets its memory: [pmm_alloc_pages], and
    [vmm_map_page] of a 4 KiB page, with given flags, into the address space in
    use. *)
Class HeapSource (St : Type) : Type := {
  hs_alloc_pages : Z -> M St Z;
  hs_map_page : Z -> Z -> Z -> M St unit;
}.

(** [hs_ok r s]: the source is sound and has [r] physical pages to give. A run
    of [n] pages costs at most [n] of them; a mapping costs at most three, for
    page tables. Neither can fault or loop. *)
Class HeapSourceLaws (St : Type) `{HeapSource St} : Type := {
  hs_ok : Z -> St -> Prop;
  wp_hs_alloc_pages r n s : hs_ok r s -> 0 <= n <= r ->
    wp (hs_alloc_pages n) (fun _ s' => hs_ok (r - n) s') s;
  wp_hs_map_page r p v f s : hs_ok r s -> 3 <= r ->
    wp (hs_map_page p v f) (fun _ s' => hs_ok (r - 3) s') s;
}.

(** * Kernel memory services *)

(** What the code that manages address spaces uses of the memory managers below
    it: [kmalloc] and [kfree], [pmm_alloc_page] and [pmm_free_page], [vmm_map_page]
    of a 4 KiB page with given flags in the current address space, and
    [vmm_unmap_page] of an address in the address space of a given table. *)
Class KernelMem (St : Type) : Type := {
  km_alloc : Z -> M St Z;
  km_free : Z -> M St unit;
  km_alloc_page : M St Z;
  km_free_page : Z -> M St unit;
  km_map_page : Z -> Z -> Z -> M St unit;
  km_unmap_page : Z -> Z -> M St Z;
  km_read_cr3 : M St Z;
}.

(** [km_live s p]: [p] is the address of an allocated object. [kmalloc] returns
    null or the address of a new object, which it makes live and nothing else;
    [kfree] ends the life of its argument; no service faults or loops, and the
    page services do not touch objects. *)
Class KernelMemLaws (St : Type) `{KernelMem St} : Type := {
  km_ok : St -> Prop;
  km_live : St -> Z -> Prop;
  wp_km_alloc n s : km_ok s -> 0 < n ->
    wp (km_alloc n) (fun r s' => km_ok s' /\
      ((r = 0 /\ forall p, km_live s' p <-> km_live s p) \/
       (r <> 0 /\ ~ km_live s r /\ forall p, km_live s' p <-> p = r \/ km_live s p))) s;
  wp_km_free p s : km_ok s -> km_live s p ->
    wp (km_free p) (fun _ s' => km_ok s' /\ forall q, km_live s' q <-> q <> p /\ km_live s q) s;
  wp_km_alloc_page s : km_ok s ->
    wp km_alloc_page (fun _ s' => km_ok s' /\ forall q, km_live s' q <-> km_live s q) s;
  wp_km_free_page p s : km_ok s ->
    wp (km_free_page p) (fun _ s' => km_ok s' /\ forall q, km_live s' q <-> km_live s q) s;
  wp_km_map_page p v f s : km_ok s ->
    wp (km_map_page p v f) (fun _ s' => km_ok s' /\ forall q, km_live s' q <-> km_live s q) s;
  wp_km_unmap_page t v s : km_ok s ->
    wp (km_unmap_page t v) (fun _ s' => km_ok s' /\ forall q, km_live s' q <-> km_live s q) s;
  wp_km_read_cr3 s : km_ok s ->
    wp km_read_cr3 (fun _ s' => s' = s) s;
}.

(** An address whose upper bits repeat bit 47, and the part of the address space
    where the kernel places areas. *)
Definition canonical (v : Z) : Prop := 0 <= v < 2 ^ 47 \/ 2 ^ 64 - 2 ^ 47 <= v < 2 ^ 64.
Definition kernel_area (v : Z) : Prop := 0xFFFFC00000000000 <= v < 0xFFFFE00000000000.

(** [km_maps s v]: the frame and the flags that the page at [v] is mapped with.
    [km_page s p]: frame [p] is in use. [km_room n s]: [n] pages are left. A page that
    is allocated was not in use; a mapping in the part for areas, with at most
    three pages for tables, changes the one page it is for. *)
Class KernelMapLaws (St : Type) `{KernelMemLaws St} : Type := {
  km_maps : St -> Z -> option (Z * Z);
  km_page : St -> Z -> Prop;
  km_room : Z -> St -> Prop;
  wp_km_fresh_page r s : km_ok s -> km_room r s -> 1 <= r ->
    wp km_alloc_page (fun p s' => p <> 0 /\ ~ km_page s p /\ (forall q, km_page s' q <-> q = p \/ km_page s q) /\
      km_room (r - 1) s' /\ forall w, km_maps s' w = km_maps s w) s;
  wp_km_map_at r p v f s : km_ok s -> km_room r s -> 3 <= r -> km_page s p -> v mod PAGE_SIZE_4KB = 0 -> kernel_area v ->
    wp (km_map_page p v f) (fun _ s' => km_room (r - 3) s' /\ (forall q, km_page s q -> km_page s' q) /\
      forall w, w mod PAGE_SIZE_4KB = 0 -> canonical w -> km_maps s' w = if decide (w = v) then Some (p, f) else km_maps s w) s;
}.

(** * What the file system uses *)

(** Pages, heap objects, and the first port of the disk controller: [fs_read k n]
    reads [n] pages, of eight sectors each, from sector [k] on and gives a
    status, 0 for success, and the bytes; [fs_write] stores a page. *)
Class FsServices (St : Type) : Type := {
  fs_alloc_page : M St Z;
  fs_alloc_pages : Z -> M St Z;
  fs_free_page : Z -> M St unit;
  fs_kmalloc : Z -> M St Z;
  fs_kfree : Z -> M St unit;
  fs_read : Z -> Z -> M St (Z * (Z -> Z));
  fs_write : Z -> (Z -> Z) -> M St Z;
}.

(** [fs_ok (n, h) s]: [n] more pages and [h] heap objects can be had. [fs_page s p] and
    [fs_obj s a]: the page and the object are in use; a new one was not. Pages
    are below 2^46, and objects above the direct map of these. [fs_block s k]: the bytes on disk from
    sector [k] on; a read that succeeds gives them, a write that succeeds
    replaces them, and neither touches pages or objects. *)
Class FsServicesLaws (St : Type) `{FsServices St} : Type := {
  fs_ok : nat * nat -> St -> Prop;
  fs_page : St -> Z -> Prop;
  fs_obj : St -> Z -> Prop;
  fs_block : St -> Z -> Z -> Z;
  wp_fs_alloc_page n h s : fs_ok (S n, h) s ->
    wp fs_alloc_page (fun r s' => fs_ok (n, h) s' /\ r <> 0 /\ r mod PAGE_SIZE_4KB = 0 /\ 0 < r < 2 ^ 46 /\ ~ fs_page s r /\
      (forall p, fs_page s' p <-> p = r \/ fs_page s p) /\ (forall a, fs_obj s' a <-> fs_obj s a) /\ fs_block s' = fs_block s) s;
  wp_fs_free_page n h p s : fs_ok (n, h) s -> fs_page s p ->
    wp (fs_free_page p) (fun _ s' => fs_ok (S n, h) s' /\ (forall q, fs_page s' q <-> q <> p /\ fs_page s q) /\
      (forall a, fs_obj s' a <-> fs_obj s a) /\ fs_block s' = fs_block s) s;
  wp_fs_kmalloc n h z s : fs_ok (n, S h) s ->
    wp (fs_kmalloc z) (fun r s' => fs_ok (n, h) s' /\ DIRECT_OFFSET + 2 ^ 46 <= r < 2 ^ 64 /\ ~ fs_obj s r /\
      (forall a, fs_obj s' a <-> a = r \/ fs_obj s a) /\ (forall p, fs_page s' p <-> fs_page s p) /\ fs_block s' = fs_block s) s;
  wp_fs_kfree n h a s : fs_ok (n, h) s -> fs_obj s a ->
    wp (fs_kfree a) (fun _ s' => fs_ok (n, S h) s' /\ (forall b, fs_obj s' b <-> b <> a /\ fs_obj s b) /\
      (forall p, fs_page s' p <-> fs_page s p) /\ fs_block s' = fs_block s) s;
  wp_fs_read n k c s : fs_ok n s ->
    wp (fs_read k c) (fun r s' => fs_ok n s' /\
      (r.1 = 0 -> forall i, 0 <= i < c * PAGE_SIZE_4KB -> r.2 i = fs_block s (k + i / PAGE_SIZE_4KB * 8) (i mod PAGE_SIZE_4KB)) /\
      (forall p, fs_page s' p <-> fs_page s p) /\ (forall a, fs_obj s' a <-> fs_obj s a) /\ fs_block s' = fs_block s) s;
  wp_fs_write n k f s : fs_ok n s ->
    wp (fs_write k f) (fun r s' => fs_ok n s' /\
      (r = 0 -> forall j i, (j - k) mod 8 = 0 -> 0 <= i < PAGE_SIZE_4KB -> fs_block s' j i = if decide (j = k) then f i else fs_block s j i) /\
      (r <> 0 -> fs_block s' = fs_block s) /\
      (forall p, fs_page s' p <-> fs_page s p) /\ (forall a, fs_obj s' a <-> fs_obj s a)) s;
}.

(** * Devices *)

(** The ports of the processor and its 64-bit time stamp counter. *)
Class Ports (St : Type) : Type := {
  outb : Z -> Z -> M St unit;
  inb : Z -> M St Z;
  outl : Z -> Z -> M St unit;
  inl : Z -> M St Z;
  read_tsc : M St Z;
}.
