(* ===== verification/Cpu.v ===== *)
(** The processor state the kernel reads and writes through the assembly
    wrappers of [arch/x86_64/utils/inlineasm.c], and the spinlocks of
    [kernel/sync/spinlock.c] built on them. *)
From S2P Require Import Prelude.

(** * Processor registers *)

(** RFLAGS and CR3, the two registers the modelled code depends on. *)
Record cpu : Type := Cpu { rflags : Z; cr3 : Z }.

Definition FLAGS_IF : Z := 0x200.

Section registers.
Context {St : Type} (Lc : lens St cpu).

Definition read_rflags : M St Z := gets (fun s => rflags (view Lc s)).

Definition write_rflags (rf : Z) : M St unit :=
  modify (fun s => over Lc (Cpu rf (cr3 (view Lc s))) s).

Definition cli : M St unit :=
  modify (fun s => let c := view Lc s in over Lc (Cpu (Z.ldiff (rflags c) FLAGS_IF) (cr3 c)) s).

Definition sti : M St unit :=
  modify (fun s => let c := view Lc s in over Lc (Cpu (Z.lor (rflags c) FLAGS_IF) (cr3 c)) s).

Definition read_cr3 : M St Z := gets (fun s => cr3 (view Lc s)).

Definition write_cr3 (paddr : Z) : M St unit :=
  modify (fun s => over Lc (Cpu (rflags (view Lc s)) paddr) s).

End registers.

(** Model specific registers, by index: 64 bits each, read and written in halves. *)
Definition read_msr (index : Z) : M (gmap Z Z) (Z * Z) := gets (fun m => (u32 (m @@ index), u32 (Z.shiftr (m @@ index) 32))).
Definition write_msr (index low high : Z) : M (gmap Z Z) unit := modify (fun m => <[index := Z.lor (u32 low) (Z.shiftl (u32 high) 32)]> m).

(** * Spinlocks *)

(** The lock word is [volatile int lock]. Interrupts are off while a core
    spins and the kernel starts no second core, so a lock that is found taken
    is never released: the loop of [spin_lock_irqsave] hangs. *)
Section spinlock.
Context {St : Type} (Lc : lens St cpu) (Ll : lens St Z).

Definition atomic_test_and_set : M St bool :=
  fun s => Ok (truthy (view Ll s), over Ll 1 s).

Definition spin_lock_irqsave : M St Z :=
  rf ← read_rflags Lc;
  cli Lc;;
  held ← atomic_test_and_set;
  if (held : bool) then fail Hang else mret rf.

Definition spin_lock_irqrestore (rf : Z) : M St unit :=
  modify (fun s => over Ll 0 s);;
  write_rflags Lc rf.

End spinlock.

(** * Spinlocks under interleaving *)

(** The same two functions as a step relation: any number of agents run them
    on one lock word, each with its own RFLAGS, one statement at a time. *)
Inductive lock_pc : Type :=
  | Outside                  (** not in the lock's code *)
  | Saved (rf : Z)           (** after [read_rflags] *)
  | Spinning (rf : Z)        (** after [cli], at [__atomic_test_and_set] *)
  | Critical (rf : Z)        (** [spin_lock_irqsave] has returned [rf] *)
  | Releasing (rf : Z).      (** after [__atomic_clear], at [write_rflags] *)

Record agent : Type := Agent { pc : lock_pc; flags : Z }.
Record lock_state : Type := LockState { word : Z; agents : gmap nat agent }.

Definition set_agent (i : nat) (a : agent) (w : Z) (s : lock_state) : lock_state :=
  LockState w (<[i := a]> (agents s)).

Inductive lock_step (s : lock_state) : lock_state -> Prop :=
  | step_read i f : agents s !! i = Some (Agent Outside f) ->
      lock_step s (set_agent i (Agent (Saved f) f) (word s) s)
  | step_cli i rf f : agents s !! i = Some (Agent (Saved rf) f) ->
      lock_step s (set_agent i (Agent (Spinning rf) (Z.ldiff f FLAGS_IF)) (word s) s)
  | step_spin i rf f : agents s !! i = Some (Agent (Spinning rf) f) -> word s <> 0 ->
      lock_step s (set_agent i (Agent (Spinning rf) f) 1 s)
  | step_acquire i rf f : agents s !! i = Some (Agent (Spinning rf) f) -> word s = 0 ->
      lock_step s (set_agent i (Agent (Critical rf) f) 1 s)
  | step_clear i rf f : agents s !! i = Some (Agent (Critical rf) f) ->
      lock_step s (set_agent i (Agent (Releasing rf) f) 0 s)
  | step_restore i rf f : agents s !! i = Some (Agent (Releasing rf) f) ->
      lock_step s (set_agent i (Agent Outside rf) (word s) s).

(** Nobody is in the lock's code and the word is 0. *)
Definition lock_init (s : lock_state) : Prop :=
  word s = 0 /\ forall i a, agents s !! i = Some a -> pc a = Outside.

Definition holds (s : lock_state) (i : nat) : Prop :=
  exists rf f, agents s !! i = Some (Agent (Critical rf) f).

(** The invariant: the word is set exactly when somebody is in the critical
    section, at most one agent is, and interrupts are off from [cli] to
    [write_rflags]. *)
Definition lock_inv (s : lock_state) : Prop :=
  (forall i j, holds s i -> holds s j -> i = j) /\
  (forall i, holds s i -> word s = 1) /\
  (forall i rf f, agents s !! i = Some (Agent (Spinning rf) f) \/
                  agents s !! i = Some (Agent (Critical rf) f) \/
                  agents s !! i = Some (Agent (Releasing rf) f) -> Z.testbit f 9 = false).

(** * Lemmas *)

Section spinlock_lemmas.
Context {St : Type} (Lc : lens St cpu) (Ll : lens St Z).

Lemma wp_spin_lock_irqsave Q s :
  (forall rf, rf = rflags (view Lc s) ->
     let s1 := over Lc (Cpu (Z.ldiff rf FLAGS_IF) (cr3 (view Lc s))) s in
     view Ll s1 = 0 /\ Q rf (over Ll 1 s1)) ->
  wp (spin_lock_irqsave Lc Ll) Q s.
Proof.
  intros H. destruct (H _ eq_refl) as [H0 HQ].
  unfold spin_lock_irqsave, read_rflags, cli. wp_run.
  unfold wp, atomic_test_and_set. simpl in *. rewrite H0. done.
Qed.

Lemma wp_spin_lock_irqrestore rf (Q : unit -> St -> Prop) s :
  (let s1 := over Ll 0 s in Q tt (over Lc (Cpu rf (cr3 (view Lc s1))) s1)) ->
  wp (spin_lock_irqrestore Lc Ll rf) Q s.
Proof. intros H. unfold spin_lock_irqrestore, write_rflags. by wp_run. Qed.

End spinlock_lemmas.

Lemma set_agent_lookup i a w s j b :
  agents (set_agent i a w s) !! j = Some b ->
  (i = j /\ b = a) \/ (i <> j /\ agents s !! j = Some b).
Proof. simpl. intros [[-> <-]|[Hne H]]%lookup_insert_Some; eauto. Qed.

Lemma holds_set_agent i p f w s j :
  holds (set_agent i (Agent p f) w s) j ->
  (i = j /\ exists rf, p = Critical rf) \/ (i <> j /\ holds s j).
Proof.
  intros (rf' & f' & [[-> [= <- ->]]|[Hne H]]%set_agent_lookup); [eauto |].
  right. split; [done | by exists rf', f'].
Qed.

Lemma lock_init_inv s : lock_init s -> lock_inv s.
Proof.
  intros [Hw Ho]. split_and!.
  - intros i j (rf & f & Hi%Ho). done.
  - intros i (rf & f & Hi%Ho). done.
  - by intros i rf f [H%Ho|[H%Ho|H%Ho]].
Qed.

Lemma clear_if_testbit f : Z.testbit (Z.ldiff f FLAGS_IF) 9 = false.
Proof. change FLAGS_IF with (2 ^ 9). rewrite testbit_clearbit by lia. done. Qed.

(** The state of one agent changes: what is left to show of the invariant. *)
Lemma lock_inv_set_agent i p f w s :
  lock_inv s ->
  ((exists rf, p = Critical rf) -> w = 1 /\ forall j, holds s j -> i = j) ->
  (forall j, i <> j -> holds s j -> w = 1) ->
  ((exists rf, p = Spinning rf \/ p = Critical rf \/ p = Releasing rf) -> Z.testbit f 9 = false) ->
  lock_inv (set_agent i (Agent p f) w s).
Proof.
  intros (Hex & Hw & Hif) Hc Hother Hbit. split_and!.
  - intros j k [[-> Hj]|[Hne Hj]]%holds_set_agent [[-> Hk]|[Hne' Hk]]%holds_set_agent; eauto.
    + by apply Hc.
    + symmetry. by apply Hc.
  - intros j [[-> Hj]|[Hne Hj]]%holds_set_agent; simpl; [by apply Hc | eauto].
  - intros j rf f' Hor.
    destruct_or! Hor; apply set_agent_lookup in Hor as [[-> [= <- <-]]|[_ Hor]]; eauto 6.
Qed.

Lemma holds_critical s i rf f : agents s !! i = Some (Agent (Critical rf) f) -> holds s i.
Proof. by exists rf, f. Qed.

Lemma lock_step_inv s s' : lock_inv s -> lock_step s s' -> lock_inv s'.
Proof.
  intros Hinv Hstep. pose proof Hinv as (Hex & Hw & Hif).
  destruct Hstep as [i f H|i rf f H|i rf f H W|i rf f H W|i rf f H|i rf f H];
    (apply lock_inv_set_agent; [done | intros [r Hr] | intros j Hne Hj | intros [r Hr]]);
    eauto 6 using clear_if_testbit; try naive_solver.
  - split; [done |]. intros j Hj%Hw. lia.
  - apply holds_critical in H. by destruct (Hne (Hex _ _ H Hj)).
Qed.

(** * Theorems *)

(** C33: mutual exclusion: in every state reachable by any interleaving of agents
    through [spin_lock_irqsave] and [spin_lock_irqrestore], at most one agent
    is between the two, the word is 1 while it is, and its interrupts are off. *)
Theorem spinlock_mutual_exclusion s s' :
  lock_init s -> rtc lock_step s s' ->
  (forall i j, holds s' i -> holds s' j -> i = j) /\
  (forall i rf f, agents s' !! i = Some (Agent (Critical rf) f) ->
     word s' = 1 /\ Z.testbit f 9 = false).
Proof.
  intros Hinit Hsteps.
  assert (lock_inv s') as (Hex & Hw & Hif).
  { apply lock_init_inv in Hinit. induction Hsteps; eauto using lock_step_inv. }
  split; [done |]. intros i rf f H. split; [apply (Hw i); by exists rf, f | eauto].
Qed.

(** * Witness *)

(** Two agents, of which the first takes the lock. *)
Definition two_agents (pc0 : lock_pc) (f w : Z) : lock_state :=
  LockState w (<[0%nat := Agent pc0 f]> (<[1%nat := Agent Outside 0x200]> ∅)).

Lemma spinlock_mutual_exclusion_witness :
  holds (two_agents (Critical 0x200) 0 1) 0 /\
  forall i rf f, agents (two_agents (Critical 0x200) 0 1) !! i = Some (Agent (Critical rf) f) -> Z.testbit f 9 = false.
Proof.
  split; [exists 0x200, 0; reflexivity |].
  assert (lock_init (two_agents Outside 0x200 0)) as H0.
  { split; [reflexivity |]. intros i a. unfold two_agents. cbn [agents]. rewrite !lookup_insert, lookup_empty.
    repeat case_decide; naive_solver. }
  assert (rtc lock_step (two_agents Outside 0x200 0) (two_agents (Critical 0x200) 0 1)) as Hs.
  { apply (rtc_l _ _ (two_agents (Saved 0x200) 0x200 0)); [exact (step_read (two_agents Outside 0x200 0) 0 0x200 eq_refl) |].
    apply (rtc_l _ _ (two_agents (Spinning 0x200) 0 0)); [exact (step_cli (two_agents (Saved 0x200) 0x200 0) 0 0x200 0x200 eq_refl) |].
    apply rtc_once. exact (step_acquire (two_agents (Spinning 0x200) 0 0) 0 0x200 0 eq_refl eq_refl). }
  intros i rf f Hi. exact (proj2 (proj2 (spinlock_mutual_exclusion _ _ H0 Hs) i rf f Hi)).
Defined.
