(* ===== verification/Pmm.v ===== *)
(** Physical memory manager ([mm/pmm.c], [include/mm/pmm.h]): a bitmap with one
    bit per 4 KiB page, set when the page is in use. *)
From S2P Require Import Prelude Interfaces Cpu.

(** * State *)

(** [bitmap] holds the bytes from [kernel_end] on. The bitmap proper is its
    first [(total_pages + 7) / 8] bytes; the map may hold bytes beyond it, which
    are whatever memory follows, because the code reads there too. *)
Record pmm : Type := Pmm {
  p_cpu : cpu;
  pmm_lock : Z;
  bitmap : gmap Z Z;
  total_pages : Z;
}.

Definition set_p_cpu (c : cpu) (s : pmm) : pmm := Pmm c (pmm_lock s) (bitmap s) (total_pages s).
Definition set_pmm_lock (l : Z) (s : pmm) : pmm := Pmm (p_cpu s) l (bitmap s) (total_pages s).
Definition set_bitmap (b : gmap Z Z) (s : pmm) : pmm := Pmm (p_cpu s) (pmm_lock s) b (total_pages s).

Definition l_cpu : lens pmm cpu := Lens p_cpu set_p_cpu.
Definition l_lock : lens pmm Z := Lens pmm_lock set_pmm_lock.

(** * The bitmap macros *)

Definition BITMAP_SET (bit : Z) : M pmm unit := modify (fun s =>
  set_bitmap (<[bit / 8 := u8 (Z.lor (bitmap s @@ (bit / 8)) (Z.shiftl 1 (bit mod 8)))]> (bitmap s)) s).

Definition BITMAP_CLR (bit : Z) : M pmm unit := modify (fun s =>
  set_bitmap (<[bit / 8 := u8 (Z.land (bitmap s @@ (bit / 8)) (Z.lnot (Z.shiftl 1 (bit mod 8))))]> (bitmap s)) s).

Definition bitmap_test (s : pmm) (bit : Z) : bool :=
  truthy (Z.land (bitmap s @@ (bit / 8)) (Z.shiftl 1 (bit mod 8))).

Definition BITMAP_TEST (bit : Z) : M pmm bool := gets (fun s => bitmap_test s bit).

(** * Allocation and release *)

(** The scan of [pmm_alloc_page]; [n] counts the iterations left. *)
Fixpoint pmm_alloc_page_loop (n : nat) (i rflags : Z) : M pmm Z :=
  match n with
  | O => spin_lock_irqrestore l_cpu l_lock rflags;; mret 0
  | S n' =>
      used ← BITMAP_TEST i;
      if (used : bool) then pmm_alloc_page_loop n' (i + 1) rflags
      else
        BITMAP_SET i;;
        spin_lock_irqrestore l_cpu l_lock rflags;;
        mret (u64 (i * PAGE_SIZE_4KB))
  end.

Definition pmm_alloc_page : M pmm Z :=
  rflags ← spin_lock_irqsave l_cpu l_lock;
  n ← gets total_pages;
  pmm_alloc_page_loop (Z.to_nat n) 0 rflags.

(** The inner loop of [pmm_alloc_pages]: the first [j] in [j .. j + n - 1]
    whose page [i + j] is in use. *)
Fixpoint first_used (n : nat) (i j : Z) (s : pmm) : option Z :=
  match n with
  | O => None
  | S n' => if bitmap_test s (i + j) then Some j else first_used n' i (j + 1) s
  end.

(** [i] is an [int]: [i += j] and [i++] wrap at 32 bits, and so does the
    product of the result, which is then sign-extended to 64 bits. *)
Fixpoint pmm_alloc_pages_loop (fuel : nat) (i pages_count : Z) : M pmm Z :=
  match fuel with
  | O => fail Hang
  | S fuel' =>
      s ← get;
      if negb (u64 i <=? total_pages s) then mret 0
      else if bitmap_test s i then pmm_alloc_pages_loop fuel' (s32 (i + 1)) pages_count
      else match first_used (Z.to_nat (pages_count - 1)) i 1 s with
           | Some j => pmm_alloc_pages_loop fuel' (s32 (s32 (i + j) + 1)) pages_count
           | None =>
               for_loop (Z.to_nat pages_count) 0 (fun j => BITMAP_SET (i + j));;
               mret (u64 (s32 (i * PAGE_SIZE_4KB)))
           end
  end.

(** [pages_count] is an [int], compared with [total_pages] as a [uint64_t]. *)
Definition pmm_alloc_pages (pages_count : Z) : M pmm Z :=
  total ← gets total_pages;
  if pages_count =? 0 then mret 0
  else if total <? u64 pages_count then mret 0
  else pmm_alloc_pages_loop (Z.to_nat (total + 2)) 0 pages_count.

Definition pmm_free_page (paddr : Z) : M pmm unit :=
  if paddr =? 0 then mret tt
  else
    let bit := paddr / PAGE_SIZE_4KB in
    s ← get;
    if total_pages s <=? bit then mret tt
    else if negb (bitmap_test s bit) then mret tt
    else BITMAP_CLR bit.

(** * Specification vocabulary *)

(** Pages [i .. i + n - 1] are all free. *)
Definition run_free (s : pmm) (i n : Z) : Prop :=
  forall j, 0 <= j < n -> bitmap_test s (i + j) = false.

(** [s'] is [s] with exactly the pages satisfying [P] marked as [b]. *)
Definition marked (P : Z -> Prop) (b : bool) (s s' : pmm) : Prop :=
  (forall k, P k -> bitmap_test s' k = b) /\
  (forall k, ~ P k -> bitmap_test s' k = bitmap_test s k) /\
  total_pages s' = total_pages s /\ p_cpu s' = p_cpu s /\ pmm_lock s' = pmm_lock s.

(** A byte of the bitmap rewritten by [f byte bit_number]. *)
Definition upd_byte (f : Z -> Z -> Z) (bit : Z) (s : pmm) : pmm :=
  set_bitmap (<[bit / 8 := u8 (f (bitmap s @@ (bit / 8)) (bit mod 8))]> (bitmap s)) s.

(** Two states that no bit test distinguishes. *)
Definition pmm_equiv (s s' : pmm) : Prop := marked (fun _ => False) true s s'.

(** Number of free pages among the first [n]. *)
Fixpoint free_count (n : nat) (s : pmm) : Z :=
  match n with
  | O => 0
  | S n' => (if bitmap_test s (Z.of_nat n') then 0 else 1) + free_count n' s
  end.

Definition free_pages (s : pmm) : Z := free_count (Z.to_nat (total_pages s)) s.

(** * Lemmas: bits of the bitmap *)

Lemma u8_testbit z k : 0 <= k < 8 -> Z.testbit (u8 z) k = Z.testbit z k.
Proof.
  intros Hk. unfold u8. rewrite Z.testbit_mod_pow2 by lia.
  destruct (Z.ltb_spec k 8); [done | lia].
Qed.

Lemma bitmap_test_testbit s k :
  bitmap_test s k = Z.testbit (bitmap s @@ (k / 8)) (k mod 8).
Proof.
  unfold bitmap_test. rewrite Z.shiftl_mul_pow2, Z.mul_1_l by (apply Z.mod_pos_bound; lia).
  apply land_pow2_testbit, Z.mod_pos_bound. lia.
Qed.

Lemma byte_bit_split a b : a / 8 = b / 8 -> a mod 8 = b mod 8 -> a = b.
Proof. intros. rewrite (Z.div_mod a 8), (Z.div_mod b 8) by lia. congruence. Qed.

Lemma upd_byte_test f b bit s k :
  (forall z n m, 0 <= n -> Z.testbit (f z n) m = if m =? n then b else Z.testbit z m) ->
  bitmap_test (upd_byte f bit s) k = if decide (k = bit) then b else bitmap_test s k.
Proof.
  intros Hf. rewrite !bitmap_test_testbit. unfold upd_byte. simpl.
  pose proof (Z.mod_pos_bound k 8 ltac:(lia)). pose proof (Z.mod_pos_bound bit 8 ltac:(lia)).
  destruct (decide (k / 8 = bit / 8)) as [E|E].
  - rewrite E, rd_insert_eq, u8_testbit, Hf by lia.
    destruct (Z.eqb_spec (k mod 8) (bit mod 8)) as [E'|E']; case_decide as D; subst; try done.
    by destruct D; apply byte_bit_split.
  - rewrite rd_insert_ne by congruence. case_decide; congruence.
Qed.

Lemma marked_upd_byte f b bit s :
  (forall z n m, 0 <= n -> Z.testbit (f z n) m = if m =? n then b else Z.testbit z m) ->
  marked (fun k => k = bit) b s (upd_byte f bit s).
Proof.
  intros Hf. split_and!; [| | done..]; intros k Hk;
    rewrite (upd_byte_test f b) by done; by case_decide.
Qed.

Lemma wp_BITMAP_SET bit (Q : unit -> pmm -> Prop) s :
  (forall s', marked (fun k => k = bit) true s s' -> Q tt s') -> wp (BITMAP_SET bit) Q s.
Proof.
  intros HQ. apply wp_modify, HQ.
  apply (marked_upd_byte (fun z n => Z.lor z (Z.shiftl 1 n))). intros z n m Hn.
  rewrite Z.shiftl_mul_pow2, Z.mul_1_l, testbit_setbit by lia. by destruct (m =? n).
Qed.

Lemma wp_BITMAP_CLR bit (Q : unit -> pmm -> Prop) s :
  (forall s', marked (fun k => k = bit) false s s' -> Q tt s') -> wp (BITMAP_CLR bit) Q s.
Proof.
  intros HQ. apply wp_modify, HQ.
  apply (marked_upd_byte (fun z n => Z.land z (Z.lnot (Z.shiftl 1 n)))). intros z n m Hn.
  rewrite Z.shiftl_mul_pow2, Z.mul_1_l by lia. rewrite <- Z.ldiff_land.
  rewrite testbit_clearbit by lia. by destruct (m =? n).
Qed.

(** * Lemmas: marking sets of pages *)

Lemma marked_refl (P : Z -> Prop) b s : (forall k, ~ P k) -> marked P b s s.
Proof. intros HP. split_and!; try done. intros k Hp. by destruct (HP k). Qed.

Lemma marked_trans P Q b s1 s2 s3 :
  marked P b s1 s2 -> marked Q b s2 s3 -> (forall k, Decision (Q k)) ->
  marked (fun k => P k \/ Q k) b s1 s3.
Proof.
  intros (HP & HnP & ? & ? & ?) (HQ & HnQ & ? & ? & ?) Hdec. split_and!; try congruence.
  - intros k Hor. destruct (Hdec k) as [Hq|Hq]; [by apply HQ |].
    rewrite HnQ by done. apply HP. tauto.
  - intros k Hn. rewrite HnQ, HnP; tauto.
Qed.

Lemma marked_iff P Q b s s' : (forall k, P k <-> Q k) -> marked P b s s' -> marked Q b s s'.
Proof.
  intros Hiff (H1 & H2 & H3).
  split_and!; [intros k Hk; by apply H1, Hiff | intros k Hk; by apply H2; rewrite Hiff | apply H3..].
Qed.

(** Marking and then marking back leaves nothing changed. *)
Lemma marked_undo P b s1 s2 s3 :
  marked P (negb b) s1 s2 -> marked P b s2 s3 -> (forall k, P k -> bitmap_test s1 k = b) ->
  (forall k, Decision (P k)) -> pmm_equiv s1 s3.
Proof.
  intros (Ha & Ha' & ? & ? & ?) (Hc & Hc' & ? & ? & ?) Hb Hdec. split_and!; try congruence; [done |].
  intros k _. destruct (Hdec k) as [Hk|Hk]; [by rewrite Hc, Hb | by rewrite Hc', Ha'].
Qed.

#[export] Instance pmm_equiv_equivalence : Equivalence pmm_equiv.
Proof.
  split.
  - intros s. apply marked_refl. tauto.
  - intros s s' (_ & H & ? & ? & ?). split_and!; try done. intros k Hk. by rewrite H.
  - intros s1 s2 s3 (_ & Ha & ? & ? & ?) (_ & Hc & ? & ? & ?). split_and!; try congruence; [done |].
    intros k Hk. by rewrite Hc, Ha.
Qed.

#[export] Instance bitmap_test_proper : Proper (pmm_equiv ==> eq ==> eq) bitmap_test.
Proof. intros s s' (_ & H & _) k _ <-. symmetry. apply H. tauto. Qed.

(** Setting a run of pages, as the second inner loop of [pmm_alloc_pages] does. *)
Lemma wp_set_run i n (Q : unit -> pmm -> Prop) s :
  0 <= n ->
  (forall s', marked (fun k => i <= k < i + n) true s s' -> Q tt s') ->
  wp (for_loop (Z.to_nat n) 0 (fun j => BITMAP_SET (i + j))) Q s.
Proof.
  intros Hn HQ. eapply wp_mono.
  - apply (wp_for _ (fun j s' => 0 <= j /\ marked (fun k => i <= k < i + j) true s s')).
    + split; [done |]. apply marked_refl. lia.
    + intros j s' _ [Hj Hm]. apply wp_BITMAP_SET. intros s'' Hm'. split; [lia |].
      eapply marked_iff; [| eapply marked_trans; [exact Hm | exact Hm' | intros k; apply _]].
      intros k; cbv beta; lia.
  - cbv beta. intros [] s' [_ Hm]. apply HQ. eapply marked_iff; [| exact Hm]. intros k; cbv beta; lia.
Qed.

Lemma first_used_None n i j s :
  first_used n i j s = None <-> forall k, j <= k < j + Z.of_nat n -> bitmap_test s (i + k) = false.
Proof.
  revert j. induction n as [|n IH]; intros j; cbn [first_used]; [split; [lia | done] |].
  destruct (bitmap_test s (i + j)) eqn:E.
  - split; [done |]. intros H. rewrite H in E; [done | lia].
  - rewrite IH. split; intros H k Hk; [| apply H; lia].
    destruct (Z.eq_dec k j) as [->|]; [done | apply H; lia].
Qed.

Lemma first_used_Some n i j s k :
  first_used n i j s = Some k -> j <= k < j + Z.of_nat n /\ bitmap_test s (i + k) = true.
Proof.
  revert j. induction n as [|n IH]; intros j; cbn [first_used]; [done |].
  destruct (bitmap_test s (i + j)) eqn:E; [intros [= <-]; split; [lia | done] |].
  intros [H ?]%IH. split; [lia | done].
Qed.

(** The state after [spin_lock_irqrestore(&pmm_lock, rflags)]. *)
Lemma marked_unlocked P b rf s s' :
  marked P b s s' ->
  marked P b (set_p_cpu (Cpu rf (cr3 (p_cpu s))) (set_pmm_lock 0 s))
             (set_p_cpu (Cpu rf (cr3 (p_cpu s'))) (set_pmm_lock 0 s')).
Proof. intros (H1 & H2 & ? & Hc & ?). split_and!; try done. simpl. by rewrite Hc. Qed.

Lemma pmm_alloc_page_loop_spec n i rf s :
  0 <= i -> i + Z.of_nat n <= 2 ^ 52 ->
  let st := set_p_cpu (Cpu rf (cr3 (p_cpu s))) (set_pmm_lock 0 s) in
  wp (pmm_alloc_page_loop n i rf) (fun r s' =>
    (exists k, i <= k < i + Z.of_nat n /\ r = k * PAGE_SIZE_4KB /\ bitmap_test s k = false /\
       (forall j, i <= j < k -> bitmap_test s j = true) /\ marked (fun j => j = k) true st s') \/
    (r = 0 /\ s' = st /\ forall j, i <= j < i + Z.of_nat n -> bitmap_test s j = true)) s.
Proof.
  revert i. induction n as [|n IH]; intros i Hi Hn st; cbn [pmm_alloc_page_loop].
  - apply wp_bind, wp_spin_lock_irqrestore, wp_ret. right. split_and!; [done.. | lia].
  - apply wp_bind, wp_gets. destruct (bitmap_test s i) eqn:E.
    + eapply wp_mono; [apply IH; lia |].
      intros r s' [(k & Hk & -> & Hf & Hlow & Hm)|(-> & -> & Hall)]; [left; exists k | right];
        (split_and!; try done; try lia);
        intros j Hj; (destruct (Z.eq_dec j i) as [->|]; [done |]); [apply Hlow | apply Hall]; lia.
    + apply wp_bind, wp_BITMAP_SET. intros s1 Hm.
      apply wp_bind, wp_spin_lock_irqrestore, wp_ret. left. exists i.
      split_and!; [lia.. | | done | lia | exact (marked_unlocked _ _ rf _ _ Hm)].
      apply u64_small. unfold PAGE_SIZE_4KB. lia.
Qed.

(** Freeing or using up pages, counted. *)
Lemma free_count_ext n s s' :
  (forall k, 0 <= k < Z.of_nat n -> bitmap_test s' k = bitmap_test s k) ->
  free_count n s' = free_count n s.
Proof.
  induction n as [|n IH]; intros H; [done |]. cbn [free_count].
  rewrite H, IH by (intros; try apply H; lia). done.
Qed.

Lemma free_count_flip n i b s s' :
  0 <= i -> bitmap_test s i = negb b -> marked (fun k => k = i) b s s' ->
  free_count n s' = free_count n s +
    (if decide (i < Z.of_nat n) then (if b then -1 else 1) else 0).
Proof.
  intros Hi Hb (Hat & Hother & _). induction n as [|n IH]; cbn [free_count].
  - by case_decide; [lia |].
  - destruct (Z.eq_dec (Z.of_nat n) i) as [Heq|Hne].
    + rewrite IH, Hat, Heq, Hb by done. destruct b; simpl; repeat case_decide; lia.
    + rewrite Hother, IH by done. do 2 case_decide; lia.
Qed.

(** What a call of [pmm_alloc_pages] may end with. *)
Definition alloc_pages_post (n : Z) (s : pmm) (r : Z) (s' : pmm) : Prop :=
  (exists k, 0 <= k <= total_pages s /\ run_free s k n /\
     (forall j, 0 <= j < k -> ~ run_free s j n) /\
     r = u64 (s32 (k * PAGE_SIZE_4KB)) /\ marked (fun j => k <= j < k + n) true s s') \/
  (r = 0 /\ s' = s /\ forall j, 0 <= j <= total_pages s -> ~ run_free s j n).

(** A page in use rules out every run that contains it. *)
Lemma used_no_run s i n k : bitmap_test s k = true -> i <= k < i + n -> ~ run_free s i n.
Proof.
  intros Hk Hr H. specialize (H (k - i) ltac:(lia)).
  replace (i + (k - i)) with k in H by lia. congruence.
Qed.

Lemma pmm_alloc_pages_loop_spec fuel i n s :
  0 < n <= total_pages s -> total_pages s < 2 ^ 30 ->
  0 <= i <= 2 * total_pages s + 1 -> total_pages s + 1 <= i + Z.of_nat fuel ->
  (forall j, 0 <= j < i -> ~ run_free s j n) ->
  wp (pmm_alloc_pages_loop (S fuel) i n) (alloc_pages_post n s) s.
Proof.
  intros Hn Ht. revert i. induction fuel as [|fuel IH]; intros i Hi Hf Hlow.
  all: cbn [pmm_alloc_pages_loop]; apply wp_bind, wp_get; rewrite u64_small by lia;
    destruct (Z.leb_spec i (total_pages s)) as [Hle|Hgt]; simpl.
  2, 4: apply wp_ret; right; split_and!; [done.. | intros j Hj; apply Hlow; lia].
  { lia. }
  destruct (bitmap_test s i) eqn:Ei.
  { rewrite s32_small by lia. apply IH; [lia.. |]. intros j Hj.
    destruct (Z.eq_dec j i) as [->|]; [apply (used_no_run s i n i); [done | lia] | apply Hlow; lia]. }
  destruct (first_used _ i 1 s) as [k|] eqn:Ek.
  - apply first_used_Some in Ek as [Hk Htest]. rewrite (s32_small (i + k)), s32_small by lia.
    apply IH; [lia.. |]. intros j Hj.
    destruct (Z.lt_ge_cases j i); [apply Hlow; lia |].
    apply (used_no_run s j n (i + k)); [done | lia].
  - apply wp_bind, wp_set_run; [lia |]. intros s' Hm. apply wp_ret. left. exists i.
    rewrite first_used_None in Ek. split_and!; try done; [lia |]. intros j Hj.
    destruct (Z.eq_dec j 0) as [->|]; [by rewrite Z.add_0_r | apply Ek; lia].
Qed.

(** * Lemmas: the whole operations *)

Lemma wp_pmm_alloc_page s :
  pmm_lock s = 0 -> 0 <= total_pages s <= 2 ^ 52 ->
  wp pmm_alloc_page (fun r s' =>
    (exists k, 0 <= k < total_pages s /\ r = k * PAGE_SIZE_4KB /\ bitmap_test s k = false /\
       (forall j, 0 <= j < k -> bitmap_test s j = true) /\ marked (fun j => j = k) true s s') \/
    (r = 0 /\ s' = s /\ forall j, 0 <= j < total_pages s -> bitmap_test s j = true)) s.
Proof.
  intros Hlock Htot. unfold pmm_alloc_page.
  apply wp_bind, wp_spin_lock_irqsave. intros rf ->. split; [done |]. apply wp_bind, wp_gets.
  eapply wp_mono; [apply pmm_alloc_page_loop_spec; simpl; lia |].
  assert (set_p_cpu (Cpu (rflags (p_cpu s)) (cr3 (p_cpu s))) (set_pmm_lock 0 s) = s) as Hs.
  { destruct s as [[f c] l bm t]. unfold set_p_cpu, set_pmm_lock. simpl in *. by subst. }
  simpl. unfold set_p_cpu, set_pmm_lock in *. simpl in *. rewrite Hs. rewrite Z2Nat.id by lia.
  done.
Qed.

Lemma wp_pmm_alloc_pages n s :
  0 < n <= total_pages s -> total_pages s < 2 ^ 30 ->
  wp (pmm_alloc_pages n) (alloc_pages_post n s) s.
Proof.
  intros Hn Ht. unfold pmm_alloc_pages. apply wp_bind, wp_gets.
  destruct (Z.eqb_spec n 0); [lia |]. rewrite u64_small by lia.
  destruct (Z.ltb_spec (total_pages s) n); [lia |].
  replace (Z.to_nat (total_pages s + 2)) with (S (Z.to_nat (total_pages s + 1))) by lia.
  apply pmm_alloc_pages_loop_spec; [lia.. |]. intros j Hj. lia.
Qed.

Lemma wp_pmm_free_page paddr s :
  wp (pmm_free_page paddr) (fun _ s' =>
    if decide (paddr <> 0 /\ paddr / PAGE_SIZE_4KB < total_pages s /\
               bitmap_test s (paddr / PAGE_SIZE_4KB) = true)
    then marked (fun k => k = paddr / PAGE_SIZE_4KB) false s s'
    else s' = s) s.
Proof.
  unfold pmm_free_page. destruct (Z.eqb_spec paddr 0) as [->|Hne].
  { apply wp_ret. case_decide; [destruct_and!; congruence | done]. }
  apply wp_bind, wp_get. destruct (Z.leb_spec (total_pages s) (paddr / PAGE_SIZE_4KB)).
  { apply wp_ret. case_decide; [lia | done]. }
  destruct (bitmap_test s (paddr / PAGE_SIZE_4KB)) eqn:E; simpl.
  - apply wp_BITMAP_CLR. intros s' Hm. case_decide; [done | tauto].
  - apply wp_ret. case_decide; [destruct_and!; congruence | done].
Qed.

Lemma free_count_0 n s :
  (forall k, 0 <= k < Z.of_nat n -> bitmap_test s k = true) -> free_count n s = 0.
Proof.
  induction n as [|n IH]; intros H; [done |]. cbn [free_count].
  rewrite H, IH by (intros; try apply H; lia). done.
Qed.

Lemma free_count_nonneg n s : 0 <= free_count n s.
Proof. induction n as [|n IH]; cbn [free_count]; [done |]. destruct (bitmap_test _ _); lia. Qed.

Lemma free_pages_flip i b s s' :
  0 <= i < total_pages s -> bitmap_test s i = negb b -> marked (fun k => k = i) b s s' ->
  free_pages s' = free_pages s + (if b then -1 else 1).
Proof.
  intros Hi Hb Hm. unfold free_pages. pose proof Hm as (_ & _ & -> & _).
  rewrite (free_count_flip _ i b s) by (done || lia). case_decide; [done | lia].
Qed.

(** The allocator in the state the kernel keeps it in: the lock is free and
    page 0, whose address is the error value, is never handed out. *)
Definition pmm_ok (s : pmm) : Prop :=
  pmm_lock s = 0 /\ 0 <= total_pages s <= 2 ^ 35 /\ bitmap_test s 0 = true.

(** The allocator in use, from [s0] on: any sequence of allocations of pages and runs,
    and of freeing pages that are held. The held pages are known by their numbers.
    Runs are taken while the memory is below 2 GiB, where their addresses fit. *)
Inductive pmm_client (s0 : pmm) : pmm -> gset Z -> Prop :=
  | client_start : pmm_client s0 s0 ∅
  | client_no_page s h s' : pmm_client s0 s h -> pmm_alloc_page s = Ok (0, s') -> pmm_client s0 s' h
  | client_page s h r s' : pmm_client s0 s h -> pmm_alloc_page s = Ok (r, s') -> r <> 0 ->
      pmm_client s0 s' ({[r / PAGE_SIZE_4KB]} ∪ h)
  | client_no_run s h n s' : pmm_client s0 s h -> 0 < n <= total_pages s -> total_pages s < 2 ^ 19 ->
      pmm_alloc_pages n s = Ok (0, s') -> pmm_client s0 s' h
  | client_run s h n r s' : pmm_client s0 s h -> 0 < n <= total_pages s -> total_pages s < 2 ^ 19 ->
      pmm_alloc_pages n s = Ok (r, s') -> r <> 0 -> pmm_client s0 s' (list_to_set (seqZ (r / PAGE_SIZE_4KB) n) ∪ h)
  | client_free s h k s' : pmm_client s0 s h -> k ∈ h -> pmm_free_page (k * PAGE_SIZE_4KB) s = Ok (tt, s') -> pmm_client s0 s' (h ∖ {[k]}).

(** What stays true: below the end of memory, free pages are good, and so are the held
    ones, which are in use. *)
Definition client_inv (good : Z -> Prop) (s0 s : pmm) (h : gset Z) : Prop :=
  pmm_lock s = 0 /\ total_pages s = total_pages s0 /\
  (forall k, 0 <= k < total_pages s0 -> bitmap_test s k = false -> good k) /\
  (forall k, k ∈ h -> 0 <= k /\ (k < total_pages s0 -> good k /\ bitmap_test s k = true)).

(** Taking a range of free pages. *)
Lemma client_inv_take good s0 s s' h k n : ~ good 0 -> client_inv good s0 s h -> 0 <= k -> 0 < n -> run_free s k n ->
  marked (fun j => k <= j < k + n) true s s' -> client_inv good s0 s' (list_to_set (seqZ k n) ∪ h).
Proof.
  intros H0 (Hl & Ht & Hf & Hh) Hk Hn Hrun (Hat & Hother & Et & _ & El). split; [by rewrite El |]. split; [by rewrite Et |]. split.
  - intros j Hj Hfree. destruct (decide (k <= j < k + n)) as [Hin|Hin]; [by rewrite Hat in Hfree |]. rewrite Hother in Hfree by done. by apply Hf.
  - intros j. rewrite elem_of_union, elem_of_list_to_set, elem_of_seqZ. destruct (decide (k <= j < k + n)) as [Hin|Hin].
    + intros _. split; [lia |]. intros Hj. split; [| by apply Hat]. apply Hf; [lia |]. specialize (Hrun (j - k) ltac:(lia)).
      by replace (k + (j - k)) with j in Hrun by lia.
    + intros [?|Hj]; [done |]. destruct (Hh j Hj) as [Hj0 Hj']. split; [done |]. by rewrite Hother.
Qed.

Lemma client_inv_kept good s0 s h : ~ good 0 -> client_inv good s0 s0 ∅ -> 0 <= total_pages s0 <= 2 ^ 52 -> pmm_client s0 s h -> client_inv good s0 s h.
Proof.
  intros H0 Hinit Htot. induction 1 as [|s h s' _ IH E|s h r s' _ IH E Hr|s h n s' _ IH Hn Ht E|s h n r s' _ IH Hn Ht E Hr|s h k s' _ IH Hk E];
    [done | destruct IH as (Hl & Et & Hf & Hh).. ].
  - pose proof (wp_pmm_alloc_page s Hl ltac:(lia)) as Hw. unfold wp in Hw. rewrite E in Hw. unfold PAGE_SIZE_4KB in Hw.
    destruct Hw as [(k & Hk & E0 & Hfree & _)|(_ & -> & _)]; [| done]. exfalso. apply H0, Hf; [lia |]. by replace 0 with k by lia.
  - pose proof (wp_pmm_alloc_page s Hl ltac:(lia)) as Hw. unfold wp in Hw. rewrite E in Hw.
    destruct Hw as [(k & Hk & -> & Hfree & _ & Hm)|(-> & _)]; [| done]. rewrite Z.div_mul by done.
    replace ({[k]} : gset Z) with (list_to_set (seqZ k 1) : gset Z) by (cbn; set_solver).
    apply (client_inv_take _ _ s); [done | done | lia | done | |].
    + intros j Hj. by replace (k + j) with k by lia.
    + eapply marked_iff; [| exact Hm]. cbn. lia.
  - pose proof (wp_pmm_alloc_pages n s Hn ltac:(lia)) as Hw. unfold wp in Hw. rewrite E in Hw.
    destruct Hw as [(k & Hk & Hrun & _ & E0 & _)|(_ & -> & _)]; [| done]. exfalso. unfold PAGE_SIZE_4KB in E0. rewrite s32_small, u64_small in E0 by lia.
    apply H0, Hf; [lia |]. specialize (Hrun 0 ltac:(lia)). by replace (k + 0) with 0 in Hrun by lia.
  - pose proof (wp_pmm_alloc_pages n s Hn ltac:(lia)) as Hw. unfold wp in Hw. rewrite E in Hw.
    destruct Hw as [(k & Hk & Hrun & _ & -> & Hm)|(-> & _)]; [| done]. unfold PAGE_SIZE_4KB. rewrite s32_small, u64_small, Z.div_mul by lia.
    by apply (client_inv_take _ _ s); [done | done | lia | lia | |].
  - pose proof (wp_pmm_free_page (k * PAGE_SIZE_4KB) s) as Hw. unfold wp in Hw. rewrite E in Hw. rewrite Z.div_mul in Hw by done.
    destruct (Hh k Hk) as [Hk0 Hgood]. case_decide as Hd.
    + destruct Hw as (Hat & Hother & Et' & _ & El). split; [by rewrite El |]. split; [by rewrite Et' |]. split.
      * intros j Hj Hfree. destruct (decide (j = k)) as [->|Hne]; [apply Hgood; lia |]. rewrite Hother in Hfree by done. by apply Hf.
      * intros j [Hj Hjk]%elem_of_difference. rewrite elem_of_singleton in Hjk. rewrite Hother by done. by apply Hh.
    + subst s'. split; [done |]. split; [done |]. split; [done |]. intros j [Hj _]%elem_of_difference. by apply Hh.
Qed.

#[export] Instance pmm_page_alloc : PageAlloc pmm := {
  alloc_page := pmm_alloc_page;
  page_used := bitmap_test;
  pages_left := free_pages;
  pa_ok := pmm_ok;
}.

#[export] Instance pmm_page_alloc_laws : PageAllocLaws pmm.
Proof.
  split; [| intros s _; apply free_count_nonneg].
  intros s (Hl & Ht & H0). eapply wp_mono; [apply wp_pmm_alloc_page; [done | lia] |].
  intros r s' [(k & Hk & -> & Hfree & _ & Hm)|(-> & -> & Hall)].
  - assert (k <> 0) by congruence. pose proof Hm as (Hat & Hother & ? & ? & ?).
    split; [split_and!; [congruence | lia.. | by rewrite Hother] |].
    right. exists k. split_and!; [lia.. | done | |].
    + rewrite (free_pages_flip k true s) by done; simpl; lia.
    + intros j. case_decide; [by apply Hat | by apply Hother].
  - split; [exact (conj Hl (conj Ht H0)) |]. left. split_and!; [done | | done].
    apply free_count_0. intros k Hk. apply Hall. lia.
Qed.

(** * Theorems *)

(** C9: [pmm_alloc_page] is first-fit, takes exactly the page it returns, and
    gives the lock and the interrupt flag back; it returns 0 and changes nothing
    when every page is in use. *)
Theorem pmm_alloc_page_spec s :
  pmm_lock s = 0 -> 0 <= total_pages s <= 2 ^ 52 ->
  wp pmm_alloc_page (fun r s' =>
    (exists k, 0 <= k < total_pages s /\ r = k * PAGE_SIZE_4KB /\ bitmap_test s k = false /\
       (forall j, 0 <= j < k -> bitmap_test s j = true) /\ marked (fun j => j = k) true s s') \/
    (r = 0 /\ s' = s /\ forall j, 0 <= j < total_pages s -> bitmap_test s j = true)) s.
Proof. apply wp_pmm_alloc_page. Qed.

(** [pmm_alloc_pages] always returns, and its scan, which jumps over a used
    page that ends a candidate run, is the plain first fit: the first index
    [k <= total_pages] that starts [n] free pages, exactly these marked used; 0
    and no change when there is none. The address is the 32-bit product
    [k * PAGE_SIZE_4KB], sign-extended. *)
Theorem pmm_alloc_pages_first_fit n s :
  0 < n <= total_pages s -> total_pages s < 2 ^ 30 ->
  wp (pmm_alloc_pages n) (alloc_pages_post n s) s.
Proof. apply wp_pmm_alloc_pages. Qed.

(** The requests [pmm_alloc_pages] rejects: no pages, a negative count, or
    more pages than there are, all with 0 and no change. *)
Theorem pmm_alloc_pages_rejects n s :
  - 2 ^ 31 <= n < 2 ^ 31 -> 0 <= total_pages s < 2 ^ 63 -> n <= 0 \/ total_pages s < n ->
  pmm_alloc_pages n s = Ok (0, s).
Proof.
  intros Hn Ht Hc. unfold pmm_alloc_pages, mbind, M_bind, gets.
  destruct (Z.eqb_spec n 0); [done |].
  assert (total_pages s < u64 n) as H.
  { destruct (Z.lt_ge_cases n 0); [| rewrite u64_small; lia].
    unfold u64. rewrite <- (Z_mod_plus_full n 1 (2 ^ 64)), Z.mod_small; lia. }
  by apply Z.ltb_lt in H as ->.
Qed.

(** [pmm_free_page] clears the bit of the page of [paddr] when [paddr] is not
    0, the page exists and is in use; in every other case it does nothing. *)
Theorem pmm_free_page_spec paddr s :
  wp (pmm_free_page paddr) (fun _ s' =>
    if decide (paddr <> 0 /\ paddr / PAGE_SIZE_4KB < total_pages s /\
               bitmap_test s (paddr / PAGE_SIZE_4KB) = true)
    then marked (fun k => k = paddr / PAGE_SIZE_4KB) false s s'
    else s' = s) s.
Proof. apply wp_pmm_free_page. Qed.

(** [pmm_free_page] gives back exactly what [pmm_alloc_page] took: the pair
    leaves every bit as it was, the page in between is the one page fewer that
    is free, and a null result means that no page was. *)
Theorem pmm_alloc_free_roundtrip s :
  pmm_ok s ->
  wp (r ← pmm_alloc_page; s1 ← get; pmm_free_page r;; mret (r, s1)) (fun '(r, s1) s' =>
    pmm_equiv s s' /\
    if decide (r = 0) then free_pages s = 0 else free_pages s1 = free_pages s - 1) s.
Proof.
  intros (Hl & Ht & H0). apply wp_bind.
  eapply wp_mono; [apply wp_pmm_alloc_page; [done | lia] |].
  intros r s1 [(k & Hk & -> & Hfree & _ & Hm)|(-> & -> & Hall)]; do 2 (apply wp_bind; try apply wp_get).
  - assert (k <> 0) by congruence. pose proof Hm as (Hat & Hother & Htot & ? & ?).
    eapply wp_mono; [apply wp_pmm_free_page |]. cbv beta. unfold PAGE_SIZE_4KB. intros [] s2.
    rewrite Z.div_mul by lia. rewrite decide_True by (split_and!; [lia.. | by apply Hat]).
    intros Hm2. apply wp_ret. split; [apply (marked_undo _ false s s1 s2 Hm Hm2); [by intros ? -> | apply _] |].
    rewrite decide_False by lia. rewrite (free_pages_flip k true s) by done; simpl; lia.
  - apply wp_ret. split; [reflexivity |].
    rewrite decide_True by done. apply free_count_0. intros k Hk. apply Hall. lia.
Qed.

(** The scan of [pmm_alloc_pages] runs to [i <= total_pages], one page too far:
    with all memory in use and the bits after the bitmap clear it does not
    return 0 but the address just past the last page, as if it were memory. *)
Theorem pmm_alloc_pages_past_end n s :
  0 < n <= total_pages s -> total_pages s < 2 ^ 19 ->
  (forall k, 0 <= k < total_pages s -> bitmap_test s k = true) ->
  run_free s (total_pages s) n ->
  wp (pmm_alloc_pages n) (fun r _ => r = total_pages s * PAGE_SIZE_4KB) s.
Proof.
  intros Hn Ht Hused Hrun. eapply wp_mono; [apply wp_pmm_alloc_pages; lia |].
  intros r s' [(k & Hk & Hkrun & _ & -> & _)|(-> & _ & Hnone)]; unfold PAGE_SIZE_4KB.
  - destruct (Z.eq_dec k (total_pages s)) as [->|].
    + rewrite s32_small, u64_small by lia. done.
    + specialize (Hkrun 0 ltac:(lia)). rewrite Z.add_0_r, Hused in Hkrun by lia. done.
  - exfalso. by apply (Hnone (total_pages s)); [lia |].
Qed.

(** Above 2 GiB the product [i * PAGE_SIZE_4KB] leaves the range of [int]: the
    page at 2 GiB is returned as [KERNEL_OFFSET]. *)
Lemma pmm_alloc_pages_2GiB s :
  2 ^ 19 < total_pages s < 2 ^ 30 ->
  (forall k, 0 <= k < 2 ^ 19 -> bitmap_test s k = true) -> bitmap_test s (2 ^ 19) = false ->
  wp (pmm_alloc_pages 1) (fun r s' => r = KERNEL_OFFSET /\ bitmap_test s' (2 ^ 19) = true) s.
Proof.
  intros Ht Hused Hfree. eapply wp_mono; [apply wp_pmm_alloc_pages; lia |].
  intros r s' [(k & Hk & Hrun & Hlow & -> & Hm)|(-> & _ & Hnone)].
  - assert (k = 2 ^ 19) as ->; [| split; [done | apply Hm; lia]].
    destruct (Z.lt_total k (2 ^ 19)) as [H|[H|H]]; [| done |].
    + specialize (Hrun 0 ltac:(lia)). rewrite Z.add_0_r, Hused in Hrun by lia. done.
    + exfalso. apply (Hlow (2 ^ 19)); [lia |]. intros j Hj. by replace j with 0 by lia.
  - exfalso. apply (Hnone (2 ^ 19)); [lia |]. intros j Hj. by replace j with 0 by lia.
Qed.

(** * Witnesses *)

(** 16 pages, pages 0, 1 and 4 in use; the byte after the bitmap is clear. *)
Definition pmm_example : pmm :=
  Pmm (Cpu 0x202 0x1000) 0 (list_to_map [(0, 0x13); (1, 0x00); (2, 0x00)]) 16.
(** The same memory, all in use. *)
Definition pmm_full : pmm :=
  Pmm (Cpu 0x202 0x1000) 0 (list_to_map [(0, 0xFF); (1, 0xFF); (2, 0x00)]) 16.

Lemma pmm_alloc_page_spec_witness :
  (match pmm_alloc_page pmm_example with Ok (r, _) => r = 0x2000 | Err _ => False end) /\
  wp pmm_alloc_page (fun r s' => marked (fun j => j = 2) true pmm_example s') pmm_example.
Proof.
  split; [by vm_compute |].
  eapply wp_mono; [apply (pmm_alloc_page_spec pmm_example); [done | by split] |].
  intros r s' [(k & Hk & _ & Hf & Hl & Hm)|(_ & _ & H)]; [| by specialize (H 2 ltac:(split; done))].
  assert (k = 2) as ->; [| done].
  destruct (Z.lt_total k 2) as [Hlt|[->|Hgt]]; [| done | by specialize (Hl 2 ltac:(lia))].
  assert (k = 0 \/ k = 1) as [-> | ->] by lia; done.
Defined.

Lemma pmm_alloc_pages_first_fit_witness :
  (match pmm_alloc_pages 3 pmm_example with Ok (r, _) => r = 0x5000 | Err _ => False end) /\
  wp (pmm_alloc_pages 3) (alloc_pages_post 3 pmm_example) pmm_example.
Proof. split; [by vm_compute |]. apply (pmm_alloc_pages_first_fit 3 pmm_example); [by split | done]. Defined.

Lemma pmm_alloc_pages_rejects_witness :
  pmm_alloc_pages (-1) pmm_example = Ok (0, pmm_example) /\
  pmm_alloc_pages 17 pmm_example = Ok (0, pmm_example).
Proof.
  split; (apply (pmm_alloc_pages_rejects _ pmm_example); [by split | by split |]);
    [left | right]; done.
Defined.

Lemma pmm_ok_example : pmm_ok pmm_example.
Proof. by split_and!. Qed.

Lemma pmm_alloc_free_roundtrip_witness :
  wp (r ← pmm_alloc_page; s1 ← get; pmm_free_page r;; mret (r, s1))
     (fun '(r, s1) s' => pmm_equiv pmm_example s') pmm_example.
Proof.
  eapply wp_mono; [apply (pmm_alloc_free_roundtrip pmm_example pmm_ok_example) |].
  by intros [r s1] s' [H _].
Defined.

Lemma pmm_alloc_pages_past_end_witness :
  wp (pmm_alloc_pages 2) (fun r _ => r = 0x10000) pmm_full.
Proof.
  apply (pmm_alloc_pages_past_end 2 pmm_full); [by split | done | |].
  - by apply (forall_Z_lt 16), eq_refl.
  - intros j Hj. assert (j = 0 \/ j = 1) as [-> | ->] by lia; done.
Defined.
