(* ===== verification/Vmm.v ===== *)
(** Virtual memory manager ([mm/vmm.c], [include/mm/vmm.h]): the four-level page
    tables of x86-64, edited through the direct mapping. *)
From S2P Require Import Prelude Interfaces Pmm.

(** * State *)

(** [phys] is physical memory by 8-byte words, keyed by physical address;
    [invlpg] lists the pages flushed from the TLB, the latest first. *)
Record vmm (Pg : Type) : Type := Vmm {
  v_pages : Pg;
  phys : gmap Z Z;
  invlpg : list Z;
}.
Arguments Vmm {Pg} v_pages phys invlpg.
Arguments v_pages {Pg} v.
Arguments phys {Pg} v.
Arguments invlpg {Pg} v.

Definition PTE_USER : Z := 2 ^ 2.
Definition PTE_WT : Z := 2 ^ 3.
Definition PTE_CD : Z := 2 ^ 4.
Definition PTE_PAGE_SIZE : Z := 2 ^ 7.
Definition PTE_WC_HUGE : Z := 2 ^ 12.

(** Index of [vaddr] in the table of the level that starts at bit [shift]. *)
Definition vidx (vaddr shift : Z) : Z := Z.land (Z.shiftr vaddr shift) 0x1FF.

(** [(uint64_t * )(p + DIRECT_OFFSET)] and [&table[i]]. *)
Definition direct (p : Z) : Z := u64 (p + DIRECT_OFFSET).
Definition elem (table i : Z) : Z := u64 (table + 8 * i).

Section operations.
Context {Pg : Type} `{PageAlloc Pg}.

Definition set_v_pages (a : Pg) (s : vmm Pg) : vmm Pg := Vmm a (phys s) (invlpg s).
Definition l_pages : lens (vmm Pg) Pg := Lens v_pages set_v_pages.

(** A word accessed through the direct mapping. *)
Definition load (va : Z) : M (vmm Pg) Z := gets (fun s => phys s @@ u64 (va - DIRECT_OFFSET)).
Definition store (va x : Z) : M (vmm Pg) unit :=
  modify (fun s => Vmm (v_pages s) (<[u64 (va - DIRECT_OFFSET) := x]> (phys s)) (invlpg s)).

Definition invalidate (vaddr : Z) : M (vmm Pg) unit :=
  modify (fun s => Vmm (v_pages s) (phys s) (vaddr :: invlpg s)).

(** [memset(table, 0, PAGE_SIZE_4KB)] *)
Definition clear_table (table : Z) : M (vmm Pg) unit :=
  for_loop 512 0 (fun i => store (elem table i) 0).

(** The block [vmm_map_page] repeats for each level: allocate the missing table
    behind the entry at [e], or widen its permissions. *)
Definition ensure_table (flags e : Z) : M (vmm Pg) unit :=
  v ← load e;
  if negb (truthy (Z.land v PTE_PRESENT)) then
    new_table_phys ← zoom l_pages alloc_page;
    clear_table (direct new_table_phys);;
    if truthy (Z.land flags PTE_USER)
    then store e (Z.lor new_table_phys (Z.lor (Z.lor PTE_PRESENT PTE_WRITABLE) PTE_USER))
    else store e (Z.lor new_table_phys (Z.lor PTE_PRESENT PTE_WRITABLE))
  else when (truthy (Z.land flags PTE_USER)) (store e (Z.lor v PTE_USER)).

(** [(uint64_t * )((table[i] & PAGE_MASK_4KB) + DIRECT_OFFSET)] *)
Definition table_behind (e : Z) : M (vmm Pg) Z :=
  v ← load e; mret (direct (Z.land v PAGE_MASK_4KB)).

Definition vmm_map_page (pml4_phys paddr vaddr ps flags : Z) : M (vmm Pg) unit :=
  let pml4 := direct pml4_phys in
  ensure_table flags (elem pml4 (vidx vaddr 39));;
  pdpt ← table_behind (elem pml4 (vidx vaddr 39));
  ensure_table flags (elem pdpt (vidx vaddr 30));;
  pd ← table_behind (elem pdpt (vidx vaddr 30));
  if ps =? PAGE_SIZE_4KB then
    ensure_table flags (elem pd (vidx vaddr 21));;
    pt ← table_behind (elem pd (vidx vaddr 21));
    store (elem pt (vidx vaddr 12)) (Z.lor paddr (Z.lor PTE_PRESENT flags));;
    invalidate vaddr
  else if ps =? PAGE_SIZE_2MB then
    store (elem pd (vidx vaddr 21)) (Z.lor paddr (Z.lor (Z.lor PTE_PRESENT PTE_PAGE_SIZE) flags));;
    invalidate vaddr
  else mret tt.

(** The entry that maps [vaddr] and its level: [None] for a null pointer. *)
Definition vmm_get_entry (pml4_phys vaddr : Z) : M (vmm Pg) (option (Z * Z)) :=
  let e4 := elem (direct pml4_phys) (vidx vaddr 39) in
  v4 ← load e4;
  if negb (truthy (Z.land v4 PTE_PRESENT)) then mret None
  else if truthy (Z.land v4 PTE_PAGE_SIZE) then mret (Some (e4, 3))
  else
  let e3 := elem (direct (Z.land v4 PAGE_MASK_4KB)) (vidx vaddr 30) in
  v3 ← load e3;
  if negb (truthy (Z.land v3 PTE_PRESENT)) then mret None
  else if truthy (Z.land v3 PTE_PAGE_SIZE) then mret (Some (e3, 2))
  else
  let e2 := elem (direct (Z.land v3 PAGE_MASK_4KB)) (vidx vaddr 21) in
  v2 ← load e2;
  if negb (truthy (Z.land v2 PTE_PRESENT)) then mret None
  else if truthy (Z.land v2 PTE_PAGE_SIZE) then mret (Some (e2, 2))
  else
  mret (Some (elem (direct (Z.land v2 PAGE_MASK_4KB)) (vidx vaddr 12), 0)).

Definition vmm_unmap_page (pml4_phys vaddr : Z) : M (vmm Pg) Z :=
  entry ← vmm_get_entry pml4_phys vaddr;
  match entry with
  | Some (e, _) =>
      old_entry ← load e;
      store e 0;;
      invalidate vaddr;;
      mret (Z.land old_entry PAGE_MASK_4KB)
  | None => mret 0
  end.

(** The null pointer is dereferenced when no entry maps [vaddr]. *)
Definition vmm_get_paddr (pml4_phys vaddr : Z) : M (vmm Pg) Z :=
  entry ← vmm_get_entry pml4_phys vaddr;
  match entry with
  | Some (e, _) => v ← load e; mret (Z.land v PAGE_MASK_4KB)
  | None => fail Fault
  end.

End operations.

(** * Specification: the walk of the processor *)

(** The table indices of an address, from the top level down. *)
Definition vpath (vaddr : Z) : list Z :=
  [vidx vaddr 39; vidx vaddr 30; vidx vaddr 21; vidx vaddr 12].

(** The 36 bits of the page number that the walk uses. *)
Definition vpn (vaddr : Z) : Z := (vaddr / PAGE_SIZE_4KB) mod 2 ^ 36.

(** The number of the page of level [d] (0 for 4 KiB, 1 for 2 MiB) of [vaddr]. *)
Definition page_no (d : nat) (vaddr : Z) : Z := vpn vaddr / 2 ^ (9 * Z.of_nat d).

Definition present (e : Z) : bool := Z.testbit e 0.
Definition huge (e : Z) : bool := Z.testbit e 7.
Definition user_entry (e : Z) : bool := Z.testbit e 2.

(** The entry that translates an address, and how many levels below it were not
    needed (0 for a 4 KiB page, 1 for 2 MiB, 2 for 1 GiB); [None] is a page fault. *)
Fixpoint hw_walk (m : gmap Z Z) (table : Z) (path : list Z) : option (Z * nat) :=
  match path with
  | [] => None
  | i :: rest =>
      let e := m @@ (table + 8 * i) in
      if negb (present e) then None
      else match rest with
           | [] => Some (e, O)
           | _ :: _ =>
               if huge e then Some (e, length rest)
               else hw_walk m (Z.land e PAGE_MASK_4KB) rest
           end
  end.

(** The physical address an entry [x] gives [vaddr], [d] levels above the last:
    bits 12+9d to 51 of the entry, and the offset in the page. *)
Definition frame (x : Z) (d : nat) : Z :=
  let sh := 12 + 9 * Z.of_nat d in (x mod 2 ^ 52) / 2 ^ sh * 2 ^ sh.
Definition hw_translate (m : gmap Z Z) (root vaddr : Z) : option Z :=
  match hw_walk m root (vpath vaddr) with
  | Some (x, d) => Some (frame x d + vaddr mod 2 ^ (12 + 9 * Z.of_nat d))
  | None => None
  end.

(** Flags of an entry of level [d]: none of them is a bit of its address. *)
Definition flag_bits (d : nat) (f : Z) : Prop :=
  0 <= f /\ forall n, 12 + 9 * Z.of_nat d <= n < 52 -> Z.testbit f n = false.

(** A frame that an entry of level [d] can hold. *)
Definition frame_ok (d : nat) (paddr : Z) : Prop :=
  0 <= paddr < 2 ^ 52 /\ paddr mod 2 ^ (12 + 9 * Z.of_nat d) = 0.

(** The table behind entry [i] of [table], and the one at the end of a path. *)
Definition next_table (m : gmap Z Z) (table i : Z) : option Z :=
  let e := m @@ (table + 8 * i) in
  if present e && negb (huge e) then Some (Z.land e PAGE_MASK_4KB) else None.

Fixpoint walk (m : gmap Z Z) (table : Z) (path : list Z) : option Z :=
  match path with
  | [] => Some table
  | i :: rest => t ← next_table m table i; walk m t rest
  end.

(** A path of at most [n] indices, as the levels above the last have. *)
Definition valid_path (n : nat) (q : list Z) : Prop :=
  (length q <= n)%nat /\ Forall (fun i => 0 <= i < 512) q.

(** The tables reachable from [root] form a tree of distinct, page-aligned
    pages of the directly mapped memory, all in use according to [used]. *)
Record pt_wf (used : Z -> bool) (m : gmap Z Z) (root : Z) : Prop := {
  wf_page q b : valid_path 3 q -> walk m root q = Some b ->
    exists k, b = k * PAGE_SIZE_4KB /\ 0 < k < 2 ^ 35 /\ used k = true;
  wf_tree q q' b : valid_path 3 q -> valid_path 3 q' ->
    walk m root q = Some b -> walk m root q' = Some b -> q = q';
}.

(** No entry above the last level on the path of [vaddr] is a huge page. *)
Definition no_huge_on_path (m : gmap Z Z) (root vaddr : Z) : Prop :=
  forall q i rest b, vpath vaddr = q ++ i :: rest -> rest <> [] ->
    walk m root q = Some b -> present (m @@ (b + 8 * i)) = true ->
    huge (m @@ (b + 8 * i)) = false.

(** Ring 3 may use the translation of [vaddr] only if every entry on its path
    has the user bit. *)
Definition user_path (m : gmap Z Z) (root vaddr : Z) : Prop :=
  forall q i rest b, vpath vaddr = q ++ i :: rest -> walk m root q = Some b ->
    user_entry (m @@ (b + 8 * i)) = true.

(** The cells of two memories agree on every entry of every table under
    [root], entry [i] of the table at the end of [p] apart. *)
Definition agree_except (m m' : gmap Z Z) (root : Z) (p : list Z) (i : Z) : Prop :=
  forall q b j, valid_path 3 q -> walk m root q = Some b -> 0 <= j < 512 ->
    (q <> p \/ j <> i) -> m' @@ (b + 8 * j) = m @@ (b + 8 * j).

(** What [vmm_get_entry] returns for [vaddr]: the entry [x] at which the walk
    of the processor ends, with 2 for the level of a 2 MiB page as well. *)
Definition entry_post (m : gmap Z Z) (root vaddr : Z) (r : option (Z * Z)) : Prop :=
  match r with
  | None => hw_walk m root (vpath vaddr) = None
  | Some (e, level) => exists q b i rest,
      vpath vaddr = q ++ i :: rest /\ walk m root q = Some b /\ e = elem (direct b) i /\
      let x := m @@ (b + 8 * i) in
      level = (if decide (length rest = 1%nat) then 2 else Z.of_nat (length rest)) /\
      (present x = true \/ rest = []) /\
      hw_walk m root (vpath vaddr) = (if present x then Some (x, length rest) else None)
  end.

(** What [ensure_table] on entry [i] of the table [b] at the end of [p] does to
    the tree: a table is behind the entry, and nothing else is visible. *)
Record ensured (used' : Z -> bool) (m m' : gmap Z Z) (root : Z) (p : list Z) (i : Z) : Prop := {
  en_wf : pt_wf used' m' root;
  en_table : exists b', walk m' root (p ++ [i]) = Some b';
  en_keep q b : valid_path 3 q -> walk m root q = Some b -> walk m' root q = Some b;
  en_new q b : valid_path 3 q -> walk m' root q = Some b -> walk m root q = Some b \/ q = p ++ [i];
  en_hw v : hw_walk m' root (vpath v) = hw_walk m root (vpath v);
  en_huge v : no_huge_on_path m root v -> no_huge_on_path m' root v;
  en_user q b j : valid_path 3 q -> walk m root q = Some b -> 0 <= j < 512 ->
    present (m @@ (b + 8 * j)) = true -> user_entry (m @@ (b + 8 * j)) = true ->
    user_entry (m' @@ (b + 8 * j)) = true;
}.

(** Every entry on the way down the indices [p] is present and has the user bit. *)
Definition user_upto (m : gmap Z Z) (root : Z) (p : list Z) : Prop :=
  forall q j r b, p = q ++ j :: r -> walk m root q = Some b ->
    present (m @@ (b + 8 * j)) = true /\ user_entry (m @@ (b + 8 * j)) = true.

(** The flags of a leaf entry, with the bits the code adds. *)
Definition leaf_flags (d : nat) (flags : Z) : Z :=
  match d with
  | O => Z.lor PTE_PRESENT flags
  | _ => Z.lor (Z.lor PTE_PRESENT PTE_PAGE_SIZE) flags
  end.

(** The bits of a leaf entry of level [d] that are not of its frame: the flags asked
    for, the present bit and, for a large page, the size bit; no others. *)
Definition entry_flags (d : nat) (flags x : Z) : Prop :=
  forall n, 0 <= n -> ~ 12 + 9 * Z.of_nat d <= n < 52 ->
    Z.testbit x n = Z.testbit flags n || (n =? 0) || ((0 <? d)%nat && (n =? 7)).

Section specification.
Context {Pg : Type} `{PageAlloc Pg}.

(** The state of the VMM is sound for the tables under [root]. *)
Definition vmm_ok (root : Z) (s : vmm Pg) : Prop :=
  pa_ok (v_pages s) /\ pt_wf (page_used (v_pages s)) (phys s) root.

Definition with_phys (m : gmap Z Z) (s : vmm Pg) : vmm Pg := Vmm (v_pages s) m (invlpg s).

(** The state after one level has been prepared. *)
Definition ensured_state (root : Z) (p : list Z) (i : Z) (s s' : vmm Pg) : Prop :=
  pa_ok (v_pages s') /\ ensured (page_used (v_pages s')) (phys s) (phys s') root p i /\
  pages_left (v_pages s) - 1 <= pages_left (v_pages s') /\ invlpg s' = invlpg s.

(** What [vmm_unmap_page] does, by what the walk of [vaddr] found before. The frame
    comes back; for a large page so do the bits 12 to 20 of the entry (29 for
    1 GiB), of which the lowest is the one for write combining. *)
Definition unmapped (root vaddr r : Z) (s s' : vmm Pg) : Prop :=
  vmm_ok root s' /\ v_pages s' = v_pages s /\ hw_walk (phys s') root (vpath vaddr) = None /\
  match hw_walk (phys s) root (vpath vaddr) with
  | Some (x, d) =>
      (0 <= x < 2 ^ 52 -> r = frame x d + PAGE_SIZE_4KB * ((x / PAGE_SIZE_4KB) mod 2 ^ (9 * Z.of_nat d))) /\
      invlpg s' = vaddr :: invlpg s /\
      forall v, page_no d v <> page_no d vaddr ->
        hw_walk (phys s') root (vpath v) = hw_walk (phys s) root (vpath v)
  | None => forall v, hw_walk (phys s') root (vpath v) = hw_walk (phys s) root (vpath v)
  end.

(** What a mapping of level [d] at [vaddr] gives: each address of the page is
    translated by its offset, through an entry with the flags asked for, and no
    other translation changes. *)
Definition mapped (d : nat) (root paddr vaddr flags : Z) (s s' : vmm Pg) : Prop :=
  vmm_ok root s' /\
  (forall v, page_no d v = page_no d vaddr ->
     hw_translate (phys s') root v = Some (paddr + v mod 2 ^ (12 + 9 * Z.of_nat d))) /\
  (exists x, hw_walk (phys s') root (vpath vaddr) = Some (x, d) /\ entry_flags d flags x) /\
  (forall v, page_no d v <> page_no d vaddr ->
     hw_translate (phys s') root v = hw_translate (phys s) root v) /\
  pages_left (v_pages s) - 3 <= pages_left (v_pages s') /\
  invlpg s' = vaddr :: invlpg s.

(** What [vmm_map_page] has established when the table at the end of [p] is
    ready, compared with the state [s] it started in. *)
Record prepared (flags root vaddr : Z) (p : list Z) (b : Z) (s s' : vmm Pg) : Prop := {
  pr_ok : vmm_ok root s';
  pr_table : walk (phys s') root p = Some b;
  pr_huge : no_huge_on_path (phys s') root vaddr;
  pr_hw v : hw_walk (phys s') root (vpath v) = hw_walk (phys s) root (vpath v);
  pr_left : pages_left (v_pages s) - Z.of_nat (length p) <= pages_left (v_pages s');
  pr_flush : invlpg s' = invlpg s;
  pr_user : truthy (Z.land flags PTE_USER) = true -> user_upto (phys s') root p;
}.
End specification.

(** * Lemmas: entries and addresses *)

(** Flag bits, the low twelve, do not reach the address of an entry. *)
Lemma mask_lor_flags x f : 0 <= f < 2 ^ 12 ->
  Z.land (Z.lor x f) PAGE_MASK_4KB = Z.land x PAGE_MASK_4KB.
Proof.
  intros Hf. apply Z.bits_inj'. intros n Hn.
  rewrite !Z.land_spec, Z.lor_spec, testbit_page_mask by lia.
  destruct (Z.leb_spec 12 n); simpl; [| by rewrite !andb_false_r].
  rewrite (Z.bits_above_log2 f n); [by rewrite orb_false_r | lia |].
  destruct (Z.eq_dec f 0) as [->|]; [simpl; lia |].
  apply Z.lt_le_trans with 12; [apply Z.log2_lt_pow2; lia | lia].
Qed.

Lemma mask_page k : 0 <= k < 2 ^ 52 -> Z.land (k * PAGE_SIZE_4KB) PAGE_MASK_4KB = k * PAGE_SIZE_4KB.
Proof.
  intros Hk. apply Z.bits_inj'. intros n Hn. rewrite Z.land_spec, testbit_page_mask by lia.
  change PAGE_SIZE_4KB with (2 ^ 12). rewrite Z.mul_pow2_bits by lia.
  destruct (Z.leb_spec 12 n), (Z.ltb_spec n 64); simpl; rewrite ?andb_true_r, ?andb_false_r; try done.
  - rewrite Z.bits_above_log2; [done | lia |].
    destruct (Z.eq_dec k 0) as [->|]; [simpl; lia |].
    apply Z.lt_le_trans with 52; [apply Z.log2_lt_pow2; lia | lia].
  - by rewrite Z.testbit_neg_r by lia.
  - by rewrite Z.testbit_neg_r by lia.
Qed.

Lemma land_present v : truthy (Z.land v PTE_PRESENT) = present v.
Proof. by apply land_pow2_testbit. Qed.

Lemma land_huge v : truthy (Z.land v PTE_PAGE_SIZE) = huge v.
Proof. by apply land_pow2_testbit. Qed.

Lemma present_user v : present (Z.lor v PTE_USER) = present v.
Proof. unfold present, PTE_USER. by rewrite testbit_setbit. Qed.

Lemma huge_user v : huge (Z.lor v PTE_USER) = huge v.
Proof. unfold huge, PTE_USER. by rewrite testbit_setbit. Qed.

Lemma vidx_range v sh : 0 <= vidx v sh < 512.
Proof.
  unfold vidx. change 0x1FF with (Z.ones 9). rewrite Z.land_ones by lia.
  apply Z.mod_pos_bound. lia.
Qed.

(** The physical address behind [&table[i]]. *)
Lemma elem_direct k i : 0 < k < 2 ^ 35 -> 0 <= i < 512 ->
  u64 (elem (direct (k * PAGE_SIZE_4KB)) i - DIRECT_OFFSET) = k * PAGE_SIZE_4KB + 8 * i.
Proof.
  intros Hk Hi. unfold elem, direct, PAGE_SIZE_4KB, DIRECT_OFFSET.
  rewrite (u64_small (k * 0x1000 + _)) by lia.
  rewrite (u64_small (_ + 8 * i)) by lia. rewrite u64_small; lia.
Qed.

Lemma cell_inj k k' i i' : 0 <= i < 512 -> 0 <= i' < 512 ->
  k * PAGE_SIZE_4KB + 8 * i = k' * PAGE_SIZE_4KB + 8 * i' -> k = k' /\ i = i'.
Proof. unfold PAGE_SIZE_4KB. lia. Qed.

(** An index of the walk only depends on the page number. *)
Lemma idx_bits x a : 0 <= a <= 27 -> (x / 2 ^ a) mod 2 ^ 9 = (x mod 2 ^ 36 / 2 ^ a) mod 2 ^ 9.
Proof.
  intros Ha. apply Z.bits_inj'. intros n Hn.
  rewrite !Z.testbit_mod_pow2, !Z.div_pow2_bits, Z.testbit_mod_pow2 by lia.
  destruct (Z.ltb_spec n 9); simpl; [| done]. by destruct (Z.ltb_spec (n + a) 36); [| lia].
Qed.

Lemma vidx_vpn w sh : 12 <= sh <= 39 -> vidx w sh = (vpn w / 2 ^ (sh - 12)) mod 2 ^ 9.
Proof.
  intros Hsh. unfold vidx, vpn. change 0x1FF with (Z.ones 9). change PAGE_SIZE_4KB with (2 ^ 12).
  rewrite Z.land_ones, Z.shiftr_div_pow2, <- idx_bits, Z.div_div by lia.
  rewrite <- Z.pow_add_r by lia. by replace (12 + (sh - 12)) with sh by lia.
Qed.

(** The page number in base 512. *)
Lemma vpn_digits v : vpn v = ((vidx v 39 * 512 + vidx v 30) * 512 + vidx v 21) * 512 + vidx v 12.
Proof.
  rewrite !vidx_vpn by lia. assert (0 <= vpn v < 2 ^ 36) as H by (apply Z.mod_pos_bound; lia).
  revert H. generalize (vpn v) as x. intros x Hx.
  change (2 ^ (39 - 12)) with (512 * 512 * 512). change (2 ^ (30 - 12)) with (512 * 512).
  change (2 ^ (21 - 12)) with 512. change (2 ^ (12 - 12)) with 1. change (2 ^ 9) with 512.
  rewrite <- !Z.div_div by lia. dlia.
Qed.

Lemma vpath_vpn v v' : vpath v = vpath v' <-> vpn v = vpn v'.
Proof.
  split; [| unfold vpath; rewrite !vidx_vpn by lia; by intros ->].
  intros [= H1 H2 H3 H4]. rewrite !vpn_digits. congruence.
Qed.

Lemma div_512 a b : 0 <= b < 512 -> (a * 512 + b) / 512 = a.
Proof. intros Hb. dlia. Qed.

(** Two addresses whose walks share the indices down to an entry lie in the
    page, of the size of that level, that the entry maps. *)
Lemma same_page v v' q i r r' : vpath v = q ++ i :: r -> vpath v' = q ++ i :: r' ->
  page_no (length r) v = page_no (length r) v'.
Proof.
  intros Hv Hv'. unfold page_no. rewrite !vpn_digits. pose proof (vidx_range v) as R. pose proof (vidx_range v') as R'.
  destruct q as [|j1 [|j2 [|j3 [|j4 q]]]]; unfold vpath in *; simpl in *; simplify_eq;
    [change (2 ^ (9 * Z.of_nat (length [_; _; _]))) with (512 * 512 * 512)
    | change (2 ^ (9 * Z.of_nat (length [_; _]))) with (512 * 512)
    | change (2 ^ (9 * Z.of_nat (length [_]))) with 512 | congruence | by destruct q];
    rewrite <- ?Z.div_div by lia; rewrite !div_512 by auto; congruence.
Qed.

Lemma page_no_path v v' : page_no 1 v = page_no 1 v' ->
  vidx v 39 = vidx v' 39 /\ vidx v 30 = vidx v' 30 /\ vidx v 21 = vidx v' 21.
Proof.
  unfold page_no. change (2 ^ (9 * Z.of_nat 1)) with 512. rewrite !vpn_digits, !div_512 by apply vidx_range.
  pose proof (vidx_range v) as R. pose proof (vidx_range v') as R'.
  pose proof (R 30); pose proof (R' 30); pose proof (R 21); pose proof (R' 21).
  intros Heq. split_and!; lia.
Qed.

(** The address bits of an entry built from an aligned frame and flags. *)
Lemma frame_lor paddr f d : frame_ok d paddr -> flag_bits d f -> frame (Z.lor paddr f) d = paddr.
Proof.
  intros [Hp Hal] [Hf0 Hf]. unfold frame. set (sh := 12 + 9 * Z.of_nat d) in *.
  apply Z.bits_inj'. intros n Hn. destruct (Z.ltb_spec n sh) as [Hlt|Hge].
  - rewrite Z.mul_pow2_bits_low by lia. apply Z.mod_divide in Hal as [c ->]; [| lia].
    by rewrite Z.mul_pow2_bits_low by lia.
  - rewrite Z.mul_pow2_bits, Z.div_pow2_bits, Z.testbit_mod_pow2, Z.lor_spec by lia.
    replace (n - sh + sh) with n by lia. destruct (Z.ltb_spec n 52); simpl.
    + rewrite Hf by lia. by rewrite orb_false_r.
    + destruct (Z.eq_dec paddr 0) as [->|]; [by rewrite Z.testbit_0_l |].
      rewrite Z.bits_above_log2; [done | lia |].
      apply Z.lt_le_trans with 52; [apply Z.log2_lt_pow2; lia | lia].
Qed.

(** * Lemmas: walking *)

Lemma walk_app m t q r : walk m t (q ++ r) = t' ← walk m t q; walk m t' r.
Proof.
  revert t. induction q as [|i q IH]; intros t; [done |]. simpl.
  destruct (next_table m t i) as [t'|]; simpl; [apply IH | done].
Qed.

Lemma walk_snoc m t q i : walk m t (q ++ [i]) = t' ← walk m t q; next_table m t' i.
Proof.
  rewrite walk_app. destruct (walk m t q) as [t'|]; simpl; [| done].
  by destruct (next_table m t' i).
Qed.

Lemma valid_path_snoc n q i : valid_path n q -> 0 <= i < 512 -> valid_path (S n) (q ++ [i]).
Proof.
  intros [Hl Hf] Hi. split; [rewrite length_app; simpl; lia |].
  apply Forall_app. split; [done | by constructor].
Qed.

Lemma valid_path_app_inv n q r : valid_path n (q ++ r) -> valid_path n q.
Proof. intros [Hl [Hq _]%Forall_app]. rewrite length_app in Hl. split; [lia | done]. Qed.

Lemma valid_path_le n n' q : (n <= n')%nat -> valid_path n q -> valid_path n' q.
Proof. intros Hn [Hl Hf]. split; [lia | done]. Qed.

Lemma vpath_valid v : valid_path 4 (vpath v).
Proof. split; [done |]. repeat constructor; apply vidx_range. Qed.

Lemma vpath3_valid v : valid_path 3 [vidx v 39; vidx v 30; vidx v 21].
Proof. split; [done |]. repeat constructor; apply vidx_range. Qed.

(** Down to the table at the end of [q], the walk of the processor is [walk]. *)
Lemma hw_walk_app m t q b i rest :
  walk m t q = Some b -> hw_walk m t (q ++ i :: rest) = hw_walk m b (i :: rest).
Proof.
  revert t. induction q as [|j q IH]; intros t; [by intros [= ->] |].
  simpl walk. unfold next_table.
  destruct (present _ && negb (huge _)) eqn:E; simpl; [| done]. intros Hw%IH.
  apply andb_true_iff in E as [Hp Hh%negb_true_iff].
  cbn [hw_walk app]. rewrite Hp, Hh. simpl.
  destruct (q ++ i :: rest) eqn:Eq; [by destruct q | exact Hw].
Qed.

Section frame.
Context (m m' : gmap Z Z) (root : Z) (p : list Z) (i : Z).
Hypothesis Hagree : agree_except m m' root p i.

(** A walk that does not go through the changed cell is unchanged. *)
Lemma walk_frame rest pre t :
  walk m root pre = Some t -> valid_path 3 (pre ++ rest) ->
  (forall r1 r2, rest = r1 ++ i :: r2 -> pre ++ r1 <> p) ->
  walk m' t rest = walk m t rest.
Proof.
  revert pre t. induction rest as [|j rest IH]; intros pre t Hpre Hv Havoid; [done |].
  assert (m' @@ (t + 8 * j) = m @@ (t + 8 * j)) as Hcell.
  { apply (Hagree pre); [by eapply valid_path_app_inv | done | |].
    - destruct Hv as [_ [_ [Hj _]%Forall_cons]%Forall_app]. done.
    - destruct (decide (j = i)) as [->|]; [left | by right].
      specialize (Havoid [] rest eq_refl). by rewrite app_nil_r in Havoid. }
  cbn [walk]. unfold next_table. rewrite Hcell.
  destruct (present _ && negb (huge _)) eqn:E; simpl; [| done].
  apply (IH (pre ++ [j])).
  - rewrite walk_snoc, Hpre. simpl. unfold next_table. by rewrite E.
  - by rewrite <- app_assoc.
  - intros r1 r2 ->. rewrite <- app_assoc. by apply (Havoid (j :: r1) r2).
Qed.

Lemma hw_frame rest pre t :
  walk m root pre = Some t -> valid_path 4 (pre ++ rest) ->
  (forall r1 r2, rest = r1 ++ i :: r2 -> pre ++ r1 <> p) ->
  hw_walk m' t rest = hw_walk m t rest.
Proof.
  revert pre t. induction rest as [|j rest IH]; intros pre t Hpre Hv Havoid; [done |].
  assert (m' @@ (t + 8 * j) = m @@ (t + 8 * j)) as Hcell.
  { destruct Hv as [Hl [Hfp [Hj _]%Forall_cons]%Forall_app]. rewrite length_app in Hl. simpl in Hl.
    apply (Hagree pre); [by split; [lia |] | done | done |].
    destruct (decide (j = i)) as [->|]; [left | by right].
    specialize (Havoid [] rest eq_refl). by rewrite app_nil_r in Havoid. }
  cbn [hw_walk]. rewrite Hcell. destruct (present _) eqn:Ep; [| done]. simpl.
  destruct rest as [|j' rest]; [done |].
  destruct (huge _) eqn:Eh; [done |].
  apply (IH (pre ++ [j])).
  - rewrite walk_snoc, Hpre. simpl. unfold next_table. by rewrite Ep, Eh.
  - by rewrite <- app_assoc.
  - intros r1 r2 Heq. rewrite <- app_assoc. apply (Havoid (j :: r1) r2). by rewrite Heq.
Qed.

End frame.

(** From the root, only a path through entry [i] of the table at [p] can change. *)
Lemma walk_frame_root m m' root p i q :
  agree_except m m' root p i -> valid_path 3 q -> (forall r, q <> p ++ i :: r) ->
  walk m' root q = walk m root q.
Proof.
  intros Ha Hv Hq. apply (walk_frame m m' root p i Ha q []); [done.. |].
  intros r1 r2 -> <-. by apply (Hq r2).
Qed.

Lemma hw_frame_root m m' root p i q :
  agree_except m m' root p i -> valid_path 4 q -> (forall r, q <> p ++ i :: r) ->
  hw_walk m' root q = hw_walk m root q.
Proof.
  intros Ha Hv Hq. apply (hw_frame m m' root p i Ha q []); [done.. |].
  intros r1 r2 -> <-. by apply (Hq r2).
Qed.

(** A path either goes through entry [i] of the table at [p] or not. *)
Lemma through_dec (p : list Z) (i : Z) q : (exists r, q = p ++ i :: r) \/ (forall r, q <> p ++ i :: r).
Proof.
  destruct (decide ((p ++ [i]) `prefix_of` q)) as [[r ->]|Hn].
  - left. exists r. by rewrite <- app_assoc.
  - right. intros r ->. apply Hn. exists r. by rewrite <- app_assoc.
Qed.

Section single_store.
Context (used : Z -> bool) (m : gmap Z Z) (root : Z).
Hypothesis Hwf : pt_wf used m root.

(** Writing one entry leaves every other entry of the tree alone. *)
Lemma other_agree p b i m' :
  valid_path 3 p -> walk m root p = Some b -> 0 <= i < 512 ->
  (forall c, c <> b + 8 * i -> m' @@ c = m @@ c) -> agree_except m m' root p i.
Proof.
  intros Hv Hw Hi Hother q b' j Hvq Hwq Hj Hne. apply Hother. intros Heq.
  destruct (wf_page _ _ _ Hwf p b Hv Hw) as (k & -> & _).
  destruct (wf_page _ _ _ Hwf q b' Hvq Hwq) as (k' & -> & _).
  apply cell_inj in Heq as [-> ->]; [| done..].
  destruct Hne as [Hne|]; [| done]. apply Hne. by eapply wf_tree.
Qed.

Lemma store_agree p b i x :
  valid_path 3 p -> walk m root p = Some b -> 0 <= i < 512 ->
  agree_except m (<[b + 8 * i := x]> m) root p i.
Proof.
  intros Hv Hw Hi. apply (other_agree p b i); [done.. |].
  intros c Hc. by rewrite rd_insert_ne.
Qed.

(** Writing an entry that is not a table makes no new table reachable. *)
Lemma store_block_walk p b i x q b' :
  valid_path 3 p -> walk m root p = Some b -> 0 <= i < 512 ->
  length p = 3%nat \/ present x = false \/ huge x = true ->
  valid_path 3 q -> walk (<[b + 8 * i := x]> m) root q = Some b' ->
  walk m root q = Some b' /\ forall r, q <> p ++ i :: r.
Proof.
  intros Hp Hw Hi Hx Hq. set (m' := <[b + 8 * i := x]> m). pose proof (store_agree p b i x Hp Hw Hi) as Ha. fold m' in Ha.
  destruct (through_dec p i q) as [[r ->]|Hn]; [| by rewrite (walk_frame_root _ _ _ _ _ q Ha Hq Hn)].
  rewrite walk_app, (walk_frame_root _ _ _ _ _ p Ha Hp), Hw; cycle 1.
  { intros r' Heq. apply (f_equal length) in Heq. rewrite length_app in Heq. simpl in Heq. lia. }
  simpl. unfold next_table. unfold m' at 1 2 3. rewrite rd_insert_eq.
  destruct Hx as [Hl|[-> | ->]]; [| done | by rewrite andb_false_r].
  destruct Hq as [Hq _]. rewrite length_app in Hq. simpl in Hq. lia.
Qed.

(** An entry that is not a table: absent, huge or of the last level. Whatever
    was below it is gone, and only the addresses below it change. *)
Lemma store_block p b i x :
  valid_path 3 p -> walk m root p = Some b -> 0 <= i < 512 ->
  length p = 3%nat \/ present x = false \/ huge x = true ->
  let m' := <[b + 8 * i := x]> m in
  pt_wf used m' root /\
  (forall v r, vpath v = p ++ i :: r ->
     hw_walk m' root (vpath v) = (if present x then Some (x, length r) else None)) /\
  (forall v, (forall r, vpath v <> p ++ i :: r) ->
     hw_walk m' root (vpath v) = hw_walk m root (vpath v)).
Proof.
  intros Hp Hw Hi Hx m'. pose proof (store_agree p b i x Hp Hw Hi) as Ha. fold m' in Ha.
  assert (walk m' root p = Some b) as Hw'.
  { rewrite (walk_frame_root _ _ _ _ _ p Ha Hp); [done |].
    intros r Heq. apply (f_equal length) in Heq. rewrite length_app in Heq. simpl in Heq. lia. }
  assert (forall q b', valid_path 3 q -> walk m' root q = Some b' -> walk m root q = Some b') as Hsub.
  { intros q b' Hq Hwq. exact (proj1 (store_block_walk p b i x q b' Hp Hw Hi Hx Hq Hwq)). }
  split_and!.
  - split; intros *.
    + intros Hq Hwq. by apply (wf_page _ _ _ Hwf q), Hsub.
    + intros Hq Hq' H1 H2. by apply (wf_tree _ _ _ Hwf q q' b0); [.. | apply Hsub | apply Hsub].
  - intros v r Hv. rewrite Hv, (hw_walk_app _ _ _ b) by done. cbn [hw_walk].
    unfold m'. rewrite rd_insert_eq. destruct (present x) eqn:Ep; simpl; [| done].
    destruct r as [|j r]; [done |]. destruct Hx as [Hl|[Hx|Hx]]; [| congruence | by rewrite Hx].
    apply (f_equal length) in Hv. rewrite length_app in Hv. simpl in Hv. lia.
  - intros v Hv. by apply (hw_frame_root _ _ _ _ _ _ Ha (vpath_valid v)).
Qed.

(** A leaf entry: the tree is unchanged and only one page's translation is. *)
Lemma store_leaf v b x :
  walk m root [vidx v 39; vidx v 30; vidx v 21] = Some b ->
  let m' := <[b + 8 * vidx v 12 := x]> m in
  pt_wf used m' root /\
  (forall q, valid_path 3 q -> walk m' root q = walk m root q) /\
  hw_walk m' root (vpath v) = (if present x then Some (x, O) else None) /\
  (forall v', vpn v' <> vpn v -> hw_walk m' root (vpath v') = hw_walk m root (vpath v')).
Proof.
  intros Hw m'. set (p := [vidx v 39; vidx v 30; vidx v 21]) in *.
  pose proof (vpath3_valid v : valid_path 3 p) as Hp.
  pose proof (store_agree p b (vidx v 12) x Hp Hw (vidx_range _ _)) as Ha. fold m' in Ha.
  assert (forall q, valid_path 3 q -> walk m' root q = walk m root q) as Hwalk.
  { intros q Hq. apply (walk_frame_root _ _ _ _ _ q Ha Hq). intros r ->.
    destruct Hq as [Hl _]. rewrite length_app in Hl. simpl in Hl. lia. }
  split_and!; [| done | |].
  - split; intros q *; [| intros Hq Hq']; rewrite ?Hwalk by done.
    + intros Hq. rewrite Hwalk by done. by apply (wf_page _ _ _ Hwf).
    + by apply (wf_tree _ _ _ Hwf).
  - change (vpath v) with (p ++ [vidx v 12]).
    rewrite (hw_walk_app _ _ _ b) by (by rewrite Hwalk). cbn [hw_walk].
    unfold m'. rewrite rd_insert_eq. by destruct (present x).
  - intros v' Hne. apply (hw_frame_root _ _ _ _ _ _ Ha (vpath_valid v')).
    intros r Heq. apply Hne, vpath_vpn. rewrite Heq. unfold vpath, p in *. simpl in *.
    simplify_eq. done.
Qed.

End single_store.

Lemma valid_path_index n p i r : valid_path n (p ++ i :: r) -> 0 <= i < 512.
Proof. by intros [_ [_ [Hi _]%Forall_cons]%Forall_app]. Qed.

(** An entry above the last level is never the last of a full path. *)
Lemma through_rest p i r v : (length p <= 2)%nat -> vpath v = p ++ i :: r -> r <> [].
Proof. intros Hp Heq ->. apply (f_equal length) in Heq. rewrite length_app in Heq. simpl in Heq. lia. Qed.

Section ensure.
Context (used : Z -> bool) (m : gmap Z Z) (root : Z).
Hypothesis Hwf : pt_wf used m root.
Context (p : list Z) (b i : Z).
Hypothesis Hp : valid_path 2 p.
Hypothesis Hb : walk m root p = Some b.
Hypothesis Hi : 0 <= i < 512.

Lemma ensure_path3 : valid_path 3 p.
Proof. apply (valid_path_le 2); [lia | done]. Qed.
#[local] Abbreviation Hp3 := ensure_path3.

(** The entry is present: at most its user bit is set. *)
Section widen.
Let e := m @@ (b + 8 * i).
Hypothesis Hpresent : present e = true.
Hypothesis Hhuge : huge e = false.
Context (e' : Z).
Hypothesis He' : e' = e \/ e' = Z.lor e PTE_USER.
Context (m' : gmap Z Z).
Hypothesis Hcell : m' @@ (b + 8 * i) = e'.
Hypothesis Hother : forall c, c <> b + 8 * i -> m' @@ c = m @@ c.

Lemma widen_bits : present e' = true /\ huge e' = false /\
  Z.land e' PAGE_MASK_4KB = Z.land e PAGE_MASK_4KB.
Proof.
  destruct He' as [-> | ->]; [done |]. rewrite present_user, huge_user, mask_lor_flags; done.
Qed.

Lemma widen_next t j : next_table m' t j = next_table m t j.
Proof.
  destruct widen_bits as (H1 & H2 & H3). unfold next_table.
  destruct (decide (t + 8 * j = b + 8 * i)) as [->|Hne].
  - rewrite Hcell, H1, H2, H3. fold e. by rewrite Hpresent, Hhuge.
  - by rewrite Hother.
Qed.

Lemma widen_walk t q : walk m' t q = walk m t q.
Proof.
  revert t. induction q as [|j q IH]; intros t; [done |]. cbn [walk].
  rewrite widen_next. destruct (next_table m t j); [apply IH | done].
Qed.

Lemma widen_ensured : ensured used m m' root p i.
Proof.
  pose proof (other_agree used m root Hwf p b i m' Hp3 Hb Hi Hother) as Ha.
  destruct widen_bits as (H1 & H2 & H3). split.
  - split; intros *; rewrite !widen_walk; [apply Hwf | apply (wf_tree _ _ _ Hwf)].
  - exists (Z.land e PAGE_MASK_4KB). rewrite widen_walk, walk_snoc, Hb. simpl.
    unfold next_table. fold e. by rewrite Hpresent, Hhuge.
  - intros q b' _. by rewrite widen_walk.
  - intros q b' _. rewrite widen_walk. by left.
  - intros v. destruct (through_dec p i (vpath v)) as [[r Hr]|Hnot]; [| by apply (hw_frame_root _ _ _ p i); [| apply vpath_valid |]].
    pose proof (through_rest p i r v (proj1 Hp) Hr) as Hne. pose proof (vpath_valid v) as Hv.
    rewrite Hr in *. rewrite !(hw_walk_app _ _ _ b) by (by rewrite ?widen_walk).
    cbn [hw_walk]. rewrite Hcell, H1, H2, H3. fold e. rewrite Hpresent, Hhuge. simpl. destruct r as [|j r]; [done |].
    apply (hw_frame m m' root p i Ha (j :: r) (p ++ [i])).
    + rewrite walk_snoc, Hb. simpl. unfold next_table. fold e. by rewrite Hpresent, Hhuge.
    + by rewrite <- app_assoc.
    + intros r1 r2 _ Heq. apply (f_equal length) in Heq. rewrite !length_app in Heq. simpl in Heq. lia.
  - intros v Hno q j rest b' Hq Hrest. rewrite widen_walk. intros Hw.
    destruct (decide (b' + 8 * j = b + 8 * i)) as [->|Hne].
    + by rewrite Hcell.
    + rewrite Hother by done. by eapply Hno.
  - intros q b' j _ _ _ _ Hu. destruct (decide (b' + 8 * j = b + 8 * i)) as [Heq|Hne].
    + rewrite Heq, Hcell. rewrite Heq in Hu. fold e in Hu.
      destruct He' as [-> | ->]; [done |]. unfold user_entry in *. by rewrite Z.lor_spec, Hu.
    + by rewrite Hother.
Qed.
End widen.

(** The entry is absent: an empty table is linked behind it. *)
Section install.
Hypothesis Habsent : present (m @@ (b + 8 * i)) = false.
Context (k : Z) (used' : Z -> bool) (f : Z) (z : gmap Z Z).
Let N := k * PAGE_SIZE_4KB.
Hypothesis Hk : 0 < k < 2 ^ 35.
Hypothesis Hfresh : used k = false.
Hypothesis Hused' : forall j, used' j = if decide (j = k) then true else used j.
Hypothesis Hf : 0 <= f < 2 ^ 12 /\ present f = true /\ huge f = false.
Hypothesis Hz0 : forall j, 0 <= j < 512 -> z @@ (N + 8 * j) = 0.
Hypothesis Hzm : forall c, (forall j, 0 <= j < 512 -> c <> N + 8 * j) -> z @@ c = m @@ c.
Let m' := <[b + 8 * i := Z.lor N f]> z.

Lemma install_page q b' : valid_path 3 q -> walk m root q = Some b' ->
  exists k', b' = k' * PAGE_SIZE_4KB /\ k' <> k.
Proof.
  intros Hq Hw. destruct (wf_page _ _ _ Hwf q b' Hq Hw) as (k' & -> & _ & Hu).
  exists k'. split; [done | congruence].
Qed.

Lemma install_agree : agree_except m m' root p i.
Proof.
  intros q b' j Hq Hw Hj Hne.
  destruct (install_page p b Hp3 Hb) as (kb & Eb & _), (install_page q b' Hq Hw) as (k' & -> & Hk').
  unfold m'. rewrite rd_insert_ne.
  - apply Hzm. intros l Hl. unfold N. intros [? _]%cell_inj; done.
  - rewrite Eb. intros [-> ->]%cell_inj; [| done..]. destruct Hne as [Hne|]; [| done].
    apply Hne. apply (wf_tree _ _ _ Hwf q p b); [done | exact Hp3 | congruence | done].
Qed.

Lemma install_new_cells j : 0 <= j < 512 -> m' @@ (N + 8 * j) = 0.
Proof.
  intros Hj. destruct (install_page p b Hp3 Hb) as (kb & Eb & Hkb). unfold m'.
  rewrite rd_insert_ne; [by apply Hz0 |]. rewrite Eb. unfold N. by intros [? _]%cell_inj.
Qed.

Lemma install_entry : m' @@ (b + 8 * i) = Z.lor N f /\ present (Z.lor N f) = true /\
  huge (Z.lor N f) = false /\ Z.land (Z.lor N f) PAGE_MASK_4KB = N.
Proof.
  destruct Hf as (Hr & Hpf & Hhf). unfold m'. rewrite rd_insert_eq, mask_lor_flags by done.
  split_and!; [done | | | by apply mask_page; lia]; unfold present, huge in *;
    rewrite Z.lor_spec; [by rewrite Hpf, orb_true_r |].
  rewrite Hhf. unfold N. change PAGE_SIZE_4KB with (2 ^ 12).
  rewrite Z.mul_pow2_bits, Z.testbit_neg_r by lia. done.
Qed.

Lemma install_walk_parent : walk m' root p = Some b.
Proof.
  rewrite (walk_frame_root m _ _ p i p install_agree Hp3); [done |].
  intros r Heq. apply (f_equal length) in Heq. rewrite length_app in Heq. simpl in Heq. lia.
Qed.

Lemma install_walk q : valid_path 3 q ->
  walk m' root q = if decide (q = p ++ [i]) then Some N
                   else if decide ((p ++ [i]) `prefix_of` q) then None else walk m root q.
Proof.
  intros Hq. destruct install_entry as (E1 & E2 & E3 & E4). pose proof install_agree as Ha.
  destruct (through_dec p i q) as [[r ->]|Hnot].
  - rewrite walk_app, install_walk_parent. simpl. unfold next_table at 1. rewrite E1, E2, E3, E4. simpl.
    destruct r as [|j r]; [by rewrite decide_True |].
    rewrite decide_False by (intros Heq%app_inv_head; done).
    rewrite decide_True by (exists (j :: r); by rewrite <- app_assoc). simpl.
    unfold next_table. rewrite install_new_cells; [done |].
    apply (valid_path_index 3 (p ++ [i]) j r). by rewrite <- app_assoc.
  - rewrite (walk_frame_root m _ _ p i q Ha Hq Hnot).
    rewrite decide_False by (intros ->; by apply (Hnot [])).
    rewrite decide_False; [done |]. intros [r ->]. apply (Hnot r). by rewrite <- app_assoc.
Qed.

Lemma install_walk_old q b' : valid_path 3 q -> walk m' root q = Some b' ->
  (q = p ++ [i] /\ b' = N) \/ (walk m root q = Some b' /\ q <> p ++ [i]).
Proof.
  intros Hq. rewrite install_walk by done.
  repeat case_decide; [intros [= <-]; by left | done | by right].
Qed.

Lemma install_wf : pt_wf used' m' root.
Proof.
  split.
  - intros q b' Hq [[_ ->]|[Hw _]]%install_walk_old; [| | done].
    + exists k. by rewrite Hused', decide_True.
    + destruct (wf_page _ _ _ Hwf q b' Hq Hw) as (k' & -> & Hr & Hu).
      exists k'. rewrite Hused'. by case_decide.
  - intros q q' b' Hq Hq' H1%install_walk_old H2%install_walk_old; [| done..].
    destruct H1 as [[-> ->]|[H1 _]], H2 as [[-> ?]|[H2 _]]; try done.
    + destruct (install_page q' _ Hq' H2) as (k' & E & Hne). unfold N, PAGE_SIZE_4KB in E. lia.
    + subst. destruct (install_page q _ Hq H1) as (k' & E & Hne). unfold N, PAGE_SIZE_4KB in E. lia.
    + by eapply (wf_tree _ _ _ Hwf).
Qed.

Lemma install_ensured : ensured used' m m' root p i.
Proof.
  pose proof install_agree as Ha. destruct install_entry as (E1 & E2 & E3 & E4).
  assert (valid_path 3 (p ++ [i])) as Hpi by (by apply valid_path_snoc).
  split; [apply install_wf | exists N; rewrite install_walk, decide_True; done | | | | |].
  - intros q b' Hq Hw. rewrite install_walk by done.
    assert (forall r, walk m root (p ++ i :: r) = None) as Hnone.
    { intros r. rewrite walk_app, Hb. simpl. unfold next_table. by rewrite Habsent. }
    repeat case_decide; [subst; by rewrite Hnone in Hw | | done].
    destruct H0 as [r ->]. rewrite <- app_assoc in Hw. simpl in Hw. by rewrite Hnone in Hw.
  - intros q b' Hq [[-> _]|[Hw _]]%install_walk_old; [by right | by left | done].
  - intros v. destruct (through_dec p i (vpath v)) as [[r Hr]|Hnot]; [| by apply (hw_frame_root _ _ _ p i); [| apply vpath_valid |]].
    pose proof (through_rest p i r v (proj1 Hp) Hr) as Hne. pose proof (vpath_valid v) as Hv.
    rewrite Hr in *.
    rewrite (hw_walk_app m' root p b i r install_walk_parent), (hw_walk_app m root p b i r Hb).
    cbn [hw_walk]. rewrite Habsent, E1, E2, E3, E4. simpl. destruct r as [|j r]; [done |].
    cbn [hw_walk]. rewrite install_new_cells; [done |].
    apply (valid_path_index 4 (p ++ [i]) j r). by rewrite <- app_assoc.
  - intros v Hno q j rest b' Hq Hrest Hw. pose proof (vpath_valid v) as Hv. rewrite Hq in Hv.
    pose proof (valid_path_index _ _ _ _ Hv) as Hj.
    assert (valid_path 3 q) as Hq3.
    { destruct Hv as [Hl [Hfa _]%Forall_app]. rewrite length_app in Hl.
      destruct rest; [done |]. simpl in Hl. split; [lia | done]. }
    apply install_walk_old in Hw as [[-> ->]|[Hw Hqne]]; [by rewrite install_new_cells | | done].
    destruct (decide (q = p)) as [->|Hqp]; [destruct (decide (j = i)) as [->|Hji] |].
    + replace b' with b by congruence. by rewrite E1.
    + rewrite (Ha p b' j) by eauto. by eapply Hno.
    + rewrite (Ha q b' j) by eauto. by eapply Hno.
  - intros q b' j Hq Hw Hj Hpr Hu. rewrite (Ha q b' j); [done.. |].
    destruct (decide (q = p)) as [->|]; [right; intros -> | by left].
    replace b' with b in Hpr by congruence. congruence.
Qed.
End install.
End ensure.

(** * Lemmas: the operations *)

Section operation_lemmas.
Context {Pg : Type} `{Hpa : PageAlloc Pg} `{!PageAllocLaws Pg}.
Implicit Types s : vmm Pg.

Lemma wp_load_elem k i (Q : Z -> vmm Pg -> Prop) s :
  0 < k < 2 ^ 35 -> 0 <= i < 512 ->
  Q (phys s @@ (k * PAGE_SIZE_4KB + 8 * i)) s -> wp (load (elem (direct (k * PAGE_SIZE_4KB)) i)) Q s.
Proof. intros Hk Hi HQ. apply wp_gets. by rewrite elem_direct. Qed.

Lemma wp_store_elem k i x (Q : unit -> vmm Pg -> Prop) s :
  0 < k < 2 ^ 35 -> 0 <= i < 512 ->
  Q tt (with_phys (<[k * PAGE_SIZE_4KB + 8 * i := x]> (phys s)) s) ->
  wp (store (elem (direct (k * PAGE_SIZE_4KB)) i) x) Q s.
Proof. intros Hk Hi HQ. apply wp_modify. by rewrite elem_direct. Qed.

Lemma wp_clear_table k (Q : unit -> vmm Pg -> Prop) s :
  0 < k < 2 ^ 35 ->
  (forall z, (forall j, 0 <= j < 512 -> z @@ (k * PAGE_SIZE_4KB + 8 * j) = 0) ->
     (forall c, (forall j, 0 <= j < 512 -> c <> k * PAGE_SIZE_4KB + 8 * j) -> z @@ c = phys s @@ c) ->
     Q tt (with_phys z s)) ->
  wp (clear_table (direct (k * PAGE_SIZE_4KB))) Q s.
Proof.
  intros Hk HQ. eapply wp_mono.
  - apply (wp_for 512 (fun n s' => exists z, s' = with_phys z s /\
      (forall j, 0 <= j < n -> z @@ (k * PAGE_SIZE_4KB + 8 * j) = 0) /\
      (forall c, (forall j, 0 <= j < 512 -> c <> k * PAGE_SIZE_4KB + 8 * j) -> z @@ c = phys s @@ c))).
    + exists (phys s). split_and!; [by destruct s | lia | done].
    + intros n s' Hn (z & -> & Hz & Hc). apply wp_store_elem; [done | lia |].
      eexists. split_and!; [done | |].
      * intros j Hj. simpl. destruct (decide (j = n)) as [->|]; [apply rd_insert_eq |].
        rewrite rd_insert_ne by lia. apply Hz. lia.
      * intros c Hne. simpl. rewrite rd_insert_ne; [by apply Hc |].
        intros Heq. apply (Hne n); [lia | done].
  - intros [] s' (z & -> & Hz & Hc). apply HQ; [intros j Hj; apply Hz; lia | done].
Qed.

Lemma wp_ensure_table flags root p b i s :
  vmm_ok root s -> 0 < pages_left (v_pages s) ->
  valid_path 2 p -> walk (phys s) root p = Some b -> 0 <= i < 512 ->
  (present (phys s @@ (b + 8 * i)) = true -> huge (phys s @@ (b + 8 * i)) = false) ->
  wp (ensure_table flags (elem (direct b) i)) (fun _ s' => ensured_state root p i s s' /\
    (truthy (Z.land flags PTE_USER) = true -> present (phys s' @@ (b + 8 * i)) = true /\
       user_entry (phys s' @@ (b + 8 * i)) = true)) s.
Proof.
  intros [Hok Hwf] Hleft Hp Hb Hi Hh.
  destruct (wf_page _ _ _ Hwf p b) as (kb & -> & Hkb & _); [by apply (valid_path_le 2); [lia |] | done |].
  unfold ensure_table. apply wp_bind, wp_load_elem; [done.. |]. rewrite land_present.
  set (e := phys s @@ (kb * PAGE_SIZE_4KB + 8 * i)) in *.
  destruct (present e) eqn:Epr; simpl.
  - assert (forall e' m', e' = e \/ e' = Z.lor e PTE_USER ->
      m' @@ (kb * PAGE_SIZE_4KB + 8 * i) = e' ->
      (forall c, c <> kb * PAGE_SIZE_4KB + 8 * i -> m' @@ c = phys s @@ c) ->
      ensured_state root p i s (with_phys m' s)) as Hen.
    { intros e' m' He' Hc Ho. split_and!; [done | | simpl; lia | done].
      by apply (widen_ensured _ _ _ Hwf p (kb * PAGE_SIZE_4KB) i Hp Hb Hi Epr (Hh eq_refl) e'). }
    apply wp_when; intros Hu.
    + apply wp_store_elem; [done.. |]. split.
      * apply (Hen (Z.lor e PTE_USER)); [by right | apply rd_insert_eq |].
        intros c Hc. by rewrite rd_insert_ne.
      * intros _. simpl. rewrite rd_insert_eq, present_user. split; [done |].
        unfold user_entry. by rewrite Z.lor_spec, orb_true_r.
    + split; [| congruence]. destruct s as [a m l]. by apply (Hen e m); [left | |].
  - apply wp_bind, wp_zoom. eapply wp_mono; [by apply wp_alloc_page |].
    intros r a' [Hok' [(_ & H0 & _)|(k & Hk & -> & Hfree & Hcnt & Hused)]]; [simpl in *; lia |].
    simpl in Hfree, Hcnt, Hused. apply wp_bind, wp_clear_table; [done |]. intros z Hz Hzo.
    assert (forall f, 0 <= f < 2 ^ 12 /\ present f = true /\ huge f = false ->
      ensured_state root p i s (with_phys (<[kb * PAGE_SIZE_4KB + 8 * i := Z.lor (k * PAGE_SIZE_4KB) f]> z)
        (set_v_pages a' s))) as Hen.
    { intros f Hf. split_and!; [done | | simpl; lia | done].
      by apply (install_ensured _ _ _ Hwf p (kb * PAGE_SIZE_4KB) i Hp Hb Hi Epr k _ f z). }
    simpl. destruct (truthy (Z.land flags PTE_USER)).
    + apply wp_store_elem; [done.. |]. split; [by apply Hen | intros _; simpl].
      rewrite rd_insert_eq. unfold present, user_entry.
      rewrite !Z.lor_spec, !orb_true_r. done.
    + apply wp_store_elem; [done.. |]. split; [by apply Hen | done].
Qed.

Lemma wp_table_behind b i b' (Q : Z -> vmm Pg -> Prop) k s :
  b = k * PAGE_SIZE_4KB -> 0 < k < 2 ^ 35 -> 0 <= i < 512 ->
  next_table (phys s) b i = Some b' -> Q (direct b') s ->
  wp (table_behind (elem (direct b) i)) Q s.
Proof.
  intros -> Hk Hi Hn HQ. unfold table_behind. apply wp_bind, wp_load_elem; [done.. |].
  apply wp_ret. unfold next_table in Hn. destruct (present _ && _); [| done].
  by injection Hn as ->.
Qed.

Lemma prefix_of_valid n (p q r : list Z) j : valid_path n p -> p = q ++ j :: r -> valid_path n q /\ 0 <= j < 512.
Proof. intros Hv ->. split; [by eapply valid_path_app_inv | by eapply valid_path_index]. Qed.

(** A tree that only grew keeps the walks it had, also towards shorter paths. *)
Lemma walk_keep_inv m m' root p b q r b' :
  (forall q b, valid_path 3 q -> walk m root q = Some b -> walk m' root q = Some b) ->
  valid_path 3 p -> walk m root p = Some b -> p = q ++ r ->
  walk m' root q = Some b' -> walk m root q = Some b'.
Proof.
  intros Hk Hv Hw -> Hw'. rewrite walk_app in Hw.
  destruct (walk m root q) as [b0|] eqn:E; [| done].
  apply Hk in E; [congruence | by eapply valid_path_app_inv].
Qed.

Lemma user_upto_snoc used' m m' root p b i :
  valid_path 2 p -> walk m root p = Some b -> ensured used' m m' root p i ->
  user_upto m root p -> present (m' @@ (b + 8 * i)) = true -> user_entry (m' @@ (b + 8 * i)) = true ->
  user_upto m' root (p ++ [i]).
Proof.
  intros Hv Hw He Hu Hpr Hue q j r b' Heq Hw'.
  assert (valid_path 3 p) as Hv3 by (by apply (valid_path_le 2); [lia |]).
  destruct r as [|j' r] using rev_ind.
  - apply app_inj_tail in Heq as [<- ->]. apply (en_keep _ _ _ _ _ _ He) in Hw; [| done].
    by replace b' with b by congruence.
  - clear IHr. rewrite app_comm_cons, app_assoc in Heq. apply app_inj_tail in Heq as [Heq ->].
    destruct (prefix_of_valid _ _ _ _ _ Hv3 Heq) as [Hq Hj].
    assert (walk m root q = Some b') 
      as Hwq by exact (walk_keep_inv m m' root p b q (j :: r) b' (en_keep _ _ _ _ _ _ He) Hv3 Hw Heq Hw').
    destruct (Hu q j r b' Heq Hwq) as [Hp1 Hu1]. split; [| by apply (en_user _ _ _ _ _ _ He q)].
    assert (exists t, walk m' root (q ++ [j]) = Some t) as [t Ht].
    { rewrite Heq in Hw. change (j :: r) with ([j] ++ r) in Hw. rewrite app_assoc, walk_app in Hw.
      destruct (walk m root (q ++ [j])) as [t|] eqn:E; [| done].
      exists t. apply (en_keep _ _ _ _ _ _ He); [| done].
      eapply (valid_path_app_inv _ _ r). rewrite <- app_assoc. simpl. by rewrite <- Heq. }
    rewrite walk_snoc, Hw' in Ht. simpl in Ht. unfold next_table in Ht.
    by destruct (present (m' @@ (b' + 8 * j))).
Qed.

(** The next level is ready after [ensure_table]. *)
Lemma prepared_next flags root vaddr s0 p b i rest s s' :
  prepared flags root vaddr p b s0 s -> vpath vaddr = p ++ i :: rest -> (length p <= 2)%nat ->
  ensured_state root p i s s' ->
  (truthy (Z.land flags PTE_USER) = true -> present (phys s' @@ (b + 8 * i)) = true /\
     user_entry (phys s' @@ (b + 8 * i)) = true) ->
  exists b', prepared flags root vaddr (p ++ [i]) b' s0 s' /\ next_table (phys s') b i = Some b'.
Proof.
  intros [Hok Ht Hh Hhw Hl Hf Hu] Hpath Hlen (Hok' & He & Hl' & Hf') Hu'.
  pose proof (vpath_valid vaddr) as Hv. rewrite Hpath in Hv.
  assert (valid_path 2 p) as Hp by (destruct Hv as [_ [? _]%Forall_app]; by split).
  assert (valid_path 3 p) as Hp3 by (by apply (valid_path_le 2); [lia |]).
  pose proof (en_wf _ _ _ _ _ _ He) as Hwf'.
  destruct (en_table _ _ _ _ _ _ He) as [b' Hb']. pose proof (en_keep _ _ _ _ _ _ He p b Hp3 Ht) as Hb.
  exists b'. split; [| by rewrite walk_snoc, Hb in Hb'].
  split; [done | done | by apply He | | | congruence |].
  - intros v. by rewrite (en_hw _ _ _ _ _ _ He).
  - rewrite length_app. simpl. lia.
  - intros Hfl. destruct (Hu' Hfl) as [Hpr Hue].
    exact (user_upto_snoc _ _ _ root p _ i Hp Ht He (Hu Hfl) Hpr Hue).
Qed.

(** One level of [vmm_map_page]. *)
Lemma wp_level {A} flags root vaddr s0 p b i rest (f : Z -> M (vmm Pg) A) Q s :
  prepared flags root vaddr p b s0 s -> 3 <= pages_left (v_pages s0) ->
  vpath vaddr = p ++ i :: rest -> (length p <= 2)%nat ->
  (forall b' s', prepared flags root vaddr (p ++ [i]) b' s0 s' -> wp (f (direct b')) Q s') ->
  wp (ensure_table flags (elem (direct b) i);; t ← table_behind (elem (direct b) i); f t) Q s.
Proof.
  intros Hpr Hleft Hpath Hlen HQ. pose proof Hpr as [Hok Ht Hh _ Hl _ _].
  pose proof (vpath_valid vaddr) as Hv. rewrite Hpath in Hv. pose proof (valid_path_index _ _ _ _ Hv) as Hi.
  assert (valid_path 2 p) as Hp by (destruct Hv as [_ [? _]%Forall_app]; by split).
  assert (valid_path 3 p) as Hp3 by (by apply (valid_path_le 2); [lia |]).
  apply wp_bind. eapply wp_mono.
  { apply (wp_ensure_table _ root p); [done | lia | done | done | done |].
    intros Hpre. apply (Hh p i rest b); [done | by eapply through_rest | done..]. }
  intros _ s' [Hen Hu']. destruct (prepared_next _ _ _ _ _ _ _ _ _ _ Hpr Hpath Hlen Hen Hu') as (b' & Hpr' & Hb').
  destruct (wf_page _ _ _ (proj2 Hok) p b Hp3 Ht) as (k & -> & Hk & _).
  apply wp_bind. eapply wp_table_behind; [done.. |]. by apply HQ.
Qed.

Lemma prepared_nil flags root vaddr s :
  vmm_ok root s -> no_huge_on_path (phys s) root vaddr -> prepared flags root vaddr [] root s s.
Proof. intros Hok Hh. split; try done; [simpl; lia |]. by intros _ [|? ?]. Qed.

(** The last step for a 4 KiB page, once the three tables are there. *)
Lemma map_leaf flags root vaddr b x s0 s :
  prepared flags root vaddr [vidx vaddr 39; vidx vaddr 30; vidx vaddr 21] b s0 s ->
  present x = true ->
  let m' := <[b + 8 * vidx vaddr 12 := x]> (phys s) in
  pt_wf (page_used (v_pages s)) m' root /\
  hw_walk m' root (vpath vaddr) = Some (x, O) /\
  (forall v', vpn v' <> vpn vaddr -> hw_walk m' root (vpath v') = hw_walk (phys s0) root (vpath v')) /\
  (truthy (Z.land flags PTE_USER) = true -> user_entry x = true -> user_path m' root vaddr).
Proof.
  intros [[Hok Hwf] Ht _ Hhw _ _ Hu] Hx m'.
  destruct (store_leaf _ _ _ Hwf vaddr b x Ht) as (Hwf' & Hwalk & Hat & Hother). fold m' in Hwf', Hwalk, Hat, Hother.
  rewrite Hx in Hat. split_and!; [done | done | |].
  - intros v' Hv'. by rewrite Hother, Hhw.
  - intros Hfl Hux q j r b' Heq Hw. set (p := [vidx vaddr 39; vidx vaddr 30; vidx vaddr 21]) in *.
    change (vpath vaddr) with (p ++ [vidx vaddr 12]) in Heq.
    pose proof (vpath3_valid vaddr : valid_path 3 p) as Hp.
    destruct r as [|j' r] using rev_ind.
    + apply app_inj_tail in Heq as [<- <-]. rewrite Hwalk, Ht in Hw by done. injection Hw as <-.
      unfold m'. by rewrite rd_insert_eq.
    + clear IHr. rewrite app_comm_cons, app_assoc in Heq. apply app_inj_tail in Heq as [Heq _].
      destruct (prefix_of_valid _ _ _ _ _ Hp Heq) as [Hq Hj]. rewrite Hwalk in Hw by done.
      unfold m'. rewrite (store_agree _ _ _ Hwf p b _ x Hp Ht (vidx_range _ _) q b' j Hq Hw Hj).
      * by eapply Hu.
      * left. intros ->. apply (f_equal length) in Heq. rewrite length_app in Heq. simpl in Heq. lia.
Qed.

Lemma wp_map_4k root paddr vaddr flags s :
  vmm_ok root s -> 3 <= pages_left (v_pages s) -> no_huge_on_path (phys s) root vaddr ->
  let x := Z.lor paddr (Z.lor PTE_PRESENT flags) in
  wp (vmm_map_page root paddr vaddr PAGE_SIZE_4KB flags) (fun _ s' =>
    vmm_ok root s' /\ hw_walk (phys s') root (vpath vaddr) = Some (x, O) /\
    (forall v', vpn v' <> vpn vaddr ->
       hw_walk (phys s') root (vpath v') = hw_walk (phys s) root (vpath v')) /\
    (truthy (Z.land flags PTE_USER) = true -> user_path (phys s') root vaddr) /\
    pages_left (v_pages s) - 3 <= pages_left (v_pages s') /\
    invlpg s' = vaddr :: invlpg s) s.
Proof.
  intros Hok Hleft Hh x. pose proof (prepared_nil flags root vaddr s Hok Hh) as H0.
  unfold vmm_map_page. simpl. eapply wp_level; [done | done | reflexivity | simpl; lia |]. intros b3 s1 H1.
  eapply wp_level; [done | done | reflexivity | simpl; lia |]. intros b2 s2 H2.
  eapply wp_level; [done | done | reflexivity | simpl; lia |]. intros b1 s3 H3. simpl app in H3.
  pose proof H3 as [[Hok3 Hwf3] Ht3 _ _ Hl3 Hf3 _].
  destruct (wf_page _ _ _ Hwf3 _ _ (vpath3_valid vaddr) Ht3)
    as (k & -> & Hk & _).
  apply wp_bind, wp_store_elem; [done | apply vidx_range |]. fold x.
  assert (present x = true) as Hx.
  { unfold present, x. rewrite !Z.lor_spec. apply orb_true_iff. right. by apply orb_true_iff; left. }
  destruct (map_leaf _ _ _ _ x _ _ H3 Hx) as (Hwf' & Hat & Hother & Huser).
  apply wp_modify. split; [by split |].
  split_and!; simpl; [done | done | | simpl in Hl3; lia | by rewrite Hf3].
  intros Hfl. apply Huser; [done |]. unfold user_entry, x. rewrite !Z.lor_spec.
  unfold PTE_USER in Hfl. rewrite land_pow2_testbit in Hfl by lia. by rewrite Hfl, !orb_true_r.
Qed.

(** One level of [vmm_get_entry]: the walk ends here or goes on behind the entry. *)
Lemma entry_level m root vaddr q b i rest :
  vpath vaddr = q ++ i :: rest -> walk m root q = Some b ->
  let x := m @@ (b + 8 * i) in
  (present x = false -> hw_walk m root (vpath vaddr) = None) /\
  (present x = true -> huge x = true -> rest <> [] ->
     hw_walk m root (vpath vaddr) = Some (x, length rest)) /\
  (present x = true -> huge x = false -> walk m root (q ++ [i]) = Some (Z.land x PAGE_MASK_4KB)).
Proof.
  intros -> Hw x. rewrite (hw_walk_app _ _ _ b) by done. cbn [hw_walk]. fold x. split_and!.
  - by intros ->.
  - intros -> ->. by destruct rest.
  - intros Hp Hh. rewrite walk_snoc, Hw. simpl. unfold next_table. fold x. by rewrite Hp, Hh.
Qed.

Lemma entry_post_at m root vaddr q b i rest level :
  vpath vaddr = q ++ i :: rest -> walk m root q = Some b ->
  (present (m @@ (b + 8 * i)) = true /\ huge (m @@ (b + 8 * i)) = true) \/ rest = [] ->
  level = (if decide (length rest = 1%nat) then 2 else Z.of_nat (length rest)) ->
  entry_post m root vaddr (Some (elem (direct b) i, level)).
Proof.
  intros Hv Hw Hor ->. exists q, b, i, rest. do 3 (split; [done |]). split; [done |]. split; [tauto |].
  rewrite Hv, (hw_walk_app _ _ _ b) by done. cbn [hw_walk].
  destruct Hor as [[-> ->]| ->]; [by destruct rest | by destruct (present _)].
Qed.

(** One level of [vmm_get_entry], up to the two tests. *)
Lemma wp_entry_level root vaddr q b i rest level (K : Z -> M (vmm Pg) (option (Z * Z))) Q s :
  vmm_ok root s -> vpath vaddr = q ++ i :: rest -> rest <> [] -> walk (phys s) root q = Some b ->
  level = (if decide (length rest = 1%nat) then 2 else Z.of_nat (length rest)) ->
  (forall r, entry_post (phys s) root vaddr r -> Q r s) ->
  (forall x, walk (phys s) root (q ++ [i]) = Some (Z.land x PAGE_MASK_4KB) -> wp (K x) Q s) ->
  wp (v ← load (elem (direct b) i);
      if negb (truthy (Z.land v PTE_PRESENT)) then mret None
      else if truthy (Z.land v PTE_PAGE_SIZE) then mret (Some (elem (direct b) i, level))
      else K v) Q s.
Proof.
  intros [_ Hwf] Hv Hr Hw Hlevel HQ HK. pose proof (vpath_valid vaddr) as Hval.
  assert (valid_path 3 q) as Hq.
  { rewrite Hv in Hval. destruct Hval as [Hl [Hf _]%Forall_app]. rewrite length_app in Hl. simpl in Hl.
    destruct rest; [done |]. simpl in Hl. split; [lia | done]. }
  assert (0 <= i < 512) as Hi by (rewrite Hv in Hval; by eapply valid_path_index).
  destruct (wf_page _ _ _ Hwf q b Hq Hw) as (k & -> & Hk & _).
  destruct (entry_level _ _ vaddr q _ _ _ Hv Hw) as (Hnone & _ & Hnext).
  apply wp_bind, wp_load_elem; [done.. |]. rewrite land_present, land_huge.
  destruct (present _) eqn:Ep; [| by apply wp_ret, HQ, Hnone]. simpl.
  destruct (huge _) eqn:Eh; [| by apply HK, Hnext].
  apply wp_ret, HQ. by apply (entry_post_at _ _ _ q _ _ rest); auto.
Qed.

Lemma wp_get_entry root vaddr (Q : option (Z * Z) -> vmm Pg -> Prop) s :
  vmm_ok root s ->
  (forall r, entry_post (phys s) root vaddr r -> Q r s) -> wp (vmm_get_entry root vaddr) Q s.
Proof.
  intros Hok HQ. unfold vmm_get_entry. cbv zeta.
  eapply (wp_entry_level root vaddr []); [done | reflexivity | done | done | done | done |]. intros x3 H3.
  eapply (wp_entry_level root vaddr [_]); [done | reflexivity | done | exact H3 | done | done |]. intros x2 H2.
  eapply (wp_entry_level root vaddr [_; _]); [done | reflexivity | done | exact H2 | done | done |]. intros x1 H1.
  apply wp_ret, HQ. apply (entry_post_at _ _ vaddr [vidx vaddr 39; vidx vaddr 30; vidx vaddr 21] _ (vidx vaddr 12) []); [done | exact H1 | by right | done].
Qed.

(** What the mask of [vmm_unmap_page] leaves of an entry. *)
Lemma mask_frame x d : 0 <= x < 2 ^ 52 -> Z.land x PAGE_MASK_4KB = frame x d + PAGE_SIZE_4KB * ((x / PAGE_SIZE_4KB) mod 2 ^ (9 * Z.of_nat d)).
Proof.
  intros Hx. change PAGE_MASK_4KB with (2 ^ 64 - 2 ^ 12). rewrite land_high_mask by lia. unfold frame, PAGE_SIZE_4KB. rewrite (Z.mod_small x) by lia.
  change 0x1000 with (2 ^ 12). rewrite Z.pow_add_r, <- Z.div_div, Z.mod_eq by lia. lia.
Qed.

Lemma wp_unmap root vaddr s : vmm_ok root s ->
  wp (vmm_unmap_page root vaddr) (fun r s' => unmapped root vaddr r s s') s.
Proof.
  intros Hok. apply wp_bind, (wp_get_entry root); [done |]. intros [[e level]|] He.
  2: { apply wp_ret. unfold unmapped. by rewrite He. }
  destruct He as (q & b & i & rest & Hv & Hw & -> & _ & Hx & Hhw), Hok as [Hok Hwf].
  pose proof (vpath_valid vaddr) as Hval. rewrite Hv in Hval.
  pose proof (valid_path_index _ _ _ _ Hval) as Hi.
  assert (valid_path 3 q) as Hq.
  { destruct Hval as [Hl [Hf _]%Forall_app]. rewrite length_app in Hl. simpl in Hl. split; [lia | done]. }
  destruct (store_block _ _ _ Hwf q b i 0 Hq Hw Hi) as (Hwf' & Hat & Hother); [auto |].
  destruct (wf_page _ _ _ Hwf q b Hq Hw) as (k & -> & Hk & _).
  apply wp_bind, wp_load_elem; [done.. |]. apply wp_bind, wp_store_elem; [done.. |].
  apply wp_bind, wp_modify, wp_ret. unfold unmapped. cbn [v_pages phys invlpg with_phys].
  split_and!; [done | done | by apply (Hat vaddr rest) |]. rewrite Hhw.
  destruct (present _) eqn:Ep; cbn [phys with_phys invlpg].
  - split; [intros Hx52; by apply mask_frame |]. split; [done |]. intros v Hne. apply Hother. intros r Hr. apply Hne.
    symmetry. apply (same_page vaddr v q i rest r Hv Hr).
  - intros v. destruct (through_dec q i (vpath v)) as [[r Hr]|Hn]; [| by apply Hother].
    rewrite (Hat v r Hr), Hr, (hw_walk_app _ _ _ (k * PAGE_SIZE_4KB)) by done. cbn [hw_walk]. by rewrite Ep.
Qed.

Lemma hw_translate_walk m root v x d paddr f :
  hw_walk m root (vpath v) = Some (x, d) -> x = Z.lor paddr f -> frame_ok d paddr -> flag_bits d f ->
  hw_translate m root v = Some (paddr + v mod 2 ^ (12 + 9 * Z.of_nat d)).
Proof. unfold hw_translate. intros -> -> Hp Hf. by rewrite frame_lor. Qed.

Lemma hw_translate_ext m m' root v :
  hw_walk m' root (vpath v) = hw_walk m root (vpath v) -> hw_translate m' root v = hw_translate m root v.
Proof. unfold hw_translate. by intros ->. Qed.

Lemma flag_bits_lor d f g : flag_bits d f -> flag_bits d g -> flag_bits d (Z.lor f g).
Proof.
  intros [H0 Hf] [H0' Hg]. split; [by apply Z.lor_nonneg |].
  intros n Hn. by rewrite Z.lor_spec, Hf, Hg.
Qed.

Lemma flag_bits_pow2 d j : 0 <= j < 12 -> flag_bits d (2 ^ j).
Proof. intros Hj. split; [lia |]. intros n Hn. rewrite Z.pow2_bits_eqb by lia. lia. Qed.

Lemma page_no_0 v : page_no 0 v = vpn v.
Proof. apply Z.div_1_r. Qed.

Lemma leaf_flags_bits d flags : flag_bits d flags -> flag_bits d (leaf_flags d flags).
Proof. intros Hf. destruct d; repeat apply flag_bits_lor; done || by apply flag_bits_pow2. Qed.

Lemma entry_flags_leaf d flags paddr : frame_ok d paddr -> entry_flags d flags (Z.lor paddr (leaf_flags d flags)).
Proof.
  intros [Hp Hal] n Hn Hr. rewrite Z.lor_spec. replace (Z.testbit paddr n) with false.
  2: { symmetry. destruct (Z.ltb_spec n (12 + 9 * Z.of_nat d)).
    - apply Z.mod_divide in Hal as [c ->]; [| lia]. by rewrite Z.mul_pow2_bits_low by lia.
    - rewrite <- (Z.mod_small paddr (2 ^ 52)), Z.testbit_mod_pow2 by lia. by rewrite (proj2 (Z.ltb_ge n 52)) by lia. }
  destruct d; cbn [leaf_flags orb Nat.ltb Nat.leb andb]; rewrite !Z.lor_spec; unfold PTE_PRESENT, PTE_PAGE_SIZE; rewrite !Z.pow2_bits_eqb by lia;
    rewrite !(Z.eqb_sym n); destruct (Z.testbit flags n), (0 =? n), (7 =? n); done.
Qed.

Lemma wp_map_page_4k root paddr vaddr flags s :
  vmm_ok root s -> 3 <= pages_left (v_pages s) -> no_huge_on_path (phys s) root vaddr ->
  frame_ok 0 paddr -> flag_bits 0 flags ->
  wp (vmm_map_page root paddr vaddr PAGE_SIZE_4KB flags) (fun _ s' =>
    mapped 0 root paddr vaddr flags s s' /\
    (truthy (Z.land flags PTE_USER) = true -> user_path (phys s') root vaddr)) s.
Proof.
  intros Hok Hl Hh Hp Hf. eapply wp_mono; [by apply wp_map_4k |].
  intros _ s' (Hok' & Hat & Ho & Hu & Hl' & Hfl). split; [| done].
  split_and!; [done | | | | done..].
  2: { eexists. split; [exact Hat | by apply (entry_flags_leaf 0)]. }
  all: intros v; rewrite !page_no_0; intros Hv.
  - eapply hw_translate_walk; [| done | done | by apply (leaf_flags_bits 0)].
    apply vpath_vpn in Hv. by rewrite Hv.
  - by apply hw_translate_ext, Ho.
Qed.

(** The last step for a 2 MiB page, once the two tables are there. *)
Lemma map_leaf_2m flags root paddr vaddr b s0 s :
  prepared flags root vaddr [vidx vaddr 39; vidx vaddr 30] b s0 s -> frame_ok 1 paddr -> flag_bits 1 flags ->
  let x := Z.lor paddr (leaf_flags 1 flags) in
  let m' := <[b + 8 * vidx vaddr 21 := x]> (phys s) in
  present x = true /\ huge x = true /\ pt_wf (page_used (v_pages s)) m' root /\
  hw_walk m' root (vpath vaddr) = Some (x, 1%nat) /\
  (forall v, page_no 1 v = page_no 1 vaddr -> hw_translate m' root v = Some (paddr + v mod 2 ^ 21)) /\
  (forall v, page_no 1 v <> page_no 1 vaddr -> hw_walk m' root (vpath v) = hw_walk (phys s0) root (vpath v)).
Proof.
  intros [[Hok Hwf] Ht _ Hhw _ _ _] Hpad Hfl x m'.
  assert (valid_path 3 [vidx vaddr 39; vidx vaddr 30]) as Hp.
  { split; [simpl; lia | repeat apply Forall_cons_2; try apply vidx_range; by apply Forall_nil]. }
  assert (present x = true /\ huge x = true) as [Hx Hx'].
  { unfold present, huge, x, leaf_flags. rewrite !Z.lor_spec. split; apply orb_true_iff; by right. }
  destruct (store_block _ _ _ Hwf _ b (vidx vaddr 21) x Hp Ht (vidx_range _ _)) as (Hwf' & Hat & Hother); [by auto |].
  split_and!; [done.. | | |].
  - specialize (Hat vaddr [vidx vaddr 12] eq_refl). by rewrite Hx in Hat.
  - intros v Hv. assert (vpath v = vidx vaddr 39 :: vidx vaddr 30 :: vidx vaddr 21 :: [vidx v 12]) as Hpath.
    { apply page_no_path in Hv as (E1 & E2 & E3). unfold vpath. by rewrite E1, E2, E3. }
    apply (Hat v [vidx v 12]) in Hpath. rewrite Hx in Hpath.
    eapply (hw_translate_walk _ _ _ _ 1); [exact Hpath | done | done | by apply (leaf_flags_bits 1)].
  - intros v Hv. unfold m'. rewrite Hother, Hhw; [done |].
    intros r Hr. apply Hv. symmetry.
    destruct r as [|j [|? ?]]; [done | | done].
    apply (same_page vaddr v [vidx vaddr 39; vidx vaddr 30] (vidx vaddr 21) [vidx vaddr 12] [j]); done.
Qed.

Lemma wp_map_page_2m root paddr vaddr flags s :
  vmm_ok root s -> 3 <= pages_left (v_pages s) -> no_huge_on_path (phys s) root vaddr ->
  frame_ok 1 paddr -> flag_bits 1 flags ->
  wp (vmm_map_page root paddr vaddr PAGE_SIZE_2MB flags) (fun _ s' => mapped 1 root paddr vaddr flags s s') s.
Proof.
  intros Hok Hleft Hh Hpad Hfl. pose proof (prepared_nil flags root vaddr s Hok Hh) as H0.
  unfold vmm_map_page. simpl. eapply wp_level; [done | done | reflexivity | simpl; lia |]. intros b3 s1 H1.
  eapply wp_level; [done | done | reflexivity | simpl; lia |]. intros b2 s2 H2. simpl app in H2.
  destruct (map_leaf_2m _ _ paddr _ _ _ _ H2 Hpad Hfl) as (_ & _ & Hwf' & Hent & Hat & Hother).
  destruct H2 as [[Hok2 Hwf2] Ht2 _ Hhw Hl2 Hf2 _].
  destruct (wf_page _ _ _ Hwf2 [vidx vaddr 39; vidx vaddr 30] b2) as (k & -> & Hk & _); [| done |].
  { split; [simpl; lia | repeat apply Forall_cons_2; try apply vidx_range; by apply Forall_nil]. }
  apply wp_bind, wp_store_elem; [done | apply vidx_range |].
  apply wp_modify. split_and!; simpl; [by split | done | | | simpl in Hl2; lia | by rewrite Hf2].
  { eexists. split; [exact Hent | by apply (entry_flags_leaf 1)]. }
  intros v Hv. by apply hw_translate_ext, Hother.
Qed.

Lemma wp_get_entry_same root vaddr s : vmm_ok root s ->
  wp (vmm_get_entry root vaddr) (fun r s' => s' = s /\ entry_post (phys s) root vaddr r) s.
Proof. intros Hok. by apply (wp_get_entry root). Qed.

(** The entry of a present translation is read back by [vmm_get_paddr]. *)
Lemma wp_get_paddr root vaddr x d (Q : Z -> vmm Pg -> Prop) s :
  vmm_ok root s -> hw_walk (phys s) root (vpath vaddr) = Some (x, d) ->
  Q (Z.land x PAGE_MASK_4KB) s -> wp (vmm_get_paddr root vaddr) Q s.
Proof.
  intros Hok Hx HQ. apply wp_bind, (wp_get_entry root); [done |]. intros [[e l]|] He; [| unfold entry_post in He; congruence].
  destruct He as (q & b & i & rest & Hv & Hq & -> & _ & _ & Hhw). rewrite Hx in Hhw.
  pose proof (vpath_valid vaddr) as Hval. rewrite Hv in Hval.
  destruct (present _); [| done]. injection Hhw as -> _.
  destruct Hok as [_ Hwf]. destruct (wf_page _ _ _ Hwf q b) as (k & -> & Hk & _); [| done |].
  - destruct Hval as [Hl [Hf _]%Forall_app]. rewrite length_app in Hl. simpl in Hl. split; [lia | done].
  - apply wp_bind, wp_load_elem; [done | by eapply valid_path_index |]. by apply wp_ret.
Qed.

Lemma lor_small f g n : 0 < n -> 0 <= f < 2 ^ n -> 0 <= g < 2 ^ n -> 0 <= Z.lor f g < 2 ^ n.
Proof.
  intros Hn Hf Hg. assert (0 <= Z.lor f g) by (apply Z.lor_nonneg; lia). split; [done |].
  destruct (Z.eq_dec (Z.lor f g) 0) as [->|]; [lia |].
  apply Z.log2_lt_pow2; [lia |].
  rewrite Z.log2_lor by lia.
  assert (forall x, 0 <= x < 2 ^ n -> Z.log2 x < n) as Hlog.
  { intros x Hx. destruct (Z.eq_dec x 0) as [->|]; [simpl; lia | apply Z.log2_lt_pow2; lia]. }
  by apply Z.max_lub_lt; apply Hlog.
Qed.

Lemma mask_aligned p : 0 <= p < 2 ^ 52 -> p mod 2 ^ 12 = 0 -> Z.land p PAGE_MASK_4KB = p.
Proof. intros Hp [k ->]%Z.mod_divide; [| done]. apply mask_page. lia. Qed.
End operation_lemmas.
(** * Properties *)

Section properties.
Context {Pg : Type} `{Hpa : PageAlloc Pg} `{!PageAllocLaws Pg}.
Implicit Types s : vmm Pg.

(** C1: mapping a 4 KiB page. With three pages left for the tables, after
    [vmm_map_page] the processor translates every address of the page to its
    offset in the frame, by an entry that is present and otherwise has the requested
    flags and no others; with the user flag the whole
    path is open to ring 3; every other address keeps its translation, the
    tables are still a tree of pages in use, and the page is flushed. *)
Theorem vmm_map_page_4k_spec root paddr vaddr flags s :
  vmm_ok root s -> 3 <= pages_left (v_pages s) -> no_huge_on_path (phys s) root vaddr ->
  frame_ok 0 paddr -> flag_bits 0 flags ->
  wp (vmm_map_page root paddr vaddr PAGE_SIZE_4KB flags) (fun _ s' =>
    mapped 0 root paddr vaddr flags s s' /\
    (truthy (Z.land flags PTE_USER) = true -> user_path (phys s') root vaddr)) s.
Proof. apply wp_map_page_4k. Qed.

(** Mapping a 2 MiB page: after [vmm_map_page] with the large page size the
    whole 2 MiB region is translated by one entry, whatever table was behind it
    before, and no address outside the region is affected. *)
Theorem vmm_map_page_2m_spec root paddr vaddr flags s :
  vmm_ok root s -> 3 <= pages_left (v_pages s) -> no_huge_on_path (phys s) root vaddr ->
  frame_ok 1 paddr -> flag_bits 1 flags ->
  wp (vmm_map_page root paddr vaddr PAGE_SIZE_2MB flags) (fun _ s' => mapped 1 root paddr vaddr flags s s') s.
Proof. apply wp_map_page_2m. Qed.

(** [vmm_get_entry] refines the page walk of the processor: it returns null
    exactly when an upper level is absent, and otherwise the address and value
    of the entry at which the walk ends; it changes nothing. *)
Theorem vmm_get_entry_spec root vaddr s :
  vmm_ok root s ->
  wp (vmm_get_entry root vaddr) (fun r s' => s' = s /\ entry_post (phys s) root vaddr r) s.
Proof. intros Hok. by apply (wp_get_entry_same root). Qed.

(** C12: [vmm_unmap_page] removes the translation of the page that contains
    [vaddr], 4 KiB or huge, flushes the address, and leaves every other page and
    the page-table tree alone. It returns the frame of the page, to which it adds,
    for a huge page, the bits of the entry below the frame that are not flags of a
    4 KiB page. *)
Theorem vmm_unmap_page_spec root vaddr s : vmm_ok root s ->
  wp (vmm_unmap_page root vaddr) (fun r s' => unmapped root vaddr r s s') s.
Proof. apply wp_unmap. Qed.

(** Map, look up, unmap: [vmm_get_paddr] and [vmm_unmap_page] return the
    frame that [vmm_map_page] was given, and afterwards [vaddr] is unmapped and
    every other page is translated as before the mapping. *)
Theorem vmm_map_unmap_roundtrip root paddr vaddr flags s :
  vmm_ok root s -> 3 <= pages_left (v_pages s) -> no_huge_on_path (phys s) root vaddr ->
  frame_ok 0 paddr -> 0 <= flags < 2 ^ 12 ->
  wp (vmm_map_page root paddr vaddr PAGE_SIZE_4KB flags;;
      p ← vmm_get_paddr root vaddr;
      r ← vmm_unmap_page root vaddr; mret (p, r))
    (fun pr s' => pr = (paddr, paddr) /\ vmm_ok root s' /\ hw_walk (phys s') root (vpath vaddr) = None /\
      forall v, vpn v <> vpn vaddr -> hw_walk (phys s') root (vpath v) = hw_walk (phys s) root (vpath v)) s.
Proof.
  intros Hok Hl Hh [Hp Hal] Hf.
  assert (Z.land (Z.lor paddr (Z.lor PTE_PRESENT flags)) PAGE_MASK_4KB = paddr) as Hmask.
  { rewrite mask_lor_flags by (by apply lor_small). by apply mask_aligned. }
  apply wp_bind. eapply wp_mono; [by apply wp_map_4k |].
  intros _ s1 (Hok1 & Hat & Ho & _). apply wp_bind, (wp_get_paddr root _ _ _ _ _ Hok1 Hat). rewrite Hmask.
  apply wp_bind. eapply wp_mono; [by apply wp_unmap |].
  intros r s' (Hok' & _ & Hnone & Hm). rewrite Hat in Hm. destruct Hm as (Hr & _ & Hrest).
  rewrite <- mask_frame, Hmask in Hr by (repeat apply lor_small; unfold PTE_PRESENT; lia).
  apply wp_ret. rewrite Hr by (repeat apply lor_small; unfold PTE_PRESENT; lia). split_and!; [done | done | done |].
  intros v Hv. rewrite Hrest by (by rewrite !page_no_0). by apply Ho.
Qed.

(** [vmm_get_paddr] dereferences a null pointer for an address that has no
    table for its last level. *)
Theorem vmm_get_paddr_unmapped root vaddr s :
  vmm_ok root s -> walk (phys s) root [vidx vaddr 39; vidx vaddr 30; vidx vaddr 21] = None ->
  hw_walk (phys s) root (vpath vaddr) = None -> vmm_get_paddr root vaddr s = Err Fault.
Proof.
  intros Hok Hw Hhw. assert (wp (vmm_get_entry root vaddr) (fun r s' => r = None) s) as H.
  { apply (wp_get_entry root); [done |]. intros [[e l]|] He; [| done]. exfalso.
    destruct He as (q & b & i & rest & Hv & Hq & _ & _ & [Hp| ->] & Hx); [by rewrite Hp, Hhw in Hx |].
    change (vpath vaddr) with ([vidx vaddr 39; vidx vaddr 30; vidx vaddr 21] ++ [vidx vaddr 12]) in Hv.
    apply app_inj_tail in Hv as [<- _]. congruence. }
  apply wp_ok in H as (r & s' & Hr & ->). unfold vmm_get_paddr, mbind, M_bind. by rewrite Hr.
Qed.
End properties.

(** * Witnesses *)

(** An empty top-level table in page 1 of the sixteen-page example memory. *)
Definition vmm_example : vmm pmm := Vmm pmm_example ∅ [].

Lemma vmm_example_ok : vmm_ok 0x1000 vmm_example.
Proof.
  split; [apply pmm_ok_example |].
  assert (forall q b, walk ∅ 0x1000 q = Some b -> q = [] /\ b = 0x1000) as H.
  { intros [|i q] b; [by intros [= <-] |]. simpl. unfold next_table. by rewrite rd_empty. }
  split.
  - intros q b _ [_ ->]%H. exists 1. done.
  - intros q q' b _ _ [-> _]%H [-> _]%H. done.
Qed.

Lemma vmm_example_no_huge v : no_huge_on_path (phys vmm_example) 0x1000 v.
Proof. intros q i rest b _ _ _. simpl. by rewrite rd_empty. Qed.

(** A decided [flag_bits]. *)
Lemma flag_bits_small d f : 0 <= f < 2 ^ (12 + 9 * Z.of_nat d) -> flag_bits d f.
Proof.
  intros Hf. split; [lia |]. intros n Hn. destruct (Z.eq_dec f 0) as [->|]; [apply Z.testbit_0_l |].
  apply Z.bits_above_log2; [lia |]. apply Z.lt_le_trans with (12 + 9 * Z.of_nat d); [apply Z.log2_lt_pow2; lia | lia].
Qed.

Lemma vmm_map_page_4k_spec_witness :
  wp (vmm_map_page 0x1000 0x9000 0x400000 PAGE_SIZE_4KB (Z.lor PTE_WRITABLE PTE_USER)) (fun _ s' =>
    hw_translate (phys s') 0x1000 0x400123 = Some 0x9123 /\
    hw_translate (phys s') 0x1000 0x401000 = None /\ user_path (phys s') 0x1000 0x400000 /\
    exists x, hw_walk (phys s') 0x1000 (vpath 0x400000) = Some (x, O) /\ entry_flags 0 (Z.lor PTE_WRITABLE PTE_USER) x) vmm_example.
Proof.
  eapply wp_mono.
  - apply (vmm_map_page_4k_spec 0x1000 0x9000 0x400000 (Z.lor PTE_WRITABLE PTE_USER) vmm_example);
      [apply vmm_example_ok | done | apply vmm_example_no_huge | by closed_range | apply flag_bits_small; closed_range].
  - intros _ s' [(_ & Hat & Hx & Ho & _) Hu]. split_and!; [by apply Hat | by rewrite Ho | by apply Hu | done].
Defined.

Lemma vmm_map_page_2m_spec_witness :
  wp (vmm_map_page 0x1000 0x600000 0x40000000 PAGE_SIZE_2MB PTE_WRITABLE) (fun _ s' =>
    hw_translate (phys s') 0x1000 0x400ABCDE = Some 0x6ABCDE /\
    hw_translate (phys s') 0x1000 0x40200000 = None) vmm_example.
Proof.
  eapply wp_mono.
  - apply (vmm_map_page_2m_spec 0x1000 0x600000 0x40000000 PTE_WRITABLE vmm_example);
      [apply vmm_example_ok | done | apply vmm_example_no_huge | by closed_range | apply flag_bits_small; closed_range].
  - intros _ s' (_ & Hat & _ & Ho & _). split; [by apply Hat | by rewrite Ho].
Defined.

Lemma vmm_get_entry_spec_witness :
  wp (vmm_get_entry 0x1000 0x400000) (fun r s' => s' = vmm_example /\ r = None) vmm_example.
Proof.
  eapply wp_mono; [apply (vmm_get_entry_spec 0x1000 0x400000 vmm_example), vmm_example_ok |].
  intros [[e l]|] s' [-> Hr]; [| done].
  destruct Hr as (q & b & i & rest & Hv & Hw & _ & _ & [Hp| ->] & _); simpl in *.
  - unfold present in Hp. by rewrite rd_empty in Hp.
  - destruct q as [|j q]; [done |]. simpl in Hw. unfold next_table in Hw. by rewrite rd_empty in Hw.
Defined.

(** A large page with the bit for write combining, as the frame buffer has: the
    address that comes back is not that of the frame. *)
Lemma vmm_unmap_page_spec_witness :
  wp (vmm_map_page 0x1000 0x600000 0x40000000 PAGE_SIZE_2MB (Z.lor PTE_WRITABLE PTE_WC_HUGE);; vmm_unmap_page 0x1000 0x40000000) (fun r s' =>
    r = 0x601000 /\ hw_walk (phys s') 0x1000 (vpath 0x40000000) = None) vmm_example.
Proof.
  apply wp_bind. set (x := Z.lor 0x600000 (leaf_flags 1 (Z.lor PTE_WRITABLE PTE_WC_HUGE))).
  eapply (wp_mono _ (fun _ s => vmm_ok 0x1000 s /\ hw_walk (phys s) 0x1000 (vpath 0x40000000) = Some (x, 1%nat))).
  - apply wp_and; [| by vm_compute].
    eapply wp_mono; [apply (wp_map_page_2m 0x1000 0x600000 0x40000000 (Z.lor PTE_WRITABLE PTE_WC_HUGE) vmm_example) | by intros _ s' [Hok _]];
      [apply vmm_example_ok | done | apply vmm_example_no_huge | by closed_range | apply flag_bits_small; closed_range].
  - intros _ s [Hok Hx]. eapply wp_mono; [apply (vmm_unmap_page_spec 0x1000 0x40000000 s Hok) |].
    intros r s' (_ & _ & Hn & Hr). rewrite Hx in Hr. destruct Hr as (Hr & _). split; [| done]. rewrite Hr; by vm_compute.
Defined.

Lemma vmm_map_unmap_roundtrip_witness :
  wp (vmm_map_page 0x1000 0x9000 0x400000 PAGE_SIZE_4KB PTE_WRITABLE;;
      p ← vmm_get_paddr 0x1000 0x400000; r ← vmm_unmap_page 0x1000 0x400000; mret (p, r))
    (fun pr _ => pr = (0x9000, 0x9000)) vmm_example.
Proof.
  eapply wp_mono.
  - apply (vmm_map_unmap_roundtrip 0x1000 0x9000 0x400000 PTE_WRITABLE vmm_example);
      [apply vmm_example_ok | done | apply vmm_example_no_huge | by closed_range | by closed_range].
  - by intros pr s' [-> _].
Defined.

Lemma vmm_get_paddr_unmapped_witness : vmm_get_paddr 0x1000 0x400000 vmm_example = Err Fault.
Proof. apply (vmm_get_paddr_unmapped 0x1000 0x400000 vmm_example); [apply vmm_example_ok | done | done]. Defined.

(** A 4 KiB page mapped inside an existing 2 MiB page: [vmm_map_page] takes
    the frame of the large page for a table. The new entry is written into the
    data of the frame, and the address is still translated by the large page. *)
Theorem vmm_map_page_inside_huge :
  wp (vmm_map_page 0x1000 0x600000 0x40000000 PAGE_SIZE_2MB PTE_WRITABLE;;
      vmm_map_page 0x1000 0x9000 0x40001000 PAGE_SIZE_4KB PTE_WRITABLE) (fun _ s' =>
    phys s' @@ (0x600000 + 8) = Z.lor 0x9000 (Z.lor PTE_PRESENT PTE_WRITABLE) /\
    hw_translate (phys s') 0x1000 0x40001000 = Some 0x601000) vmm_example.
Proof. by vm_compute. Qed.
