(* ===== verification/DList.v ===== *)
(** Doubly linked lists with a head pointer, the shape of the kernel's intrusive
    lists: the free lists of the buddy allocator, the slab lists, the lists of
    memory areas. The theory is independent of how nodes are laid out in
    memory: a [node_ops] says how the two links of a node are read and written. *)
From S2P Require Import Prelude.

(** * Nodes *)

(** The links of the nodes that live in a state [St]. A pointer is an integer,
    0 is the null pointer. [n_valid] are the addresses where nodes may lie. *)
Record node_ops (St : Type) : Type := NodeOps {
  n_prev : St -> Z -> Z;
  n_next : St -> Z -> Z;
  set_prev : Z -> Z -> St -> St;
  set_next : Z -> Z -> St -> St;
  n_valid : Z -> Prop;
}.
Arguments n_prev {St} n s a.
Arguments n_next {St} n s a.
Arguments set_prev {St} n a x s.
Arguments set_next {St} n a x s.
Arguments n_valid {St} n a.

(** The two links of valid nodes are separate memory cells. *)
Class NodeLaws {St : Type} (N : node_ops St) : Prop := {
  prev_set_prev a b x s : n_valid N a -> n_valid N b ->
    n_prev N (set_prev N a x s) b = if decide (a = b) then x else n_prev N s b;
  next_set_next a b x s : n_valid N a -> n_valid N b ->
    n_next N (set_next N a x s) b = if decide (a = b) then x else n_next N s b;
  prev_set_next a b x s : n_valid N a -> n_valid N b ->
    n_prev N (set_next N a x s) b = n_prev N s b;
  next_set_prev a b x s : n_valid N a -> n_valid N b ->
    n_next N (set_prev N a x s) b = n_next N s b;
}.

Section dlist.
Context {St : Type} (N : node_ops St).
Implicit Types (s : St) (l : list Z).

(** ** Specification *)

(** From the pointer [h] the links lead through the nodes [l] to [n], each node
    pointing back to its predecessor: [p] for the first one, and [q] is the last. *)
Fixpoint dseg (s : St) (p h : Z) (l : list Z) (q n : Z) : Prop :=
  match l with
  | [] => h = n /\ p = q
  | a :: l' => h = a /\ a <> 0 /\ n_valid N a /\ n_prev N s a = p /\ dseg s a (n_next N s a) l' q n
  end.

(** A null-terminated list with head [h]. *)
Definition dll (s : St) (h : Z) (l : list Z) : Prop := exists q, dseg s 0 h l q 0 /\ NoDup l.

(** A circular list with head [h]. *)
Definition ring (s : St) (h : Z) (l : list Z) : Prop :=
  (l = [] /\ h = 0) \/ (l <> [] /\ NoDup l /\ exists q, dseg s q h l q h).

(** ** Operations *)

(** A node becomes the head of the list [h]. *)
Definition dl_push (h a : Z) (s : St) : St :=
  let s1 := set_next N a h (set_prev N a 0 s) in
  if truthy h then set_prev N h a s1 else s1.

(** A node leaves the list [h]; the result is the new head. *)
Definition dl_remove (h a : Z) (s : St) : Z * St :=
  let p := n_prev N s a in
  let n := n_next N s a in
  let s1 := if truthy p then set_next N p n s else s in
  (if truthy p then h else n, if truthy n then set_prev N n p s1 else s1).

End dlist.

(** * Lemmas *)

Section dlist_lemmas.
Context {St : Type} (N : node_ops St) `{!NodeLaws N}.
Implicit Types (s : St) (l : list Z).

Lemma set_next_other a b x s : n_valid N a -> n_valid N b -> a <> b ->
  n_prev N (set_next N a x s) b = n_prev N s b /\ n_next N (set_next N a x s) b = n_next N s b.
Proof. intros. by rewrite prev_set_next, next_set_next, decide_False by done. Qed.

Lemma set_prev_other a b x s : n_valid N a -> n_valid N b -> a <> b ->
  n_prev N (set_prev N a x s) b = n_prev N s b /\ n_next N (set_prev N a x s) b = n_next N s b.
Proof. intros. by rewrite prev_set_prev, next_set_prev, decide_False by done. Qed.

Lemma dseg_valid s p h l q n a : dseg N s p h l q n -> a ∈ l -> n_valid N a /\ a <> 0.
Proof.
  revert p h. induction l as [|b l IH]; intros p h; [by intros _ ?%elem_of_nil |].
  intros (-> & Hb & Hv & _ & Hl) [-> |Ha]%elem_of_cons; [done | by eapply IH].
Qed.

(** A segment only depends on the links of its own nodes. *)
Lemma dseg_ext s s' p h l q n :
  (forall a, a ∈ l -> n_prev N s' a = n_prev N s a /\ n_next N s' a = n_next N s a) ->
  dseg N s p h l q n -> dseg N s' p h l q n.
Proof.
  revert p h. induction l as [|b l IH]; intros p h Hext; [done |].
  intros (-> & Hb & Hv & Hp & Hl). destruct (Hext b) as [E1 E2]; [by left |].
  split_and!; [done.. | congruence |]. rewrite E2. apply IH; [| done].
  intros a Ha. apply Hext. by right.
Qed.

Lemma dseg_app s p h l1 l2 q n :
  dseg N s p h (l1 ++ l2) q n <-> exists q' n', dseg N s p h l1 q' n' /\ dseg N s q' n' l2 q n.
Proof.
  revert p h. induction l1 as [|a l1 IH]; intros p h; simpl.
  - split; [by exists p, h | by intros (? & ? & [-> ->] & ?)].
  - rewrite IH. split.
    + intros (-> & ? & ? & ? & q' & n' & ? & ?). exists q', n'. tauto.
    + intros (q' & n' & (-> & ? & ? & ? & ?) & ?). split_and!; [done.. |]. by exists q', n'.
Qed.

(** The head of a segment is its first node, and the last node is [q]. *)
Lemma dseg_cons_head s p h a l q n : dseg N s p h (a :: l) q n -> h = a.
Proof. by intros [-> _]. Qed.

Lemma dseg_snoc s p h l a q n : dseg N s p h (l ++ [a]) q n <->
  q = a /\ n = n_next N s a /\ a <> 0 /\ n_valid N a /\ dseg N s p h l (n_prev N s a) a.
Proof.
  rewrite dseg_app. simpl. split.
  - intros (q' & n' & H & -> & ? & ? & <- & [<- <-]). tauto.
  - intros (-> & -> & ? & ? & H). exists (n_prev N s a), a. tauto.
Qed.

(** Redirecting the two ends of a segment. *)
Lemma dseg_set_first s p h l q n x : dseg N s p h l q n -> NoDup l -> l <> [] ->
  dseg N (set_prev N h x s) x h l q n.
Proof.
  destruct l as [|a l]; [done |]. intros Hs Hnd%NoDup_cons _. destruct Hnd as [Ha Hnd].
  pose proof Hs as (-> & Hne & Hv & Hp & Hl). simpl. rewrite prev_set_prev, next_set_prev, decide_True by done.
  split_and!; [done.. |]. apply (dseg_ext s); [| done]. intros b Hb.
  destruct (dseg_valid _ _ _ _ _ _ b Hl Hb) as [Hvb _].
  apply set_prev_other; [done.. | by intros ->].
Qed.

Lemma dseg_set_last s p h l q n x : dseg N s p h l q n -> NoDup l -> l <> [] ->
  dseg N (set_next N q x s) p h l q x.
Proof.
  destruct l as [|a l] using rev_ind; [done |]. clear IHl.
  intros Hs Hnd _. apply NoDup_app in Hnd as (Hnd & Ha & _).
  apply dseg_snoc in Hs as (-> & -> & Hne & Hv & Hs). apply dseg_snoc.
  rewrite next_set_next, prev_set_next, decide_True by done. split_and!; [done.. |].
  apply (dseg_ext s); [| done]. intros b Hb. destruct (dseg_valid _ _ _ _ _ _ b Hs Hb) as [Hvb _].
  apply set_next_other; [done.. |]. intros ->. apply (Ha b Hb). by apply list_elem_of_singleton.
Qed.

(** ** Pushing and removing *)

Lemma dll_head s h l : dll N s h l -> h = default 0 (head l).
Proof. intros (q & H & _). destruct l as [|a l]; by destruct H as [-> _]. Qed.

Lemma dll_truthy s h l : dll N s h l -> truthy h = negb (bool_decide (l = [])).
Proof.
  intros (q & H & _). destruct l as [|a l]; [by destruct H as [-> _] |]. destruct H as (-> & Ha & _).
  by apply truthy_true.
Qed.

Lemma dll_ext s s' h l :
  (forall a, a ∈ l -> n_prev N s' a = n_prev N s a /\ n_next N s' a = n_next N s a) ->
  dll N s h l -> dll N s' h l.
Proof. intros Hext (q & H & Hnd). exists q. split; [by apply (dseg_ext s) | done]. Qed.

Lemma dll_push s h l a : dll N s h l -> a <> 0 -> n_valid N a -> a ∉ l ->
  dll N (dl_push N h a s) a (a :: l).
Proof.
  intros Hd Ha Hv Hnin. pose proof (dll_truthy _ _ _ Hd) as Ht. destruct Hd as (q & Hs & Hnd).
  unfold dl_push. rewrite Ht. set (s1 := set_next N a h (set_prev N a 0 s)).
  assert (forall b, b ∈ l -> n_prev N s1 b = n_prev N s b /\ n_next N s1 b = n_next N s b) as Hs1.
  { intros b Hb. destruct (dseg_valid _ _ _ _ _ _ b Hs Hb) as [Hvb _]. unfold s1.
    rewrite prev_set_next, next_set_next, prev_set_prev, next_set_prev by done.
    rewrite !decide_False by (by intros ->). done. }
  apply (dseg_ext _ s1) in Hs; [| done].
  assert (n_prev N s1 a = 0 /\ n_next N s1 a = h) as [Hpa Hna].
  { unfold s1. rewrite prev_set_next, next_set_next, prev_set_prev by done. by rewrite !decide_True. }
  case_bool_decide as E; simpl.
  - subst l. destruct Hs as [-> <-]. exists a. split; [simpl; by rewrite Hpa, Hna | by apply NoDup_singleton].
  - pose proof (dseg_set_first _ _ _ _ _ _ a Hs Hnd E) as Hs'. exists q. split; [| by apply NoDup_cons].
    destruct l as [|b l]; [done |]. assert (h = b) as -> by apply Hs.
    assert (n_valid N b) as Hvb by apply Hs. assert (b <> a) as Hba by (intros ->; apply Hnin; by left).
    simpl. rewrite prev_set_prev, next_set_prev, decide_False by done.
    rewrite Hpa, Hna. split_and!; done || apply Hs'.
Qed.

Lemma dll_remove s h l1 a l2 : dll N s h (l1 ++ a :: l2) ->
  let '(h', s') := dl_remove N h a s in dll N s' h' (l1 ++ l2).
Proof.
  intros (q & Hs & Hnd). pose proof Hnd as (Hnd1 & Hd12 & [Ha2 Hnd2]%NoDup_cons)%NoDup_app.
  assert (a ∉ l1) as Ha1 by (intros H; apply (Hd12 a H); by left).
  apply dseg_app in Hs as (p & n & Hs1 & -> & Ha & Hva & Hp & Hs2).
  unfold dl_remove. rewrite Hp. set (m := n_next N s a) in *.
  assert (forall b, b ∈ l1 -> n_valid N b /\ b <> 0) as V1 by (intros b; by apply (dseg_valid _ _ _ _ _ _ b Hs1)).
  assert (forall b, b ∈ l2 -> n_valid N b /\ b <> 0) as V2 by (intros b; by apply (dseg_valid _ _ _ _ _ _ b Hs2)).
  (* the predecessor *)
  set (s1 := if truthy p then set_next N p m s else s). set (h1 := if truthy p then h else m).
  assert (dseg N s1 0 h1 l1 p m /\ dseg N s1 a m l2 q 0) as [H1 H2].
  { destruct l1 as [|b l1 _] using rev_ind.
    - destruct Hs1 as [-> <-]. unfold s1, h1. simpl. done.
    - pose proof Hs1 as (-> & _ & Hb & Hvb & _)%dseg_snoc. unfold s1, h1.
      assert (truthy b = true) as -> by (by apply truthy_true).
      split; [by apply (dseg_set_last _ _ _ _ _ a); [| | by destruct l1] |].
      apply (dseg_ext s); [| done]. intros c Hc. destruct (V2 c Hc) as [Hvc _].
      apply set_next_other; [done.. |]. intros ->.
      apply (Hd12 c); [apply elem_of_app; right; by left | by right]. }
  (* the successor *)
  assert (NoDup (l1 ++ l2)) as Hnd'.
  { apply NoDup_app. split_and!; [done | | done]. intros b Hb Hb2. apply (Hd12 b Hb). by right. }
  clearbody s1 h1. destruct l2 as [|b l2].
  - destruct H2 as [-> _]. simpl. rewrite app_nil_r. exists p. by rewrite app_nil_r in Hnd'.
  - assert (m = b) as -> by apply H2. destruct (V2 b) as [Hvb Hb]; [by left |].
    assert (truthy b = true) as -> by (by apply truthy_true). exists q. split; [| done].
    apply dseg_app. exists p, b. split; [| by apply (dseg_set_first _ a)].
    apply (dseg_ext s1); [| done]. intros c Hc. destruct (V1 c Hc) as [Hvc _].
    apply set_prev_other; [done.. |]. intros ->. apply (Hd12 c Hc). by right; left.
Qed.

(** The neighbours of a node are null or nodes of the list, and the node is the
    head exactly when it has no predecessor. *)
Lemma dll_neighbours_in s h l1 a l2 : dll N s h (l1 ++ a :: l2) ->
  n_prev N s a = default 0 (last l1) /\ n_next N s a = default 0 (head l2) /\ (h = a <-> n_prev N s a = 0).
Proof.
  intros (q & Hs & (_ & Hd12 & _)%NoDup_app).
  apply dseg_app in Hs as (p & n & Hs1 & -> & Ha & Hva & Hp & Hs2). rewrite Hp. split_and!.
  - destruct l1 as [|b l1 _] using rev_ind; [by destruct Hs1 |].
    rewrite last_snoc. by apply dseg_snoc in Hs1 as (-> & _).
  - destruct l2 as [|b l2]; by destruct Hs2.
  - destruct l1 as [|b l1]; [by destruct Hs1 as [-> <-] |]. split.
    + intros ->. destruct Hs1 as (-> & _). exfalso. apply (Hd12 b); by left.
    + intros ->. exfalso. destruct l1 as [|c l1 _] using rev_ind.
      * destruct Hs1 as (_ & ? & _ & _ & <- & ?). done.
      * rewrite app_comm_cons in Hs1. apply dseg_snoc in Hs1 as (Hc & _ & ? & _). congruence.
Qed.

Lemma dll_neighbours s h l1 a l2 : dll N s h (l1 ++ a :: l2) ->
  (n_prev N s a = 0 \/ (n_valid N (n_prev N s a) /\ n_prev N s a <> a)) /\
  (n_next N s a = 0 \/ (n_valid N (n_next N s a) /\ n_next N s a <> a)).
Proof.
  intros Hd. destruct (dll_neighbours_in _ _ _ _ _ Hd) as (-> & -> & _).
  destruct Hd as (q & Hs & (_ & Hd12 & [Ha2 _]%NoDup_cons)%NoDup_app).
  assert (forall b, b ∈ l1 ++ a :: l2 -> n_valid N b) as Hv by (intros b Hb; by apply (dseg_valid _ _ _ _ _ _ b Hs) in Hb as [? _]).
  split.
  - destruct (last l1) as [b|] eqn:E; [right | by left]. apply last_Some_elem_of in E. simpl.
    split; [apply Hv, elem_of_app; by left | intros ->; apply (Hd12 a E); by left].
  - destruct l2 as [|b l2]; [by left | right]. simpl.
    split; [apply Hv, elem_of_app; right; by right; left | intros ->; apply Ha2; by left].
Qed.

(** Inserting [i] after [c], whatever the order of the four writes was. *)
Lemma dll_insert s s' h l1 c l2 i : dll N s h (l1 ++ c :: l2) -> i <> 0 -> n_valid N i -> i ∉ l1 ++ c :: l2 ->
  let n := n_next N s c in
  (forall b, b ∈ i :: l1 ++ c :: l2 ->
     n_next N s' b = (if decide (b = c) then i else if decide (b = i) then n else n_next N s b) /\
     n_prev N s' b = (if decide (b = i) then c else if decide (b = n) then i else n_prev N s b)) ->
  dll N s' h (l1 ++ c :: i :: l2).
Proof.
  intros (q & Hs & Hnd) Hi Hvi Hni n Hlinks. pose proof Hnd as (Hnd1 & Hd12 & [Hc2 Hnd2]%NoDup_cons)%NoDup_app.
  apply dseg_app in Hs as (p & n0 & Hs1 & -> & Hc & Hvc & Hp & Hs2). fold n in Hs2.
  rewrite elem_of_app, elem_of_cons in Hni.
  assert (n = default 0 (head l2)) as Hn by (destruct l2; by destruct Hs2).
  assert (forall b, b ∈ l2 -> b <> c /\ b <> i /\ b <> 0) as H2.
  { intros b Hb. split_and!; [by intros -> | intros ->; tauto |]. by apply (dseg_valid _ _ _ _ _ _ b Hs2). }
  assert (forall b, b ∈ l1 -> b <> c /\ b <> i /\ b <> n) as H1.
  { intros b Hb. split_and!; [intros ->; apply (Hd12 c Hb); by left | intros ->; tauto |]. rewrite Hn. intros ->.
    destruct l2 as [|b2 l2]; simpl in Hb; [by apply (dseg_valid _ _ _ _ _ _ 0 Hs1) in Hb as [_ ?] |].
    apply (Hd12 b2 Hb). by right; left. }
  assert (c <> i) as Hci by (intros ->; tauto).
  assert (c <> n) as Hcn by (rewrite Hn; destruct l2; simpl; [done | intros ->; apply Hc2; by left]).
  destruct (Hlinks c) as [Ec Ec']; [rewrite elem_of_cons, elem_of_app, elem_of_cons; tauto |].
  destruct (Hlinks i) as [Ei Ei']; [by left |].
  rewrite decide_True in Ec by done. rewrite !decide_False in Ec' by done.
  rewrite decide_False, decide_True in Ei by done. rewrite decide_True in Ei' by done.
  exists (if l2 is [] then i else q). split.
  - apply dseg_app. exists p, c. split.
    + apply (dseg_ext s); [| done]. intros b Hb. destruct (H1 b Hb) as (? & ? & ?).
      destruct (Hlinks b) as [-> ->]; [rewrite elem_of_cons, elem_of_app; tauto |]. by rewrite !decide_False.
    + simpl. rewrite Ec, Ec', Ei, Ei'. split_and!; [done.. |].
      destruct l2 as [|b2 l2]; [by destruct Hs2 as [-> _] |]. destruct Hs2 as (Hn2 & ? & ? & ? & Hs2).
      apply NoDup_cons in Hnd2 as [Hb2 Hnd2].
      destruct (Hlinks b2) as [E2 E2']; [rewrite !elem_of_cons, elem_of_app, !elem_of_cons; tauto |].
      destruct (H2 b2) as (? & ? & ?); [by left |].
      rewrite !decide_False in E2 by done. rewrite decide_False, decide_True in E2' by done.
      simpl. rewrite E2. split_and!; [done.. |]. apply (dseg_ext s); [| done]. intros b Hb.
      destruct (H2 b) as (? & ? & ?); [by right |].
      destruct (Hlinks b) as [-> ->]; [rewrite !elem_of_cons, elem_of_app, !elem_of_cons; tauto |].
      assert (b <> n) by (rewrite Hn2; by intros ->). by rewrite !decide_False by done.
  - apply NoDup_app. split_and!; [done | |].
    + intros b Hb. destruct (H1 b Hb) as (? & ? & _). rewrite !elem_of_cons. intros [?|[?|Hb2]]; [done.. |].
      apply (Hd12 b Hb). by right.
    + apply NoDup_cons. rewrite elem_of_cons. split; [intros [?|?]; tauto |]. apply NoDup_cons. split; [tauto | done].
Qed.

(** ** Rings *)

Lemma ring_valid s h l a : ring N s h l -> a ∈ l -> n_valid N a /\ a <> 0.
Proof. intros [[-> _]|(_ & _ & q & Hq)]; [by intros ?%elem_of_nil | intros Ha; by apply (dseg_valid _ _ _ _ _ _ _ Hq)]. Qed.

Lemma ring_head s h l : ring N s h l -> h = default 0 (head l) /\ NoDup l.
Proof.
  intros [[-> ->]|(Hne & Hnd & q & Hq)]; [split; [done | by apply NoDup_nil_2] |].
  split; [| done]. destruct l; [done |]. by destruct Hq as [-> _].
Qed.

Lemma ring_truthy s h l : ring N s h l -> truthy h = negb (bool_decide (l = [])).
Proof.
  intros Hr. destruct (ring_head _ _ _ Hr) as [Hh _]. destruct l as [|a l]; subst h; [done |]. simpl.
  apply truthy_true. apply (ring_valid _ _ _ a Hr). by left.
Qed.

(** The neighbours of a node, and the test for a ring of one node. *)
Lemma ring_neighbours s h l1 a l2 : ring N s h (l1 ++ a :: l2) ->
  n_next N s a = default h (head l2) /\ n_prev N s a = default (default a (last l2)) (last l1) /\
  (n_next N s a = a <-> l1 = [] /\ l2 = []) /\ (h = a <-> l1 = []).
Proof.
  intros Hr. destruct (ring_head _ _ _ Hr) as [Hh (Hnd1 & Hd12 & [Ha2 _]%NoDup_cons)%NoDup_app].
  destruct Hr as [[Hl _]|(_ & _ & q & Hq)]; [by destruct l1 |].
  apply dseg_app in Hq as (p & n & Hs1 & -> & _ & _ & Hp & Hs2).
  assert (n_next N s a = default h (head l2)) as Hn by (destruct l2; by destruct Hs2).
  assert (h = a <-> l1 = []) as Hha.
  { destruct l1 as [|b l1]; simpl in Hh; [done |]. split; [| done]. intros ->. subst. exfalso. apply (Hd12 b); by left. }
  split_and!; [done | | | done].
  - rewrite Hp. destruct l1 as [|b l1 _] using rev_ind.
    + destruct Hs1 as [_ ->]. simpl. destruct l2 as [|c l2 _] using rev_ind; [by destruct Hs2 |].
      rewrite last_snoc. by apply dseg_snoc in Hs2 as (-> & _).
    + rewrite last_snoc. by apply dseg_snoc in Hs1 as (-> & _).
  - rewrite Hn. destruct l2 as [|c l2]; simpl; [by rewrite Hha; tauto |].
    split; [| by intros [_ ?]]. intros ->. exfalso. apply Ha2. by left.
Qed.

Lemma ring_single s a : a <> 0 -> n_valid N a -> n_next N s a = a -> n_prev N s a = a -> ring N s a [a].
Proof.
  intros Ha Hv Hn Hp. right. split_and!; [done | by apply NoDup_singleton |]. exists a. simpl. by rewrite Hn, Hp.
Qed.

(** The two ends of a segment, and redirecting them. *)
Lemma dseg_ends s p h l q n : dseg N s p h l q n -> l <> [] ->
  n_prev N s h = p /\ n_next N s q = n /\ h ∈ l /\ q ∈ l.
Proof.
  intros Hs Hne. split_and!.
  - destruct l; [done |]. by destruct Hs as (-> & _ & _ & ? & _).
  - destruct l as [|a l _] using rev_ind; [done |]. by apply dseg_snoc in Hs as (-> & -> & _).
  - destruct l; [done |]. destruct Hs as (-> & _). by left.
  - destruct l as [|a l _] using rev_ind; [done |]. apply dseg_snoc in Hs as (-> & _). apply elem_of_app. right. by left.
Qed.

Lemma dseg_relink s s' p h l q n p' n' : dseg N s p h l q n -> l <> [] -> NoDup l ->
  (forall b, b ∈ l -> n_next N s' b = (if decide (b = q) then n' else n_next N s b) /\
                      n_prev N s' b = (if decide (b = h) then p' else n_prev N s b)) ->
  dseg N s' p' h l q n'.
Proof.
  intros Hs Hne Hnd Hlinks. destruct (dseg_ends _ _ _ _ _ _ Hs Hne) as (_ & _ & Hh & Hq).
  pose proof (dseg_set_first _ _ _ _ _ _ p' Hs Hnd Hne) as H1. pose proof (dseg_set_last _ _ _ _ _ _ n' H1 Hnd Hne) as H2.
  eapply dseg_ext; [| exact H2]. intros b Hb. destruct (Hlinks b Hb) as [-> ->].
  assert (forall c, c ∈ l -> n_valid N c) as Hv by (intros c Hc; by apply (dseg_valid _ _ _ _ _ _ c Hs) in Hc as [? _]).
  rewrite next_set_next, prev_set_next, next_set_prev, prev_set_prev by auto.
  split; repeat case_decide; congruence.
Qed.

(** A node is added before the head, that is at the end. *)
Lemma ring_push s s' h l t : ring N s h l -> l <> [] -> t <> 0 -> n_valid N t -> t ∉ l ->
  let tail := n_prev N s h in
  (forall b, b ∈ t :: l ->
     n_next N s' b = (if decide (b = t) then h else if decide (b = tail) then t else n_next N s b) /\
     n_prev N s' b = (if decide (b = t) then tail else if decide (b = h) then t else n_prev N s b)) ->
  ring N s' h (l ++ [t]).
Proof.
  intros Hr Hne Ht Hvt Htl tail Hlinks. destruct Hr as [[-> _]|(_ & Hnd & q & Hq)]; [done |].
  assert (tail = q) as Htail by by destruct (dseg_ends _ _ _ _ _ _ Hq Hne).
  right. split_and!; [by destruct l | | exists t].
  { apply NoDup_app. split_and!; [done | by intros x Hx ->%list_elem_of_singleton | by apply NoDup_singleton]. }
  destruct (Hlinks t) as [Et Et']; [by left |]. rewrite decide_True in Et, Et' by done.
  apply dseg_snoc. rewrite Et, Et', Htail. split_and!; [done.. |].
  apply (dseg_relink s s' _ _ _ _ _ t t Hq Hne Hnd). intros b Hb.
  destruct (Hlinks b) as [-> ->]; [by right |]. assert (b <> t) by congruence. rewrite Htail.
  by rewrite !(decide_False (P := b = t)) by done.
Qed.

(** A node leaves a ring of more than one. *)
Lemma ring_remove s s' h l1 t l2 : ring N s h (l1 ++ t :: l2) -> l1 ++ l2 <> [] ->
  let p := n_prev N s t in let n := n_next N s t in
  (forall b, b ∈ l1 ++ l2 ->
     n_next N s' b = (if decide (b = p) then n else n_next N s b) /\
     n_prev N s' b = (if decide (b = n) then p else n_prev N s b)) ->
  ring N s' (if decide (h = t) then n else h) (l1 ++ l2).
Proof.
  intros Hr Hne p n Hlinks. destruct (ring_neighbours _ _ _ _ _ Hr) as (_ & _ & _ & Hht).
  destruct Hr as [[Hl _]|(_ & Hnd & q & Hq)]; [by destruct l1 |].
  assert (NoDup (l1 ++ l2)) as Hnd'.
  { apply NoDup_app in Hnd as (H1 & H2 & [_ H3]%NoDup_cons). apply NoDup_app. split_and!; [done | | done].
    intros x Hx Hx2. apply (H2 x Hx). by right. }
  pose proof Hnd' as (Hnd1 & Hd12 & Hnd2)%NoDup_app.
  pose proof Hq as (p' & n' & Hs1 & -> & _ & _ & Hp & Hs2)%dseg_app. fold p in Hp. subst p'. fold n in Hs2.
  right. split_and!; [done | done |].
  destruct l1 as [|a l1]; [| rewrite decide_False by (intros E%Hht; done); destruct l2 as [|c l2]].
  - destruct Hs1 as [-> ->]. rewrite decide_True by tauto. exists p.
    by apply (dseg_relink s s' _ _ _ _ _ p n Hs2).
  - destruct Hs2 as [Hn ->]. rewrite app_nil_r in *. exists p.
    apply (dseg_relink s s' _ _ _ _ _ p h Hs1); [done.. |]. by rewrite <- Hn.
  - exists q. apply dseg_app. exists p, n.
    destruct (dseg_ends _ _ _ _ _ _ Hs1) as (E1 & _ & _ & Hp); [done |].
    destruct (dseg_ends _ _ _ _ _ _ Hs2) as (_ & E2 & Hn & _); [done |]. split.
    + apply (dseg_relink s s' _ _ _ _ _ q n Hs1); [done.. |]. intros b Hb.
      destruct (Hlinks b) as [-> ->]; [apply elem_of_app; by left |]. split; [done |].
      rewrite (decide_False (P := b = n)) by (intros ->; by apply (Hd12 n)). case_decide; congruence.
    + apply (dseg_relink s s' _ _ _ _ _ p h Hs2); [done.. |]. intros b Hb.
      destruct (Hlinks b) as [-> ->]; [apply elem_of_app; by right |]. split; [| done].
      rewrite (decide_False (P := b = p)) by (intros ->; by apply (Hd12 p)). case_decide; congruence.
Qed.

(** A property of states kept by writing the links of the nodes in play is
    kept by the operations. *)
Section preserve.
Context (P : St -> Prop) (D : Z -> Prop).
Hypothesis HP : forall b x s, D b -> P s -> P (set_prev N b x s) /\ P (set_next N b x s).

Lemma dl_push_preserve s h l a : dll N s h l -> D a -> (forall b, b ∈ l -> D b) -> P s -> P (dl_push N h a s).
Proof.
  intros Hd Ha Hl Hs. unfold dl_push. rewrite (dll_truthy _ _ _ Hd).
  assert (P (set_next N a h (set_prev N a 0 s))) by (by apply HP; [| apply HP]).
  case_bool_decide; simpl; [done |]. destruct l as [|b l]; [done |].
  rewrite (dll_head _ _ _ Hd) in *. apply HP; [apply Hl; by left | done].
Qed.

Lemma dl_remove_preserve s h l1 a l2 :
  dll N s h (l1 ++ a :: l2) -> (forall b, b ∈ l1 ++ a :: l2 -> D b) -> P s -> P (dl_remove N h a s).2.
Proof.
  intros (q & Hs & _) Hl HPs. apply dseg_app in Hs as (p & n & Hs1 & -> & Ha & Hva & Hp & Hs2).
  unfold dl_remove. rewrite Hp. cbn [snd].
  assert (P (if truthy p then set_next N p (n_next N s a) s else s)) as H1.
  { destruct l1 as [|b l1 _] using rev_ind; [by destruct Hs1 as [_ <-] |].
    apply dseg_snoc in Hs1 as (-> & _). destruct (truthy b); [| done].
    apply HP; [| done]. apply Hl. rewrite !elem_of_app. left. right. by left. }
  revert Hs2 H1. generalize (n_next N s a) as m. intros m Hs2 H1.
  destruct l2 as [|b l2]; [by destruct Hs2 as [-> _] |]. destruct Hs2 as (-> & _).
  destruct (truthy b); [| done]. apply HP; [| done]. apply Hl. rewrite elem_of_app. by right; right; left.
Qed.
End preserve.

End dlist_lemmas.
