(* ===== verification/Buddy.v ===== *)
(** Buddy allocator of the kernel heap ([mm/buddy.c], [include/mm/buddy.h]):
    blocks of 2^order pages, free blocks on one doubly linked list per order
    whose links lie in the blocks themselves, and one metadata byte per page. *)
From S2P Require Import Prelude Interfaces DList.

(** * State *)

Definition HEAP_START : Z := 0xFFFFE00000000000.
Definition METADATA_VIRT : Z := 0xffffffff00000000.
Definition MAX_ORDERS : Z := 12.
Definition START_PAGES : Z := 4096.

(** [page_metadata_t]: [order] has four bits, the others one. *)
Record page_metadata : Type := Meta {
  order : Z;
  is_free : bool;
  is_slab : bool;
}.

(** [mem] is the heap by 8-byte words, keyed by virtual address. [metadata] has
    the entries written so far; using another one counts as a fault. *)
Record buddy (Pg : Type) : Type := Buddy {
  b_pages : Pg;
  mem : gmap Z Z;
  free_areas : gmap Z Z;
  metadata : gmap Z page_metadata;
  metadata_size : Z;
  current_heap_end : Z;
}.
Arguments Buddy {Pg} b_pages mem free_areas metadata metadata_size current_heap_end.
Arguments b_pages {Pg} b.
Arguments mem {Pg} b.
Arguments free_areas {Pg} b.
Arguments metadata {Pg} b.
Arguments metadata_size {Pg} b.
Arguments current_heap_end {Pg} b.

Section operations.
Context {Pg : Type} `{HeapSource Pg}.
Implicit Types s : buddy Pg.

Definition set_b_pages (p : Pg) s : buddy Pg :=
  Buddy p (mem s) (free_areas s) (metadata s) (metadata_size s) (current_heap_end s).
Definition set_mem (m : gmap Z Z) s : buddy Pg :=
  Buddy (b_pages s) m (free_areas s) (metadata s) (metadata_size s) (current_heap_end s).
Definition set_free_areas (f : gmap Z Z) s : buddy Pg :=
  Buddy (b_pages s) (mem s) f (metadata s) (metadata_size s) (current_heap_end s).
Definition set_metadata (m : gmap Z page_metadata) s : buddy Pg :=
  Buddy (b_pages s) (mem s) (free_areas s) m (metadata_size s) (current_heap_end s).
Definition set_metadata_size (z : Z) s : buddy Pg :=
  Buddy (b_pages s) (mem s) (free_areas s) (metadata s) z (current_heap_end s).
Definition set_current_heap_end (z : Z) s : buddy Pg :=
  Buddy (b_pages s) (mem s) (free_areas s) (metadata s) (metadata_size s) z.
Definition l_b_pages : lens (buddy Pg) Pg := Lens b_pages set_b_pages.

(** Words of the heap. *)
Definition ld (a : Z) : M (buddy Pg) Z := gets (fun s => mem s @@ a).
Definition st (a x : Z) : M (buddy Pg) unit := modify (fun s => set_mem (<[a := x]> (mem s)) s).

Definition get_area (i : Z) : M (buddy Pg) Z := gets (fun s => free_areas s @@ i).
Definition set_area (i x : Z) : M (buddy Pg) unit :=
  modify (fun s => set_free_areas (<[i := x]> (free_areas s)) s).

(** [metadata[index]], and an assignment to some of its fields. *)
Definition get_meta (index : Z) : M (buddy Pg) page_metadata :=
  m ← gets metadata;
  match m !! index with Some x => mret x | None => fail Fault end.
Definition upd_meta (index : Z) (f : page_metadata -> page_metadata) : M (buddy Pg) unit :=
  x ← get_meta index; modify (fun s => set_metadata (<[index := f x]> (metadata s)) s).

(** [int index = (addr - HEAP_START) / PAGE_SIZE_4KB] *)
Definition meta_index (a : Z) : Z := s32 (u64 (a - HEAP_START) / PAGE_SIZE_4KB).

(** The fields of a [free_block_t]: [prev] at offset 0, [next] at 8. *)
Definition buddy_list_add (a o : Z) : M (buddy Pg) unit :=
  st a 0;;
  h ← get_area o;
  st (a + 8) h;;
  h ← get_area o;
  when (truthy h) (st h a);;
  set_area o a;;
  upd_meta (meta_index a) (fun _ => Meta (o mod 16) true false).

Definition buddy_list_remove (a o : Z) : M (buddy Pg) unit :=
  p ← ld a;
  (if truthy p then n ← ld (a + 8); st (p + 8) n
   else n ← ld (a + 8); set_area o n);;
  n ← ld (a + 8);
  when (truthy n) (p ← ld a; st n p);;
  upd_meta (meta_index a) (fun m => Meta (order m) false (is_slab m)).

Definition is_buddy_free (buddy_addr o : Z) : M (buddy Pg) bool :=
  m ← get_meta (meta_index buddy_addr);
  mret ((order m =? o) && is_free m).

(** [addr ^ ((1ULL << i) * PAGE_SIZE_4KB)] *)
Definition buddy_of (a i : Z) : Z := Z.lxor a (u64 (u64 (Z.shiftl 1 i) * PAGE_SIZE_4KB)).

(** The first list from order [i] on that has a block. *)
Fixpoint first_area (n : nat) (i : Z) (areas : gmap Z Z) : option Z :=
  match n with
  | O => None
  | S n' => if truthy (areas @@ i) then Some i else first_area n' (i + 1) areas
  end.

(** [while (i > order)]: the upper halves go back to the lists. *)
Fixpoint buddy_split (n : nat) (i block_addr : Z) : M (buddy Pg) unit :=
  match n with
  | O => mret tt
  | S n' =>
      buddy_list_add (buddy_of block_addr (i - 1)) (i - 1);;
      buddy_split n' (i - 1) block_addr
  end.

(** The body of the [for] loop of [buddy_alloc] for a list that has a block. *)
Definition buddy_take (i o : Z) : M (buddy Pg) Z :=
  block_addr ← get_area i;
  buddy_list_remove block_addr i;;
  buddy_split (Z.to_nat (i - o)) i block_addr;;
  upd_meta (meta_index block_addr) (fun _ => Meta (o mod 16) false false);;
  mret block_addr.

(** Pages of metadata for [START_PAGES] entries of one byte. *)
Definition meta_pages_needed : Z := (START_PAGES * 1 + PAGE_SIZE_4KB - 1) / PAGE_SIZE_4KB.

Definition put_meta (index : Z) (x : page_metadata) : M (buddy Pg) unit :=
  modify (fun s => set_metadata (<[index := x]> (metadata s)) s).

(** The part of [buddy_alloc] after the loop: the heap grows. *)
Definition buddy_grow : M (buddy Pg) unit :=
  pages ← zoom l_b_pages (hs_alloc_pages meta_pages_needed);
  size ← gets metadata_size;
  for_loop (Z.to_nat meta_pages_needed) 0 (fun i =>
    zoom l_b_pages (hs_map_page (u64 (pages + i * PAGE_SIZE_4KB))
      (u64 (METADATA_VIRT + size + i * PAGE_SIZE_4KB)) PTE_WRITABLE));;
  modify (fun s => set_metadata_size (u64 (metadata_size s + meta_pages_needed * PAGE_SIZE_4KB)) s);;
  pages ← zoom l_b_pages (hs_alloc_pages START_PAGES);
  heap_end ← gets current_heap_end;
  for_loop (Z.to_nat START_PAGES) 0 (fun i =>
    zoom l_b_pages (hs_map_page (u64 (pages + i * PAGE_SIZE_4KB)) (u64 (heap_end + i * PAGE_SIZE_4KB)) PTE_WRITABLE);;
    put_meta (u64 (heap_end + i * PAGE_SIZE_4KB - HEAP_START) / PAGE_SIZE_4KB) (Meta MAX_ORDERS false false));;
  buddy_list_add heap_end MAX_ORDERS;;
  modify (fun s => set_current_heap_end (u64 (current_heap_end s + START_PAGES)) s).

(** The recursive call is the last one; [fuel] bounds its depth. *)
Fixpoint buddy_alloc (fuel : nat) (o : Z) : M (buddy Pg) Z :=
  match fuel with
  | O => fail Hang
  | S fuel' =>
      areas ← gets free_areas;
      match first_area (Z.to_nat (MAX_ORDERS + 1 - o)) o areas with
      | Some i => buddy_take i o
      | None => buddy_grow;; buddy_alloc fuel' o
      end
  end.

(** The loop of [buddy_free]: the order and the address of the merged block. *)
Fixpoint buddy_merge (n : nat) (i a : Z) : M (buddy Pg) (Z * Z) :=
  match n with
  | O => mret (i, a)
  | S n' =>
      let b := buddy_of a i in
      m ← get_meta (meta_index b);
      if is_free m && (order m =? i) then
        buddy_list_remove b i;;
        buddy_merge n' (i + 1) (if b <? a then b else a)
      else mret (i, a)
  end.

Definition buddy_free (a : Z) : M (buddy Pg) unit :=
  m ← get_meta (meta_index a);
  ia ← buddy_merge (Z.to_nat (MAX_ORDERS - order m)) (order m) a;
  buddy_list_add ia.2 ia.1.

Definition init_buddy : M (buddy Pg) unit :=
  pages ← zoom l_b_pages (hs_alloc_pages meta_pages_needed);
  for_loop (Z.to_nat meta_pages_needed) 0 (fun i =>
    zoom l_b_pages (hs_map_page (u64 (pages + i * PAGE_SIZE_4KB)) (u64 (METADATA_VIRT + i * PAGE_SIZE_4KB)) PTE_WRITABLE));;
  modify (set_current_heap_end (HEAP_START + START_PAGES * PAGE_SIZE_4KB));;
  modify (set_metadata_size START_PAGES);;
  for_loop (Z.to_nat (MAX_ORDERS + 1)) 0 (fun i => set_area i 0);;
  for_loop (Z.to_nat START_PAGES) 0 (fun i => put_meta i (Meta 0 false false));;
  buddy_list_add HEAP_START MAX_ORDERS.

End operations.

(** * Specification *)

(** The address of page [k] of the heap, and the links of a free block. *)
Definition page_addr (k : Z) : Z := HEAP_START + k * PAGE_SIZE_4KB.

Definition block_node : node_ops (gmap Z Z) := {|
  n_prev m a := m @@ a;
  n_next m a := m @@ (a + 8);
  set_prev a x m := <[a := x]> m;
  set_next a x m := <[a + 8 := x]> m;
  n_valid a := a mod PAGE_SIZE_4KB = 0;
|}.

(** The heap as the allocator sees it: the blocks by their first page, each
    with its order and whether it is free. *)
Abbreviation blocks := (gmap Z (Z * bool)).

(** The blocks are aligned to their size and cover the [N] pages of the heap
    without overlap. *)
Record tiling (N : Z) (B : blocks) : Prop := {
  t_block k o f : B !! k = Some (o, f) -> 0 <= o <= MAX_ORDERS /\ 0 <= k /\ k mod 2 ^ o = 0 /\ k + 2 ^ o <= N;
  t_disj k o f k' o' f' : B !! k = Some (o, f) -> B !! k' = Some (o', f') -> k <> k' ->
    k + 2 ^ o <= k' \/ k' + 2 ^ o' <= k;
  t_cover p : 0 <= p < N -> exists k o f, B !! k = Some (o, f) /\ k <= p < k + 2 ^ o;
}.

(** The other half of the aligned block of the next order. *)
Definition buddy_page (k i : Z) : Z := if Z.odd (k / 2 ^ i) then k - 2 ^ i else k + 2 ^ i.

(** Two free halves of a larger block are never left apart. *)
Definition coalesced (B : blocks) : Prop :=
  forall k o, B !! k = Some (o, true) -> o < MAX_ORDERS -> B !! buddy_page k o <> Some (o, true).

Section specification.
Context {Pg : Type}.
Implicit Types s : buddy Pg.

(** The list of order [o] holds exactly the free blocks of that order. *)
Definition free_list_ok (B : blocks) s (o : Z) : Prop :=
  exists ks, dll block_node (mem s) (free_areas s @@ o) (page_addr <$> ks) /\
    forall k, k ∈ ks <-> B !! k = Some (o, true).

(** Page [k] has metadata; it is marked free exactly when a free block starts
    there, and has the order of the block, outside of [E]. *)
Definition meta_ok (E : gset Z) (B : blocks) s (k : Z) : Prop :=
  exists m, metadata s !! k = Some m /\
    (is_free m = true <-> exists o, B !! k = Some (o, true)) /\
    (forall o f, B !! k = Some (o, f) -> k ∉ E -> order m = o).

(** The invariant of the allocator. [E] are blocks that an operation is working
    on, whose recorded order is stale; it is empty between operations. *)
Record buddy_inv (N : Z) (E : gset Z) (B : blocks) s : Prop := {
  bi_size : 0 <= N <= 2 ^ 30 /\ N mod 2 ^ MAX_ORDERS = 0;
  bi_tiling : tiling N B;
  bi_lists o : 0 <= o <= MAX_ORDERS -> free_list_ok B s o;
  bi_meta k : 0 <= k < N -> meta_ok E B s k;
  bi_coalesced : coalesced B;
}.

(** The allocated blocks with their orders. *)
Definition allocated (B : blocks) : gmap Z Z :=
  omap (fun b : Z * bool => if b.2 then None else Some b.1) B.

(** The pages of the allocated blocks, the one at [h] apart. *)
Definition kept (B : blocks) (h p : Z) : Prop :=
  exists k o, delete h (allocated B) !! k = Some o /\ k <= p < k + 2 ^ o.

(** The pages of [P] keep their contents and their metadata. *)
Record untouched (P : Z -> Prop) s s' : Prop := {
  ut_mem p x : P p -> page_addr p <= x < page_addr (p + 1) -> mem s' @@ x = mem s @@ x;
  ut_meta p : P p -> metadata s' !! p = metadata s !! p;
  ut_pages : b_pages s' = b_pages s;
  ut_size : metadata_size s' = metadata_size s;
  ut_end : current_heap_end s' = current_heap_end s;
}.

(** An allocation of order [o]: a block that was not allocated before, and
    nothing happens to the allocated ones. *)
Definition alloc_post (N : Z) (B : blocks) (o r : Z) s s' : Prop :=
  exists k B', r = page_addr k /\ buddy_inv N ∅ B' s' /\
    allocated B !! k = None /\ allocated B' = <[k := o]> (allocated B) /\
    metadata s' !! k = Some (Meta o false false) /\ untouched (kept B k) s s'.

(** The release of the block at page [k]. *)
Definition free_post (N : Z) (B : blocks) (k : Z) s s' : Prop :=
  exists B', buddy_inv N ∅ B' s' /\ allocated B' = delete k (allocated B) /\ untouched (kept B k) s s'.
End specification.

(** * Lemmas: addresses *)

Lemma page_addr_inj k k' : page_addr k = page_addr k' -> k = k'.
Proof. unfold page_addr, PAGE_SIZE_4KB. lia. Qed.

#[global] Instance page_addr_Inj : Inj (=) (=) page_addr.
Proof. exact page_addr_inj. Qed.

Lemma page_addr_aligned k : page_addr k mod PAGE_SIZE_4KB = 0.
Proof. unfold page_addr, PAGE_SIZE_4KB, HEAP_START. dlia. Qed.

Lemma page_addr_nz k : 0 <= k -> page_addr k <> 0.
Proof. unfold page_addr, PAGE_SIZE_4KB, HEAP_START. lia. Qed.

(** A word of a link of page [k] lies in page [k]. *)
Lemma link_in_page k p x : x = page_addr k \/ x = page_addr k + 8 ->
  page_addr p <= x < page_addr (p + 1) -> k = p.
Proof. unfold page_addr, PAGE_SIZE_4KB. lia. Qed.

Lemma meta_index_page k : 0 <= k <= 2 ^ 30 -> meta_index (page_addr k) = k.
Proof.
  intros Hk. unfold meta_index, page_addr. replace (HEAP_START + k * PAGE_SIZE_4KB - HEAP_START) with (k * PAGE_SIZE_4KB) by lia.
  unfold PAGE_SIZE_4KB. rewrite u64_small, Z.div_mul, s32_small by lia. done.
Qed.

#[global] Instance block_node_laws : NodeLaws block_node.
Proof.
  split; simpl; intros a b x m Ha Hb; rewrite rd_insert; repeat case_decide; try done;
    exfalso; unfold PAGE_SIZE_4KB in *; try lia; dlia.
Qed.

(** The buddy of a block aligned to its size is the other half of the block of
    the next order. *)
Lemma lxor_pow2 x i : 0 <= i -> Z.lxor x (2 ^ i) = if Z.testbit x i then x - 2 ^ i else x + 2 ^ i.
Proof.
  intros Hi.
  assert (forall y, Z.testbit y i = false -> Z.lxor y (2 ^ i) = y + 2 ^ i) as Hadd.
  { intros y Hy. symmetry. apply Z.add_nocarry_lxor. apply Z.bits_inj'. intros n Hn.
    rewrite Z.land_spec, Z.testbit_0_l, Z.pow2_bits_eqb by lia.
    destruct (Z.eqb_spec i n) as [<-|]; [by rewrite Hy | by rewrite andb_false_r]. }
  destruct (Z.testbit x i) eqn:E; [| by apply Hadd].
  assert (Z.testbit (Z.lxor x (2 ^ i)) i = false) as Hy.
  { rewrite Z.lxor_spec, E, Z.pow2_bits_true by lia. done. }
  apply Hadd in Hy. rewrite Z.lxor_assoc, Z.lxor_nilpotent, Z.lxor_0_r in Hy. lia.
Qed.

Lemma buddy_of_page k i : 0 <= k <= 2 ^ 30 -> 0 <= i <= MAX_ORDERS ->
  buddy_of (page_addr k) i = page_addr (buddy_page k i).
Proof.
  unfold MAX_ORDERS. intros Hk Hi. unfold buddy_of, buddy_page.
  assert (0 < 2 ^ i <= 2 ^ 12) as Hpi by (split; [lia | apply Z.pow_le_mono_r; lia]).
  rewrite Z.shiftl_1_l, (u64_small (2 ^ i)) by lia. unfold page_addr, PAGE_SIZE_4KB.
  rewrite u64_small by lia. change 0x1000 with (2 ^ 12). rewrite <- Z.pow_add_r by lia.
  rewrite lxor_pow2 by lia.
  assert (Z.testbit (HEAP_START + k * 2 ^ 12) (i + 12) = Z.odd (k / 2 ^ i)) as ->.
  { rewrite Z.testbit_odd, Z.shiftr_div_pow2 by lia. rewrite (Z.add_comm i 12), Z.pow_add_r, <- Z.div_div by lia.
    rewrite Z.div_add by lia.
    replace (HEAP_START / 2 ^ 12) with (HEAP_START / 2 ^ 25 * 2 ^ (12 - i) * 2 * 2 ^ i).
    - rewrite Z.div_add_l by lia. rewrite Z.odd_add, Z.odd_mul, andb_false_r. done.
    - replace (HEAP_START / 2 ^ 25 * 2 ^ (12 - i) * 2 * 2 ^ i) with (HEAP_START / 2 ^ 25 * 2 * (2 ^ (12 - i) * 2 ^ i)) by ring.
      rewrite <- Z.pow_add_r by lia. by replace (12 - i + i) with 12 by lia. }
  rewrite Z.pow_add_r by lia. destruct (Z.odd _); lia.
Qed.

(** * Lemmas: tilings *)

Section tilings.
Context (N : Z) (B : blocks) (HB : tiling N B).

Lemma tiling_flag k o f f' : B !! k = Some (o, f) -> tiling N (<[k := (o, f')]> B).
Proof using HB.
  intros Hk. split.
  - intros k1 o1 f1. rewrite lookup_insert_Some. intros [[<- [= <- <-]]|[_ H]]; by eapply t_block.
  - intros k1 o1 f1 k2 o2 f2. rewrite !lookup_insert_Some.
    intros [[<- [= <- <-]]|[? H1]] [[<- [= <- <-]]|[? H2]] Hne; [done | by eapply t_disj..].
  - intros p Hp. destruct (t_cover _ _ HB p Hp) as (k1 & o1 & f1 & H1 & Hin).
    destruct (decide (k1 = k)) as [->|Hne].
    + exists k, o1, f'. rewrite lookup_insert_eq. split; [congruence | done].
    + exists k1, o1, f1. by rewrite lookup_insert_ne.
Qed.

(** Splitting a block in halves. *)
Lemma tiling_split k o f f1 f2 : B !! k = Some (o + 1, f) -> 0 <= o ->
  tiling N (<[k := (o, f1)]> (<[k + 2 ^ o := (o, f2)]> B)).
Proof using HB.
  intros Hk Ho. pose proof (t_block _ _ HB _ _ _ Hk) as (Hr & Hk0 & Hal & Hend).
  assert (2 ^ (o + 1) = 2 * 2 ^ o) as Hpow by (rewrite Z.pow_add_r by lia; lia).
  assert (0 < 2 ^ o) as Hpos by lia. rewrite Hpow in *.
  assert (k mod 2 ^ o = 0 /\ (k + 2 ^ o) mod 2 ^ o = 0) as [Hal1 Hal2].
  { apply Z.mod_divide in Hal as [c Hc]; [| lia]. split; apply Z.mod_divide; [lia | exists (c * 2); lia | lia | exists (c * 2 + 1); lia]. }
  split.
  - intros k1 o1 f1'. rewrite !lookup_insert_Some.
    intros [[<- [= <- <-]]|[_ [[<- [= <- <-]]|[_ H]]]]; [unfold MAX_ORDERS in *; lia.. | by eapply t_block].
  - assert (forall k1 o1 f1', k1 <> k -> B !! k1 = Some (o1, f1') -> k1 + 2 ^ o1 <= k \/ k + 2 * 2 ^ o <= k1) as Hd.
    { intros k1 o1 f1' Hne H1. rewrite <- Hpow. by eapply t_disj. }
    intros k1 o1 f1' k2 o2 f2'. rewrite !lookup_insert_Some.
    intros [[<- [= <- <-]]|[? [[<- [= <- <-]]|[? H1]]]] [[<- [= <- <-]]|[? [[<- [= <- <-]]|[? H2]]]] Hne; try lia.
    + destruct (Hd k2 o2 f2'); [done.. | lia | lia].
    + destruct (Hd k2 o2 f2'); [done.. | lia | lia].
    + destruct (Hd k1 o1 f1'); [done.. | lia | lia].
    + destruct (Hd k1 o1 f1'); [done.. | lia | lia].
    + by eapply t_disj.
  - intros p Hp. destruct (t_cover _ _ HB p Hp) as (k1 & o1 & f1' & H1 & Hin).
    destruct (decide (k1 = k)) as [->|Hne].
    + assert (o1 = o + 1) as -> by congruence. rewrite Hpow in Hin. destruct (Z_lt_le_dec p (k + 2 ^ o)).
      * exists k, o, f1. rewrite lookup_insert_eq. split; [done | lia].
      * exists (k + 2 ^ o), o, f2. rewrite lookup_insert_ne, lookup_insert_eq by lia. split; [done | lia].
    + exists k1, o1, f1'. rewrite !lookup_insert_ne; [done | | done].
      intros Heq. destruct (t_disj _ _ HB _ _ _ _ _ _ H1 Hk Hne); lia.
Qed.

(** Joining two halves. *)
Lemma tiling_merge k o f f1 f2 : B !! k = Some (o, f1) -> B !! (k + 2 ^ o) = Some (o, f2) ->
  k mod 2 ^ (o + 1) = 0 -> o < MAX_ORDERS ->
  tiling N (<[k := (o + 1, f)]> (delete (k + 2 ^ o) B)).
Proof using HB.
  intros H1 H2 Hal Ho. pose proof (t_block _ _ HB _ _ _ H1) as (Hr & Hk0 & _ & _).
  pose proof (t_block _ _ HB _ _ _ H2) as (_ & _ & _ & Hend).
  assert (2 ^ (o + 1) = 2 * 2 ^ o) as Hpow by (rewrite Z.pow_add_r by lia; lia).
  assert (0 < 2 ^ o) as Hpos by lia. rewrite Hpow in *.
  assert (forall k1 o1 f1', k1 <> k -> k1 <> k + 2 ^ o -> B !! k1 = Some (o1, f1') ->
    k1 + 2 ^ o1 <= k \/ k + 2 * 2 ^ o <= k1) as Hd.
  { intros k1 o1 f1' Hne Hne' H. destruct (t_block _ _ HB _ _ _ H) as (? & _).
    assert (0 < 2 ^ o1) by lia.
    destruct (t_disj _ _ HB _ _ _ _ _ _ H H1 Hne), (t_disj _ _ HB _ _ _ _ _ _ H H2 Hne'); lia. }
  split.
  - intros k1 o1 f1'. rewrite lookup_insert_Some, lookup_delete_Some.
    intros [[<- [= <- <-]]|[_ [_ H]]]; [rewrite Hpow; lia | by eapply t_block].
  - intros k1 o1 f1' k2 o2 f2'. rewrite !lookup_insert_Some, !lookup_delete_Some.
    intros [[<- [= <- <-]]|[? [? H]]] [[<- [= <- <-]]|[? [? H']]] Hne; rewrite ?Hpow; [done | | | by eapply t_disj].
    + destruct (Hd k2 o2 f2'); [done.. | by right | by left].
    + destruct (Hd k1 o1 f1'); [done.. | by left | by right].
  - intros p Hp. destruct (t_cover _ _ HB p Hp) as (k1 & o1 & f1' & H & Hin).
    destruct (decide (k1 = k)) as [->|Hne]; [| destruct (decide (k1 = k + 2 ^ o)) as [->|Hne']].
    + exists k, (o + 1), f. rewrite lookup_insert_eq, Hpow. replace o1 with o in Hin by congruence. split; [done | lia].
    + exists k, (o + 1), f. rewrite lookup_insert_eq, Hpow. replace o1 with o in Hin by congruence. split; [done | lia].
    + exists k1, o1, f1'. by rewrite lookup_insert_ne, lookup_delete_ne.
Qed.
End tilings.

(** * Lemmas: buddies *)

Lemma buddy_upper k i : 0 <= i -> k mod 2 ^ (i + 1) = 0 -> buddy_page k i = k + 2 ^ i.
Proof.
  intros Hi [c ->]%Z.mod_divide; [| lia]. unfold buddy_page. rewrite Z.pow_add_r by lia.
  replace (c * (2 ^ i * 2 ^ 1)) with (2 * c * 2 ^ i) by lia. rewrite Z.div_mul by lia.
  by rewrite Z.odd_mul.
Qed.

Lemma buddy_page_invol k i : 0 <= i -> k mod 2 ^ i = 0 -> buddy_page (buddy_page k i) i = k.
Proof.
  intros Hi [c ->]%Z.mod_divide; [| lia]. unfold buddy_page. rewrite Z.div_mul by lia.
  destruct (Z.odd c) eqn:E.
  - replace (c * 2 ^ i - 2 ^ i) with ((c - 1) * 2 ^ i) by lia. rewrite Z.div_mul, Z.odd_sub, E by lia. simpl. lia.
  - replace (c * 2 ^ i + 2 ^ i) with ((c + 1) * 2 ^ i) by lia. rewrite Z.div_mul, Z.odd_add, E by lia. simpl. lia.
Qed.

Lemma coalesced_free B B' : coalesced B ->
  (forall k o, B' !! k = Some (o, true) -> B !! k = Some (o, true)) -> coalesced B'.
Proof. intros Hc Hsub k o Hk Ho Hb. by apply (Hc k o); auto. Qed.

Lemma coalesced_flag N B k o f0 f : tiling N B -> coalesced B -> B !! k = Some (o, f0) ->
  (f = true -> o < MAX_ORDERS -> B !! buddy_page k o <> Some (o, true)) -> coalesced (<[k := (o, f)]> B).
Proof.
  intros Ht Hc Hk Hb k1 o1 H1 Ho1 H2. pose proof (t_block _ _ Ht _ _ _ Hk) as (? & ? & Hal & ?).
  rewrite lookup_insert_Some in H1. rewrite lookup_insert_Some in H2.
  destruct H1 as [[<- E1]|[Hne H1]], H2 as [[Heq E2]|[Hne' H2]]; simplify_eq.
  - unfold buddy_page in Heq. assert (0 < 2 ^ o1) by lia. destruct (Z.odd _); lia.
  - by apply Hb.
  - apply Hb; [done | done |]. rewrite buddy_page_invol; [congruence | lia |].
    by apply (t_block _ _ Ht _ _ _ H1).
  - by apply (Hc k1 o1).
Qed.

(** * Lemmas: allocated blocks *)

Lemma lookup_allocated B k o : allocated B !! k = Some o <-> B !! k = Some (o, false).
Proof.
  unfold allocated. rewrite lookup_omap. destruct (B !! k) as [[o' [|]]|]; simpl; split; congruence.
Qed.

Lemma kept_spec B h p : kept B h p <-> exists k o, B !! k = Some (o, false) /\ k <> h /\ k <= p < k + 2 ^ o.
Proof.
  unfold kept. split; intros (k & o & H).
  - destruct H as [[Hne Hk%lookup_allocated]%lookup_delete_Some Hin]. exists k, o. split; [done | split; [congruence | done]].
  - destruct H as (Hk & Hne & Hin). exists k, o. by rewrite lookup_delete_ne, lookup_allocated by congruence.
Qed.

Lemma allocated_free k o B : allocated (<[k := (o, true)]> B) = delete k (allocated B).
Proof. unfold allocated. by rewrite omap_insert_None. Qed.

Lemma allocated_busy k o B : allocated (<[k := (o, false)]> B) = <[k := o]> (allocated B).
Proof. unfold allocated. by erewrite omap_insert_Some. Qed.

Lemma allocated_delete k B : allocated (delete k B) = delete k (allocated B).
Proof. unfold allocated. by rewrite omap_delete. Qed.

(** * Lemmas: list operations *)

(** Only the links of the pages [D] differ. *)
Definition links_only (D : Z -> Prop) (m m' : gmap Z Z) : Prop :=
  forall x, (forall k, D k -> x <> page_addr k /\ x <> page_addr k + 8) -> m' @@ x = m @@ x.

Lemma links_only_write (D : Z -> Prop) m m' b y : (exists k, b = page_addr k /\ D k) -> links_only D m m' ->
  links_only D m (set_prev block_node b y m') /\ links_only D m (set_next block_node b y m').
Proof.
  intros (k & -> & Hk) Hm. split; intros x Hx; simpl; rewrite rd_insert_ne; try (by apply Hm);
    intros <-; by destruct (Hx k Hk).
Qed.

Lemma push_links m h ks k : dll block_node m h (page_addr <$> ks) ->
  links_only (fun k' => k' ∈ k :: ks) m (dl_push block_node h (page_addr k) m).
Proof.
  intros Hd. apply (dl_push_preserve block_node (links_only (fun k' => k' ∈ k :: ks) m)
    (fun b => exists k', b = page_addr k' /\ k' ∈ k :: ks)) with (l := page_addr <$> ks); [| done | | | done].
  - intros b x m' Hb Hm'. by apply links_only_write.
  - exists k. split; [done | by left].
  - intros b (k' & -> & Hk')%list_elem_of_fmap. exists k'. split; [done | by right].
Qed.

Lemma remove_links m h ks1 k ks2 : dll block_node m h (page_addr <$> ks1 ++ k :: ks2) ->
  links_only (fun k' => k' ∈ ks1 ++ k :: ks2) m (dl_remove block_node h (page_addr k) m).2.
Proof.
  intros Hd. rewrite fmap_app, fmap_cons in Hd.
  apply (dl_remove_preserve block_node (links_only (fun k' => k' ∈ ks1 ++ k :: ks2) m)
    (fun b => exists k', b = page_addr k' /\ k' ∈ ks1 ++ k :: ks2)) with (l1 := page_addr <$> ks1) (l2 := page_addr <$> ks2);
    [| done | | done].
  - intros b x m' Hb Hm'. by apply links_only_write.
  - intros b Hb. rewrite <- fmap_cons, <- fmap_app in Hb. by apply list_elem_of_fmap in Hb.
Qed.

(** A list of other pages is not affected. *)
Lemma links_only_dll D m m' h ks : links_only D m m' -> (forall k, k ∈ ks -> ~ D k) ->
  dll block_node m h (page_addr <$> ks) -> dll block_node m' h (page_addr <$> ks).
Proof.
  intros Hm Hks. apply dll_ext. intros a (k & -> & Hk)%list_elem_of_fmap. simpl.
  split; apply Hm; intros k' Hk'; split; unfold page_addr, PAGE_SIZE_4KB; intros Heq;
    assert (k = k') as -> by lia || lia; by destruct (Hks k').
Qed.

Section list_operations.
Context {Pg : Type}.
Implicit Types s : buddy Pg.

(** A list operation moves block [k] of order [o] to the state [f]: the list of
    the order is given, and only links of free blocks and of [k] were written. *)
Lemma inv_update N E B k o f m' areas' x s :
  buddy_inv N ({[k]} ∪ E) B s -> B !! k = Some (o, negb f) ->
  (exists ks, dll block_node m' (areas' @@ o) (page_addr <$> ks) /\
     forall k', k' ∈ ks <-> <[k := (o, f)]> B !! k' = Some (o, true)) ->
  links_only (fun k' => k' = k \/ B !! k' = Some (o, true)) (mem s) m' ->
  (forall o', o' <> o -> areas' @@ o' = free_areas s @@ o') ->
  is_free x = f -> (k ∉ E -> order x = o) ->
  (f = true -> o < MAX_ORDERS -> B !! buddy_page k o <> Some (o, true)) ->
  let s' := set_metadata (<[k := x]> (metadata s)) (set_free_areas areas' (set_mem m' s)) in
  buddy_inv N E (<[k := (o, f)]> B) s' /\ untouched (kept B k) s s'.
Proof.
  intros [Hsz Ht Hl Hm Hc] Hk Hlist Hlinks Hareas Hf Ho Hbuddy s'.
  assert (forall k', k' <> k -> <[k := (o, f)]> B !! k' = B !! k') as Hne by (intros; by rewrite lookup_insert_ne).
  split; [split; [done | by apply (tiling_flag N B Ht k o (negb f)) | | | by apply (coalesced_flag N _ _ _ (negb f))] | split; try done].
  - intros o' Ho'. destruct (decide (o' = o)) as [->|Hoo]; [done |].
    destruct (Hl o' Ho') as (ks & Hd & Hks). exists ks. simpl. split.
    + rewrite Hareas by done. apply (links_only_dll _ (mem s) _ _ _ Hlinks); [| done].
      intros k' Hk'%Hks [->|H]; congruence.
    + intros k'. rewrite Hks. destruct (decide (k' = k)) as [->|]; [| by rewrite Hne].
      rewrite lookup_insert_eq, Hk. split; intros [=]; congruence.
  - intros k' Hk'. unfold meta_ok. simpl. destruct (decide (k' = k)) as [->|Hkk].
    + exists x. rewrite !lookup_insert_eq, Hf. split_and!; [done | | ].
      * split; [intros ->; by exists o | by intros (? & [= _ ->])].
      * intros o1 f1 [= <- <-]. done.
    + destruct (Hm k' Hk') as (m & Hmk & Hfree & Hord). exists m. rewrite !lookup_insert_ne by done.
      split_and!; [done.. |]. intros o1 f1 H1 HE. apply (Hord o1 f1 H1). rewrite elem_of_union, elem_of_singleton. tauto.
  - intros p a (k1 & o1 & Hk1 & Hne1 & Hin)%kept_spec Ha. simpl. apply Hlinks.
    assert (forall k', B !! k' = Some (o, true) \/ k' = k -> k' <> p) as Hp.
    { intros k' Hk' ->. assert (p <> k1) as Hp1.
      { intros ->. destruct Hk' as [Hk'| ->]; [congruence | done]. }
      assert (exists f', B !! p = Some (o, f')) as [f' Hp] by (destruct Hk' as [?| ->]; eauto).
      destruct (t_block _ _ Ht _ _ _ Hp) as (? & _). assert (0 < 2 ^ o) by lia.
      destruct (t_disj _ _ Ht _ _ _ _ _ _ Hp Hk1 Hp1); lia. }
    intros k' Hk'. assert (k' <> p) by (apply Hp; tauto).
    split; intros ->; by apply (link_in_page k' p) in Ha; auto.
  - intros p (k1 & o1 & Hk1 & Hne1 & Hin)%kept_spec. simpl. apply lookup_insert_ne. intros ->.
    destruct (t_block _ _ Ht _ _ _ Hk) as (? & _). assert (0 < 2 ^ o) by lia.
    destruct (t_disj _ _ Ht _ _ _ _ _ _ Hk Hk1 (not_eq_sym Hne1)); lia.
Qed.

Lemma wp_upd_meta k f x (Q : unit -> buddy Pg -> Prop) s :
  metadata s !! k = Some x -> Q tt (set_metadata (<[k := f x]> (metadata s)) s) -> wp (upd_meta k f) Q s.
Proof.
  intros Hk HQ. unfold upd_meta, get_meta. apply wp_bind, wp_bind, wp_gets. rewrite Hk.
  by apply wp_ret, wp_modify.
Qed.

Lemma inv_range N E B k o f s : buddy_inv N E B s -> B !! k = Some (o, f) -> 
  0 <= k < N /\ 0 <= k <= 2 ^ 30 /\ 0 <= o <= MAX_ORDERS /\ 0 < 2 ^ o.
Proof.
  intros Hi Hk. destruct (t_block _ _ (bi_tiling _ _ _ _ Hi) _ _ _ Hk) as (? & ? & _ & ?).
  pose proof (bi_size _ _ _ _ Hi). assert (0 < 2 ^ o) by lia. lia.
Qed.

Lemma wp_buddy_list_add N E B k o (Q : unit -> buddy Pg -> Prop) s :
  buddy_inv N ({[k]} ∪ E) B s -> B !! k = Some (o, false) ->
  (o < MAX_ORDERS -> B !! buddy_page k o <> Some (o, true)) ->
  (forall s', buddy_inv N E (<[k := (o, true)]> B) s' -> untouched (kept B k) s s' -> Q tt s') ->
  wp (buddy_list_add (page_addr k) o) Q s.
Proof.
  intros Hinv Hk Hbuddy HQ. destruct (inv_range _ _ _ _ _ _ _ Hinv Hk) as (HkN & Hk30 & Ho & _).
  destruct (bi_lists _ _ _ _ Hinv o Ho) as (ks & Hd & Hks).
  destruct (bi_meta _ _ _ _ Hinv k HkN) as (m & Hm & _).
  assert (page_addr k ∉ page_addr <$> ks) as Hnin.
  { intros (k' & ->%page_addr_inj & Hk'%Hks)%list_elem_of_fmap. congruence. }
  assert (k ∉ ks) as Hnin' by (intros Hk'%Hks; congruence).
  pose proof (dll_push _ _ _ _ (page_addr k) Hd (page_addr_nz k ltac:(lia)) (page_addr_aligned k) Hnin) as Hd'.
  pose proof (push_links _ _ _ k Hd) as Hl.
  apply wp_bind, wp_modify, wp_bind, wp_gets, wp_bind, wp_modify, wp_bind, wp_gets, wp_bind.
  apply (wp_mono _ (fun _ s' => s' = set_mem (dl_push block_node (free_areas s @@ o) (page_addr k) (mem s)) s)).
  { unfold dl_push. cbn [mem free_areas set_mem]. apply wp_when; intros ->; [by apply wp_modify | done]. }
  intros [] s' ->. apply wp_bind, wp_modify. rewrite meta_index_page by done.
  eapply wp_upd_meta; [exact Hm |]. simpl.
  destruct (inv_update N E B k o true (dl_push block_node (free_areas s @@ o) (page_addr k) (mem s))
    (<[o := page_addr k]> (free_areas s)) (Meta (o mod 16) true false) s Hinv Hk) as [Hi Hu].
  - exists (k :: ks). split; [by rewrite rd_insert_eq |]. intros k'. rewrite elem_of_cons, Hks.
    destruct (decide (k' = k)) as [->|]; [rewrite lookup_insert_eq; tauto |].
    rewrite lookup_insert_ne by done. tauto.
  - intros x Hx. apply Hl. intros k' [->|Hk'%Hks]%elem_of_cons; apply Hx; auto.
  - intros o' Ho'. by rewrite rd_insert_ne.
  - done.
  - intros _. simpl. unfold MAX_ORDERS in Ho. apply Z.mod_small. lia.
  - done.
  - apply (HQ _ Hi Hu).
Qed.

Lemma inv_weaken N E E' B s : E ⊆ E' -> buddy_inv N E B s -> buddy_inv N E' B s.
Proof.
  intros HE [Hsz Ht Hl Hm Hc]. split; try done. intros k Hk. destruct (Hm k Hk) as (m & ? & ? & Ho).
  exists m. split_and!; [done.. |]. intros o f Hb HkE. apply (Ho o f Hb). intros HkE2. by apply HkE, HE.
Qed.

(** The pointer updates of [buddy_list_remove]. *)
Lemma wp_unlink (k o : Z) l1 l2 (K : M (buddy Pg) unit) (Q : unit -> buddy Pg -> Prop) s :
  dll block_node (mem s) (free_areas s @@ o) (l1 ++ page_addr k :: l2) ->
  (forall areas', areas' @@ o = (dl_remove block_node (free_areas s @@ o) (page_addr k) (mem s)).1 ->
     (forall o', o' <> o -> areas' @@ o' = free_areas s @@ o') ->
     wp K Q (set_free_areas areas' (set_mem (dl_remove block_node (free_areas s @@ o) (page_addr k) (mem s)).2 s))) ->
  let a := page_addr k in let p := mem s @@ a in
  wp ((if truthy p then n ← ld (a + 8); st (p + 8) n else n ← ld (a + 8); set_area o n);;
      n ← ld (a + 8); when (truthy n) (p ← ld a; st n p);; K) Q s.
Proof.
  intros Hd HQ a p. pose proof (page_addr_aligned k) as Hal. fold a in Hd, HQ, Hal.
  pose proof (dll_neighbours _ _ _ _ _ _ Hd) as [Hp Hn]. simpl in Hp, Hn. fold p in Hp.
  unfold dl_remove in HQ. simpl in HQ. fold p in HQ. set (n := mem s @@ (a + 8)) in *.
  assert (forall y x : Z, y mod PAGE_SIZE_4KB = 0 -> <[y + 8 := x]> (mem s) @@ a = p) as Hpa.
  { intros y x Hy. apply rd_insert_ne. intros Heq. unfold PAGE_SIZE_4KB in *. dlia. }
  apply wp_bind. destruct (truthy p) eqn:Ep.
  - destruct Hp as [Hp|[Hvp Hpk]]; [by apply truthy_true in Ep |].
    apply wp_bind, wp_gets, wp_modify, wp_bind, wp_gets. cbn [mem set_mem]. fold n.
    rewrite rd_insert_ne by lia. fold n. apply wp_bind.
    apply wp_when; intros En; rewrite En in HQ.
    + apply wp_bind, wp_gets, wp_modify. cbn [mem set_mem]. rewrite Hpa by done. 
      by apply (HQ (free_areas s)).
    + by apply (HQ (free_areas s)).
  - apply wp_bind, wp_gets, wp_modify, wp_bind, wp_gets. cbn [mem set_free_areas]. fold n. apply wp_bind.
    apply wp_when; intros En; rewrite En in HQ.
    + apply wp_bind, wp_gets, wp_modify. cbn [mem set_free_areas]. fold p.
      apply (HQ (<[o := n]> (free_areas s))); [apply rd_insert_eq | intros o' Ho'; by rewrite rd_insert_ne].
    + apply (HQ (<[o := n]> (free_areas s))); [apply rd_insert_eq | intros o' Ho'; by rewrite rd_insert_ne].
Qed.

Lemma wp_buddy_list_remove N E B k o (Q : unit -> buddy Pg -> Prop) s :
  buddy_inv N E B s -> k ∉ E -> B !! k = Some (o, true) ->
  (forall s', buddy_inv N E (<[k := (o, false)]> B) s' -> untouched (kept B k) s s' -> Q tt s') ->
  wp (buddy_list_remove (page_addr k) o) Q s.
Proof.
  intros Hinv HkE Hk HQ. destruct (inv_range _ _ _ _ _ _ _ Hinv Hk) as (HkN & Hk30 & Ho & _).
  destruct (bi_lists _ _ _ _ Hinv o Ho) as (ks & Hd & Hks).
  destruct (bi_meta _ _ _ _ Hinv k HkN) as (m & Hm & _ & Hord).
  pose proof (proj2 (Hks k) Hk) as (ks1 & ks2 & ->)%list_elem_of_split.
  pose proof (remove_links _ _ _ _ _ Hd) as Hl. pose proof Hd as Hd1. rewrite fmap_app, fmap_cons in Hd1.
  pose proof (dll_remove _ _ _ _ _ _ Hd1) as Hd'.
  assert (NoDup (ks1 ++ k :: ks2)) as Hnd.
  { destruct Hd as (q & _ & Hnd). by apply NoDup_fmap in Hnd; [| apply _]. }
  apply wp_bind, wp_gets. eapply wp_unlink; [exact Hd1 |]. intros areas' Hareas Hother.
  rewrite meta_index_page by done. eapply wp_upd_meta; [exact Hm |].
  destruct (dl_remove block_node (free_areas s @@ o) (page_addr k) (mem s)) as [h' m'] eqn:Erm. simpl in Hareas, Hl.
  destruct (inv_update N E B k o false m' areas' (Meta (order m) false (is_slab m)) s) as [Hi Hu]; try done.
  - apply (inv_weaken _ E); [apply union_subseteq_r | done].
  - exists (ks1 ++ ks2). split; [by rewrite Hareas, fmap_app |]. intros k'.
    pose proof (Hks k') as Hk'. rewrite elem_of_app in *. rewrite elem_of_cons in Hk'.
    apply NoDup_app in Hnd as (_ & Hd12 & [Hk2 _]%NoDup_cons).
    destruct (decide (k' = k)) as [->|]; [rewrite lookup_insert_eq | rewrite lookup_insert_ne by done; tauto].
    split; [| by intros [=]]. intros [H|H]; [| done]. exfalso. apply (Hd12 k H). by left.
  - intros x Hx. apply Hl. intros k' Hk'%Hks. apply Hx. by right.
  - intros _. by apply (Hord o true).
  - apply (HQ _ Hi Hu).
Qed.
End list_operations.

(** * Lemmas: allocation and release *)

Section untouched.
Context {Pg : Type}.
Implicit Types s : buddy Pg.

Lemma untouched_refl P s : untouched P s s.
Proof. by split. Qed.

Lemma untouched_trans (P Q : Z -> Prop) s1 s2 s3 :
  (forall p, P p -> Q p) -> untouched P s1 s2 -> untouched Q s2 s3 -> untouched P s1 s3.
Proof.
  intros HPQ [H1 H2 H3 H4 H5] [K1 K2 K3 K4 K5]. split; try congruence.
  - intros p x Hp Hx. by rewrite (K1 p x (HPQ p Hp) Hx), (H1 p x).
  - intros p Hp. by rewrite K2, H2 by auto.
Qed.

Lemma kept_eq B B' h h' : delete h (allocated B) = delete h' (allocated B') ->
  forall p, kept B h p -> kept B' h' p.
Proof. unfold kept. by intros ->. Qed.

(** ** Splitting *)

Lemma inv_split N k i B s : buddy_inv N {[k]} B s -> B !! k = Some (i + 1, false) -> 0 <= i ->
  B !! (k + 2 ^ i) = None /\
  buddy_inv N ({[k + 2 ^ i]} ∪ {[k]}) (<[k := (i, false)]> (<[k + 2 ^ i := (i, false)]> B)) s.
Proof.
  intros [Hsz Ht Hl Hm Hc] Hk Hi. assert (2 ^ (i + 1) = 2 * 2 ^ i) as Hpow by (rewrite Z.pow_add_r by lia; lia).
  assert (0 < 2 ^ i) as Hpos by lia.
  assert (B !! (k + 2 ^ i) = None) as Hnone.
  { destruct (B !! (k + 2 ^ i)) as [[o f]|] eqn:E; [| done]. exfalso.
    destruct (t_block _ _ Ht _ _ _ E) as (? & _). assert (0 < 2 ^ o) by lia.
    destruct (t_disj _ _ Ht _ _ _ _ _ _ Hk E); lia. }
  split; [done |]. split; [done | by apply (tiling_split N B Ht k i false) | | |].
  - intros o Ho. destruct (Hl o Ho) as (ks & Hd & Hks). exists ks. split; [done |]. intros k'. rewrite Hks.
    rewrite !lookup_insert. repeat case_decide; subst; rewrite ?Hk, ?Hnone; split; congruence.
  - intros k' Hk'. destruct (Hm k' Hk') as (m & Hmk & Hf & Ho). exists m. split; [done |].
    rewrite !lookup_insert. split.
    + rewrite Hf. repeat case_decide; subst; rewrite ?Hk, ?Hnone; done || (split; intros [? ?]; congruence).
    + intros o f Hlk HE. rewrite elem_of_union, !elem_of_singleton in HE.
      do 2 (rewrite decide_False in Hlk by (intros Heq; apply HE; auto)). apply (Ho o f Hlk).
      rewrite elem_of_singleton. tauto.
  - apply (coalesced_free B); [done |]. intros k' o. rewrite !lookup_insert. by repeat case_decide.
Qed.

Lemma wp_buddy_split N k o n : forall i B s (Q : unit -> buddy Pg -> Prop),
  i = o + Z.of_nat n -> 0 <= o ->
  buddy_inv N {[k]} B s -> B !! k = Some (i, false) ->
  (forall B' s', buddy_inv N {[k]} B' s' -> B' !! k = Some (o, false) ->
     delete k (allocated B') = delete k (allocated B) -> untouched (kept B k) s s' -> Q tt s') ->
  wp (buddy_split n i (page_addr k)) Q s.
Proof.
  induction n as [|n IH]; intros i B s Q Hin Ho Hinv Hk HQ; cbn [buddy_split].
  - apply wp_ret. apply (HQ B s Hinv); [by replace o with i by lia | done | apply untouched_refl].
  - destruct (inv_range _ _ _ _ _ _ _ Hinv Hk) as (_ & Hk30 & Hi & _).
    destruct (t_block _ _ (bi_tiling _ _ _ _ Hinv) _ _ _ Hk) as (_ & _ & Hal & _).
    replace i with (i - 1 + 1) in Hal, Hk by lia.
    destruct (inv_split N k (i - 1) B s Hinv Hk) as [Hnone Hinv1]; [lia |].
    rewrite buddy_of_page, buddy_upper by lia. set (u := k + 2 ^ (i - 1)) in *.
    assert (0 < 2 ^ (i - 1)) by lia. assert (u <> k) by lia.
    apply wp_bind. eapply wp_buddy_list_add; [exact Hinv1 | by rewrite lookup_insert_ne, lookup_insert_eq | |].
    { intros _. assert (buddy_page u (i - 1) = k) as ->; [| by rewrite lookup_insert_eq].
      unfold u. rewrite <- (buddy_upper k) by lia.
      apply buddy_page_invol; [lia |]. apply Z.mod_divide; [lia |]. apply Z.mod_divide in Hal as [c ->]; [| lia].
      exists (c * 2). rewrite Z.pow_add_r by lia. lia. }
    intros s1 Hinv2 Hu1. set (B1 := <[k := (i - 1, false)]> (<[u := (i - 1, false)]> B)) in *.
    assert (delete k (allocated (<[u := (i - 1, true)]> B1)) = delete k (allocated B)) as Ha.
    { unfold B1. rewrite allocated_free, !allocated_busy. apply map_eq. intros x.
      rewrite !lookup_delete, !lookup_insert. repeat case_decide; subst; try done.
      destruct (allocated B !! u) as [o'|] eqn:E; [apply lookup_allocated in E; congruence | done]. }
    assert (forall p, kept B k p -> kept B1 u p) as Hkept.
    { intros p (k1 & o1 & Hk1 & Hne & Hp)%kept_spec. apply kept_spec. exists k1, o1. unfold B1.
      assert (k1 <> u) by congruence. by rewrite !lookup_insert_ne. }
    eapply (IH (i - 1)); [lia | done | exact Hinv2 | rewrite lookup_insert_ne by done; apply lookup_insert_eq |].
    intros B' s' Hinv' Hk' Ha' Hu'. apply (HQ B' s' Hinv' Hk'); [congruence |].
    apply (untouched_trans _ (kept (<[u := (i - 1, true)]> B1) k) _ s1); [by apply kept_eq | | done].
    apply (untouched_trans _ (kept B1 u) _ s); [done | apply untouched_refl | done].
Qed.

(** ** Allocation *)

Lemma first_area_some n i areas j : first_area n i areas = Some j ->
  i <= j < i + Z.of_nat n /\ truthy (areas @@ j) = true /\ forall j', i <= j' < j -> areas @@ j' = 0.
Proof.
  revert i. induction n as [|n IH]; intros i; simpl; [done |].
  destruct (truthy (areas @@ i)) eqn:E.
  - intros [= <-]. split_and!; [lia | lia | done | lia].
  - intros (Hr & Hj & Hlow)%IH. split_and!; [lia | lia | done |]. intros j' Hj'.
    destruct (decide (j' = i)) as [->|]; [by apply truthy_false | apply Hlow; lia].
Qed.

Lemma first_area_none n i areas : first_area n i areas = None ->
  forall j, i <= j < i + Z.of_nat n -> areas @@ j = 0.
Proof.
  revert i. induction n as [|n IH]; intros i; simpl; [lia |].
  destruct (truthy (areas @@ i)) eqn:E; [done |]. intros Hnone j Hj.
  destruct (decide (j = i)) as [->|]; [by apply truthy_false | apply (IH (i + 1)); [done | lia]].
Qed.

(** A list that is not empty starts with a free block. *)
Lemma area_block N E B o s : buddy_inv N E B s -> 0 <= o <= MAX_ORDERS -> free_areas s @@ o <> 0 ->
  exists k, free_areas s @@ o = page_addr k /\ B !! k = Some (o, true).
Proof.
  intros Hinv Ho Hne. destruct (bi_lists _ _ _ _ Hinv o Ho) as (ks & Hd & Hks).
  pose proof (dll_head _ _ _ _ Hd) as Hh. destruct ks as [|k ks]; [done |].
  exists k. split; [done | apply Hks; by left].
Qed.

Lemma area_nonempty N E B k o s : buddy_inv N E B s -> B !! k = Some (o, true) -> free_areas s @@ o <> 0.
Proof.
  intros Hinv Hk. destruct (inv_range _ _ _ _ _ _ _ Hinv Hk) as (_ & _ & Ho & _).
  destruct (bi_lists _ _ _ _ Hinv o Ho) as (ks & Hd & Hks). apply truthy_true.
  rewrite (dll_truthy _ _ _ _ Hd), bool_decide_false; [done |]. intros Hnil%fmap_nil_inv. subst ks.
  by apply Hks, elem_of_nil in Hk.
Qed.

Lemma wp_buddy_take N B i o s :
  buddy_inv N ∅ B s -> 0 <= o <= i -> i <= MAX_ORDERS -> free_areas s @@ i <> 0 ->
  wp (buddy_take i o) (fun r s' => alloc_post N B o r s s') s.
Proof.
  intros Hinv Ho Hi Hne. destruct (area_block _ _ _ i _ Hinv) as (k & Hk & Hb); [lia | done |].
  apply wp_bind, wp_gets. rewrite Hk. apply wp_bind.
  eapply (wp_buddy_list_remove _ ∅); [exact Hinv | apply not_elem_of_empty | exact Hb |].
  intros s1 Hinv1 Hu1. set (B1 := <[k := (i, false)]> B) in *. apply wp_bind.
  apply (wp_buddy_split N k o (Z.to_nat (i - o)) i B1); [lia | lia | | apply lookup_insert_eq |].
  { by apply (inv_weaken _ ∅); [apply empty_subseteq |]. }
  intros B' s2 [Hsz Ht Hl Hm Hc] Hk' Ha Hu2.
  destruct (t_block _ _ Ht _ _ _ Hk') as (_ & Hk0 & _ & Hend). assert (0 < 2 ^ o) by lia.
  destruct (Hm k) as (m & Hmk & Hf & _); [lia |].
  rewrite meta_index_page by lia. apply wp_bind. eapply wp_upd_meta; [exact Hmk |]. apply wp_ret.
  rewrite (Z.mod_small o 16) by (unfold MAX_ORDERS in *; lia). exists k, B'.
  assert (allocated B !! k = None) as Hnone.
  { destruct (allocated B !! k) eqn:E; [apply lookup_allocated in E; congruence | done]. }
  unfold B1 in Ha. rewrite allocated_busy, delete_insert_id in Ha by done. split_and!; [done | | done | | apply lookup_insert_eq |].
  - split; [done | done | done | | done]. intros k' Hk1. unfold meta_ok. simpl.
    destruct (decide (k' = k)) as [->|Hkk].
    + exists (Meta o false false). rewrite lookup_insert_eq. split_and!; [done | | by intros o' f' E _; simpl; congruence].
      split; [done | intros [? ?]; congruence].
    + rewrite lookup_insert_ne by done. destruct (Hm k' Hk1) as (m' & ? & ? & Ho').
      exists m'. split_and!; [done.. |]. intros o' f' E _. apply (Ho' o' f' E). by rewrite elem_of_singleton.
  - rewrite <- Ha, insert_delete_id; [done | by apply lookup_allocated].
  - apply (untouched_trans _ (kept B1 k) _ s1).
    + apply kept_eq. unfold B1. by rewrite allocated_busy, delete_insert_id, delete_id.
    + done.
    + destruct Hu2 as [? Hm2 ? ? ?]. split; try done. simpl. intros p Hp. 
      apply kept_spec in Hp as Hp'. destruct Hp' as (k1 & o1 & Hk1 & Hne1 & Hin).
      rewrite lookup_insert_ne; [by apply Hm2 |]. intros <-.
      assert (0 < 2 ^ i) by (apply Z.pow_pos_nonneg; lia).
      assert (allocated B' !! k1 = Some o1) as Hk1'%lookup_allocated.
      { apply lookup_allocated in Hk1. unfold B1 in Hk1. rewrite allocated_busy, lookup_insert_ne in Hk1 by done.
        rewrite <- Ha in Hk1. by apply lookup_delete_Some in Hk1 as [_ ?]. }
      destruct (t_disj _ _ Ht _ _ _ _ _ _ Hk' Hk1' (not_eq_sym Hne1)); lia.
Qed.

Lemma wp_buddy_alloc `{!HeapSource Pg} N B fuel o s :
  buddy_inv N ∅ B s -> 0 <= o -> (exists k i, B !! k = Some (i, true) /\ o <= i) ->
  wp (buddy_alloc (S fuel) o) (fun r s' => alloc_post N B o r s s') s.
Proof.
  intros Hinv Ho (k & i & Hk & Hi). cbn [buddy_alloc]. apply wp_bind, wp_gets.
  destruct (inv_range _ _ _ _ _ _ _ Hinv Hk) as (_ & _ & Hi' & _).
  pose proof (area_nonempty _ _ _ _ _ _ Hinv Hk) as Hne.
  destruct (first_area _ _ _) as [j|] eqn:E.
  - apply first_area_some in E as (Hj & Ht & _). apply truthy_true in Ht. apply wp_buddy_take; [done | lia | lia | done].
  - exfalso. apply Hne. apply (first_area_none _ _ _ E). lia.
Qed.

(** ** Release *)

(** A block of order below the maximum and its buddy are the halves of an
    aligned block of the heap. *)
Lemma buddy_halves N k i : 0 <= i < MAX_ORDERS -> 0 <= k < N -> k mod 2 ^ i = 0 -> N mod 2 ^ MAX_ORDERS = 0 ->
  let lo := Z.min k (buddy_page k i) in
  Z.max k (buddy_page k i) = lo + 2 ^ i /\ lo mod 2 ^ (i + 1) = 0 /\ 0 <= lo /\ lo + 2 ^ (i + 1) <= N /\
  buddy_page k i <> k.
Proof.
  intros Hi Hk [c Hc]%Z.mod_divide [n Hn]%Z.mod_divide; [| lia..]. unfold buddy_page, MAX_ORDERS in *.
  assert (0 < 2 ^ i) as Hpos by lia. subst k. rewrite Z.div_mul by lia.
  replace 12 with (i + 1 + (11 - i)) in Hn by lia. rewrite Z.pow_add_r in Hn by lia.
  assert (2 ^ (i + 1) = 2 * 2 ^ i) as Hpow by (rewrite Z.pow_add_r by lia; lia).
  set (d := c / 2). pose proof (Z.div_mod c 2 ltac:(lia)) as Hd. fold d in Hd.
  assert (0 <= d) by (apply Z.div_pos; nia). rewrite Zmod_odd in Hd.
  set (lo := d * 2 ^ (i + 1)).
  assert (lo mod 2 ^ (i + 1) = 0 /\ 0 <= lo /\ lo + 2 ^ (i + 1) <= N) as (H1 & H2 & H3).
  { split; [apply Z.mod_mul; lia | split; [unfold lo; nia |]].
    assert (d < n * 2 ^ (11 - i)); [| unfold lo; nia].
    apply (Z.mul_lt_mono_pos_r (2 ^ (i + 1))); [lia |]. destruct (Z.odd c); nia. }
  clearbody d. destruct (Z.odd c).
  - assert (c * 2 ^ i = lo + 2 ^ i) as Hc by (unfold lo; rewrite Hpow, Hd; ring). clearbody lo.
    rewrite Z.min_r, Z.max_l by lia. replace (c * 2 ^ i - 2 ^ i) with lo by lia. split_and!; done || lia.
  - assert (c * 2 ^ i = lo) as Hc by (unfold lo; rewrite Hpow, Hd; ring). clearbody lo.
    rewrite Z.min_l, Z.max_r, Hc by lia. split_and!; done || lia.
Qed.

Lemma inv_merge N lo i B s (E : gset Z) : E ⊆ {[lo]} ∪ {[lo + 2 ^ i]} ->
  buddy_inv N E B s -> B !! lo = Some (i, false) -> B !! (lo + 2 ^ i) = Some (i, false) ->
  lo mod 2 ^ (i + 1) = 0 -> i < MAX_ORDERS ->
  buddy_inv N {[lo]} (<[lo := (i + 1, false)]> (delete (lo + 2 ^ i) B)) s.
Proof.
  intros HE [Hsz Ht Hl Hm Hc] H1 H2 Hal Hi. split; [done | by apply (tiling_merge N B Ht lo i false false false) | | |].
  - intros o Ho. destruct (Hl o Ho) as (ks & Hd & Hks). exists ks. split; [done |]. intros k. rewrite Hks.
    rewrite lookup_insert, lookup_delete. repeat case_decide; subst; rewrite ?H1, ?H2; split; congruence.
  - intros k Hk. destruct (Hm k Hk) as (m & Hmk & Hf & Ho). exists m. split; [done |].
    rewrite lookup_insert, lookup_delete. split.
    + rewrite Hf. repeat case_decide; subst; rewrite ?H1, ?H2; done || (split; intros [? ?]; congruence).
    + intros o f Hlk Hne. rewrite elem_of_singleton in Hne. rewrite decide_False in Hlk by congruence.
      case_decide; [done |]. apply (Ho o f Hlk). intros Hin%HE.
      rewrite elem_of_union, !elem_of_singleton in Hin. intuition congruence.
  - apply (coalesced_free B); [done |]. intros k o. rewrite lookup_insert, lookup_delete. by repeat case_decide.
Qed.

Lemma wp_get_meta k m (Q : page_metadata -> buddy Pg -> Prop) s :
  metadata s !! k = Some m -> Q m s -> wp (get_meta k) Q s.
Proof. intros Hm HQ. apply wp_bind, wp_gets. by rewrite Hm. Qed.

Lemma wp_buddy_merge N n : forall i k B s (Q : Z * Z -> buddy Pg -> Prop),
  i = MAX_ORDERS - Z.of_nat n ->
  buddy_inv N {[k]} B s -> B !! k = Some (i, false) ->
  (forall k' i' B' s', buddy_inv N {[k']} B' s' -> B' !! k' = Some (i', false) ->
     (i' < MAX_ORDERS -> B' !! buddy_page k' i' <> Some (i', true)) ->
     delete k' (allocated B') = delete k (allocated B) -> untouched (kept B k) s s' ->
     Q (i', page_addr k') s') ->
  wp (buddy_merge n i (page_addr k)) Q s.
Proof.
  induction n as [|n IH]; intros i k B s Q Hin Hinv Hk HQ; cbn [buddy_merge].
  { apply wp_ret. apply (HQ k i B s); [done | done | lia | done | apply untouched_refl]. }
  destruct (inv_range _ _ _ _ _ _ _ Hinv Hk) as (HkN & Hk30 & Hi & Hpos).
  destruct (t_block _ _ (bi_tiling _ _ _ _ Hinv) _ _ _ Hk) as (_ & _ & Hal & _).
  pose proof (bi_size _ _ _ _ Hinv) as [HN HNal].
  destruct (buddy_halves N k i) as (Hhi & Hlo & Hlo0 & Hend & Hbk); [lia | done.. |].
  rewrite buddy_of_page by lia. set (b := buddy_page k i) in *. set (lo := Z.min k b) in *.
  assert (2 ^ (i + 1) = 2 * 2 ^ i) as Hpow by (rewrite Z.pow_add_r by lia; lia).
  assert (0 <= b < N) as Hb by lia.
  destruct (bi_meta _ _ _ _ Hinv b Hb) as (m & Hm & Hf & Hord).
  rewrite meta_index_page by lia. apply wp_bind. eapply wp_get_meta; [exact Hm |].
  destruct (is_free m && (order m =? i)) eqn:E.
  2: { apply wp_ret. apply (HQ k i B s); [done | done | | done | apply untouched_refl]. fold b. intros _ Hbi.
       assert (is_free m = true) as Hfm by (apply Hf; by exists i).
       rewrite Hfm, (Hord i true Hbi), Z.eqb_refl in E; [done | by rewrite elem_of_singleton]. }
  apply andb_true_iff in E as [Efree Eord%Z.eqb_eq]. apply Hf in Efree as [o Hbo].
  assert (b ∉ ({[k]} : gset Z)) as Hbk' by (by rewrite elem_of_singleton).
  rewrite (Hord o true Hbo Hbk') in Eord. subst o.
  apply wp_bind. eapply wp_buddy_list_remove; [exact Hinv | done | exact Hbo |].
  intros s1 Hinv1 Hu1. set (B1 := <[b := (i, false)]> B) in *.
  assert (B1 !! k = Some (i, false) /\ B1 !! b = Some (i, false)) as [Hk1 Hb1].
  { unfold B1. by rewrite lookup_insert_eq, lookup_insert_ne. }
  replace (if page_addr b <? page_addr k then page_addr b else page_addr k) with (page_addr lo).
  2: { unfold lo, page_addr, PAGE_SIZE_4KB. destruct (Z.ltb_spec (HEAP_START + b * 0x1000) (HEAP_START + k * 0x1000)); f_equal; lia. }
  assert (buddy_inv N {[lo]} (<[lo := (i + 1, false)]> (delete (lo + 2 ^ i) B1)) s1) as Hinv2.
  { apply (inv_merge N lo i B1 s1 {[k]}); [| done | | | done | lia].
    - intros x ->%elem_of_singleton. rewrite elem_of_union, !elem_of_singleton. lia.
    - unfold lo. by destruct (Z.min_spec k b) as [[_ ->]|[_ ->]].
    - rewrite <- Hhi. by destruct (Z.max_spec k b) as [[_ ->]|[_ ->]]. }
  assert (delete lo (allocated (<[lo := (i + 1, false)]> (delete (lo + 2 ^ i) B1))) = delete k (allocated B)) as Ha.
  { unfold B1. rewrite allocated_busy, allocated_delete, allocated_busy. apply map_eq. intros x.
    assert (allocated B !! b = None) as Hnone.
    { destruct (allocated B !! b) eqn:E; [apply lookup_allocated in E; congruence | done]. }
    assert (x = k \/ x = b \/ (x <> k /\ x <> b /\ x <> lo /\ x <> lo + 2 ^ i)) as [->|[->|(? & ? & ? & ?)]] by lia.
    - rewrite lookup_delete_eq. rewrite lookup_delete, lookup_insert, lookup_delete. repeat case_decide; try done. lia.
    - rewrite (lookup_delete_ne _ k) by done. rewrite Hnone.
      rewrite lookup_delete, lookup_insert, lookup_delete. repeat case_decide; try done. lia.
    - by rewrite lookup_delete_ne, lookup_insert_ne, lookup_delete_ne, lookup_insert_ne, lookup_delete_ne. }
  eapply IH; [lia | exact Hinv2 | apply lookup_insert_eq |].
  intros k' i' B' s' Hinv' Hk' Hb' Ha' Hu'. apply (HQ k' i' B' s' Hinv' Hk' Hb'); [congruence |].
  apply (untouched_trans _ (kept (<[lo := (i + 1, false)]> (delete (lo + 2 ^ i) B1)) lo) _ s1); [by apply kept_eq | | done].
  apply (untouched_trans _ (kept B b) _ s); [| apply untouched_refl | done].
  intros p (k1 & o1 & Hk1' & Hne1 & Hp)%kept_spec. apply kept_spec. exists k1, o1. split_and!; [done | congruence | lia | lia].
Qed.

Lemma wp_buddy_free N B k o s : buddy_inv N ∅ B s -> allocated B !! k = Some o ->
  wp (buddy_free (page_addr k)) (fun _ s' => free_post N B k s s') s.
Proof.
  intros Hinv Hk%lookup_allocated. destruct (inv_range _ _ _ _ _ _ _ Hinv Hk) as (HkN & Hk30 & Ho & _).
  destruct (bi_meta _ _ _ _ Hinv k HkN) as (m & Hm & _ & Hord).
  assert (o = order m) as -> by (symmetry; by apply (Hord o false Hk), not_elem_of_empty).
  unfold buddy_free. rewrite meta_index_page by done. apply wp_bind. eapply wp_get_meta; [exact Hm |].
  apply wp_bind. eapply wp_buddy_merge; [lia | by apply (inv_weaken _ ∅); [apply empty_subseteq | exact Hinv] | exact Hk |].
  intros k' i' B' s1 Hinv1 Hk' Hb' Ha Hu. cbn [fst snd].
  eapply (wp_buddy_list_add _ ∅); [by rewrite union_empty_r_L | exact Hk' | exact Hb' |].
  intros s' Hinv' Hu'. eexists. split_and!; [exact Hinv' | by rewrite allocated_free |].
  apply (untouched_trans _ (kept B' k') _ s1); [by apply kept_eq | done..].
Qed.

(** ** The heap when nothing is allocated *)

(** A block of the next order that meets a half block contains both halves. *)
Lemma contains_half k1 o1 lo o : 0 <= o < o1 -> k1 mod 2 ^ o1 = 0 -> lo mod 2 ^ (o + 1) = 0 ->
  (exists p, k1 <= p < k1 + 2 ^ o1 /\ lo <= p < lo + 2 ^ (o + 1)) ->
  k1 <= lo /\ lo + 2 ^ (o + 1) <= k1 + 2 ^ o1.
Proof.
  intros Ho [c1 ->]%Z.mod_divide [c ->]%Z.mod_divide (p & H1 & H2); [| lia..].
  assert (2 ^ o1 = 2 ^ (o + 1) * 2 ^ (o1 - o - 1)) as E.
  { rewrite <- Z.pow_add_r by lia. by replace (o + 1 + (o1 - o - 1)) with o1 by lia. }
  rewrite E in *. clear E. assert (0 < 2 ^ (o + 1)) as Hx by lia. assert (0 < 2 ^ (o1 - o - 1)) as Hy by lia.
  revert H1 H2 Hx Hy. generalize (2 ^ (o + 1)) as x, (2 ^ (o1 - o - 1)) as y. intros x y H1 H2 Hx Hy.
  assert (c1 * y <= c < c1 * y + y); nia.
Qed.

Lemma aligned_eq x a b : 0 < x -> a mod x = 0 -> b mod x = 0 -> a <= b < a + x -> a = b.
Proof.
  intros Hx [c ->]%Z.mod_divide [d ->]%Z.mod_divide Hab; [| lia..].
  assert (c = d) by (clear -Hx Hab; nia). by subst.
Qed.

Lemma no_small_free N E B s : buddy_inv N E B s -> allocated B = ∅ ->
  forall n k o, o = Z.of_nat n -> B !! k = Some (o, true) -> o < MAX_ORDERS -> False.
Proof.
  intros [[HN HNal] Ht _ _ Hc] Hall. assert (forall k o f, B !! k = Some (o, f) -> f = true) as Hfree.
  { intros k o [|] Hk; [done |]. apply lookup_allocated in Hk. by rewrite Hall, lookup_empty in Hk. }
  induction n as [n IH] using lt_wf_ind. intros k o Hn Hk Ho.
  destruct (t_block _ _ Ht _ _ _ Hk) as (Hr & Hk0 & Hal & Hend). assert (0 < 2 ^ o) by lia.
  destruct (buddy_halves N k o) as (Hhi & Hlo & Hlo0 & Hend' & Hne); [lia | lia | done.. |].
  set (b := buddy_page k o) in *. set (lo := Z.min k b) in *.
  assert (2 ^ (o + 1) = 2 * 2 ^ o) as Hpow by (rewrite Z.pow_add_r by lia; lia).
  destruct (t_cover _ _ Ht b) as (k1 & o1 & f1 & Hk1 & Hin); [lia |].
  rewrite (Hfree _ _ _ Hk1) in Hk1. destruct (t_block _ _ Ht _ _ _ Hk1) as (Hr1 & _ & Hal1 & _).
  assert (k1 <> k) as Hkk by (intros ->; assert (o1 = o) as -> by congruence; lia).
  destruct (Z.lt_total o1 o) as [Hlt|[->|Hgt]].
  - apply (IH (Z.to_nat o1) ltac:(lia) k1 o1); [lia | done | lia].
  - apply (Hc k o Hk Ho). fold b. assert (k1 = b) as ->; [| done].
    assert (b mod 2 ^ o = 0) as Hb.
    { apply Z.mod_divide in Hlo as [c Hc']; [| lia]. apply Z.mod_divide; [lia |].
      destruct (Z.min_spec k b) as [[? E']|[? E']]; fold lo in E'; [exists (2 * c + 1) | exists (2 * c)]; lia. }
    by apply (aligned_eq (2 ^ o)).
  - destruct (contains_half k1 o1 lo o) as [? ?]; [lia | done | done | exists b; lia |].
    destruct (t_disj _ _ Ht _ _ _ _ _ _ Hk1 Hk Hkk); lia.
Qed.
End untouched.

(** A block that is newly allocated in [B'] does not meet the others. *)
Lemma new_block {Pg} N B' k o (s : buddy Pg) A : buddy_inv N ∅ B' s -> A !! k = None -> allocated B' = <[k := o]> A ->
  k mod 2 ^ o = 0 /\ 0 <= k /\ k + 2 ^ o <= N /\
  forall k' o', A !! k' = Some o' -> k + 2 ^ o <= k' \/ k' + 2 ^ o' <= k.
Proof.
  intros Hinv Hnone Ha. pose proof (bi_tiling _ _ _ _ Hinv) as Ht.
  assert (B' !! k = Some (o, false)) as Hk by (apply lookup_allocated; rewrite Ha; apply lookup_insert_eq).
  destruct (t_block _ _ Ht _ _ _ Hk) as (_ & ? & ? & ?). split_and!; [done.. |]. intros k' o' Hk'.
  assert (k' <> k) as Hne by congruence.
  assert (B' !! k' = Some (o', false)) as Hb' by (apply lookup_allocated; by rewrite Ha, lookup_insert_ne).
  destruct (t_disj _ _ Ht _ _ _ _ _ _ Hk Hb' (not_eq_sym Hne)); auto.
Qed.

(** ** Initialisation and growth *)

Section growth.
Context {Pg : Type} `{Hs : HeapSource Pg} `{Hl : !HeapSourceLaws Pg}.
Implicit Types s : buddy Pg.

(** One block over the whole heap. *)
Definition whole_heap : blocks := {[0 := (MAX_ORDERS, true)]}.

Lemma wp_map_run n r (base va f : Z) (Q : unit -> buddy Pg -> Prop) s :
  hs_ok r (b_pages s) -> 3 * Z.of_nat n <= r ->
  (forall p, hs_ok (r - 3 * Z.of_nat n) p -> Q tt (set_b_pages p s)) ->
  wp (for_loop n 0 (fun i => zoom l_b_pages (hs_map_page (u64 (base + i * PAGE_SIZE_4KB))
    (u64 (va + i * PAGE_SIZE_4KB)) f))) Q s.
Proof.
  intros Hok Hr HQ. eapply wp_mono.
  - apply (wp_for n (fun i s' => exists p, s' = set_b_pages p s /\ hs_ok (r - 3 * i) p)).
    + exists (b_pages s). split; [by destruct s | by rewrite Z.mul_0_r, Z.sub_0_r].
    + intros i s' Hi (p & -> & Hp). apply wp_zoom. simpl. eapply wp_mono.
      * apply (wp_hs_map_page (r - 3 * i)); [done | lia].
      * intros [] p' Hp'. exists p'. split; [done |]. by replace (r - 3 * (i + 1)) with (r - 3 * i - 3) by lia.
  - intros [] s' (p & -> & Hp). by apply HQ.
Qed.

Lemma whole_heap_tiling : tiling START_PAGES whole_heap.
Proof.
  unfold whole_heap. split.
  - intros k o f [<- [= <- <-]]%lookup_singleton_Some. done.
  - intros k o f k' o' f' [<- _]%lookup_singleton_Some [<- _]%lookup_singleton_Some. done.
  - intros p Hp. exists 0, MAX_ORDERS, true. rewrite lookup_singleton_eq. split; [done |].
    unfold START_PAGES, MAX_ORDERS in *. lia.
Qed.

Lemma wp_init_buddy r s : hs_ok r (b_pages s) -> 4 <= r ->
  wp init_buddy (fun _ s' => buddy_inv START_PAGES ∅ whole_heap s' /\ hs_ok (r - 4) (b_pages s') /\
    current_heap_end s' = page_addr START_PAGES) s.
Proof.
  intros Hok Hr. unfold init_buddy. change meta_pages_needed with 1.
  apply wp_bind, wp_zoom. eapply wp_mono; [apply (wp_hs_alloc_pages r 1); [done | lia] |].
  intros pages p Hp. apply wp_bind. apply (wp_map_run (Z.to_nat 1) (r - 1)); [done | lia |]. intros p' Hp'.
  apply wp_bind, wp_modify, wp_bind, wp_modify, wp_bind.
  eapply wp_mono; [apply (wp_for _ (fun i s' => exists fa, s' = set_metadata_size START_PAGES
      (set_current_heap_end (HEAP_START + START_PAGES * PAGE_SIZE_4KB) (set_b_pages p' (set_free_areas fa s))) /\
      forall j, 0 <= j < i -> fa @@ j = 0)) |].
  { exists (free_areas s). split; [by destruct s | lia]. }
  { intros i s' Hi (fa & -> & Hfa). apply wp_modify. exists (<[i := 0]> fa). split; [done |]. intros j Hj.
    rewrite rd_insert. case_decide; [done | apply Hfa; lia]. }
  intros [] s1 (fa & -> & Hfa). apply wp_bind.
  eapply wp_mono; [apply (wp_for _ (fun i s' => exists md, s' = set_metadata md (set_metadata_size START_PAGES
      (set_current_heap_end (HEAP_START + START_PAGES * PAGE_SIZE_4KB) (set_b_pages p' (set_free_areas fa s)))) /\
      forall j, 0 <= j < i -> md !! j = Some (Meta 0 false false))) |].
  { exists (metadata s). split; [by destruct s | lia]. }
  { intros i s' Hi (md & -> & Hmd). apply wp_modify. exists (<[i := Meta 0 false false]> md). split; [done |]. intros j Hj.
    rewrite lookup_insert. case_decide; [done | apply Hmd; lia]. }
  intros [] s2 (md & -> & Hmd). change HEAP_START with (page_addr 0) at 1.
  change (0 + Z.of_nat (Z.to_nat START_PAGES)) with START_PAGES in Hmd.
  change (0 + Z.of_nat (Z.to_nat (MAX_ORDERS + 1))) with (MAX_ORDERS + 1) in Hfa.
  apply (wp_buddy_list_add START_PAGES ∅ {[0 := (MAX_ORDERS, false)]}).
  - split; [done | | | |].
    + replace ({[0 := (MAX_ORDERS, false)]} : blocks) with (<[0 := (MAX_ORDERS, false)]> whole_heap) by (by vm_compute).
      apply (tiling_flag _ _ whole_heap_tiling _ _ true). apply lookup_singleton_eq.
    + intros o Ho. exists []. split; [exists 0; split; [| by apply NoDup_nil_2] |].
      * simpl. rewrite Hfa by lia. done.
      * intros k. rewrite elem_of_nil, lookup_singleton_Some. split; [done | by intros [_ [=]]].
    + intros k Hk. exists (Meta 0 false false). simpl. rewrite Hmd by lia. split_and!; [done | |].
      * split; [done |]. by intros [o [_ [=]]%lookup_singleton_Some].
      * intros o f [<- _]%lookup_singleton_Some []. apply elem_of_union_l. by apply elem_of_singleton.
    + by intros k o [_ [=]]%lookup_singleton_Some.
  - apply lookup_singleton_eq.
  - done.
  - intros s' Hinv Hu. split_and!.
    + by replace whole_heap with (<[0 := (MAX_ORDERS, true)]> {[0 := (MAX_ORDERS, false)]} : blocks) by (by vm_compute).
    + rewrite (ut_pages _ _ _ Hu). simpl. by replace (r - 4) with (r - 1 - 3 * Z.of_nat (Z.to_nat 1)) by lia.
    + by rewrite (ut_end _ _ _ Hu).
Qed.

Lemma buddy_alloc_too_large o : MAX_ORDERS < o ->
  forall fuel s r s', buddy_alloc fuel o s <> Ok (r, s').
Proof.
  intros Ho. induction fuel as [|fuel IH]; intros s r s'; [done |]. cbn [buddy_alloc].
  unfold mbind, M_bind, gets. replace (Z.to_nat (MAX_ORDERS + 1 - o)) with O by lia. simpl.
  destruct (buddy_grow s) as [[[] s1]|e]; [apply IH | done].
Qed.

(** A list operation that is only followed in part: the new head. *)
Lemma wp_list_add_head a o x (Q : unit -> buddy Pg -> Prop) s :
  metadata s !! meta_index a = Some x ->
  (forall s', free_areas s' @@ o = a -> b_pages s' = b_pages s -> current_heap_end s' = current_heap_end s -> Q tt s') ->
  wp (buddy_list_add a o) Q s.
Proof.
  intros Hx HQ. apply wp_bind, wp_modify, wp_bind, wp_gets, wp_bind, wp_modify, wp_bind, wp_gets, wp_bind.
  apply wp_when; intros _; [apply wp_modify |]; apply wp_bind, wp_modify; (eapply wp_upd_meta; [exact Hx |]);
    apply HQ; simpl; done || apply rd_insert_eq.
Qed.

(** The cost of one growth: two runs of pages and their mappings. *)
Definition grow_cost : Z := 1 + 3 + START_PAGES + 3 * START_PAGES.

Lemma wp_buddy_grow r N s : hs_ok r (b_pages s) -> grow_cost <= r ->
  current_heap_end s = page_addr N -> 0 <= N <= 2 ^ 29 ->
  wp buddy_grow (fun _ s' => free_areas s' @@ MAX_ORDERS = page_addr N /\
    current_heap_end s' = page_addr (N + 1) /\ hs_ok (r - grow_cost) (b_pages s')) s.
Proof.
  unfold grow_cost, START_PAGES. intros Hok Hr He HN. unfold buddy_grow. change meta_pages_needed with 1.
  apply wp_bind, wp_zoom. eapply wp_mono; [apply (wp_hs_alloc_pages r 1); [done | lia] |].
  intros pages p Hp. apply wp_bind, wp_gets, wp_bind. apply (wp_map_run (Z.to_nat 1) (r - 1)); [done | lia |].
  intros p1 Hp1. apply wp_bind, wp_modify, wp_bind, wp_zoom.
  eapply wp_mono; [apply (wp_hs_alloc_pages (r - 4) START_PAGES); [simpl in Hp1; by replace (r - 4) with (r - 1 - 3) by lia | unfold START_PAGES; lia] |].
  intros pages' p2 Hp2. apply wp_bind, wp_gets. simpl. rewrite He.
  apply wp_bind. eapply wp_mono; [apply (wp_for _ (fun i s' => hs_ok (r - 4 - START_PAGES - 3 * i) (b_pages s') /\
      current_heap_end s' = page_addr N /\ (0 < i -> exists x, metadata s' !! N = Some x))) |].
  { simpl. rewrite He, Z.sub_0_r. split_and!; [done | done | lia]. }
  { intros i s' Hi (Hi1 & Hi2 & Hi3). apply wp_bind, wp_zoom. eapply wp_mono.
    - apply (wp_hs_map_page (r - 4 - START_PAGES - 3 * i)); [done | unfold START_PAGES in *; lia].
    - intros [] p3 Hp3. apply wp_modify. split_and!; [| done |].
      + by replace (r - 4 - START_PAGES - 3 * (i + 1)) with (r - 4 - START_PAGES - 3 * i - 3) by lia.
      + intros _. simpl. destruct (decide (i = 0)) as [->|Hi0].
        * exists (Meta MAX_ORDERS false false).
          replace (u64 (page_addr N + 0 * PAGE_SIZE_4KB - HEAP_START) / PAGE_SIZE_4KB) with N; [apply lookup_insert_eq |].
          unfold page_addr, PAGE_SIZE_4KB. rewrite u64_small by (unfold HEAP_START; lia). dlia.
        * destruct Hi3 as [x Hx]; [lia |]. rewrite lookup_insert. case_decide; eauto. }
  intros [] s' (H1 & H2 & H3). destruct H3 as [x Hx]; [unfold START_PAGES; lia |]. apply wp_bind.
  eapply wp_list_add_head; [rewrite meta_index_page by lia; exact Hx |].
  intros s2 Hf Hb Hc. apply wp_modify. simpl. split_and!; [done | | ].
  - rewrite Hc, H2. unfold page_addr, PAGE_SIZE_4KB, START_PAGES. rewrite u64_small by (unfold HEAP_START; lia). lia.
  - rewrite Hb. unfold START_PAGES in H1.
    by replace (r - (1 + 3 + 4096 + 3 * 4096)) with (r - 4 - 4096 - 3 * (0 + Z.of_nat (Z.to_nat 4096))) by lia.
Qed.
End growth.

(** * Properties *)

Section properties.
Context {Pg : Type} `{Hs : HeapSource Pg}.
Implicit Types s : buddy Pg.

(** C2: [buddy_alloc]. While some free block is large enough, it returns, at the
    first attempt, a block of the order asked for that was not allocated, is
    aligned to its size, lies in the heap and meets no allocated block; the
    contents and metadata of the allocated blocks do not change, and the
    invariant (tiling of the heap, free lists, metadata) is kept. *)
Theorem buddy_alloc_spec N B fuel o s :
  buddy_inv N ∅ B s -> 0 <= o -> (exists k i, B !! k = Some (i, true) /\ o <= i) ->
  wp (buddy_alloc (S fuel) o) (fun r s' => alloc_post N B o r s s' /\
    exists k, r = page_addr k /\ k mod 2 ^ o = 0 /\ 0 <= k /\ k + 2 ^ o <= N /\
      forall k' o', allocated B !! k' = Some o' -> k + 2 ^ o <= k' \/ k' + 2 ^ o' <= k) s.
Proof.
  intros Hinv Ho Hfree. eapply wp_mono; [by apply wp_buddy_alloc |]. intros r s' Hpost. split; [done |].
  destruct Hpost as (k & B' & Hr & Hinv' & Hnone & Ha & _). exists k.
  destruct (new_block N B' k o s') with (A := allocated B) as (? & ? & ? & ?); [done.. |]. by split_and!.
Qed.

(** C3: [buddy_free] of an allocated block: exactly that block stops being
    allocated, the contents and metadata of the others do not change, and the
    invariant is kept: in particular the block has been merged with its free
    buddies as far as possible. *)
Theorem buddy_free_spec N B k o s : buddy_inv N ∅ B s -> allocated B !! k = Some o ->
  wp (buddy_free (page_addr k)) (fun _ s' => free_post N B k s s') s.
Proof. apply wp_buddy_free. Qed.

(** Nothing is lost to fragmentation: when every block has been freed, in
    whatever order, the heap consists of free blocks of the largest order. *)
Theorem buddy_all_free N B s : buddy_inv N ∅ B s -> allocated B = ∅ ->
  forall k o f, B !! k = Some (o, f) -> o = MAX_ORDERS /\ f = true.
Proof.
  intros Hinv Hall k o f Hk. assert (f = true) as ->.
  { destruct f; [done |]. apply lookup_allocated in Hk. by rewrite Hall, lookup_empty in Hk. }
  destruct (inv_range _ _ _ _ _ _ _ Hinv Hk) as (_ & _ & Ho & _). split; [| done].
  destruct (Z.eq_dec o MAX_ORDERS); [done |]. exfalso.
  apply (no_small_free _ _ _ _ Hinv Hall (Z.to_nat o) k o); [lia | done | lia].
Qed.

(** A request above the largest order never returns: the loop does not run,
    the heap grows, and the function calls itself with the same order. *)
Theorem buddy_alloc_diverges o : MAX_ORDERS < o ->
  forall fuel s r s', buddy_alloc fuel o s <> Ok (r, s').
Proof. apply buddy_alloc_too_large. Qed.

Context `{Hl : !HeapSourceLaws Pg}.

(** [init_buddy] establishes the invariant: one free block over the whole
    heap of 4096 pages. *)
Theorem init_buddy_spec r s : hs_ok r (b_pages s) -> 4 <= r ->
  wp init_buddy (fun _ s' => buddy_inv START_PAGES ∅ whole_heap s' /\
    hs_ok (r - 4) (b_pages s') /\ current_heap_end s' = page_addr START_PAGES) s.
Proof. apply wp_init_buddy. Qed.

(** [current_heap_end += START_PAGES] adds pages to an address: after two
    growths the two new blocks, of 4096 pages each, start one page apart. *)
Theorem buddy_grow_overlap r N s : hs_ok r (b_pages s) -> 2 * grow_cost <= r ->
  current_heap_end s = page_addr N -> 0 <= N <= 2 ^ 28 ->
  wp (buddy_grow;; a ← get_area MAX_ORDERS; buddy_grow;; b ← get_area MAX_ORDERS; mret (a, b))
    (fun ab _ => ab = (page_addr N, page_addr (N + 1))) s.
Proof.
  intros Hok Hr He HN. apply wp_bind. eapply wp_mono; [apply (wp_buddy_grow r N); unfold grow_cost, START_PAGES in *; done || lia |].
  intros [] s1 (Hf1 & He1 & Hok1). apply wp_bind, wp_gets, wp_bind.
  eapply wp_mono; [apply (wp_buddy_grow (r - grow_cost) (N + 1)); unfold grow_cost, START_PAGES in *; done || lia |].
  intros [] s2 (Hf2 & _). apply wp_bind, wp_gets, wp_ret. by rewrite Hf1, Hf2.
Qed.
End properties.

(** * Witnesses *)

(** A source of memory that hands out pages in ascending order. *)
#[local] Instance bump_source : HeapSource Z := {
  hs_alloc_pages n := fun next => Ok (next * PAGE_SIZE_4KB, next + n);
  hs_map_page p v f := mret tt;
}.
#[local] Program Instance bump_source_laws : HeapSourceLaws Z := {
  hs_ok r next := 0 <= next;
}.
Next Obligation. intros r n next Hr Hn. cbv beta in *. unfold wp. simpl. lia. Qed.
Next Obligation. intros r p v f next Hr Hn. exact Hr. Qed.

Definition heap0 : buddy Z := Buddy 1 ∅ ∅ ∅ 0 0.

Lemma init_buddy_spec_witness : wp init_buddy (fun _ s' => buddy_inv START_PAGES ∅ whole_heap s') heap0.
Proof. eapply wp_mono; [apply (init_buddy_spec 4 heap0); simpl; lia |]. by intros [] s' [H _]. Defined.

Lemma whole_heap_free : exists k i, whole_heap !! k = Some (i, true) /\ 3 <= i.
Proof. exists 0, MAX_ORDERS. split; [done | unfold MAX_ORDERS; lia]. Qed.

Lemma buddy_alloc_spec_witness :
  wp (init_buddy;; buddy_alloc 1 3) (fun r s' => r mod 0x8000 = 0) heap0.
Proof.
  apply wp_bind. eapply wp_mono; [apply (wp_init_buddy 4 heap0); simpl; lia |]. intros [] s (Hinv & _).
  eapply wp_mono; [apply (buddy_alloc_spec START_PAGES whole_heap 0 3 s Hinv); [lia | apply whole_heap_free] |].
  intros r s' (_ & k & -> & Hk & _). unfold page_addr, HEAP_START, PAGE_SIZE_4KB. dlia.
Defined.

Lemma buddy_free_spec_witness :
  wp (init_buddy;; r ← buddy_alloc 1 3; buddy_free r)
    (fun _ s' => exists B, buddy_inv START_PAGES ∅ B s' /\ allocated B = ∅) heap0.
Proof.
  apply wp_bind. eapply wp_mono; [apply (wp_init_buddy 4 heap0); simpl; lia |]. intros [] s (Hinv & _).
  apply wp_bind. eapply wp_mono; [apply (wp_buddy_alloc START_PAGES whole_heap 0 3 s Hinv); [lia | apply whole_heap_free] |].
  intros r s1 (k & B' & -> & Hinv' & _ & Ha & _).
  eapply wp_mono; [apply (buddy_free_spec START_PAGES B' k 3 s1 Hinv'); by rewrite Ha, lookup_insert_eq |].
  intros [] s' (B2 & Hinv2 & Ha2 & _). exists B2. split; [done |]. rewrite Ha2, Ha.
  replace (allocated whole_heap) with (∅ : gmap Z Z) by (by vm_compute). apply delete_insert_id, lookup_empty.
Defined.

Lemma buddy_all_free_witness :
  wp init_buddy (fun _ _ => whole_heap !! 0 = Some (MAX_ORDERS, true)) heap0.
Proof.
  eapply wp_mono; [apply (wp_init_buddy 4 heap0); simpl; lia |]. intros [] s (Hinv & _).
  destruct (buddy_all_free START_PAGES whole_heap s Hinv eq_refl 0 MAX_ORDERS true eq_refl) as [_ _]. done.
Defined.

Lemma buddy_alloc_diverges_witness : MAX_ORDERS < 13 /\ forall fuel r s', buddy_alloc fuel 13 heap0 <> Ok (r, s').
Proof. split; [reflexivity |]. intros fuel. apply (buddy_alloc_diverges 13). unfold MAX_ORDERS. lia. Defined.

Lemma buddy_grow_overlap_witness :
  wp (buddy_grow;; a ← get_area MAX_ORDERS; buddy_grow;; b ← get_area MAX_ORDERS; mret (a, b))
    (fun ab _ => ab = (HEAP_START, HEAP_START + PAGE_SIZE_4KB)) (set_current_heap_end HEAP_START heap0).
Proof.
  eapply wp_mono; [apply (buddy_grow_overlap (2 * grow_cost) 0 (set_current_heap_end HEAP_START heap0)); by simpl || lia |].
  by intros ab s' ->.
Defined.
