(* ===== verification/VmArea.v ===== *)
(** Lists of memory areas: kernel areas ([mm/vmalloc.c]), user mappings
    ([mm/mmap.c]) and user stacks ([mm/stack.c]). An area is placed in the first
    gap that is large enough; kernel areas grow up from [VMALLOC_START], the
    other two grow down. *)
From S2P Require Import Prelude Interfaces DList.

(** * State *)

(** [vm_area_t]. A kernel area is [base, base + size); a mapping or a stack is
    [base - size, base). *)
Record vm_area : Type := VmArea {
  base : Z;
  size : Z;
  prot : Z;
  flags : Z;
  file : Z;
  file_pgoff : Z;
  next : Z;
  prev : Z;
}.

Definition VMALLOC_START : Z := 0xFFFFC00000000000.
Definition MMAP_START : Z := 0x0000700000000000.
Definition USER_STACK_MAX : Z := 0x00007FFFFFFFF000.
Definition sizeof_vm_area : Z := 56.

(** [areas] are the area objects by their address. *)
Record vmas (K : Type) : Type := Vmas {
  vk : K;
  areas : gmap Z vm_area;
  vmalloc_list_head : Z;
  mmap_list_head : Z;
  us_list_head : Z;
}.
Arguments Vmas {K} vk areas vmalloc_list_head mmap_list_head us_list_head.
Arguments vk {K} v.
Arguments areas {K} v.
Arguments vmalloc_list_head {K} v.
Arguments mmap_list_head {K} v.
Arguments us_list_head {K} v.

Definition set_base (x : Z) (a : vm_area) : vm_area :=
  VmArea x (size a) (prot a) (flags a) (file a) (file_pgoff a) (next a) (prev a).
Definition set_size (x : Z) (a : vm_area) : vm_area :=
  VmArea (base a) x (prot a) (flags a) (file a) (file_pgoff a) (next a) (prev a).
Definition set_next_field (x : Z) (a : vm_area) : vm_area :=
  VmArea (base a) (size a) (prot a) (flags a) (file a) (file_pgoff a) x (prev a).
Definition set_prev_field (x : Z) (a : vm_area) : vm_area :=
  VmArea (base a) (size a) (prot a) (flags a) (file a) (file_pgoff a) (next a) x.

Definition blank_area : vm_area := VmArea 0 0 0 0 0 0 0 0.

(** * Operations *)

(** The direction in which the areas of a list follow each other. *)
Inductive dir : Type :=
  | Up
  | Down.

Section operations.
Context {K : Type} `{KernelMem K}.
Implicit Types s : vmas K.

Definition set_vk (k : K) s : vmas K := Vmas k (areas s) (vmalloc_list_head s) (mmap_list_head s) (us_list_head s).
Definition set_areas (a : gmap Z vm_area) s : vmas K := Vmas (vk s) a (vmalloc_list_head s) (mmap_list_head s) (us_list_head s).
Definition l_vk : lens (vmas K) K := Lens vk set_vk.

Definition l_vmalloc_head : lens (vmas K) Z :=
  Lens vmalloc_list_head (fun h s => Vmas (vk s) (areas s) h (mmap_list_head s) (us_list_head s)).
Definition l_mmap_head : lens (vmas K) Z :=
  Lens mmap_list_head (fun h s => Vmas (vk s) (areas s) (vmalloc_list_head s) h (us_list_head s)).
Definition l_us_head : lens (vmas K) Z :=
  Lens us_list_head (fun h s => Vmas (vk s) (areas s) (vmalloc_list_head s) (mmap_list_head s) h).

(** [*p] and an assignment to a field of [*p]. *)
Definition get_area (p : Z) : M (vmas K) vm_area :=
  m ← gets areas;
  match m !! p with Some a => mret a | None => fail Fault end.
Definition upd_area (p : Z) (f : vm_area -> vm_area) : M (vmas K) unit :=
  a ← get_area p; modify (fun s => set_areas (<[p := f a]> (areas s)) s).

(** [(vm_area_t * )kmalloc(sizeof(vm_area_t))]: the fields are what the memory held. *)
Definition new_area : M (vmas K) Z :=
  p ← zoom l_vk (km_alloc sizeof_vm_area);
  when (truthy p) (modify (fun s => set_areas (<[p := default blank_area (areas s !! p)]> (areas s)) s));;
  mret p.

Section list.
Context (d : dir) (start : Z) (l_head : lens (vmas K) Z).

(** The first address after [a], and whether [i] fits between [a] and [n]. *)
Definition far_end (a : vm_area) : Z :=
  match d with
  | Up => u64 (base a + size a)
  | Down => u64 (base a - size a)
  end.
Definition fits (a i n : vm_area) : bool :=
  match d with
  | Up => u64 (far_end a + size i) <=? base n
  | Down => base n <=? u64 (far_end a - size i)
  end.

(** [while (next)]; the fuel is at least the number of areas. *)
Fixpoint find_gap (fuel : nat) (i current nxt : Z) : M (vmas K) unit :=
  if truthy nxt then
    match fuel with
    | O => fail Hang
    | S fuel' =>
        c ← get_area current;
        x ← get_area i;
        n ← get_area nxt;
        if fits c x n then
          upd_area i (set_base (far_end c));;
          upd_area i (set_next_field nxt);;
          upd_area i (set_prev_field current);;
          upd_area current (set_next_field i);;
          upd_area nxt (set_prev_field i)
        else find_gap fuel' i nxt (next n)
    end
  else
    c ← get_area current;
    upd_area i (set_base (far_end c));;
    upd_area i (set_prev_field current);;
    upd_area i (set_next_field 0);;
    upd_area current (set_next_field i).

Definition add_to_list (i : Z) : M (vmas K) unit :=
  h ← gets (view l_head);
  if negb (truthy h) then
    upd_area i (set_base start);;
    upd_area i (set_prev_field 0);;
    upd_area i (set_next_field 0);;
    modify (over l_head i)
  else
    c ← get_area h;
    fuel ← gets (fun s => map_size (areas s));
    find_gap fuel i h (next c).

Definition remove_from_list (i : Z) : M (vmas K) unit :=
  if negb (truthy i) then mret tt
  else
    h ← gets (view l_head);
    (when (h =? i) (x ← get_area i; modify (over l_head (next x))));;
    x ← get_area i;
    (when (truthy (next x)) (upd_area (next x) (set_prev_field (prev x))));;
    x ← get_area i;
    (when (truthy (prev x)) (upd_area (prev x) (set_next_field (next x))));;
    upd_area i (set_next_field 0);;
    upd_area i (set_prev_field 0).

(** [while (current)] of the functions that look for an area: the first area
    from [current] on that satisfies [p], 0 if there is none. *)
Fixpoint find_area (fuel : nat) (p : vm_area -> bool) (current : Z) : M (vmas K) Z :=
  if truthy current then
    match fuel with
    | O => fail Hang
    | S fuel' =>
        c ← get_area current;
        if p c then mret current else find_area fuel' p (next c)
    end
  else mret 0.

Definition search (p : vm_area -> bool) : M (vmas K) Z :=
  h ← gets (view l_head);
  fuel ← gets (fun s => S (map_size (areas s)));
  find_area fuel p h.

End list.

Definition vm_add_to_list : Z -> M (vmas K) unit := add_to_list Up VMALLOC_START l_vmalloc_head.
Definition vm_remove_from_list : Z -> M (vmas K) unit := remove_from_list l_vmalloc_head.
Definition mmap_add_to_list : Z -> M (vmas K) unit := add_to_list Down MMAP_START l_mmap_head.
Definition mmap_remove_from_list : Z -> M (vmas K) unit := remove_from_list l_mmap_head.
Definition us_add_to_list : Z -> M (vmas K) unit := add_to_list Down USER_STACK_MAX l_us_head.
Definition us_remove_from_list : Z -> M (vmas K) unit := remove_from_list l_us_head.

(** The size rounded up to pages, and the number of iterations of a loop
    [for (int j = 0; j < size; j += PAGE_SIZE_4KB)]. *)
Definition page_round (n : Z) : Z := Z.land (u64 (n + PAGE_SIZE_4KB - 1)) PAGE_MASK_4KB.
Definition page_count (n : Z) : nat := Z.to_nat ((n + PAGE_SIZE_4KB - 1) / PAGE_SIZE_4KB).

Definition PTE_WRITABLE_FLAG : Z := 2.
Definition PTE_USER_FLAG : Z := 4.

Definition vmalloc (sz : Z) : M (vmas K) Z :=
  if sz =? 0 then mret 0
  else
    i ← new_area;
    if negb (truthy i) then mret 0
    else
      upd_area i (set_size (page_round sz));;
      vm_add_to_list i;;
      for_loop (page_count sz) 0 (fun j =>
        p ← zoom l_vk km_alloc_page;
        a ← get_area i;
        zoom l_vk (km_map_page p (u64 (base a + j * PAGE_SIZE_4KB)) PTE_WRITABLE_FLAG));;
      a ← get_area i;
      mret (base a).

(** [vmm_unmap_page] and [pmm_free_page] of each page of [n] bytes from [va]. *)
Definition release_pages (pml4 : M K Z) (va n : Z) : M (vmas K) unit :=
  for_loop (page_count n) 0 (fun j =>
    t ← zoom l_vk pml4;
    p ← zoom l_vk (km_unmap_page t (u64 (va + j * PAGE_SIZE_4KB)));
    zoom l_vk (km_free_page p)).

Definition vfree (ptr : Z) : M (vmas K) unit :=
  c ← search l_vmalloc_head (fun a => base a =? ptr);
  if negb (truthy c) then mret tt
  else
    a ← get_area c;
    release_pages km_read_cr3 (base a) (size a);;
    vm_remove_from_list c.

Definition kernel_alloc_stack (sz : Z) : M (vmas K) Z :=
  if sz =? 0 then mret 0 else vmalloc sz.

(** Only the top page is mapped; the page fault handler maps the others. *)
Definition user_alloc_stack (sz : Z) : M (vmas K) Z :=
  if sz =? 0 then mret 0
  else
    i ← new_area;
    if negb (truthy i) then mret 0
    else
      upd_area i (set_size sz);;
      us_add_to_list i;;
      p ← zoom l_vk km_alloc_page;
      a ← get_area i;
      zoom l_vk (km_map_page p (u64 (base a - PAGE_SIZE_4KB)) (Z.lor PTE_WRITABLE_FLAG PTE_USER_FLAG));;
      mret (base a).

Definition user_free_stack (ptr : Z) : M (vmas K) unit :=
  c ← search l_us_head (fun a => base a =? ptr);
  if negb (truthy c) then mret tt
  else
    a ← get_area c;
    release_pages km_read_cr3 (u64 (base a - size a)) (size a);;
    us_remove_from_list c.

Definition munmap_by_info (i pml4 : Z) : M (vmas K) unit :=
  a ← get_area i;
  release_pages (mret pml4) (u64 (base a - size a)) (size a);;
  mmap_remove_from_list i.

End operations.

(** * Specification *)

Definition area_of (m : gmap Z vm_area) (p : Z) : vm_area := default blank_area (m !! p).

Definition area_node : node_ops (gmap Z vm_area) := {|
  n_prev m p := prev (area_of m p);
  n_next m p := next (area_of m p);
  set_prev p x m := <[p := set_prev_field x (area_of m p)]> m;
  set_next p x m := <[p := set_next_field x (area_of m p)]> m;
  n_valid _ := True;
|}.

(** The extents of the areas of a list, in its order. *)
Definition spans (m : gmap Z vm_area) (l : list Z) : list (Z * Z) :=
  (fun p => (base (area_of m p), size (area_of m p))) <$> l.

Definition sgn (d : dir) : Z := match d with Up => 1 | Down => -1 end.

(** Seen in the direction of the list, the areas start at [lim], are not empty,
    follow each other without overlap and end by [e]. *)
Fixpoint chain (d : dir) (lim e : Z) (l : list (Z * Z)) : Prop :=
  match l with
  | [] => lim <= e
  | (b, n) :: l' => lim <= sgn d * b /\ 0 < n /\ chain d (sgn d * b + n) e l'
  end.

(** The addresses of area [a], and how far the areas of a list may reach: the
    kernel areas up to the heap. *)
Definition in_area (d : dir) (a : vm_area) (x : Z) : Prop :=
  match d with
  | Up => base a <= x < base a + size a
  | Down => base a - size a <= x < base a
  end.
Definition bound (d : dir) : Z := match d with Up => 0xFFFFE00000000000 | Down => - 2 ^ 45 end.

(** The list [l] with head [h] is well formed, and its areas end by [e]. *)
Record area_list (d : dir) (start e : Z) (h : Z) (m : gmap Z vm_area) (l : list Z) : Prop := {
  al_dll : dll area_node m h l;
  al_live p : p ∈ l -> is_Some (m !! p);
  al_chain : chain d (sgn d * start) e (spans m l);
}.

(** An area without its links. *)
Definition no_links (a : vm_area) : vm_area := set_next_field 0 (set_prev_field 0 a).

(** The fields of the areas, but for the links of all and the base of [i], are the same. *)
Definition same_areas (i : Z) (m m' : gmap Z vm_area) : Prop :=
  (forall p, is_Some (m' !! p) <-> is_Some (m !! p)) /\
  (forall p, no_links (area_of m' p) =
     no_links (if decide (p = i) then set_base (base (area_of m' p)) (area_of m p) else area_of m p)).

(** The head of a list is a variable of its own. *)
Class HeadLens {K : Type} (l_head : lens (vmas K) Z) : Prop := {
  head_set_areas m s : view l_head (set_areas m s) = view l_head s;
  areas_over h s : areas (over l_head h s) = areas s;
  view_over_head h s : view l_head (over l_head h s) = h;
  over_view_head s : over l_head (view l_head s) s = s;
  over_set_areas h m s : over l_head h (set_areas m s) = set_areas m (over l_head h s);
  vk_over h s : vk (over l_head h s) = vk s;
  head_set_vk k s : view l_head (set_vk k s) = view l_head s;
}.

(** The search passes over a gap in which [i] does not fit: the gaps between the
    areas [l1]; and [i] follows the last of them, or is the first area of all. *)
Definition first_gap (d : dir) (start : Z) (m : gmap Z vm_area) (l1 : list Z) (i b : Z) : Prop :=
  b = match last l1 with Some c => far_end d (area_of m c) | None => start end /\
  forall a p q r, l1 = a ++ p :: q :: r -> fits d (area_of m p) (area_of m i) (area_of m q) = false.

(** Adding area [i], of the size it has, to a list: it comes to lie in the first
    gap between two areas or after the last, and only its base and links change. *)
Definition added {K : Type} (d : dir) (start : Z) (l_head : lens (vmas K) Z) (e : Z) (l : list Z) (i : Z) (s s' : vmas K) : Prop :=
  exists m' h' l1 l2, s' = set_areas m' (over l_head h' s) /\ l = l1 ++ l2 /\ same_areas i (areas s) m' /\
    area_list d start (e + size (area_of (areas s) i)) h' m' (l1 ++ i :: l2) /\
    (l1 = [] -> l = []) /\ first_gap d start (areas s) l1 i (base (area_of m' i)).

(** Removing an area: the list is [l] afterwards, and no area moves. *)
Definition removed {K : Type} (d : dir) (start : Z) (l_head : lens (vmas K) Z) (e : Z) (l : list Z) (s s' : vmas K) : Prop :=
  exists m' h', s' = set_areas m' (over l_head h' s) /\ area_list d start e h' m' l /\
    forall p, (is_Some (m' !! p) <-> is_Some (areas s !! p)) /\
      no_links (area_of m' p) = no_links (area_of (areas s) p).

(** Where the lists may start. *)
Definition start_ok (d : dir) (start : Z) : Prop :=
  match d with
  | Up => 2 ^ 45 <= start <= bound Up
  | Down => 2 ^ 45 <= start <= 2 ^ 47
  end.

(** * Lemmas: chains *)

Lemma chain_app d lim e l1 b n l2 : chain d lim e (l1 ++ (b, n) :: l2) <->
  chain d lim (sgn d * b) l1 /\ 0 < n /\ chain d (sgn d * b + n) e l2.
Proof.
  revert lim. induction l1 as [|[b1 n1] l1 IH]; intros lim; simpl; [tauto |]. rewrite IH. tauto.
Qed.

Lemma chain_le d lim lim' e e' l : lim' <= lim -> e <= e' -> chain d lim e l -> chain d lim' e' l.
Proof.
  revert lim lim'. induction l as [|[b n] l IH]; intros lim lim' H1 H2; simpl; [lia |].
  intros (? & ? & ?). split_and!; [lia | done |]. by apply (IH (sgn d * b + n)); [lia | |].
Qed.

Lemma chain_remove d lim e l1 b n l2 : chain d lim e (l1 ++ (b, n) :: l2) -> chain d lim e (l1 ++ l2).
Proof.
  revert lim. induction l1 as [|[b1 n1] l1 IH]; intros lim; simpl.
  - intros (H1 & H2 & H3). by eapply chain_le; [| | exact H3]; lia.
  - intros (? & ? & ?). split_and!; [done.. | by apply IH].
Qed.

Lemma chain_bounds d lim e l b n : chain d lim e l -> (b, n) ∈ l -> lim <= sgn d * b /\ 0 < n /\ sgn d * b + n <= e.
Proof.
  intros Hc (l1 & l2 & ->)%list_elem_of_split. apply chain_app in Hc as (H1 & Hn & H2). split_and!; [| done |].
  - clear H2. revert lim H1. induction l1 as [|[b1 n1] l1 IH]; intros lim; simpl; [done |].
    intros (? & ? & ?%IH). lia.
  - clear H1. revert H2. generalize (sgn d * b + n) as x. induction l2 as [|[b1 n1] l2 IH]; intros x; simpl; [done |].
    intros (? & ? & ?%IH). lia.
Qed.

Lemma chain_lim d lim e l : chain d lim e l -> lim <= e.
Proof. revert lim. induction l as [|[b n] l IH]; intros lim; simpl; [done |]. intros (? & ? & ?%IH). lia. Qed.

(** Areas of a chain do not meet. *)
Lemma chain_disjoint d lim e l1 b n l2 b' n' : chain d lim e (l1 ++ (b, n) :: l2) -> (b', n') ∈ l1 ++ l2 ->
  sgn d * b' + n' <= sgn d * b \/ sgn d * b + n <= sgn d * b'.
Proof.
  intros (H1 & Hn & H2)%chain_app [Hin|Hin]%elem_of_app.
  - left. by apply (chain_bounds d lim _ l1).
  - right. by apply (chain_bounds d _ e l2 b' n').
Qed.

(** * Lemmas: areas *)

#[global] Instance area_node_laws : NodeLaws area_node.
Proof.
  split; simpl; intros a b x m _ _; unfold area_of; rewrite lookup_insert; by case_decide; subst.
Qed.

Lemma spans_app m l1 l2 : spans m (l1 ++ l2) = spans m l1 ++ spans m l2.
Proof. apply fmap_app. Qed.

Lemma spans_ext m m' l : (forall p, p ∈ l -> base (area_of m' p) = base (area_of m p) /\ size (area_of m' p) = size (area_of m p)) ->
  spans m' l = spans m l.
Proof.
  induction l as [|p l IH]; intros H; [done |]. cbn. destruct (H p) as [-> ->]; [by left |].
  f_equal. apply IH. intros q Hq. apply H. by right.
Qed.

(** The list [l] lists the addresses of distinct objects, so its length is bounded. *)
Lemma nodup_length (m : gmap Z vm_area) l : NoDup l -> (forall p, p ∈ l -> is_Some (m !! p)) -> (length l <= map_size m)%nat.
Proof.
  intros Hnd Hl. rewrite <- (size_list_to_set (C := gset Z) l Hnd).
  assert (map_size m = base.size (dom m : gset Z)) as -> by (symmetry; apply (size_dom (D := gset Z))).
  apply subseteq_size. intros p. rewrite elem_of_list_to_set, elem_of_dom. apply Hl.
Qed.

Section list_lemmas.
Context {K : Type} `{KernelMem K}.
Context (d : dir) (start : Z) (l_head : lens (vmas K) Z).
Implicit Types s : vmas K.

Lemma wp_get_area p a (Q : vm_area -> vmas K -> Prop) s : areas s !! p = Some a -> Q a s -> wp (get_area p) Q s.
Proof. intros Hp HQ. apply wp_bind, wp_gets. by rewrite Hp. Qed.

Lemma wp_upd_area p a f (Q : unit -> vmas K -> Prop) s : areas s !! p = Some a ->
  Q tt (set_areas (<[p := f a]> (areas s)) s) -> wp (upd_area p f) Q s.
Proof. intros Hp HQ. apply wp_bind. eapply wp_get_area; [exact Hp |]. by apply wp_modify. Qed.

Lemma area_of_some m p a : m !! p = Some a -> area_of m p = a.
Proof. unfold area_of. by intros ->. Qed.

Lemma area_live m p : is_Some (m !! p) -> m !! p = Some (area_of m p).
Proof. unfold area_of. by intros [a ->]. Qed.

(** ** Searching *)

Lemma wp_find_area p q fuel (Q : Z -> vmas K -> Prop) s : forall l q0 c,
  dseg area_node (areas s) q0 c l q 0 -> (forall x, x ∈ l -> is_Some (areas s !! x)) ->
  (length l < fuel)%nat ->
  (forall r, (r = 0 /\ forall x, x ∈ l -> p (area_of (areas s) x) = false) \/
     (r ∈ l /\ p (area_of (areas s) r) = true) -> Q r s) ->
  wp (find_area fuel p c) Q s.
Proof.
  induction fuel as [|fuel IH]; intros l q0 c Hd Hl Hf HQ; [lia |]. cbn [find_area].
  destruct l as [|x l].
  { destruct Hd as [-> _]. apply wp_ret, HQ. left. split; [done |]. intros x Hx. by apply elem_of_nil in Hx. }
  destruct Hd as (-> & Hx & _ & _ & Hd). rewrite (proj2 (truthy_true x) Hx).
  apply wp_bind. eapply wp_get_area; [apply area_live, Hl; by left |].
  destruct (p (area_of (areas s) x)) eqn:E.
  - apply wp_ret, HQ. right. split; [by left | done].
  - eapply (IH l x); [exact Hd | | simpl in Hf; lia |].
    + intros y Hy. apply Hl. by right.
    + intros r [[-> Hr]|[Hr Hp]]; apply HQ; [left | right; split; [by right | done]].
      split; [done |]. intros y [->|Hy]%elem_of_cons; auto.
Qed.

Lemma wp_search p e l (Q : Z -> vmas K -> Prop) s :
  area_list d start e (view l_head s) (areas s) l ->
  (forall r, (r = 0 /\ forall x, x ∈ l -> p (area_of (areas s) x) = false) \/
     (r ∈ l /\ p (area_of (areas s) r) = true) -> Q r s) ->
  wp (search l_head p) Q s.
Proof.
  intros [(q & Hd & Hnd) Hl _] HQ. apply wp_bind, wp_gets, wp_bind, wp_gets.
  eapply wp_find_area; [exact Hd | done | | done]. pose proof (nodup_length _ _ Hnd Hl). lia.
Qed.

(** ** Insertion *)

Lemma same_areas_refl i m : same_areas i m m.
Proof.
  split; [done |]. intros p. case_decide; [| done]. by destruct (area_of m p).
Qed.

(** The writes of an insertion, in any order, to the areas [i], [c] and [n]. *)
Lemma insert_ok e h m m' l1 c l2 i b :
  area_list d start e h m (l1 ++ c :: l2) -> start_ok d start -> i <> 0 -> i ∉ l1 ++ c :: l2 -> is_Some (m !! i) ->
  0 < size (area_of m i) -> e + size (area_of m i) <= bound d ->
  b = far_end d (area_of m c) ->
  (forall n l2', l2 = n :: l2' -> fits d (area_of m c) (area_of m i) (area_of m n) = true) ->
  same_areas i m m' -> base (area_of m' i) = b ->
  (forall x, x ∈ i :: l1 ++ c :: l2 ->
     n_next area_node m' x = (if decide (x = c) then i else if decide (x = i) then n_next area_node m c else n_next area_node m x) /\
     n_prev area_node m' x = (if decide (x = i) then c else if decide (x = n_next area_node m c) then i else n_prev area_node m x)) ->
  area_list d start (e + size (area_of m i)) h m' (l1 ++ c :: i :: l2).
Proof.
  intros [Hd Hl Hc] Hst Hi Hni Hmi Hsz He Hb Hfit [Hlive Hsame] Hbase Hlinks.
  assert (forall p, p <> i -> base (area_of m' p) = base (area_of m p) /\ size (area_of m' p) = size (area_of m p)) as Hfields.
  { intros p Hp. specialize (Hsame p). rewrite decide_False in Hsame by done. split.
    - by apply (f_equal base) in Hsame.
    - by apply (f_equal size) in Hsame. }
  assert (size (area_of m' i) = size (area_of m i)) as Hsi.
  { specialize (Hsame i). rewrite decide_True in Hsame by done. by apply (f_equal size) in Hsame. }
  split.
  - by apply (dll_insert area_node m m').
  - intros p Hp. apply Hlive. rewrite elem_of_app, !elem_of_cons in Hp.
    destruct Hp as [?|[?|[->|?]]]; try done; apply Hl; rewrite elem_of_app, elem_of_cons; tauto.
  - rewrite spans_app in Hc. rewrite spans_app. cbn [spans fmap list_fmap] in Hc |- *.
    assert ((i ∉ l1) /\ i <> c /\ (i ∉ l2)) as (Hi1 & Hic & Hi2).
    { rewrite elem_of_app, elem_of_cons in Hni. tauto. }
    fold (spans m l2) in Hc. fold (spans m' l2).
    rewrite (spans_ext m m' l1), (spans_ext m m' l2) by (intros p Hp; apply Hfields; by intros ->).
    destruct (Hfields c) as [-> ->]; [done |]. rewrite Hbase, Hsi.
    apply chain_app in Hc as (Hc1 & Hnc & Hc2). apply chain_app. split; [done |]. split; [done |].
    assert (sgn d * start <= sgn d * base (area_of m c) /\ sgn d * base (area_of m c) + size (area_of m c) <= e) as [Hlo Hhi].
    { split; by eapply chain_lim. }
    assert (sgn d * b = sgn d * base (area_of m c) + size (area_of m c)) as Hsb.
    { subst b. unfold far_end, bound, start_ok in *. destruct d; simpl in *; rewrite u64_small; lia. }
    split_and!; [lia | done |]. destruct l2 as [|n l2]; [simpl; lia |].
    specialize (Hfit n l2 eq_refl). simpl in Hc2 |- *. destruct Hc2 as (H1 & H2 & H3).
    split_and!; [| done | by eapply chain_le; [| | exact H3]; lia].
    unfold fits, bound, start_ok in *. rewrite <- Hb in Hfit. destruct d; simpl in *; apply Z.leb_le in Hfit; rewrite u64_small in Hfit; lia.
Qed.

(** One assignment to a field, on the map of areas. *)
Definition upd (p : Z) (f : vm_area -> vm_area) (m : gmap Z vm_area) : gmap Z vm_area :=
  <[p := f (area_of m p)]> m.

Lemma area_of_upd p f m q : area_of (upd p f m) q = if decide (p = q) then f (area_of m p) else area_of m q.
Proof. unfold area_of at 1, upd. rewrite lookup_insert. by case_decide. Qed.

Lemma no_links_upd p f m q : (forall a, no_links (f a) = no_links a) ->
  no_links (area_of (upd p f m) q) = no_links (area_of m q).
Proof. intros Hf. rewrite area_of_upd. case_decide as E; [by rewrite Hf, E | done]. Qed.

Lemma live_upd p f m q : is_Some (m !! p) -> is_Some (upd p f m !! q) <-> is_Some (m !! q).
Proof. unfold upd. rewrite lookup_insert. case_decide; [subst; naive_solver | done]. Qed.

Lemma wp_upd p f (Q : unit -> vmas K -> Prop) s : is_Some (areas s !! p) ->
  Q tt (set_areas (upd p f (areas s)) s) -> wp (upd_area p f) Q s.
Proof. intros Hp HQ. eapply wp_upd_area; [by apply area_live | exact HQ]. Qed.

Lemma live_upd_mono p f m q : is_Some (m !! q) -> is_Some (upd p f m !! q).
Proof. unfold upd. rewrite lookup_insert. by case_decide. Qed.

Lemma areas_set_areas m s : areas (set_areas m s) = m.
Proof. done. Qed.

Lemma set_areas_twice m m' s : set_areas m (set_areas m' s) = set_areas m s.
Proof. done. Qed.

Lemma set_areas_id s : set_areas (areas s) s = s.
Proof. by destruct s. Qed.

(** An object is still there after assignments to fields. *)
Ltac upd_live := repeat apply live_upd_mono; done.
Ltac upd_step := apply wp_upd; [rewrite ?areas_set_areas; upd_live |]; rewrite ?areas_set_areas, ?set_areas_twice.

(** What an insertion does, whichever gap it finds. *)
Definition inserted (e : Z) (h : Z) (l : list Z) (i : Z) s s' : Prop :=
  exists m' l1 l2, s' = set_areas m' s /\ l = l1 ++ l2 /\ l1 <> [] /\ same_areas i (areas s) m' /\
    area_list d start (e + size (area_of (areas s) i)) h m' (l1 ++ i :: l2) /\ first_gap d start (areas s) l1 i (base (area_of m' i)).

Section insertion.
Context (e h i : Z) (l : list Z).
Context s (Hal : area_list d start e h (areas s) l).
Hypothesis Hst : start_ok d start.
Hypothesis Hi : i <> 0.
Hypothesis Hil : i ∉ l.
Hypothesis Hmi : is_Some (areas s !! i).
Hypothesis Hsz : 0 < size (area_of (areas s) i).
Hypothesis He : e + size (area_of (areas s) i) <= bound d.

(** The facts about the areas next to the place of insertion. *)
Lemma insertion_point l1 c l2 : l = l1 ++ c :: l2 ->
  is_Some (areas s !! c) /\ c <> i /\ c <> 0 /\ next (area_of (areas s) c) = default 0 (head l2) /\
  default 0 (head l2) <> i /\ default 0 (head l2) <> c /\
  (forall n, head l2 = Some n -> is_Some (areas s !! n) /\ n <> 0).
Proof.
  intros ->. destruct Hal as [(q & Hd & Hnd) Hl _].
  apply dseg_app in Hd as (pc & nc & _ & -> & Hc0 & _ & _ & Hd2). cbn in Hd2.
  apply NoDup_app in Hnd as (_ & _ & [Hc2 _]%NoDup_cons).
  split_and!; [apply Hl, elem_of_app; right; by left | intros ->; apply Hil, elem_of_app; right; by left | done | | | |].
  - by destruct l2 as [|x l2]; destruct Hd2 as [-> _].
  - destruct l2 as [|x l2]; simpl; [done |]. intros ->. apply Hil, elem_of_app. right. by right; left.
  - destruct l2 as [|x l2]; simpl; [done |]. intros ->. apply Hc2. by left.
  - intros n Hn. destruct l2 as [|x l2]; [done |]. injection Hn as ->. destruct Hd2 as (_ & ? & _).
    split; [| done]. apply Hl, elem_of_app. right. by right; left.
Qed.

(** The state after the writes, area by area. *)
Lemma inserted_links m' l1 c l2 : l = l1 ++ c :: l2 ->
  (forall n, head l2 = Some n -> fits d (area_of (areas s) c) (area_of (areas s) i) (area_of (areas s) n) = true) ->
  (forall a p q r, l1 ++ [c] = a ++ p :: q :: r -> fits d (area_of (areas s) p) (area_of (areas s) i) (area_of (areas s) q) = false) ->
  (forall p, is_Some (m' !! p) <-> is_Some (areas s !! p)) ->
  (forall p, area_of m' p =
     if decide (p = i) then set_prev_field c (set_next_field (default 0 (head l2)) (set_base (far_end d (area_of (areas s) c)) (area_of (areas s) i)))
     else if decide (p = c) then set_next_field i (area_of (areas s) c)
     else if decide (head l2 = Some p) then set_prev_field i (area_of (areas s) p)
     else area_of (areas s) p) ->
  inserted e h l i s (set_areas m' s).
Proof.
  intros Hl Hfit Hsmall Hlive Hm'. destruct (insertion_point l1 c l2 Hl) as (Hmc & Hci & Hc0 & Hnext & Hni & Hnc & Hn).
  assert (area_of m' i = set_prev_field c (set_next_field (default 0 (head l2))
            (set_base (far_end d (area_of (areas s) c)) (area_of (areas s) i)))) as Hmi'.
  { rewrite Hm'. by rewrite decide_True. }
  assert (same_areas i (areas s) m') as Hsame.
  { split; [done |]. intros p. destruct (decide (p = i)) as [->|Hpi]; [by rewrite Hmi' |].
    rewrite Hm'. repeat case_decide; subst; done. }
  exists m', (l1 ++ [c]), l2. split_and!; [done | by rewrite <- app_assoc | by destruct l1 | done | | split; [by rewrite Hmi', last_snoc | exact Hsmall]].
  rewrite <- app_assoc. simpl. subst l.
  apply (insert_ok e h (areas s) m' l1 c l2 i (far_end d (area_of (areas s) c))); try done.
  - intros n l2' ->. by apply Hfit.
  - by rewrite Hmi'.
  - intros x Hx. simpl. rewrite Hnext. assert (head l2 = Some x <-> x = default 0 (head l2) /\ x <> 0) as Hhead.
    { destruct (head l2) as [n|] eqn:E; simpl; [| split; [done | tauto]].
      destruct (Hn n eq_refl). split; [intros [= ->]; done | intros [-> _]; done]. }
    destruct (decide (x = i)) as [->|Hxi].
    + rewrite Hmi', (decide_False (P := i = c)) by congruence. done.
    + assert (x <> 0) as Hx0.
      { apply elem_of_cons in Hx as [?|Hx]; [done |]. destruct (al_dll _ _ _ _ _ _ Hal) as (q & Hd & _).
        by apply (dseg_valid _ _ _ _ _ _ _ x Hd) in Hx as [_ ?]. }
      rewrite Hm', decide_False by done. repeat case_decide; simpl; subst; try done; try tauto. 
Qed.

Lemma wp_find_gap fuel : forall l1 c l2, l = l1 ++ c :: l2 -> (length l2 <= fuel)%nat ->
  (forall a p q r, l1 ++ [c] = a ++ p :: q :: r -> fits d (area_of (areas s) p) (area_of (areas s) i) (area_of (areas s) q) = false) ->
  wp (find_gap d fuel i c (next (area_of (areas s) c))) (fun _ s' => inserted e h l i s s') s.
Proof.
  induction fuel as [|fuel IH]; intros l1 c l2 Hl Hf Hsmall;
    destruct (insertion_point l1 c l2 Hl) as (Hmc & Hci & Hc0 & Hnext & Hni & Hnc & Hn); destruct l2 as [|n l2];
    rewrite Hnext; simpl in Hf; try lia.
  3: { destruct (Hn n eq_refl) as [Hmn Hn0]. cbn [find_gap]. simpl default in *. rewrite (proj2 (truthy_true n) Hn0).
       do 3 (apply wp_bind; eapply wp_get_area; [by apply area_live |]).
       destruct (fits _ _ _ _) eqn:Efit.
       - do 4 (apply wp_bind; upd_step). upd_step.
         apply (inserted_links _ l1 c (n :: l2)); [done | by intros ? [= ->] | done | intros p; by rewrite !live_upd by upd_live |].
         intros p. rewrite !area_of_upd. simpl. repeat case_decide; simplify_eq; done.
       - apply (IH (l1 ++ [c]) n l2); [by rewrite <- app_assoc | lia |].
         intros a p q r Hsplit. destruct r as [|x r _] using rev_ind.
         + rewrite <- app_assoc in Hsplit. apply (app_inj_2 l1 a [c; n] [p; q]) in Hsplit as [_ [= <- <-]]; done.
         + apply (Hsmall a p q r). rewrite !app_comm_cons, app_assoc in Hsplit. by apply app_inj_tail in Hsplit as [-> _]. }
  all: cbn [find_gap]; apply wp_bind; eapply wp_get_area; [by apply area_live |];
    do 3 (apply wp_bind; upd_step); upd_step;
    apply (inserted_links _ l1 c []); [done | done | done | intros p; by rewrite !live_upd by upd_live |];
    intros p; rewrite !area_of_upd; simpl; repeat case_decide; simplify_eq; done.
Qed.

End insertion.

Context `{Hhead : !HeadLens l_head}.

Lemma same_areas_span i p m m' : same_areas i m m' -> p <> i ->
  base (area_of m' p) = base (area_of m p) /\ size (area_of m' p) = size (area_of m p).
Proof.
  intros [_ Hsame] Hp. specialize (Hsame p). rewrite decide_False in Hsame by done. split.
  - by apply (f_equal base) in Hsame.
  - by apply (f_equal size) in Hsame.
Qed.

Lemma wp_add_to_list e l i s : area_list d start e (view l_head s) (areas s) l -> start_ok d start ->
  i <> 0 -> i ∉ l -> is_Some (areas s !! i) -> 0 < size (area_of (areas s) i) -> sgn d * start <= e ->
  e + size (area_of (areas s) i) <= bound d ->
  wp (add_to_list d start l_head i) (fun _ s' => added d start l_head e l i s s') s.
Proof.
  intros Hal Hst Hi Hil Hmi Hsz Hse He. apply wp_bind, wp_gets.
  rewrite (dll_truthy _ _ _ _ (al_dll _ _ _ _ _ _ Hal)), negb_involutive. destruct l as [|c l'].
  - simpl. do 3 (apply wp_bind; upd_step). apply wp_modify. eexists _, i, [], [].
    split; [apply over_set_areas |]. split; [done |]. split; [split |]; [| | split; [split |]]; [| | | | | split; [| split]].
    + intros p. by rewrite !live_upd by upd_live.
    + intros p. rewrite !area_of_upd. by repeat case_decide; subst.
    + exists i. split; [| by apply NoDup_singleton]. cbn. rewrite !area_of_upd. by rewrite !decide_True.
    + intros p ->%list_elem_of_singleton. by rewrite !live_upd by upd_live.
    + cbn. rewrite !area_of_upd, !decide_True by done. simpl. lia.
    + done.
    + cbn. by rewrite !area_of_upd, !decide_True by done.
    + by intros [] p q r.
  - pose proof (al_dll _ _ _ _ _ _ Hal) as (q & (Hh & _) & Hnd). rewrite bool_decide_false by done.
    apply wp_bind. rewrite Hh. eapply wp_get_area; [apply area_live, (al_live _ _ _ _ _ _ Hal); by left |].
    apply wp_bind, wp_gets. eapply wp_mono.
    + apply (wp_find_gap e c i (c :: l')) with (l1 := []) (l2 := l'); try done; [by rewrite Hh in Hal | |].
      * pose proof (nodup_length _ _ Hnd (al_live _ _ _ _ _ _ Hal)) as Hlen. simpl in Hlen. lia.
      * by intros [|x [|y a]] p' q' r.
    + intros _ s' (m' & l1 & l2 & -> & Hl & Hne & Hsame & Hal' & Hgap). exists m', c, l1, l2.
      split; [by rewrite <- Hh, over_view_head |]. done.
Qed.

(** ** Removal *)

(** The two orders of the writes give the other areas the same links. *)
Lemma unlink_order p n i a m : a <> i ->
  let m1 := if truthy n then upd n (set_prev_field p) m else m in
  let m2 := if truthy p then upd p (set_next_field n) m1 else m1 in
  let m3 := upd i (set_prev_field 0) (upd i (set_next_field 0) m2) in
  let k1 := if truthy p then upd p (set_next_field n) m else m in
  let k2 := if truthy n then upd n (set_prev_field p) k1 else k1 in
  prev (area_of m3 a) = prev (area_of k2 a) /\ next (area_of m3 a) = next (area_of k2 a).
Proof.
  intros Ha. cbv zeta. destruct (truthy p), (truthy n); rewrite ?area_of_upd; split; by repeat case_decide; subst.
Qed.

Lemma wp_remove_from_list e l1 i l2 s : area_list d start e (view l_head s) (areas s) (l1 ++ i :: l2) ->
  wp (remove_from_list l_head i) (fun _ s' => removed d start l_head e (l1 ++ l2) s s') s.
Proof.
  intros [Hd Hl Hc]. destruct (dll_neighbours_in _ _ _ _ _ _ Hd) as (Hp & Hn & Hh).
  destruct (dll_neighbours _ _ _ _ _ _ Hd) as [Hpi Hni]. cbn in Hp, Hn, Hh, Hpi, Hni.
  assert (i <> 0) as Hi.
  { destruct Hd as (q & Hq & _). apply (dseg_valid _ _ _ _ _ _ _ i Hq), elem_of_app. right. by left. }
  assert (is_Some (areas s !! i)) as Hmi by (apply Hl, elem_of_app; right; by left).
  set (p := prev (area_of (areas s) i)) in *. set (n := next (area_of (areas s) i)) in *.
  assert (p <> 0 -> is_Some (areas s !! p)) as Hmp.
  { intros Hp0. apply Hl, elem_of_app. left. rewrite Hp in *. destruct (last l1) eqn:E; [| done]. by apply last_Some_elem_of. }
  assert (n <> 0 -> is_Some (areas s !! n)) as Hmn.
  { intros Hn0. apply Hl, elem_of_app. right. right. rewrite Hn in *. destruct l2; [done | by left]. }
  unfold remove_from_list. rewrite (proj2 (truthy_true i) Hi). simpl. apply wp_bind, wp_gets, wp_bind.
  set (h' := if view l_head s =? i then n else view l_head s). set (s1 := over l_head h' s).
  apply (wp_mono _ (fun _ s' => s' = s1)).
  { apply wp_when; intros E; unfold s1, h'; rewrite E; [| symmetry; apply over_view_head].
    apply wp_bind. eapply wp_get_area; [by apply area_live | by apply wp_modify]. }
  intros _ _ ->. assert (areas s1 = areas s) as Hs1 by apply areas_over.
  pose (m1 := if truthy n then upd n (set_prev_field p) (areas s) else areas s).
  pose (m2 := if truthy p then upd p (set_next_field n) m1 else m1).
  assert (area_of m1 i = area_of (areas s) i) as Hm1i.
  { unfold m1. destruct (truthy n) eqn:E; [| done]. apply truthy_true in E. rewrite area_of_upd, decide_False; [done | tauto]. }
  assert (forall q, is_Some (areas s !! q) -> is_Some (m1 !! q)) as Hm1.
  { intros q Hq. unfold m1. destruct (truthy n); [by apply live_upd_mono | done]. }
  assert (forall q, is_Some (areas s !! q) -> is_Some (m2 !! q)) as Hm2.
  { intros q Hq. unfold m2. destruct (truthy p); [by apply live_upd_mono, Hm1 | by apply Hm1]. }
  apply wp_bind. eapply wp_get_area; [rewrite Hs1; by apply area_live |]. fold n p. apply wp_bind.
  apply (wp_mono _ (fun _ s' => s' = set_areas m1 s1)).
  { apply wp_when; intros E; unfold m1; rewrite E; [| by rewrite <- Hs1, set_areas_id].
    apply wp_upd; rewrite Hs1; [by apply Hmn, truthy_true | done]. }
  intros _ _ ->. apply wp_bind. eapply wp_get_area; [by apply area_live, Hm1 |].
  rewrite areas_set_areas, Hm1i. fold p n. apply wp_bind.
  apply (wp_mono _ (fun _ s' => s' = set_areas m2 s1)).
  { apply wp_when; intros E; unfold m2; rewrite E; [| done].
    apply wp_upd; rewrite areas_set_areas; [by apply Hm1, Hmp, truthy_true | done]. }
  intros _ _ ->. apply wp_bind. apply wp_upd; [by apply Hm2 |]. rewrite areas_set_areas, set_areas_twice.
  apply wp_upd; [by apply live_upd_mono, Hm2 |]. rewrite areas_set_areas, set_areas_twice.
  assert (i ∉ l1 ++ l2) as Hil.
  { destruct Hd as (q & _ & (_ & Hd12 & [Hi2 _]%NoDup_cons)%NoDup_app). intros [Hx|Hx]%elem_of_app; [| done].
    apply (Hd12 i Hx). by left. }
  assert (forall q, no_links (area_of m2 q) = no_links (area_of (areas s) q)) as Hf2.
  { intros q. unfold m2, m1. destruct (truthy p), (truthy n); by rewrite ?no_links_upd. }
  set (m3 := upd i (set_prev_field 0) (upd i (set_next_field 0) m2)).
  assert (forall q, no_links (area_of m3 q) = no_links (area_of (areas s) q)) as Hf3.
  { intros q. unfold m3. by rewrite !no_links_upd. }
  exists m3, h'. split; [done |]. split; [split |].
  - pose proof (dll_remove area_node _ _ _ _ _ Hd) as Hd'. unfold dl_remove in Hd'. cbn in Hd'. fold p n in Hd'.
    assert ((if truthy p then view l_head s else n) = h') as E.
    { unfold h', truthy. destruct (Z.eqb_spec p 0), (Z.eqb_spec (view l_head s) i); simpl; tauto. }
    rewrite E in Hd'. clear E. eapply dll_ext; [| exact Hd']. intros a Ha. cbn.
    apply (unlink_order p n i a). congruence.
  - intros q Hq. apply live_upd_mono, live_upd_mono, Hm2, Hl. rewrite elem_of_app, elem_of_cons.
    apply elem_of_app in Hq. tauto.
  - replace (spans m3 (l1 ++ l2)) with (spans (areas s) (l1 ++ l2)).
    + rewrite spans_app in *. cbn [spans fmap list_fmap] in Hc. fold (spans (areas s) l2) in Hc.
      by eapply chain_remove.
    + apply spans_ext. intros q _. specialize (Hf3 q). split; [by apply (f_equal base) in Hf3 | by apply (f_equal size) in Hf3].
  - intros q. split; [| apply Hf3]. unfold m3. rewrite !live_upd by (repeat apply live_upd_mono; by apply Hm2).
    unfold m2, m1. destruct (truthy p) eqn:Ep, (truthy n) eqn:En; rewrite ?truthy_true in *; rewrite ?live_upd; auto using live_upd_mono.
Qed.
End list_lemmas.

(** ** Placing a new area *)

Section placing.
Context {K : Type} `{Hk : KernelMem K} `{Hlaws : !KernelMemLaws K}.
Context (d : dir) (start : Z) (l_head : lens (vmas K) Z) `{Hhead : !HeadLens l_head}.
Implicit Types s : vmas K.

Lemma area_list_ext e h m m' l : (forall p, p ∈ l -> m' !! p = m !! p) ->
  area_list d start e h m l -> area_list d start e h m' l.
Proof using.
  intros Hm [Hd Hl Hc]. assert (forall p, p ∈ l -> area_of m' p = area_of m p) as Ha by (intros p Hp; unfold area_of; by rewrite Hm).
  split.
  - apply (dll_ext _ m); [| done]. intros a Hin. cbn. by rewrite Ha.
  - intros p Hp. rewrite Hm by done. by apply Hl.
  - rewrite (spans_ext m m' l); [done |]. intros p Hp. by rewrite Ha.
Qed.

(** The list is sound, and its areas are live objects. *)
Record list_ok (e : Z) (l : list Z) s : Prop := {
  lo_km : km_ok (vk s);
  lo_list : area_list d start e (view l_head s) (areas s) l;
  lo_live p : p ∈ l -> km_live (vk s) p;
}.

(** Area [i] has the first place for [n] bytes among the areas [l], seen in the
    direction of the list: the start for the first area, the end of an area of the
    list for another; and after each area of [l] whose end comes earlier, another
    begins within [n] bytes of that end. *)
Definition first_fit (n : Z) (m : gmap Z vm_area) (l : list Z) (i : Z) : Prop :=
  (l = [] -> base (area_of m i) = start) /\
  (l <> [] -> exists p, p ∈ l /\ sgn d * base (area_of m i) = sgn d * base (area_of m p) + size (area_of m p)) /\
  forall p, p ∈ l -> sgn d * base (area_of m p) + size (area_of m p) < sgn d * base (area_of m i) ->
    exists q, q ∈ l /\ sgn d * base (area_of m p) + size (area_of m p) <= sgn d * base (area_of m q)
      < sgn d * base (area_of m p) + size (area_of m p) + n.

(** [i] has been added, with size [n], to the list [l], at the first place that is
    large enough: no area of the list has moved, and [i] meets none of them. *)
Definition placed (e n : Z) (l : list Z) (i : Z) s s' : Prop :=
  exists l1 l2, l = l1 ++ l2 /\ list_ok (e + n) (l1 ++ i :: l2) s' /\ size (area_of (areas s') i) = n /\
    (forall p, p ∈ l -> base (area_of (areas s') p) = base (area_of (areas s) p) /\
      size (area_of (areas s') p) = size (area_of (areas s) p) /\
      forall x, in_area d (area_of (areas s') i) x -> ~ in_area d (area_of (areas s') p) x) /\
    first_fit n (areas s') l i.

Lemma in_area_disjoint a b : 
  sgn d * base a + size a <= sgn d * base b \/ sgn d * base b + size b <= sgn d * base a ->
  forall x, in_area d b x -> ~ in_area d a x.
Proof using. intros H x. unfold in_area. destruct d; simpl in *; lia. Qed.

(** A new object [i] for an area: it is none of the list. *)
Lemma wp_new_area e l s (Q : Z -> vmas K -> Prop) : list_ok e l s ->
  (forall k, list_ok e l (set_vk k s) -> Q 0 (set_vk k s)) ->
  (forall i k, i <> 0 -> i ∉ l -> km_ok k -> (forall p, km_live k p <-> p = i \/ km_live (vk s) p) ->
     Q i (set_areas (<[i := area_of (areas s) i]> (areas s)) (set_vk k s))) -> wp new_area Q s.
Proof.
  intros [Hkm Hal Hlive] HQ0 HQ. unfold new_area. apply wp_bind, wp_zoom. eapply wp_mono; [by apply wp_km_alloc |]. cbn [view l_vk over].
  intros i k [Hkm' [[-> Hlv]|(Hi & Hnl & Hlv)]].
  - apply wp_bind, wp_ret, wp_ret, HQ0. split; [done | by rewrite head_set_vk |]. intros p Hp. by apply Hlv, Hlive.
  - rewrite (proj2 (truthy_true i) Hi). apply wp_bind, wp_modify, wp_ret, HQ; [done | by intros Hi'; apply Hnl, Hlive | done | done].
Qed.

(** An area [i] of size [n] is filled in and can be added to the list [l]. *)
Record fresh_area (n : Z) (l : list Z) (i : Z) (a : vm_area) s s2 : Prop := {
  fa_new : i <> 0 /\ i ∉ l;
  fa_shape : exists k m, s2 = set_areas m (set_vk k s);
  fa_area : areas s2 !! i = Some a;
  fa_size : size a = n;
  fa_list p : p ∈ l -> areas s2 !! p = areas s !! p;
  fa_km : km_ok (vk s2);
  fa_live p : km_live (vk s2) p <-> p = i \/ km_live (vk s) p;
}.

Lemma fresh_area_new l i k s : i <> 0 -> i ∉ l -> km_ok k -> (forall p, km_live k p <-> p = i \/ km_live (vk s) p) ->
  fresh_area (size (area_of (areas s) i)) l i (area_of (areas s) i) s (set_areas (<[i := area_of (areas s) i]> (areas s)) (set_vk k s)).
Proof.
  intros Hi Hil Hk0 Hlv. split; [done | by eexists _, _ | by rewrite areas_set_areas, lookup_insert_eq | done | | done | done].
  intros p Hp. rewrite areas_set_areas. apply lookup_insert_ne. by intros ->.
Qed.

Lemma wp_fill_area n l i a f (Q : unit -> vmas K -> Prop) s s2 : fresh_area n l i a s s2 ->
  (forall s3, fresh_area (size (f a)) l i (f a) s s3 -> Q tt s3) -> wp (upd_area i f) Q s2.
Proof.
  intros [[Hi Hil] (k & m & ->) Ha Hs Hl Hk0 Hlv] HQ. eapply wp_upd_area; [exact Ha |]. apply HQ. rewrite areas_set_areas, set_areas_twice.
  split; [done | by eexists _, _ | by rewrite areas_set_areas, lookup_insert_eq | done | | done | done].
  intros p Hp. rewrite areas_set_areas, lookup_insert_ne by (by intros ->). by apply Hl.
Qed.

Lemma first_fit_gap e h h' m m' l1 l2 i : area_list d start (e + size (area_of m i)) h' m' (l1 ++ i :: l2) -> start_ok d start -> sgn d * start <= e ->
  0 < size (area_of m i) -> e + size (area_of m i) <= bound d -> area_list d start e h m (l1 ++ l2) -> same_areas i m m' -> i ∉ l1 ++ l2 ->
  (l1 = [] -> l1 ++ l2 = []) -> first_gap d start m l1 i (base (area_of m' i)) -> first_fit (size (area_of m i)) m' (l1 ++ l2) i.
Proof using.
  intros Hal' Hst Hse Hn He Hal Hsame Hni Hne [Hb Hsmall].
  assert (forall p, p ∈ l1 ++ l2 -> base (area_of m' p) = base (area_of m p) /\ size (area_of m' p) = size (area_of m p)) as Hf.
  { intros p Hp. apply (same_areas_span i p); [done | by intros ->]. }
  assert (forall p, p ∈ l1 ++ l2 -> sgn d * start <= sgn d * base (area_of m p) /\ 0 < size (area_of m p) /\ sgn d * base (area_of m p) + size (area_of m p) <= e) as Hr.
  { intros p Hp. apply (chain_bounds d _ _ _ _ _ (al_chain _ _ _ _ _ _ Hal)).
    by apply (list_elem_of_fmap_2 (fun q => (base (area_of m q), size (area_of m q)))). }
  assert (forall p, p ∈ l1 ++ l2 -> sgn d * far_end d (area_of m p) = sgn d * base (area_of m p) + size (area_of m p)) as Hend.
  { intros p Hp. specialize (Hr p Hp). unfold far_end, start_ok, bound in *. destruct d; simpl in *; rewrite u64_small; lia. }
  split; [| split].
  - intros E. apply app_eq_nil in E as [-> _]. exact Hb.
  - intros E. destruct l1 as [|c l1 _] using rev_ind; [by rewrite Hne in E |]. rewrite last_snoc in Hb.
    assert (c ∈ (l1 ++ [c]) ++ l2) as Hc by (rewrite !elem_of_app; left; right; by left). exists c. split; [done |].
    destruct (Hf c Hc) as [-> ->]. rewrite Hb. by apply Hend.
  - intros p Hp Hlt. destruct (Hf p Hp) as [Eb Es]. rewrite Eb, Es in *. pose proof (Hr p Hp) as Hrp. pose proof (Hend p Hp) as Hep.
    apply elem_of_app in Hp as [Hp|Hp].
    + apply list_elem_of_split in Hp as (a & r & ->). destruct r as [|q r].
      { rewrite last_snoc in Hb. rewrite Hb, Hep in Hlt. lia. }
      assert (q ∈ (a ++ p :: q :: r) ++ l2) as Hq by (rewrite elem_of_app, elem_of_app, !elem_of_cons; tauto).
      specialize (Hsmall a p q r eq_refl). exists q. split; [done |]. destruct (Hf q Hq) as [-> _].
      pose proof (al_chain _ _ _ _ _ _ Hal) as Hc. rewrite <- app_assoc, spans_app in Hc. cbn [app spans fmap list_fmap] in Hc.
      apply chain_app in Hc as (_ & _ & Hc). cbn [chain] in Hc. destruct Hc as (Hc & _ & _). split; [done |].
      pose proof (Hr q Hq). unfold fits, start_ok, bound in *.
      destruct d; simpl in *; apply Z.leb_gt in Hsmall; rewrite u64_small in Hsmall; lia.
    + exfalso. pose proof (al_chain _ _ _ _ _ _ Hal') as Hc. rewrite spans_app in Hc. cbn [spans fmap list_fmap] in Hc.
      apply chain_app in Hc as (_ & Hi' & Hc). fold (spans m' l2) in Hc.
      apply (chain_bounds d _ _ _ (base (area_of m' p)) (size (area_of m' p))) in Hc; [rewrite Eb, Es in Hc; lia |].
      by apply (list_elem_of_fmap_2 (fun q => (base (area_of m' q), size (area_of m' q)))).
Qed.

Lemma wp_add_fresh e n l i a s s2 (Q : unit -> vmas K -> Prop) : list_ok e l s -> fresh_area n l i a s s2 ->
  start_ok d start -> sgn d * start <= e -> 0 < n -> e + n <= bound d ->
  (forall s', placed e n l i s s' -> (exists m h, s' = set_areas m (over l_head h s2)) ->
     no_links (set_base 0 (area_of (areas s') i)) = no_links (set_base 0 a) -> Q tt s') -> wp (add_to_list d start l_head i) Q s2.
Proof.
  intros [Hkm Hal Hlive] [[Hi Hil] (k & m & Es2) Ha Hsz Hs2 Hk0 Hlv] Hst Hse Hn He HQ.
  assert (area_of (areas s2) i = a) as Ea by by apply area_of_some.
  assert (view l_head s2 = view l_head s) as Hv by by rewrite Es2, head_set_areas, head_set_vk.
  assert (area_list d start e (view l_head s2) (areas s2) l) as Hal2 by (rewrite Hv; by apply (area_list_ext _ _ (areas s))).
  eapply wp_mono; [apply (wp_add_to_list d start l_head e l i s2 Hal2); rewrite ?Ea, ?Hsz, ?Ha; by try eexists |].
  intros [] s' (m' & h' & l1 & l2 & -> & Hl & Hsame & Hal' & Hne & Hgap). pose proof Hal' as Hal0. rewrite Ea, Hsz in Hal'. pose proof (proj2 Hsame i) as Hi'. rewrite decide_True, Ea in Hi' by done.
  assert (vk (set_areas m' (over l_head h' s2)) = vk s2) as Hvk by apply vk_over. apply HQ.
  - exists l1, l2. split; [done |]. split; [split | split; [| split]].
    + by rewrite Hvk.
    + by rewrite head_set_areas, view_over_head.
    + intros p Hp. rewrite Hvk. apply Hlv. rewrite elem_of_app, elem_of_cons in Hp. subst l.
      destruct Hp as [?|[?|?]]; [right | by left | right]; apply Hlive, elem_of_app; auto.
    + rewrite areas_set_areas. apply (f_equal size) in Hi'. etransitivity; [exact Hi' | exact Hsz].
    + intros p Hp. rewrite areas_set_areas. assert (p <> i) as Hpi by congruence.
      destruct (same_areas_span i p _ _ Hsame Hpi) as [Eb Es].
      replace (area_of (areas s2) p) with (area_of (areas s) p) in Eb, Es by (unfold area_of; by rewrite Hs2).
      split_and!; [done | done |]. pose proof (al_chain _ _ _ _ _ _ Hal') as Hc.
      rewrite spans_app in Hc. cbn [spans fmap list_fmap] in Hc. fold (spans m' l2) in Hc.
      apply in_area_disjoint. apply (chain_disjoint _ _ _ _ _ _ _ (base (area_of m' p)) (size (area_of m' p)) Hc).
      rewrite <- spans_app, <- Hl. by apply (list_elem_of_fmap_2 (fun q => (base (area_of m' q), size (area_of m' q)))).
    + rewrite areas_set_areas. replace n with (size (area_of (areas s2) i)) by by rewrite Ea. subst l.
      by apply (first_fit_gap e (view l_head s2) h' (areas s2)); rewrite ?Ea, ?Hsz.
  - by exists m', h'.
  - rewrite areas_set_areas. apply (f_equal (set_base 0)) in Hi'. destruct (area_of m' i), a. exact Hi'.
Qed.

Lemma wp_place e n l (Kont : Z -> M (vmas K) Z) s :
  list_ok e l s -> start_ok d start -> sgn d * start <= e -> 0 < n -> e + n <= bound d ->
  forall Q : Z -> vmas K -> Prop,
  (forall s', list_ok e l s' -> areas s' = areas s -> Q 0 s') ->
  (forall i s', placed e n l i s s' -> wp (Kont i) Q s') ->
  wp (i ← new_area; if negb (truthy i) then mret 0
      else upd_area i (set_size n);; add_to_list d start l_head i;; Kont i) Q s.
Proof.
  intros Hok Hst Hse Hn He Q HQ0 HQ. apply wp_bind. apply (wp_new_area e l s); [done | intros k Hk0; apply wp_ret; by apply HQ0 |].
  intros i k Hi Hil Hk0 Hlv. rewrite (proj2 (truthy_true i) Hi). cbn [negb].
  apply wp_bind. eapply wp_fill_area; [by apply fresh_area_new |]. intros s3 Hf.
  apply wp_bind. eapply wp_add_fresh; [done | exact Hf | done.. |]. intros s' Hp _ _. by apply HQ.
Qed.

(** ** Pages and removal *)

(** Only the state of the memory services changes, and no object dies. *)
Definition only_vk s s' : Prop :=
  exists k, s' = set_vk k s /\ km_ok k /\ forall q, km_live k q <-> km_live (vk s) q.

Lemma only_vk_refl s : km_ok (vk s) -> only_vk s s.
Proof using. exists (vk s). split; [by destruct s | done]. Qed.

Lemma only_vk_zoom {A} (m : M K A) s0 s (Q : A -> vmas K -> Prop) : only_vk s0 s ->
  (forall k, km_ok k -> wp m (fun _ k' => km_ok k' /\ forall q, km_live k' q <-> km_live k q) k) ->
  (forall a s', only_vk s0 s' -> Q a s') -> wp (zoom l_vk m) Q s.
Proof using.
  intros (k & -> & Hk0 & Hlv) Hm HQ. apply wp_zoom. eapply wp_mono; [by apply Hm |]. cbn.
  intros a k' [Hk' Hlv']. apply HQ. exists k'. split_and!; [done | done |]. intros q. by rewrite Hlv', Hlv.
Qed.

Lemma only_vk_list_ok e l s s' : only_vk s s' -> list_ok e l s -> list_ok e l s'.
Proof using Hhead.
  intros (k & -> & Hok & Hlv) [_ Hal Hl]. split; [done | by rewrite head_set_vk |]. intros p Hp. by apply Hlv, Hl.
Qed.

Lemma only_vk_areas s s' : only_vk s s' -> areas s' = areas s.
Proof using. by intros (k & -> & _). Qed.

Lemma only_vk_placed e n l i s s1 s' : only_vk s1 s' -> placed e n l i s s1 -> placed e n l i s s'.
Proof using Hhead.
  intros Ho (l1 & l2 & Hl & Hok & Hsz & Hp). exists l1, l2. rewrite (only_vk_areas _ _ Ho).
  split; [done |]. split; [by apply (only_vk_list_ok _ _ s1) | done].
Qed.

Lemma wp_release_pages (t : M K Z) va n s (Q : unit -> vmas K -> Prop) :
  (forall k, km_ok k -> wp t (fun _ k' => k' = k) k) -> km_ok (vk s) ->
  (forall s', only_vk s s' -> Q tt s') -> wp (release_pages t va n) Q s.
Proof using Hlaws.
  intros Ht Hok HQ. unfold release_pages. eapply wp_mono.
  - apply (wp_for _ (fun _ s' => only_vk s s')); [by apply only_vk_refl |]. intros j s' _ Ho.
    apply wp_bind, (only_vk_zoom _ s); [done | |].
    { intros k Hk0. eapply wp_mono; [by apply Ht |]. by intros _ k' ->. }
    intros t' s1 H1. apply wp_bind, (only_vk_zoom _ s); [done | by intros; apply wp_km_unmap_page |].
    intros p s2 H2. apply (only_vk_zoom _ s); [done | by intros; apply wp_km_free_page | done].
  - intros [] s' Ho. by apply HQ.
Qed.

Lemma placed_area e n l i s s1 s' : placed e n l i s s1 -> only_vk s1 s' ->
  areas s' !! i = Some (area_of (areas s1) i).
Proof using.
  intros (l1 & l2 & _ & [_ Hal _] & _) Ho. rewrite (only_vk_areas _ _ Ho). apply area_live, (al_live _ _ _ _ _ _ Hal).
  apply elem_of_app. right. by left.
Qed.

(** The area at [i] is gone from the list, and the others have not moved. *)
Definition displaced (e : Z) (l : list Z) s s' : Prop :=
  list_ok e l s' /\ forall p, base (area_of (areas s') p) = base (area_of (areas s) p) /\
    size (area_of (areas s') p) = size (area_of (areas s) p).

Lemma wp_displace e l1 i l2 s s1 (Q : unit -> vmas K -> Prop) : list_ok e (l1 ++ i :: l2) s -> only_vk s s1 ->
  (forall s', displaced e (l1 ++ l2) s s' -> Q tt s') -> wp (remove_from_list l_head i) Q s1.
Proof using Hhead.
  intros Hok Ho HQ. pose proof (only_vk_list_ok _ _ _ _ Ho Hok) as [Hkm Hal Hlive].
  eapply wp_mono; [by apply (wp_remove_from_list d start l_head e l1 i l2) |].
  intros [] s' (m' & h' & -> & Hal' & Hf). apply HQ. split; [split |].
  - change (km_ok (vk (over l_head h' s1))). by rewrite vk_over.
  - by rewrite head_set_areas, view_over_head.
  - intros p Hp. change (km_live (vk (over l_head h' s1)) p). rewrite vk_over. apply Hlive.
    rewrite elem_of_app, elem_of_cons. apply elem_of_app in Hp. tauto.
  - intros p. destruct (Hf p) as [_ E]. rewrite (only_vk_areas _ _ Ho) in E. rewrite areas_set_areas.
    split; [by apply (f_equal base) in E | by apply (f_equal size) in E].
Qed.

(** Two areas of a list do not start at the same place. *)
Lemma base_unique e l1 i l2 s p : list_ok e (l1 ++ i :: l2) s -> p ∈ l1 ++ l2 ->
  base (area_of (areas s) p) <> base (area_of (areas s) i).
Proof using.
  intros [_ Hal _] Hp Heq. pose proof (al_chain _ _ _ _ _ _ Hal) as Hc. rewrite spans_app in Hc.
  cbn [spans fmap list_fmap] in Hc. fold (spans (areas s) l2) in Hc.
  assert ((base (area_of (areas s) p), size (area_of (areas s) p)) ∈ spans (areas s) l1 ++ spans (areas s) l2) as Hin.
  { rewrite <- spans_app. by apply (list_elem_of_fmap_2 (fun q => (base (area_of (areas s) q), size (area_of (areas s) q)))). }
  pose proof (chain_disjoint _ _ _ _ _ _ _ _ _ Hc Hin) as Hd. apply chain_app in Hc as (Hc1 & Hn & Hc2).
  rewrite Heq in *. apply elem_of_app in Hin as [Hin|Hin];
    [apply (chain_bounds _ _ _ _ _ _ Hc1) in Hin | apply (chain_bounds _ _ _ _ _ _ Hc2) in Hin]; lia.
Qed.
End placing.

#[global] Instance vmalloc_head_lens {K} : HeadLens (K := K) l_vmalloc_head.
Proof. split; try done. by intros []. Qed.
#[global] Instance mmap_head_lens {K} : HeadLens (K := K) l_mmap_head.
Proof. split; try done. by intros []. Qed.
#[global] Instance us_head_lens {K} : HeadLens (K := K) l_us_head.
Proof. split; try done. by intros []. Qed.

(** ** The functions *)

Section functions.
Context {K : Type} `{Hk : KernelMem K} `{Hlaws : !KernelMemLaws K}.
Implicit Types s : vmas K.

Lemma page_round_pos n : 0 < n <= 2 ^ 45 -> n <= page_round n < n + 0x1000 /\ page_round n mod 0x1000 = 0.
Proof using.
  intros Hn. unfold page_round, PAGE_SIZE_4KB, PAGE_MASK_4KB. rewrite u64_small by lia.
  replace (Z.land (n + 0x1000 - 1) (2 ^ 64 - 0x1000)) with ((n + 0x1000 - 1) / 0x1000 * 0x1000); [dlia |].
  change (2 ^ 64 - 0x1000) with (Z.shiftl (Z.ones 52) 12).
  assert (n + 0x1000 - 1 = Z.land (n + 0x1000 - 1) (Z.ones 64)) as E.
  { rewrite Z.land_ones, Z.mod_small by lia. done. }
  apply Z.bits_inj'. intros j Hj. change 0x1000 with (2 ^ 12) at 2 3. rewrite Z.land_spec, Z.shiftl_spec by lia.
  destruct (Z.ltb_spec j 12).
  - rewrite Z.mul_pow2_bits_low, (Z.testbit_neg_r _ (j - 12)), andb_false_r by lia. done.
  - rewrite Z.mul_pow2_bits, Z.div_pow2_bits by lia. replace (j - 12 + 12) with j by lia.
    rewrite Z.testbit_ones_nonneg by lia. destruct (Z.ltb_spec (j - 12) 52); [by rewrite andb_true_r |].
    rewrite andb_false_r. rewrite E, Z.land_spec, Z.testbit_ones_nonneg by lia.
    destruct (Z.ltb_spec j 64); [lia | apply andb_false_r].
Qed.

(** The result of [vmalloc] and of [user_alloc_stack]. *)
Definition alloc_result (d : dir) (start : Z) (l_head : lens (vmas K) Z) (e n : Z) (l : list Z) (r : Z) s s' : Prop :=
  (r = 0 /\ list_ok d start l_head e l s' /\ areas s' = areas s) \/
  (exists i, r = base (area_of (areas s') i) /\ placed d start l_head e n l i s s').

Lemma wp_vmalloc e l n s : list_ok Up VMALLOC_START l_vmalloc_head e l s -> VMALLOC_START <= e ->
  0 < n <= 2 ^ 31 -> e + page_round n <= bound Up ->
  wp (vmalloc n) (fun r s' => alloc_result Up VMALLOC_START l_vmalloc_head e (page_round n) l r s s') s.
Proof.
  intros Hok Hse Hn He. destruct (page_round_pos n) as [Hr _]; [lia |].
  unfold vmalloc. destruct (Z.eqb_spec n 0); [lia |].
  apply (wp_place Up VMALLOC_START l_vmalloc_head e (page_round n) l _ s Hok); [done | simpl; lia | lia | done | |].
  - intros s' Hok' Ha. by left.
  - intros i s1 Hp. apply wp_bind. eapply wp_mono.
    { apply (wp_for _ (fun _ s' => only_vk s1 s')); [apply only_vk_refl; destruct Hp as (? & ? & _ & [] & _); done |].
      intros j s' _ Ho. apply wp_bind, (only_vk_zoom _ s1); [done | by intros; apply wp_km_alloc_page |].
      intros p s2 H2. apply wp_bind. eapply wp_get_area; [by eapply placed_area |].
      apply (only_vk_zoom _ s1); [done | by intros; apply wp_km_map_page | done]. }
    intros [] s' Ho. apply wp_bind. eapply wp_get_area; [by eapply placed_area |]. apply wp_ret. right.
    exists i. split; [by rewrite (only_vk_areas _ _ Ho) | by apply (only_vk_placed _ _ _ _ _ _ _ _ s1)].
Qed.

(** Bases and sizes are multiples of the page size. *)
Definition page_aligned (l : list Z) s : Prop :=
  forall p, p ∈ l -> base (area_of (areas s) p) mod PAGE_SIZE_4KB = 0 /\ size (area_of (areas s) p) mod PAGE_SIZE_4KB = 0.

Lemma page_round_count n : 0 < n <= 2 ^ 31 -> page_round n = PAGE_SIZE_4KB * Z.of_nat (page_count n).
Proof using.
  intros Hn. destruct (page_round_pos n) as [H1 H2]; [lia |]. unfold page_count, PAGE_SIZE_4KB. clear - Hn H1 H2.
  rewrite Z2Nat.id by dlia. dlia.
Qed.

Section mappings.
Context `{Hmaps : !KernelMapLaws K}.

(** The [n] pages from [b] on are mapped to frames that were not in use, one for
    each page, and no other mapping has changed. *)
Definition mapped_pages (k k' : K) (b : Z) (n : nat) : Prop :=
  exists fs, length fs = n /\ NoDup fs /\ (forall p, p ∈ fs -> p <> 0 /\ ~ km_page k p /\ km_page k' p) /\
    (forall j p, fs !! j = Some p -> km_maps k' (b + PAGE_SIZE_4KB * Z.of_nat j) = Some (p, PTE_WRITABLE_FLAG)) /\
    (forall w, w mod PAGE_SIZE_4KB = 0 -> canonical w -> ~ b <= w < b + PAGE_SIZE_4KB * Z.of_nat n -> km_maps k' w = km_maps k w).

(** The pages so far, and what is left for the others. *)
Definition mapped_upto (n : nat) (b j : Z) s1 s' : Prop :=
  only_vk s1 s' /\ km_room (4 * (Z.of_nat n - j)) (vk s') /\ (forall q, km_page (vk s1) q -> km_page (vk s') q) /\
  mapped_pages (vk s1) (vk s') b (Z.to_nat j).

Lemma wp_map_step n i a j s1 s' : areas s1 !! i = Some a -> base a mod PAGE_SIZE_4KB = 0 -> kernel_area (base a) ->
  base a + PAGE_SIZE_4KB * Z.of_nat n <= bound Up -> 0 <= j < Z.of_nat n -> mapped_upto n (base a) j s1 s' ->
  wp (p ← zoom l_vk km_alloc_page; a ← get_area i; zoom l_vk (km_map_page p (u64 (base a + j * PAGE_SIZE_4KB)) PTE_WRITABLE_FLAG))
    (fun _ => mapped_upto n (base a) (j + 1) s1) s'.
Proof using Hlaws.
  intros Ha Hb Hka Hend Hj ((k & -> & Hk0 & Hlv) & Hroom & Hmono & fs & Hlen & Hnd & Hfs & Hmap & Hout). cbn [vk set_vk] in *.
  apply wp_bind, wp_zoom. eapply wp_mono; [apply wp_and; [by apply wp_km_alloc_page | apply (wp_km_fresh_page _ _ Hk0 Hroom); lia] |]. cbn [over l_vk].
  intros p k2 ((Hk2 & Hlv2) & Hp0 & Hpf & Hpu & Hroom2 & Hm2).
  apply wp_bind. eapply wp_get_area; [exact Ha |]. unfold kernel_area, bound, PAGE_SIZE_4KB in *.
  rewrite u64_small by lia. apply wp_zoom. set (v := base a + j * 0x1000).
  assert (v mod 0x1000 = 0) as Hv by (unfold v; by rewrite Z_mod_plus_full).
  eapply wp_mono; [apply wp_and; [by apply wp_km_map_page | apply (wp_km_map_at _ _ _ _ _ Hk2 Hroom2); [lia | apply Hpu; by left | exact Hv | unfold kernel_area; lia]] |].
  cbn [over l_vk]. intros [] k3 ((Hk3 & Hlv3) & Hroom3 & Hmono3 & Hm3). split; [| split; [| split]].
  - exists k3. split; [done |]. split; [done |]. intros q. by rewrite Hlv3, Hlv2, Hlv.
  - cbn [vk set_vk]. by replace (4 * (Z.of_nat n - (j + 1))) with (4 * (Z.of_nat n - j) - 1 - 3) by lia.
  - intros q Hq. apply Hmono3, Hpu. right. by apply Hmono.
  - exists (fs ++ [p]). assert (p ∉ fs) as Hpn by (intros Hin; by apply Hpf, Hfs). cbn [vk set_vk].
    split; [rewrite length_app; cbn [length]; lia |].
    split; [apply NoDup_app; split; [done |]; split; [by intros x Hx Hx'%list_elem_of_singleton; subst x | by apply NoDup_singleton] |].
    split; [| split].
    + intros x [Hx|Hx%list_elem_of_singleton]%elem_of_app; [| subst x].
      * destruct (Hfs x Hx) as (? & ? & ?). split; [done |]. split; [done |]. apply Hmono3, Hpu. by right.
      * split; [done |]. split; [intros Hq; by apply Hpf, Hmono | apply Hmono3, Hpu; by left].
    + intros x y Hxy. unfold PAGE_SIZE_4KB in *. assert (x < length (fs ++ [p]))%nat as Hxl by (eapply lookup_lt_Some; exact Hxy).
      rewrite length_app in Hxl. cbn [length] in Hxl.
      rewrite Hm3 by (first [rewrite (Z.mul_comm 0x1000), Z_mod_plus_full; exact Hb | unfold canonical; lia]).
      destruct (decide (x = length fs)) as [->|Hx].
      * rewrite lookup_app_r, Nat.sub_diag in Hxy by lia. injection Hxy as <-. rewrite decide_True by (unfold v; lia). done.
      * rewrite lookup_app_l in Hxy by lia. rewrite decide_False by (unfold v; lia). rewrite Hm2. by apply Hmap.
    + intros w Hw Hc Hr. unfold PAGE_SIZE_4KB in *. rewrite Hm3, decide_False, Hm2 by (done || unfold v; lia). apply Hout; [done | done | lia].
Qed.

Lemma fresh_area_fill n l i a f s s2 : fresh_area n l i a s s2 -> fresh_area (size (f a)) l i (f a) s (set_areas (<[i := f a]> (areas s2)) s2).
Proof using.
  intros [[Hi Hil] (k & m & ->) Ha Hs Hl Hk0 Hlv]. rewrite areas_set_areas, set_areas_twice.
  split; [done | by eexists _, _ | by rewrite areas_set_areas, lookup_insert_eq | done | | done | done].
  intros p Hp. rewrite areas_set_areas, lookup_insert_ne by (by intros ->). by apply Hl.
Qed.

(** A new area follows aligned areas, so it is aligned. *)
Lemma placed_aligned e n l i s s' : page_aligned l s -> n mod PAGE_SIZE_4KB = 0 -> placed Up VMALLOC_START l_vmalloc_head e n l i s s' -> page_aligned (i :: l) s'.
Proof using.
  intros Hal Hn (l1 & l2 & _ & _ & Hsz & Hp & Hf0 & Hf1 & _). assert (page_aligned l s') as Hal'.
  { intros p Hpl. destruct (Hp p Hpl) as (-> & -> & _). by apply Hal. }
  intros p [->|Hpl]%elem_of_cons; [| by apply Hal']. split; [| by rewrite Hsz].
  destruct l as [|c l]; [by rewrite Hf0 |]. destruct Hf1 as (q & Hq & E); [done |]. destruct (Hal' q Hq) as [E1 E2].
  cbn [sgn] in E. rewrite !Z.mul_1_l in E. rewrite E. by rewrite Z.add_mod, E1, E2 by done.
Qed.

Lemma placed_extent e n l i s s' : placed Up VMALLOC_START l_vmalloc_head e n l i s s' ->
  VMALLOC_START <= base (area_of (areas s') i) /\ 0 < n /\ base (area_of (areas s') i) + n <= e + n /\ km_ok (vk s') /\ is_Some (areas s' !! i).
Proof using.
  intros (l1 & l2 & _ & [Hk0 Hal _] & Hn & _). pose proof (al_chain _ _ _ _ _ _ Hal) as Hc.
  assert (i ∈ l1 ++ i :: l2) as Hi by (apply elem_of_app; right; by left).
  apply (chain_bounds _ _ _ _ (base (area_of (areas s') i)) (size (area_of (areas s') i))) in Hc; cycle 1.
  { by apply (list_elem_of_fmap_2 (fun q => (base (area_of (areas s') q), size (area_of (areas s') q)))). }
  rewrite Hn in Hc. cbn [sgn] in Hc. split; [lia |]. split; [lia |]. split; [lia |]. split; [done | by apply (al_live _ _ _ _ _ _ Hal)].
Qed.

Lemma wp_vmalloc_mapped e l n s : list_ok Up VMALLOC_START l_vmalloc_head e l s -> page_aligned l s -> VMALLOC_START <= e ->
  0 < n <= 2 ^ 31 -> e + page_round n <= bound Up ->
  (forall i k, km_alloc sizeof_vm_area (vk s) = Ok (i, k) -> i <> 0 -> km_room (4 * Z.of_nat (page_count n)) k) ->
  exists i k, km_alloc sizeof_vm_area (vk s) = Ok (i, k) /\
    wp (vmalloc n) (fun r s' =>
      if i =? 0 then r = 0 /\ s' = set_vk k s
      else r = base (area_of (areas s') i) /\ placed Up VMALLOC_START l_vmalloc_head e (page_round n) l i s s' /\
        page_aligned (i :: l) s' /\ mapped_pages k (vk s') r (page_count n)) s.
Proof using Hlaws.
  intros Hok Hal Hse Hn He Hroom. destruct (page_round_pos n) as [Hr Hrm]; [lia |].
  destruct (wp_ok _ _ _ (wp_km_alloc sizeof_vm_area (vk s) (lo_km _ _ _ _ _ _ Hok) eq_refl)) as (i & k & Ek & Hk0 & Hnew).
  exists i, k. split; [done |]. specialize (Hroom i k Ek). unfold vmalloc. rewrite (proj2 (Z.eqb_neq n 0)) by lia.
  apply wp_bind. unfold new_area. apply wp_bind, wp_zoom. eapply wp_of_ok; [exact Ek |]. cbn [over l_vk].
  destruct Hnew as [[-> Hlv]|(Hi & Hnl & Hlv)]; [by apply wp_bind, wp_ret, wp_ret, wp_ret |].
  rewrite (proj2 (truthy_true i) Hi), (proj2 (Z.eqb_neq i 0) Hi). apply wp_bind, wp_modify, wp_ret. rewrite (proj2 (truthy_true i) Hi). cbn [negb].
  assert (i ∉ l) as Hil by (intros Hin; by apply Hnl, (lo_live _ _ _ _ _ _ Hok)).
  pose proof (fresh_area_new l i k s Hi Hil Hk0 Hlv) as Hfr. apply (fresh_area_fill _ _ _ _ (set_size (page_round n))) in Hfr.
  apply wp_bind. eapply wp_upd_area; [apply lookup_insert_eq |]. 
  apply wp_bind. eapply (wp_add_fresh Up VMALLOC_START l_vmalloc_head e); [exact Hok | exact Hfr | done | simpl; lia | cbn; lia | exact He |].
  intros s1 Hp (m1 & h1 & E1) _. assert (vk s1 = k) as Ev by by rewrite E1.
  destruct (placed_extent _ _ _ _ _ _ Hp) as (Hb1 & _ & Hb2 & Hkm & Hlive). pose proof (placed_aligned _ _ _ _ _ _ Hal Hrm Hp) as Hal1.
  set (a := area_of (areas s1) i) in *. assert (areas s1 !! i = Some a) as Ha by by apply area_live.
  pose proof (page_round_count n Hn) as Hcount. apply wp_bind. eapply wp_mono.
  { apply (wp_for (page_count n) (fun j => mapped_upto (page_count n) (base a) j s1)); [split; [by apply only_vk_refl |] |].
    - rewrite Ev. split; [rewrite Z.sub_0_r; by apply Hroom |]. split; [done |]. exists []. cbn [length Z.to_nat].
      split; [done |]. split; [by apply NoDup_nil_2 |]. split; [by intros p ?%elem_of_nil | done].
    - intros j s2 Hj Hs2. apply wp_map_step; [done | by apply Hal1, list_elem_of_here | unfold kernel_area, bound, VMALLOC_START in *; lia | lia | lia | done]. }
  intros [] s2 (Ho & _ & _ & Hm). rewrite Z.add_0_l, Nat2Z.id, Ev in Hm. apply wp_bind.
  eapply wp_get_area; [rewrite (only_vk_areas _ _ Ho); exact Ha |]. apply wp_ret. rewrite (only_vk_areas _ _ Ho).
  split; [done |]. split; [by apply (only_vk_placed _ _ _ _ _ _ _ _ s1) |]. split; [| done].
  intros p Hpl. rewrite (only_vk_areas _ _ Ho). by apply Hal1.
Qed.
End mappings.

(** The result of [vfree] and of [user_free_stack]. *)
Definition freed (d : dir) (start : Z) (l_head : lens (vmas K) Z) (e : Z) (l : list Z) (ptr : Z) s s' : Prop :=
  ((forall p, p ∈ l -> base (area_of (areas s) p) <> ptr) /\ s' = s) \/
  (exists l1 i l2, l = l1 ++ i :: l2 /\ base (area_of (areas s) i) = ptr /\ displaced d start l_head e (l1 ++ l2) s s').

Lemma NoDup_app_cons_inj (x : Z) l1 l2 m1 m2 : NoDup (l1 ++ x :: l2) -> l1 ++ x :: l2 = m1 ++ x :: m2 ->
  m1 = l1 /\ m2 = l2.
Proof using.
  revert m1. induction l1 as [|y l1 IH]; intros [|z m1]; simpl; intros Hnd E; injection E; intros; subst; [done | | |].
  - apply NoDup_cons in Hnd as [Hx _]. exfalso. apply Hx, elem_of_app. right. by left.
  - apply NoDup_cons in Hnd as [Hx _]. exfalso. apply Hx, elem_of_app. right. by left.
  - apply NoDup_cons in Hnd as [_ Hnd]. by destruct (IH m1 Hnd) as [-> ->].
Qed.

Lemma wp_user_alloc_stack e l n s : list_ok Down USER_STACK_MAX l_us_head e l s -> - USER_STACK_MAX <= e ->
  0 < n -> e + n <= bound Down ->
  wp (user_alloc_stack n) (fun r s' => alloc_result Down USER_STACK_MAX l_us_head e n l r s s') s.
Proof.
  intros Hok Hse Hn He. unfold user_alloc_stack. destruct (Z.eqb_spec n 0); [lia |].
  apply (wp_place Down USER_STACK_MAX l_us_head e n l _ s Hok); [done | simpl; lia | lia | done | |].
  - intros s' Hok' Ha. by left.
  - intros i s1 Hp. apply wp_bind, (only_vk_zoom _ s1); [| by intros; apply wp_km_alloc_page |].
    { apply only_vk_refl. destruct Hp as (? & ? & _ & [] & _). done. }
    intros p s2 H2. apply wp_bind. eapply wp_get_area; [by eapply placed_area |].
    apply wp_bind, (only_vk_zoom _ s1); [done | by intros; apply wp_km_map_page |]. intros _ s3 H3. apply wp_ret. right.
    exists i. split; [by rewrite (only_vk_areas _ _ H3) | by apply (only_vk_placed _ _ _ _ _ _ _ _ s1)].
Qed.

(** The search by base address and the removal, common to [vfree] and
    [user_free_stack]. *)
Lemma wp_free_by_base d start l_head `{!HeadLens l_head} (rel : Z -> vm_area -> M (vmas K) unit) e l ptr s :
  (forall c a s1 (Q : unit -> vmas K -> Prop), km_ok (vk s1) -> (forall s', only_vk s1 s' -> Q tt s') -> wp (rel c a) Q s1) ->
  list_ok d start l_head e l s ->
  wp (c ← search l_head (fun a => base a =? ptr);
      if negb (truthy c) then mret tt
      else a ← get_area c; rel c a;; remove_from_list l_head c)
    (fun _ s' => freed d start l_head e l ptr s s') s.
Proof.
  intros Hrel Hok. pose proof Hok as [Hkm Hal Hlive]. apply wp_bind.
  apply (wp_search d start l_head _ e l); [done |].
  intros r [[-> Hr]|[Hr Hp]].
  - apply wp_ret. left. split; [| done]. intros p Hp%Hr. by apply Z.eqb_neq.
  - apply list_elem_of_split in Hr as (l1 & l2 & ->). apply Z.eqb_eq in Hp.
    assert (r ∈ l1 ++ r :: l2) as Hin by (apply elem_of_app; right; by left).
    assert (r <> 0) as Hr0.
    { destruct (al_dll _ _ _ _ _ _ Hal) as (q & Hd & _). by apply (dseg_valid _ _ _ _ _ _ _ r Hd) in Hin as [_ ?]. }
    rewrite (proj2 (truthy_true r) Hr0). simpl. apply wp_bind.
    eapply wp_get_area; [by apply area_live, (al_live _ _ _ _ _ _ Hal) |].
    apply wp_bind, Hrel; [done |]. intros s1 Ho. apply (wp_displace d start l_head e l1 r l2 s); [exact Hok | exact Ho |].
    intros s' Hs'. right. by exists l1, r, l2.
Qed.

Lemma wp_vfree e l ptr s : list_ok Up VMALLOC_START l_vmalloc_head e l s ->
  wp (vfree ptr) (fun _ s' => freed Up VMALLOC_START l_vmalloc_head e l ptr s s') s.
Proof.
  apply (wp_free_by_base Up VMALLOC_START l_vmalloc_head (fun _ a => release_pages km_read_cr3 (base a) (size a))).
  intros _ a s1 Q Hkm HQ. apply wp_release_pages; [by intros; apply wp_km_read_cr3 | done | done].
Qed.

Lemma wp_user_free_stack e l ptr s : list_ok Down USER_STACK_MAX l_us_head e l s ->
  wp (user_free_stack ptr) (fun _ s' => freed Down USER_STACK_MAX l_us_head e l ptr s s') s.
Proof.
  apply (wp_free_by_base Down USER_STACK_MAX l_us_head (fun _ a => release_pages km_read_cr3 (u64 (base a - size a)) (size a))).
  intros _ a s1 Q Hkm HQ. apply wp_release_pages; [by intros; apply wp_km_read_cr3 | done | done].
Qed.
End functions.

(** * Properties *)

Section properties.
Context {K : Type} `{Hk : KernelMem K} `{Hlaws : !KernelMemLaws K}.
Implicit Types s : vmas K.

(** C10: [vmalloc] of up to 2 GiB. If [kmalloc] has no object for the area, it
    returns null and changes nothing else. Otherwise, with pages left, it returns the
    base of a new area of the size rounded up to pages, in the kernel's range, at
    the first place of the list that is large enough: it meets no other area, the
    others stay where they are and the list stays well formed. Every page of the
    area is mapped, writable, to a frame of its own that was not in use, and no
    other page's mapping changes. *)
Theorem vmalloc_spec `{!KernelMapLaws K} e l n s : list_ok Up VMALLOC_START l_vmalloc_head e l s -> page_aligned l s -> VMALLOC_START <= e ->
  0 < n <= 2 ^ 31 -> e + page_round n <= bound Up ->
  (forall i k, km_alloc sizeof_vm_area (vk s) = Ok (i, k) -> i <> 0 -> km_room (4 * Z.of_nat (page_count n)) k) ->
  n <= page_round n < n + 0x1000 /\ page_round n = PAGE_SIZE_4KB * Z.of_nat (page_count n) /\
  exists i k, km_alloc sizeof_vm_area (vk s) = Ok (i, k) /\
    wp (vmalloc n) (fun r s' =>
      if i =? 0 then r = 0 /\ s' = set_vk k s
      else r = base (area_of (areas s') i) /\ placed Up VMALLOC_START l_vmalloc_head e (page_round n) l i s s' /\
        page_aligned (i :: l) s' /\ mapped_pages k (vk s') r (page_count n)) s.
Proof.
  intros Hok Hal Hse Hn He Hroom. destruct (page_round_pos n) as [Hr _]; [lia |]. split; [done |]. split; [by apply page_round_count |].
  by apply wp_vmalloc_mapped.
Qed.

(** [vfree] removes the area that starts at its argument, the one [vmalloc]
    returned, and no other; for an address where no area starts it does nothing. *)
Theorem vfree_spec e l ptr s : list_ok Up VMALLOC_START l_vmalloc_head e l s ->
  wp (vfree ptr) (fun _ s' => freed Up VMALLOC_START l_vmalloc_head e l ptr s s') s.
Proof. apply wp_vfree. Qed.

(** [vmalloc] and [vfree] of the result: the areas are again those of before,
    in the same order and places. *)
Theorem vmalloc_vfree_roundtrip e l n s : list_ok Up VMALLOC_START l_vmalloc_head e l s -> VMALLOC_START <= e ->
  0 < n <= 2 ^ 31 -> e + page_round n <= bound Up ->
  wp (r ← vmalloc n; vfree r;; mret r) (fun r s' => r = 0 \/
    (list_ok Up VMALLOC_START l_vmalloc_head (e + page_round n) l s' /\
     forall p, p ∈ l -> base (area_of (areas s') p) = base (area_of (areas s) p) /\
       size (area_of (areas s') p) = size (area_of (areas s) p))) s.
Proof.
  intros Hok Hse Hn He. apply wp_bind. eapply wp_mono; [by apply (wp_vmalloc e l n) |].
  intros r s1 [(-> & Hok1 & _)|(i & -> & l1 & l2 & -> & Hok1 & _ & Hp & _)]; apply wp_bind.
  - eapply wp_mono; [by apply (wp_vfree e l) |]. intros _ s' _. apply wp_ret. by left.
  - eapply wp_mono; [by apply (wp_vfree _ _ _ _ Hok1) |]. intros [] s' Hf. apply wp_ret. right.
    destruct Hf as [[Hno _]|(m1 & j & m2 & Hl & Hb & Hok' & Hsame)].
    { exfalso. apply (Hno i); [apply elem_of_app; right; by left | done]. }
    assert (j = i) as ->.
    { destruct (decide (j = i)); [done |]. exfalso. apply (base_unique _ _ _ _ l1 i l2 s1 j Hok1); [| done].
      assert (j ∈ l1 ++ i :: l2) as Hj by (rewrite Hl; apply elem_of_app; right; by left).
      rewrite elem_of_app, elem_of_cons in Hj. apply elem_of_app. tauto. }
    assert (NoDup (l1 ++ i :: l2)) as Hnd by (destruct Hok1 as [_ [(q & _ & Hnd) _ _] _]; done).
    assert (m1 = l1 /\ m2 = l2) as [-> ->] by (by apply (NoDup_app_cons_inj i)).
    split; [done |]. intros p Hpl. destruct (Hp p Hpl) as (E1 & E2 & _), (Hsame p) as [E3 E4].
    split; [by rewrite E3 | by rewrite E4].
Qed.

(** [user_alloc_stack] places a stack below the others, in the first gap that
    fits, without overlap; it returns the top of the stack. *)
Theorem user_alloc_stack_spec e l n s : list_ok Down USER_STACK_MAX l_us_head e l s -> - USER_STACK_MAX <= e ->
  0 < n -> e + n <= bound Down ->
  wp (user_alloc_stack n) (fun r s' => alloc_result Down USER_STACK_MAX l_us_head e n l r s s') s.
Proof. apply wp_user_alloc_stack. Qed.

(** [user_free_stack] looks for the top of a stack, but the one caller passes
    the bottom: with two adjacent stacks it is the lower one that is freed. *)
Theorem user_free_stack_wrong e l1 a b l2 s :
  list_ok Down USER_STACK_MAX l_us_head e (l1 ++ a :: b :: l2) s ->
  base (area_of (areas s) b) = base (area_of (areas s) a) - size (area_of (areas s) a) ->
  wp (user_free_stack (base (area_of (areas s) a) - size (area_of (areas s) a)))
    (fun _ s' => list_ok Down USER_STACK_MAX l_us_head e (l1 ++ a :: l2) s') s.
Proof.
  intros Hok Heq. rewrite <- Heq. eapply wp_mono; [by apply wp_user_free_stack |].
  replace (l1 ++ a :: b :: l2) with ((l1 ++ [a]) ++ b :: l2) in * by (by rewrite <- app_assoc).
  intros [] s' [[Hno _]|(m1 & j & m2 & Hl & Hb & Hok' & _)].
  { exfalso. apply (Hno b); [apply elem_of_app; right; by left | done]. }
  assert (j = b) as ->.
  { destruct (decide (j = b)); [done |]. exfalso. apply (base_unique _ _ _ _ (l1 ++ [a]) b l2 s j Hok); [| done].
    assert (j ∈ (l1 ++ [a]) ++ b :: l2) as Hj by (rewrite Hl; apply elem_of_app; right; by left).
    rewrite elem_of_app, elem_of_cons in Hj. apply elem_of_app. tauto. }
  assert (NoDup ((l1 ++ [a]) ++ b :: l2)) as Hnd by (destruct Hok as [_ [(q & _ & Hnd) _ _] _]; done).
  assert (m1 = l1 ++ [a] /\ m2 = l2) as [-> ->] by (by apply (NoDup_app_cons_inj b)).
  by rewrite <- app_assoc in Hok'.
Qed.
End properties.

(** * Witnesses *)

(** Memory services whose objects are a set of addresses. *)
#[local] Instance set_mem_services : KernelMem (gset Z) := {
  km_alloc n := fun s => let p := fresh ({[0]} ∪ s) in Ok (p, {[p]} ∪ s);
  km_free p := fun s => Ok (tt, s ∖ {[p]});
  km_alloc_page := mret 0x5000;
  km_free_page p := mret tt;
  km_map_page p v f := mret tt;
  km_unmap_page t v := mret 0x5000;
  km_read_cr3 := mret 0x1000;
}.
#[local] Program Instance set_mem_laws : KernelMemLaws (gset Z) := {
  km_ok s := True;
  km_live s p := p ∈ s;
}.
Next Obligation.
  intros n s _ _. unfold wp. simpl. pose proof (is_fresh ({[0]} ∪ s)) as Hf.
  rewrite elem_of_union, elem_of_singleton in Hf. split; [done |]. right. split_and!; [tauto | tauto |].
  intros p. by rewrite elem_of_union, elem_of_singleton.
Qed.
Next Obligation.
  intros p s _ _. unfold wp. simpl. split; [done |]. intros q. rewrite elem_of_difference, elem_of_singleton. tauto.
Qed.
Next Obligation. by intros s _. Qed.
Next Obligation. by intros p s _. Qed.
Next Obligation. by intros p v f s _. Qed.
Next Obligation. by intros t v s _. Qed.
Next Obligation. by intros s _. Qed.

Definition vmas0 : vmas (gset Z) := Vmas ∅ ∅ 0 0 0.

Lemma list_ok_empty d start l_head e (s : vmas (gset Z)) : view l_head s = 0 -> sgn d * start <= e ->
  list_ok d start l_head e [] s.
Proof.
  intros Hh He. split; [done | | by intros p ?%elem_of_nil]. split; [| by intros p ?%elem_of_nil | done].
  exists 0. split; [done | by apply NoDup_nil_2].
Qed.

(** Memory services with objects, frames that are handed out in order, and mappings. *)
Record page_mem : Type := PageMem { pm_objects : gset Z; pm_next : Z; pm_maps : gmap Z (Z * Z) }.
#[local] Instance page_mem_services : KernelMem page_mem := {
  km_alloc n := fun s => let p := fresh ({[0]} ∪ pm_objects s) in Ok (p, PageMem ({[p]} ∪ pm_objects s) (pm_next s) (pm_maps s));
  km_free p := fun s => Ok (tt, PageMem (pm_objects s ∖ {[p]}) (pm_next s) (pm_maps s));
  km_alloc_page := fun s => Ok (pm_next s, PageMem (pm_objects s) (pm_next s + PAGE_SIZE_4KB) (pm_maps s));
  km_free_page p := mret tt;
  km_map_page p v f := fun s => Ok (tt, PageMem (pm_objects s) (pm_next s) (<[v := (p, f)]> (pm_maps s)));
  km_unmap_page t v := fun s => Ok (0, PageMem (pm_objects s) (pm_next s) (delete v (pm_maps s)));
  km_read_cr3 := mret 0x1000;
}.
#[local] Program Instance page_mem_laws : KernelMemLaws page_mem := {
  km_ok s := 0 < pm_next s;
  km_live s p := p ∈ pm_objects s;
}.
Next Obligation.
  intros n s Hs _. unfold wp. simpl. pose proof (is_fresh ({[0]} ∪ pm_objects s)) as Hf.
  rewrite elem_of_union, elem_of_singleton in Hf. split; [done |]. right. split_and!; [tauto | tauto |].
  intros p. by rewrite elem_of_union, elem_of_singleton.
Qed.
Next Obligation.
  intros p s Hs _. unfold wp. simpl. split; [done |]. intros q. rewrite elem_of_difference, elem_of_singleton. tauto.
Qed.
Next Obligation. intros s Hs. unfold wp. simpl in *. unfold PAGE_SIZE_4KB. split; [lia | done]. Qed.
Next Obligation. by intros p s Hs. Qed.
Next Obligation. by intros p v f s Hs. Qed.
Next Obligation. by intros t v s Hs. Qed.
Next Obligation. by intros s Hs. Qed.
#[local] Program Instance page_mem_maps : KernelMapLaws page_mem := {
  km_maps s v := pm_maps s !! v;
  km_page s p := p mod PAGE_SIZE_4KB = 0 /\ p < pm_next s;
  km_room n s := pm_next s mod PAGE_SIZE_4KB = 0;
}.
Next Obligation.
  intros r s Hs Hr _. unfold wp. simpl in *. unfold PAGE_SIZE_4KB in *. clear r. revert Hs Hr. generalize (pm_next s). intros x Hs Hr.
  split; [lia |]. split; [lia |]. split; [| split; [| done]].
  - intros q. clear s. split; [intros [H1 H2] | intros [->|[H1 H2]]]; dlia.
  - clear s. dlia.
Qed.
Next Obligation.
  intros r p v f s _ Hr _ _ _ _. unfold wp. simpl. split; [done |]. split; [done |]. intros w _ _. rewrite lookup_insert. by repeat case_decide; subst.
Qed.

(** Two areas with a gap of one page between them: two pages go after the second. *)
Definition two_areas : vmas page_mem :=
  Vmas (PageMem {[8; 16]} 0x100000 ∅) {[ 8 := VmArea VMALLOC_START 0x1000 0 0 0 0 16 0;
    16 := VmArea (VMALLOC_START + 0x2000) 0x1000 0 0 0 0 0 8 ]} 8 0 0.

Lemma two_areas_ok : list_ok Up VMALLOC_START l_vmalloc_head (VMALLOC_START + 0x3000) [8; 16] two_areas.
Proof.
  split; [done | split | ].
  - exists 16. split; [cbn; by split_and! |]. repeat (apply NoDup_cons_2; [by rewrite ?elem_of_cons, elem_of_nil; lia |]). by apply NoDup_nil_2.
  - intros p [->|[->|[]%elem_of_nil]%elem_of_cons]%elem_of_cons; by eexists.
  - cbn [spans fmap list_fmap chain]. by closed_range.
  - intros p. rewrite !elem_of_cons, elem_of_nil. simpl. set_solver.
Qed.

Lemma vmalloc_spec_witness : wp (vmalloc 0x1800) (fun r s' =>
  exists p q, p <> q /\ km_maps (vk s') r = Some (p, PTE_WRITABLE_FLAG) /\ km_maps (vk s') (r + 0x1000) = Some (q, PTE_WRITABLE_FLAG)) two_areas.
Proof.
  destruct (vmalloc_spec (VMALLOC_START + 0x3000) [8; 16] 0x1800 two_areas) as (_ & _ & i & k & Ek & Hw); [apply two_areas_ok | | by closed_range | by closed_range | by closed_range | |].
  { intros p [->|[->|[]%elem_of_nil]%elem_of_cons]%elem_of_cons; by vm_compute. }
  { intros i k [= _ <-] _. done. }
  eapply wp_mono; [exact Hw |]. injection Ek as Ei _. intros r s'. destruct (Z.eqb_spec i 0) as [E0|_].
  - exfalso. pose proof (is_fresh ({[0]} ∪ ({[8; 16]} : gset Z))) as Hf. cbn in Ei. rewrite Ei, E0 in Hf. set_solver.
  - intros (_ & _ & _ & fs & Hlen & Hnd & _ & Hm & _). destruct fs as [|p [|q [|? ?]]]; try done. exists p, q.
    apply NoDup_cons in Hnd as [Hpq _]. split; [intros ->; apply Hpq, list_elem_of_here |].
    split; [| exact (Hm 1%nat q eq_refl)]. rewrite <- (Hm 0%nat p eq_refl). f_equal. unfold PAGE_SIZE_4KB. lia.
Defined.

Lemma vfree_spec_witness : wp (vfree 0x5000) (fun _ s' => s' = vmas0) vmas0.
Proof.
  eapply wp_mono; [apply (vfree_spec VMALLOC_START [] 0x5000 vmas0); by apply list_ok_empty |].
  intros [] s' [[_ ->]|(l1 & i & l2 & Hl & _)]; [done | by destruct l1].
Defined.

Lemma vmalloc_vfree_roundtrip_witness :
  wp (r ← vmalloc 0x1800; vfree r;; mret r)
    (fun r s' => r = 0 \/ list_ok Up VMALLOC_START l_vmalloc_head (VMALLOC_START + 0x2000) [] s') vmas0.
Proof.
  eapply wp_mono; [apply (vmalloc_vfree_roundtrip VMALLOC_START [] 0x1800 vmas0); [by apply list_ok_empty | by closed_range..] |].
  intros r s' [->|[H _]]; [by left | right; exact H].
Defined.

Lemma user_alloc_stack_spec_witness :
  wp (user_alloc_stack 0x100000) (fun r s' => r = 0 \/ exists i, r = base (area_of (areas s') i)) vmas0.
Proof.
  eapply wp_mono; [apply (user_alloc_stack_spec (- USER_STACK_MAX) [] 0x100000 vmas0); [by apply list_ok_empty | by closed_range..] |].
  intros r s' [(-> & _)|(i & -> & _)]; [by left | right]. by exists i.
Defined.

(** Two stacks of one page, the second directly below the first. *)
Definition two_stacks : vmas (gset Z) :=
  Vmas {[8; 16]} {[ 8 := VmArea USER_STACK_MAX 0x1000 0 0 0 0 16 0;
                    16 := VmArea (USER_STACK_MAX - 0x1000) 0x1000 0 0 0 0 0 8 ]} 0 0 8.

Lemma two_stacks_ok : list_ok Down USER_STACK_MAX l_us_head (- USER_STACK_MAX + 0x2000) [8; 16] two_stacks.
Proof.
  split; [done | split | ].
  - exists 16. split; [cbn; by split_and! |]. repeat (apply NoDup_cons_2; [by rewrite ?elem_of_cons, elem_of_nil; lia |]). by apply NoDup_nil_2.
  - intros p [->|[->|[]%elem_of_nil]%elem_of_cons]%elem_of_cons; by eexists.
  - cbn [spans fmap list_fmap chain]. by closed_range.
  - intros p. rewrite !elem_of_cons, elem_of_nil. simpl. unfold km_live. simpl. set_solver.
Qed.

Lemma user_free_stack_wrong_witness :
  wp (user_free_stack (USER_STACK_MAX - 0x1000))
    (fun _ s' => list_ok Down USER_STACK_MAX l_us_head (- USER_STACK_MAX + 0x2000) [8] s') two_stacks.
Proof. apply (user_free_stack_wrong (- USER_STACK_MAX + 0x2000) [] 8 16 [] two_stacks); [apply two_stacks_ok | done]. Defined.
