(* ===== verification/Sched.v ===== *)
(** Threads and the scheduler ([kernel/scheduler/thread.c],
    [kernel/scheduler/scheduler.c]): the ring of ready threads, the dead list,
    and the handler that the timer and [yield] run to choose the next thread. *)
From S2P Require Import Prelude Cpu DList.

(** * State *)

(** [thread_state_t]. *)
Inductive thread_state : Type :=
  | READY
  | RUNNING
  | BLOCKED
  | DEAD.

#[global] Instance thread_state_eq_dec : EqDecision thread_state.
Proof. solve_decision. Defined.

(** [stack_t]. *)
Record stack : Type := Stack {
  top : Z;
  bottom : Z;
  stack_size : Z;
}.

(** [thread_t]; pointers to threads and processes are addresses. *)
Record thread : Type := Thread {
  rsp : Z;
  tid : Z;
  state : thread_state;
  kernel_stack : stack;
  user_stack : stack;
  page_guard_min : Z;
  page_guard_max : Z;
  sse_avx_buffer : Z;
  process : Z;
  t_prev : Z;
  t_next : Z;
  next_blocked : Z;
  next_sleeping : Z;
  next_pthread : Z;
  prev_pthread : Z;
}.

Definition set_rsp (x : Z) (t : thread) : thread :=
  Thread x (tid t) (state t) (kernel_stack t) (user_stack t) (page_guard_min t) (page_guard_max t) (sse_avx_buffer t)
    (process t) (t_prev t) (t_next t) (next_blocked t) (next_sleeping t) (next_pthread t) (prev_pthread t).
Definition set_state (x : thread_state) (t : thread) : thread :=
  Thread (rsp t) (tid t) x (kernel_stack t) (user_stack t) (page_guard_min t) (page_guard_max t) (sse_avx_buffer t)
    (process t) (t_prev t) (t_next t) (next_blocked t) (next_sleeping t) (next_pthread t) (prev_pthread t).
Definition set_page_guard (lo hi : Z) (t : thread) : thread :=
  Thread (rsp t) (tid t) (state t) (kernel_stack t) (user_stack t) lo hi (sse_avx_buffer t)
    (process t) (t_prev t) (t_next t) (next_blocked t) (next_sleeping t) (next_pthread t) (prev_pthread t).
Definition set_t_prev (x : Z) (t : thread) : thread :=
  Thread (rsp t) (tid t) (state t) (kernel_stack t) (user_stack t) (page_guard_min t) (page_guard_max t) (sse_avx_buffer t)
    (process t) x (t_next t) (next_blocked t) (next_sleeping t) (next_pthread t) (prev_pthread t).
Definition set_t_next (x : Z) (t : thread) : thread :=
  Thread (rsp t) (tid t) (state t) (kernel_stack t) (user_stack t) (page_guard_min t) (page_guard_max t) (sse_avx_buffer t)
    (process t) (t_prev t) x (next_blocked t) (next_sleeping t) (next_pthread t) (prev_pthread t).
Definition set_next_blocked (x : Z) (t : thread) : thread :=
  Thread (rsp t) (tid t) (state t) (kernel_stack t) (user_stack t) (page_guard_min t) (page_guard_max t) (sse_avx_buffer t)
    (process t) (t_prev t) (t_next t) x (next_sleeping t) (next_pthread t) (prev_pthread t).

(** A blank thread; only the totality of [thread_of] needs it. *)
Definition blank_thread : thread :=
  Thread 0 0 READY (Stack 0 0 0) (Stack 0 0 0) 0 0 0 0 0 0 0 0 0 0.

(** [process_t]. *)
Record proc : Type := Proc {
  p_cr3 : Z;
  pid : Z;
  p_threads : Z;
  ustacks_infos : Z;
  mmap_infos : Z;
  fd_table : gmap Z Z;
  heap_start : Z;
  p_heap_end : Z;
  pages_alloced : Z;
}.

Definition set_infos (us mm : Z) (p : proc) : proc :=
  Proc (p_cr3 p) (pid p) (p_threads p) us mm (fd_table p) (heap_start p) (p_heap_end p) (pages_alloced p).

(** The scheduler's globals. [us_list_head] and [mmap_list_head] are the lists
    of the address space in use; [cr0], [tss_rsp0], [kernel_rsp] and [gs_base]
    are registers and tables the handler sets. *)
Record sched : Type := Sched {
  s_cpu : cpu;
  threads : gmap Z thread;
  procs : gmap Z proc;
  current_thread : Z;
  ready_list_head : Z;
  dead_list_head : Z;
  us_list_head : Z;
  mmap_list_head : Z;
  cr0 : Z;
  tss_rsp0 : Z;
  kernel_rsp : Z;
  gs_base : Z;
}.

Definition set_s_cpu x s := Sched x (threads s) (procs s) (current_thread s) (ready_list_head s) (dead_list_head s) (us_list_head s) (mmap_list_head s) (cr0 s) (tss_rsp0 s) (kernel_rsp s) (gs_base s).
Definition set_threads x s := Sched (s_cpu s) x (procs s) (current_thread s) (ready_list_head s) (dead_list_head s) (us_list_head s) (mmap_list_head s) (cr0 s) (tss_rsp0 s) (kernel_rsp s) (gs_base s).
Definition set_procs x s := Sched (s_cpu s) (threads s) x (current_thread s) (ready_list_head s) (dead_list_head s) (us_list_head s) (mmap_list_head s) (cr0 s) (tss_rsp0 s) (kernel_rsp s) (gs_base s).
Definition set_current_thread x s := Sched (s_cpu s) (threads s) (procs s) x (ready_list_head s) (dead_list_head s) (us_list_head s) (mmap_list_head s) (cr0 s) (tss_rsp0 s) (kernel_rsp s) (gs_base s).
Definition set_ready_list_head x s := Sched (s_cpu s) (threads s) (procs s) (current_thread s) x (dead_list_head s) (us_list_head s) (mmap_list_head s) (cr0 s) (tss_rsp0 s) (kernel_rsp s) (gs_base s).
Definition set_dead_list_head x s := Sched (s_cpu s) (threads s) (procs s) (current_thread s) (ready_list_head s) x (us_list_head s) (mmap_list_head s) (cr0 s) (tss_rsp0 s) (kernel_rsp s) (gs_base s).
Definition set_lists us mm s := Sched (s_cpu s) (threads s) (procs s) (current_thread s) (ready_list_head s) (dead_list_head s) us mm (cr0 s) (tss_rsp0 s) (kernel_rsp s) (gs_base s).
Definition set_cr0 x s := Sched (s_cpu s) (threads s) (procs s) (current_thread s) (ready_list_head s) (dead_list_head s) (us_list_head s) (mmap_list_head s) x (tss_rsp0 s) (kernel_rsp s) (gs_base s).
Definition set_entry_stacks x s := Sched (s_cpu s) (threads s) (procs s) (current_thread s) (ready_list_head s) (dead_list_head s) (us_list_head s) (mmap_list_head s) (cr0 s) x x (gs_base s).
Definition set_gs_base x s := Sched (s_cpu s) (threads s) (procs s) (current_thread s) (ready_list_head s) (dead_list_head s) (us_list_head s) (mmap_list_head s) (cr0 s) (tss_rsp0 s) (kernel_rsp s) x.

Definition l_s_cpu : lens sched cpu := Lens s_cpu set_s_cpu.

(** * Operations *)

Definition get_thread (p : Z) : M sched thread :=
  m ← gets threads;
  match m !! p with Some t => mret t | None => fail Fault end.
Definition upd_thread (p : Z) (f : thread -> thread) : M sched unit :=
  t ← get_thread p; modify (fun s => set_threads (<[p := f t]> (threads s)) s).
Definition get_proc (p : Z) : M sched proc :=
  m ← gets procs;
  match m !! p with Some x => mret x | None => fail Fault end.
Definition upd_proc (p : Z) (f : proc -> proc) : M sched unit :=
  x ← get_proc p; modify (fun s => set_procs (<[p := f x]> (procs s)) s).

Definition enqueue_thread (t : Z) : M sched unit :=
  h ← gets ready_list_head;
  if negb (truthy h) then
    upd_thread t (set_t_next t);;
    upd_thread t (set_t_prev t);;
    modify (set_ready_list_head t)
  else
    x ← get_thread h;
    let tail := t_prev x in
    upd_thread tail (set_t_next t);;
    upd_thread t (set_t_prev tail);;
    upd_thread t (set_t_next h);;
    upd_thread h (set_t_prev t).

Definition dequeue_thread (t : Z) : M sched unit :=
  x ← get_thread t;
  (if t_next x =? t then modify (set_ready_list_head 0)
   else
     upd_thread (t_prev x) (set_t_next (t_next x));;
     x ← get_thread t;
     upd_thread (t_next x) (set_t_prev (t_prev x));;
     h ← gets ready_list_head;
     when (h =? t) (x ← get_thread t; modify (set_ready_list_head (t_next x))));;
  upd_thread t (set_t_prev 0);;
  upd_thread t (set_t_next 0).

Definition stopped (s : thread_state) : bool := match s with DEAD | BLOCKED => true | _ => false end.
Definition runnable (s : thread_state) : bool := match s with READY | RUNNING => true | _ => false end.

(** The loop that looks for a runnable thread; [None] when it is back at its start. *)
Fixpoint find_runnable (fuel : nat) (starting_point next_thread : Z) : M sched (option Z) :=
  t ← get_thread next_thread;
  if runnable (state t) then mret (Some next_thread)
  else match fuel with
       | O => fail Hang
       | S fuel' =>
           if t_next t =? starting_point then mret None
           else find_runnable fuel' starting_point (t_next t)
       end.

(** The part of [scheduler_handler] that changes the address space. *)
Definition switch_process (old_proc next_proc : Z) : M sched unit :=
  when (negb (old_proc =? next_proc)) (
    when (truthy old_proc) (
      us ← gets us_list_head; mm ← gets mmap_list_head;
      upd_proc old_proc (set_infos us mm));;
    if truthy next_proc then
      p ← get_proc next_proc;
      modify (set_lists (ustacks_infos p) (mmap_infos p));;
      c ← read_cr3 l_s_cpu;
      when (negb (c =? p_cr3 p)) (write_cr3 l_s_cpu (p_cr3 p))
    else modify (set_lists 0 0)).

(** What happens to the thread that was interrupted. *)
Definition retire_thread (old_thread old_rsp : Z) : M sched unit :=
  o ← get_thread old_thread;
  match state o with
  | DEAD =>
      dequeue_thread old_thread;;
      d ← gets dead_list_head;
      upd_thread old_thread (set_t_next d);;
      modify (set_dead_list_head old_thread)
  | BLOCKED =>
      upd_thread old_thread (set_rsp old_rsp);;
      dequeue_thread old_thread
  | _ =>
      upd_thread old_thread (set_rsp old_rsp);;
      upd_thread old_thread (set_state READY)
  end.

(** The thread that runs next; its stack pointer is the result of the handler. *)
Definition run_thread (sstacks old_thread next_thread : Z) : M sched Z :=
  upd_thread next_thread (set_state RUNNING);;
  modify (set_current_thread next_thread);;
  o ← get_thread old_thread;
  n ← get_thread next_thread;
  switch_process (process o) (process n);;
  (when (truthy (process n)) (modify (set_gs_base sstacks)));;
  modify (set_entry_stacks (top (kernel_stack n)));;
  n ← get_thread next_thread;
  mret (rsp n).

(** [sstacks] is the address of the object of that name. *)
Definition scheduler_handler (sstacks old_rsp : Z) : M sched Z :=
  h ← gets ready_list_head;
  idle ← (if truthy h then t ← get_thread h; mret (t_next t =? h) else mret true);
  if (idle : bool) then mret old_rsp
  else
    modify (fun s => set_cr0 (Z.lor (cr0 s) 8) s);;
    old_thread ← gets current_thread;
    o ← get_thread old_thread;
    retire_thread old_thread old_rsp;;
    h ← gets ready_list_head;
    let starting_point := if stopped (state o) then h else t_next o in
    if negb (truthy starting_point) then mret old_rsp
    else
      fuel ← gets (fun s => map_size (threads s));
      found ← find_runnable fuel starting_point starting_point;
      match found with
      | None =>
          if stopped (state o) then fail Hang
          else upd_thread old_thread (set_state RUNNING);; mret old_rsp
      | Some next_thread => run_thread sstacks old_thread next_thread
      end.

(** [thread_exit] up to the call of [yield]. *)
Definition thread_exit : M sched unit :=
  cli l_s_cpu;;
  t ← gets current_thread;
  upd_thread t (set_state DEAD).

(** The dead threads, taken off their list, as [cleanup_dead_threads] takes
    them before it destroys each. *)
Fixpoint dead_threads (fuel : nat) (t : Z) : M sched (list Z) :=
  if truthy t then
    match fuel with
    | O => fail Hang
    | S fuel' =>
        x ← get_thread t;
        rest ← dead_threads fuel' (t_next x);
        mret (t :: rest)
    end
  else mret [].

Definition cleanup_take : M sched (list Z) :=
  cli l_s_cpu;;
  t ← gets dead_list_head;
  modify (set_dead_list_head 0);;
  sti l_s_cpu;;
  fuel ← gets (fun s => map_size (threads s));
  dead_threads fuel t.

(** The loop of [SYS_EXIT_GROUP]: the threads of a process, from [t] on. *)
Fixpoint exit_group (fuel : nat) (t : Z) : M sched unit :=
  match fuel with
  | O => fail Hang
  | S fuel' =>
      if truthy t then
        upd_thread t (set_state DEAD);;
        d ← gets dead_list_head;
        upd_thread t (set_t_next d);;
        modify (set_dead_list_head t);;
        cur ← gets current_thread;
        if t =? cur then exit_group fuel' t
        else
          dequeue_thread t;;
          x ← get_thread t;
          exit_group fuel' (next_pthread x)
      else mret tt
  end.

(** * Specification *)

Definition thread_of (m : gmap Z thread) (p : Z) : thread := default blank_thread (m !! p).
Definition proc_of (m : gmap Z proc) (p : Z) : proc :=
  default (Proc 0 0 0 0 0 ∅ 0 0 0) (m !! p).

(** An assignment to a field of a thread. *)
Definition upd (p : Z) (f : thread -> thread) (m : gmap Z thread) : gmap Z thread :=
  <[p := f (thread_of m p)]> m.

Definition thread_node : node_ops (gmap Z thread) := {|
  n_prev m p := t_prev (thread_of m p);
  n_next m p := t_next (thread_of m p);
  set_prev p x m := upd p (set_t_prev x) m;
  set_next p x m := upd p (set_t_next x) m;
  n_valid _ := True;
|}.

(** A thread without its links in the ring. *)
Definition no_ring (t : thread) : thread := set_t_next 0 (set_t_prev 0 t).

(** The ring of ready threads is [l], in the order in which they take turns. *)
Record ready_ring (s : sched) (l : list Z) : Prop := {
  rr_ring : ring thread_node (threads s) (ready_list_head s) l;
  rr_live p : p ∈ l -> is_Some (threads s !! p);
}.

(** Only links in the ring were written, and only those of the threads in [l]. *)
Definition relinked (l : list Z) (m m' : gmap Z thread) : Prop :=
  forall p, (is_Some (m' !! p) <-> is_Some (m !! p)) /\ no_ring (thread_of m' p) = no_ring (thread_of m p) /\
    (p ∉ l -> thread_of m' p = thread_of m p).

(** The ring changed from [l] to [l'] by writing links of the threads in these
    and the head pointer. *)
Definition ring_changed (l l' : list Z) (s s' : sched) : Prop :=
  exists m' h', s' = set_ready_list_head h' (set_threads m' s) /\ ready_ring s' l' /\ relinked (l ++ l') (threads s) m'.

(** The threads [d], linked by the field [f] from [h]. *)
Fixpoint linked (f : thread -> Z) (m : gmap Z thread) (h : Z) (d : list Z) : Prop :=
  match d with
  | [] => h = 0
  | p :: d' => h = p /\ p <> 0 /\ is_Some (m !! p) /\ linked f m (f (thread_of m p)) d'
  end.

(** The list of dead threads. *)
Abbreviation dead_list := (linked t_next).

(** The user stacks and mappings of a process, wherever they are kept: in the
    lists in use for the current process, in its record for the others. *)
Definition us_of (s : sched) (cur p : Z) : Z :=
  if decide (p = cur) then us_list_head s else ustacks_infos (proc_of (procs s) p).
Definition mm_of (s : sched) (cur p : Z) : Z :=
  if decide (p = cur) then mmap_list_head s else mmap_infos (proc_of (procs s) p).

(** The process of the current thread. *)
Definition cur_proc (s : sched) : Z := process (thread_of (threads s) (current_thread s)).

(** The invariant between two runs of the handler: the current thread is in the
    ring; the others in the ring are ready; the dead ones are on their list, out
    of the ring; the processes of the threads in the ring exist; and the address
    space in use is that of the current thread, unless that is a kernel thread
    without a process. *)
Record sched_inv (s : sched) (l d : list Z) : Prop := {
  si_ring : ready_ring s l;
  si_cur : current_thread s ∈ l;
  si_ready p : p ∈ l -> p <> current_thread s -> state (thread_of (threads s) p) = READY;
  si_dead : dead_list (threads s) (dead_list_head s) d;
  si_disj p : p ∈ d -> p ∉ l;
  si_proc p : p ∈ l -> process (thread_of (threads s) p) <> 0 ->
    is_Some (procs s !! process (thread_of (threads s) p));
  si_cr3 : cur_proc s <> 0 -> cr3 (s_cpu s) = p_cr3 (proc_of (procs s) (cur_proc s));
}.

(** A thread that is dead or blocked has left the ring; a blocked one has its
    stack pointer saved, a dead one is on the list of dead threads. *)
Inductive retired (r : Z) (l1 : list Z) (o : Z) (l2 d : list Z) (s s' : sched) : Prop :=
  | Retired (m' : gmap Z thread) (h' dh' : Z)
      (rt_same : s' = set_dead_list_head dh' (set_ready_list_head h' (set_threads m' s)))
      (rt_ring : ready_ring s' (l1 ++ l2))
      (rt_dead : dead_list m' dh' (if state (thread_of (threads s) o) is DEAD then o :: d else d))
      (rt_fields : forall p, state (thread_of m' p) = state (thread_of (threads s) p) /\
         process (thread_of m' p) = process (thread_of (threads s) p) /\
         kernel_stack (thread_of m' p) = kernel_stack (thread_of (threads s) p) /\
         next_blocked (thread_of m' p) = next_blocked (thread_of (threads s) p) /\
         rsp (thread_of m' p) =
           (if decide (p = o /\ state (thread_of (threads s) o) = BLOCKED) then r else rsp (thread_of (threads s) p)))
      (rt_live : forall p, is_Some (m' !! p) <-> is_Some (threads s !! p))
      (rt_other : forall p, p ∉ l1 ++ o :: l2 -> thread_of m' p = thread_of (threads s) p).

(** The address space in use passes from process [o] to process [n]: the user
    stacks and the mappings of every process stay what they were. *)
Record space_switched (o n : Z) (s s' : sched) : Prop := {
  ss_same : s' = set_s_cpu (s_cpu s') (set_procs (procs s') (set_lists (us_list_head s') (mmap_list_head s') s));
  ss_us p : p <> 0 -> us_of s' n p = us_of s o p;
  ss_mm p : p <> 0 -> mm_of s' n p = mm_of s o p;
  ss_procs p : (is_Some (procs s' !! p) <-> is_Some (procs s !! p)) /\ p_cr3 (proc_of (procs s') p) = p_cr3 (proc_of (procs s) p);
  ss_cr3 : n <> 0 -> (o = n -> cr3 (s_cpu s) = p_cr3 (proc_of (procs s) n)) ->
    cr3 (s_cpu s') = p_cr3 (proc_of (procs s) n);
}.

(** What [run_thread] leaves. *)
Record ran (o n : Z) (s s' : sched) : Prop := {
  ran_threads : threads s' = upd n (set_state RUNNING) (threads s);
  ran_lists : ready_list_head s' = ready_list_head s /\ dead_list_head s' = dead_list_head s;
  ran_cur : current_thread s' = n;
  ran_us p : p <> 0 -> us_of s' (process (thread_of (threads s) n)) p = us_of s (process (thread_of (threads s) o)) p;
  ran_mm p : p <> 0 -> mm_of s' (process (thread_of (threads s) n)) p = mm_of s (process (thread_of (threads s) o)) p;
  ran_procs p : (is_Some (procs s' !! p) <-> is_Some (procs s !! p)) /\ p_cr3 (proc_of (procs s') p) = p_cr3 (proc_of (procs s) p);
  ran_cr3 : let po := process (thread_of (threads s) o) in let pn := process (thread_of (threads s) n) in
    pn <> 0 -> (po = pn -> cr3 (s_cpu s) = p_cr3 (proc_of (procs s) pn)) -> cr3 (s_cpu s') = p_cr3 (proc_of (procs s) pn);
  ran_stack : tss_rsp0 s' = top (kernel_stack (thread_of (threads s) n)) /\ kernel_rsp s' = tss_rsp0 s';
}.

(** Thread [n] runs: it is the current thread, with its state, its address
    space and its kernel stack for entries from user mode. *)
Record runs (s s' : sched) (n : Z) : Prop := {
  ru_cur : current_thread s' = n;
  ru_state : state (thread_of (threads s') n) = RUNNING;
  ru_us p : p <> 0 -> us_of s' (cur_proc s') p = us_of s (cur_proc s) p;
  ru_mm p : p <> 0 -> mm_of s' (cur_proc s') p = mm_of s (cur_proc s) p;
  ru_stack : tss_rsp0 s' = top (kernel_stack (thread_of (threads s) n)) /\ kernel_rsp s' = tss_rsp0 s';
}.

(** A run of the handler for each stack pointer in [rs], as a series of timer
    interrupts does; the result is the threads that get to run. *)
Fixpoint ticks (sstacks : Z) (rs : list Z) : M sched (list Z) :=
  match rs with
  | [] => mret []
  | r :: rs' =>
      scheduler_handler sstacks r;;
      c ← gets current_thread;
      seen ← ticks sstacks rs';
      mret (c :: seen)
  end.

Definition last_or (x : Z) (l : list Z) : Z := default x (last l).

(** * Lemmas: threads *)

Lemma thread_of_upd p f m q : thread_of (upd p f m) q = if decide (p = q) then f (thread_of m p) else thread_of m q.
Proof. unfold thread_of at 1, upd. rewrite lookup_insert. by case_decide. Qed.

Lemma thread_live_upd p f m q : is_Some (m !! q) -> is_Some (upd p f m !! q).
Proof. unfold upd. rewrite lookup_insert. by case_decide. Qed.

Lemma thread_live_upd_iff p f m q : is_Some (m !! p) -> is_Some (upd p f m !! q) <-> is_Some (m !! q).
Proof. unfold upd. rewrite lookup_insert. case_decide; [subst; naive_solver | done]. Qed.

Lemma no_ring_upd p f m q : (forall t, no_ring (f t) = no_ring t) -> no_ring (thread_of (upd p f m) q) = no_ring (thread_of m q).
Proof. intros Hf. rewrite thread_of_upd. case_decide as E; [by rewrite Hf, E | done]. Qed.

Lemma relinked_refl l m : relinked l m m.
Proof. done. Qed.

Lemma relinked_upd l m m' p f : relinked l m m' -> p ∈ l -> is_Some (m !! p) ->
  (forall t, no_ring (f t) = no_ring t) -> relinked l m (upd p f m').
Proof.
  intros Hm Hp Hlive Hf q. destruct (Hm q) as (H1 & H2 & H3). split_and!.
  - rewrite thread_live_upd_iff; [done |]. by apply Hm.
  - by rewrite no_ring_upd.
  - intros Hq. rewrite thread_of_upd, decide_False by (by intros ->). by apply H3.
Qed.

#[global] Instance thread_node_laws : NodeLaws thread_node.
Proof. split; simpl; intros a b x m _ _; rewrite thread_of_upd; by case_decide; subst. Qed.

Lemma wp_get_thread p (Q : thread -> sched -> Prop) s : is_Some (threads s !! p) ->
  Q (thread_of (threads s) p) s -> wp (get_thread p) Q s.
Proof. intros [t Hp] HQ. apply wp_bind, wp_gets. unfold thread_of in HQ. rewrite Hp in *. by apply wp_ret. Qed.

Lemma wp_upd_thread p f (Q : unit -> sched -> Prop) s : is_Some (threads s !! p) ->
  Q tt (set_threads (upd p f (threads s)) s) -> wp (upd_thread p f) Q s.
Proof. intros Hp HQ. apply wp_bind, wp_get_thread; [done |]. by apply wp_modify. Qed.

Lemma wp_get_proc p (Q : proc -> sched -> Prop) s : is_Some (procs s !! p) ->
  Q (proc_of (procs s) p) s -> wp (get_proc p) Q s.
Proof. intros [t Hp] HQ. apply wp_bind, wp_gets. unfold proc_of in HQ. rewrite Hp in *. by apply wp_ret. Qed.

Lemma wp_upd_proc p f (Q : unit -> sched -> Prop) s : is_Some (procs s !! p) ->
  Q tt (set_procs (<[p := f (proc_of (procs s) p)]> (procs s)) s) -> wp (upd_proc p f) Q s.
Proof. intros Hp HQ. apply wp_bind, wp_get_proc; [done |]. by apply wp_modify. Qed.

Lemma threads_set_threads m s : threads (set_threads m s) = m.
Proof. done. Qed.

Lemma set_threads_twice m m' s : set_threads m (set_threads m' s) = set_threads m s.
Proof. done. Qed.

Ltac thread_live := repeat apply thread_live_upd; done.
Ltac thread_step := apply wp_upd_thread; [rewrite ?threads_set_threads; thread_live |];
  rewrite ?threads_set_threads, ?set_threads_twice.

(** * Lemmas: the ring *)

Lemma wp_enqueue_thread l t s : ready_ring s l -> is_Some (threads s !! t) -> t <> 0 -> t ∉ l ->
  wp (enqueue_thread t) (fun _ s' => ring_changed l (l ++ [t]) s s') s.
Proof.
  intros [Hr Hl] Ht Ht0 Htl. apply wp_bind, wp_gets. rewrite (ring_truthy _ _ _ _ Hr), negb_involutive.
  destruct (ring_head _ _ _ _ Hr) as [Hh _]. case_bool_decide as Hnil.
  - subst l. do 2 (apply wp_bind; thread_step). apply wp_modify.
    exists (upd t (set_t_prev t) (upd t (set_t_next t) (threads s))), t. split; [done |]. split; [split |].
    + apply ring_single; cbn; rewrite ?thread_of_upd, ?decide_True; done.
    + intros p ->%list_elem_of_singleton. cbn. thread_live.
    + repeat apply relinked_upd; try done; by left.
  - assert (ready_list_head s ∈ l) as Hhl by (rewrite Hh; destruct l; [done | by left]).
    assert (t_prev (thread_of (threads s) (ready_list_head s)) ∈ l) as Htail.
    { destruct Hr as [[? _]|(_ & _ & q & Hq)]; [done |].
      destruct (dseg_ends _ _ _ _ _ _ _ Hq Hnil) as (Hp & _ & _ & Hql). cbn in Hp. by rewrite Hp. }
    apply wp_bind, wp_get_thread; [by apply Hl |]. set (tail := t_prev _) in *. set (h := ready_list_head s) in *.
    pose proof (Hl _ Hhl) as Hlh. pose proof (Hl _ Htail) as Hlt.
    do 3 (apply wp_bind; thread_step). thread_step.
    exists (upd h (set_t_prev t) (upd t (set_t_next h) (upd t (set_t_prev tail) (upd tail (set_t_next t) (threads s))))), h.
    split; [done |]. split; [split |].
    + apply (ring_push thread_node (threads s)); [done | done | done | done | done |]. cbn.
      change (t_prev (thread_of (threads s) (ready_list_head s))) with tail. fold h.
      intros b Hb. rewrite !thread_of_upd. clearbody tail h. split; repeat case_decide; subst; done.
    + intros p Hp. cbn. rewrite elem_of_app, list_elem_of_singleton in Hp. destruct Hp as [Hp| ->]; [apply Hl in Hp |]; thread_live.
    + assert (t ∈ l ++ l ++ [t]) by (rewrite !elem_of_app, list_elem_of_singleton; tauto).
      assert (forall x, x ∈ l -> x ∈ l ++ l ++ [t]) by (intros x; rewrite !elem_of_app; tauto).
      repeat apply relinked_upd; auto using relinked_refl.
Qed.

Lemma wp_dequeue_thread l1 t l2 s : ready_ring s (l1 ++ t :: l2) ->
  wp (dequeue_thread t) (fun _ s' => ring_changed (l1 ++ t :: l2) (l1 ++ l2) s s' /\ t_next (thread_of (threads s') t) = 0) s.
Proof.
  intros [Hr Hl]. destruct (ring_head _ _ _ _ Hr) as [Hh Hnd]. 
  destruct (ring_neighbours _ _ _ _ _ _ Hr) as (Hn & Hp & Hsingle & Hht). cbn in Hn, Hp, Hsingle.
  assert (t ∈ l1 ++ t :: l2) as Htl by (apply elem_of_app; right; by left). pose proof (Hl t Htl) as Hlt.
  apply wp_bind, wp_get_thread; [done |]. apply wp_bind.
  destruct (Z.eqb_spec (t_next (thread_of (threads s) t)) t) as [E|E].
  - apply Hsingle in E as [-> ->]. apply wp_modify. apply wp_bind; thread_step. thread_step.
    split; [| cbn; by rewrite thread_of_upd, decide_True].
    exists (upd t (set_t_next 0) (upd t (set_t_prev 0) (threads s))), 0.
    split; [done |]. split; [split; [by left | by intros p ?%elem_of_nil] |].
    repeat apply relinked_upd; try done; by left.
  - assert (l1 ++ l2 <> []) as Hne.
    { intros [-> ->]%app_nil. apply E. by apply Hsingle. }
    set (p := t_prev (thread_of (threads s) t)) in *. set (n := t_next (thread_of (threads s) t)) in *.
    assert (p ∈ l1 ++ l2 /\ n ∈ l1 ++ l2) as [Hpl Hnl].
    { split.
      - rewrite Hp, elem_of_app. destruct (last l1) as [x|] eqn:E1; simpl; [left; by apply last_Some_elem_of |].
        apply last_None in E1 as ->. right. destruct (last l2) as [x|] eqn:E2; simpl; [by apply last_Some_elem_of |].
        by apply last_None in E2 as ->.
      - rewrite Hn, elem_of_app. destruct l2 as [|x l2]; simpl; [| right; by left]. left.
        rewrite Hh. destruct l1; [done | by left]. }
    assert (forall x, x ∈ l1 ++ l2 -> x ∈ l1 ++ t :: l2) as Hin.
    { intros x. rewrite !elem_of_app, elem_of_cons. tauto. }
    assert (forall x, x ∈ l1 ++ l2 -> x <> t) as Htne.
    { apply NoDup_app in Hnd as (_ & Hd & [Ht2 _]%NoDup_cons). intros x [Hx|Hx]%elem_of_app ->; [apply (Hd t Hx); by left | done]. }
    pose proof (Hl p (Hin p Hpl)) as Hlp. pose proof (Hl n (Hin n Hnl)) as Hln.
    pose proof (Htne p Hpl) as Hpt. pose proof (Htne n Hnl) as Hnt.
    apply wp_bind; thread_step. fold p n.
    apply wp_bind, wp_get_thread; [rewrite threads_set_threads; thread_live |].
    rewrite threads_set_threads, thread_of_upd, decide_False by done. fold p n.
    apply wp_bind; thread_step. apply wp_bind, wp_gets.
    set (m2 := upd n (set_t_prev p) (upd p (set_t_next n) (threads s))).
    change (ready_list_head (set_threads m2 s)) with (ready_list_head s).
    apply (wp_mono _ (fun _ s' => s' = set_ready_list_head (if decide (ready_list_head s = t) then n else ready_list_head s) (set_threads m2 s))).
    { apply wp_when; intros Et; [apply Z.eqb_eq in Et | apply Z.eqb_neq in Et].
      - rewrite decide_True by done. apply wp_bind, wp_get_thread; [rewrite threads_set_threads; thread_live |].
        apply wp_modify. rewrite threads_set_threads. unfold m2. by rewrite !thread_of_upd, !decide_False by done.
      - by rewrite decide_False. }
    intros [] s' ->. apply wp_bind; thread_step. thread_step.
    split; [| cbn; by rewrite thread_of_upd, decide_True].
    exists (upd t (set_t_next 0) (upd t (set_t_prev 0) m2)), (if decide (ready_list_head s = t) then n else ready_list_head s).
    split; [done |]. split; [split |].
    + cbn. apply (ring_remove thread_node (threads s) _ _ l1 t l2 Hr Hne). cbn. fold p n. intros b Hb.
      specialize (Htne b Hb). unfold m2. rewrite !thread_of_upd. clearbody p n. split; repeat case_decide; subst; done.
    + intros x Hx%Hin%Hl. cbn. unfold m2. thread_live.
    + assert (forall x, x ∈ l1 ++ t :: l2 -> x ∈ (l1 ++ t :: l2) ++ l1 ++ l2) by (intros x; rewrite !elem_of_app; tauto).
      unfold m2. repeat apply relinked_upd; auto using relinked_refl.
Qed.

Lemma relinked_fields l m m' p : relinked l m m' ->
  state (thread_of m' p) = state (thread_of m p) /\ process (thread_of m' p) = process (thread_of m p) /\
  kernel_stack (thread_of m' p) = kernel_stack (thread_of m p) /\ rsp (thread_of m' p) = rsp (thread_of m p) /\ next_blocked (thread_of m' p) = next_blocked (thread_of m p).
Proof.
  intros H. destruct (H p) as (_ & E & _).
  split_and!; [apply (f_equal state) in E | apply (f_equal process) in E | apply (f_equal kernel_stack) in E | apply (f_equal rsp) in E
    | apply (f_equal next_blocked) in E]; done.
Qed.

Lemma ready_ring_ext s s' l : ready_ring s l -> ready_list_head s' = ready_list_head s ->
  (forall p, p ∈ l -> is_Some (threads s' !! p) /\ t_prev (thread_of (threads s') p) = t_prev (thread_of (threads s) p) /\
     t_next (thread_of (threads s') p) = t_next (thread_of (threads s) p)) -> ready_ring s' l.
Proof.
  intros [Hr Hl] Hh Hext. split; [| intros p Hp; by apply Hext]. rewrite Hh.
  destruct Hr as [Hr|(H1 & H2 & q & Hq)]; [by left | right; split_and!; [done.. | exists q]].
  apply (dseg_ext thread_node (threads s)); [| done]. intros a Ha. cbn. by apply Hext.
Qed.

Lemma linked_ext f m m' h d : linked f m h d ->
  (forall p, p ∈ d -> (is_Some (m !! p) -> is_Some (m' !! p)) /\ f (thread_of m' p) = f (thread_of m p)) -> linked f m' h d.
Proof.
  revert h. induction d as [|a d IH]; intros h; simpl; [done |]. intros (-> & ? & ? & Hd) Hext.
  destruct (Hext a) as [? ->]; [by left |]. split_and!; [done | done | auto |]. apply IH; [done |]. intros p Hp. apply Hext. by right.
Qed.

Lemma linked_unique f m h d1 d2 : linked f m h d1 -> linked f m h d2 -> d1 = d2.
Proof.
  revert h d2. induction d1 as [|a d1 IH]; intros h [|b d2]; simpl; [done | | |].
  - by intros -> (<- & ? & _).
  - by intros (<- & ? & _) ->.
  - intros (-> & _ & _ & H1) (<- & _ & _ & H2). f_equal. by apply (IH _ _ H1).
Qed.

Lemma linked_suffix f m h d1 p d2 : linked f m h (d1 ++ p :: d2) -> linked f m p (p :: d2).
Proof.
  revert h. induction d1 as [|a d1 IH]; intros h; simpl; [intros (-> & ? & ? & ?); done |]. intros (_ & _ & _ & H). by apply IH in H.
Qed.

Lemma linked_NoDup f m h d : linked f m h d -> NoDup d.
Proof.
  revert h. induction d as [|p d IH]; intros h Hd; [constructor |].
  pose proof (linked_suffix _ _ _ [] _ _ Hd) as Hp. destruct Hd as (_ & _ & _ & Hd). apply NoDup_cons. split; [| by apply (IH _ Hd)].
  intros (d1 & d2 & ->)%list_elem_of_split. pose proof (linked_suffix _ _ _ d1 p d2 Hd) as Hp2.
  apply (linked_unique _ _ _ _ _ Hp) in Hp2. apply (f_equal length) in Hp2. simpl in Hp2. rewrite length_app in Hp2. simpl in Hp2. lia.
Qed.

Lemma linked_fuel f m h d : linked f m h d -> (length d <= map_size m)%nat.
Proof.
  intros Hd. pose proof (linked_NoDup _ _ _ _ Hd) as Hnd. change (map_size m) with (size m).
  rewrite <- (size_list_to_set (C := gset Z) d) by done. rewrite <- (size_dom (D := gset Z)). apply subseteq_size.
  intros p Hp%elem_of_list_to_set. apply elem_of_dom. clear Hnd. revert h Hd.
  induction d as [|a d IH]; [by apply elem_of_nil in Hp |]. intros h (-> & _ & Ha & Hd).
  apply elem_of_cons in Hp as [-> |Hp]; [done | by apply (IH Hp _ Hd)].
Qed.

(** * Lemmas: the address space *)

Lemma proc_of_insert p x m q : proc_of (<[p := x]> m) q = if decide (p = q) then x else proc_of m q.
Proof. unfold proc_of. rewrite lookup_insert. by case_decide. Qed.

Lemma wp_switch_process o n s : (o <> 0 -> is_Some (procs s !! o)) -> (n <> 0 -> is_Some (procs s !! n)) ->
  wp (switch_process o n) (fun _ s' => space_switched o n s s') s.
Proof.
  intros Ho Hn. apply wp_when; intros E; [apply negb_true_iff, Z.eqb_neq in E | apply negb_false_iff, Z.eqb_eq in E as ->].
  2: { split; [by destruct s | done.. | auto]. }
  apply wp_bind.
  apply (wp_mono _ (fun _ s1 => exists pr, s1 = set_procs pr s /\
    (forall p, (is_Some (pr !! p) <-> is_Some (procs s !! p)) /\ p_cr3 (proc_of pr p) = p_cr3 (proc_of (procs s) p)) /\
    (forall p, p <> 0 -> ustacks_infos (proc_of pr p) = us_of s o p /\ mmap_infos (proc_of pr p) = mm_of s o p))).
  { apply wp_when; intros Eo; [apply truthy_true in Eo | apply truthy_false in Eo as ->].
    - do 2 (apply wp_bind, wp_gets). apply wp_upd_proc; [auto |].
      exists (<[o := set_infos (us_list_head s) (mmap_list_head s) (proc_of (procs s) o)]> (procs s)).
      split; [done |]. split; intros p.
      + rewrite proc_of_insert, lookup_insert. case_decide; [subst | done]. specialize (Ho Eo). naive_solver.
      + rewrite proc_of_insert. unfold us_of, mm_of. repeat case_decide; congruence || done.
    - exists (procs s). split; [by destruct s |]. split; [done |]. intros p Hp. unfold us_of, mm_of. by rewrite !decide_False. }
  intros [] s1 (pr & -> & Hpr & Hus).
  destruct (truthy n) eqn:En; [apply truthy_true in En | apply truthy_false in En as ->].
  - apply wp_bind, wp_get_proc; [cbn; apply Hpr; auto |]. cbn [procs set_procs].
    set (u := ustacks_infos (proc_of pr n)). set (mm := mmap_infos (proc_of pr n)). set (c := p_cr3 (proc_of pr n)).
    assert (c = p_cr3 (proc_of (procs s) n)) as Hc by apply Hpr.
    apply wp_bind, wp_modify. apply wp_bind, wp_gets.
    apply (wp_mono _ (fun _ s' => s' = set_s_cpu (Cpu (rflags (s_cpu s)) c) (set_procs pr (set_lists u mm s)))).
    { apply wp_when; intros E2; [by apply wp_modify |]. apply negb_false_iff, Z.eqb_eq in E2. cbn in E2. rewrite <- E2. by destruct s as [[]]. }
    intros [] s' ->. split; cbn; [done | | | done | done].
    + intros p Hp. rewrite <- (proj1 (Hus p Hp)). unfold us_of. cbn. by case_decide; subst.
    + intros p Hp. rewrite <- (proj2 (Hus p Hp)). unfold mm_of. cbn. by case_decide; subst.
  - apply wp_modify. split; cbn; [by destruct s | | | done | done].
    + intros p Hp. rewrite <- (proj1 (Hus p Hp)). unfold us_of. cbn. by rewrite decide_False.
    + intros p Hp. rewrite <- (proj2 (Hus p Hp)). unfold mm_of. cbn. by rewrite decide_False.
Qed.

(** * Lemmas: the handler *)

Lemma wp_run_thread ss o n s : is_Some (threads s !! o) -> is_Some (threads s !! n) ->
  (forall p, p = o \/ p = n -> process (thread_of (threads s) p) <> 0 -> is_Some (procs s !! process (thread_of (threads s) p))) ->
  wp (run_thread ss o n) (fun r s' => r = rsp (thread_of (threads s) n) /\ ran o n s s') s.
Proof.
  intros Ho Hn Hproc. apply wp_bind; thread_step. apply wp_bind, wp_modify.
  assert (forall q, process (thread_of (upd n (set_state RUNNING) (threads s)) q) = process (thread_of (threads s) q)) as Hp.
  { intros q. rewrite thread_of_upd. by case_decide; subst. }
  apply wp_bind, wp_get_thread; [cbn; thread_live |]. apply wp_bind, wp_get_thread; [cbn; thread_live |].
  cbn [threads set_threads set_current_thread]. rewrite !Hp.
  apply wp_bind. eapply wp_mono; [apply wp_switch_process; cbn; intros; apply Hproc; auto |].
  intros [] s1 [Hsame Hus Hmm Hpr Hcr]. rewrite thread_of_upd, decide_True by done. cbn [process kernel_stack set_state].
  apply wp_bind.
  apply (wp_mono _ (fun _ s2 => exists g, s2 = set_gs_base g s1)).
  { apply wp_when; intros E; [apply wp_modify; by exists ss |]. exists (gs_base s1). by destruct s1. }
  intros [] s2 [g ->]. apply wp_bind, wp_modify.
  assert (threads s1 = upd n (set_state RUNNING) (threads s)) as Ht1 by by rewrite Hsame.
  apply wp_bind, wp_get_thread; [cbn; rewrite Ht1; thread_live |]. apply wp_ret.
  cbn [threads set_entry_stacks set_gs_base]. rewrite Ht1, thread_of_upd, decide_True by done.
  split; [done |]. split; cbn; try done; by rewrite Hsame.
Qed.

(** The thread the search starts at is runnable: the search ends there. *)
Lemma wp_find_first fuel p s : is_Some (threads s !! p) -> runnable (state (thread_of (threads s) p)) = true ->
  wp (find_runnable fuel p p) (fun r s' => r = Some p /\ s' = s) s.
Proof. intros Hp Hr. destruct fuel; (apply wp_bind, wp_get_thread; [done |]; rewrite Hr; by apply wp_ret). Qed.

(** The prologue: with two threads in the ring the handler goes on to switch. *)
Lemma wp_handler_start ss r l s Q : ready_ring s l -> (1 < length l)%nat ->
  wp (modify (fun s => set_cr0 (Z.lor (cr0 s) 8) s);;
      old_thread ← gets current_thread;
      o ← get_thread old_thread;
      retire_thread old_thread r;;
      h ← gets ready_list_head;
      let starting_point := if stopped (state o) then h else t_next o in
      if negb (truthy starting_point) then mret r
      else
        fuel ← gets (fun s => map_size (threads s));
        found ← find_runnable fuel starting_point starting_point;
        match found with
        | None =>
            if stopped (state o) then fail Hang
            else upd_thread old_thread (set_state RUNNING);; mret r
        | Some next_thread => run_thread ss old_thread next_thread
        end) Q s ->
  wp (scheduler_handler ss r) Q s.
Proof.
  intros [Hr Hl] Hlen HQ. apply wp_bind, wp_gets. apply wp_bind.
  destruct l as [|a [|b l]]; simpl in Hlen; [lia | lia |].
  destruct (ring_head _ _ _ _ Hr) as [Hh _]. simpl in Hh. destruct (ring_neighbours _ _ _ [] a (b :: l) Hr) as (_ & _ & Hn & _).
  rewrite (ring_truthy _ _ _ _ Hr). cbn [negb bool_decide list_eq_dec]. rewrite bool_decide_false by done.
  apply wp_bind, wp_get_thread; [apply Hl; rewrite Hh; by left |]. apply wp_ret. rewrite Hh.
  destruct (Z.eqb_spec (t_next (thread_of (threads s) a)) a) as [E|E]; [| done].
  apply Hn in E as [_ ?]. done.
Qed.

Lemma ran_fields o n s s' q : ran o n s s' ->
  process (thread_of (threads s') q) = process (thread_of (threads s) q) /\
  t_prev (thread_of (threads s') q) = t_prev (thread_of (threads s) q) /\
  t_next (thread_of (threads s') q) = t_next (thread_of (threads s) q) /\
  state (thread_of (threads s') q) = (if decide (n = q) then RUNNING else state (thread_of (threads s) q)).
Proof. intros [-> _ _ _ _ _ _ _]. rewrite thread_of_upd. case_decide; by subst. Qed.

(** Once the interrupted thread has been dealt with, the new one takes over. *)
Lemma ran_inv o n s s' l d : ran o n s s' -> ready_ring s l -> n ∈ l ->
  (forall p, p ∈ l -> p <> n -> state (thread_of (threads s) p) = READY) ->
  dead_list (threads s) (dead_list_head s) d -> (forall p, p ∈ d -> p ∉ l) ->
  (forall p, p ∈ l -> process (thread_of (threads s) p) <> 0 -> is_Some (procs s !! process (thread_of (threads s) p))) ->
  (let po := process (thread_of (threads s) o) in po <> 0 -> cr3 (s_cpu s) = p_cr3 (proc_of (procs s) po)) ->
  sched_inv s' l d.
Proof.
  intros Hran Hr Hn Hst Hd Hdj Hpr Hc. pose proof (fun q => ran_fields _ _ _ _ q Hran) as Hf.
  pose proof Hran as [Ht [Hrl Hdl] Hcur _ _ Hp Hc3 _]. split.
  - apply (ready_ring_ext s); [done.. |]. intros p Hin. destruct (Hf p) as (_ & ? & ? & _).
    split_and!; [| done..]. rewrite Ht. apply thread_live_upd. by apply Hr.
  - by rewrite Hcur.
  - rewrite Hcur. intros p Hin Hne. destruct (Hf p) as (_ & _ & _ & ->). rewrite decide_False by done. by apply Hst.
  - rewrite Hdl. apply (linked_ext t_next (threads s)); [done |]. intros p _. destruct (Hf p) as (_ & _ & ? & _).
    split; [rewrite Ht; apply thread_live_upd | done].
  - done.
  - intros p Hin. destruct (Hf p) as (-> & _). intros ?. apply Hp. by apply Hpr.
  - unfold cur_proc. rewrite Hcur. destruct (Hf n) as (-> & _). intros Hne.
    rewrite (proj2 (Hp _)). apply Hc3; [done |]. intros Eon. cbv zeta in Hc. rewrite Eon in Hc. by apply Hc.
Qed.

Lemma ran_runs o n s0 s s' : ran o n s s' -> o = current_thread s0 ->
  (us_list_head s = us_list_head s0 /\ mmap_list_head s = mmap_list_head s0 /\ procs s = procs s0) ->
  (forall p, process (thread_of (threads s) p) = process (thread_of (threads s0) p) /\
     kernel_stack (thread_of (threads s) p) = kernel_stack (thread_of (threads s0) p)) ->
  runs s0 s' n.
Proof.
  intros Hran -> (Eu & Em & Ep) Hf. destruct (ran_fields _ _ _ _ n Hran) as (Hn & _ & _ & Hs).
  pose proof Hran as [Ht _ Hcur Hus Hmm _ _ Hst]. split; [done | | | |].
  - by rewrite Hs, decide_True.
  - intros p Hp. unfold cur_proc. rewrite Hcur, Hn, <- (proj1 (Hf (current_thread s0))), Hus by done. unfold us_of. by rewrite Eu, Ep.
  - intros p Hp. unfold cur_proc. rewrite Hcur, Hn, <- (proj1 (Hf (current_thread s0))), Hmm by done. unfold mm_of. by rewrite Em, Ep.
  - by rewrite <- (proj2 (Hf n)).
Qed.

(** The thread after [cur] in the ring. *)
Lemma ready_next s l1 cur l2 n : ready_ring s (l1 ++ cur :: l2) -> head (l2 ++ l1) = Some n ->
  n ∈ l1 ++ cur :: l2 /\ n <> cur /\ n <> 0 /\ t_next (thread_of (threads s) cur) = n.
Proof.
  intros [Hring _] Hn. destruct (ring_head _ _ _ _ Hring) as [Hh Hnd].
  destruct (ring_neighbours _ _ _ _ _ _ Hring) as (Hnx & _ & _ & _). cbn in Hnx.
  assert (n ∈ l1 ++ l2) as Hnl.
  { apply elem_of_app. destruct l2; simpl in Hn; [left; by apply head_Some_elem_of | right; simplify_eq; by left]. }
  assert (n ∈ l1 ++ cur :: l2) as Hnl' by (rewrite elem_of_app, elem_of_cons in *; tauto).
  split_and!; [done | | by apply (ring_valid _ _ _ _ n Hring) |].
  - apply NoDup_app in Hnd as (_ & H1 & [H2 _]%NoDup_cons). intros ->. apply elem_of_app in Hnl as [?|?]; [| done].
    apply (H1 cur); [done | by left].
  - rewrite Hnx, Hh. destruct l2; simpl in *; [destruct l1; simpl in *; congruence | congruence].
Qed.

Lemma wp_handler_next ss r l1 cur l2 n d s :
  sched_inv s (l1 ++ cur :: l2) d -> current_thread s = cur -> stopped (state (thread_of (threads s) cur)) = false ->
  head (l2 ++ l1) = Some n ->
  wp (scheduler_handler ss r) (fun r' s' => r' = rsp (thread_of (threads s) n) /\ runs s s' n /\
    sched_inv s' (l1 ++ cur :: l2) d /\
    thread_of (threads s') cur = set_state READY (set_rsp r (thread_of (threads s) cur)) /\
    forall p, p <> cur -> p <> n -> thread_of (threads s') p = thread_of (threads s) p) s.
Proof.
  intros [Hr Hcl Hst Hd Hdj Hpr Hc] Hcur Hrun Hn. pose proof Hr as [Hring Hlive].
  destruct (ready_next _ _ _ _ _ Hr Hn) as (Hnl' & Hncur & Hn0 & Enext).
  rewrite Hcur in Hcl, Hst. pose proof (Hlive _ Hcl) as Hlc. pose proof (Hlive _ Hnl') as Hln.
  apply (wp_handler_start ss r (l1 ++ cur :: l2)); [done | rewrite length_app; destruct l1, l2; simpl in *; [done | lia..] |].
  apply wp_bind, wp_modify. apply wp_bind, wp_gets. cbn [current_thread set_cr0]. rewrite Hcur.
  apply wp_bind, wp_get_thread; [done |]. cbn [threads set_cr0].
  set (m1 := upd cur (set_state READY) (upd cur (set_rsp r) (threads s))).
  apply wp_bind, (wp_mono _ (fun _ s' => s' = set_threads m1 (set_cr0 (Z.lor (cr0 s) 8) s))).
  { apply wp_bind, wp_get_thread; [done |]. cbn [threads set_cr0].
    destruct (state (thread_of (threads s) cur)) eqn:E; try done;
      (apply wp_bind, wp_upd_thread; [done |]; apply wp_upd_thread; [cbn; thread_live | done]). }
  intros [] s1 ->. apply wp_bind, wp_gets. cbv zeta. rewrite Hrun, Enext. rewrite (proj2 (truthy_true n) Hn0). cbn [negb].
  assert (forall q, thread_of m1 q = if decide (cur = q) then set_state READY (set_rsp r (thread_of (threads s) q)) else thread_of (threads s) q) as Hm1.
  { intros q. unfold m1. rewrite !thread_of_upd, (decide_True (P := cur = cur)) by done. case_decide; by subst. }
  assert (forall q, is_Some (threads s !! q) -> is_Some (m1 !! q)) as Hl1 by (intros; unfold m1; thread_live).
  clearbody m1. set (s1 := set_threads m1 _). assert (threads s1 = m1) as Ht1 by done.
  apply wp_bind, wp_gets. apply wp_bind. eapply wp_mono; [apply wp_find_first; rewrite Ht1; [auto |] |].
  { rewrite Hm1, decide_False by done. by rewrite Hst. }
  intros ? ? [-> ->]. eapply wp_mono; [apply wp_run_thread; rewrite ?Ht1; [auto.. |] |].
  { intros p Hp. assert (process (thread_of m1 p) = process (thread_of (threads s) p)) as -> by (rewrite Hm1; by case_decide).
    apply Hpr. by destruct Hp as [-> | ->]. }
  intros r' s' [-> Hran]. rewrite Ht1, Hm1, decide_False by done. split; [done |].
  assert (forall p, process (thread_of m1 p) = process (thread_of (threads s) p) /\ kernel_stack (thread_of m1 p) = kernel_stack (thread_of (threads s) p) /\
    t_prev (thread_of m1 p) = t_prev (thread_of (threads s) p) /\ t_next (thread_of m1 p) = t_next (thread_of (threads s) p)) as Hsame.
  { intros p. rewrite Hm1. by case_decide. }
  split_and!.
  - apply (ran_runs cur n s s1 s'); [done.. |]. intros p. rewrite Ht1. split; apply Hsame.
  - apply (ran_inv cur n s1); try done; rewrite ?Ht1.
    + apply (ready_ring_ext s); [done.. |]. intros p Hp. rewrite Ht1. split_and!; [auto | apply Hsame..].
    + intros p Hp _. rewrite Hm1. case_decide; [done | by apply Hst].
    + apply (linked_ext t_next (threads s)); [done |]. intros p _. split; [auto | apply Hsame].
    + intros p Hp. rewrite (proj1 (Hsame p)). by apply Hpr.
    + rewrite (proj1 (Hsame cur)). unfold cur_proc in Hc. by rewrite Hcur in Hc.
  - by rewrite (ran_threads _ _ _ _ Hran), thread_of_upd, decide_False, Ht1, Hm1, decide_True by done.
  - intros p ? ?. by rewrite (ran_threads _ _ _ _ Hran), thread_of_upd, decide_False, Ht1, Hm1, decide_False by done.
Qed.

Lemma not_in_remove (l1 l2 : list Z) o p : p ∉ l1 ++ o :: l2 -> (p ∉ (l1 ++ o :: l2) ++ l1 ++ l2) /\ p <> o.
Proof. rewrite !elem_of_app, elem_of_cons. naive_solver. Qed.

Lemma ready_remove s l1 o l2 : ready_ring s (l1 ++ o :: l2) ->
  is_Some (threads s !! o) /\ o <> 0 /\ forall p, p ∈ l1 ++ l2 -> p <> o.
Proof.
  intros [Hring Hlive]. assert (o ∈ l1 ++ o :: l2) as Ho by (apply elem_of_app; right; by left).
  split_and!; [by apply Hlive | by apply (ring_valid _ _ _ _ o Hring) |].
  destruct (ring_head _ _ _ _ Hring) as [_ (_ & H1 & [H2 _]%NoDup_cons)%NoDup_app].
  intros p Hp ->. apply elem_of_app in Hp as [?|?]; [| done]. apply (H1 o); [done | by left].
Qed.

(** A blocked thread leaves the ring, its stack pointer saved. *)
Lemma wp_retire_blocked r l1 o l2 s d : ready_ring s (l1 ++ o :: l2) -> state (thread_of (threads s) o) = BLOCKED ->
  dead_list (threads s) (dead_list_head s) d -> (forall p, p ∈ d -> p ∉ l1 ++ o :: l2) ->
  wp (retire_thread o r) (fun _ s' => retired r l1 o l2 d s s') s.
Proof.
  intros Hr Est Hd Hdj. destruct (ready_remove _ _ _ _ Hr) as (Ho & Ho0 & Hne).
  apply wp_bind, wp_get_thread; [done |]. rewrite Est. apply wp_bind, wp_upd_thread; [done |].
  set (m1 := upd o (set_rsp r) (threads s)).
  assert (forall q, thread_of m1 q = if decide (o = q) then set_rsp r (thread_of (threads s) q) else thread_of (threads s) q) as Hm1.
  { intros q. unfold m1. rewrite thread_of_upd. case_decide; by subst. }
  assert (forall q, is_Some (m1 !! q) <-> is_Some (threads s !! q)) as Hl1 by (intros q; by apply thread_live_upd_iff).
  clearbody m1. eapply wp_mono; [apply (wp_dequeue_thread l1 o l2) |].
  { apply (ready_ring_ext s); [done.. |]. intros p Hp. cbn. rewrite Hl1, Hm1. split; [by apply Hr | by case_decide]. }
  intros [] s' [(m' & h' & -> & Hr' & Hm') _]. cbn in Hr', Hm'.
  apply (Retired r l1 o l2 d s _ m' h' (dead_list_head s)); [done | done | ..]; rewrite ?Est.
  - apply (linked_ext t_next (threads s)); [done |]. intros p Hp. split; [intros; apply Hm', Hl1; done |].
    destruct (not_in_remove l1 l2 o p) as [Hp1 Hp2]; [auto |]. rewrite (proj2 (proj2 (Hm' p))) by done. by rewrite Hm1, decide_False.
  - intros p. destruct (relinked_fields _ _ _ p Hm') as (-> & -> & -> & -> & ->). rewrite Hm1.
    repeat case_decide; naive_solver.
  - intros p. rewrite <- Hl1. apply Hm'.
  - intros p [Hp1 Hp2]%not_in_remove. rewrite (proj2 (proj2 (Hm' p))) by done. by rewrite Hm1, decide_False.
Qed.

(** A dead thread leaves the ring for the list of dead threads. *)
Lemma wp_retire_dead r l1 o l2 s d : ready_ring s (l1 ++ o :: l2) -> state (thread_of (threads s) o) = DEAD ->
  dead_list (threads s) (dead_list_head s) d -> (forall p, p ∈ d -> p ∉ l1 ++ o :: l2) ->
  wp (retire_thread o r) (fun _ s' => retired r l1 o l2 d s s') s.
Proof.
  intros Hr Est Hd Hdj. destruct (ready_remove _ _ _ _ Hr) as (Ho & Ho0 & Hne).
  apply wp_bind, wp_get_thread; [done |]. rewrite Est.
  apply wp_bind. eapply wp_mono; [by apply (wp_dequeue_thread l1 o l2) |].
  intros [] s' [(m1 & h' & -> & Hr' & Hm1) _]. cbn in Hr', Hm1. apply wp_bind, wp_gets.
  apply wp_bind, wp_upd_thread; [by apply Hm1 |]. apply wp_modify. cbn [threads set_ready_list_head set_threads].
  change (dead_list_head (set_ready_list_head h' (set_threads m1 s))) with (dead_list_head s).
  set (m' := upd o (set_t_next (dead_list_head s)) m1).
  assert (forall q, thread_of m' q = if decide (o = q) then set_t_next (dead_list_head s) (thread_of m1 q) else thread_of m1 q) as Hm'.
  { intros q. unfold m'. rewrite thread_of_upd. case_decide; by subst. }
  assert (forall q, is_Some (m' !! q) <-> is_Some (m1 !! q)) as Hl1 by (intros q; apply thread_live_upd_iff; by apply Hm1).
  clearbody m'. apply (Retired r l1 o l2 d s _ m' h' o); [done | ..]; rewrite ?Est.
  - apply (ready_ring_ext (set_ready_list_head h' (set_threads m1 s))); [done.. |].
    intros p Hp. cbn. specialize (Hne p Hp). rewrite Hm', decide_False by done. split; [apply Hl1; by apply Hr' | done].
  - split_and!; [done.. | by apply Hl1, Hm1 |]. rewrite Hm', decide_True by done. cbn.
    apply (linked_ext t_next (threads s)); [done |]. intros p Hp. split; [intros; apply Hl1, Hm1; done |].
    destruct (not_in_remove l1 l2 o p) as [Hp1 Hp2]; [auto |].
    rewrite Hm', decide_False by done. by rewrite (proj2 (proj2 (Hm1 p))).
  - intros p. rewrite Hm'. destruct (relinked_fields _ _ _ p Hm1) as (E1 & E2 & E3 & E4 & E5).
    rewrite (decide_False (P := p = o /\ DEAD = BLOCKED)) by naive_solver. by case_decide.
  - intros p. rewrite Hl1. apply Hm1.
  - intros p [Hp1 Hp2]%not_in_remove. rewrite Hm', decide_False by done. by apply Hm1.
Qed.

Lemma wp_retire_stopped r l1 o l2 s d : ready_ring s (l1 ++ o :: l2) -> stopped (state (thread_of (threads s) o)) = true ->
  dead_list (threads s) (dead_list_head s) d -> (forall p, p ∈ d -> p ∉ l1 ++ o :: l2) ->
  wp (retire_thread o r) (fun _ s' => retired r l1 o l2 d s s') s.
Proof.
  intros Hr Hst Hd Hdj. destruct (state (thread_of (threads s) o)) eqn:E; try done.
  - by apply wp_retire_blocked.
  - by apply wp_retire_dead.
Qed.

Lemma wp_handler_stopped ss r l1 cur l2 n d s :
  sched_inv s (l1 ++ cur :: l2) d -> current_thread s = cur -> stopped (state (thread_of (threads s) cur)) = true ->
  head (l1 ++ l2) = Some n ->
  wp (scheduler_handler ss r) (fun r' s' => r' = rsp (thread_of (threads s) n) /\ runs s s' n /\
    sched_inv s' (l1 ++ l2) (if state (thread_of (threads s) cur) is DEAD then cur :: d else d) /\
    state (thread_of (threads s') cur) = state (thread_of (threads s) cur) /\
    (state (thread_of (threads s) cur) = BLOCKED -> rsp (thread_of (threads s') cur) = r) /\
    (forall p, p ∉ l1 ++ cur :: l2 -> thread_of (threads s') p = thread_of (threads s) p) /\
    (forall p, next_blocked (thread_of (threads s') p) = next_blocked (thread_of (threads s) p) /\
       process (thread_of (threads s') p) = process (thread_of (threads s) p)) /\
    (forall p, (is_Some (threads s !! p) -> is_Some (threads s' !! p)) /\ (is_Some (procs s' !! p) <-> is_Some (procs s !! p)))) s.
Proof.
  intros [Hr Hcl Hst Hd Hdj Hpr Hc] Hcur Hrun Hn. destruct (ready_remove _ _ _ _ Hr) as (Ho & Ho0 & Hne).
  rewrite Hcur in Hcl, Hst. assert (n ∈ l1 ++ l2) as Hnl by by apply head_Some_elem_of.
  assert (forall p, p ∈ l1 ++ l2 -> p ∈ l1 ++ cur :: l2) as Hin by (intros p; rewrite !elem_of_app, elem_of_cons; tauto).
  pose proof (Hne n Hnl) as Hncur.
  apply (wp_handler_start ss r (l1 ++ cur :: l2)); [done | rewrite length_app; destruct l1, l2; simpl in *; [done | lia..] |].
  apply wp_bind, wp_modify. apply wp_bind, wp_gets. cbn [current_thread set_cr0]. rewrite Hcur.
  apply wp_bind, wp_get_thread; [done |]. cbn [threads set_cr0].
  set (s0 := set_cr0 _ _). assert (ready_ring s0 (l1 ++ cur :: l2)) as Hr0.
  { apply (ready_ring_ext s); [done.. |]. intros p Hp. split; [by apply Hr | done]. }
  apply wp_bind. eapply wp_mono; [apply (wp_retire_stopped r l1 cur l2 s0 d); done |].
  intros [] s1 [m1 h' dh' -> Hr1 Hd1 Hf1 Hl1 Hfr1]. set (s1 := set_dead_list_head _ _) in *.
  change (threads s0) with (threads s) in *.
  assert (threads s1 = m1 /\ procs s1 = procs s /\ s_cpu s1 = s_cpu s /\ dead_list_head s1 = dh') as (Ht1 & Hp1 & Hc1 & Hdh1) by done.
  assert (us_list_head s1 = us_list_head s /\ mmap_list_head s1 = mmap_list_head s /\ procs s1 = procs s) as Hl by done.
  assert (ready_list_head s1 = n) as Hh1.
  { destruct (ring_head _ _ _ _ (rr_ring _ _ Hr1)) as [-> _]. by rewrite Hn. }
  clearbody s1. clear Hr0 s0. apply wp_bind, wp_gets. cbv zeta. rewrite Hrun, Hh1.
  rewrite (proj2 (truthy_true n)) by by apply (ring_valid _ _ _ _ n (rr_ring _ _ Hr)), Hin. cbn [negb].
  apply wp_bind, wp_gets. apply wp_bind. eapply wp_mono; [apply wp_find_first; [by apply Hr1 |] |].
  { rewrite Ht1, (proj1 (Hf1 n)), Hst; auto. }
  intros ? ? [-> ->]. eapply wp_mono; [apply wp_run_thread; [rewrite Ht1; by apply Hl1 | by apply Hr1 |] |].
  { rewrite Ht1, Hp1. intros p Hp. rewrite (proj1 (proj2 (Hf1 p))). apply Hpr. destruct Hp as [-> | ->]; auto. }
  intros r' s' [-> Hran]. rewrite Ht1, (proj2 (proj2 (proj2 (proj2 (Hf1 n))))), decide_False by naive_solver. split; [done |].
  split_and!.
  - apply (ran_runs cur n s s1 s'); [done.. |]. intros p. rewrite Ht1. split; apply Hf1.
  - apply (ran_inv cur n s1); rewrite ?Ht1, ?Hp1, ?Hc1, ?Hdh1; try done.
    + intros p Hp _. rewrite (proj1 (Hf1 p)). apply Hst; auto.
    + intros p Hp. destruct (state (thread_of (threads s) cur)); try (intros ?%Hin; by apply (Hdj p)).
      apply elem_of_cons in Hp as [-> |Hp]; [intros Hcl'; by apply (Hne cur) | intros ?%Hin; by apply (Hdj p)].
    + intros p Hp. rewrite (proj1 (proj2 (Hf1 p))). auto.
    + rewrite (proj1 (proj2 (Hf1 cur))). unfold cur_proc in Hc. by rewrite Hcur in Hc.
  - destruct (ran_fields _ _ _ _ cur Hran) as (_ & _ & _ & ->). rewrite decide_False, Ht1 by done. apply Hf1.
  - intros Hb. rewrite (ran_threads _ _ _ _ Hran), thread_of_upd, decide_False, Ht1 by done.
    rewrite (proj2 (proj2 (proj2 (proj2 (Hf1 cur))))). by rewrite decide_True.
  - intros p Hp. rewrite (ran_threads _ _ _ _ Hran), thread_of_upd, decide_False, Ht1; [by apply Hfr1 | intros ->; by apply Hp, Hin].
  - intros p. rewrite (ran_threads _ _ _ _ Hran), thread_of_upd, Ht1. destruct (decide (n = p)) as [<- |]; split; apply Hf1.
  - intros p. split.
    + intros Hp. rewrite (ran_threads _ _ _ _ Hran), Ht1. by apply thread_live_upd, Hl1.
    + rewrite (proj1 (ran_procs _ _ _ _ Hran p)). by rewrite Hp1.
Qed.

(** * Lemmas: successive runs of the handler *)

Lemma wp_ticks ss rs l1 cur l2 d s : sched_inv s (l1 ++ cur :: l2) d -> current_thread s = cur ->
  state (thread_of (threads s) cur) = RUNNING -> l2 ++ l1 <> [] -> (length rs <= length (l2 ++ l1 ++ [cur]))%nat ->
  wp (ticks ss rs) (fun seen s' => seen = take (length rs) (l2 ++ l1 ++ [cur]) /\ current_thread s' = last_or cur seen) s.
Proof.
  revert l1 cur l2 s. induction rs as [|r rs IH]; intros l1 cur l2 s Hinv Hcur Hrun Hne Hlen.
  { by apply wp_ret. }
  destruct (head (l2 ++ l1)) as [n|] eqn:Hn; [| by destruct (l2 ++ l1)].
  apply wp_bind. eapply wp_mono; [apply (wp_handler_next ss r l1 cur l2 n d); try done; by rewrite Hrun |].
  intros r' s1 (_ & Hruns & Hinv1 & _ & _). pose proof (ru_cur _ _ _ Hruns) as Hcur1. pose proof (ru_state _ _ _ Hruns) as Hrun1.
  apply wp_bind, wp_gets. rewrite Hcur1. apply wp_bind.
  assert (exists k1 k2, l1 ++ cur :: l2 = k1 ++ n :: k2 /\ l2 ++ l1 ++ [cur] = n :: k2 ++ k1) as (k1 & k2 & Hk & Hrot).
  { destruct l2 as [|m l2]; simpl in Hn; [| injection Hn as ->].
    - destruct l1 as [|m l1]; simpl in Hn; [done |] ; injection Hn as ->. exists [], (l1 ++ [cur]). by rewrite app_nil_r.
    - exists (l1 ++ [cur]), l2. by rewrite <- app_assoc. }
  rewrite Hk in Hinv1. rewrite Hrot in Hlen |- *. simpl in Hlen.
  assert (k2 ++ k1 <> []).
  { intros E. rewrite E in Hrot. apply (f_equal length) in Hrot. rewrite !length_app in Hrot. simpl in Hrot.
    destruct l1, l2; simpl in *; [done | lia..]. }
  eapply wp_mono; [apply (IH k1 n k2 s1); try done |].
  { rewrite app_assoc, length_app. simpl. lia. }
  intros seen s2 [-> Hs2]. apply wp_ret. cbn [length take]. split.
  - f_equal. rewrite app_assoc. apply take_app_le. lia.
  - rewrite Hs2. unfold last_or. rewrite last_cons. by destruct (last _).
Qed.

Lemma sole_thread_returns ss r t s : ready_ring s [t] -> scheduler_handler ss r s = Ok (r, s).
Proof.
  intros [Hring Hlive].
  assert (wp (scheduler_handler ss r) (fun r' s' => r' = r /\ s' = s) s) as H.
  { apply wp_bind, wp_gets. apply wp_bind. destruct (ring_head _ _ _ _ Hring) as [Hh _]. simpl in Hh.
    rewrite (ring_truthy _ _ _ _ Hring). rewrite bool_decide_false by done. cbn [negb].
    apply wp_bind, wp_get_thread; [apply Hlive; rewrite Hh; by left |].
    destruct (ring_neighbours _ _ _ [] t [] Hring) as (_ & _ & [_ Hn] & _). rewrite Hh. cbn in Hn. rewrite Hn by done.
    apply wp_ret. rewrite Z.eqb_refl. by apply wp_ret. }
  apply wp_ok in H as (r' & s' & H & -> & ->). done.
Qed.

(** * Lemmas: dead threads *)

Lemma wp_dead_threads fuel t d s : dead_list (threads s) t d -> (length d <= fuel)%nat ->
  wp (dead_threads fuel t) (fun r s' => r = d /\ s' = s) s.
Proof.
  revert fuel t. induction d as [|a d IH]; intros fuel t Hd Hf.
  - simpl in Hd. subst t. destruct fuel; by apply wp_ret.
  - destruct Hd as (-> & Ha & Hl & Hd). simpl in Hf. destruct fuel as [|fuel]; [lia |]. cbn [dead_threads].
    rewrite (proj2 (truthy_true a) Ha). apply wp_bind, wp_get_thread; [done |].
    apply wp_bind. eapply wp_mono; [apply (IH fuel _ Hd); lia |]. intros r s' [-> ->]. by apply wp_ret.
Qed.

(** * Properties *)

(** C4: a running thread that is interrupted goes on being ready, its stack
    pointer saved; the thread after it in the ring runs, with its own address
    space and kernel stack, and no process loses its stacks or mappings. *)
Theorem scheduler_next ss r l1 cur l2 n d s :
  sched_inv s (l1 ++ cur :: l2) d -> current_thread s = cur -> stopped (state (thread_of (threads s) cur)) = false ->
  head (l2 ++ l1) = Some n ->
  wp (scheduler_handler ss r) (fun r' s' => r' = rsp (thread_of (threads s) n) /\ runs s s' n /\
    sched_inv s' (l1 ++ cur :: l2) d /\
    thread_of (threads s') cur = set_state READY (set_rsp r (thread_of (threads s) cur)) /\
    forall p, p <> cur -> p <> n -> thread_of (threads s') p = thread_of (threads s) p) s.
Proof. apply wp_handler_next. Qed.

(** A thread that exits or blocks leaves the ring when the handler runs; a
    dead one is put on the list of dead threads, a blocked one has its stack
    pointer saved; the head of the ring runs. *)
Theorem scheduler_stopped ss r l1 cur l2 n d s :
  sched_inv s (l1 ++ cur :: l2) d -> current_thread s = cur -> stopped (state (thread_of (threads s) cur)) = true ->
  head (l1 ++ l2) = Some n ->
  wp (scheduler_handler ss r) (fun r' s' => r' = rsp (thread_of (threads s) n) /\ runs s s' n /\
    sched_inv s' (l1 ++ l2) (if state (thread_of (threads s) cur) is DEAD then cur :: d else d) /\
    state (thread_of (threads s') cur) = state (thread_of (threads s) cur) /\
    (state (thread_of (threads s) cur) = BLOCKED -> rsp (thread_of (threads s') cur) = r) /\
    (forall p, p ∉ l1 ++ cur :: l2 -> thread_of (threads s') p = thread_of (threads s) p)) s.
Proof.
  intros Hinv Hcur Hst Hn. eapply wp_mono; [by apply (wp_handler_stopped ss r l1 cur l2 n d) |].
  intros r' s' (? & ? & ? & ? & ? & ? & _). done.
Qed.

(** C11: scheduling is round robin: in as many ticks as there are threads in the
    ring, each of them runs once, in the order of the ring, and the turn comes
    back to the current one. *)
Theorem scheduler_round_robin ss rs l1 cur l2 d s : sched_inv s (l1 ++ cur :: l2) d -> current_thread s = cur ->
  state (thread_of (threads s) cur) = RUNNING -> l2 ++ l1 <> [] -> length rs = length (l1 ++ cur :: l2) ->
  wp (ticks ss rs) (fun seen s' => seen = l2 ++ l1 ++ [cur] /\ current_thread s' = cur) s.
Proof.
  intros Hinv Hcur Hrun Hne Hlen.
  assert (length (l2 ++ l1 ++ [cur]) = length rs) as Hlen' by (rewrite Hlen, !length_app; simpl; lia).
  eapply wp_mono; [apply (wp_ticks ss rs l1 cur l2 d); try done; lia |]. intros seen s' [-> ->].
  rewrite take_ge by lia. split; [done |]. unfold last_or. by rewrite app_assoc, last_snoc.
Qed.

(** The cleaner takes exactly the dead threads off their list, the last to
    die first, and leaves the list empty. *)
Theorem cleanup_takes_all l d s : sched_inv s l d ->
  wp cleanup_take (fun r s' => r = d /\ dead_list_head s' = 0 /\ threads s' = threads s /\ NoDup d) s.
Proof.
  intros Hinv. pose proof (si_dead _ _ _ Hinv) as Hd.
  apply wp_bind, wp_modify. apply wp_bind, wp_gets. apply wp_bind, wp_modify. apply wp_bind, wp_modify. apply wp_bind, wp_gets.
  eapply wp_mono; [by apply wp_dead_threads; [| eapply linked_fuel] |].
  intros r s' [-> ->]. split_and!; [done.. | by apply (linked_NoDup _ _ _ _ Hd)].
Qed.

(** The handler returns at once when the ring has a single thread, even
    if that thread is blocked or dead: it goes on running. *)
Theorem scheduler_sole_thread ss r t s : ready_ring s [t] -> scheduler_handler ss r s = Ok (r, s).
Proof. apply sole_thread_returns. Qed.

(** [SYS_EXIT_GROUP] never leaves its loop when it meets the thread that
    called it. *)
Theorem exit_group_hangs fuel t s : t <> 0 -> current_thread s = t -> is_Some (threads s !! t) ->
  exit_group fuel t s = Err Hang.
Proof.
  revert s. induction fuel as [|fuel IH]; intros s Ht Hcur Hlive; [done |].
  cbn [exit_group]. rewrite (proj2 (truthy_true t) Ht). destruct Hlive as [x Hx].
  unfold upd_thread, get_thread, gets, modify, mbind, M_bind, mret, M_ret. rewrite Hx.
  cbn [threads set_threads]. rewrite lookup_insert_eq. cbn [current_thread set_threads set_dead_list_head]. rewrite Hcur, Z.eqb_refl.
  apply IH; [done | done |]. cbn [threads set_threads set_dead_list_head]. by rewrite lookup_insert_eq.
Qed.

(** * Witnesses *)

(** Three threads: 1 runs for process 10, 2 is a kernel thread, 3 belongs to
    process 11. *)
Definition thread_at (st : thread_state) (r proc p n : Z) : thread :=
  Thread r 0 st (Stack (r + 0x1000) r 0x1000) (Stack 0 0 0) 0 0 0 proc p n 0 0 0 0.
Definition three (st : thread_state) : sched :=
  Sched (Cpu 0x200 0x1000)
    (<[1 := thread_at st 0x100 10 3 2]> (<[2 := thread_at READY 0x200 0 1 3]> (<[3 := thread_at READY 0x300 11 2 1]> ∅)))
    (<[10 := Proc 0x1000 1 1 0 0 ∅ 0 0 0]> (<[11 := Proc 0x2000 2 3 0x50 0x60 ∅ 0 0 0]> ∅))
    1 1 0 0x30 0x40 0 0 0 0.

Lemma three_inv st : sched_inv (three st) [1; 2; 3] [].
Proof.
  split; [split | | | | | |].
  - right. split_and!; [done | by apply (bool_decide_unpack _); vm_compute | exists 3]. simpl. by vm_compute.
  - intros p Hp. rewrite !elem_of_cons in Hp. destruct Hp as [-> |[-> |[-> |?%elem_of_nil]]]; [by eexists.. | done].
  - by left.
  - intros p Hp. rewrite !elem_of_cons in Hp. destruct Hp as [-> |[-> |[-> |?%elem_of_nil]]]; [by intros ? | done..].
  - done.
  - by intros p ?%elem_of_nil.
  - intros p Hp. rewrite !elem_of_cons in Hp. destruct Hp as [-> |[-> |[-> |?%elem_of_nil]]]; intros H0; [by eexists | by destruct H0 | by eexists | done].
  - done.
Qed.

Lemma scheduler_next_witness :
  wp (scheduler_handler 0 0x111) (fun r' s' => r' = 0x200 /\ current_thread s' = 2) (three RUNNING).
Proof.
  eapply wp_mono; [exact (scheduler_next 0 0x111 [] 1 [2; 3] 2 [] (three RUNNING) (three_inv RUNNING) eq_refl eq_refl eq_refl) |].
  intros r' s' (-> & Hr & _). split; [done | apply Hr].
Defined.

Lemma scheduler_stopped_witness :
  wp (scheduler_handler 0 0x111) (fun r' s' => current_thread s' = 2 /\ sched_inv s' [2; 3] [1]) (three DEAD) /\
  wp (scheduler_handler 0 0x111) (fun r' s' => current_thread s' = 2 /\ rsp (thread_of (threads s') 1) = 0x111) (three BLOCKED).
Proof.
  split; (eapply wp_mono; [eapply (scheduler_stopped 0 0x111 [] 1 [2; 3] 2 []); [apply three_inv | reflexivity..] |]);
    intros r' s' (_ & Hr & Hinv & _ & Hb & _); (split; [apply Hr |]).
  - exact Hinv.
  - exact (Hb eq_refl).
Defined.

Lemma scheduler_round_robin_witness :
  wp (ticks 0 [0x111; 0x222; 0x333]) (fun seen s' => seen = [2; 3; 1] /\ current_thread s' = 1) (three RUNNING).
Proof. exact (scheduler_round_robin 0 [0x111; 0x222; 0x333] [] 1 [2; 3] [] (three RUNNING) (three_inv RUNNING) eq_refl eq_refl ltac:(done) eq_refl). Defined.

(** The first thread has exited and the handler has run. *)
Definition after_exit : sched :=
  match scheduler_handler 0 0x111 (three DEAD) with Ok (_, s) => s | Err _ => three DEAD end.

Lemma cleanup_takes_all_witness : wp cleanup_take (fun r s' => r = [1] /\ dead_list_head s' = 0) after_exit.
Proof.
  assert (sched_inv after_exit [2; 3] [1]) as Hinv.
  { destruct (wp_ok _ _ _ (wp_handler_stopped 0 0x111 [] 1 [2; 3] 2 [] (three DEAD) (three_inv DEAD) eq_refl eq_refl eq_refl))
      as (r' & s' & E & _ & _ & H & _). unfold after_exit. by rewrite E. }
  eapply wp_mono; [exact (cleanup_takes_all [2; 3] [1] after_exit Hinv) |]. intros r s' (-> & -> & _). done.
Defined.

(** A single thread, blocked. *)
Definition sole : sched :=
  Sched (Cpu 0x200 0x1000) (<[1 := thread_at BLOCKED 0x100 0 1 1]> ∅) ∅ 1 1 0 0 0 0 0 0 0.

Lemma scheduler_sole_thread_witness :
  scheduler_handler 0 0x111 sole = Ok (0x111, sole) /\ state (thread_of (threads sole) (current_thread sole)) = BLOCKED.
Proof.
  split; [| reflexivity]. apply (scheduler_sole_thread 0 0x111 1). split.
  - apply ring_single; done.
  - intros p ->%list_elem_of_singleton. by eexists.
Defined.

Lemma exit_group_hangs_witness : current_thread (three RUNNING) = 1 /\ forall fuel, exit_group fuel 1 (three RUNNING) = Err Hang.
Proof.
  split; [reflexivity |]. intros fuel. apply (exit_group_hangs fuel 1 (three RUNNING)); [discriminate | reflexivity | eexists; reflexivity].
Defined.
