(* ===== verification/Mutex.v ===== *)
(** The sleeping mutex ([kernel/sync/mutex.c]) over the scheduler: a thread that
    finds it taken is queued and leaves the ring; [mutex_unlock] hands the mutex
    to the thread that waits longest. *)
From S2P Require Import Prelude Cpu DList Sched.

(** * State *)

(** [mutex_t]. *)
Record mutex : Type := Mutex {
  m_lock : Z;
  locked : Z;
  blocked_head : Z;
  blocked_tail : Z;
}.

(** A mutex and the scheduler. *)
Record msys : Type := MSys { ms_sched : sched; ms_mutex : mutex }.

Definition set_ms_sched (x : sched) (s : msys) : msys := MSys x (ms_mutex s).
Definition set_m_lock (x : Z) (s : msys) : msys :=
  let m := ms_mutex s in MSys (ms_sched s) (Mutex x (locked m) (blocked_head m) (blocked_tail m)).
Definition set_locked (x : Z) (s : msys) : msys :=
  let m := ms_mutex s in MSys (ms_sched s) (Mutex (m_lock m) x (blocked_head m) (blocked_tail m)).
Definition set_blocked_head (x : Z) (s : msys) : msys :=
  let m := ms_mutex s in MSys (ms_sched s) (Mutex (m_lock m) (locked m) x (blocked_tail m)).
Definition set_blocked_tail (x : Z) (s : msys) : msys :=
  let m := ms_mutex s in MSys (ms_sched s) (Mutex (m_lock m) (locked m) (blocked_head m) x).

Definition l_sched : lens msys sched := Lens ms_sched set_ms_sched.
Definition l_ms_cpu : lens msys cpu := lens_compose l_sched l_s_cpu.
Definition l_m_lock : lens msys Z := Lens (fun s => m_lock (ms_mutex s)) set_m_lock.

(** * Operations *)

Definition mutex_init : M msys unit :=
  modify (set_m_lock 0);;
  modify (set_locked 0);;
  modify (set_blocked_head 0);;
  modify (set_blocked_tail 0).

(** [int $0x81] runs [scheduler_handler] on the stack pointer [rsp]; the result
    is the one the processor goes on with. [None]: the mutex was free and the
    caller goes on at once. *)
Definition mutex_lock (sstacks rsp : Z) : M msys (option Z) :=
  rflags ← spin_lock_irqsave l_ms_cpu l_m_lock;
  m ← gets ms_mutex;
  if negb (truthy (locked m)) then
    modify (set_locked 1);;
    spin_lock_irqrestore l_ms_cpu l_m_lock rflags;;
    mret None
  else
    t ← gets (fun s => current_thread (ms_sched s));
    zoom l_sched (upd_thread t (set_state BLOCKED));;
    zoom l_sched (upd_thread t (set_next_blocked 0));;
    (if negb (truthy (blocked_head m)) then
       modify (set_blocked_head t);;
       modify (set_blocked_tail t)
     else
       zoom l_sched (upd_thread (blocked_tail m) (set_next_blocked t));;
       modify (set_blocked_tail t));;
    spin_lock_irqrestore l_ms_cpu l_m_lock rflags;;
    r ← zoom l_sched (scheduler_handler sstacks rsp);
    mret (Some r).

Definition mutex_unlock : M msys unit :=
  rflags ← spin_lock_irqsave l_ms_cpu l_m_lock;
  m ← gets ms_mutex;
  if negb (truthy (blocked_head m)) then
    modify (set_locked 0);;
    spin_lock_irqrestore l_ms_cpu l_m_lock rflags
  else
    let wake_thread := blocked_head m in
    w ← zoom l_sched (get_thread wake_thread);
    modify (set_blocked_head (next_blocked w));;
    h ← gets (fun s => blocked_head (ms_mutex s));
    when (negb (truthy h)) (modify (set_blocked_tail 0));;
    zoom l_sched (upd_thread wake_thread (set_state READY));;
    zoom l_sched (upd_thread wake_thread (set_next_blocked 0));;
    zoom l_sched (enqueue_thread wake_thread);;
    spin_lock_irqrestore l_ms_cpu l_m_lock rflags.

(** * Specification *)

(** The mutex as its users see it: who holds it, and who waits, in order. *)
Record amutex : Type := AMutex { taken : bool; waiting : list Z }.

Definition a_lock (t : Z) (a : amutex) : amutex :=
  if taken a then AMutex true (waiting a ++ [t]) else AMutex true (waiting a).
Definition a_unlock (a : amutex) : amutex :=
  match waiting a with
  | [] => AMutex false []
  | _ :: q => AMutex true q
  end.

(** The waiting threads: blocked, queued, neither in the ring nor dead. *)
Record waits (s : sched) (l d q : list Z) (h tl : Z) : Prop := {
  wt_list : linked next_blocked (threads s) h q;
  wt_tail : tl = last_or 0 q;
  wt_state p : p ∈ q -> state (thread_of (threads s) p) = BLOCKED;
  wt_out p : p ∈ q -> (p ∉ l) /\ p ∉ d;
  wt_proc p : p ∈ q -> process (thread_of (threads s) p) <> 0 ->
    is_Some (procs s !! process (thread_of (threads s) p));
}.

(** The refinement relation, with the ring [l] and the dead threads [d]. *)
Record refines (s : msys) (l d : list Z) (a : amutex) : Prop := {
  rf_sched : sched_inv (ms_sched s) l d;
  rf_spin : m_lock (ms_mutex s) = 0;
  rf_taken : truthy (locked (ms_mutex s)) = taken a;
  rf_free : taken a = false -> waiting a = [];
  rf_waits : waits (ms_sched s) l d (waiting a) (blocked_head (ms_mutex s)) (blocked_tail (ms_mutex s));
}.

(** * Lemmas *)

Lemma last_or_elem x l : l <> [] -> last_or x l ∈ l.
Proof. intros Hne. unfold last_or. destruct (last l) eqn:E; [by apply last_Some_elem_of in E | by rewrite last_None in E]. Qed.

Lemma last_or_cons x a b l : last_or x (a :: b :: l) = last_or x (b :: l).
Proof. unfold last_or. rewrite last_cons. by destruct (last (b :: l)) eqn:E; [| by rewrite last_None in E]. Qed.

Lemma linked_elem f m h q p : linked f m h q -> p ∈ q -> p <> 0 /\ is_Some (m !! p).
Proof. intros Hl (x & y & ->)%list_elem_of_split. apply linked_suffix in Hl. by destruct Hl as (_ & ? & ? & _). Qed.

(** A thread is appended to a list. *)
Lemma linked_snoc f m m' h q t : linked f m h q -> q <> [] -> t <> 0 -> is_Some (m' !! t) -> f (thread_of m' t) = 0 ->
  f (thread_of m' (last_or 0 q)) = t ->
  (forall p, p ∈ q -> is_Some (m' !! p) /\ (p <> last_or 0 q -> f (thread_of m' p) = f (thread_of m p))) ->
  linked f m' h (q ++ [t]).
Proof.
  intros Hl Hne Ht Hlive Hft Hlast Hq. pose proof (linked_NoDup _ _ _ _ Hl) as Hnd. revert h Hl.
  induction q as [|a q IH]; [done |]. clear Hne. apply NoDup_cons in Hnd as [Ha Hnd].
  intros h (-> & Ha0 & _ & Hl). destruct (Hq a) as [Hla Hfa]; [by left |]. cbn [app linked]. split_and!; [done.. |].
  destruct q as [|b q]; [change (last_or 0 [a]) with a in Hlast; by rewrite Hlast |].
  rewrite last_or_cons in *. rewrite Hfa.
  - apply IH; [done | done | | done | done]. intros p Hp. apply Hq. by right.
  - intros ->. by apply Ha, last_or_elem.
Qed.

(** The state of the current thread and the links of mutexes do not matter to
    the scheduler. *)
Lemma sched_inv_threads s l d m : sched_inv s l d ->
  (forall p, (is_Some (threads s !! p) -> is_Some (m !! p)) /\
     t_prev (thread_of m p) = t_prev (thread_of (threads s) p) /\ t_next (thread_of m p) = t_next (thread_of (threads s) p) /\
     process (thread_of m p) = process (thread_of (threads s) p) /\
     (p ∈ l -> p <> current_thread s -> state (thread_of m p) = state (thread_of (threads s) p))) ->
  sched_inv (set_threads m s) l d.
Proof.
  intros [Hr Hc Hst Hd Hdj Hp H3] Hm.
  assert (forall p, process (thread_of m p) = process (thread_of (threads s) p)) as Hproc by (intros p; apply Hm).
  split; cbn.
  - apply (ready_ring_ext s); [done.. |]. intros p Hpl. destruct (Hm p) as (? & ? & ? & _). split_and!; [| done..]. apply H, Hr, Hpl.
  - done.
  - intros p Hpl Hne. rewrite (proj2 (proj2 (proj2 (proj2 (Hm p)))) Hpl Hne). auto.
  - apply (linked_ext t_next (threads s)); [done |]. intros p _. split; apply Hm.
  - done.
  - intros p. rewrite Hproc. apply Hp.
  - unfold cur_proc in *. cbn. by rewrite Hproc.
Qed.

(** The state at the call of [yield]: the current thread is blocked and queued. *)
Definition queue_self (cur tail : Z) (m : gmap Z thread) : gmap Z thread :=
  let m1 := upd cur (set_next_blocked 0) (upd cur (set_state BLOCKED) m) in
  if truthy tail then upd tail (set_next_blocked cur) m1 else m1.

Lemma queue_self_fields cur tail m p : tail <> cur ->
  let t := thread_of m p in let t' := thread_of (queue_self cur tail m) p in
  t_prev t' = t_prev t /\ t_next t' = t_next t /\ process t' = process t /\ rsp t' = rsp t /\ kernel_stack t' = kernel_stack t /\
  state t' = (if decide (p = cur) then BLOCKED else state t) /\
  next_blocked t' = (if decide (p = cur) then 0 else if decide (p = tail /\ tail <> 0) then cur else next_blocked t).
Proof.
  intros Hne. cbv zeta. unfold queue_self. destruct (truthy tail) eqn:E; [apply truthy_true in E | apply truthy_false in E];
    rewrite !thread_of_upd; repeat case_decide; subst; cbn; naive_solver.
Qed.

Lemma queue_self_live cur tail m p : is_Some (m !! p) -> is_Some (queue_self cur tail m !! p).
Proof. unfold queue_self. intros. case_match; thread_live. Qed.

Lemma waits_queued s l1 cur l2 d q h tl : waits s (l1 ++ cur :: l2) d q h tl -> sched_inv s (l1 ++ cur :: l2) d -> current_thread s = cur ->
  let m := queue_self cur tl (threads s) in
  linked next_blocked m (if truthy h then h else cur) (q ++ [cur]) /\
  (forall p, p ∈ q ++ [cur] -> state (thread_of m p) = BLOCKED) /\ tl <> cur.
Proof.
  intros [Hl Ht Hs Ho _] [Hr Hc _ _ _ _ _] Hcur. cbv zeta. destruct (ready_remove _ _ _ _ Hr) as (Hlive & Hc0 & _).
  assert (cur ∉ q) as Hcq by (intros H%Ho; rewrite Hcur in Hc; tauto).
  assert (tl <> cur) as Htl.
  { subst tl. destruct q; [done |]. intros E. apply Hcq. rewrite <- E. by apply last_or_elem. }
  pose proof (fun p => queue_self_fields cur tl (threads s) p Htl) as Hf. cbv zeta in Hf.
  set (m := queue_self cur tl (threads s)) in *. assert (forall p, is_Some (threads s !! p) -> is_Some (m !! p)) as Hlm by apply queue_self_live.
  clearbody m. split; [| split; [| done]].
  - destruct q as [|a q].
    + simpl in Hl. subst h. cbn. destruct (Hf cur) as (_ & _ & _ & _ & _ & _ & Hn). rewrite decide_True in Hn by done. auto.
    + assert (h <> 0) as Hh0 by by destruct Hl as (-> & ? & _). rewrite (proj2 (truthy_true h) Hh0).
      assert (tl ∈ a :: q) as Htq by (subst tl; by apply last_or_elem).
      destruct (linked_elem _ _ _ _ _ Hl Htq) as [Ht0 _].
      apply (linked_snoc next_blocked (threads s)); try done; rewrite <- ?Ht.
      * auto.
      * destruct (Hf cur) as (_ & _ & _ & _ & _ & _ & ->). by rewrite decide_True.
      * destruct (Hf tl) as (_ & _ & _ & _ & _ & _ & ->). by rewrite decide_False, decide_True.
      * intros p Hp. split; [| intros Hpt].
        -- apply Hlm. by apply (linked_elem _ _ _ _ _ Hl).
        -- destruct (Hf p) as (_ & _ & _ & _ & _ & _ & ->). rewrite decide_False by (by intros ->). rewrite decide_False; [done | tauto].
  - intros p Hp. destruct (Hf p) as (_ & _ & _ & _ & _ & -> & _). destruct (decide (p = cur)); [done |].
    apply elem_of_app in Hp as [Hp|Hp%list_elem_of_singleton]; [by apply Hs | done].
Qed.

Lemma waits_same s s' l d q h tl : threads s' = threads s -> procs s' = procs s -> waits s l d q h tl -> waits s' l d q h tl.
Proof. intros Et Ep [? ? ? ? ?]. split; rewrite ?Et, ?Ep; done. Qed.

Lemma set_s_cpu_restore c s : set_s_cpu (Cpu (rflags (s_cpu s)) (cr3 (s_cpu s))) (set_s_cpu c s) = s.
Proof. by destruct s as [[]]. Qed.

Lemma sched_inv_cpu c s l d : cr3 c = cr3 (s_cpu s) -> sched_inv s l d -> sched_inv (set_s_cpu c s) l d.
Proof. intros Hc [[] ? ? ? ? ? H3]. split; [by split | done.. | intros H; cbn; rewrite Hc; by apply H3]. Qed.

(** Up to the call of [yield]. *)
Lemma wp_mutex_wait s l1 cur l2 d q : refines s (l1 ++ cur :: l2) d (AMutex true q) -> current_thread (ms_sched s) = cur ->
  forall ss rsp Q,
  (forall s1, ms_sched s1 = set_threads (queue_self cur (blocked_tail (ms_mutex s)) (threads (ms_sched s))) (ms_sched s) ->
     ms_mutex s1 = Mutex 0 (locked (ms_mutex s)) (if truthy (blocked_head (ms_mutex s)) then blocked_head (ms_mutex s) else cur) cur ->
     wp (r ← zoom l_sched (scheduler_handler ss rsp); mret (Some r)) Q s1) ->
  wp (mutex_lock ss rsp) Q s.
Proof.
  intros [Hsched Hspin Htaken _ Hwait] Hcur ss rsp Q HQ. simpl in Htaken, Hwait.
  destruct (ready_remove _ _ _ _ (si_ring _ _ _ Hsched)) as (Hlive & Hc0 & _).
  apply wp_bind, wp_spin_lock_irqsave. intros rf ->. cbv zeta. split; [done |].
  apply wp_bind, wp_gets. cbn. rewrite Htaken. cbn [negb].
  apply wp_bind, wp_gets. cbn. rewrite Hcur.
  apply wp_bind, wp_zoom, wp_upd_thread; [done |]. apply wp_bind, wp_zoom, wp_upd_thread; [cbn; thread_live |].
  cbn. set (m1 := upd cur (set_next_blocked 0) _).
  apply wp_bind. apply (wp_mono _ (fun _ s1 => s1 = MSys (set_threads (queue_self cur (blocked_tail (ms_mutex s)) (threads (ms_sched s)))
      (set_s_cpu (Cpu (Z.ldiff (rflags (s_cpu (ms_sched s))) FLAGS_IF) (cr3 (s_cpu (ms_sched s)))) (ms_sched s)))
    (Mutex 1 (locked (ms_mutex s)) (if truthy (blocked_head (ms_mutex s)) then blocked_head (ms_mutex s) else cur) cur))).
  { unfold queue_self. fold m1. destruct Hwait as [Hl Ht _ _ _]. destruct q as [|a q].
    - simpl in Hl. rewrite Hl, Ht. cbn. apply wp_bind, wp_modify. by apply wp_modify.
    - destruct Hl as (Hh & Ha0 & Hl). rewrite Hh, (proj2 (truthy_true a) Ha0). cbn [negb].
      assert (blocked_tail (ms_mutex s) ∈ a :: q) as Htq by (rewrite Ht; by apply last_or_elem).
      destruct (linked_elem next_blocked (threads (ms_sched s)) a (a :: q) _ ltac:(done) Htq) as [Ht0 Htlive].
      rewrite (proj2 (truthy_true _) Ht0). apply wp_bind, wp_zoom, wp_upd_thread; [cbn; unfold m1; thread_live |].
      apply wp_modify. by rewrite <- Hh. }
  intros [] s1 ->. apply wp_bind, wp_spin_lock_irqrestore. cbv zeta. apply HQ; [| done]. cbn. by destruct (ms_sched s) as [[]].
Qed.

Lemma wp_mutex_lock_taken ss rsp0 s l1 cur l2 n d q :
  refines s (l1 ++ cur :: l2) d (AMutex true q) -> current_thread (ms_sched s) = cur -> head (l1 ++ l2) = Some n ->
  wp (mutex_lock ss rsp0) (fun r s' => r = Some (rsp (thread_of (threads (ms_sched s)) n)) /\
    refines s' (l1 ++ l2) d (a_lock cur (AMutex true q)) /\
    current_thread (ms_sched s') = n /\ rsp (thread_of (threads (ms_sched s')) cur) = rsp0) s.
Proof.
  intros Hrf Hcur Hn. apply (wp_mutex_wait s l1 cur l2 d q Hrf Hcur).
  pose proof Hrf as [Hsched Hspin Htaken _ Hwait]. simpl in Htaken, Hwait. intros s1 Es1 Em1.
  destruct (waits_queued _ _ _ _ _ _ _ _ Hwait Hsched Hcur) as (Hq & Hqs & Htl).
  pose proof (fun p => queue_self_fields cur _ (threads (ms_sched s)) p Htl) as Hf. cbv zeta in Hf.
  pose proof (fun p => queue_self_live cur (blocked_tail (ms_mutex s)) (threads (ms_sched s)) p) as Hlm.
  set (m := queue_self _ _ _) in *. clearbody m.
  assert (sched_inv (ms_sched s1) (l1 ++ cur :: l2) d) as Hinv1.
  { rewrite Es1. apply sched_inv_threads; [done |]. intros p. destruct (Hf p) as (-> & -> & -> & _ & _ & -> & _).
    split_and!; [apply Hlm | done.. |]. rewrite Hcur. intros _ ?. by rewrite decide_False. }
  assert (state (thread_of (threads (ms_sched s1)) cur) = BLOCKED) as Hblk by (rewrite Es1; cbn; apply Hqs, elem_of_app; right; by left).
  apply wp_bind, wp_zoom. change (view l_sched s1) with (ms_sched s1). rewrite Es1 in Hinv1, Hblk |- *. cbn in Hblk.
  eapply wp_mono; [apply (wp_handler_stopped ss rsp0 l1 cur l2 n d); [done | done | cbn; by rewrite Hblk | done] |].
  intros r' s2 (-> & Hruns & Hinv2 & Hst2 & Hrsp2 & Hfr2 & Hnb2 & Hl2). cbn in Hst2, Hrsp2, Hfr2, Hnb2, Hl2, Hinv2.
  rewrite Hblk in *. apply wp_ret. cbn.
  split; [destruct (Hf n) as (_ & _ & _ & -> & _); done |].
  split; [| split; [apply Hruns | by apply Hrsp2]]. split; cbn; rewrite ?Em1; cbn; [done.. |].
  destruct Hwait as [Hwl Hwt _ Hwo Hwp]. destruct (ready_remove _ _ _ _ (si_ring _ _ _ Hsched)) as (_ & _ & Hcl).
  assert (forall p, p ∈ q ++ [cur] -> p = cur \/ p ∈ q) as Hcase by (intros p [?|?%list_elem_of_singleton]%elem_of_app; tauto).
  assert (cur ∈ l1 ++ cur :: l2) as Hcl' by (apply elem_of_app; right; by left).
  split.
  - apply (linked_ext next_blocked m); [done |]. intros p _. split; [apply Hl2 | apply Hnb2].
  - unfold last_or. by rewrite last_snoc.
  - intros p [-> |Hp]%Hcase; [by rewrite Hst2 |]. rewrite Hfr2 by by apply Hwo. apply Hqs, elem_of_app. by left.
  - intros p [-> |Hp]%Hcase.
    + split; [intros H; by apply (Hcl cur) | intros H; by apply (si_disj _ _ _ Hsched cur)].
    + destruct (Hwo p Hp) as [H1 H2]. split; [| done]. intros H. apply H1. rewrite elem_of_app, elem_of_cons in *. tauto.
  - intros p Hp. rewrite (proj2 (Hnb2 p)), (proj2 (Hl2 _)). cbn. destruct (Hf p) as (_ & _ & -> & _).
    apply Hcase in Hp as [-> |Hp]; [by apply (si_proc _ _ _ Hsched) | by apply Hwp].
Qed.

(** A waiting thread that wakes up is in the ring again. *)
Lemma sched_inv_enqueue s s' l d t : sched_inv s l d -> ring_changed l (l ++ [t]) s s' ->
  t ∉ d -> state (thread_of (threads s) t) = READY ->
  (process (thread_of (threads s) t) <> 0 -> is_Some (procs s !! process (thread_of (threads s) t))) ->
  sched_inv s' (l ++ [t]) d.
Proof.
  intros [Hr Hc Hst Hd Hdj Hp H3] (m & h & -> & Hr' & Hm) Htd Hrun Htp.
  pose proof (fun p => relinked_fields _ _ _ p Hm) as Hf.
  assert (forall p, p ∈ l ++ [t] -> p ∈ l \/ p = t) as Hcase by (intros p [?|?%list_elem_of_singleton]%elem_of_app; tauto).
  split; cbn; cbn in Hf.
  - done.
  - apply elem_of_app. by left.
  - intros p Hpl Hne. destruct (Hf p) as (-> & _). apply Hcase in Hpl as [?| ->]; auto.
  - apply (linked_ext t_next (threads s)); [done |]. intros p Hpd. destruct (Hm p) as (Hl & _ & Hfr). split; [apply Hl |].
    rewrite Hfr; [done |]. rewrite !elem_of_app, list_elem_of_singleton. specialize (Hdj p Hpd).
    intros [?|[?| ->]]; done.
  - intros p Hpd [?| ->]%Hcase; [by apply (Hdj p) | done].
  - intros p Hpl. destruct (Hf p) as (_ & -> & _). apply Hcase in Hpl as [?| ->]; auto.
  - unfold cur_proc in *. cbn. destruct (Hf (current_thread s)) as (_ & -> & _). done.
Qed.

(** The thread [t] sleeps: it is out of the ring [l] and not among the dead [d]. *)
Record sleeps (t : Z) (l d : list Z) (s : sched) : Prop := {
  sl_sched : sched_inv s l d;
  sl_live : is_Some (threads s !! t) /\ t <> 0;
  sl_out : (t ∉ l) /\ t ∉ d;
  sl_proc : process (thread_of (threads s) t) <> 0 -> is_Some (procs s !! process (thread_of (threads s) t));
}.

(** The state after a thread that slept was made ready and put into the ring. *)
Record wakes (t : Z) (l d : list Z) (s s' : sched) : Prop := {
  wk_sched : sched_inv s' (l ++ [t]) d;
  wk_ready : state (thread_of (threads s') t) = READY;
  wk_current : current_thread s' = current_thread s;
  wk_live p : is_Some (threads s !! p) -> is_Some (threads s' !! p);
  wk_process p : process (thread_of (threads s') p) = process (thread_of (threads s) p);
  wk_procs : procs s' = procs s;
}.

Lemma wp_wake t l d s (Q : unit -> sched -> Prop) : sleeps t l d s -> (forall s', wakes t l d s s' -> Q tt s') ->
  wp (enqueue_thread t) Q (set_threads (upd t (set_state READY) (threads s)) s).
Proof.
  intros [Hinv [Hl Ht0] [Htl Htd] Hproc] HQ. set (s1 := set_threads _ s).
  assert (sched_inv s1 l d) as Hinv1.
  { apply sched_inv_threads; [done |]. intros p. rewrite thread_of_upd. split_and!; [intros; thread_live | by case_decide; subst.. |].
    intros Hpl _. by rewrite decide_False by (by intros ->). }
  eapply wp_mono; [apply (wp_enqueue_thread l t); [apply Hinv1 | cbn; thread_live | done | done] |]. intros [] s2 Hs2. apply HQ.
  assert (thread_of (upd t (set_state READY) (threads s)) t = set_state READY (thread_of (threads s) t)) as Et by by rewrite thread_of_upd, decide_True.
  split.
  - apply (sched_inv_enqueue _ _ _ _ _ Hinv1 Hs2 Htd); cbn; rewrite Et; done.
  - destruct Hs2 as (m & h & -> & _ & Hm). cbn. destruct (relinked_fields _ _ _ t Hm) as (-> & _). cbn. by rewrite Et.
  - by destruct Hs2 as (m & h & -> & _ & _).
  - destruct Hs2 as (m & h & -> & _ & Hm). intros p Hp. cbn. apply Hm. cbn. thread_live.
  - destruct Hs2 as (m & h & -> & _ & Hm). intros p. cbn. destruct (relinked_fields _ _ _ p Hm) as (_ & -> & _). cbn. rewrite thread_of_upd. by case_decide; subst.
  - by destruct Hs2 as (m & h & -> & _ & _).
Qed.

(** Another thread sleeps on. *)
Lemma sleeps_on t t' l d s s' : sleeps t' l d s -> wakes t l d s s' -> t' <> t -> sleeps t' (l ++ [t]) d s'.
Proof.
  intros [Hinv [Hl Ht0] [Htl Htd] Hproc] [H1 _ _ H4 H5 H6] Hne. split; [done | by auto | | by rewrite H5, H6].
  split; [| done]. by intros [?|?%list_elem_of_singleton]%elem_of_app.
Qed.

(** The state after the thread [t] has been taken off the queue. *)
Definition woken (t : Z) (m : gmap Z thread) : gmap Z thread := upd t (set_next_blocked 0) (upd t (set_state READY) m).

Lemma woken_fields t m p : let x := thread_of m p in let x' := thread_of (woken t m) p in
  t_prev x' = t_prev x /\ t_next x' = t_next x /\ process x' = process x /\
  state x' = (if decide (p = t) then READY else state x) /\ next_blocked x' = (if decide (p = t) then 0 else next_blocked x).
Proof. cbv zeta. unfold woken. rewrite !thread_of_upd. repeat case_decide; subst; cbn; naive_solver. Qed.

Lemma waits_pop s l d t q h tl : waits s l d (t :: q) h tl ->
  h = t /\ t <> 0 /\ is_Some (threads s !! t) /\ (t ∉ l) /\ (t ∉ d) /\ (t ∉ q) /\
  next_blocked (thread_of (threads s) t) = default 0 (head q).
Proof.
  intros [Hl _ _ Ho _]. pose proof (linked_NoDup _ _ _ _ Hl) as [Ht _]%NoDup_cons. destruct Hl as (-> & ? & ? & Hl).
  destruct (Ho t) as [? ?]; [by left |]. split_and!; [done.. |]. destruct q; [done |]. by destruct Hl as (-> & _).
Qed.

(** The threads that go on waiting. *)
Lemma waits_woken s s' l d t q h tl : waits s l d (t :: q) h tl ->
  ring_changed l (l ++ [t]) (set_threads (woken t (threads s)) s) s' ->
  waits s' (l ++ [t]) d q (default 0 (head q)) (if q is [] then 0 else tl).
Proof.
  intros Hw (m & h' & -> & _ & Hm). destruct (waits_pop _ _ _ _ _ _ _ Hw) as (-> & Ht0 & Htl & Htn & Htd & Htq & _).
  pose proof Hw as [(_ & _ & _ & Hl) Htail Hs Ho Hp].
  assert (linked next_blocked (threads s) (default 0 (head q)) q) as Hlq.
  { destruct q; [done |]. cbn. by rewrite (proj1 Hl) in Hl. }
  assert (forall p, p ∈ q -> p <> t) as Hne by by intros p Hpq ->.
  assert (forall p, p ∈ q -> state (thread_of m p) = state (thread_of (threads s) p) /\ process (thread_of m p) = process (thread_of (threads s) p) /\
    next_blocked (thread_of m p) = next_blocked (thread_of (threads s) p)) as Hf.
  { intros p Hpq. destruct (relinked_fields _ _ _ p Hm) as (-> & -> & _ & _ & ->). cbn.
    destruct (woken_fields t (threads s) p) as (_ & _ & -> & -> & ->). rewrite !decide_False by auto. done. }
  split; cbn.
  - apply (linked_ext next_blocked (threads s)); [done |]. intros p Hpq. split; [| by apply Hf].
    intros Hlp. apply Hm. cbn. unfold woken. thread_live.
  - destruct q as [|b q]; [done |]. by rewrite Htail, last_or_cons.
  - intros p Hpq. destruct (Hf p Hpq) as (-> & _). apply Hs. by right.
  - intros p Hpq. destruct (Ho p) as [H1 H2]; [by right |]. rewrite elem_of_app, list_elem_of_singleton. specialize (Hne p Hpq). tauto.
  - intros p Hpq. destruct (Hf p Hpq) as (_ & -> & _). apply Hp. by right.
Qed.

Lemma wp_mutex_lock_free ss rsp s l d t : refines s l d (AMutex false []) ->
  wp (mutex_lock ss rsp) (fun r s' => r = None /\ refines s' l d (a_lock t (AMutex false [])) /\ ms_sched s' = ms_sched s) s.
Proof.
  intros [Hsched Hspin Htaken _ Hwait]. simpl in Htaken.
  apply wp_bind, wp_spin_lock_irqsave. intros rf ->. cbv zeta. split; [done |].
  apply wp_bind, wp_gets. cbn. rewrite Htaken. cbn [negb]. apply wp_bind, wp_modify. apply wp_bind, wp_spin_lock_irqrestore.
  cbv zeta. apply wp_ret. cbn.
  rewrite set_s_cpu_restore. split; [done |]. split; [| done]. by split.
Qed.

Lemma wp_mutex_unlock_free s l d b : refines s l d (AMutex b []) ->
  wp mutex_unlock (fun _ s' => refines s' l d (a_unlock (AMutex b [])) /\ ms_sched s' = ms_sched s) s.
Proof.
  intros [Hsched Hspin _ _ Hwait].
  apply wp_bind, wp_spin_lock_irqsave. intros rf ->. cbv zeta. split; [done |].
  apply wp_bind, wp_gets. pose proof (wt_list _ _ _ _ _ _ Hwait) as Hh. simpl in Hh. cbn. rewrite Hh. cbn.
  apply wp_bind, wp_modify. apply wp_spin_lock_irqrestore. cbn. rewrite set_s_cpu_restore. split; [| done]. by split.
Qed.

Lemma wp_mutex_unlock_wakes s l d t q : refines s l d (AMutex true (t :: q)) ->
  wp mutex_unlock (fun _ s' => refines s' (l ++ [t]) d (a_unlock (AMutex true (t :: q))) /\
    state (thread_of (threads (ms_sched s')) t) = READY /\ current_thread (ms_sched s') = current_thread (ms_sched s)) s.
Proof.
  intros [Hsched Hspin Htaken _ Hwait]. simpl in Htaken, Hwait.
  destruct (waits_pop _ _ _ _ _ _ _ Hwait) as (Hh & Ht0 & Htl & Htn & Htd & Htq & Hnb).
  apply wp_bind, wp_spin_lock_irqsave. intros rf ->. cbv zeta. split; [done |].
  apply wp_bind, wp_gets. cbn. rewrite Hh, (proj2 (truthy_true t) Ht0). cbn.
  apply wp_bind, wp_zoom, wp_get_thread; [done |]. cbn. rewrite Hnb.
  apply wp_bind, wp_modify. apply wp_bind, wp_gets.
  set (s0 := set_s_cpu (Cpu (Z.ldiff (rflags (s_cpu (ms_sched s))) FLAGS_IF) (cr3 (s_cpu (ms_sched s)))) (ms_sched s)).
  apply wp_bind. apply (wp_mono _ (fun _ s1 => s1 = MSys s0 (Mutex 1 (locked (ms_mutex s)) (default 0 (head q)) (if q is [] then 0 else blocked_tail (ms_mutex s))))).
  { destruct q as [|b q]; [by apply wp_modify |]. apply wp_when; [| done].
    destruct Hwait as [(_ & _ & _ & Hb & Hb0 & _) _ _ _ _]. intros E%negb_true_iff%truthy_false. cbn in E. congruence. }
  intros [] s1 ->. apply wp_bind, wp_zoom, wp_upd_thread; [done |]. apply wp_bind, wp_zoom, wp_upd_thread; [cbn; thread_live |].
  assert (sched_inv (set_threads (woken t (threads s0)) s0) l d) as Hinv1.
  { apply sched_inv_threads; [by apply sched_inv_cpu |]. intros p. destruct (woken_fields t (threads s0) p) as (-> & -> & -> & -> & _).
    split_and!; [intros; unfold woken; thread_live | done.. |]. intros Hpl _. by rewrite decide_False by (by intros ->). }
  apply wp_bind, wp_zoom. eapply wp_mono; [apply (wp_enqueue_thread l t); [apply Hinv1 | cbn; thread_live | done | done] |].
  intros [] s2 Hs2. change (view l_sched _) with (set_threads (woken t (threads s0)) s0) in Hs2.
  assert (sched_inv s2 (l ++ [t]) d) as Hinv2.
  { destruct (woken_fields t (threads s0) t) as (_ & _ & E1 & E2 & _). rewrite decide_True in E2 by done.
    apply (sched_inv_enqueue _ _ _ _ _ Hinv1 Hs2 Htd E2). cbn in E1 |- *. rewrite E1. apply (wt_proc _ _ _ _ _ _ Hwait). by left. }
  apply (waits_same _ s0) in Hwait; [| done..]. pose proof (waits_woken _ _ _ _ _ _ _ _ Hwait Hs2) as Hw2.
  destruct Hs2 as (m & h' & -> & _ & Hm). apply wp_spin_lock_irqrestore. cbn. split; [| split; [| done]].
  - split; cbn; [by apply sched_inv_cpu | done | done | done |]. by apply (waits_same (set_ready_list_head h' (set_threads m (set_threads (woken t (threads s0)) s0)))).
  - destruct (relinked_fields _ _ _ t Hm) as (-> & _). destruct (woken_fields t (threads s0) t) as (_ & _ & _ & E2 & _). cbn in E2 |- *. by rewrite E2, decide_True.
Qed.

(** * Properties *)

(** Taking a free mutex: the caller goes on at once and holds it. *)
Theorem mutex_lock_free ss rsp s l d t : refines s l d (AMutex false []) ->
  wp (mutex_lock ss rsp) (fun r s' => r = None /\ refines s' l d (a_lock t (AMutex false [])) /\ ms_sched s' = ms_sched s) s.
Proof. apply wp_mutex_lock_free. Qed.

(** C15: a thread that finds the mutex taken is blocked at the end of the queue and
    leaves the ring; the thread at the head of the ring runs. *)
Theorem mutex_lock_taken ss rsp0 s l1 cur l2 n d q :
  refines s (l1 ++ cur :: l2) d (AMutex true q) -> current_thread (ms_sched s) = cur -> head (l1 ++ l2) = Some n ->
  wp (mutex_lock ss rsp0) (fun r s' => r = Some (rsp (thread_of (threads (ms_sched s)) n)) /\
    refines s' (l1 ++ l2) d (a_lock cur (AMutex true q)) /\
    current_thread (ms_sched s') = n /\ rsp (thread_of (threads (ms_sched s')) cur) = rsp0) s.
Proof. apply wp_mutex_lock_taken. Qed.

(** Unlocking with nobody waiting frees the mutex. *)
Theorem mutex_unlock_free s l d b : refines s l d (AMutex b []) ->
  wp mutex_unlock (fun _ s' => refines s' l d (a_unlock (AMutex b [])) /\ ms_sched s' = ms_sched s) s.
Proof. apply wp_mutex_unlock_free. Qed.

(** C16: unlocking hands the mutex to the thread that waits longest: it stays
    taken, and that thread is ready at the end of the ring. *)
Theorem mutex_unlock_wakes s l d t q : refines s l d (AMutex true (t :: q)) ->
  wp mutex_unlock (fun _ s' => refines s' (l ++ [t]) d (a_unlock (AMutex true (t :: q))) /\
    state (thread_of (threads (ms_sched s')) t) = READY /\ current_thread (ms_sched s') = current_thread (ms_sched s)) s.
Proof. apply wp_mutex_unlock_wakes. Qed.

(** When the ring has one thread, waiting for a mutex does not wait: the
    caller goes on as if it held the mutex that another holds. *)
Theorem mutex_lock_no_wait ss rsp0 s cur d q : refines s [cur] d (AMutex true q) ->
  wp (mutex_lock ss rsp0) (fun r s' => r = Some rsp0 /\ current_thread (ms_sched s') = cur /\
    state (thread_of (threads (ms_sched s')) cur) = BLOCKED) s.
Proof.
  intros Hrf. pose proof Hrf as [Hsched _ _ _ Hwait]. simpl in Hwait.
  assert (current_thread (ms_sched s) = cur) as Hcur by by apply list_elem_of_singleton, (si_cur _ _ _ Hsched).
  apply (wp_mutex_wait s [] cur [] d q Hrf Hcur). intros s1 Es1 _.
  destruct (waits_queued _ [] _ [] _ _ _ _ Hwait Hsched Hcur) as (_ & Hqs & Htl).
  pose proof (fun p => queue_self_fields cur _ (threads (ms_sched s)) p Htl) as Hf. cbv zeta in Hf.
  pose proof (fun p => queue_self_live cur (blocked_tail (ms_mutex s)) (threads (ms_sched s)) p) as Hlm.
  set (m := queue_self _ _ _) in *. clearbody m.
  assert (sched_inv (set_threads m (ms_sched s)) [cur] d) as Hinv1.
  { apply sched_inv_threads; [done |]. intros p. destruct (Hf p) as (-> & -> & -> & _ & _ & -> & _).
    split_and!; [apply Hlm | done.. |]. rewrite Hcur. intros _ ?. by rewrite decide_False. }
  apply wp_bind, wp_zoom. change (view l_sched s1) with (ms_sched s1). rewrite Es1.
  eapply wp_of_ok; [apply (sole_thread_returns ss rsp0 cur), Hinv1 |]. apply wp_ret. cbn.
  split_and!; [done.. |]. apply Hqs, elem_of_app. right. by left.
Qed.

(** * Witnesses *)

(** The three threads of the scheduler's witnesses and a mutex that is free,
    or that one of the others holds. *)
Definition free_mutex : msys := MSys (three RUNNING) (Mutex 0 0 0 0).
Definition held_mutex : msys := MSys (three RUNNING) (Mutex 0 1 0 0).

Lemma free_mutex_refines : refines free_mutex [1; 2; 3] [] (AMutex false []).
Proof. split; [apply three_inv | done.. |]. split; [done | done | by intros ? ?%elem_of_nil..]. Qed.

Lemma held_mutex_refines : refines held_mutex [1; 2; 3] [] (AMutex true []).
Proof. split; [apply three_inv | done.. |]. split; [done | done | by intros ? ?%elem_of_nil..]. Qed.

Lemma mutex_lock_free_witness : wp (mutex_lock 0 0x111) (fun r s' => r = None /\ refines s' [1; 2; 3] [] (AMutex true [])) free_mutex.
Proof. eapply wp_mono; [exact (mutex_lock_free 0 0x111 _ _ _ 1 free_mutex_refines) |]. intros r s' (? & ? & _). by split. Defined.

Lemma mutex_lock_taken_witness :
  wp (mutex_lock 0 0x111) (fun r s' => r = Some 0x200 /\ refines s' [2; 3] [] (AMutex true [1])) held_mutex.
Proof.
  eapply wp_mono; [exact (mutex_lock_taken 0 0x111 held_mutex [] 1 [2; 3] 2 [] [] held_mutex_refines eq_refl eq_refl) |].
  intros r s' (-> & ? & _). by split.
Defined.

Lemma mutex_unlock_free_witness : wp mutex_unlock (fun _ s' => refines s' [1; 2; 3] [] (AMutex false [])) held_mutex.
Proof. eapply wp_mono; [exact (mutex_unlock_free _ _ _ _ held_mutex_refines) |]. by intros [] s' [? _]. Defined.

(** Thread 1 waits for the mutex; 2 runs. *)
Definition one_waits : msys :=
  match mutex_lock 0 0x111 held_mutex with Ok (_, s) => s | Err _ => held_mutex end.

Lemma mutex_unlock_wakes_witness :
  wp mutex_unlock (fun _ s' => refines s' [2; 3; 1] [] (AMutex true []) /\ current_thread (ms_sched s') = 2) one_waits.
Proof.
  destruct (wp_ok _ _ _ (wp_mutex_lock_taken 0 0x111 held_mutex [] 1 [2; 3] 2 [] [] held_mutex_refines eq_refl eq_refl))
    as (r & s1 & E & _ & Hrf & Hcur & _).
  unfold one_waits. rewrite E.
  eapply wp_mono; [exact (mutex_unlock_wakes s1 [2; 3] [] 1 [] Hrf) |]. intros [] s' (? & _ & ->). split; [done | exact Hcur].
Defined.

(** A single thread; the mutex is held. *)
Definition alone : msys :=
  MSys (Sched (Cpu 0x200 0x1000) (<[1 := thread_at RUNNING 0x100 0 1 1]> ∅) ∅ 1 1 0 0 0 0 0 0 0) (Mutex 0 1 0 0).

Lemma mutex_lock_no_wait_witness :
  wp (mutex_lock 0 0x111) (fun r s' => r = Some 0x111 /\ state (thread_of (threads (ms_sched s')) 1) = BLOCKED) alone.
Proof.
  assert (refines alone [1] [] (AMutex true [])) as Hrf.
  { split; [| done.. | split; [done | done | by intros ? ?%elem_of_nil..]].
    split; [split | | | | | |].
    - apply ring_single; done.
    - intros p ->%list_elem_of_singleton. by eexists.
    - by left.
    - intros p ->%list_elem_of_singleton Hne. by destruct Hne.
    - done.
    - by intros p ?%elem_of_nil.
    - intros p ->%list_elem_of_singleton Hp. by destruct Hp.
    - intros H. by destruct H. }
  eapply wp_mono; [exact (mutex_lock_no_wait 0 0x111 alone 1 [] [] Hrf) |]. intros r s' (-> & _ & H). by split.
Defined.
