(* ===== verification/Slab.v ===== *)
(** The slab allocator ([mm/slab.c]): objects of eight sizes, carved out of
    single pages of the buddy allocator. A page in use has a header, a list of
    its free objects threaded through them, and a place in one of the two lists
    of its cache, for pages with and without free objects. *)
From S2P Require Import Prelude Interfaces DList Buddy.

(** * State *)

Definition NUM_CACHES : Z := 8.
Definition sizeof_slab : Z := 40.

(** [kernel_caches], by field; a pointer to a cache is its index. *)
Record slabs (Pg : Type) : Type := Slabs {
  hb : buddy Pg;
  c_size : gmap Z Z;
  c_partial : gmap Z Z;
  c_full : gmap Z Z;
}.
Arguments Slabs {Pg} hb c_size c_partial c_full.
Arguments hb {Pg} s.
Arguments c_size {Pg} s.
Arguments c_partial {Pg} s.
Arguments c_full {Pg} s.

(** [&cache->slabs_partial] and [&cache->slabs_full]. *)
Inductive slab_list : Type :=
  | Partial (i : Z)
  | Full (i : Z).

#[global] Instance slab_list_eq_dec : EqDecision slab_list.
Proof. solve_decision. Defined.

(** * Operations *)

Section operations.
Context {Pg : Type} `{HeapSource Pg}.
Implicit Types s : slabs Pg.

Definition set_hb (b : buddy Pg) s : slabs Pg := Slabs b (c_size s) (c_partial s) (c_full s).
Definition l_hb : lens (slabs Pg) (buddy Pg) := Lens hb set_hb.

Definition list_head s (x : slab_list) : Z :=
  match x with Partial i => c_partial s @@ i | Full i => c_full s @@ i end.
Definition set_list_head (x : slab_list) (h : Z) s : slabs Pg :=
  match x with
  | Partial i => Slabs (hb s) (c_size s) (<[i := h]> (c_partial s)) (c_full s)
  | Full i => Slabs (hb s) (c_size s) (c_partial s) (<[i := h]> (c_full s))
  end.

(** The fields of a [slab_t]; [free_count] and [total_count] are the halves of
    the word at offset 8. *)
Definition rd_word (a : Z) : M (slabs Pg) Z := zoom l_hb (ld a).
Definition wr_word (a x : Z) : M (slabs Pg) unit := zoom l_hb (st a x).
Definition get_free_count (p : Z) : M (slabs Pg) Z := w ← rd_word (p + 8); mret (w mod 2 ^ 32).
Definition get_total_count (p : Z) : M (slabs Pg) Z := w ← rd_word (p + 8); mret ((w / 2 ^ 32) mod 2 ^ 32).
Definition set_free_count (p x : Z) : M (slabs Pg) unit :=
  w ← rd_word (p + 8); wr_word (p + 8) (w - w mod 2 ^ 32 + u32 x).
Definition set_total_count (p x : Z) : M (slabs Pg) unit :=
  w ← rd_word (p + 8); wr_word (p + 8) (w mod 2 ^ 32 + 2 ^ 32 * u32 x).

Definition sizes : list Z := [16; 32; 64; 128; 256; 512; 1024; 2048].
Definition init_slab : M (slabs Pg) unit :=
  for_loop (Z.to_nat NUM_CACHES) 0 (fun i => modify (fun s =>
    Slabs (hb s) (<[i := nth (Z.to_nat i) sizes 0]> (c_size s)) (<[i := 0]> (c_partial s)) (<[i := 0]> (c_full s)))).

Definition slab_list_remove (x : slab_list) (slab : Z) : M (slabs Pg) unit :=
  n ← rd_word (slab + 32);
  (when (truthy n) (p ← rd_word (slab + 24); wr_word (n + 24) p));;
  p ← rd_word (slab + 24);
  (if truthy p then n ← rd_word (slab + 32); wr_word (p + 32) n
   else n ← rd_word (slab + 32); modify (set_list_head x n));;
  wr_word (slab + 24) 0.

Definition slab_list_add (x : slab_list) (slab : Z) : M (slabs Pg) unit :=
  h ← gets (fun s => list_head s x);
  wr_word (slab + 32) h;;
  wr_word (slab + 24) 0;;
  (when (truthy h) (wr_word (h + 24) slab));;
  modify (set_list_head x slab).

(** The loop that threads the objects; a page has at most 253 of them. *)
Fixpoint slab_fill (fuel : nat) (page size curr : Z) : M (slabs Pg) unit :=
  if u64 (curr + size) <=? u64 (page + PAGE_SIZE_4KB) then
    match fuel with
    | O => fail Hang
    | S fuel' =>
        let next := u64 (curr + size) in
        (if u64 (next + size) <=? u64 (page + PAGE_SIZE_4KB) then wr_word curr next else wr_word curr 0);;
        c ← get_free_count page;
        set_free_count page (c + 1);;
        slab_fill fuel' page size next
    end
  else mret tt.

(** [fuel] is that of the growth of the heap. *)
Definition slab_create (fuel : nat) (cache : Z) : M (slabs Pg) Z :=
  page ← zoom l_hb (buddy_alloc fuel 0);
  if negb (truthy page) then mret 0
  else
    zoom l_hb (upd_meta (meta_index page) (fun m => Meta (order m) (is_free m) true));;
    wr_word (page + 16) cache;;
    let first_obj := Z.land (u64 (page + sizeof_slab + 7)) (2 ^ 64 - 8) in
    wr_word page first_obj;;
    set_free_count page 0;;
    size ← gets (fun s => c_size s @@ cache);
    slab_fill 256 page size first_obj;;
    c ← get_free_count page;
    set_total_count page c;;
    mret page.

(** [cache] is not null. *)
Definition slab_alloc (fuel : nat) (cache : Z) : M (slabs Pg) Z :=
  h ← gets (fun s => c_partial s @@ cache);
  ok ← (if negb (truthy h) then
          new_slab ← slab_create fuel cache;
          if negb (truthy new_slab) then mret false
          else slab_list_add (Partial cache) new_slab;; mret true
        else mret true);
  if negb ok then mret 0
  else
    slab ← gets (fun s => c_partial s @@ cache);
    obj ← rd_word slab;
    n ← rd_word obj;
    wr_word slab n;;
    c ← get_free_count slab;
    set_free_count slab (c - 1);;
    c ← get_free_count slab;
    (when (c =? 0) (
      slab_list_remove (Partial cache) slab;;
      slab_list_add (Full cache) slab));;
    mret obj.

Definition slab_free (ptr : Z) : M (slabs Pg) unit :=
  if negb (truthy ptr) then mret tt
  else
    let slab := Z.land ptr PAGE_MASK_4KB in
    cache ← rd_word (slab + 16);
    c ← get_free_count slab;
    (when (c =? 0) (
      slab_list_remove (Full cache) slab;;
      slab_list_add (Partial cache) slab));;
    l ← rd_word slab;
    wr_word ptr l;;
    wr_word slab ptr;;
    c ← get_free_count slab;
    set_free_count slab (c + 1);;
    c ← get_free_count slab;
    t ← get_total_count slab;
    when (c =? t) (
      slab_list_remove (Partial cache) slab;;
      zoom l_hb (upd_meta (meta_index ptr) (fun m => Meta (order m) (is_free m) false));;
      zoom l_hb (buddy_free slab)).

End operations.

(** * Specification *)

(** The size of the objects of cache [i], how many a page holds, and where. *)
Definition osize (i : Z) : Z := 2 ^ (4 + i).
Definition cap (i : Z) : Z := (PAGE_SIZE_4KB - sizeof_slab) / osize i.
Definition obj (k i j : Z) : Z := page_addr k + sizeof_slab + j * osize i.
Definition optr (k i : Z) (l : list Z) : Z := match l with [] => 0 | j :: _ => obj k i j end.

Definition slab_node : node_ops (gmap Z Z) := {|
  n_prev m a := m @@ (a + 24);
  n_next m a := m @@ (a + 32);
  set_prev a x m := <[a + 24 := x]> m;
  set_next a x m := <[a + 32 := x]> m;
  n_valid a := a mod PAGE_SIZE_4KB = 0;
|}.

(** Page [k] holds objects of cache [i], of which [fl] are free, in the order of
    its free list. *)
Record slab_ok (m : gmap Z Z) (k i : Z) (fl : list Z) : Prop := {
  sk_head : m @@ page_addr k = optr k i fl;
  sk_counts : m @@ (page_addr k + 8) = Z.of_nat (length fl) + 2 ^ 32 * cap i;
  sk_cache : m @@ (page_addr k + 16) = i;
  sk_nodup : NoDup fl;
  sk_range j : j ∈ fl -> 0 <= j < cap i;
  sk_links l1 j l2 : fl = l1 ++ j :: l2 -> m @@ obj k i j = optr k i l2;
}.

(** The pages that are slabs, with their cache and their free objects. *)
Abbreviation slab_map := (gmap Z (Z * list Z)).

Definition list_index (x : slab_list) : Z := match x with Partial i | Full i => i end.
Definition valid_cache (i : Z) : Prop := 0 <= i < NUM_CACHES.

(** The list that a page belongs to. *)
Definition list_for (i : Z) (fl : list Z) : slab_list := match fl with [] => Full i | _ => Partial i end.
Definition on_list (L : slab_map) (x : slab_list) (k : Z) : Prop :=
  exists i fl, L !! k = Some (i, fl) /\ list_for i fl = x.

Section specification.
Context {Pg : Type}.
Implicit Types s : slabs Pg.

(** The invariant but for page [k0], which is a block of the buddy allocator
    and belongs to the list [w], if any. *)
Record inv_but (N : Z) (B : blocks) (L : slab_map) (k0 : Z) (w : option slab_list) s : Prop := {
  ib_buddy : buddy_inv N ∅ B (hb s);
  ib_page : B !! k0 = Some (0, false) /\ L !! k0 = None;
  ib_size i : valid_cache i -> c_size s @@ i = osize i;
  ib_slab k i fl : L !! k = Some (i, fl) -> B !! k = Some (0, false) /\ valid_cache i /\
    slab_ok (mem (hb s)) k i fl /\ metadata (hb s) !! k = Some (Meta 0 false true);
  ib_block k o : B !! k = Some (o, false) -> L !! k = None -> k <> k0 ->
    exists m, metadata (hb s) !! k = Some m /\ is_slab m = false;
  ib_list x : valid_cache (list_index x) -> exists ks,
    dll slab_node (mem (hb s)) (list_head s x) (page_addr <$> ks) /\
    forall k, k ∈ ks <-> on_list L x k \/ (k = k0 /\ w = Some x);
}.

(** The invariant of the heap: [B] are the blocks of the buddy allocator, [L]
    those of its allocated blocks that are slabs. *)
Record heap_inv (N : Z) (B : blocks) (L : slab_map) s : Prop := {
  hi_buddy : buddy_inv N ∅ B (hb s);
  hi_size i : valid_cache i -> c_size s @@ i = osize i;
  hi_slab k i fl : L !! k = Some (i, fl) -> B !! k = Some (0, false) /\ valid_cache i /\
    slab_ok (mem (hb s)) k i fl /\ metadata (hb s) !! k = Some (Meta 0 false true);
  hi_block k o : B !! k = Some (o, false) -> L !! k = None ->
    exists m, metadata (hb s) !! k = Some m /\ is_slab m = false;
  hi_list x : valid_cache (list_index x) -> exists ks,
    dll slab_node (mem (hb s)) (list_head s x) (page_addr <$> ks) /\ forall k, k ∈ ks <-> on_list L x k;
}.

End specification.

(** The live ranges [a .. a + n - 1]: the objects of page [k] that are not free,
    if it is a slab, or the whole block that starts there. *)
Definition live_at (B : blocks) (L : slab_map) (k a n : Z) : Prop :=
  match L !! k with
  | Some (i, fl) => exists j, 0 <= j < cap i /\ (j ∉ fl) /\ a = obj k i j /\ n = osize i
  | None => exists o, B !! k = Some (o, false) /\ a = page_addr k /\ n = 2 ^ o * PAGE_SIZE_4KB
  end.
Definition live (B : blocks) (L : slab_map) (a n : Z) : Prop := exists k, live_at B L k a n.

(** The contents of the live ranges of [P]. *)
Definition same_contents (P : Z -> Z -> Prop) (m m' : gmap Z Z) : Prop :=
  forall a n x, P a n -> a <= x < a + n -> m' @@ x = m @@ x.

(** An allocation: [n] bytes at [r] are live that were not, and the contents of
    the live ranges are as before. *)
Definition heap_alloc {Pg : Type} (N : Z) (B : blocks) (L : slab_map) (n r : Z) (s s' : slabs Pg) : Prop :=
  exists B' L', heap_inv N B' L' s' /\ r <> 0 /\ (forall m, ~ live B L r m) /\
    (forall a m, live B' L' a m <-> live B L a m \/ (a = r /\ m = n)) /\
    same_contents (live B L) (mem (hb s)) (mem (hb s')).

(** A release: the range at [r] is no longer live. *)
Definition heap_free {Pg : Type} (N : Z) (B : blocks) (L : slab_map) (r : Z) (s s' : slabs Pg) : Prop :=
  exists B' L', heap_inv N B' L' s' /\ (forall a m, live B' L' a m <-> live B L a m /\ a <> r) /\
    same_contents (fun a n => live B L a n /\ a <> r) (mem (hb s)) (mem (hb s')).

(** Only links of the pages in [D] were written. *)
Definition slab_links (D : Z -> Prop) (m m' : gmap Z Z) : Prop :=
  forall x, (forall k, D k -> x <> page_addr k + 24 /\ x <> page_addr k + 32) -> m' @@ x = m @@ x.

(** * Lemmas: addresses *)

#[global] Instance slab_node_laws : NodeLaws slab_node.
Proof.
  split; simpl; intros a b x m Ha Hb; rewrite rd_insert; repeat case_decide; try done;
    exfalso; unfold PAGE_SIZE_4KB in *; try lia; dlia.
Qed.

Lemma osize_cases i : valid_cache i -> osize i ∈ sizes /\ 0 < cap i <= 253 /\ cap i * osize i <= PAGE_SIZE_4KB - sizeof_slab /\ 16 <= osize i <= 2048.
Proof.
  unfold valid_cache, NUM_CACHES. intros Hi.
  assert (i = 0 \/ i = 1 \/ i = 2 \/ i = 3 \/ i = 4 \/ i = 5 \/ i = 6 \/ i = 7) as Hc by lia.
  repeat (destruct Hc as [-> |Hc]); subst; (split; [by apply (bool_decide_unpack _); vm_compute | closed_range]).
Qed.

Lemma obj_range k i j : valid_cache i -> 0 <= j < cap i ->
  page_addr k + sizeof_slab <= obj k i j /\ obj k i j + osize i <= page_addr k + PAGE_SIZE_4KB.
Proof.
  intros Hi Hj. destruct (osize_cases i Hi) as (_ & Hc & Hco & Hs).
  assert (j * osize i + osize i <= cap i * osize i) by nia. assert (0 <= j * osize i) by nia. unfold obj. lia.
Qed.

Lemma obj_disj k i j j' : valid_cache i -> j <> j' -> obj k i j + osize i <= obj k i j' \/ obj k i j' + osize i <= obj k i j.
Proof. intros Hi Hne. destruct (osize_cases i Hi) as (_ & _ & _ & Hs). unfold obj. nia. Qed.

Lemma obj_inj k i j j' : valid_cache i -> obj k i j = obj k i j' -> j = j'.
Proof.
  intros Hi E. destruct (decide (j = j')); [done |]. destruct (osize_cases i Hi) as (_ & _ & _ & Hs).
  destruct (obj_disj k i j j' Hi n); lia.
Qed.

(** Two pages do not share an address. *)
Lemma page_unique k k' x : page_addr k <= x < page_addr k + PAGE_SIZE_4KB -> page_addr k' <= x < page_addr k' + PAGE_SIZE_4KB -> k = k'.
Proof. unfold page_addr, PAGE_SIZE_4KB. lia. Qed.

Lemma meta_index_in k x : 0 <= k <= 2 ^ 30 -> page_addr k <= x < page_addr k + PAGE_SIZE_4KB -> meta_index x = k.
Proof.
  intros Hk Hx. unfold meta_index, page_addr, PAGE_SIZE_4KB in *.
  assert ((x - HEAP_START) / 4096 = k) as E by dlia. rewrite u64_small by (unfold HEAP_START in *; lia). change 0x1000 with 4096. rewrite E, s32_small by lia. done.
Qed.

(** The page of an address, by masking. *)
Lemma page_mask k x : 0 <= k <= 2 ^ 30 -> page_addr k <= x < page_addr k + PAGE_SIZE_4KB -> Z.land x PAGE_MASK_4KB = page_addr k.
Proof.
  intros Hk Hx. unfold page_addr, PAGE_SIZE_4KB, HEAP_START in *. rewrite land_page_mask by lia. unfold PAGE_SIZE_4KB. dlia.
Qed.

Lemma nodup_range_length (l : list Z) n : NoDup l -> (forall j, j ∈ l -> 0 <= j < n) -> Z.of_nat (length l) <= Z.max 0 n.
Proof.
  intros Hnd Hr. assert (l ⊆+ seqZ 0 n) as Hs%submseteq_length.
  { apply NoDup_submseteq; [done |]. intros j Hj%Hr. apply elem_of_seqZ. lia. }
  rewrite length_seqZ in Hs. lia.
Qed.

(** * Lemmas: one page *)

Lemma slab_ok_ext m m' k i fl : slab_ok m k i fl -> valid_cache i ->
  (forall x, page_addr k <= x < page_addr k + PAGE_SIZE_4KB -> x <> page_addr k + 24 -> x <> page_addr k + 32 -> m' @@ x = m @@ x) ->
  slab_ok m' k i fl.
Proof.
  intros [Hh Hc Hk Hn Hr Hl] Hi Hm. split; try done.
  - by rewrite Hm by (unfold PAGE_SIZE_4KB; lia).
  - by rewrite Hm by (unfold PAGE_SIZE_4KB; lia).
  - by rewrite Hm by (unfold PAGE_SIZE_4KB; lia).
  - intros l1 j l2 E. assert (0 <= j < cap i) as Hj by (apply Hr; rewrite E; apply elem_of_app; right; by left).
    destruct (obj_range k i j Hi Hj) as [H1 H2]. destruct (osize_cases i Hi) as (_ & _ & _ & Hs).
    unfold sizeof_slab in H1. rewrite Hm by lia. by apply (Hl l1).
Qed.

(** The first free object is taken. *)
Lemma slab_ok_pop m k i j fl : slab_ok m k i (j :: fl) -> valid_cache i ->
  slab_ok (<[page_addr k + 8 := Z.of_nat (length fl) + 2 ^ 32 * cap i]> (<[page_addr k := optr k i fl]> m)) k i fl.
Proof.
  intros [Hh Hc Hk Hn Hr Hl] Hi. apply NoDup_cons in Hn as [Hj Hn]. split.
  - by rewrite rd_insert_ne, rd_insert_eq by lia.
  - by rewrite rd_insert_eq.
  - by rewrite !rd_insert_ne by lia.
  - done.
  - intros j' Hj'. apply Hr. by right.
  - intros l1 j' l2 E. assert (0 <= j' < cap i) as Hj' by (apply Hr; rewrite E; right; apply elem_of_app; right; by left).
    destruct (obj_range k i j' Hi Hj') as [H1 _]. unfold sizeof_slab in H1. rewrite !rd_insert_ne by lia.
    apply (Hl (j :: l1)). by rewrite E.
Qed.

(** An object is put back. *)
Lemma slab_ok_push m k i j fl : slab_ok m k i fl -> valid_cache i -> 0 <= j < cap i -> j ∉ fl ->
  slab_ok (<[page_addr k + 8 := Z.of_nat (length (j :: fl)) + 2 ^ 32 * cap i]>
    (<[page_addr k := obj k i j]> (<[obj k i j := optr k i fl]> m))) k i (j :: fl).
Proof.
  intros [Hh Hc Hk Hn Hr Hl] Hi Hj Hjf. destruct (obj_range k i j Hi Hj) as [H1 _]. unfold sizeof_slab in H1. split.
  - by rewrite rd_insert_ne, rd_insert_eq by lia.
  - by rewrite rd_insert_eq.
  - by rewrite !rd_insert_ne by lia.
  - by apply NoDup_cons.
  - intros j' [-> |Hj']%elem_of_cons; [done | by apply Hr].
  - intros [|j0 l1] j' l2 E; injection E as <- E.
    + subst l2. by rewrite !(rd_insert_ne _ (page_addr k + _)), (rd_insert_ne _ (page_addr k)), rd_insert_eq by lia.
    + assert (j' ∈ fl) as Hj' by (rewrite E; apply elem_of_app; right; by left).
      destruct (obj_range k i j' Hi (Hr j' Hj')) as [H2 _]. unfold sizeof_slab in H2.
      rewrite (rd_insert_ne _ (page_addr k + _)), (rd_insert_ne _ (page_addr k)) by lia.
      rewrite rd_insert_ne; [by apply (Hl l1) | intros ?%obj_inj; by subst].
Qed.

(** * Lemmas: the parts of the state *)

Section state.
Context {Pg : Type}.
Implicit Types s : slabs Pg.

Definition with_mem (m : gmap Z Z) s : slabs Pg := set_hb (set_mem m (hb s)) s.

Lemma wp_rd_word a (Q : Z -> slabs Pg -> Prop) s : Q (mem (hb s) @@ a) s -> wp (rd_word a) Q s.
Proof. intros HQ. apply wp_zoom, wp_gets. by destruct s. Qed.

Lemma wp_wr_word a x (Q : unit -> slabs Pg -> Prop) s : Q tt (with_mem (<[a := x]> (mem (hb s))) s) -> wp (wr_word a x) Q s.
Proof. intros HQ. by apply wp_zoom, wp_modify. Qed.

Lemma wp_get_free_count p (Q : Z -> slabs Pg -> Prop) s : Q ((mem (hb s) @@ (p + 8)) mod 2 ^ 32) s -> wp (get_free_count p) Q s.
Proof. intros HQ. by apply wp_bind, wp_rd_word, wp_ret. Qed.

Lemma wp_get_total_count p (Q : Z -> slabs Pg -> Prop) s :
  Q ((mem (hb s) @@ (p + 8) / 2 ^ 32) mod 2 ^ 32) s -> wp (get_total_count p) Q s.
Proof. intros HQ. by apply wp_bind, wp_rd_word, wp_ret. Qed.

Lemma wp_set_free_count p x c t (Q : unit -> slabs Pg -> Prop) s : mem (hb s) @@ (p + 8) = c + 2 ^ 32 * t ->
  0 <= c < 2 ^ 32 -> 0 <= x < 2 ^ 32 ->
  Q tt (with_mem (<[p + 8 := x + 2 ^ 32 * t]> (mem (hb s))) s) -> wp (set_free_count p x) Q s.
Proof.
  intros Hw Hc Hx HQ. apply wp_bind, wp_rd_word, wp_wr_word. rewrite Hw, u32_small by lia.
  replace (c + 2 ^ 32 * t - (c + 2 ^ 32 * t) mod 2 ^ 32 + x) with (x + 2 ^ 32 * t) by dlia. done.
Qed.

Lemma counts_low c t : 0 <= c < 2 ^ 32 -> (c + 2 ^ 32 * t) mod 2 ^ 32 = c.
Proof. intros. dlia. Qed.

Lemma counts_high c t : 0 <= c < 2 ^ 32 -> 0 <= t < 2 ^ 32 -> ((c + 2 ^ 32 * t) / 2 ^ 32) mod 2 ^ 32 = t.
Proof. intros. dlia. Qed.

(** The buddy allocator's invariant only reads links of free blocks. *)
Lemma buddy_inv_mem N B m' (b : buddy Pg) : buddy_inv N ∅ B b ->
  (forall k o, B !! k = Some (o, true) -> m' @@ page_addr k = mem b @@ page_addr k /\ m' @@ (page_addr k + 8) = mem b @@ (page_addr k + 8)) ->
  buddy_inv N ∅ B (set_mem m' b).
Proof.
  intros [H1 H2 Hl H4 H5] Hm. split; try done. intros o Ho. destruct (Hl o Ho) as (ks & Hd & Hks). exists ks. split; [| done].
  apply (dll_ext block_node (mem b)); [| done]. intros a (k & -> & Hk%Hks)%list_elem_of_fmap. apply (Hm k o Hk).
Qed.

(** ... and of the metadata the order and the free flag. *)
Lemma buddy_inv_slab_flag N B k x f (b : buddy Pg) : buddy_inv N ∅ B b -> metadata b !! k = Some x ->
  buddy_inv N ∅ B (set_metadata (<[k := Meta (order x) (is_free x) f]> (metadata b)) b).
Proof.
  intros [H1 H2 H3 Hm H5] Hk. split; try done. intros k' Hk'. destruct (Hm k' Hk') as (y & Hy & Hf & Ho). unfold meta_ok. simpl.
  destruct (decide (k' = k)) as [->|]; [rewrite lookup_insert_eq | rewrite lookup_insert_ne by done; by exists y].
  eexists. split; [done |]. assert (x = y) as -> by congruence. done.
Qed.

End state.

(** * Lemmas: the lists of pages *)

Lemma slab_links_write (D : Z -> Prop) m m' b y : (exists k, b = page_addr k /\ D k) -> slab_links D m m' ->
  slab_links D m (set_prev slab_node b y m') /\ slab_links D m (set_next slab_node b y m').
Proof.
  intros (k & -> & Hk) Hm. split; intros x Hx; simpl; rewrite rd_insert_ne; try (by apply Hm);
    intros <-; by destruct (Hx k Hk).
Qed.

Lemma slab_links_weaken (D D' : Z -> Prop) m m' : (forall k, D k -> D' k) -> slab_links D m m' -> slab_links D' m m'.
Proof. intros HD Hm x Hx. apply Hm. auto. Qed.

Lemma push_slab_links m h ks k : dll slab_node m h (page_addr <$> ks) ->
  slab_links (fun k' => k' ∈ k :: ks) m (dl_push slab_node h (page_addr k) m).
Proof.
  intros Hd. apply (dl_push_preserve slab_node (slab_links (fun k' => k' ∈ k :: ks) m)
    (fun b => exists k', b = page_addr k' /\ k' ∈ k :: ks)) with (l := page_addr <$> ks); [| done | | | done].
  - intros b x m' Hb Hm'. by apply slab_links_write.
  - exists k. split; [done | by left].
  - intros b (k' & -> & Hk')%list_elem_of_fmap. exists k'. split; [done | by right].
Qed.

Lemma remove_slab_links m h ks1 k ks2 : dll slab_node m h (page_addr <$> ks1 ++ k :: ks2) ->
  slab_links (fun k' => k' ∈ ks1 ++ k :: ks2) m (dl_remove slab_node h (page_addr k) m).2.
Proof.
  intros Hd. rewrite fmap_app, fmap_cons in Hd.
  apply (dl_remove_preserve slab_node (slab_links (fun k' => k' ∈ ks1 ++ k :: ks2) m)
    (fun b => exists k', b = page_addr k' /\ k' ∈ ks1 ++ k :: ks2)) with (l1 := page_addr <$> ks1) (l2 := page_addr <$> ks2);
    [| done | | done].
  - intros b x m' Hb Hm'. by apply slab_links_write.
  - intros b Hb. rewrite <- fmap_cons, <- fmap_app in Hb. by apply list_elem_of_fmap in Hb.
Qed.

Lemma slab_links_page D m m' k x : slab_links D m m' -> page_addr k <= x < page_addr k + PAGE_SIZE_4KB ->
  x <> page_addr k + 24 -> x <> page_addr k + 32 -> m' @@ x = m @@ x.
Proof. intros Hm Hx H1 H2. apply Hm. intros k' _. unfold page_addr, PAGE_SIZE_4KB in *. split; intros ->; apply H1 || apply H2; lia. Qed.

Lemma slab_links_out (D : Z -> Prop) m m' k x : slab_links D m m' -> ~ D k -> page_addr k <= x < page_addr k + PAGE_SIZE_4KB -> m' @@ x = m @@ x.
Proof.
  intros Hm Hk Hx. apply Hm. intros k' Hk'. unfold page_addr, PAGE_SIZE_4KB in *.
  split; intros ->; apply Hk; by replace k with k' by lia.
Qed.

Section lists.
Context {Pg : Type}.
Implicit Types s : slabs Pg.

Lemma list_head_set s x h y : list_head (set_list_head x h s) y = if decide (x = y) then h else list_head s y.
Proof.
  destruct x as [i|i], y as [i'|i']; cbn; try (by rewrite decide_False by done); rewrite rd_insert;
    (destruct (decide (i = i')) as [->|]; [by rewrite decide_True | rewrite decide_False; congruence]).
Qed.

Lemma on_list_fun L x y k : on_list L x k -> on_list L y k -> x = y.
Proof. intros (i & fl & H1 & <-) (i' & fl' & H2 & <-). congruence. Qed.

Lemma on_list_dom L x k : on_list L x k -> is_Some (L !! k).
Proof. intros (i & fl & H & _). by eexists. Qed.

(** One list has another head, and the memory changed. *)
Definition moved (x : slab_list) (h' : Z) (m' : gmap Z Z) s s' : Prop :=
  hb s' = set_mem m' (hb s) /\ c_size s' = c_size s /\ forall y, list_head s' y = if decide (x = y) then h' else list_head s y.

Lemma moved_set x h' m' s : moved x h' m' s (set_list_head x h' (with_mem m' s)).
Proof.
  split; [by destruct x |]. split; [by destruct x |]. intros y. rewrite list_head_set. case_decide; [done |]. by destruct y.
Qed.

Lemma moved_same x m' s : moved x (list_head s x) m' s (with_mem m' s).
Proof. split; [done |]. split; [done |]. intros y. case_decide; [subst |]; by destruct y. Qed.

(** One list changes. *)
Lemma ib_relist N B L k0 w w' x m' h' s s' : inv_but N B L k0 w s -> (w = None \/ w = Some x) -> (w' = None \/ w' = Some x) ->
  (exists ks, dll slab_node m' h' (page_addr <$> ks) /\ forall k, k ∈ ks <-> on_list L x k \/ (k = k0 /\ w' = Some x)) ->
  slab_links (fun k => k = k0 \/ on_list L x k) (mem (hb s)) m' -> moved x h' m' s s' ->
  inv_but N B L k0 w' s'.
Proof.
  intros [Hb Hp Hsz Hsl Hbl Hli] Hw Hw' Hnew Hm (E1 & E2 & E3). split; rewrite ?E1, ?E2; try done.
  - apply buddy_inv_mem; [done |]. intros k o Hk. assert (k <> k0 /\ ~ on_list L x k) as [Hk0 Hkl].
    { split; [intros ->; destruct Hp; congruence |]. intros Hk'. apply on_list_dom in Hk' as [[i fl] Hk']. apply Hsl in Hk' as [? _]. congruence. }
    split; apply (slab_links_out _ _ _ k _ Hm); unfold PAGE_SIZE_4KB; try lia; tauto.
  - intros k i fl Hk. destruct (Hsl k i fl Hk) as (? & ? & Hok & ?). split_and!; [done.. | | done].
    apply (slab_ok_ext (mem (hb s))); [done.. |]. intros y Hy ? ?. by apply (slab_links_page _ _ _ k _ Hm).
  - intros y Hy. rewrite E3. case_decide as Hxy; [by subst y |].
    destruct (Hli y Hy) as (ks & Hd & Hks). exists ks. split.
    + apply (dll_ext slab_node (mem (hb s))); [| done]. intros a (k & -> & Hk%Hks)%list_elem_of_fmap. cbn.
      assert (~ (k = k0 \/ on_list L x k)) as Hn.
      { destruct Hk as [Hk|[-> Hk]]; [| destruct Hw; congruence]. intros [-> |Hk']; [| by apply Hxy, (on_list_fun L _ _ k)].
        apply on_list_dom in Hk as [v Hk]. destruct Hp. congruence. }
      split; apply (slab_links_out _ _ _ k _ Hm); unfold PAGE_SIZE_4KB; lia || done.
    + intros k. rewrite Hks. split; (intros [?|[-> ?]]; [by left |]); destruct Hw, Hw'; congruence.
Qed.


Lemma with_mem_twice m m' s : with_mem m (with_mem m' s) = with_mem m s.
Proof. done. Qed.

Lemma mem_with_mem m s : mem (hb (with_mem m s)) = m.
Proof. done. Qed.

Lemma list_head_with_mem m s x : list_head (with_mem m s) x = list_head s x.
Proof. by destruct x. Qed.

Lemma ib_range N B L k0 w s : inv_but N B L k0 w s -> 0 <= k0 <= 2 ^ 30 /\ 0 <= k0 < N.
Proof. intros Hinv. destruct (inv_range _ _ _ _ _ _ _ (ib_buddy _ _ _ _ _ _ Hinv) (proj1 (ib_page _ _ _ _ _ _ Hinv))) as (? & ? & _). done. Qed.

(** What a list operation on page [k0] leaves. *)
Definition relisted (N : Z) (B : blocks) (L : slab_map) (k0 : Z) (w : option slab_list) s s' : Prop :=
  inv_but N B L k0 w s' /\ slab_links (fun k => k = k0 \/ is_Some (L !! k)) (mem (hb s)) (mem (hb s')) /\
  metadata (hb s') = metadata (hb s).

Lemma wp_slab_list_add N B L k0 x s : inv_but N B L k0 None s -> valid_cache (list_index x) ->
  wp (slab_list_add x (page_addr k0)) (fun _ s' => relisted N B L k0 (Some x) s s' /\ list_head s' x = page_addr k0) s.
Proof.
  intros Hinv Hx. destruct (ib_range _ _ _ _ _ _ Hinv) as [Hk30 _].
  destruct (ib_list _ _ _ _ _ _ Hinv x Hx) as (ks & Hd & Hks). pose proof (ib_page _ _ _ _ _ _ Hinv) as [_ Hk0].
  assert (k0 ∉ ks) as Hnin. { intros [[v Hv]%on_list_dom|[_ ?]]%Hks; congruence. }
  assert (n_valid slab_node (page_addr k0)) as Hv0 by apply page_addr_aligned.
  pose proof (dll_push slab_node _ _ _ (page_addr k0) Hd (page_addr_nz k0 ltac:(lia)) Hv0) as Hpush.
  pose proof (push_slab_links _ _ _ k0 Hd) as Hlk.
  set (h := list_head s x) in *. set (m' := dl_push slab_node h (page_addr k0) (mem (hb s))) in *.
  apply wp_bind, wp_gets. fold h. apply wp_bind, wp_wr_word, wp_bind, wp_wr_word. rewrite mem_with_mem, with_mem_twice.
  apply wp_bind. apply (wp_mono _ (fun _ s' => s' = with_mem m' s)).
  { unfold m', dl_push. cbn [set_prev set_next slab_node].
    rewrite (insert_insert_ne _ (page_addr k0 + 24) (page_addr k0 + 32)) by lia.
    apply wp_when; intros E; rewrite E; [apply wp_wr_word | done]. by rewrite mem_with_mem, with_mem_twice. }
  intros [] s' ->. apply wp_modify.
  assert (hb (set_list_head x (page_addr k0) (with_mem m' s)) = hb (with_mem m' s)) as E by by destruct x.
  split; [| by rewrite list_head_set, decide_True]. split; [| rewrite E; split; [| done]].
  - apply (ib_relist N B L k0 None (Some x) x m' (page_addr k0) s); [done | by left | by right | | | apply moved_set].
    + exists (k0 :: ks). split; [apply Hpush; by intros (? & ->%page_addr_inj & ?)%list_elem_of_fmap |].
      intros k. rewrite elem_of_cons, Hks. split; [intros [-> |[?|[_ ?]]]; [by right | by left | done] | intros [?|[-> _]]; [right; by left | by left]].
    + apply (slab_links_weaken (fun k => k ∈ k0 :: ks)); [| done]. intros k [-> |[?|[_ ?]]%Hks]%elem_of_cons; [by left | by right | done].
  - apply (slab_links_weaken (fun k => k ∈ k0 :: ks)); [| done]. intros k [-> |[?%on_list_dom|[_ ?]]%Hks]%elem_of_cons; [by left | by right | done].
Qed.

(** The writes of [slab_list_remove]. *)
Lemma wp_slab_unlink x a s h' m' : a mod PAGE_SIZE_4KB = 0 ->
  let p := mem (hb s) @@ (a + 24) in let n := mem (hb s) @@ (a + 32) in
  (p = 0 \/ p mod PAGE_SIZE_4KB = 0 /\ p <> a) -> (n = 0 \/ n mod PAGE_SIZE_4KB = 0 /\ n <> a) ->
  dl_remove slab_node (list_head s x) a (mem (hb s)) = (h', m') ->
  wp (slab_list_remove x a) (fun _ s' => moved x h' (<[a + 24 := 0]> m') s s') s.
Proof.
  intros Ha p n Hp Hn E. unfold dl_remove in E. cbn in E. fold p n in E.
  apply wp_bind, wp_rd_word. fold n. apply wp_bind.
  set (m1 := if truthy n then <[n + 24 := p]> (mem (hb s)) else mem (hb s)).
  apply (wp_mono _ (fun _ s' => s' = with_mem m1 s)).
  { unfold m1. apply wp_when; intros En; rewrite En; [| by destruct s as [[]]]. apply wp_bind, wp_rd_word. by apply wp_wr_word. }
  intros [] s1 ->. apply wp_bind, wp_rd_word. rewrite mem_with_mem.
  assert (m1 @@ (a + 24) = p /\ m1 @@ (a + 32) = n) as [-> E2].
  { unfold m1. destruct (truthy n) eqn:En; [| done]. destruct Hn as [->|[Hn1 Hn2]]; [done |].
    rewrite !rd_insert_ne; [done | unfold PAGE_SIZE_4KB in *; dlia | lia]. }
  assert (m' = if truthy p then <[p + 32 := n]> m1 else m1) as Em.
  { injection E as _ <-. unfold m1. destruct (truthy p) eqn:Ep, (truthy n) eqn:En; try done.
    apply insert_insert_ne. apply truthy_true in Ep, En. destruct Hp as [?|[Hp _]], Hn as [?|[Hn _]]; [done.. |]. unfold PAGE_SIZE_4KB in *. dlia. }
  assert (h' = if truthy p then list_head s x else n) as -> by by injection E as <- _. clear E.
  apply wp_bind. destruct (truthy p).
  - apply wp_bind, wp_rd_word. rewrite mem_with_mem, E2. apply wp_wr_word, wp_wr_word. rewrite !mem_with_mem, !with_mem_twice, <- Em.
    apply moved_same.
  - apply wp_bind, wp_rd_word. rewrite mem_with_mem, E2. apply wp_modify, wp_wr_word. subst m'.
    replace (with_mem _ _) with (set_list_head x n (with_mem (<[a + 24 := 0]> m1) s)) by (by destruct x). apply moved_set.
Qed.

Lemma wp_slab_list_remove N B L k0 x s : inv_but N B L k0 (Some x) s -> valid_cache (list_index x) ->
  wp (slab_list_remove x (page_addr k0)) (fun _ s' => relisted N B L k0 None s s') s.
Proof.
  intros Hinv Hx. destruct (ib_range _ _ _ _ _ _ Hinv) as [Hk30 _].
  destruct (ib_list _ _ _ _ _ _ Hinv x Hx) as (ks & Hd & Hks). pose proof (ib_page _ _ _ _ _ _ Hinv) as [_ Hk0].
  assert (k0 ∈ ks) as (ks1 & ks2 & ->)%list_elem_of_split by (apply Hks; by right).
  assert (NoDup (ks1 ++ k0 :: ks2)) as Hnd by (destruct Hd as (_ & _ & Hnd); by apply NoDup_fmap_1 in Hnd).
  assert (k0 ∉ ks1 ++ ks2) as Hnin.
  { apply NoDup_app in Hnd as (_ & H1 & [H2 _]%NoDup_cons). intros [?|?]%elem_of_app; [| done]. apply (H1 k0); [done | by left]. }
  pose proof (remove_slab_links _ _ _ _ _ Hd) as Hlk. rewrite fmap_app, fmap_cons in Hd.
  pose proof (dll_remove slab_node _ _ _ _ _ Hd) as Hrem. destruct (dll_neighbours slab_node _ _ _ _ _ Hd) as [Hp Hn].
  set (h := list_head s x) in *. cbn in Hp, Hn. set (p := mem (hb s) @@ (page_addr k0 + 24)) in *. set (n := mem (hb s) @@ (page_addr k0 + 32)) in *.
  destruct (dl_remove slab_node h (page_addr k0) (mem (hb s))) as [h' m'] eqn:E. cbn [snd] in Hlk.
  apply (wp_mono _ (fun _ s' => moved x h' (<[page_addr k0 + 24 := 0]> m') s s')).
  - apply wp_slab_unlink; [apply page_addr_aligned | done..].
  - intros [] s' Hmv. pose proof Hmv as (E1 & _).
    assert (slab_links (fun k => k ∈ ks1 ++ k0 :: ks2) (mem (hb s)) (<[page_addr k0 + 24 := 0]> m')) as Hlk'.
    { apply (slab_links_write (fun k => k ∈ ks1 ++ k0 :: ks2) (mem (hb s)) m' (page_addr k0) 0); [| done].
      exists k0. split; [done | apply elem_of_app; right; by left]. }
    split; [| rewrite E1; split; [| done]].
    + apply (ib_relist N B L k0 (Some x) None x (<[page_addr k0 + 24 := 0]> m') h' s); [done | by right | by left | | | done].
      * exists (ks1 ++ ks2). split.
        -- rewrite fmap_app. apply (dll_ext slab_node m'); [| done]. intros a Ha. rewrite <- fmap_app in Ha.
           apply list_elem_of_fmap in Ha as (k & -> & Hk). assert (page_addr k <> page_addr k0) by (intros ->%page_addr_inj; done).
           cbn. rewrite !rd_insert_ne; [done | unfold page_addr, PAGE_SIZE_4KB in *; lia..].
        -- intros k. transitivity (k ∈ ks1 ++ k0 :: ks2 /\ k <> k0).
           ++ rewrite !elem_of_app, elem_of_cons. rewrite elem_of_app in Hnin. split; [intros H; split; [tauto | by intros ->; tauto] | tauto].
           ++ rewrite Hks. split; [intros [[?|[-> _]] ?]; [by left | done] | intros [?|[_ ?]]; [| done]; split; [by left |]].
              intros ->. apply on_list_dom in H as [v Hv]. congruence.
      * apply (slab_links_weaken (fun k => k ∈ ks1 ++ k0 :: ks2)); [| done]. intros k [?|[-> _]]%Hks; [by right | by left].
    + apply (slab_links_weaken (fun k => k ∈ ks1 ++ k0 :: ks2)); [| done]. intros k [?%on_list_dom|[-> _]]%Hks; [by right | by left].
Qed.

End lists.

(** * Lemmas: working on one page *)

(** Only page [k] was written, and there not the links. *)
Definition page_only (k : Z) (m m' : gmap Z Z) : Prop :=
  forall x, ~ (page_addr k <= x < page_addr k + PAGE_SIZE_4KB) \/ x = page_addr k + 24 \/ x = page_addr k + 32 -> m' @@ x = m @@ x.

Lemma page_only_refl k m : page_only k m m.
Proof. done. Qed.

Lemma page_only_write k m m' a y : page_only k m m' -> page_addr k <= a < page_addr k + PAGE_SIZE_4KB ->
  a <> page_addr k + 24 -> a <> page_addr k + 32 -> page_only k m (<[a := y]> m').
Proof. intros Hm Ha H1 H2 x Hx. rewrite rd_insert_ne; [by apply Hm |]. intros ->. tauto. Qed.

Section page.
Context {Pg : Type}.
Implicit Types s : slabs Pg.

Lemma ib_write N B L k w m' s : inv_but N B L k w s -> page_only k (mem (hb s)) m' -> inv_but N B L k w (with_mem m' s).
Proof.
  intros [Hb Hp Hsz Hsl Hbl Hli] Hm. split; try done.
  - apply buddy_inv_mem; [done |]. intros k' o Hk'. assert (k' <> k) by (intros ->; destruct Hp; congruence).
    split; apply Hm; left; unfold page_addr, PAGE_SIZE_4KB; lia.
  - intros k' i fl Hk'. destruct (Hsl k' i fl Hk') as (? & ? & Hok & ?). split_and!; [done.. | | done].
    assert (k' <> k) by (intros ->; destruct Hp; congruence).
    apply (slab_ok_ext (mem (hb s))); [done.. |]. intros x Hx _ _. apply Hm. left. unfold page_addr, PAGE_SIZE_4KB in *. lia.
  - intros x Hx. rewrite list_head_with_mem. destruct (Hli x Hx) as (ks & Hd & Hks). exists ks. split; [| done].
    apply (dll_ext slab_node (mem (hb s))); [| done]. intros a (k' & -> & _)%list_elem_of_fmap. cbn.
    destruct (decide (k' = k)) as [->|]; split; apply Hm; auto; left; unfold page_addr, PAGE_SIZE_4KB; lia.
Qed.

Lemma ib_meta N B L k w x f s : inv_but N B L k w s -> metadata (hb s) !! k = Some x ->
  inv_but N B L k w (set_hb (set_metadata (<[k := Meta (order x) (is_free x) f]> (metadata (hb s))) (hb s)) s).
Proof.
  intros [Hb Hp Hsz Hsl Hbl Hli] Hx. split; try done.
  - by apply buddy_inv_slab_flag.
  - intros k' i fl Hk'. destruct (Hsl k' i fl Hk') as (? & ? & Hok & ?). assert (k' <> k) by (intros ->; destruct Hp; congruence).
    split_and!; [done.. |]. cbn. by rewrite lookup_insert_ne.
  - intros k' o Hk' Hl Hne. cbn. rewrite lookup_insert_ne by done. by apply (Hbl k' o).
Qed.

Lemma hi_open N B L k i fl s : heap_inv N B L s -> L !! k = Some (i, fl) ->
  inv_but N B (delete k L) k (Some (list_for i fl)) s /\ valid_cache i /\ slab_ok (mem (hb s)) k i fl /\
  metadata (hb s) !! k = Some (Meta 0 false true).
Proof.
  intros [Hb Hsz Hsl Hbl Hli] Hk. destruct (Hsl k i fl Hk) as (HB & Hi & Hok & Hm). split_and!; [| done..]. split.
  - done.
  - split; [done | apply lookup_delete_eq].
  - done.
  - intros k' i' fl' [_ Hk']%lookup_delete_Some. by apply Hsl.
  - intros k' o Hk' Hl Hne. rewrite lookup_delete_ne in Hl by done. by apply (Hbl k' o).
  - intros x Hx. destruct (Hli x Hx) as (ks & Hd & Hks). exists ks. split; [done |]. intros k'. rewrite Hks.
    unfold on_list. destruct (decide (k' = k)) as [->|Hne].
    + rewrite lookup_delete_eq. split; [intros (? & ? & ? & <-); right; split; congruence | intros [(? & ? & ? & _)|[_ ?]]; [done |]].
      exists i, fl. split; congruence.
    + rewrite lookup_delete_ne by done. split; [by left | by intros [?|[? _]]].
Qed.

Lemma hi_close N B L k i fl s : inv_but N B L k (Some (list_for i fl)) s -> valid_cache i -> slab_ok (mem (hb s)) k i fl ->
  metadata (hb s) !! k = Some (Meta 0 false true) -> heap_inv N B (<[k := (i, fl)]> L) s.
Proof.
  intros [Hb [HB HL] Hsz Hsl Hbl Hli] Hi Hok Hm. split; [done | done | | |].
  - intros k' i' fl' Hk'. destruct (decide (k' = k)) as [->|Hne].
    + rewrite lookup_insert_eq in Hk'. by injection Hk' as <- <-.
    + rewrite lookup_insert_ne in Hk' by done. by apply Hsl.
  - intros k' o Hk' Hl. assert (k' <> k) as Hne by (intros ->; by rewrite lookup_insert_eq in Hl).
    rewrite lookup_insert_ne in Hl by done. by apply (Hbl k' o).
  - intros x Hx. destruct (Hli x Hx) as (ks & Hd & Hks). exists ks. split; [done |]. intros k'. rewrite Hks.
    unfold on_list. destruct (decide (k' = k)) as [->|Hne].
    + rewrite lookup_insert_eq, HL. split; [intros [(? & ? & ? & _)|[_ [= <-]]]; [done | by exists i, fl] |].
      intros (? & ? & [= <- <-] & <-). by right.
    + rewrite lookup_insert_ne by done. split; [by intros [?|[? _]] | by left].
Qed.

(** ** The loop that threads the objects *)

Lemma page_high k : 0 <= k <= 2 ^ 30 -> 0 < page_addr k < 2 ^ 63 + 2 ^ 63 - 2 ^ 32.
Proof. unfold page_addr, PAGE_SIZE_4KB, HEAP_START. lia. Qed.

Lemma fill_test k i j : 0 <= k <= 2 ^ 30 -> valid_cache i -> 0 <= j <= cap i ->
  (u64 (obj k i j + osize i) <=? u64 (page_addr k + PAGE_SIZE_4KB)) = (j <? cap i).
Proof.
  intros Hk Hi Hj. destruct (osize_cases i Hi) as (_ & Hc & Hco & Hs). pose proof (page_high k Hk) as Hp.
  assert (0 <= j * osize i <= cap i * osize i) by nia. unfold sizeof_slab, PAGE_SIZE_4KB in *.
  unfold obj, sizeof_slab. rewrite !u64_small by lia.
  destruct (Z.ltb_spec j (cap i)) as [Hlt|Hge].
  - apply Z.leb_le. assert (j * osize i + osize i <= cap i * osize i) by nia. lia.
  - apply Z.leb_gt. assert (j = cap i) as -> by lia. unfold cap, PAGE_SIZE_4KB, sizeof_slab in *.
    pose proof (Z.mod_pos_bound (4096 - 40) (osize i) ltac:(lia)). pose proof (Z.div_mod (4096 - 40) (osize i) ltac:(lia)). change 0x1000 with 4096 in *. nia.
Qed.

(** The first [j] objects are threaded and counted. *)
Record filled (k i j t : Z) (m : gmap Z Z) : Prop := {
  fd_count : m @@ (page_addr k + 8) = j + 2 ^ 32 * t;
  fd_links j' : 0 <= j' < j -> m @@ obj k i j' = if j' + 1 <? cap i then obj k i (j' + 1) else 0;
}.

Lemma wp_slab_fill fuel k i j t m0 s : 0 <= k <= 2 ^ 30 -> valid_cache i -> 0 <= j <= cap i -> cap i - j <= Z.of_nat fuel ->
  filled k i j t (mem (hb s)) -> page_only k m0 (mem (hb s)) -> 
  wp (slab_fill fuel (page_addr k) (osize i) (obj k i j)) (fun _ s' => exists m', s' = with_mem m' s /\
    filled k i (cap i) t m' /\ page_only k m0 m' /\ m' @@ page_addr k = mem (hb s) @@ page_addr k /\
    m' @@ (page_addr k + 16) = mem (hb s) @@ (page_addr k + 16)) s.
Proof.
  intros Hk Hi. revert j s. induction fuel as [|fuel IH]; intros j s Hj Hf Hfill Hpo; cbn [slab_fill]; rewrite fill_test by done.
  - destruct (Z.ltb_spec j (cap i)); [lia |]. apply wp_ret. exists (mem (hb s)). assert (j = cap i) as <- by lia.
    split_and!; try done. by destruct s as [[]].
  - destruct (Z.ltb_spec j (cap i)) as [Hjc|Hjc]; cycle 1.
    { apply wp_ret. exists (mem (hb s)). assert (j = cap i) as <- by lia. split_and!; try done. by destruct s as [[]]. }
    destruct (obj_range k i j Hi ltac:(lia)) as [Ho1 Ho2]. destruct (osize_cases i Hi) as (_ & Hc & Hco & Hs). pose proof (page_high k Hk) as Hp.
    unfold sizeof_slab in Ho1.
    assert (u64 (obj k i j + osize i) = obj k i (j + 1)) as ->.
    { rewrite u64_small by (unfold PAGE_SIZE_4KB in *; lia). unfold obj. lia. }
    rewrite fill_test by (done || lia).
    set (nx := if j + 1 <? cap i then obj k i (j + 1) else 0).
    apply wp_bind, (wp_mono _ (fun _ s' => s' = with_mem (<[obj k i j := nx]> (mem (hb s))) s)).
    { unfold nx. destruct (j + 1 <? cap i); by apply wp_wr_word. }
    intros [] s1 ->. destruct Hfill as [Hcount Hlinks].
    apply wp_bind, wp_get_free_count. rewrite mem_with_mem, rd_insert_ne, Hcount, counts_low by lia.
    apply wp_bind, (wp_set_free_count _ _ j t); [by rewrite mem_with_mem, rd_insert_ne by lia | lia | lia |].
    rewrite mem_with_mem, with_mem_twice.
    set (m2 := <[page_addr k + 8 := _]> _). eapply wp_mono; [apply (IH (j + 1) (with_mem m2 s)); [lia | lia | | ] |].
    + rewrite mem_with_mem. split; [by unfold m2; rewrite rd_insert_eq |]. intros j' Hj'. unfold m2.
      destruct (obj_range k i j' Hi ltac:(lia)) as [Ho3 _]. unfold sizeof_slab in Ho3. rewrite rd_insert_ne by lia.
      destruct (decide (j' = j)) as [->|]; [by rewrite rd_insert_eq |]. rewrite rd_insert_ne by (intros Eo; apply obj_inj in Eo; [lia | done]). apply Hlinks. lia.
    + rewrite mem_with_mem. unfold m2, PAGE_SIZE_4KB in *. repeat apply page_only_write; unfold PAGE_SIZE_4KB; try lia; done.
    + intros [] s' (m' & -> & H1 & H2 & H3 & H4). rewrite mem_with_mem in H3, H4. unfold m2 in H3, H4.
      exists m'. split; [done |]. split; [done |]. split; [done |]. by rewrite H3, H4, !rd_insert_ne by lia.
Qed.

End page.

(** * Lemmas: the operations *)

Lemma seqZ_split c l1 j l2 : seqZ 0 c = l1 ++ j :: l2 -> j = Z.of_nat (length l1) /\ head l2 = if j + 1 <? c then Some (j + 1) else None.
Proof.
  intros E.
  assert (seqZ 0 c !! length l1 = Some j) as H1 by (rewrite E, list_lookup_middle by done; done).
  assert (seqZ 0 c !! S (length l1) = head l2) as H2.
  { rewrite E, lookup_app_r by lia. replace (S (length l1) - length l1)%nat with 1%nat by lia. by destruct l2. }
  apply lookup_seqZ in H1 as [-> H1]. split; [lia |].
  destruct (Z.ltb_spec (0 + Z.of_nat (length l1) + 1) c).
  - rewrite <- H2. apply lookup_seqZ. split; lia.
  - rewrite <- H2. apply lookup_seqZ_ge. lia.
Qed.

Lemma filled_slab_ok m k i : valid_cache i -> filled k i (cap i) (cap i) m -> m @@ page_addr k = obj k i 0 ->
  m @@ (page_addr k + 16) = i -> slab_ok m k i (seqZ 0 (cap i)).
Proof.
  intros Hi [Hc Hl] Hh Hca. destruct (osize_cases i Hi) as (_ & Hcap & _). split.
  - rewrite Hh. unfold optr. rewrite (seqZ_cons 0) by lia. done.
  - rewrite Hc, length_seqZ. lia.
  - done.
  - apply NoDup_seqZ.
  - intros j Hj%elem_of_seqZ. lia.
  - intros l1 j l2 E. assert (0 <= j < cap i) as Hj.
    { assert (j ∈ seqZ 0 (cap i)) as Hj%elem_of_seqZ by (rewrite E; apply elem_of_app; right; by left). lia. }
    apply seqZ_split in E as [_ E]. rewrite Hl by done. unfold optr. destruct (j + 1 <? cap i), l2; simpl in E; congruence.
Qed.

Section operations_spec.
Context {Pg : Type} `{HeapSource Pg}.
Implicit Types s : slabs Pg.

(** The pages of the allocated blocks but [k] are as they were. *)
Definition others_kept (B : blocks) (k : Z) (m m' : gmap Z Z) : Prop :=
  forall p x, kept B k p -> page_addr p <= x < page_addr p + PAGE_SIZE_4KB -> m' @@ x = m @@ x.

Lemma kept_slab N B L k k0 i fl s : heap_inv N B L s -> L !! k = Some (i, fl) -> k <> k0 -> kept B k0 k.
Proof. intros Hinv Hk Hne. destruct (hi_slab _ _ _ _ Hinv _ _ _ Hk) as (HB & _). apply kept_spec. exists k, 0. split_and!; [done.. | lia | lia]. Qed.

Lemma page_succ k : page_addr (k + 1) = page_addr k + PAGE_SIZE_4KB.
Proof. unfold page_addr. lia. Qed.

(** A block of one page from the buddy allocator. *)
Lemma inv_but_alloc N B L k B' b s : heap_inv N B L s -> buddy_inv N ∅ B' b -> allocated B !! k = None ->
  allocated B' = <[k := 0]> (allocated B) -> untouched (kept B k) (hb s) b -> inv_but N B' L k None (set_hb b s).
Proof.
  intros Hinv Hb Hnone Ha [Hum Hut _ _ _]. pose proof Hinv as [_ Hsz Hsl Hbl Hli].
  assert (forall k' o, k' <> k -> B' !! k' = Some (o, false) <-> B !! k' = Some (o, false)) as HB.
  { intros k' o Hne. rewrite <- !lookup_allocated, Ha. by rewrite lookup_insert_ne. }
  assert (L !! k = None) as HL.
  { destruct (L !! k) as [[i fl]|] eqn:E; [| done]. destruct (Hsl _ _ _ E) as (E2%lookup_allocated & _). congruence. }
  assert (forall k', is_Some (L !! k') -> k' <> k /\ kept B k k') as Hkept.
  { intros k' [[i fl] Hk']. assert (k' <> k) by congruence. split; [done |]. by apply (kept_slab N B L k' k i fl s). }
  split.
  - done.
  - split; [| done]. apply lookup_allocated. rewrite Ha. apply lookup_insert_eq.
  - done.
  - intros k' i fl Hk'. destruct (Hkept k' ltac:(by eexists)) as [Hne Hke]. destruct (Hsl _ _ _ Hk') as (H1 & Hi & Hok & Hm).
    split_and!; [by apply HB | done | | cbn; by rewrite Hut]. apply (slab_ok_ext (mem (hb s))); [done.. |]. intros x Hx _ _.
    apply (Hum k'); [done | by rewrite page_succ].
  - intros k' o Hk' Hl Hne. apply HB in Hk'; [| done]. cbn. rewrite Hut; [by apply (Hbl k' o) |].
    apply kept_spec. exists k', o. destruct (inv_range _ _ _ _ _ _ _ (hi_buddy _ _ _ _ Hinv) Hk') as (_ & _ & _ & ?). split_and!; [done.. | lia | lia].
  - intros x Hx. destruct (Hli x Hx) as (ks & Hd & Hks). exists ks. split.
    + assert (list_head (set_hb b s) x = list_head s x) as -> by by destruct x.
      apply (dll_ext slab_node (mem (hb s))); [| done]. intros a (k' & -> & Hk'%Hks%on_list_dom%Hkept)%list_elem_of_fmap. cbn.
      split; apply (Hum k'); try tauto; rewrite page_succ; unfold PAGE_SIZE_4KB; lia.
    + intros k'. rewrite Hks. split; [by left | by intros [?|[_ ?]]].
Qed.

Lemma first_obj_mask k : 0 <= k <= 2 ^ 30 -> Z.land (u64 (page_addr k + sizeof_slab + 7)) (2 ^ 64 - 8) = page_addr k + sizeof_slab.
Proof.
  intros Hk. pose proof (page_high k Hk) as Hp. change 8 with (2 ^ 3). unfold sizeof_slab. rewrite u64_small, land_high_mask by lia.
  unfold page_addr, PAGE_SIZE_4KB, HEAP_START. dlia.
Qed.

Lemma wp_slab_create N B L i fuel s : heap_inv N B L s -> valid_cache i -> (exists k o, B !! k = Some (o, true)) ->
  wp (slab_create (S fuel) i) (fun r s' => exists k B', r = page_addr k /\ inv_but N B' L k None s' /\
    slab_ok (mem (hb s')) k i (seqZ 0 (cap i)) /\ metadata (hb s') !! k = Some (Meta 0 false true) /\
    allocated B !! k = None /\ allocated B' = <[k := 0]> (allocated B) /\ others_kept B k (mem (hb s)) (mem (hb s'))) s.
Proof.
  intros Hinv Hi (kf & o & Hfree). pose proof (hi_buddy _ _ _ _ Hinv) as Hb.
  destruct (inv_range _ _ _ _ _ _ _ Hb Hfree) as (_ & _ & Ho & _).
  apply wp_bind, wp_zoom. eapply wp_mono; [apply (wp_buddy_alloc N B); [done | lia | exists kf, o; split; [done | lia]] |].
  intros r b (k & B' & -> & Hb' & Hnone & Ha & Hmeta & Hut). pose proof (inv_but_alloc N B L k B' b s Hinv Hb' Hnone Ha Hut) as Hinv1.
  assert (others_kept B k (mem (hb s)) (mem b)) as Hkept.
  { intros p x Hp Hx. apply (ut_mem _ _ _ Hut p); [done | by rewrite page_succ]. }
  destruct (ib_range _ _ _ _ _ _ Hinv1) as [Hk Hk']. pose proof (page_high k Hk) as Hp.
  rewrite (proj2 (truthy_true (page_addr k))) by lia. cbn [negb]. rewrite meta_index_page by done. change (over l_hb b s) with (set_hb b s).
  apply wp_bind, wp_zoom. eapply wp_upd_meta; [exact Hmeta |]. cbn [order is_free].
  pose proof (ib_meta _ _ _ _ _ _ true _ Hinv1 Hmeta) as Hinv2. cbn [order is_free hb set_hb view l_hb over] in *.
  change (set_hb (set_metadata (<[k := Meta 0 false true]> (metadata b)) b) (set_hb b s))
    with (set_hb (set_metadata (<[k := Meta 0 false true]> (metadata b)) b) s) in Hinv2 |- *.
  set (s2 := set_hb (set_metadata (<[k := Meta 0 false true]> (metadata b)) b) s) in *.
  assert (mem (hb s2) = mem b) as Hm2 by done. assert (metadata (hb s2) !! k = Some (Meta 0 false true)) as Hmeta2 by apply lookup_insert_eq.
  assert (c_size s2 @@ i = osize i) as Hsz by by apply (ib_size _ _ _ _ _ _ Hinv2).
  clearbody s2. apply wp_bind, wp_wr_word. rewrite Hm2. rewrite first_obj_mask by done.
  apply wp_bind, wp_wr_word. rewrite mem_with_mem, with_mem_twice. set (m3 := <[page_addr k := _]> _).
  set (t := m3 @@ (page_addr k + 8) / 2 ^ 32).
  apply wp_bind, (wp_set_free_count _ 0 (m3 @@ (page_addr k + 8) mod 2 ^ 32) t); [rewrite mem_with_mem; unfold t; dlia | dlia | lia |].
  rewrite mem_with_mem, with_mem_twice. set (m4 := <[page_addr k + 8 := 0 + 2 ^ 32 * t]> m3).
  apply wp_bind, wp_gets. change (c_size (with_mem m4 s2)) with (c_size s2). rewrite Hsz.
  assert (page_only k (mem b) m4) as Hpo.
  { unfold m4, m3. repeat apply page_only_write; unfold PAGE_SIZE_4KB; try lia; done. }
  apply wp_bind. replace (page_addr k + sizeof_slab) with (obj k i 0) by (unfold obj; lia). destruct (osize_cases i Hi) as (_ & Hcap & _).
  eapply wp_mono; [apply (wp_slab_fill 256 k i 0 t (mem b)); [done | done | lia | lia | | by rewrite mem_with_mem] |].
  { rewrite mem_with_mem. split; [unfold m4; by rewrite rd_insert_eq | lia]. }
  intros [] s5 (m5 & -> & [Hc5 Hl5] & Hpo5 & Hh5 & Hca5). rewrite with_mem_twice. rewrite mem_with_mem in Hh5, Hca5.
  apply wp_bind, wp_get_free_count. rewrite mem_with_mem, Hc5, counts_low by lia.
  apply wp_bind, wp_bind, wp_rd_word, wp_wr_word. rewrite mem_with_mem, with_mem_twice, Hc5, counts_low, u32_small by lia.
  apply wp_ret. exists k, B'. split; [done |]. split; [| split; [| split_and!]]; rewrite ?mem_with_mem; try done.
  - apply ib_write; [done |]. rewrite Hm2. apply page_only_write; unfold PAGE_SIZE_4KB; try lia; done.
  - apply filled_slab_ok; [done | | |].
    + split; [by rewrite rd_insert_eq |]. intros j Hj. destruct (obj_range k i j Hi Hj) as [Hoj _]. unfold sizeof_slab in Hoj.
      rewrite rd_insert_ne by lia. by apply Hl5.
    + rewrite rd_insert_ne, Hh5 by lia. unfold m4, m3. rewrite rd_insert_ne, rd_insert_eq by lia. unfold obj. lia.
    + rewrite rd_insert_ne, Hca5 by lia. unfold m4, m3. by rewrite !rd_insert_ne, rd_insert_eq by lia.
  - intros p x Hpk Hx. assert (p <> k).
    { intros ->. apply kept_spec in Hpk as (k1 & o1 & Hk1%lookup_allocated & Hne & Hin).
      destruct (new_block N B' k 0 b (allocated B) Hb' Hnone Ha) as (_ & _ & _ & Hd). specialize (Hd k1 o1 Hk1). lia. }
    rewrite rd_insert_ne by (unfold page_addr, PAGE_SIZE_4KB in *; lia). rewrite Hpo5; [by apply (Hkept p) |].
    left. unfold page_addr, PAGE_SIZE_4KB in *. lia.
Qed.

(** ** Live ranges *)

Lemma live_at_bounds N B L k a n s : heap_inv N B L s -> live_at B L k a n ->
  exists o, B !! k = Some (o, false) /\ 0 <= k <= 2 ^ 30 /\ 0 < n /\ page_addr k <= a /\ a + n <= page_addr k + 2 ^ o * PAGE_SIZE_4KB.
Proof.
  intros Hinv Hl. unfold live_at in Hl. destruct (L !! k) as [[i fl]|] eqn:E.
  - destruct Hl as (j & Hj & _ & -> & ->). destruct (hi_slab _ _ _ _ Hinv _ _ _ E) as (HB & Hi & _).
    destruct (inv_range _ _ _ _ _ _ _ (hi_buddy _ _ _ _ Hinv) HB) as (_ & ? & _). destruct (obj_range k i j Hi Hj) as [? ?].
    destruct (osize_cases i Hi) as (_ & _ & _ & ?). unfold sizeof_slab in *. exists 0. split_and!; [done | lia..].
  - destruct Hl as (o & HB & -> & ->). destruct (inv_range _ _ _ _ _ _ _ (hi_buddy _ _ _ _ Hinv) HB) as (_ & ? & _ & ?).
    exists o. unfold PAGE_SIZE_4KB. split_and!; [done | lia..].
Qed.

Lemma live_at_disjoint N B L k k' a a' n n' s : heap_inv N B L s -> live_at B L k a n -> live_at B L k' a' n' ->
  (k = k' /\ a = a' /\ n = n') \/ a + n <= a' \/ a' + n' <= a.
Proof.
  intros Hinv Hl Hl'. destruct (decide (k = k')) as [<-|Hne].
  - unfold live_at in *. destruct (L !! k) as [[i fl]|] eqn:E.
    + destruct Hl as (j & _ & _ & -> & ->), Hl' as (j' & _ & _ & -> & ->). destruct (hi_slab _ _ _ _ Hinv _ _ _ E) as (_ & Hi & _).
      destruct (decide (j = j')) as [->|Hj]; [by left | right; by apply obj_disj].
    + destruct Hl as (o & H1 & -> & ->), Hl' as (o' & H2 & -> & ->). left. split_and!; congruence.
  - right. destruct (live_at_bounds _ _ _ _ _ _ _ Hinv Hl) as (o & HB & ? & ? & ? & ?).
    destruct (live_at_bounds _ _ _ _ _ _ _ Hinv Hl') as (o' & HB' & ? & ? & ? & ?).
    destruct (t_disj _ _ (bi_tiling _ _ _ _ (hi_buddy _ _ _ _ Hinv)) _ _ _ _ _ _ HB HB' Hne) as [Hd|Hd];
      unfold page_addr, PAGE_SIZE_4KB in *; [left | right]; lia.
Qed.

(** The page of a live range, from an address in it. *)
Lemma live_at_page N B L k k' a n x s : heap_inv N B L s -> live_at B L k a n -> a <= x < a + n -> B !! k' = Some (0, false) ->
  page_addr k' <= x < page_addr k' + PAGE_SIZE_4KB -> k = k'.
Proof.
  intros Hinv Hl Hx Hk' Hx'. destruct (decide (k = k')) as [|Hne]; [done |]. exfalso.
  destruct (live_at_bounds _ _ _ _ _ _ _ Hinv Hl) as (o & HB & ? & ? & ? & ?).
  destruct (t_disj _ _ (bi_tiling _ _ _ _ (hi_buddy _ _ _ _ Hinv)) _ _ _ _ _ _ HB Hk' Hne);
    unfold page_addr, PAGE_SIZE_4KB in *; change (2 ^ 0) with 1 in *; lia.
Qed.

(** The page of a word of a live range. *)
Lemma live_at_word N B L p a n x s : heap_inv N B L s -> live_at B L p a n -> a <= x < a + n ->
  exists o q, B !! p = Some (o, false) /\ p <= q < p + 2 ^ o /\ page_addr q <= x < page_addr q + PAGE_SIZE_4KB.
Proof.
  intros Hinv Hl Hx. destruct (live_at_bounds _ _ _ _ _ _ _ Hinv Hl) as (o & HB & Hp0 & Hn & Ha1 & Ha2).
  exists o, ((x - HEAP_START) / PAGE_SIZE_4KB). unfold page_addr, PAGE_SIZE_4KB in *. split; [done |]. split; dlia.
Qed.

(** Links of slabs are not in live ranges. *)
Lemma live_not_link N B L a n x k s : heap_inv N B L s -> live B L a n -> a <= x < a + n -> is_Some (L !! k) ->
  x <> page_addr k + 24 /\ x <> page_addr k + 32 /\ x <> page_addr k /\ x <> page_addr k + 8.
Proof.
  intros Hinv (k' & Hl) Hx [[i fl] Hk]. destruct (hi_slab _ _ _ _ Hinv _ _ _ Hk) as (HB & Hi & _).
  destruct (decide (page_addr k <= x < page_addr k + PAGE_SIZE_4KB)) as [Hp|]; [| unfold PAGE_SIZE_4KB in *; lia].
  assert (k' = k) as -> by by apply (live_at_page N B L k' k a n x s). unfold live_at in Hl. rewrite Hk in Hl.
  destruct Hl as (j & Hj & _ & -> & _). destruct (obj_range k i j Hi Hj) as [? _]. unfold sizeof_slab in *. lia.
Qed.

(** ** Allocation *)

(** Page [k] has the free object [j] and is the first of the partial list of
    cache [i]; the blocks and slabs of the other pages are those of [B] and [L]. *)
Record partial_page (N : Z) (B : blocks) (L : slab_map) (i k j : Z) (fl : list Z) (B1 : blocks) s s1 : Prop := {
  pp_inv : inv_but N B1 (delete k L) k (Some (Partial i)) s1;
  pp_ok : slab_ok (mem (hb s1)) k i (j :: fl);
  pp_meta : metadata (hb s1) !! k = Some (Meta 0 false true);
  pp_head : c_partial s1 @@ i = page_addr k;
  pp_blocks k' o : k' <> k -> B1 !! k' = Some (o, false) <-> B !! k' = Some (o, false);
  pp_page : L !! k = Some (i, j :: fl) \/ (L !! k = None /\ allocated B !! k = None /\ j :: fl = seqZ 0 (cap i));
  pp_contents : same_contents (live B L) (mem (hb s)) (mem (hb s1));
}.

Lemma allocated_insert B B' k k' o o' : allocated B' = <[k := o]> (allocated B) -> k' <> k ->
  B' !! k' = Some (o', false) <-> B !! k' = Some (o', false).
Proof. intros Ha Hne. rewrite <- !lookup_allocated, Ha. by rewrite lookup_insert_ne. Qed.

Lemma wp_partial_new N B L i fuel s : heap_inv N B L s -> valid_cache i -> (exists k o, B !! k = Some (o, true)) ->
  wp (new_slab ← slab_create (S fuel) i;
      if negb (truthy new_slab) then mret false else slab_list_add (Partial i) new_slab;; mret true)
    (fun ok s1 => ok = true /\ exists k j fl B1, partial_page N B L i k j fl B1 s s1) s.
Proof.
  intros Hinv Hi Hfree. apply wp_bind. eapply wp_mono; [by apply (wp_slab_create N B L)|].
  intros r s1 (k & B1 & -> & Hinv1 & Hok & Hmeta & Hnone & Ha & Hkept). destruct (ib_range _ _ _ _ _ _ Hinv1) as [Hk _].
  rewrite (proj2 (truthy_true (page_addr k)) (page_addr_nz k ltac:(lia))). cbn [negb].
  apply wp_bind. eapply wp_mono; [by apply (wp_slab_list_add N B1 L k (Partial i) s1)|].
  intros [] s2 [(Hinv2 & Hlk & Hm2) Hh]. apply wp_ret. split; [done |].
  destruct (osize_cases i Hi) as (_ & Hcap & _). rewrite (seqZ_cons 0) in Hok by lia.
  exists k, 0, (seqZ (Z.succ 0) (Z.pred (cap i))), B1. pose proof (proj2 (ib_page _ _ _ _ _ _ Hinv1)) as HL.
  split.
  - by rewrite delete_id.
  - apply (slab_ok_ext (mem (hb s1))); [done.. |]. intros x Hx ? ?. by apply (slab_links_page _ _ _ k _ Hlk).
  - by rewrite Hm2.
  - exact Hh.
  - intros k' o Hne. by apply (allocated_insert B B1 k k' 0 o).
  - right. split_and!; [done.. |]. by rewrite (seqZ_cons 0) by lia.
  - intros a n x Hl Hx. pose proof Hl as (p & Hp). destruct (live_at_word _ _ _ _ _ _ x _ Hinv Hp Hx) as (o & q & HB & Hq & Hxq).
    assert (p <> k) as Hpk. { intros ->. apply lookup_allocated in HB. congruence. }
    transitivity (mem (hb s1) @@ x).
    + apply Hlk. intros k' [-> |Hk'].
      * destruct (new_block N B1 k 0 (hb s1) (allocated B) (ib_buddy _ _ _ _ _ _ Hinv1) Hnone Ha) as (_ & _ & _ & Hd).
        apply lookup_allocated in HB. specialize (Hd p o HB). unfold page_addr, PAGE_SIZE_4KB in *. lia.
      * destruct (live_not_link _ _ _ _ _ x k' _ Hinv Hl Hx Hk') as (? & ? & _). done.
    + apply (Hkept q); [| done]. apply kept_spec. by exists p, o.
Qed.

Lemma wp_partial_old N B L i s : heap_inv N B L s -> valid_cache i -> c_partial s @@ i <> 0 ->
  exists k j fl B1, partial_page N B L i k j fl B1 s s.
Proof.
  intros Hinv Hi Hne. destruct (hi_list _ _ _ _ Hinv (Partial i) Hi) as (ks & Hd & Hks). cbn [list_head] in Hd.
  destruct ks as [|k ks]; [by apply dll_head in Hd |]. pose proof (dll_head _ _ _ _ Hd) as Hh. cbn in Hh.
  assert (on_list L (Partial i) k) as (i' & fl' & HL & Hfor) by (apply Hks; by left).
  destruct fl' as [|j fl]; [done |]. simpl in Hfor. injection Hfor as ->.
  destruct (hi_open _ _ _ _ _ _ _ Hinv HL) as (Hinv1 & _ & Hok & Hm). exists k, j, fl, B. split; try done. by left.
Qed.

Lemma live_other B B1 L L1 k' a n : (forall o, B1 !! k' = Some (o, false) <-> B !! k' = Some (o, false)) -> L1 !! k' = L !! k' ->
  live_at B1 L1 k' a n <-> live_at B L k' a n.
Proof.
  intros HB HL. unfold live_at. rewrite HL. destruct (L !! k') as [[i fl]|]; [done |].
  split; intros (o & H1 & H2); exists o; (split; [by apply HB | done]).
Qed.

(** The live ranges when page [k] changes. *)
Lemma live_change B B1 L L1 k : (forall k' o, k' <> k -> B1 !! k' = Some (o, false) <-> B !! k' = Some (o, false)) ->
  (forall k', k' <> k -> L1 !! k' = L !! k') ->
  forall a n, live B1 L1 a n <-> (exists k', k' <> k /\ live_at B L k' a n) \/ live_at B1 L1 k a n.
Proof.
  intros HB HL a n. split.
  - intros (k' & Hl). destruct (decide (k' = k)) as [->|Hne]; [by right |]. left. exists k'. split; [done |].
    apply (live_other B B1 L L1 k' a n); auto.
  - intros [(k' & Hne & Hl)|Hl]; [| by exists k]. exists k'. apply (live_other B B1 L L1 k' a n); auto.
Qed.

Lemma list_for_cases i fl x : list_for i fl = x -> (fl = [] /\ x = Full i) \/ (fl <> [] /\ x = Partial i).
Proof. intros <-. destruct fl; [by left | by right]. Qed.

(** The part of [slab_alloc] after a page has been found. *)
Definition slab_take (cache : Z) : M (slabs Pg) Z :=
  slab ← gets (fun s => c_partial s @@ cache);
  obj ← rd_word slab;
  n ← rd_word obj;
  wr_word slab n;;
  c ← get_free_count slab;
  set_free_count slab (c - 1);;
  c ← get_free_count slab;
  (when (c =? 0) (
    slab_list_remove (Partial cache) slab;;
    slab_list_add (Full cache) slab));;
  mret obj.

Lemma wp_slab_take N B L i k j fl B1 s0 s : partial_page N B L i k j fl B1 s0 s -> valid_cache i ->
  wp (slab_take i) (fun r s' => exists L1, r = obj k i j /\ L1 = <[k := (i, fl)]> (delete k L) /\ heap_inv N B1 L1 s' /\
    forall x, x <> page_addr k -> x <> page_addr k + 8 ->
      (forall k', k' = k \/ is_Some (L !! k') -> x <> page_addr k' + 24 /\ x <> page_addr k' + 32) -> mem (hb s') @@ x = mem (hb s) @@ x) s.
Proof.
  intros [Hinv Hok Hmeta Hhead _ _ _] Hi. destruct (ib_range _ _ _ _ _ _ Hinv) as [Hk _]. pose proof Hok as [Hh Hc _ Hnd _ Hl].
  destruct (osize_cases i Hi) as (_ & Hcap & _). apply wp_bind, wp_gets. rewrite Hhead.
  apply wp_bind, wp_rd_word. rewrite Hh. cbn [optr]. apply wp_bind, wp_rd_word. rewrite (Hl [] j fl eq_refl).
  apply wp_bind, wp_wr_word. cbn [length] in Hc.
  pose proof (nodup_range_length _ _ Hnd (sk_range _ _ _ _ Hok)) as Hlen. cbn [length] in Hlen.
  apply wp_bind, wp_get_free_count. rewrite mem_with_mem, rd_insert_ne, Hc, counts_low by lia.
  apply wp_bind, (wp_set_free_count _ _ (Z.of_nat (S (length fl))) (cap i)); [by rewrite mem_with_mem, rd_insert_ne by lia | lia | lia |].
  rewrite mem_with_mem, with_mem_twice. replace (Z.of_nat (S (length fl)) - 1) with (Z.of_nat (length fl)) by lia.
  pose proof (slab_ok_pop _ _ _ _ _ Hok Hi) as Hok1. set (m1 := <[page_addr k + 8 := _]> _) in *.
  assert (page_only k (mem (hb s)) m1) as Hpo by (unfold m1; repeat apply page_only_write; unfold PAGE_SIZE_4KB; try lia; done).
  pose proof (ib_write _ _ _ _ _ _ _ Hinv Hpo) as Hinv1.
  apply wp_bind, wp_get_free_count. rewrite mem_with_mem. unfold m1 at 1. rewrite rd_insert_eq, counts_low by lia.
  apply wp_bind. apply (wp_mono _ (fun _ s2 => inv_but N B1 (delete k L) k (Some (list_for i fl)) s2 /\ metadata (hb s2) = metadata (hb s) /\
    slab_links (fun k' => k' = k \/ is_Some (delete k L !! k')) m1 (mem (hb s2)))).
  { apply wp_when; intros E; [apply Z.eqb_eq in E | apply Z.eqb_neq in E].
    - assert (fl = []) as -> by (destruct fl; [done | simpl in E; lia]).
      apply wp_bind. eapply wp_mono; [by apply (wp_slab_list_remove _ _ _ _ _ _ Hinv1)|]. intros [] s2 (Hinv2 & Hlk2 & Hm2).
      eapply wp_mono; [by apply (wp_slab_list_add _ _ _ _ (Full i) _ Hinv2)|]. intros [] s3 [(Hinv3 & Hlk3 & Hm3) _].
      split; [done |]. split; [by rewrite Hm3, Hm2 |]. intros x Hx. rewrite Hlk3 by done. by apply Hlk2.
    - destruct fl as [|j' fl]; [simpl in E; lia |]. split; [done |]. split; [done |]. by intros x _. }
  intros [] s2 (Hinv2 & Hm2 & Hlk). apply wp_ret. eexists. split; [done |]. split; [done |]. split.
  - apply hi_close; [done | done | | by rewrite Hm2]. apply (slab_ok_ext m1); [done.. |].
    intros x Hx ? ?. by apply (slab_links_page _ _ _ k _ Hlk).
  - intros x Hx1 Hx2 Hx3. rewrite Hlk.
    + unfold m1. by rewrite !rd_insert_ne.
    + intros k' [-> |[? [_ Hk']%lookup_delete_Some]]; apply Hx3; [by left | right; by eexists].
Qed.

(** Which ranges are live after the page has lost its free object [j]. *)
Lemma partial_page_live N B L i k j fl B1 s0 s : partial_page N B L i k j fl B1 s0 s ->
  forall a n, live B1 (<[k := (i, fl)]> (delete k L)) a n <-> live B L a n \/ (a = obj k i j /\ n = osize i).
Proof.
  intros [_ Hok _ _ HB Hpage _] a n. pose proof Hok as [_ _ _ [Hj Hnd]%NoDup_cons Hr _].
  rewrite (live_change B B1 L (<[k := (i, fl)]> (delete k L)) k) by (done || (intros; by rewrite lookup_insert_ne, lookup_delete_ne)).
  rewrite (live_change B B L L k) by done.
  enough (live_at B1 (<[k := (i, fl)]> (delete k L)) k a n <-> live_at B L k a n \/ (a = obj k i j /\ n = osize i)) by tauto.
  unfold live_at. rewrite lookup_insert_eq. assert (0 <= j < cap i) as Hjr by (apply Hr; by left).
  destruct Hpage as [-> |(-> & Hnone & Hall)].
  - split.
    + intros (j' & ? & Hf & -> & ->). destruct (decide (j' = j)) as [->|]; [by right | left]. exists j'. rewrite elem_of_cons. tauto.
    + intros [(j' & ? & Hf & -> & ->)|[-> ->]]; [| by exists j]. exists j'. rewrite elem_of_cons in Hf. tauto.
  - split.
    + intros (j' & Hj' & Hf & -> & ->). right. assert (j' ∈ j :: fl) as [-> |?]%elem_of_cons by (rewrite Hall; apply elem_of_seqZ; lia); done.
    + intros [(o & Ho%lookup_allocated & _)|[-> ->]]; [congruence | by exists j].
Qed.

(** The object that is taken was not live. *)
Lemma partial_page_fresh N B L i k j fl B1 s0 s s' : partial_page N B L i k j fl B1 s0 s ->
  heap_inv N B1 (<[k := (i, fl)]> (delete k L)) s' -> forall m, ~ live B L (obj k i j) m.
Proof.
  intros Hpp Hinv' m (k2 & Hl). set (L1 := <[k := (i, fl)]> (delete k L)) in *.
  pose proof (pp_ok _ _ _ _ _ _ _ _ _ _ Hpp) as [_ _ _ [Hjf _]%NoDup_cons Hr _].
  assert (live_at B1 L1 k (obj k i j) (osize i)) as Hl2.
  { unfold live_at, L1. rewrite lookup_insert_eq. exists j. split; [apply Hr; by left | done]. }
  destruct (live_at_bounds _ _ _ _ _ _ _ Hinv' Hl2) as (_ & _ & _ & Hn & _).
  destruct (decide (k2 = k)) as [->|Hne].
  - unfold live_at in Hl. destruct (pp_page _ _ _ _ _ _ _ _ _ _ Hpp) as [E|(E & Hnone & _)]; rewrite E in Hl.
    + destruct Hl as (j' & _ & Hj' & Ej & _). destruct (hi_slab _ _ _ _ Hinv' k i fl) as (_ & Hi & _); [apply lookup_insert_eq |].
      apply obj_inj in Ej; [| done]. subst j'. apply Hj'. by left.
    + destruct Hl as (o & Ho'%lookup_allocated & _). congruence.
  - assert (live_at B1 L1 k2 (obj k i j) m) as Hl3.
    { apply (live_other B B1 L L1); [intros; by apply (pp_blocks _ _ _ _ _ _ _ _ _ _ Hpp) | unfold L1; by rewrite lookup_insert_ne, lookup_delete_ne | done]. }
    destruct (live_at_bounds _ _ _ _ _ _ _ Hinv' Hl3) as (_ & _ & _ & Hm & _).
    destruct (live_at_disjoint _ _ _ _ _ _ _ _ _ _ Hinv' Hl2 Hl3) as [(? & _)|?]; [congruence | lia].
Qed.

Lemma wp_slab_alloc N B L i fuel s : heap_inv N B L s -> valid_cache i ->
  (c_partial s @@ i = 0 -> exists k o, B !! k = Some (o, true)) ->
  wp (slab_alloc (S fuel) i) (fun r s' => heap_alloc N B L (osize i) r s s') s.
Proof.
  intros Hinv Hi Hfree. apply wp_bind, wp_gets. apply wp_bind.
  apply (wp_mono _ (fun ok s1 => ok = true /\ exists k j fl B1, partial_page N B L i k j fl B1 s s1)).
  { destruct (truthy (c_partial s @@ i)) eqn:E; [apply truthy_true in E | apply truthy_false in E]; cbn [negb].
    - apply wp_ret. split; [done |]. by apply wp_partial_old.
    - apply wp_partial_new; auto. }
  intros ok s1 [-> (k & j & fl & B1 & Hpp)]. cbn [negb].
  change (wp (slab_take i) (fun r s' => heap_alloc N B L (osize i) r s s') s1).
  eapply wp_mono; [by apply (wp_slab_take N B L i k j fl B1 s s1)|].
  intros r s' (L1 & -> & -> & Hinv' & Hmem). pose proof (partial_page_live _ _ _ _ _ _ _ _ _ _ Hpp) as Hlive.
  pose proof (ib_range _ _ _ _ _ _ (pp_inv _ _ _ _ _ _ _ _ _ _ Hpp)) as [Hk _].
  assert (0 <= j < cap i) as Hj by (apply (sk_range _ _ _ _ (pp_ok _ _ _ _ _ _ _ _ _ _ Hpp)); by left).
  destruct (obj_range k i j Hi Hj) as [Ho _]. destruct (osize_cases i Hi) as (_ & _ & _ & Hs). pose proof (page_high k Hk) as Hp.
  set (L1 := <[k := (i, fl)]> (delete k L)) in *. exists B1, L1. split; [done |]. split; [unfold sizeof_slab in *; lia |].
  split; [| split; [done |]].
  - by apply (partial_page_fresh N B L i k j fl B1 s s1 s').
  - intros a n x Hl Hx. rewrite <- (pp_contents _ _ _ _ _ _ _ _ _ _ Hpp a n x Hl Hx).
    assert (live B1 L1 a n) as Hl' by (apply Hlive; by left).
    assert (forall k', k' = k \/ is_Some (L !! k') -> is_Some (L1 !! k')) as HL1.
    { intros k' Hk'. unfold L1. destruct (decide (k' = k)) as [->|]; [rewrite lookup_insert_eq; by eexists |].
      rewrite lookup_insert_ne, lookup_delete_ne by done. tauto. }
    apply Hmem; [by destruct (live_not_link _ _ _ _ _ x k _ Hinv' Hl' Hx ltac:(auto)) as (_ & _ & ? & _)
      | by destruct (live_not_link _ _ _ _ _ x k _ Hinv' Hl' Hx ltac:(auto)) as (_ & _ & _ & ?) |].
    intros k' Hk'. destruct (live_not_link _ _ _ _ _ x k' _ Hinv' Hl' Hx ltac:(auto)) as (? & ? & _). done.
Qed.

(** ** Release *)

(** The page goes back to the buddy allocator. *)
Lemma inv_but_free N B L k b s : inv_but N B L k None s -> (exists m, metadata (hb s) !! k = Some m /\ is_slab m = false) ->
  free_post N B k (hb s) b -> exists B', heap_inv N B' L (set_hb b s) /\ allocated B' = delete k (allocated B) /\
    others_kept B k (mem (hb s)) (mem b).
Proof.
  intros [Hb [HB HL] Hsz Hsl Hbl Hli] Hmk (B' & Hb' & Ha & [Hum Hut _ _ _]). exists B'.
  assert (others_kept B k (mem (hb s)) (mem b)) as Hkept by (intros p x Hp Hx; apply (Hum p); [done | by rewrite page_succ]).
  assert (forall k' o, B' !! k' = Some (o, false) <-> B !! k' = Some (o, false) /\ k' <> k) as HB'.
  { intros k' o. rewrite <- !lookup_allocated, Ha, lookup_delete_Some. split; intros [? ?]; split; congruence. }
  assert (forall k' o, B !! k' = Some (o, false) -> k' <> k -> kept B k k') as Hke.
  { intros k' o Hk' Hne. apply kept_spec. exists k', o. destruct (inv_range _ _ _ _ _ _ _ Hb Hk') as (_ & _ & _ & ?). split_and!; [done.. | lia | lia]. }
  assert (forall k', is_Some (L !! k') -> k' <> k /\ kept B k k') as HLk.
  { intros k' [[i fl] Hk']. assert (k' <> k) by congruence. split; [done |]. destruct (Hsl _ _ _ Hk') as (H1 & _). by apply (Hke k' 0). }
  split; [split | done].
  - done.
  - done.
  - intros k' i fl Hk'. destruct (HLk k' ltac:(by eexists)) as [Hne Hk]. destruct (Hsl _ _ _ Hk') as (H1 & Hi & Hok & Hm).
    split_and!; [by apply HB' | done | | cbn; by rewrite Hut]. apply (slab_ok_ext (mem (hb s))); [done.. |]. intros x Hx _ _. by apply (Hkept k').
  - intros k' o [Hk' Hne]%HB' Hl. cbn. rewrite Hut by by apply (Hke k' o). by apply (Hbl k' o).
  - intros x Hx. destruct (Hli x Hx) as (ks & Hd & Hks). exists ks. split.
    + assert (list_head (set_hb b s) x = list_head s x) as -> by by destruct x.
      apply (dll_ext slab_node (mem (hb s))); [| done]. intros a (k' & -> & [Hk'|[_ ?]]%Hks)%list_elem_of_fmap; [| done]. apply on_list_dom, HLk in Hk' as [_ Hk']. cbn.
      split; apply (Hkept k'); try done; unfold PAGE_SIZE_4KB; lia.
    + intros k'. rewrite Hks. split; [intros [?|[_ ?]]; done | by left].
Qed.

(** The first part of [slab_free]: the object is on the free list of its page,
    which is on the partial list. *)
Definition put_back (N : Z) (B : blocks) (L : slab_map) (k i j : Z) (fl : list Z) s s1 : Prop :=
  inv_but N B (delete k L) k (Some (Partial i)) s1 /\ slab_ok (mem (hb s1)) k i (j :: fl) /\
  metadata (hb s1) = metadata (hb s) /\
  forall x, x <> page_addr k -> x <> page_addr k + 8 -> x <> obj k i j ->
    (forall k', is_Some (L !! k') -> x <> page_addr k' + 24 /\ x <> page_addr k' + 32) -> mem (hb s1) @@ x = mem (hb s) @@ x.

Lemma wp_slab_partial N B L k i fl s : heap_inv N B L s -> L !! k = Some (i, fl) ->
  wp (when (Z.of_nat (length fl) =? 0) (slab_list_remove (Full i) (page_addr k);; slab_list_add (Partial i) (page_addr k)))
    (fun _ s1 => relisted N B (delete k L) k (Some (Partial i)) s s1 /\ slab_ok (mem (hb s1)) k i fl) s.
Proof.
  intros Hinv HL. destruct (hi_open _ _ _ _ _ _ _ Hinv HL) as (Hinv1 & Hi & Hok & _).
  apply wp_when; intros E; [apply Z.eqb_eq in E | apply Z.eqb_neq in E].
  - assert (fl = []) as -> by (destruct fl; [done | simpl in E; lia]).
    apply wp_bind. eapply wp_mono; [by apply (wp_slab_list_remove _ _ _ _ _ _ Hinv1)|]. intros [] s2 (Hinv2 & Hlk2 & Hm2).
    eapply wp_mono; [by apply (wp_slab_list_add _ _ _ _ (Partial i) _ Hinv2)|]. intros [] s3 [(Hinv3 & Hlk3 & Hm3) _].
    assert (slab_links (fun k' => k' = k \/ is_Some (delete k L !! k')) (mem (hb s)) (mem (hb s3))) as Hlk.
    { intros x Hx. rewrite Hlk3 by done. by apply Hlk2. }
    split; [split; [done |]; split; [done | by rewrite Hm3] |].
    apply (slab_ok_ext (mem (hb s))); [done.. |]. intros x Hx ? ?. by apply (slab_links_page _ _ _ k _ Hlk).
  - destruct fl as [|j' fl]; [simpl in E; lia |]. split; [| done]. split; [done |]. split; [by intros x _ | done].
Qed.

Lemma full_page (l : list Z) n : NoDup l -> (forall j, j ∈ l -> 0 <= j < n) -> Z.of_nat (length l) = n -> forall j, 0 <= j < n -> j ∈ l.
Proof.
  intros Hnd Hr Hlen j Hj. assert (l ⊆+ seqZ 0 n) as Hs.
  { apply NoDup_submseteq; [done |]. intros j' Hj'%Hr. apply elem_of_seqZ. lia. }
  apply submseteq_length_Permutation in Hs; [| rewrite length_seqZ; lia]. rewrite Hs. apply elem_of_seqZ. lia.
Qed.

(** Releasing an object: the live ranges, when its page stays, and when it goes. *)
Lemma live_put_back N B L k i j fl s : heap_inv N B L s -> L !! k = Some (i, fl) -> 0 <= j < cap i -> j ∉ fl ->
  forall a n, live B (<[k := (i, j :: fl)]> (delete k L)) a n <-> live B L a n /\ a <> obj k i j.
Proof.
  intros Hinv HL Hj Hjf a n. destruct (hi_slab _ _ _ _ Hinv _ _ _ HL) as (HB & Hi & _).
  assert (live_at B L k (obj k i j) (osize i)) as Hlj by (unfold live_at; rewrite HL; by exists j).
  rewrite (live_change B B L (<[k := (i, j :: fl)]> (delete k L)) k) by (done || (intros; by rewrite lookup_insert_ne, lookup_delete_ne)).
  rewrite (live_change B B L L k) by done.
  enough ((live_at B (<[k := (i, j :: fl)]> (delete k L)) k a n <-> live_at B L k a n /\ a <> obj k i j) /\
    (forall k', k' <> k -> live_at B L k' a n -> a <> obj k i j)) as [E1 E2] by (split; [intros [(k' & ? & ?)|?%E1]; eauto 6; tauto | rewrite E1; intros [[?|?] ?]; tauto]).
  split.
  - unfold live_at. rewrite lookup_insert_eq, HL. split.
    + intros (j' & ? & Hf & -> & ->). rewrite elem_of_cons in Hf. split; [exists j'; tauto |]. intros E%obj_inj; [tauto | done].
    + intros [(j' & ? & Hf & -> & ->) Hne]. exists j'. rewrite elem_of_cons. split_and!; try tauto. intros [->|?]; done.
  - intros k' Hne Hl ->. destruct (live_at_bounds _ _ _ _ _ _ _ Hinv Hl) as (_ & _ & _ & ? & _).
    destruct (live_at_bounds _ _ _ _ _ _ _ Hinv Hlj) as (_ & _ & _ & ? & _).
    destruct (live_at_disjoint _ _ _ _ _ _ _ _ _ _ Hinv Hl Hlj) as [(? & _)|?]; [done | lia].
Qed.

Lemma live_page_gone N B B' L k i j fl s : heap_inv N B L s -> L !! k = Some (i, fl) -> 0 <= j < cap i -> j ∉ fl ->
  (forall j', 0 <= j' < cap i -> j' ∈ j :: fl) -> allocated B' = delete k (allocated B) ->
  forall a n, live B' (delete k L) a n <-> live B L a n /\ a <> obj k i j.
Proof.
  intros Hinv HL Hj Hjf Hfull Ha a n. rewrite <- (live_put_back N B L k i j fl s) by done.
  assert (forall k' o, B' !! k' = Some (o, false) <-> B !! k' = Some (o, false) /\ k' <> k) as HB'.
  { intros k' o. rewrite <- !lookup_allocated, Ha, lookup_delete_Some. split; intros [? ?]; split; congruence. }
  rewrite (live_change B B' L (delete k L) k) by (intros; rewrite ?HB', ?lookup_delete_ne by done; tauto).
  rewrite (live_change B B L (<[k := (i, j :: fl)]> (delete k L)) k) by (done || (intros; by rewrite lookup_insert_ne, lookup_delete_ne)).
  enough (~ live_at B' (delete k L) k a n /\ ~ live_at B (<[k := (i, j :: fl)]> (delete k L)) k a n) by tauto.
  unfold live_at. rewrite lookup_delete_eq, lookup_insert_eq. split.
  - intros (o & [_ ?]%HB' & _). done.
  - intros (j' & Hj' & Hf & _). by apply Hf, Hfull.
Qed.

Lemma wp_slab_put N B L k i j fl (Q : unit -> slabs Pg -> Prop) s s1 : heap_inv N B L s -> L !! k = Some (i, fl) -> 0 <= j < cap i -> j ∉ fl ->
  relisted N B (delete k L) k (Some (Partial i)) s s1 -> slab_ok (mem (hb s1)) k i fl ->
  (forall s2, put_back N B L k i j fl s s2 ->
     wp (c ← get_free_count (page_addr k); t ← get_total_count (page_addr k);
         when (c =? t) (
           slab_list_remove (Partial i) (page_addr k);;
           zoom l_hb (upd_meta (meta_index (obj k i j)) (fun m => Meta (order m) (is_free m) false));;
           zoom l_hb (buddy_free (page_addr k)))) Q s2) ->
  wp (l ← rd_word (page_addr k); wr_word (obj k i j) l;; wr_word (page_addr k) (obj k i j);;
      c ← get_free_count (page_addr k); set_free_count (page_addr k) (c + 1);;
      c ← get_free_count (page_addr k); t ← get_total_count (page_addr k);
      when (c =? t) (
        slab_list_remove (Partial i) (page_addr k);;
        zoom l_hb (upd_meta (meta_index (obj k i j)) (fun m => Meta (order m) (is_free m) false));;
        zoom l_hb (buddy_free (page_addr k)))) Q s1.
Proof.
  intros Hinv HL Hj Hjf (Hinv1 & Hlk & Hm1) Hok HQ. destruct (hi_slab _ _ _ _ Hinv _ _ _ HL) as (_ & Hi & _).
  pose proof Hok as [Hh Hc _ Hnd Hr _]. destruct (obj_range k i j Hi Hj) as [Ho1 Ho2]. destruct (osize_cases i Hi) as (_ & Hcap & _ & Hs).
  unfold sizeof_slab in Ho1. pose proof (nodup_range_length _ _ Hnd Hr) as Hlen.
  apply wp_bind, wp_rd_word. rewrite Hh. apply wp_bind, wp_wr_word. apply wp_bind, wp_wr_word. rewrite !mem_with_mem, with_mem_twice.
  apply wp_bind, wp_get_free_count. rewrite mem_with_mem, !rd_insert_ne, Hc, counts_low by lia.
  apply wp_bind, (wp_set_free_count _ _ (Z.of_nat (length fl)) (cap i)); [by rewrite mem_with_mem, !rd_insert_ne by lia | lia | lia |].
  rewrite mem_with_mem, with_mem_twice. pose proof (slab_ok_push _ _ _ _ _ Hok Hi Hj Hjf) as Hok2.
  replace (Z.of_nat (length (j :: fl))) with (Z.of_nat (length fl) + 1) in Hok2 by (simpl; lia).
  set (m2 := <[page_addr k + 8 := _]> _) in *. apply HQ. split; [| split; [exact Hok2 | split; [exact Hm1 |]]].
  - apply ib_write; [done |]. unfold m2. repeat apply page_only_write; try (unfold PAGE_SIZE_4KB in *; lia). done.
  - intros x Hx1 Hx2 Hx3 Hx4. rewrite mem_with_mem. unfold m2. rewrite !rd_insert_ne by congruence. apply Hlk.
    intros k' [-> |[? [_ Hk']%lookup_delete_Some]]; apply Hx4; by eexists.
Qed.

Lemma wp_slab_free N B L k i j fl s : heap_inv N B L s -> L !! k = Some (i, fl) -> 0 <= j < cap i -> j ∉ fl ->
  wp (slab_free (obj k i j)) (fun _ s' => heap_free N B L (obj k i j) s s') s.
Proof.
  intros Hinv HL Hj Hjf. destruct (hi_slab _ _ _ _ Hinv _ _ _ HL) as (HB & Hi & Hok & Hmeta).
  destruct (inv_range _ _ _ _ _ _ _ (hi_buddy _ _ _ _ Hinv) HB) as (_ & Hk & _). pose proof (page_high k Hk) as Hp.
  destruct (obj_range k i j Hi Hj) as [Ho1 Ho2]. destruct (osize_cases i Hi) as (_ & Hcap & _ & Hs). unfold sizeof_slab in Ho1.
  assert (page_addr k <= obj k i j < page_addr k + PAGE_SIZE_4KB) as Hin by lia.
  pose proof (nodup_range_length _ _ (sk_nodup _ _ _ _ Hok) (sk_range _ _ _ _ Hok)) as Hlen.
  unfold slab_free. rewrite (proj2 (truthy_true (obj k i j))) by lia. cbn [negb]. cbv zeta. rewrite (page_mask k) by done.
  apply wp_bind, wp_rd_word. rewrite (sk_cache _ _ _ _ Hok). apply wp_bind, wp_get_free_count.
  rewrite (sk_counts _ _ _ _ Hok), counts_low by lia.
  apply wp_bind. eapply wp_mono; [by apply (wp_slab_partial N B L k i fl)|]. intros [] s1 [Hre Hok1].
  apply (wp_slab_put N B L k i j fl _ s s1); [done.. |]. intros s2 (Hinv2 & Hok2 & Hm2 & Hmem2).
  apply wp_bind, wp_get_free_count, wp_bind, wp_get_total_count. pose proof Hok2 as [_ Hc2 _ Hnd2 Hr2 _].
  pose proof (nodup_range_length _ _ Hnd2 Hr2) as Hlen2. rewrite Hc2, counts_low, counts_high by lia.
  assert (same_contents (fun a n => live B L a n /\ a <> obj k i j) (mem (hb s)) (mem (hb s2))) as Hcont.
  { intros a n x [Hl Hne] Hx. pose proof (fun k' => live_not_link _ _ _ _ _ x k' _ Hinv Hl Hx) as Hnl.
    destruct (Hnl k ltac:(by eexists)) as (_ & _ & ? & ?). apply Hmem2; [done.. | | intros k' Hk'; by destruct (Hnl k' Hk') as (? & ? & _)].
    destruct Hl as (k1 & Hl). assert (live_at B L k (obj k i j) (osize i)) as Hlj by (unfold live_at; rewrite HL; by exists j).
    destruct (live_at_disjoint _ _ _ _ _ _ _ _ _ _ Hinv Hl Hlj) as [(_ & ? & _)|?]; [done | lia]. }
  apply wp_when; intros E; [apply Z.eqb_eq in E | apply Z.eqb_neq in E].
  - apply wp_bind. eapply wp_mono; [by apply (wp_slab_list_remove _ _ _ _ _ _ Hinv2)|]. intros [] s3 (Hinv3 & Hlk3 & Hm3).
    assert (metadata (hb s3) !! k = Some (Meta 0 false true)) as Hmeta3 by by rewrite Hm3, Hm2.
    rewrite (meta_index_in k) by done. apply wp_bind, wp_zoom. eapply wp_upd_meta; [exact Hmeta3 |].
    pose proof (ib_meta _ _ _ _ _ _ false _ Hinv3 Hmeta3) as Hinv4. cbn [order is_free view over l_hb] in Hinv4 |- *.
    set (s4 := set_hb _ s3) in *. apply wp_zoom. change (view l_hb s4) with (hb s4).
    eapply wp_mono; [apply (wp_buddy_free N B k 0); [apply Hinv4 | by apply lookup_allocated] |].
    intros [] b Hpost. destruct (inv_but_free _ _ _ _ _ _ Hinv4 ltac:(eexists; split; [apply lookup_insert_eq | done]) Hpost) as (B' & Hinv' & Ha & Hkept).
    exists B', (delete k L). split; [exact Hinv' |]. split.
    + apply (live_page_gone N B B' L k i j fl s); try done. by apply full_page.
    + intros a n x [Hl Hne] Hx. rewrite <- (Hcont a n x) by done. pose proof Hl as (p & Hpl).
      destruct (live_at_word _ _ _ _ _ _ x _ Hinv Hpl Hx) as (o & q & HBp & Hq & Hxq).
      assert (p <> k) as Hpk.
      { intros ->. unfold live_at in Hpl. rewrite HL in Hpl. destruct Hpl as (j' & Hj' & Hf & Ea & _).
        assert (j' ∈ j :: fl) as [-> |?]%elem_of_cons by by apply (full_page _ (cap i)). all: done. }
      transitivity (mem (hb s3) @@ x); [apply (Hkept q); [apply kept_spec; by exists p, o | done] |].
      apply Hlk3. intros k' Hk'. assert (is_Some (L !! k')) as HLk'.
      { destruct Hk' as [-> |[? [_ Hk']%lookup_delete_Some]]; by eexists. }
      destruct (live_not_link _ _ _ _ _ x k' _ Hinv Hl Hx HLk') as (? & ? & _). done.
  - exists B, (<[k := (i, j :: fl)]> (delete k L)). split; [| split; [by apply (live_put_back N B L k i j fl s) | done]].
    apply hi_close; [done | done | done | by rewrite Hm2].
Qed.
End operations_spec.
