(* ===== verification/Kmalloc.v ===== *)
(** The kernel's heap interface ([mm/kmalloc.c]): small requests go to the slab
    allocator, large ones to the buddy allocator, under one lock. *)
From S2P Require Import Prelude Interfaces Cpu DList Buddy Slab.

(** * State *)

Definition HEAP_SIZE : Z := 0x1000000.

(** The allocators, [kmalloc_lock], the processor, and the flag [scheduler]
    that says whether threads run yet. *)
Record kheap (Pg : Type) : Type := KHeap {
  h_slabs : slabs Pg;
  kmalloc_lock : Z;
  h_cpu : cpu;
  scheduler : Z;
}.
Arguments KHeap {Pg} h_slabs kmalloc_lock h_cpu scheduler.
Arguments h_slabs {Pg} _.
Arguments kmalloc_lock {Pg} _.
Arguments h_cpu {Pg} _.
Arguments scheduler {Pg} _.

(** * Operations *)

Section operations.
Context {Pg : Type} `{HeapSource Pg}.
Implicit Types s : kheap Pg.

Definition set_h_slabs (x : slabs Pg) s : kheap Pg := KHeap x (kmalloc_lock s) (h_cpu s) (scheduler s).
Definition l_h_slabs : lens (kheap Pg) (slabs Pg) := Lens h_slabs set_h_slabs.
Definition l_h_lock : lens (kheap Pg) Z :=
  Lens kmalloc_lock (fun x s => KHeap (h_slabs s) x (h_cpu s) (scheduler s)).
Definition l_h_cpu : lens (kheap Pg) cpu :=
  Lens h_cpu (fun x s => KHeap (h_slabs s) (kmalloc_lock s) x (scheduler s)).


Definition init_kheap : M (kheap Pg) unit :=
  paddr ← zoom (lens_compose (lens_compose l_h_slabs l_hb) l_b_pages) (hs_alloc_pages (HEAP_SIZE / PAGE_SIZE_4KB));
  for_loop (Z.to_nat (HEAP_SIZE / PAGE_SIZE_4KB)) 0 (fun i =>
    zoom (lens_compose (lens_compose l_h_slabs l_hb) l_b_pages)
      (hs_map_page (u64 (paddr + i * PAGE_SIZE_4KB)) (u64 (HEAP_START + i * PAGE_SIZE_4KB)) (Z.lor PTE_PRESENT PTE_WRITABLE)));;
  zoom (lens_compose l_h_slabs l_hb) init_buddy;;
  zoom l_h_slabs init_slab.

(** [if (scheduler) rflags = spin_lock_irqsave(&kmalloc_lock)], and the reverse. *)
Definition kmalloc_enter : M (kheap Pg) Z :=
  sch ← gets scheduler;
  if truthy sch then spin_lock_irqsave l_h_cpu l_h_lock else mret 0.
Definition kmalloc_leave (rf : Z) : M (kheap Pg) unit :=
  sch ← gets scheduler;
  when (truthy sch) (spin_lock_irqrestore l_h_cpu l_h_lock rf).

(** The loop that looks for the order; after 52 rounds [s] is 0 for good, so
    that 64 rounds are enough for every request for which it ends. *)
Fixpoint kmalloc_order (fuel : nat) (sz order size : Z) : M (kheap Pg) Z :=
  if sz <? size then
    match fuel with
    | O => fail Hang
    | S fuel' => kmalloc_order fuel' (u64 (Z.shiftl sz 1)) (order + 1) size
    end
  else mret order.

(** The loop over the caches. *)
Fixpoint kmalloc_cache (n : nat) (i size : Z) : M (kheap Pg) (option Z) :=
  match n with
  | O => mret None
  | S n' =>
      c ← gets (fun s => c_size (h_slabs s) @@ i);
      if size <=? c then mret (Some i) else kmalloc_cache n' (i + 1) size
  end.

(** [fuel] is that of the growth of the heap. *)
Definition kmalloc (fuel : nat) (size : Z) : M (kheap Pg) Z :=
  if size =? 0 then mret 0
  else
    rf ← kmalloc_enter;
    if 2048 <? size then
      order ← kmalloc_order 64 PAGE_SIZE_4KB 0 size;
      p ← zoom (lens_compose l_h_slabs l_hb) (buddy_alloc fuel order);
      kmalloc_leave rf;;
      mret p
    else
      i ← kmalloc_cache (Z.to_nat NUM_CACHES) 0 size;
      match i with
      | Some i =>
          p ← zoom l_h_slabs (slab_alloc fuel i);
          kmalloc_leave rf;;
          mret p
      | None => kmalloc_leave rf;; mret 0
      end.

Definition kfree (ptr : Z) : M (kheap Pg) unit :=
  if negb (truthy ptr) then mret tt
  else
    rf ← kmalloc_enter;
    m ← zoom (lens_compose l_h_slabs l_hb) (get_meta (meta_index ptr));
    (if is_slab m then zoom l_h_slabs (slab_free ptr)
     else zoom (lens_compose l_h_slabs l_hb) (buddy_free ptr));;
    kmalloc_leave rf.

End operations.

(** * Specification *)

(** The binary logarithm of what a request gets: an object of 16 to 2048 bytes,
    or a block of whole pages. *)
Definition block_log (n : Z) : Z := Z.max (if n <=? 2048 then 4 else 12) (Z.log2_up n).
Definition block_size (n : Z) : Z := 2 ^ block_log n.
Definition MAX_BLOCK : Z := 2 ^ MAX_ORDERS * PAGE_SIZE_4KB.

Section specification.
Context {Pg : Type}.
Implicit Types s : kheap Pg.

(** The lock is free if it is used. *)
Definition heap_idle s : Prop := truthy (scheduler s) = true -> kmalloc_lock s = 0.

(** There is memory for [n] bytes without growing the heap. *)
Definition heap_room (B : blocks) (n : Z) s : Prop :=
  (n <= 2048 /\ c_partial (h_slabs s) @@ (block_log n - 4) <> 0) \/
  exists k o, B !! k = Some (o, true) /\ block_size n <= 2 ^ o * PAGE_SIZE_4KB.

(** Only the allocators changed, as [R] says: the lock, the interrupt flag and
    everything else are back to what they were. *)
Definition heap_step (R : slabs Pg -> slabs Pg -> Prop) s s' : Prop :=
  exists t, s' = set_h_slabs t s /\ R (h_slabs s) t.

End specification.

(** * Lemmas: sizes *)

Lemma block_log_small n : 0 < n <= 2048 -> valid_cache (block_log n - 4).
Proof.
  intros Hn. unfold block_log, valid_cache, NUM_CACHES. rewrite (proj2 (Z.leb_le n 2048)) by lia.
  pose proof (Z.log2_up_le_mono n 2048 ltac:(lia)) as H. change (Z.log2_up 2048) with 11 in H. lia.
Qed.

Lemma block_log_large n : 2048 < n <= MAX_BLOCK -> 12 <= block_log n <= 12 + MAX_ORDERS.
Proof.
  intros Hn. unfold block_log. rewrite (proj2 (Z.leb_gt n 2048)) by lia.
  pose proof (Z.log2_up_le_mono n MAX_BLOCK ltac:(lia)) as H.
  replace (Z.log2_up MAX_BLOCK) with 24 in H by done. unfold MAX_ORDERS. lia.
Qed.

Lemma block_size_ge n : 0 < n -> n <= block_size n.
Proof.
  intros Hn. unfold block_size, block_log. transitivity (2 ^ Z.log2_up n).
  - destruct (decide (n = 1)) as [->|]; [done |]. by apply Z.log2_up_spec; lia.
  - apply Z.pow_le_mono_r; lia.
Qed.

Lemma log2_up_gt n e : 0 <= e -> 2 ^ e < n -> e < Z.log2_up n.
Proof. intros He Hn. apply Z.log2_up_lt_pow2; lia. Qed.

Section operations_spec.
Context {Pg : Type} `{HeapSource Pg}.
Implicit Types s : kheap Pg.

Lemma wp_kmalloc_cache n m i s : (2048 <? n) = false -> 0 < n -> i + Z.of_nat m = NUM_CACHES -> 0 <= i ->
  (i = 0 \/ 2 ^ (3 + i) < n) -> (forall i, valid_cache i -> c_size (h_slabs s) @@ i = osize i) ->
  wp (kmalloc_cache m i n) (fun r s' => r = Some (block_log n - 4) /\ s' = s) s.
Proof.
  intros Hn%Z.ltb_ge Hpos. unfold block_log. rewrite (proj2 (Z.leb_le n 2048)) by lia.
  revert i. induction m as [|m IH]; intros i Hm Hi Hlow Hsz; cbn [kmalloc_cache].
  - exfalso. destruct Hlow as [->|Hlow]; [unfold NUM_CACHES in Hm; lia |].
    replace i with 8 in Hlow by (unfold NUM_CACHES in Hm; lia). simpl in Hlow. lia.
  - apply wp_bind, wp_gets. rewrite Hsz by (unfold valid_cache; lia). unfold osize.
    destruct (n <=? 2 ^ (4 + i)) eqn:E; [apply Z.leb_le in E | apply Z.leb_gt in E].
    + apply wp_ret. split; [| done]. f_equal.
      pose proof (proj1 (Z.log2_up_le_pow2 n (4 + i) Hpos) E) as H1.
      destruct Hlow as [->|Hlow]; [lia |]. pose proof (log2_up_gt n (3 + i) ltac:(lia) Hlow). lia.
    + apply IH; [lia | lia | right; by replace (3 + (i + 1)) with (4 + i) by lia | done].
Qed.

Lemma wp_kmalloc_order n m o s : 2048 < n <= 2 ^ 63 -> 0 <= o -> o + Z.of_nat m = 51 + 13 ->
  (o = 0 \/ 2 ^ (11 + o) < n) -> (o <= 51) ->
  wp (kmalloc_order m (2 ^ (12 + o)) o n) (fun r s' => r = block_log n - 12 /\ s' = s) s.
Proof.
  intros Hn. unfold block_log. rewrite (proj2 (Z.leb_gt n 2048)) by lia.
  revert o. induction m as [|m IH]; intros o Ho Hm Hlow Hmax; [lia |]. cbn [kmalloc_order].
  destruct (2 ^ (12 + o) <? n) eqn:E; [apply Z.ltb_lt in E | apply Z.ltb_ge in E].
  - assert (o < 51). { apply Z.nle_gt. intros ?. replace o with 51 in E by lia. simpl in E. lia. }
    rewrite Z.shiftl_mul_pow2, Z.mul_comm, <- Z.pow_add_r by lia.
    assert (2 ^ (1 + (12 + o)) < 2 ^ 64) by (apply Z.pow_lt_mono_r; lia).
    rewrite u64_small by lia. replace (1 + (12 + o)) with (12 + (o + 1)) by lia.
    apply IH; [lia | lia | right; by replace (11 + (o + 1)) with (12 + o) by lia | lia].
  - apply wp_ret. split; [| done]. pose proof (proj1 (Z.log2_up_le_pow2 n (12 + o) ltac:(lia)) E).
    destruct Hlow as [->|Hlow]; [lia |]. pose proof (log2_up_gt n (11 + o) ltac:(lia) Hlow). lia.
Qed.

(** ** The lock *)

Definition entered (rf : Z) s s1 : Prop :=
  if truthy (scheduler s)
  then rf = rflags (h_cpu s) /\ kmalloc_lock s = 0 /\
    s1 = KHeap (h_slabs s) 1 (Cpu (Z.ldiff rf FLAGS_IF) (cr3 (h_cpu s))) (scheduler s)
  else s1 = s.

Lemma wp_kmalloc_enter (Q : Z -> kheap Pg -> Prop) s : heap_idle s ->
  (forall rf s1, entered rf s s1 -> Q rf s1) -> wp kmalloc_enter Q s.
Proof.
  intros Hidle HQ. apply wp_bind, wp_gets. unfold entered in HQ. unfold heap_idle in Hidle.
  destruct (truthy (scheduler s)).
  - apply wp_spin_lock_irqsave. intros rf ->. simpl. split; [by apply Hidle |]. apply HQ. auto.
  - apply wp_ret. by apply HQ.
Qed.

Lemma entered_slabs rf s s1 : entered rf s s1 -> h_slabs s1 = h_slabs s.
Proof. unfold entered. destruct (truthy (scheduler s)); [by intros (_ & _ & ->) | by intros ->]. Qed.

Lemma wp_kmalloc_leave rf t (Q : unit -> kheap Pg -> Prop) s s1 : entered rf s s1 ->
  Q tt (set_h_slabs t s) -> wp (kmalloc_leave rf) Q (set_h_slabs t s1).
Proof.
  intros He HQ. apply wp_bind, wp_gets. unfold entered in He. destruct (truthy (scheduler s)) eqn:E.
  - destruct He as (-> & Hl & ->). cbn [scheduler set_h_slabs]. apply wp_when; intros E'; [| congruence].
    apply wp_spin_lock_irqrestore. cbn. destruct s as [x l [f c] sch]. simpl in *. by subst l.
  - subst s1. apply wp_when; cbn; [congruence | done].
Qed.

(** A function of an allocator under the lock. *)
Lemma wp_heap_locked {A B : Type} (m : M (slabs Pg) A) (R : A -> slabs Pg -> slabs Pg -> Prop) (Q : B -> kheap Pg -> Prop) (k : Z -> A -> M (kheap Pg) B) rf s s1 :
  entered rf s s1 -> wp m (fun a t => R a (h_slabs s) t) (h_slabs s) ->
  (forall a s2 t, s2 = set_h_slabs t s1 -> R a (h_slabs s) t -> wp (k rf a) Q s2) ->
  wp (a ← zoom l_h_slabs m; k rf a) Q s1.
Proof.
  intros He Hm HQ. apply wp_bind, wp_zoom. cbn [view l_h_slabs]. rewrite (entered_slabs _ _ _ He).
  eapply wp_mono; [exact Hm |]. intros a t Ht. by apply (HQ a _ t).
Qed.
End operations_spec.

(** ** Whole blocks *)

Section blocks.
Context {Pg : Type}.
Implicit Types s : slabs Pg.

(** A change of the blocks that leaves the slabs alone. *)
Lemma hi_rebuddy N B L B' b s : heap_inv N B L s -> buddy_inv N ∅ B' b ->
  (forall k, is_Some (L !! k) -> B' !! k = Some (0, false) /\ metadata b !! k = metadata (hb s) !! k /\
    forall x, page_addr k <= x < page_addr k + PAGE_SIZE_4KB -> mem b @@ x = mem (hb s) @@ x) ->
  (forall k o, B' !! k = Some (o, false) -> L !! k = None -> exists m, metadata b !! k = Some m /\ is_slab m = false) ->
  heap_inv N B' L (set_hb b s).
Proof.
  intros [_ Hsz Hsl _ Hli] Hb Hkeep Hbl. split; [done | done | | done |].
  - intros k i fl Hk. destruct (Hsl _ _ _ Hk) as (_ & Hi & Hok & Hm), (Hkeep k ltac:(by eexists)) as (HB & Hmk & Hx).
    split_and!; [done | done | | cbn; by rewrite Hmk]. apply (slab_ok_ext (mem (hb s))); [done.. |]. intros x Hxr _ _. by apply Hx.
  - intros x Hx. destruct (Hli x Hx) as (ks & Hd & Hks). exists ks. split; [| done].
    assert (list_head (set_hb b s) x = list_head s x) as -> by by destruct x.
    apply (dll_ext slab_node (mem (hb s))); [| done]. intros a (k & -> & Hk%Hks%on_list_dom%Hkeep)%list_elem_of_fmap. cbn.
    destruct Hk as (_ & _ & Hk). split; apply Hk; unfold PAGE_SIZE_4KB; lia.
Qed.

(** The blocks that stay keep their contents. *)
Lemma kept_contents N B L k b s : heap_inv N B L s -> untouched (kept B k) (hb s) b ->
  same_contents (fun a n => exists p, p <> k /\ live_at B L p a n) (mem (hb s)) (mem b).
Proof.
  intros Hinv Hut a n x (p & Hne & Hl) Hx. destruct (live_at_word _ _ _ _ _ _ x _ Hinv Hl Hx) as (o & q & HB & Hq & Hxq).
  apply (ut_mem _ _ _ Hut q); [apply kept_spec; by exists p, o | by rewrite page_succ].
Qed.

Lemma kept_slabs N B L k b s : heap_inv N B L s -> untouched (kept B k) (hb s) b -> L !! k = None -> forall k', is_Some (L !! k') ->
  k' <> k /\ B !! k' = Some (0, false) /\ metadata b !! k' = metadata (hb s) !! k' /\
  forall x, page_addr k' <= x < page_addr k' + PAGE_SIZE_4KB -> mem b @@ x = mem (hb s) @@ x.
Proof.
  intros Hinv Hut HL k' [[i fl] Hk']. assert (k' <> k) as Hne by congruence.
  pose proof (kept_slab N B L k' k i fl s Hinv Hk' Hne) as Hke. destruct (hi_slab _ _ _ _ Hinv _ _ _ Hk') as (HB & _).
  split_and!; [done | done | by apply (ut_meta _ _ _ Hut) |]. intros x Hx. apply (ut_mem _ _ _ Hut k'); [done | by rewrite page_succ].
Qed.

Lemma kept_blocks N B L k k' o b s : heap_inv N B L s -> untouched (kept B k) (hb s) b -> B !! k' = Some (o, false) -> L !! k' = None -> k' <> k ->
  exists m, metadata b !! k' = Some m /\ is_slab m = false.
Proof.
  intros Hinv Hut HB HL Hne. rewrite (ut_meta _ _ _ Hut); [by apply (hi_block _ _ _ _ Hinv k' o) |].
  destruct (inv_range _ _ _ _ _ _ _ (hi_buddy _ _ _ _ Hinv) HB) as (_ & _ & _ & ?). apply kept_spec. exists k', o. split_and!; [done.. | lia | lia].
Qed.

Lemma heap_block_alloc N B L o r b s : heap_inv N B L s -> alloc_post N B o r (hb s) b ->
  heap_alloc N B L (2 ^ o * PAGE_SIZE_4KB) r s (set_hb b s).
Proof.
  intros Hinv (k & B' & -> & Hb & Hnone & Ha & Hmeta & Hut).
  assert (forall k' o', k' <> k -> B' !! k' = Some (o', false) <-> B !! k' = Some (o', false)) as HB.
  { intros k' o' Hne. rewrite <- !lookup_allocated, Ha. by rewrite lookup_insert_ne. }
  assert (B' !! k = Some (o, false)) as Hk by (apply lookup_allocated; rewrite Ha; apply lookup_insert_eq).
  assert (L !! k = None) as HL.
  { destruct (L !! k) as [[i fl]|] eqn:E; [| done]. destruct (hi_slab _ _ _ _ Hinv _ _ _ E) as (E2%lookup_allocated & _). congruence. }
  assert (heap_inv N B' L (set_hb b s)) as Hinv'.
  { apply (hi_rebuddy N B L); [done.. | |].
    - intros k' Hk'. destruct (kept_slabs _ _ _ _ _ _ Hinv Hut HL k' Hk') as (Hne & HBk & ? & ?). split_and!; [by apply HB | done..].
    - intros k' o' Hk' HL'. destruct (decide (k' = k)) as [->|Hne]; [by exists (Meta o false false) |].
      apply HB in Hk'; [| done]. by apply (kept_blocks N B L k k' o' b s). }
  assert (forall k' a n, live_at B L k' a n -> k' <> k) as Hold.
  { intros k' a n Hl ->. unfold live_at in Hl. rewrite HL in Hl. destruct Hl as (o' & Hk'%lookup_allocated & _). congruence. }
  assert (live_at B' L k (page_addr k) (2 ^ o * PAGE_SIZE_4KB)) as Hnew by (unfold live_at; rewrite HL; by exists o).
  exists B', L. destruct (live_at_bounds _ _ _ _ _ _ _ Hinv' Hnew) as (_ & _ & Hk30 & Hn0 & _). pose proof (page_high k Hk30) as Hp.
  split; [done |]. split; [lia |]. split; [| split].
  - intros m (k' & Hl). pose proof (Hold _ _ _ Hl) as Hne.
    apply (live_other B B' L L) in Hl; [| by intros; apply HB | done].
    destruct (live_at_bounds _ _ _ _ _ _ _ Hinv' Hl) as (_ & _ & _ & ? & _).
    destruct (live_at_disjoint _ _ _ _ _ _ _ _ _ _ Hinv' Hnew Hl) as [(? & _)|?]; [congruence | lia].
  - intros a m. rewrite (live_change B B' L L k) by (done || (intros; by apply HB)). split.
    + intros [(k' & _ & Hl)|Hl]; [left; by exists k' |]. right. unfold live_at in Hl. rewrite HL in Hl.
      destruct Hl as (o' & Ho' & -> & ->). rewrite Hk in Ho'. by injection Ho' as <-.
    + intros [(k' & Hl)|[-> ->]]; [| by right]. left. exists k'. split; [by apply (Hold k' a m) | done].
  - intros a n x (k' & Hl) Hx. apply (kept_contents N B L k b s Hinv Hut a n x); [| done]. exists k'. split; [by apply (Hold k' a n) | done].
Qed.

Lemma heap_block_free N B L k b s : heap_inv N B L s -> L !! k = None -> is_Some (allocated B !! k) -> free_post N B k (hb s) b ->
  heap_free N B L (page_addr k) s (set_hb b s).
Proof.
  intros Hinv HL [o Hko] (B' & Hb & Ha & Hut).
  assert (forall k' o', B' !! k' = Some (o', false) <-> B !! k' = Some (o', false) /\ k' <> k) as HB.
  { intros k' o'. rewrite <- !lookup_allocated, Ha, lookup_delete_Some. split; intros [? ?]; split; congruence. }
  assert (heap_inv N B' L (set_hb b s)) as Hinv'.
  { apply (hi_rebuddy N B L); [done.. | |].
    - intros k' Hk'. destruct (kept_slabs _ _ _ _ _ _ Hinv Hut HL k' Hk') as (Hne & HBk & ? & ?). split_and!; [by apply HB | done..].
    - intros k' o' [Hk' Hne]%HB HL'. by apply (kept_blocks N B L k k' o' b s). }
  apply lookup_allocated in Hko.
  assert (live_at B L k (page_addr k) (2 ^ o * PAGE_SIZE_4KB)) as Hlk by (unfold live_at; rewrite HL; by exists o).
  destruct (live_at_bounds _ _ _ _ _ _ _ Hinv Hlk) as (_ & _ & _ & Hn0 & _).
  assert (forall k' a n, live_at B L k' a n -> a <> page_addr k <-> k' <> k) as Hne.
  { intros k' a n Hl. destruct (live_at_bounds _ _ _ _ _ _ _ Hinv Hl) as (_ & _ & _ & ? & _).
    destruct (live_at_disjoint _ _ _ _ _ _ _ _ _ _ Hinv Hlk Hl) as [(-> & <- & _)|?]; [tauto |]. split; [| intros _; lia].
    intros _ ->. unfold live_at in Hl, Hlk. rewrite HL in Hl, Hlk. destruct Hl as (? & _ & -> & _). lia. }
  exists B', L. split; [done |]. split.
  - intros a m. rewrite (live_change B B' L L k) by (done || (intros; rewrite HB; tauto)). split.
    + intros [(k' & Hk' & Hl)|Hl]; [split; [by exists k' | by apply (Hne k' a m)] |].
      unfold live_at in Hl. rewrite HL in Hl. destruct Hl as (o' & [_ ?]%HB & _). done.
    + intros [(k' & Hl) ?]. left. exists k'. split; [by apply (Hne k' a m) | done].
  - intros a n x [(k' & Hl) ?] Hx. apply (kept_contents N B L k b s Hinv Hut a n x); [| done]. exists k'. split; [by apply (Hne k' a n) | done].
Qed.
End blocks.

(** ** The interface *)

Section interface.
Context {Pg : Type} `{HeapSource Pg}.
Implicit Types s : kheap Pg.

Lemma large_block n : 2048 < n -> 0 <= block_log n - 12 /\ block_size n = 2 ^ (block_log n - 12) * PAGE_SIZE_4KB.
Proof.
  intros Hn. assert (12 <= block_log n) by (unfold block_log; rewrite (proj2 (Z.leb_gt n 2048)) by lia; lia).
  split; [lia |]. unfold block_size, PAGE_SIZE_4KB. change 0x1000 with (2 ^ 12). rewrite <- Z.pow_add_r by lia. f_equal. lia.
Qed.

Lemma wp_kmalloc N B L n fuel s : heap_inv N B L (h_slabs s) -> heap_idle s -> 0 < n <= MAX_BLOCK -> heap_room B n s ->
  wp (kmalloc (S fuel) n) (fun r s' => heap_step (heap_alloc N B L (block_size n) r) s s') s.
Proof.
  intros Hinv Hidle Hn Hroom. unfold kmalloc. rewrite (proj2 (Z.eqb_neq n 0)) by lia.
  apply wp_bind, wp_kmalloc_enter; [done |]. intros rf s1 He. pose proof (entered_slabs _ _ _ He) as Hs1.
  destruct (2048 <? n) eqn:E.
  - apply Z.ltb_lt in E. destruct (large_block n E) as [Ho Hsize].
    apply wp_bind. eapply wp_mono; [apply (wp_kmalloc_order n 64 0); unfold MAX_BLOCK, MAX_ORDERS, PAGE_SIZE_4KB in *; lia|].
    intros o s2 [-> ->]. apply wp_bind, wp_zoom. cbn [view l_h_slabs l_hb lens_compose]. rewrite Hs1.
    eapply wp_mono; [apply (wp_buddy_alloc N B); [apply Hinv | done |] |].
    { destruct Hroom as [[? _]|(k & o & Hk & Hle)]; [lia |]. exists k, o. split; [done |]. rewrite Hsize in Hle.
      destruct (inv_range _ _ _ _ _ _ _ (hi_buddy _ _ _ _ Hinv) Hk) as (_ & _ & ? & _).
      apply (Z.pow_le_mono_r_iff 2); [lia.. |]. unfold PAGE_SIZE_4KB in Hle. lia. }
    intros r b Hpost. apply wp_bind. change (over (lens_compose l_h_slabs l_hb) b s1) with (set_h_slabs (set_hb b (h_slabs s1)) s1).
    eapply wp_kmalloc_leave; [done |]. apply wp_ret. eexists. split; [done |]. rewrite Hs1, Hsize. by apply heap_block_alloc.
  - apply wp_bind. eapply wp_mono; [apply (wp_kmalloc_cache n 8 0); [done | lia | done | done | by left | rewrite Hs1; apply Hinv] |].
    intros ? ? [-> ->]. apply Z.ltb_ge in E. pose proof (block_log_small n ltac:(lia)) as Hi.
    apply wp_bind, wp_zoom. cbn [view l_h_slabs]. rewrite Hs1.
    eapply wp_mono; [apply (wp_slab_alloc N B L); [done | done |] |].
    { intros H0. destruct Hroom as [[_ ?]|(k & o & Hk & _)]; [done | by exists k, o]. }
    intros r t Ht. apply wp_bind. change (over l_h_slabs t s1) with (set_h_slabs t s1).
    eapply wp_kmalloc_leave; [done |]. apply wp_ret. exists t. split; [done |].
    unfold osize in Ht. replace (4 + (block_log n - 4)) with (block_log n) in Ht by lia. done.
Qed.

(** The metadata tell a whole block from an object. *)
Lemma live_meta N B L r n (s : slabs Pg) : heap_inv N B L s -> live B L r n -> 0 < r /\
  exists m, metadata (hb s) !! meta_index r = Some m /\
  ((is_slab m = true /\ exists k i j fl, L !! k = Some (i, fl) /\ 0 <= j < cap i /\ (j ∉ fl) /\ r = obj k i j) \/
   (is_slab m = false /\ exists k o, L !! k = None /\ allocated B !! k = Some o /\ r = page_addr k)).
Proof.
  intros Hinv (k & Hl). destruct (live_at_bounds _ _ _ _ _ _ _ Hinv Hl) as (o & HB & Hk & ? & ? & ?). pose proof (page_high k Hk) as Hp.
  split; [lia |]. unfold live_at in Hl. destruct (L !! k) as [[i fl]|] eqn:E.
  - destruct Hl as (j & Hj & Hf & -> & ->). destruct (hi_slab _ _ _ _ Hinv _ _ _ E) as (_ & Hi & _ & Hm).
    destruct (obj_range k i j Hi Hj) as [Ho Ho2]. destruct (osize_cases i Hi) as (_ & _ & _ & Hs).
    rewrite (meta_index_in k) by (unfold sizeof_slab in *; done || lia). exists (Meta 0 false true). split; [done |]. left. split; [done |]. by exists k, i, j, fl.
  - destruct Hl as (o' & HB' & -> & ->). rewrite meta_index_page by done. destruct (hi_block _ _ _ _ Hinv _ _ HB E) as (m & Hm & Hf).
    exists m. split; [done |]. right. split; [done |]. exists k, o. split_and!; [done | by apply lookup_allocated | done].
Qed.

Lemma wp_kfree N B L r n s : heap_inv N B L (h_slabs s) -> heap_idle s -> live B L r n ->
  wp (kfree r) (fun _ s' => heap_step (heap_free N B L r) s s') s.
Proof.
  intros Hinv Hidle Hl. destruct (live_meta _ _ _ _ _ _ Hinv Hl) as (Hr & m & Hm & Hcase). unfold kfree.
  rewrite (proj2 (truthy_true r)) by lia. cbn [negb]. apply wp_bind, wp_kmalloc_enter; [done |]. intros rf s1 He.
  pose proof (entered_slabs _ _ _ He) as Hs1. apply wp_bind, wp_zoom. cbn [view l_h_slabs l_hb lens_compose]. rewrite Hs1.
  eapply wp_get_meta; [exact Hm |]. apply wp_bind.
  assert (over (lens_compose l_h_slabs l_hb) (hb (h_slabs s)) s1 = s1) as ->.
  { rewrite <- Hs1. destruct s1 as [[hb1 ? ? ?] ? ? ?]. done. }
  destruct Hcase as [[-> (k & i & j & fl & HL & Hj & Hjf & ->)]|[-> (k & o & HL & Ha & ->)]]; apply wp_zoom; cbn [view l_h_slabs l_hb lens_compose]; rewrite Hs1.
  - eapply wp_mono; [by apply (wp_slab_free N B L k i j fl)|]. intros [] t Ht.
    change (over l_h_slabs t s1) with (set_h_slabs t s1). eapply wp_kmalloc_leave; [done |]. by exists t.
  - eapply wp_mono; [apply (wp_buddy_free N B k o); [apply Hinv | done] |]. intros [] b Hpost.
    change (over (lens_compose l_h_slabs l_hb) b s1) with (set_h_slabs (set_hb b (h_slabs s1)) s1).
    eapply wp_kmalloc_leave; [done |]. eexists. split; [done |]. rewrite Hs1. apply heap_block_free; [done | done | by eexists | done].
Qed.

(** A new range is apart from the live ones. *)
Lemma heap_alloc_disjoint N B L n r (s t : slabs Pg) : heap_alloc N B L n r s t -> forall a m, live B L a m -> r + n <= a \/ a + m <= r.
Proof.
  intros (B' & L' & Hinv & _ & Hfresh & Hlive & _) a m Hl. pose proof (proj2 (Hlive a m) (or_introl Hl)) as (k & Hk).
  pose proof (proj2 (Hlive r n) (or_intror (conj eq_refl eq_refl))) as (k' & Hk').
  destruct (live_at_disjoint _ _ _ _ _ _ _ _ _ _ Hinv Hk' Hk) as [(_ & <- & _)|?]; [| done]. by destruct (Hfresh m).
Qed.

(** Requests above the largest block. *)
Lemma kmalloc_order_ge n m sz o (s s' : kheap Pg) r : kmalloc_order m sz o n s = Ok (r, s') -> o <= r.
Proof.
  revert sz o. induction m as [|m IH]; intros sz o; cbn [kmalloc_order]; destruct (sz <? n); try done.
  1, 3: by intros [= -> _]. intros ?%IH. lia.
Qed.

Lemma kmalloc_order_big n m sz o (s s' : kheap Pg) r : MAX_BLOCK < n -> 0 <= o <= MAX_ORDERS -> sz = 2 ^ (12 + o) ->
  kmalloc_order m sz o n s = Ok (r, s') -> MAX_ORDERS < r.
Proof.
  unfold MAX_BLOCK, MAX_ORDERS, PAGE_SIZE_4KB. intros Hn. revert sz o. induction m as [|m IH]; intros sz o Ho ->; cbn [kmalloc_order].
  - rewrite (proj2 (Z.ltb_lt _ _)); [done |]. pose proof (Z.pow_le_mono_r 2 (12 + o) 24). lia.
  - rewrite (proj2 (Z.ltb_lt _ _)); [| pose proof (Z.pow_le_mono_r 2 (12 + o) 24); lia].
    destruct (decide (o = 12)) as [->|]; [intros ?%kmalloc_order_ge; lia |]. apply IH; [lia |].
    rewrite Z.shiftl_mul_pow2, Z.mul_comm, <- Z.pow_add_r by lia. rewrite u64_small; [f_equal; lia |].
    pose proof (Z.pow_lt_mono_r 2 (1 + (12 + o)) 64). lia.
Qed.

Lemma kmalloc_too_large n fuel s r s' : MAX_BLOCK < n -> kmalloc fuel n s <> Ok (r, s').
Proof.
  intros Hn. unfold kmalloc. rewrite (proj2 (Z.eqb_neq n 0)), (proj2 (Z.ltb_lt 2048 n)) by (unfold MAX_BLOCK, MAX_ORDERS, PAGE_SIZE_4KB in *; lia).
  unfold mbind, M_bind. destruct (kmalloc_enter s) as [[rf s1]|]; [| done].
  destruct (kmalloc_order 64 PAGE_SIZE_4KB 0 n s1) as [[o s2]|] eqn:E; [| done].
  apply kmalloc_order_big in E; [| done | unfold MAX_ORDERS; lia | done]. unfold zoom.
  destruct (buddy_alloc fuel o (view (lens_compose l_h_slabs l_hb) s2)) as [[p b]|] eqn:E2; [| done].
  by apply buddy_alloc_too_large in E2.
Qed.
End interface.

(** ** Initialisation *)

Section init.
Context {Pg : Type} `{Hs : HeapSource Pg}.

Lemma wp_init_slab (s : slabs Pg) : wp init_slab (fun _ s' => hb s' = hb s /\
  forall i, valid_cache i -> c_size s' @@ i = osize i /\ c_partial s' @@ i = 0 /\ c_full s' @@ i = 0) s.
Proof.
  eapply wp_mono.
  - apply (wp_for _ (fun n s' => hb s' = hb s /\
      forall i, 0 <= i < n -> c_size s' @@ i = nth (Z.to_nat i) sizes 0 /\ c_partial s' @@ i = 0 /\ c_full s' @@ i = 0)).
    + split; [done |]. intros i Hi. lia.
    + intros n s' Hn [Hb Hi]. apply wp_modify. split; [done |]. intros i Hin. cbn. rewrite !rd_insert.
      case_decide; [by subst | apply Hi; lia].
  - intros [] s' [Hb Hi]. split; [done |]. intros i Hv. destruct (Hi i) as (-> & -> & ->); [exact Hv |]. split; [| done].
    unfold valid_cache, NUM_CACHES in Hv. assert (i ∈ [0; 1; 2; 3; 4; 5; 6; 7]) as Hin by (rewrite !elem_of_cons; lia).
    rewrite !elem_of_cons, elem_of_nil in Hin. by destruct Hin as [-> |[-> |[-> |[-> |[-> |[-> |[-> |[-> |[]]]]]]]]].
Qed.

Lemma dll_empty (m : gmap Z Z) : dll slab_node m 0 (page_addr <$> []).
Proof. exists 0. split; [| constructor]. by split. Qed.

Lemma heap_inv_init (s : slabs Pg) : buddy_inv START_PAGES ∅ whole_heap (hb s) ->
  (forall i, valid_cache i -> c_size s @@ i = osize i /\ c_partial s @@ i = 0 /\ c_full s @@ i = 0) -> heap_inv START_PAGES whole_heap ∅ s.
Proof.
  intros Hb Hc. split; [done | intros i Hi; by apply Hc | done | |].
  - unfold whole_heap. by intros k o [_ [=]]%lookup_singleton_Some.
  - intros x Hx. exists []. split.
    + assert (list_head s x = 0) as -> by (destruct x; cbn in *; by apply Hc). apply dll_empty.
    + intros k. split; [by intros ?%elem_of_nil | by intros (i & fl & ? & _)].
Qed.

Context `{!HeapSourceLaws Pg}.
Abbreviation pages := (lens_compose (lens_compose l_h_slabs l_hb) l_b_pages).

Lemma wp_init_map_run n r (base va f : Z) (Q : unit -> kheap Pg -> Prop) s :
  hs_ok r (view pages s) -> 3 * Z.of_nat n <= r ->
  (forall p, hs_ok (r - 3 * Z.of_nat n) p -> Q tt (over pages p s)) ->
  wp (for_loop n 0 (fun i => zoom pages (hs_map_page (u64 (base + i * PAGE_SIZE_4KB))
    (u64 (va + i * PAGE_SIZE_4KB)) f))) Q s.
Proof.
  intros Hok Hr HQ. eapply wp_mono.
  - apply (wp_for n (fun i s' => exists p, s' = over pages p s /\ hs_ok (r - 3 * i) p)).
    + exists (view pages s). split; [by destruct s as [[[] ? ? ?] ? ? ?] | by rewrite Z.mul_0_r, Z.sub_0_r].
    + intros i s' Hi (p & -> & Hp). apply wp_zoom. simpl. eapply wp_mono.
      * apply (wp_hs_map_page (r - 3 * i)); [done | lia].
      * intros [] p' Hp'. exists p'. split; [done |]. by replace (r - 3 * (i + 1)) with (r - 3 * i - 3) by lia.
  - intros [] s' (p & -> & Hp). by apply HQ.
Qed.

(** The frames and page tables of the first heap, and the metadata. *)
Definition init_cost : Z := 4 * (HEAP_SIZE / PAGE_SIZE_4KB) + 4.

Lemma wp_init_kheap r s : hs_ok r (view pages s) -> init_cost <= r ->
  wp init_kheap (fun _ s' => heap_inv START_PAGES whole_heap ∅ (h_slabs s') /\ hs_ok (r - init_cost) (view pages s') /\
    kmalloc_lock s' = kmalloc_lock s /\ h_cpu s' = h_cpu s /\ scheduler s' = scheduler s) s.
Proof.
  intros Hok Hr. replace init_cost with (4096 + 3 * Z.of_nat 4096 + 4) in * by done.
  apply wp_bind, wp_zoom. eapply wp_mono; [apply (wp_hs_alloc_pages r (HEAP_SIZE / PAGE_SIZE_4KB)); [done |] |].
  { change (HEAP_SIZE / PAGE_SIZE_4KB) with 4096. lia. }
  change (HEAP_SIZE / PAGE_SIZE_4KB) with 4096. change (Z.to_nat 4096) with 4096%nat. intros base p1 Hp1. apply wp_bind.
  apply (wp_init_map_run _ (r - 4096)); [exact Hp1 | lia |]. intros p2 Hp2. apply wp_bind, wp_zoom.
  eapply wp_mono; [apply (wp_init_buddy (r - 4096 - 3 * Z.of_nat 4096)); [exact Hp2 | lia] |].
  intros [] b (Hb & Hp3 & _). apply wp_zoom. eapply wp_mono; [apply wp_init_slab |]. intros [] t [Ht Hc].
  cbn [view over lens_compose l_h_slabs l_hb l_b_pages set_h_slabs h_slabs set_hb hb kmalloc_lock h_cpu scheduler] in *. split; [| split; [| done]].
  - apply heap_inv_init; [by rewrite Ht | exact Hc].
  - rewrite Ht. cbn. by replace (r - (4096 + 3 * Z.of_nat 4096 + 4)) with (r - 4096 - 3 * Z.of_nat 4096 - 4) by lia.
Qed.
End init.

(** * Properties *)

Section properties.
Context {Pg : Type} `{Hs : HeapSource Pg}.
Implicit Types s : kheap Pg.

(** C6: a request of up to 16 MiB for which there is memory gets a range of the
    size of its class that was not live, is apart from every live range and at
    least as long as asked for; the live ranges keep their contents, and the
    lock and the interrupt flag are restored. *)
Theorem kmalloc_spec N B L n fuel s :
  heap_inv N B L (h_slabs s) -> heap_idle s -> 0 < n <= MAX_BLOCK -> heap_room B n s ->
  wp (kmalloc (S fuel) n) (fun r s' => heap_step (heap_alloc N B L (block_size n) r) s s' /\
    n <= block_size n /\ forall a m, live B L a m -> r + n <= a \/ a + m <= r) s.
Proof.
  intros Hinv Hidle Hn Hroom. eapply wp_mono; [by apply (wp_kmalloc N B L n fuel s)|]. intros r s' (t & -> & Ht).
  pose proof (block_size_ge n ltac:(lia)). split; [by exists t | split; [done |]]. intros a m Hl.
  destruct (heap_alloc_disjoint _ _ _ _ _ _ _ Ht a m Hl); [left; lia | by right].
Qed.

(** C23: freeing a live range, of either allocator, ends its life and that of no
    other, and the other live ranges keep their contents. *)
Theorem kfree_spec N B L r n s : heap_inv N B L (h_slabs s) -> heap_idle s -> live B L r n ->
  wp (kfree r) (fun _ s' => heap_step (heap_free N B L r) s s') s.
Proof. apply wp_kfree. Qed.

(** Freeing what was just allocated leaves the same live ranges, with the same
    contents. *)
Theorem kmalloc_kfree_roundtrip N B L n fuel s :
  heap_inv N B L (h_slabs s) -> heap_idle s -> 0 < n <= MAX_BLOCK -> heap_room B n s ->
  wp (r ← kmalloc (S fuel) n; kfree r) (fun _ s' => heap_idle s' /\ exists B' L',
    heap_inv N B' L' (h_slabs s') /\ (forall a m, live B' L' a m <-> live B L a m) /\
    same_contents (live B L) (mem (hb (h_slabs s))) (mem (hb (h_slabs s')))) s.
Proof.
  intros Hinv Hidle Hn Hroom. apply wp_bind. eapply wp_mono; [by apply (wp_kmalloc N B L n fuel s)|].
  intros r s1 (t & -> & (B1 & L1 & Hinv1 & _ & Hfresh & Hlive1 & Hc1)).
  assert (live B1 L1 r (block_size n)) as Hr by (apply Hlive1; by right).
  eapply wp_mono; [by apply (wp_kfree N B1 L1 r (block_size n))|]. intros [] s2 (t2 & -> & (B2 & L2 & Hinv2 & Hlive2 & Hc2)).
  assert (forall a m, live B L a m -> a <> r) as Hne by (intros a m Hl ->; by apply (Hfresh m)).
  split; [done |]. exists B2, L2. split; [done |]. split.
  - intros a m. rewrite Hlive2, Hlive1. split; [intros [[?|[? _]] ?]; done | eauto].
  - intros a m x Hl Hx. transitivity (mem (hb t) @@ x); [apply (Hc2 a m); [split; [apply Hlive1; by left | by apply (Hne a m)] | done] | by apply (Hc1 a m)].
Qed.

(** A request above 16 MiB never returns: either the loop that looks for the
    order or the buddy allocator runs for ever. *)
Theorem kmalloc_huge_hangs n : MAX_BLOCK < n -> forall fuel s r s', kmalloc fuel n s <> Ok (r, s').
Proof. intros Hn fuel s r s'. by apply kmalloc_too_large. Qed.

(** [init_kheap] establishes the invariant of the heap: all of it is one free
    block, and nothing is live. *)
Theorem init_kheap_spec `{!HeapSourceLaws Pg} r s :
  hs_ok r (b_pages (hb (h_slabs s))) -> init_cost <= r ->
  wp init_kheap (fun _ s' => heap_inv START_PAGES whole_heap ∅ (h_slabs s') /\ (forall a n, ~ live whole_heap ∅ a n) /\
    kmalloc_lock s' = kmalloc_lock s /\ h_cpu s' = h_cpu s) s.
Proof.
  intros Hok Hr. eapply wp_mono; [by apply (wp_init_kheap r)|]. intros [] s' (Hinv & _ & Hl & Hc & _).
  split_and!; [done | | done..]. intros a n (k & Hk). unfold live_at in Hk. rewrite lookup_empty in Hk.
  unfold whole_heap in Hk. destruct Hk as (o & [_ [=]]%lookup_singleton_Some & _).
Qed.
End properties.

(** * Witnesses *)

#[local] Existing Instance bump_source.
#[local] Existing Instance bump_source_laws.

Definition kheap0 : kheap Z := KHeap (Slabs heap0 ∅ ∅ ∅) 0 (Cpu FLAGS_IF 0) 1.

Lemma kheap0_room n s : 0 < n <= MAX_BLOCK -> heap_room (Pg:=Z) whole_heap n s.
Proof.
  intros Hn. right. exists 0, MAX_ORDERS. split; [done |]. unfold block_size, MAX_BLOCK, MAX_ORDERS, PAGE_SIZE_4KB in *.
  change (2 ^ 12 * 0x1000) with (2 ^ 24) in *. apply Z.pow_le_mono_r; [lia |]. unfold block_log.
  pose proof (Z.log2_up_le_mono n (2 ^ 24) ltac:(lia)) as H. change (Z.log2_up (2 ^ 24)) with 24 in H. case_match; lia.
Qed.

Lemma kheap0_init (A : Type) (m : M (kheap Z) A) (Q : A -> kheap Z -> Prop) :
  (forall s, heap_inv START_PAGES whole_heap ∅ (h_slabs s) -> heap_idle s -> wp m Q s) -> wp (init_kheap;; m) Q kheap0.
Proof.
  intros HQ. apply wp_bind. eapply wp_mono; [apply (wp_init_kheap init_cost kheap0); [by simpl | done] |].
  intros [] s (Hinv & _ & Hl & _). apply HQ; [done |]. by intros _.
Qed.

Lemma kmalloc_spec_witness :
  wp (init_kheap;; kmalloc 1 100) (fun r _ => r <> 0) kheap0.
Proof.
  apply kheap0_init. intros s Hinv Hidle.
  eapply wp_mono; [apply (kmalloc_spec START_PAGES whole_heap ∅ 100 0 s Hinv Hidle); [by vm_compute | by apply kheap0_room] |].
  by intros r s' [(t & _ & (B' & L' & _ & ? & _)) _].
Defined.

Lemma kfree_spec_witness :
  wp (init_kheap;; r ← kmalloc 1 5000; kfree r) (fun _ s' => scheduler s' = 1 -> kmalloc_lock s' = 0) kheap0.
Proof.
  apply kheap0_init. intros s Hinv Hidle. apply wp_bind.
  eapply wp_mono; [apply (wp_kmalloc START_PAGES whole_heap ∅ 5000 0 s Hinv Hidle); [by vm_compute | by apply kheap0_room] |].
  intros r s1 (t & -> & (B' & L' & Hinv' & _ & _ & Hlive & _)).
  eapply wp_mono; [apply (kfree_spec START_PAGES B' L' r (block_size 5000) (set_h_slabs t s) Hinv' Hidle); apply Hlive; by right |].
  intros [] s2 (t2 & -> & _). cbn. intros E. apply Hidle. by rewrite E.
Defined.

Lemma kmalloc_kfree_roundtrip_witness :
  wp (init_kheap;; r ← kmalloc 1 24; kfree r) (fun _ s' => exists B L, heap_inv START_PAGES B L (h_slabs s')) kheap0.
Proof.
  apply kheap0_init. intros s Hinv Hidle.
  eapply wp_mono; [apply (kmalloc_kfree_roundtrip START_PAGES whole_heap ∅ 24 0 s Hinv Hidle); [by vm_compute | by apply kheap0_room] |].
  intros [] s' (_ & B & L & ? & _). by exists B, L.
Defined.

Lemma kmalloc_huge_hangs_witness : MAX_BLOCK < 0x1000001 /\ forall fuel r s', kmalloc fuel 0x1000001 kheap0 <> Ok (r, s').
Proof. split; [done |]. intros fuel r s'. by apply (kmalloc_huge_hangs 0x1000001). Defined.

Lemma init_kheap_spec_witness : wp init_kheap (fun _ s' => heap_inv START_PAGES whole_heap ∅ (h_slabs s')) kheap0.
Proof. eapply wp_mono; [apply (init_kheap_spec init_cost kheap0); [by simpl | done] |]. by intros [] s' [? _]. Defined.
