(* ===== verification/CString.v ===== *)
(** The string functions of the kernel ([libc/string.c]) on a memory of bytes. *)
From S2P Require Import Prelude.

(** A memory of bytes, by address. *)
Abbreviation memory := (gmap Z Z).

(** * Operations *)

Fixpoint memset (count : nat) (ptr char_val : Z) (m : memory) : memory :=
  match count with
  | O => m
  | S n => memset n (ptr + 1) char_val (<[ptr := u8 char_val]> m)
  end.

Fixpoint memcpy (count : nat) (d s : Z) (m : memory) : memory :=
  match count with
  | O => m
  | S n => memcpy n (d + 1) (s + 1) (<[d := m @@ s]> m)
  end.

(** The loop of [memcmp] at index [i], with [n] bytes to go. *)
Fixpoint memcmp_loop (n : nat) (i s1 s2 : Z) (m : memory) : Z :=
  match n with
  | O => 0
  | S n' =>
      if negb (m @@ (s1 + i) =? m @@ (s2 + i))
      then if m @@ (s1 + i) <? m @@ (s2 + i) then -1 else 1
      else memcmp_loop n' (i + 1) s1 s2 m
  end.
Definition memcmp (s1 s2 : Z) (size : nat) (m : memory) : Z := memcmp_loop size 0 s1 s2 m.

(** [None]: no null byte in reach of the fuel. The result is an [int]. *)
Fixpoint strlen_loop (fuel : nat) (s len : Z) (m : memory) : option Z :=
  if m @@ (s + len) =? 0 then Some (s32 len)
  else match fuel with O => None | S fuel' => strlen_loop fuel' s (len + 1) m end.
Definition strlen (fuel : nat) (s : Z) (m : memory) : option Z := strlen_loop fuel s 0 m.

(** * Words in memory, little-endian *)

Definition store32 (m : memory) (a v : Z) : memory :=
  <[a + 3 := v / 2 ^ 24 mod 256]> (<[a + 2 := v / 2 ^ 16 mod 256]> (<[a + 1 := v / 2 ^ 8 mod 256]> (<[a := v mod 256]> m))).
Definition load32 (m : memory) (a : Z) : Z :=
  m @@ a + 2 ^ 8 * m @@ (a + 1) + 2 ^ 16 * m @@ (a + 2) + 2 ^ 24 * m @@ (a + 3).

Definition load16 (m : memory) (a : Z) : Z := m @@ a + 2 ^ 8 * m @@ (a + 1).
Definition load64 (m : memory) (a : Z) : Z := load32 m a + 2 ^ 32 * load32 m (a + 4).

Definition store8 (m : memory) (a v : Z) : memory := <[a := u8 v]> m.
Definition store16 (m : memory) (a v : Z) : memory := <[a + 1 := u8 (v / 2 ^ 8)]> (<[a := u8 v]> m).
Definition store64 (m : memory) (a v : Z) : memory := store32 (store32 m a (u32 v)) (a + 4) (u32 (v / 2 ^ 32)).

(** * Specification *)

(** The bytes at [a .. a + n - 1]. *)
Definition bytes (m : memory) (a : Z) (n : nat) : list Z := (fun i => m @@ (a + i)) <$> seqZ 0 (Z.of_nat n).

(** The bytes [l] at [s], and a null byte after them. *)
Definition c_string (m : memory) (s : Z) (l : list Z) : Prop :=
  bytes m s (length l) = l /\ m @@ (s + Z.of_nat (length l)) = 0 /\ Forall (fun c => c <> 0) l.

(** Lexicographic comparison. *)
Fixpoint lex (l1 l2 : list Z) : Z :=
  match l1, l2 with
  | a :: l1', b :: l2' => if a =? b then lex l1' l2' else if a <? b then -1 else 1
  | _, _ => 0
  end.

(** * Lemmas *)

Lemma memset_spec n p c m x :
  memset n p c m @@ x = if decide (p <= x < p + Z.of_nat n) then u8 c else m @@ x.
Proof.
  revert p m. induction n as [|n IH]; intros p m; cbn [memset].
  - by rewrite decide_False by lia.
  - rewrite IH, rd_insert. repeat case_decide; done || lia.
Qed.

(** The copy goes upwards: it is right when the destination is below the
    source, or when the two do not overlap. *)
Lemma memcpy_spec n d s m x : d <= s \/ s + Z.of_nat n <= d ->
  memcpy n d s m @@ x = if decide (d <= x < d + Z.of_nat n) then m @@ (x - d + s) else m @@ x.
Proof.
  revert d s m. induction n as [|n IH]; intros d s m Hds; cbn [memcpy].
  - by rewrite decide_False by lia.
  - rewrite IH by lia. rewrite !rd_insert. repeat case_decide; try lia; try (f_equal; lia); done.
Qed.

Lemma length_bytes m a n : length (bytes m a n) = n.
Proof. unfold bytes. rewrite length_fmap, length_seqZ. lia. Qed.

Lemma bytes_S m a n : bytes m a (S n) = m @@ a :: bytes m (a + 1) n.
Proof.
  unfold bytes. rewrite seqZ_cons by lia. cbn [fmap list_fmap]. f_equal; [f_equal; lia |].
  replace (Z.pred (Z.of_nat (S n))) with (Z.of_nat n) by lia. replace (Z.succ 0) with (0 + 1) by lia.
  rewrite <- (fmap_add_seqZ 1 0), <- list_fmap_compose. apply list_fmap_ext. intros i y _. simpl. f_equal. lia.
Qed.

Lemma bytes_lookup m a n i : 0 <= i < Z.of_nat n -> bytes m a n !! Z.to_nat i = Some (m @@ (a + i)).
Proof. intros Hi. unfold bytes. rewrite list_lookup_fmap, lookup_seqZ_lt by lia. simpl. do 3 f_equal. lia. Qed.

Lemma bytes_ext m m' a a' n : (forall i, 0 <= i < Z.of_nat n -> m @@ (a + i) = m' @@ (a' + i)) -> bytes m a n = bytes m' a' n.
Proof.
  revert a a'. induction n as [|n IH]; intros a a' H; [done |]. rewrite !bytes_S. f_equal.
  - specialize (H 0). rewrite !Z.add_0_r in H. apply H. lia.
  - apply IH. intros i Hi. specialize (H (i + 1) ltac:(lia)). by rewrite !(Z.add_comm i 1), !Z.add_assoc in H.
Qed.

Lemma memcmp_loop_lex n i s1 s2 m : memcmp_loop n i s1 s2 m = lex (bytes m (s1 + i) n) (bytes m (s2 + i) n).
Proof.
  revert i. induction n as [|n IH]; intros i; [done |]. cbn [memcmp_loop]. rewrite !bytes_S. cbn [lex].
  rewrite IH, !Z.add_assoc. by destruct (m @@ (s1 + i) =? m @@ (s2 + i)).
Qed.

Lemma memcmp_lex n s1 s2 m : memcmp s1 s2 n m = lex (bytes m s1 n) (bytes m s2 n).
Proof. unfold memcmp. by rewrite memcmp_loop_lex, !Z.add_0_r. Qed.

Lemma lex_eq l1 l2 : length l1 = length l2 -> lex l1 l2 = 0 <-> l1 = l2.
Proof.
  revert l2. induction l1 as [|a l1 IH]; intros [|b l2] Hl; try done. simpl in *.
  destruct (Z.eqb_spec a b) as [->|Hne].
  - rewrite IH by lia. split; [by intros -> | by intros [= ->]].
  - split; [by destruct (a <? b) | by intros [= ? ?]].
Qed.

Lemma memcmp_eq n s1 s2 m : memcmp s1 s2 n m = 0 <-> bytes m s1 n = bytes m s2 n.
Proof. rewrite memcmp_lex. apply lex_eq. by rewrite !length_bytes. Qed.

Lemma strlen_loop_string fuel s m l1 l2 : c_string m s (l1 ++ l2) -> (length l2 <= fuel)%nat -> Z.of_nat (length (l1 ++ l2)) < 2 ^ 31 ->
  strlen_loop fuel s (Z.of_nat (length l1)) m = Some (Z.of_nat (length (l1 ++ l2))).
Proof.
  intros (Hb & H0 & Hnz) Hf Hlen. revert l1 fuel Hb H0 Hnz Hf Hlen. induction l2 as [|c l2 IH]; intros l1 fuel Hb H0 Hnz Hf Hlen.
  - rewrite app_nil_r in *. destruct fuel; cbn [strlen_loop]; rewrite H0; cbn; by rewrite s32_small by lia.
  - simpl in Hf. destruct fuel as [|fuel]; [lia |]. cbn [strlen_loop].
    assert (m @@ (s + Z.of_nat (length l1)) = c) as ->.
    { assert (bytes m s (length (l1 ++ c :: l2)) !! Z.to_nat (Z.of_nat (length l1)) = Some c) as E
        by (rewrite Hb, Nat2Z.id; by apply list_lookup_middle).
      rewrite bytes_lookup in E by (rewrite length_app; simpl; lia). by injection E. }
    apply Forall_app in Hnz as [H1 [H2 H3]%Forall_cons]. destruct (Z.eqb_spec c 0) as [|_]; [done |].
    replace (Z.of_nat (length l1) + 1) with (Z.of_nat (length (l1 ++ [c]))) by (rewrite length_app; simpl; lia).
    replace (l1 ++ c :: l2) with ((l1 ++ [c]) ++ l2) in * by by rewrite <- app_assoc.
    apply IH; [done | done | | lia | done]. apply Forall_app. split; [apply Forall_app; by rewrite Forall_singleton | done].
Qed.

Lemma strlen_string fuel s m l : c_string m s l -> (length l <= fuel)%nat -> Z.of_nat (length l) < 2 ^ 31 ->
  strlen fuel s m = Some (Z.of_nat (length l)).
Proof. intros. by apply (strlen_loop_string fuel s m [] l). Qed.

(** ** Words *)

Lemma rd_store32 m a v x :
  store32 m a v @@ x = if decide (a <= x < a + 4) then v / 2 ^ (8 * (x - a)) mod 256 else m @@ x.
Proof.
  unfold store32. rewrite !rd_insert. destruct (decide (a <= x < a + 4)); repeat case_decide; try lia; try done; subst.
  - by replace (8 * (a + 3 - a)) with 24 by lia.
  - by replace (8 * (a + 2 - a)) with 16 by lia.
  - by replace (8 * (a + 1 - a)) with 8 by lia.
  - replace (8 * (x - x)) with 0 by lia. by rewrite Z.div_1_r.
Qed.

Lemma load_store32 m a b v : 0 <= v < 2 ^ 32 -> a = b \/ a + 4 <= b \/ b + 4 <= a ->
  load32 (store32 m a v) b = if decide (a = b) then v else load32 m b.
Proof.
  intros Hv Hab. unfold load32. rewrite !rd_store32. case_decide as E; repeat case_decide; try lia; try done. subst b.
  replace (8 * (a - a)) with 0 by lia. replace (8 * (a + 1 - a)) with 8 by lia.
  replace (8 * (a + 2 - a)) with 16 by lia. replace (8 * (a + 3 - a)) with 24 by lia. dlia.
Qed.

Lemma rd_store8 m a v x : store8 m a v @@ x = if decide (a = x) then v mod 256 else m @@ x.
Proof. apply rd_insert. Qed.
Lemma rd_store16 m a v x : store16 m a v @@ x = if decide (a + 1 = x) then v / 2 ^ 8 mod 256 else if decide (a = x) then v mod 256 else m @@ x.
Proof. unfold store16. by rewrite !rd_insert. Qed.

(** Bytes of a memory after stores, with the comparisons of addresses decided. *)
Ltac rd_stores := repeat first
  [rewrite decide_False by lia | rewrite decide_True by lia | rewrite rd_store32 | rewrite rd_store16 | rewrite rd_store8].

Lemma rd_store64 m a v x : 0 <= v < 2 ^ 64 -> ~ a <= x < a + 8 -> store64 m a v @@ x = m @@ x.
Proof. intros Hv Hx. unfold store64. by rewrite !rd_store32, !decide_False by lia. Qed.

Lemma load_store64 m a v : 0 <= v < 2 ^ 64 -> load64 (store64 m a v) a = v.
Proof.
  intros Hv. unfold load64, store64. rewrite !load_store32 by (apply u32_range || lia). rewrite decide_False, !decide_True by lia.
  unfold u32. clear - Hv. dlia.
Qed.

(** Words of memories that agree on their bytes. *)
Lemma load32_same m m' a : (forall i, 0 <= i < 4 -> m' @@ (a + i) = m @@ (a + i)) -> load32 m' a = load32 m a.
Proof. intros E. unfold load32. pose proof (E 0 ltac:(lia)) as E0. rewrite Z.add_0_r in E0. by rewrite E0, !E by lia. Qed.
Lemma load64_same m m' a : (forall i, 0 <= i < 8 -> m' @@ (a + i) = m @@ (a + i)) -> load64 m' a = load64 m a.
Proof. intros E. unfold load64. rewrite !(load32_same m m'); [done | | intros i Hi; by apply E; lia]. intros i Hi. rewrite <- Z.add_assoc. apply E. lia. Qed.
Lemma load16_same m m' a : (forall i, 0 <= i < 2 -> m' @@ (a + i) = m @@ (a + i)) -> load16 m' a = load16 m a.
Proof. intros E. unfold load16. pose proof (E 0 ltac:(lia)) as E0. rewrite Z.add_0_r in E0. by rewrite E0, E by lia. Qed.

(** Only the bytes [a .. b - 1] change. *)
Definition only_bytes (a b : Z) (m m' : memory) : Prop := forall x, ~ a <= x < b -> m' @@ x = m @@ x.


Lemma only_bytes_trans a b m m' m'' : only_bytes a b m m' -> only_bytes a b m' m'' -> only_bytes a b m m''.
Proof. intros H1 H2 x Hx. by rewrite H2, H1. Qed.

Lemma only_bytes_weaken a b a' b' m m' : only_bytes a b m m' -> a' <= a -> b <= b' -> only_bytes a' b' m m'.
Proof. intros H1 Ha Hb x Hx. apply H1. lia. Qed.

