(* ===== verification/BootMem.v ===== *)
(** The memory managers at boot ([init_PMM] of [mm/pmm.c], [init_VMM],
    [vmm_init_direct_mapping] and [init_pat] of [mm/vmm.c]): the memory map of the
    boot loader becomes the bitmap of pages and the direct mapping. *)
From S2P Require Import Prelude Interfaces Cpu Pmm Vmm CString.

(** * State *)

Definition MULTIBOOT_TAG_TYPE_END : Z := 0.
Definition MULTIBOOT_TAG_TYPE_MMAP : Z := 6.
Definition MULTIBOOT_MEMORY_AVAILABLE : Z := 1.
Definition sizeof_tag_mmap : Z := 16.
Definition sizeof_mmap_entry : Z := 24.
Definition MSR_IA32_PAT : Z := 0x277.

(** [boot.asm] maps the first 64 large pages of memory at [KERNEL_OFFSET], and
    nothing else is mapped until [init_VMM] is done. *)
Definition BOOT_MEMORY : Z := 64 * PAGE_SIZE_2MB.
Definition boot_mapped (va : Z) : bool := (KERNEL_OFFSET <=? va) && (va <? KERNEL_OFFSET + BOOT_MEMORY).

Definition guard {St : Type} (b : bool) : M St unit := if b then mret tt else fail Fault.

(** [struct multiboot_mmap_entry] *)
Record mmap_entry : Type := Entry { e_addr : Z; e_len : Z; e_type : Z }.

Section pmm.

(** The addresses of the linker's symbols. *)
Context (kernel_start kernel_end : Z).

(** A word at an address of the kernel. The memory around the bitmap, which is at
    [kernel_end], is the map [bitmap], by the distance from [kernel_end]. *)
Definition peek (bytes : Z) (word : memory -> Z -> Z) (va : Z) : M pmm Z :=
  guard (boot_mapped va && boot_mapped (va + bytes - 1));;
  gets (fun s => word (bitmap s) (va - kernel_end)).
Definition peek32 : Z -> M pmm Z := peek 4 load32.
Definition peek64 : Z -> M pmm Z := peek 8 load64.

(** * Operations *)

(** ** The memory map *)

(** [(tag + tag->size + 7) & ~7] *)
Definition next_tag (tag size : Z) : Z := Z.land (u64 (tag + size + 7)) (2 ^ 64 - 8).

Section loops.
Context {A : Type}.

(** [for (i = 0; i < num_entries; i++)], from the entry at [e] on. *)
Fixpoint entries_loop (n : nat) (e : Z) (f : Z -> A -> M pmm A) (a : A) : M pmm A :=
  match n with
  | O => mret a
  | S n' => a' ← f e a; entries_loop n' (e + sizeof_mmap_entry) f a'
  end.

(** A size of zero for the entries is a divide error. *)
Definition for_entries (tag : Z) (f : Z -> A -> M pmm A) (a : A) : M pmm A :=
  size ← peek32 (tag + 4);
  entry_size ← peek32 (tag + 8);
  guard (truthy entry_size);;
  entries_loop (Z.to_nat (u64 (size - sizeof_tag_mmap) / entry_size)) (tag + sizeof_tag_mmap) f a.

(** The loop over the tags, with what is done for each entry of a memory map. *)
Fixpoint for_tags (fuel : nat) (tag : Z) (f : Z -> A -> M pmm A) (a : A) : M pmm A :=
  type ← peek32 tag;
  if type =? MULTIBOOT_TAG_TYPE_END then mret a
  else
    match fuel with
    | O => fail Hang
    | S fuel' =>
        a' ← (if type =? MULTIBOOT_TAG_TYPE_MMAP then for_entries tag f a else mret a);
        size ← peek32 (tag + 4);
        for_tags fuel' (next_tag tag size) f a'
    end.
End loops.

(** The first tag; [bootInfoAddr] is an [unsigned int]. *)
Definition first_tag (bootInfoAddr : Z) : Z := u64 (u64 (bootInfoAddr + KERNEL_OFFSET) + 8).

(** ** [init_PMM] *)

Definition entry_end (e : Z) : M pmm Z := addr ← peek64 e; len ← peek64 (e + 8); mret (u64 (addr + len)).

Definition max_available (e maxAddr : Z) : M pmm Z :=
  type ← peek32 (e + 16);
  if type =? MULTIBOOT_MEMORY_AVAILABLE then
    stop ← entry_end e; mret (if maxAddr <? stop then stop else maxAddr)
  else mret maxAddr.

(** A byte of the bitmap is accessed. *)
Definition touch (bit : Z) : M pmm unit := guard (boot_mapped (kernel_end + bit / 8)).

Fixpoint clear_pages (fuel : nat) (e addr : Z) : M pmm unit :=
  stop ← entry_end e;
  if addr <? stop then
    match fuel with
    | O => fail Hang
    | S fuel' =>
        touch (addr / PAGE_SIZE_4KB);; BITMAP_CLR (addr / PAGE_SIZE_4KB);;
        clear_pages fuel' e (u64 (addr + PAGE_SIZE_4KB))
    end
  else mret tt.

Definition free_entry (fuel : nat) (e : Z) (_ : unit) : M pmm unit :=
  type ← peek32 (e + 16);
  if type =? MULTIBOOT_MEMORY_AVAILABLE then
    addr ← peek64 e; when (0x100000 <=? addr) (clear_pages fuel e addr)
  else mret tt.

Fixpoint mark_kernel (fuel : nat) (addr stop : Z) : M pmm unit :=
  if addr <? stop then
    match fuel with
    | O => fail Hang
    | S fuel' =>
        touch (addr / PAGE_SIZE_4KB);; BITMAP_SET (addr / PAGE_SIZE_4KB);;
        mark_kernel fuel' (u64 (addr + PAGE_SIZE_4KB)) stop
    end
  else mret tt.

(** [memset(bitmap, 0xFF, bitmap_size)] *)
Definition fill_bitmap (bitmap_size : Z) : M pmm unit :=
  guard ((bitmap_size =? 0) || boot_mapped kernel_end && boot_mapped (kernel_end + bitmap_size - 1));;
  modify (fun s => set_bitmap (memset (Z.to_nat bitmap_size) 0 0xFF (bitmap s)) s).

Definition set_total_pages (t : Z) (s : pmm) : pmm := Pmm (p_cpu s) (pmm_lock s) (bitmap s) t.

Definition init_PMM (fuel : nat) (bootInfoAddr : Z) : M pmm unit :=
  let tag := first_tag bootInfoAddr in
  maxAddr ← for_tags fuel tag max_available 0;
  let total := maxAddr / PAGE_SIZE_4KB in
  let bitmap_size := u64 (total + 7) / 8 in
  modify (set_total_pages total);;
  fill_bitmap bitmap_size;;
  for_tags fuel tag (free_entry fuel) tt;;
  mark_kernel fuel (u64 (kernel_start - KERNEL_OFFSET)) (u64 (u64 (kernel_end + bitmap_size) - KERNEL_OFFSET)).

End pmm.

(** ** [init_VMM] *)

(** A table is reached at its address in the kernel's half, of which [boot.asm] has
    mapped the first part only. *)
Definition kernel_virt (p : Z) : Z := u64 (p + KERNEL_OFFSET).

Definition kload (va : Z) : M (vmm pmm) Z :=
  guard (boot_mapped va);; gets (fun s => phys s @@ (va - KERNEL_OFFSET)).
Definition kstore (va x : Z) : M (vmm pmm) unit :=
  guard (boot_mapped va);; modify (fun s => Vmm (v_pages s) (<[va - KERNEL_OFFSET := x]> (phys s)) (invlpg s)).

(** [memset(table, 0, PAGE_SIZE_4KB)] *)
Definition kclear_table (table : Z) : M (vmm pmm) unit := for_loop 512 0 (fun i => kstore (elem table i) 0).

(** The block for a missing table. *)
Definition direct_table (e : Z) : M (vmm pmm) unit :=
  v ← kload e;
  when (negb (truthy (Z.land v PTE_PRESENT))) (
    new_table_phys ← zoom l_pages pmm_alloc_page;
    kclear_table (kernel_virt new_table_phys);;
    kstore e (Z.lor new_table_phys (Z.lor PTE_PRESENT PTE_WRITABLE))).

Definition ktable_behind (e : Z) : M (vmm pmm) Z := v ← kload e; mret (kernel_virt (Z.land v PAGE_MASK_4KB)).

(** The body of the loop over the memory. *)
Definition map_direct (pml4 paddr : Z) : M (vmm pmm) unit :=
  let vaddr := u64 (paddr + DIRECT_OFFSET) in
  direct_table (elem pml4 (vidx vaddr 39));;
  pdpt ← ktable_behind (elem pml4 (vidx vaddr 39));
  direct_table (elem pdpt (vidx vaddr 30));;
  pd ← ktable_behind (elem pdpt (vidx vaddr 30));
  kstore (elem pd (vidx vaddr 21)) (Z.lor paddr (Z.lor (Z.lor PTE_PRESENT PTE_WRITABLE) PTE_PAGE_SIZE)).

Fixpoint direct_loop (fuel : nat) (pml4 paddr maxAddr : Z) : M (vmm pmm) unit :=
  if paddr <? maxAddr then
    match fuel with
    | O => fail Hang
    | S fuel' => map_direct pml4 paddr;; direct_loop fuel' pml4 (u64 (paddr + PAGE_SIZE_2MB)) maxAddr
    end
  else mret tt.

Definition vmm_init_direct_mapping (fuel : nat) (maxAddr : Z) : M (vmm pmm) unit :=
  pml4_phys ← zoom l_pages pmm_alloc_page;
  let pml4 := kernel_virt pml4_phys in
  kclear_table pml4;;
  old ← zoom l_pages (read_cr3 l_cpu);
  x ← kload (elem (kernel_virt old) 511);
  kstore (elem pml4 511) x;;
  direct_loop fuel pml4 0 maxAddr;;
  zoom l_pages (write_cr3 l_cpu pml4_phys).

(** Entry 4 of the page attribute table. *)
Definition init_pat : M (gmap Z Z) unit :=
  '(low, high) ← read_msr MSR_IA32_PAT;
  write_msr MSR_IA32_PAT low (Z.lor (Z.land high (2 ^ 32 - 0x100)) 0x06).

(** The memory and the pages, and the model specific registers. *)
Record boot : Type := Boot { b_vmm : vmm pmm; b_msrs : gmap Z Z }.
Definition l_vmm : lens boot (vmm pmm) := Lens b_vmm (fun v s => Boot v (b_msrs s)).
Definition l_msrs : lens boot (gmap Z Z) := Lens b_msrs (fun m s => Boot (b_vmm s) m).

Section init_VMM.
Context (kernel_end : Z).

(** Here the type of an entry is not looked at. *)
Definition max_end (e maxAddr : Z) : M pmm Z :=
  stop ← entry_end kernel_end e; mret (if maxAddr <? stop then stop else maxAddr).

Definition init_VMM (fuel : nat) (bootInfoAddr : Z) : M boot unit :=
  maxAddr ← zoom l_vmm (zoom l_pages (for_tags kernel_end fuel (first_tag bootInfoAddr) max_end 0));
  zoom l_vmm (vmm_init_direct_mapping fuel maxAddr);;
  zoom l_msrs init_pat.
End init_VMM.

(** Both, as [kernel_main] calls them. *)
Definition init_memory (kernel_start kernel_end : Z) (fuel : nat) (physBootInfo : Z) : M boot unit :=
  zoom l_vmm (zoom l_pages (init_PMM kernel_start kernel_end fuel physBootInfo));;
  init_VMM kernel_end fuel physBootInfo.

(** * Specification *)

(** The pages at which a loop over the addresses from [lo] below [hi], page by
    page, looks. *)
Definition spanned (lo hi k : Z) : bool :=
  (lo / PAGE_SIZE_4KB <=? k) && (lo + PAGE_SIZE_4KB * (k - lo / PAGE_SIZE_4KB) <? hi).

Definition available (e : mmap_entry) : bool := e_type e =? MULTIBOOT_MEMORY_AVAILABLE.

(** Above the first MiB, a page is free that an available region spans. *)
Definition free_page (es : list mmap_entry) (k : Z) : bool :=
  existsb (fun e => available e && (0x100000 <=? e_addr e) && spanned (e_addr e) (e_addr e + e_len e) k) es.

(** The end of the available memory, and its number of pages. *)
Definition memory_end (es : list mmap_entry) : Z :=
  foldl (fun m e => if available e then Z.max m (e_addr e + e_len e) else m) 0 es.
Definition memory_pages (es : list mmap_entry) : Z := memory_end es / PAGE_SIZE_4KB.

(** [s'] is [s] with the bits of [P] set to [b], and no other byte changed. *)
Definition painted (P : Z -> bool) (b : bool) (s s' : pmm) : Prop :=
  (forall k, bitmap_test s' k = if P k then b else bitmap_test s k) /\
  (forall c, (forall k, P k = true -> k / 8 <> c) -> bitmap s' @@ c = bitmap s @@ c) /\
  total_pages s' = total_pages s /\ p_cpu s' = p_cpu s /\ pmm_lock s' = pmm_lock s.

Section info.
Context (kernel_start kernel_end : Z).

(** The structures of the boot loader: [boot_tags m lo hi p n es] says that the
    tags from [p] to the last, [n] tags later, lie between [lo] and [hi], and that
    the memory maps among them have the entries [es]. *)
Definition entry_at (m : memory) (p : Z) (e : mmap_entry) : Prop :=
  load64 m (p - kernel_end) = e_addr e /\ load64 m (p + 8 - kernel_end) = e_len e /\ load32 m (p + 16 - kernel_end) = e_type e.

Inductive boot_tags (m : memory) (lo hi : Z) : Z -> nat -> list mmap_entry -> Prop :=
  | boot_end p : lo <= p -> p + 8 <= hi -> load32 m (p - kernel_end) = MULTIBOOT_TAG_TYPE_END -> boot_tags m lo hi p 0 []
  | boot_mmap p n es es' :
      let size := sizeof_tag_mmap + sizeof_mmap_entry * Z.of_nat (length es) in
      lo <= p -> p + size <= hi -> size < 2 ^ 32 ->
      load32 m (p - kernel_end) = MULTIBOOT_TAG_TYPE_MMAP -> load32 m (p + 4 - kernel_end) = size ->
      load32 m (p + 8 - kernel_end) = sizeof_mmap_entry ->
      (forall i e, es !! i = Some e -> entry_at m (p + sizeof_tag_mmap + sizeof_mmap_entry * Z.of_nat i) e) ->
      boot_tags m lo hi (next_tag p size) n es' -> boot_tags m lo hi p (S n) (es ++ es')
  | boot_other p n es :
      lo <= p -> p + 8 <= hi ->
      load32 m (p - kernel_end) <> MULTIBOOT_TAG_TYPE_END -> load32 m (p - kernel_end) <> MULTIBOOT_TAG_TYPE_MMAP ->
      boot_tags m lo hi (next_tag p (load32 m (p + 4 - kernel_end))) n es -> boot_tags m lo hi p (S n) es.

(** The bytes from [lo] below [hi] are the same in two memories. *)
Definition same_info (lo hi : Z) (m m' : memory) : Prop :=
  forall va, lo <= va < hi -> m' @@ (va - kernel_end) = m @@ (va - kernel_end).

(** The physical end of the kernel, which the bitmap is part of, and its pages. *)
Definition kernel_limit (es : list mmap_entry) : Z := kernel_end + (memory_pages es + 7) / 8 - KERNEL_OFFSET.
Definition kernel_page (es : list mmap_entry) (k : Z) : bool := spanned (kernel_start - KERNEL_OFFSET) (kernel_limit es) k.

(** A memory map with which the kernel can start: the information of the boot
    loader and the bitmap are mapped and do not overlap, the kernel is in available
    memory, and the fuel is enough for the tags and for each page. *)
Record bootable (fuel : nat) (bootInfoAddr : Z) (es : list mmap_entry) (s : pmm) : Prop := {
  bo_tags : exists lo hi n, boot_tags (bitmap s) lo hi (first_tag bootInfoAddr) n es /\ (n <= fuel)%nat /\
    KERNEL_OFFSET <= lo /\ hi <= KERNEL_OFFSET + BOOT_MEMORY /\
    (hi <= kernel_end \/ kernel_end + memory_pages es / 8 < lo);
  bo_entries : Forall (fun e => 0 <= e_addr e /\ 0 <= e_len e /\ e_addr e + e_len e < 2 ^ 63) es;
  bo_kernel : KERNEL_OFFSET < kernel_start <= kernel_end;
  bo_bitmap : kernel_end + memory_pages es / 8 < KERNEL_OFFSET + BOOT_MEMORY;
  bo_fits : kernel_limit es <= PAGE_SIZE_4KB * memory_pages es;
  bo_fuel : memory_pages es < Z.of_nat fuel;
}.
End info.

(** * Lemmas *)

(** ** Painting *)

Lemma painted_none P b s : (forall k, P k = false) -> painted P b s s.
Proof. intros HP. split_and!; try done. intros k. by rewrite HP. Qed.

Lemma painted_trans P Q R b s1 s2 s3 : painted P b s1 s2 -> painted Q b s2 s3 -> (forall k, R k = P k || Q k) -> painted R b s1 s3.
Proof.
  intros (HP & HPc & ? & ? & ?) (HQ & HQc & ? & ? & ?) HR. split_and!; try congruence.
  - intros k. rewrite HQ, HP, HR. by destruct (P k), (Q k).
  - intros c Hc. rewrite HQc, HPc; [done | |]; intros k Hk; apply Hc; rewrite HR, Hk; [done | apply orb_true_r].
Qed.

Lemma painted_upd f b bit s :
  (forall z n m, 0 <= n -> Z.testbit (f z n) m = if m =? n then b else Z.testbit z m) ->
  painted (Z.eqb bit) b s (upd_byte f bit s).
Proof.
  intros Hf. split_and!; [| | done..].
  - intros k. rewrite (upd_byte_test f b) by done. destruct (Z.eqb_spec bit k); case_decide; congruence.
  - intros c Hc. cbn. rewrite rd_insert_ne; [done |]. apply Hc, Z.eqb_refl.
Qed.

Lemma wp_paint_clear bit (Q : unit -> pmm -> Prop) s :
  (forall s', painted (Z.eqb bit) false s s' -> Q tt s') -> wp (BITMAP_CLR bit) Q s.
Proof.
  intros HQ. apply wp_modify, HQ. apply (painted_upd (fun z n => Z.land z (Z.lnot (Z.shiftl 1 n)))). intros z n m Hn.
  rewrite Z.shiftl_mul_pow2, Z.mul_1_l by lia. rewrite <- Z.ldiff_land, testbit_clearbit by lia. by destruct (m =? n).
Qed.

Lemma wp_paint_set bit (Q : unit -> pmm -> Prop) s :
  (forall s', painted (Z.eqb bit) true s s' -> Q tt s') -> wp (BITMAP_SET bit) Q s.
Proof.
  intros HQ. apply wp_modify, HQ. apply (painted_upd (fun z n => Z.lor z (Z.shiftl 1 n))). intros z n m Hn.
  rewrite Z.shiftl_mul_pow2, Z.mul_1_l, testbit_setbit by lia. by destruct (m =? n).
Qed.

Lemma spanned_step x hi k : x < hi -> spanned x hi k = (x / PAGE_SIZE_4KB =? k) || spanned (x + PAGE_SIZE_4KB) hi k.
Proof.
  intros Hx. unfold spanned. replace (x + PAGE_SIZE_4KB) with (x + 1 * PAGE_SIZE_4KB) by lia. rewrite Z.div_add by done.
  generalize (x / PAGE_SIZE_4KB). intros q. unfold PAGE_SIZE_4KB. lia.
Qed.

Lemma spanned_done x hi k : hi <= x -> spanned x hi k = false.
Proof. unfold spanned, PAGE_SIZE_4KB. lia. Qed.

Lemma spanned_range x hi k : spanned x hi k = true -> x / PAGE_SIZE_4KB <= k /\ k <= (hi - 1) / PAGE_SIZE_4KB.
Proof.
  unfold spanned. intros [H1%Z.leb_le H2%Z.ltb_lt]%andb_true_iff. split; [done |].
  apply Z.div_le_lower_bound; [done |]. revert H1 H2. generalize (Z.mul_div_le x PAGE_SIZE_4KB eq_refl).
  generalize (x / PAGE_SIZE_4KB). intros q. unfold PAGE_SIZE_4KB. lia.
Qed.

Lemma boot_mapped_true va : KERNEL_OFFSET <= va < KERNEL_OFFSET + BOOT_MEMORY -> boot_mapped va = true.
Proof. intros. unfold boot_mapped. apply andb_true_iff. lia. Qed.

Lemma wp_guard {St} b (Q : unit -> St -> Prop) s : b = true -> Q tt s -> wp (guard b) Q s.
Proof. intros -> HQ. by apply wp_ret. Qed.

(** ** Reading the memory map *)

Section reading.
Context (kernel_start kernel_end : Z).
Implicit Types s : pmm.

Lemma wp_peek n word va (Q : Z -> pmm -> Prop) s : 0 < n -> KERNEL_OFFSET <= va -> va + n <= KERNEL_OFFSET + BOOT_MEMORY ->
  Q (word (bitmap s) (va - kernel_end)) s -> wp (peek kernel_end n word va) Q s.
Proof.
  intros Hn H1 H2 HQ. apply wp_bind, wp_guard; [| by apply wp_gets].
  by rewrite !boot_mapped_true by lia.
Qed.

Section same.
Context (lo hi : Z) (m m' : memory) (Hsame : same_info kernel_end lo hi m m').

Lemma same_load32 va : lo <= va -> va + 4 <= hi -> load32 m' (va - kernel_end) = load32 m (va - kernel_end).
Proof. intros. apply load32_same. intros i Hi. replace (va - kernel_end + i) with (va + i - kernel_end) by lia. apply Hsame. lia. Qed.

Lemma same_load64 va : lo <= va -> va + 8 <= hi -> load64 m' (va - kernel_end) = load64 m (va - kernel_end).
Proof. intros. apply load64_same. intros i Hi. replace (va - kernel_end + i) with (va + i - kernel_end) by lia. apply Hsame. lia. Qed.

Lemma same_entry p e : lo <= p -> p + sizeof_mmap_entry <= hi -> entry_at kernel_end m p e -> entry_at kernel_end m' p e.
Proof.
  unfold entry_at, sizeof_mmap_entry. intros. by rewrite !same_load64, same_load32 by lia.
Qed.
End same.

(** A rule for the loop over the entries of all memory maps: [I es] holds when the
    entries [es] are done. *)
Section rule.
Context {A : Type} (lo hi : Z) (m : memory) (f : Z -> A -> M pmm A) (I : list mmap_entry -> A -> pmm -> Prop).
Hypothesis Hlo : KERNEL_OFFSET <= lo.
Hypothesis Hhi : hi <= KERNEL_OFFSET + BOOT_MEMORY.
Hypothesis Hsame : forall es a s, I es a s -> same_info kernel_end lo hi m (bitmap s).
Context (P : mmap_entry -> Prop).
Hypothesis Hstep : forall es e p a s, I es a s -> lo <= p -> p + sizeof_mmap_entry <= hi -> P e ->
  entry_at kernel_end (bitmap s) p e -> wp (f p a) (fun a' => I (es ++ [e]) a') s.

Lemma wp_entries_loop es done p a s : lo <= p -> p + sizeof_mmap_entry * Z.of_nat (length es) <= hi -> Forall P es ->
  (forall i e, es !! i = Some e -> entry_at kernel_end m (p + sizeof_mmap_entry * Z.of_nat i) e) -> I done a s ->
  wp (entries_loop (length es) p f a) (I (done ++ es)) s.
Proof.
  revert done p a s. induction es as [|e es IH]; intros done p a s Hp Hend HP Hat HI; cbn [length entries_loop].
  - apply wp_ret. by rewrite app_nil_r.
  - apply Forall_cons in HP as [He HP]. cbn in Hend. unfold sizeof_mmap_entry in *. apply wp_bind. eapply wp_mono.
    + apply (Hstep done e); [done.. | unfold sizeof_mmap_entry; lia | done |].
      apply (same_entry lo hi m); [by apply (Hsame done a) | done | unfold sizeof_mmap_entry; lia |].
      specialize (Hat 0%nat e eq_refl). by replace (p + 24 * Z.of_nat 0) with p in Hat by lia.
    + cbv beta. intros a' s' HI'. rewrite (cons_middle e done es), app_assoc. apply IH; [lia.. | done | | done].
      intros i e' Hi. replace (p + 24 + 24 * Z.of_nat i) with (p + 24 * Z.of_nat (S i)) by lia. by apply Hat.
Qed.

Lemma wp_for_tags p n es fuel done a s : boot_tags kernel_end m lo hi p n es -> (n <= fuel)%nat -> Forall P es -> I done a s ->
  wp (for_tags kernel_end fuel p f a) (I (done ++ es)) s.
Proof.
  intros Ht. revert fuel done a s. induction Ht as [p Hp Hq Et|p n es es' size Hp Hq Hsz Et Es Ee Hat Ht IH|p n es Hp Hq Et1 Et2 Ht IH];
    intros fuel done a s Hn HP HI; pose proof (Hsame _ _ _ HI) as Hs.
  - destruct fuel; cbn [for_tags]; apply wp_bind, wp_peek; try lia; rewrite (same_load32 lo hi m), Et by (done || lia);
      apply wp_ret; by rewrite app_nil_r.
  - apply Forall_app in HP as [HP HP']. destruct fuel as [|fuel]; [lia |]. unfold sizeof_tag_mmap, sizeof_mmap_entry in *. cbn [for_tags].
    apply wp_bind, wp_peek; [lia.. |]. rewrite (same_load32 lo hi m), Et by (done || lia). cbn [Z.eqb MULTIBOOT_TAG_TYPE_END MULTIBOOT_TAG_TYPE_MMAP Pos.eqb].
    apply wp_bind. unfold for_entries. apply wp_bind, wp_peek; [lia.. |]. rewrite (same_load32 lo hi m), Es by (done || lia).
    apply wp_bind, wp_peek; [lia.. |]. rewrite (same_load32 lo hi m), Ee by (done || lia).
    apply wp_bind, wp_guard; [done |]. unfold sizeof_tag_mmap. replace (size - 16) with (Z.of_nat (length es) * 24) by (unfold size; lia).
    rewrite u64_small, Z.div_mul, Nat2Z.id by lia. eapply wp_mono; [by apply (wp_entries_loop es done); [unfold sizeof_mmap_entry; lia.. | | |] |].
    cbv beta. intros a' s' HI'. pose proof (Hsame _ _ _ HI') as Hs'. apply wp_bind, wp_peek; [lia.. |].
    rewrite (same_load32 lo hi m), Es by (done || lia). rewrite app_assoc. apply IH; [lia | done | done].
  - destruct fuel as [|fuel]; [lia |]. cbn [for_tags]. apply wp_bind, wp_peek; [lia.. |].
    rewrite (same_load32 lo hi m), !(proj2 (Z.eqb_neq _ _)) by (done || lia). apply wp_bind, wp_ret, wp_bind, wp_peek; [lia.. |].
    rewrite (same_load32 lo hi m) by (done || lia). apply IH; [lia | done | done].
Qed.
End rule.

Lemma wp_entry_end p e (Q : Z -> pmm -> Prop) s : KERNEL_OFFSET <= p -> p + sizeof_mmap_entry <= KERNEL_OFFSET + BOOT_MEMORY ->
  entry_at kernel_end (bitmap s) p e -> Q (u64 (e_addr e + e_len e)) s -> wp (entry_end kernel_end p) Q s.
Proof.
  unfold sizeof_mmap_entry. intros H1 H2 (Ha & Hl & _) HQ. apply wp_bind, wp_peek; [lia.. |]. apply wp_bind, wp_peek; [lia.. |].
  apply wp_ret. by rewrite Ha, Hl.
Qed.

Lemma wp_max_available p e maxAddr s : KERNEL_OFFSET <= p -> p + sizeof_mmap_entry <= KERNEL_OFFSET + BOOT_MEMORY ->
  0 <= e_addr e -> 0 <= e_len e -> e_addr e + e_len e < 2 ^ 63 -> entry_at kernel_end (bitmap s) p e ->
  wp (max_available kernel_end p maxAddr) (fun r s' => s' = s /\ r = if available e then Z.max maxAddr (e_addr e + e_len e) else maxAddr) s.
Proof.
  intros H1 H2 Ha Hl He Hat. pose proof Hat as (_ & _ & Ht). unfold sizeof_mmap_entry in *. apply wp_bind, wp_peek; [lia.. |]. rewrite Ht.
  unfold available. destruct (e_type e =? MULTIBOOT_MEMORY_AVAILABLE); [| by apply wp_ret].
  apply wp_bind. apply (wp_entry_end p e); [done.. |]. rewrite u64_small by lia. apply wp_ret. split; [done |].
  destruct (Z.ltb_spec maxAddr (e_addr e + e_len e)); lia.
Qed.

(** ** Marking pages *)

Lemma wp_touch bit (Q : unit -> pmm -> Prop) s : KERNEL_OFFSET <= kernel_end -> 0 <= bit -> kernel_end + bit / 8 < KERNEL_OFFSET + BOOT_MEMORY ->
  Q tt s -> wp (touch kernel_end bit) Q s.
Proof. intros. apply wp_guard; [| done]. apply boot_mapped_true. pose proof (Z.div_pos bit 8). lia. Qed.

(** Pages the bits of which are in a bitmap for memory up to [top]. *)
Definition in_bitmap (top : Z) : Prop := KERNEL_OFFSET <= kernel_end /\ kernel_end + top / PAGE_SIZE_4KB / 8 < KERNEL_OFFSET + BOOT_MEMORY.

Lemma page_in_bitmap top x : in_bitmap top -> 0 <= x <= top -> kernel_end + x / PAGE_SIZE_4KB / 8 < KERNEL_OFFSET + BOOT_MEMORY.
Proof.
  intros [_ H] Hx. pose proof (Z.div_le_mono x top PAGE_SIZE_4KB eq_refl ltac:(lia)).
  pose proof (Z.div_le_mono (x / PAGE_SIZE_4KB) (top / PAGE_SIZE_4KB) 8 eq_refl ltac:(lia)). lia.
Qed.

Lemma wp_clear_pages fuel p e x top s :
  KERNEL_OFFSET <= p -> p + sizeof_mmap_entry <= KERNEL_OFFSET + BOOT_MEMORY -> entry_at kernel_end (bitmap s) p e ->
  0 <= x -> 0 <= e_addr e -> 0 <= e_len e -> e_addr e + e_len e <= top < 2 ^ 63 -> in_bitmap top ->
  e_addr e + e_len e - x <= PAGE_SIZE_4KB * Z.of_nat fuel ->
  p + sizeof_mmap_entry <= kernel_end \/ kernel_end + top / PAGE_SIZE_4KB / 8 < p ->
  wp (clear_pages kernel_end fuel p x) (fun _ => painted (spanned x (e_addr e + e_len e)) false s) s.
Proof.
  intros Hp Hp' Hat Hx Ha Hl Htop Hbm Hf Hdisj. revert x s Hat Hx Hf. induction fuel as [|fuel IH]; intros x s Hat Hx Hf; cbn [clear_pages];
    (apply wp_bind, (wp_entry_end p e); [done.. |]); rewrite u64_small by lia; destruct (Z.ltb_spec x (e_addr e + e_len e)) as [Hlt|Hge].
  - unfold PAGE_SIZE_4KB in Hf. lia.
  - apply wp_ret, painted_none. intros k. by apply spanned_done.
  - pose proof (Z.div_pos x PAGE_SIZE_4KB ltac:(lia) eq_refl). apply wp_bind, wp_touch; [apply Hbm | lia | by apply (page_in_bitmap top); [| lia] |].
    apply wp_bind, wp_paint_clear. intros s1 H1. unfold PAGE_SIZE_4KB in Hf. rewrite u64_small by (unfold PAGE_SIZE_4KB; lia).
    eapply wp_mono; [apply IH |].
    + apply (same_entry p (p + sizeof_mmap_entry) (bitmap s)); [| lia | lia | done]. intros va Hva.
      destruct H1 as (_ & H1 & _). apply H1. intros k Hk%Z.eqb_eq. subst k.
      pose proof (Z.div_le_mono x top PAGE_SIZE_4KB eq_refl ltac:(lia)).
      pose proof (Z.div_le_mono (x / PAGE_SIZE_4KB) (top / PAGE_SIZE_4KB) 8 eq_refl ltac:(lia)). pose proof (Z.div_pos (x / PAGE_SIZE_4KB) 8 ltac:(lia) eq_refl). lia.
    + unfold PAGE_SIZE_4KB. lia.
    + unfold PAGE_SIZE_4KB in *. lia.
    + intros [] s2 Hs2. eapply painted_trans; [exact H1 | exact Hs2 |]. intros k. by apply spanned_step.
  - apply wp_ret, painted_none. intros k. by apply spanned_done.
Qed.

Lemma wp_mark_kernel fuel x stop top s : 0 <= x -> stop <= top < 2 ^ 63 -> in_bitmap top -> stop - x <= PAGE_SIZE_4KB * Z.of_nat fuel ->
  wp (mark_kernel kernel_end fuel x stop) (fun _ => painted (spanned x stop) true s) s.
Proof.
  intros Hx Hstop Hbm. revert x s Hx. induction fuel as [|fuel IH]; intros x s Hx Hf; cbn [mark_kernel]; destruct (Z.ltb_spec x stop) as [Hlt|Hge].
  - unfold PAGE_SIZE_4KB in Hf. lia.
  - apply wp_ret, painted_none. intros k. by apply spanned_done.
  - pose proof (Z.div_pos x PAGE_SIZE_4KB ltac:(lia) eq_refl). apply wp_bind, wp_touch; [apply Hbm | lia | by apply (page_in_bitmap top); [| lia] |].
    apply wp_bind, wp_paint_set. intros s1 H1. unfold PAGE_SIZE_4KB in Hf. rewrite u64_small by (unfold PAGE_SIZE_4KB; lia).
    eapply wp_mono; [apply IH; unfold PAGE_SIZE_4KB; lia |].
    intros [] s2 Hs2. eapply painted_trans; [exact H1 | exact Hs2 |]. intros k. by apply spanned_step.
  - apply wp_ret, painted_none. intros k. by apply spanned_done.
Qed.
End reading.

(** ** The whole of [init_PMM] *)

Definition entry_ok (top : Z) (e : mmap_entry) : Prop :=
  0 <= e_addr e /\ 0 <= e_len e /\ e_addr e + e_len e < 2 ^ 63 /\ (available e = true -> e_addr e + e_len e <= top).

Lemma memory_end_mono f m es : (forall m e, f m e = (if available e then Z.max m (e_addr e + e_len e) else m)) ->
  m <= foldl f m es /\ Forall (fun e => available e = true -> e_addr e + e_len e <= foldl f m es) es.
Proof.
  intros Hf. revert m. induction es as [|e es IH]; intros m; [by split |]. cbn. destruct (IH (f m e)) as [Hm Hes].
  assert (m <= f m e /\ (available e = true -> e_addr e + e_len e <= f m e)) as [H1 H2] by (rewrite Hf; destruct (available e); split; intros; lia || done).
  split; [lia |]. constructor; [intros Ha; specialize (H2 Ha); lia | done].
Qed.

Lemma memory_end_nonneg es : 0 <= memory_end es.
Proof. by apply (memory_end_mono _ 0 es). Qed.

Lemma memory_end_app es e : memory_end (es ++ [e]) = if available e then Z.max (memory_end es) (e_addr e + e_len e) else memory_end es.
Proof. unfold memory_end. by rewrite foldl_app. Qed.

Lemma memory_end_small es : Forall (fun e => 0 <= e_addr e /\ 0 <= e_len e /\ e_addr e + e_len e < 2 ^ 63) es -> memory_end es < 2 ^ 63.
Proof.
  induction es as [|e es IH] using rev_ind; [done |]. intros [Hes [He _]%Forall_cons]%Forall_app. rewrite memory_end_app.
  specialize (IH Hes). destruct (available e); lia.
Qed.

Lemma entries_ok es : Forall (fun e => 0 <= e_addr e /\ 0 <= e_len e /\ e_addr e + e_len e < 2 ^ 63) es -> Forall (entry_ok (memory_end es)) es.
Proof.
  intros Hes. destruct (memory_end_mono _ 0 es (fun _ _ => eq_refl)) as [_ Htop].
  apply Forall_forall. intros e He. rewrite Forall_forall in Hes, Htop. destruct (Hes e He) as (? & ? & ?). split_and!; [done.. |]. by apply Htop.
Qed.

Lemma free_page_range top es k : Forall (entry_ok top) es -> free_page es k = true -> 0 <= k <= top / PAGE_SIZE_4KB.
Proof.
  intros Hes (e & He & H)%existsb_exists. rewrite Forall_forall in Hes. apply list_elem_of_In in He.
  destruct (Hes e He) as (Ha & Hl & _ & Htop).
  apply andb_true_iff in H as [[Hav _]%andb_true_iff H%spanned_range]. specialize (Htop Hav).
  pose proof (Z.div_pos (e_addr e) PAGE_SIZE_4KB Ha eq_refl).
  pose proof (Z.div_le_mono (e_addr e + e_len e - 1) top PAGE_SIZE_4KB eq_refl ltac:(lia)). lia.
Qed.

Lemma free_page_app es e k : free_page (es ++ [e]) k =
  free_page es k || available e && (0x100000 <=? e_addr e) && spanned (e_addr e) (e_addr e + e_len e) k.
Proof. unfold free_page. rewrite existsb_app. cbn. by rewrite orb_false_r. Qed.

Section init_PMM.
Context (kernel_start kernel_end : Z).
Implicit Types s : pmm.

Lemma painted_same_info lo hi top P b s s' : (hi <= kernel_end \/ kernel_end + top / 8 < lo) ->
  (forall k, P k = true -> 0 <= k <= top) -> painted P b s s' -> same_info kernel_end lo hi (bitmap s) (bitmap s').
Proof.
  intros Hd HP (_ & H & _) va Hva. apply H. intros k Hk%HP.
  pose proof (Z.div_pos k 8 ltac:(lia) eq_refl). pose proof (Z.div_le_mono k top 8 eq_refl ltac:(lia)). lia.
Qed.

Lemma wp_free_entry fuel p e top s : KERNEL_OFFSET <= p -> p + sizeof_mmap_entry <= KERNEL_OFFSET + BOOT_MEMORY ->
  entry_at kernel_end (bitmap s) p e -> entry_ok top e -> top < 2 ^ 63 -> in_bitmap kernel_end top -> top <= PAGE_SIZE_4KB * Z.of_nat fuel ->
  p + sizeof_mmap_entry <= kernel_end \/ kernel_end + top / PAGE_SIZE_4KB / 8 < p ->
  wp (free_entry kernel_end fuel p tt) (fun _ =>
    painted (fun k => available e && (0x100000 <=? e_addr e) && spanned (e_addr e) (e_addr e + e_len e) k) false s) s.
Proof.
  intros Hp Hp' Hat (Ha & Hl & He & Htop) Ht Hbm Hf Hd. pose proof Hat as (Ea & _ & Et). unfold sizeof_mmap_entry in *.
  apply wp_bind, wp_peek; [lia.. |]. rewrite Et. unfold available in *. destruct (e_type e =? MULTIBOOT_MEMORY_AVAILABLE); [| by apply wp_ret, painted_none].
  specialize (Htop eq_refl). apply wp_bind, wp_peek; [lia.. |]. rewrite Ea. apply wp_when; intros ->; [| by apply painted_none].
  by apply (wp_clear_pages _ fuel p e _ top); unfold sizeof_mmap_entry; try lia.
Qed.

Lemma boot_tags_same lo hi m m' p n es : same_info kernel_end lo hi m m' -> boot_tags kernel_end m lo hi p n es -> boot_tags kernel_end m' lo hi p n es.
Proof.
  intros Hs Ht. induction Ht as [p Hp Hq Et|p n es' es'' sz Hp Hq Hsz Et Es Ee Hat Ht IH|p n es' Hp Hq Et1 Et2 Ht IH].
  - apply boot_end; [done.. |]. by rewrite (same_load32 _ _ _ _ _ Hs) by lia.
  - unfold sz, sizeof_tag_mmap, sizeof_mmap_entry in *.
    apply boot_mmap; unfold sizeof_tag_mmap, sizeof_mmap_entry; rewrite ?(same_load32 _ _ _ _ _ Hs) by lia; try done.
    intros i e Hi. pose proof (lookup_lt_Some _ _ _ Hi). apply (same_entry _ _ _ _ _ Hs); [lia | unfold sizeof_mmap_entry; lia | by apply Hat].
  - apply boot_other; rewrite ?(same_load32 _ _ _ _ _ Hs) by lia; done.
Qed.

Lemma wp_find_end fuel p n es lo hi s : boot_tags kernel_end (bitmap s) lo hi p n es -> (n <= fuel)%nat ->
  KERNEL_OFFSET <= lo -> hi <= KERNEL_OFFSET + BOOT_MEMORY ->
  Forall (fun e => 0 <= e_addr e /\ 0 <= e_len e /\ e_addr e + e_len e < 2 ^ 63) es ->
  wp (for_tags kernel_end fuel p (max_available kernel_end) 0) (fun r s' => s' = s /\ r = memory_end es) s.
Proof.
  intros Ht Hn Hlo Hhi Hes.
  apply (wp_for_tags kernel_end lo hi (bitmap s) _ (fun es a s' => s' = s /\ a = memory_end es) Hlo Hhi) with
    (P := fun e => 0 <= e_addr e /\ 0 <= e_len e /\ e_addr e + e_len e < 2 ^ 63) (done := []) (n := n); try done.
  - by intros _ _ s' [-> _].
  - intros es' e q a s' [-> ->] Hq Hq' (Ha & Hl & He) Hat. eapply wp_mono; [apply (wp_max_available _ q e); [lia | lia | done..] |].
    intros r s' [-> ->]. split; [done |]. by rewrite memory_end_app.
Qed.

Lemma wp_free_entries fuel p n es lo hi s : boot_tags kernel_end (bitmap s) lo hi p n es -> (n <= fuel)%nat ->
  KERNEL_OFFSET <= lo -> hi <= KERNEL_OFFSET + BOOT_MEMORY -> Forall (entry_ok (memory_end es)) es -> memory_end es < 2 ^ 63 ->
  in_bitmap kernel_end (memory_end es) -> memory_end es <= PAGE_SIZE_4KB * Z.of_nat fuel ->
  hi <= kernel_end \/ kernel_end + memory_pages es / 8 < lo ->
  wp (for_tags kernel_end fuel p (free_entry kernel_end fuel) tt) (fun _ => painted (free_page es) false s) s.
Proof.
  intros Ht Hn Hlo Hhi Hes Htop Hbm Hf Hd.
  eapply wp_mono; [eapply (wp_for_tags kernel_end lo hi (bitmap s) _ (fun done _ s' => Forall (entry_ok (memory_end es)) done /\ painted (free_page done) false s s') Hlo Hhi) with
    (P := entry_ok (memory_end es)) (done := []); [| | exact Ht | done | done |] |].
  - intros done _ s' [Hok Hp]. eapply (painted_same_info lo hi (memory_pages es)); [done | | exact Hp].
    intros k. by apply free_page_range.
  - intros done e q [] s' [Hok Hp] Hq Hq' He Hat. eapply wp_mono; [apply (wp_free_entry fuel q e (memory_end es)); [lia | lia | done.. |] |].
    { destruct Hd; [left; lia | right; unfold memory_pages in *; lia]. }
    intros [] s2 Hs2. split; [apply Forall_app; split; [done | by constructor] |].
    eapply painted_trans; [exact Hp | exact Hs2 |]. intros k. apply free_page_app.
  - split; [done |]. by apply painted_none.
  - by intros [] s' [_ H].
Qed.

(** [memset] sets all the bits, and no byte outside. *)
Lemma filled_bit size s k : 0 <= k < 8 * size -> bitmap_test (set_bitmap (memset (Z.to_nat size) 0 0xFF (bitmap s)) s) k = true.
Proof.
  intros Hk. rewrite bitmap_test_testbit. cbn [set_bitmap bitmap]. rewrite memset_spec.
  rewrite decide_True by (clear -Hk; dlia). change (u8 255) with (Z.ones 8). apply Z.ones_spec_low. clear -Hk. dlia.
Qed.

Lemma wp_fill_bitmap size (Q : unit -> pmm -> Prop) s : KERNEL_OFFSET <= kernel_end -> kernel_end + size <= KERNEL_OFFSET + BOOT_MEMORY -> 0 <= size ->
  Q tt (set_bitmap (memset (Z.to_nat size) 0 0xFF (bitmap s)) s) -> wp (fill_bitmap kernel_end size) Q s.
Proof.
  intros H1 H2 Hs HQ. apply wp_bind, wp_guard; [| by apply wp_modify]. destruct (Z.eqb_spec size 0); [done |].
  by rewrite !boot_mapped_true by lia.
Qed.

(** What [init_PMM] leaves. *)
Definition pmm_initialised (es : list mmap_entry) (s s' : pmm) : Prop :=
  total_pages s' = memory_pages es /\ p_cpu s' = p_cpu s /\ pmm_lock s' = pmm_lock s /\
  (forall k, 0 <= k < memory_pages es -> bitmap_test s' k = negb (free_page es k) || kernel_page kernel_start kernel_end es k) /\
  (forall c, c < 0 \/ memory_pages es / 8 < c -> bitmap s' @@ c = bitmap s @@ c).

Lemma wp_init_PMM fuel bootInfoAddr es s : bootable kernel_start kernel_end fuel bootInfoAddr es s ->
  wp (init_PMM kernel_start kernel_end fuel bootInfoAddr) (fun _ => pmm_initialised es s) s.
Proof.
  intros [(lo & hi & n & Ht & Hn & Hlo & Hhi & Hd) Hes Hk Hbm Hfit Hfuel].
  pose proof (memory_end_nonneg es) as Hpos. pose proof (memory_end_small es Hes) as Htop. pose proof (entries_ok es Hes) as Hok.
  assert (memory_end es < PAGE_SIZE_4KB * (memory_pages es + 1) /\ 0 <= memory_pages es < 2 ^ 51) as [Hpg Hpr]
    by (clear -Hpos Htop; unfold memory_pages, PAGE_SIZE_4KB; dlia).
  assert (kernel_limit kernel_end es <= memory_end es) as Hfit' by (clear -Hfit; unfold memory_pages, PAGE_SIZE_4KB in *; dlia).
  assert (memory_end es <= PAGE_SIZE_4KB * Z.of_nat fuel) as Hf by (clear -Hpg Hfuel; unfold PAGE_SIZE_4KB in *; lia).
  assert (in_bitmap kernel_end (memory_end es)) as Hin by (split; [lia | exact Hbm]).
  unfold init_PMM. cbv zeta. apply wp_bind. eapply wp_mono; [by apply (wp_find_end _ _ n es lo hi) |]. intros m s' [-> ->].
  change (memory_end es / PAGE_SIZE_4KB) with (memory_pages es). apply wp_bind, wp_modify. rewrite (u64_small (memory_pages es + 7)) by lia.
  set (size := (memory_pages es + 7) / 8). assert (0 <= size <= memory_pages es / 8 + 1 /\ memory_pages es <= 8 * size) as [Hsize Hsize8] by (clear -Hpr; unfold size; dlia).
  set (s0 := set_total_pages (memory_pages es) s). apply wp_bind, wp_fill_bitmap; [lia.. |]. set (s1 := set_bitmap _ s0).
  assert (forall c, c < 0 \/ memory_pages es / 8 < c -> bitmap s1 @@ c = bitmap s @@ c) as Hframe.
  { intros c Hc. cbn [s1 set_bitmap bitmap]. rewrite memset_spec, decide_False by lia. done. }
  apply wp_bind. eapply wp_mono; [apply (wp_free_entries fuel _ n es lo hi); [| done..] |].
  { apply (boot_tags_same _ _ (bitmap s)); [| done]. intros va Hva. apply Hframe. lia. }
  intros [] s2 Hs2. rewrite (u64_small (kernel_end + size)), !u64_small by (unfold BOOT_MEMORY, KERNEL_OFFSET, PAGE_SIZE_2MB in *; lia).
  change (kernel_end + size - KERNEL_OFFSET) with (kernel_limit kernel_end es).
  eapply wp_mono; [apply (wp_mark_kernel kernel_end fuel _ _ (memory_end es)); [lia | lia | done | lia] |].
  intros [] s3 Hs3. destruct Hs2 as (B2 & F2 & T2 & C2 & L2), Hs3 as (B3 & F3 & T3 & C3 & L3). split_and!; [by rewrite T3, T2 | by rewrite C3, C2 | by rewrite L3, L2 | |].
  - intros k Hkr. rewrite B3, B2. unfold kernel_page. unfold s1. rewrite filled_bit by lia.
    by destruct (spanned _ _ k), (free_page es k).
  - intros c Hc. rewrite F3, F2; [by apply Hframe | |]; intros k Hkp.
    + apply (free_page_range _ _ _ Hok) in Hkp. clear -Hkp Hc Hpr. fold (memory_pages es) in Hkp.
      pose proof (Z.div_le_mono k (memory_pages es) 8 eq_refl ltac:(lia)). pose proof (Z.div_pos k 8 ltac:(lia) eq_refl). lia.
    + apply spanned_range in Hkp as [Hk1 Hk2]. pose proof (Z.div_pos (kernel_start - KERNEL_OFFSET) PAGE_SIZE_4KB ltac:(lia) eq_refl).
      pose proof (Z.div_le_mono (kernel_limit kernel_end es - 1) (memory_end es) PAGE_SIZE_4KB eq_refl ltac:(lia)). fold (memory_pages es) in H0.
      pose proof (Z.div_le_mono k (memory_pages es) 8 eq_refl ltac:(lia)). pose proof (Z.div_pos k 8 ltac:(lia) eq_refl). lia.
Qed.
End init_PMM.

(** ** Tables in low memory *)

Definition BOOT_PAGES : Z := BOOT_MEMORY / PAGE_SIZE_4KB.

(** The tables under [root] are all in the memory that is mapped at boot. *)
Definition low_tables (m : gmap Z Z) (root : Z) : Prop :=
  forall q b, valid_path 3 q -> walk m root q = Some b -> b < BOOT_MEMORY.

(** The lowest free page is taken, and it is in that memory. *)
Definition took (k : Z) (a a' : pmm) : Prop :=
  0 < k < BOOT_PAGES /\ bitmap_test a k = false /\ k < total_pages a /\ marked (fun j => j = k) true a a'.

(** The free pages there. *)
Definition low_left (a : pmm) : Z := free_count (Z.to_nat (Z.min (total_pages a) BOOT_PAGES)) a.

Lemma kernel_virt_elem k i : 0 < k < BOOT_PAGES -> 0 <= i < 512 ->
  elem (kernel_virt (k * PAGE_SIZE_4KB)) i = KERNEL_OFFSET + (k * PAGE_SIZE_4KB + 8 * i) /\
  boot_mapped (elem (kernel_virt (k * PAGE_SIZE_4KB)) i) = true.
Proof.
  intros Hk Hi. assert (BOOT_PAGES = 2 ^ 15) as E by done. assert (BOOT_MEMORY = 2 ^ 27) as E' by done.
  unfold elem, kernel_virt. rewrite (u64_small (_ + KERNEL_OFFSET)) by (unfold PAGE_SIZE_4KB, KERNEL_OFFSET; lia).
  rewrite u64_small by (unfold PAGE_SIZE_4KB, KERNEL_OFFSET; lia). split; [lia |].
  apply boot_mapped_true. unfold PAGE_SIZE_4KB. lia.
Qed.

Lemma boot_page k : 0 < k < BOOT_PAGES -> 0 < k < 2 ^ 35.
Proof. assert (BOOT_PAGES = 2 ^ 15) as -> by done. lia. Qed.

Lemma kload_direct k i s : 0 < k < BOOT_PAGES -> 0 <= i < 512 ->
  kload (elem (kernel_virt (k * PAGE_SIZE_4KB)) i) s = load (elem (direct (k * PAGE_SIZE_4KB)) i) s.
Proof.
  intros Hk Hi. destruct (kernel_virt_elem k i Hk Hi) as [E B]. unfold kload, guard, load. rewrite B.
  unfold mbind, M_bind, mret, M_ret, gets. rewrite E, elem_direct by (done || by apply boot_page). by rewrite Z.add_simpl_l.
Qed.

Lemma kstore_direct k i x s : 0 < k < BOOT_PAGES -> 0 <= i < 512 ->
  kstore (elem (kernel_virt (k * PAGE_SIZE_4KB)) i) x s = store (elem (direct (k * PAGE_SIZE_4KB)) i) x s.
Proof.
  intros Hk Hi. destruct (kernel_virt_elem k i Hk Hi) as [E B]. unfold kstore, guard, store. rewrite B.
  unfold mbind, M_bind, mret, M_ret, modify. rewrite E, elem_direct by (done || by apply boot_page). by rewrite Z.add_simpl_l.
Qed.

Lemma for_loop_ext {St} n i (f g : Z -> M St unit) s : (forall k s, i <= k < i + Z.of_nat n -> f k s = g k s) -> for_loop n i f s = for_loop n i g s.
Proof.
  revert i s. induction n as [|n IH]; intros i s H; [done |].
  change ((f i;; for_loop n (i + 1) f) s = (g i;; for_loop n (i + 1) g) s). unfold mbind, M_bind.
  rewrite H by lia. destruct (g i s) as [[[] s']|]; [| done]. apply IH. intros k t Hk. apply H. lia.
Qed.

Lemma kclear_direct k s : 0 < k < BOOT_PAGES -> kclear_table (kernel_virt (k * PAGE_SIZE_4KB)) s = clear_table (direct (k * PAGE_SIZE_4KB)) s.
Proof. intros Hk. unfold kclear_table, clear_table. apply for_loop_ext. intros i t Hi. by apply kstore_direct. Qed.

(** The same through the direct mapping. *)
Lemma direct_table_eq k i s : 0 < k < BOOT_PAGES -> 0 <= i < 512 ->
  (forall r a, pmm_alloc_page (v_pages s) = Ok (r, a) -> exists k, r = k * PAGE_SIZE_4KB /\ 0 < k < BOOT_PAGES) ->
  direct_table (elem (kernel_virt (k * PAGE_SIZE_4KB)) i) s = ensure_table PTE_WRITABLE (elem (direct (k * PAGE_SIZE_4KB)) i) s.
Proof.
  intros Hk Hi Hlow. unfold direct_table, ensure_table, mbind, M_bind. rewrite kload_direct by done. unfold load at 1 2, gets.
  destruct (negb _); [| done]. cbn [when]. unfold mbind, M_bind, zoom. cbn [view l_pages v_pages alloc_page pmm_page_alloc].
  destruct (pmm_alloc_page (v_pages s)) as [[r a]|] eqn:E; [| done]. destruct (Hlow r a eq_refl) as (k' & -> & Hk').
  rewrite kclear_direct by done. destruct (clear_table _ _) as [[[] s']|]; [| done]. by apply kstore_direct.
Qed.

Lemma pages_pos n s : 0 < free_count n s -> exists j, 0 <= j < Z.of_nat n /\ bitmap_test s j = false.
Proof.
  induction n as [|n IH]; cbn [free_count]; [lia |]. destruct (bitmap_test s (Z.of_nat n)) eqn:E.
  - intros (j & Hj & Hf)%IH. exists j. split; [lia | done].
  - intros _. exists (Z.of_nat n). split; [lia | done].
Qed.

Lemma low_left_pages a : 0 <= low_left a <= free_pages a.
Proof.
  split; [apply free_count_nonneg |]. unfold low_left, free_pages. assert (forall n m, (n <= m)%nat -> free_count n a <= free_count m a) as H.
  { intros n m. induction 1 as [|m _ IH]; [done |]. cbn [free_count]. destruct (bitmap_test _ _); lia. }
  apply H. lia.
Qed.

Lemma took_left k a a' : took k a a' -> low_left a' = low_left a - 1.
Proof.
  intros (Hk & Hf & Ht & Hm). unfold low_left. pose proof Hm as (_ & _ & -> & _).
  rewrite (free_count_flip _ k true a) by (done || lia). rewrite decide_True by lia. lia.
Qed.

Lemma wp_take a (Q : Z -> pmm -> Prop) : pmm_ok a -> 0 < low_left a ->
  (forall k a', took k a a' -> pmm_ok a' -> Q (k * PAGE_SIZE_4KB) a') -> wp pmm_alloc_page Q a.
Proof.
  intros Hok Hl HQ. apply pages_pos in Hl as (j & Hj & Hfree). rewrite Z2Nat.id in Hj by lia.
  pose proof (wp_alloc_page a Hok) as H1. pose proof Hok as (Hlk & Htot & H0).
  pose proof (wp_pmm_alloc_page a Hlk ltac:(lia)) as H2. eapply wp_mono; [exact (wp_and _ _ _ _ H1 H2) |]. clear H1 H2.
  intros r a' [[Hok' _] [(k & Hk & -> & Hkf & Hlow & Hm)|(_ & _ & Hall)]]; [| rewrite Hall in Hfree by lia; done].
  apply HQ; [| done]. refine (conj _ (conj Hkf (conj (proj2 Hk) Hm))). destruct (Z.eq_dec k 0); [congruence |].
  destruct (Z.lt_ge_cases j k); [rewrite Hlow in Hfree by lia; done | lia].
Qed.

(** What [direct_table] does to the pages and to the entry. *)
Lemma ensure_took kb i s : 0 < kb < 2 ^ 35 -> 0 <= i < 512 -> pmm_ok (v_pages s) -> 0 < low_left (v_pages s) ->
  wp (ensure_table PTE_WRITABLE (elem (direct (kb * PAGE_SIZE_4KB)) i)) (fun _ s' =>
    if present (phys s @@ (kb * PAGE_SIZE_4KB + 8 * i)) then s' = s
    else exists k, took k (v_pages s) (v_pages s') /\
      next_table (phys s') (kb * PAGE_SIZE_4KB) i = Some (k * PAGE_SIZE_4KB)) s.
Proof.
  intros Hkb Hi Hok Hl. apply wp_bind, wp_load_elem; [done.. |]. rewrite land_present.
  destruct (present _) eqn:Ep; [by apply wp_ret |]. cbn [negb]. apply wp_bind, wp_zoom, wp_take; [done.. |].
  intros k a' Htk Hok'. assert (0 < k < 2 ^ 35) as Hk by (by apply boot_page, Htk).
  apply wp_bind, wp_clear_table; [done |]. intros z _ _. cbn [truthy]. apply wp_store_elem; [done.. |].
  exists k. split; [done |]. unfold next_table. cbn [with_phys phys]. rewrite rd_insert_eq.
  rewrite mask_lor_flags, mask_page by (done || lia).
  assert (forall x, present (Z.lor x (Z.lor PTE_PRESENT PTE_WRITABLE)) = true) as -> by (intros x; unfold present; rewrite Z.lor_spec; apply orb_true_r).
  assert (huge (Z.lor (k * PAGE_SIZE_4KB) (Z.lor PTE_PRESENT PTE_WRITABLE)) = false) as ->; [| done].
  unfold huge. rewrite Z.lor_spec. change PAGE_SIZE_4KB with (2 ^ 12). by rewrite Z.mul_pow2_bits, Z.testbit_neg_r by lia.
Qed.

(** ** One level, and one large page *)

(** Pages are only taken. *)
Definition only_taken (a a' : pmm) : Prop :=
  p_cpu a' = p_cpu a /\ total_pages a' = total_pages a /\ forall k, bitmap_test a k = true -> bitmap_test a' k = true.

#[export] Instance only_taken_preorder : PreOrder only_taken.
Proof.
  split; [by intros a |]. intros a b c (E1 & E2 & H1) (E3 & E4 & H2). split_and!; [congruence.. |]. auto.
Qed.

Lemma took_only k a a' : took k a a' -> only_taken a a'.
Proof.
  intros (_ & _ & _ & Hat & Ho & ? & ? & _). split_and!; [done.. |]. intros j Hj.
  destruct (decide (j = k)) as [->|]; [by apply Hat | by rewrite Ho].
Qed.

Lemma wp_eq {St A} (m m' : M St A) (Q : A -> St -> Prop) s : m s = m' s -> wp m' Q s -> wp m Q s.
Proof. unfold wp. by intros ->. Qed.

(** Tables that a level costs. *)
Definition level_cost (w : option Z) : Z := match w with Some _ => 0 | None => 1 end.

Lemma low_page k : k * PAGE_SIZE_4KB < BOOT_MEMORY <-> k < BOOT_PAGES.
Proof. assert (BOOT_MEMORY = BOOT_PAGES * PAGE_SIZE_4KB) as -> by done. unfold PAGE_SIZE_4KB. lia. Qed.

Section level.
Context (root : Z).
Implicit Types s : vmm pmm.

Lemma vpath_prefix v p i rest : vpath v = p ++ i :: rest -> (length p <= 2)%nat -> valid_path 2 p /\ valid_path 3 p /\ 0 <= i < 512 /\ rest <> [].
Proof.
  intros Hpath Hlen. pose proof (vpath_valid v) as Hv. rewrite Hpath in Hv. pose proof (valid_path_index _ _ _ _ Hv).
  assert (valid_path 2 p) as Hp by (destruct Hv as [_ [? _]%Forall_app]; by split).
  split; [done |]. split; [by apply (valid_path_le 2); [lia |] |]. split; [done |]. by apply (through_rest p i rest v).
Qed.

Lemma wp_direct_level {A} vaddr s0 p b i rest (f : Z -> M (vmm pmm) A) Q s :
  prepared PTE_WRITABLE root vaddr p b s0 s -> low_tables (phys s) root -> 0 < low_left (v_pages s) ->
  vpath vaddr = p ++ i :: rest -> (length p <= 2)%nat ->
  (forall b' s', prepared PTE_WRITABLE root vaddr (p ++ [i]) b' s0 s' -> low_tables (phys s') root ->
     low_left (v_pages s') = low_left (v_pages s) - level_cost (walk (phys s) root (p ++ [i])) ->
     only_taken (v_pages s) (v_pages s') -> ensured (bitmap_test (v_pages s')) (phys s) (phys s') root p i ->
     wp (f (kernel_virt b')) Q s') ->
  wp (direct_table (elem (kernel_virt b) i);; t ← ktable_behind (elem (kernel_virt b) i); f t) Q s.
Proof.
  intros Hpr Hlow Hleft Hpath Hlen HQ. pose proof Hpr as [[Hok Hwf] Ht Hh _ _ _ _].
  destruct (vpath_prefix _ _ _ _ Hpath Hlen) as (Hp & Hp3 & Hi & Hrest).
  pose proof (Hlow _ _ Hp3 Ht) as Hbl. destruct (wf_page _ _ _ Hwf p b Hp3 Ht) as (kb & -> & Hkb & _). apply low_page in Hbl.
  assert (present (phys s @@ (kb * PAGE_SIZE_4KB + 8 * i)) = true -> huge (phys s @@ (kb * PAGE_SIZE_4KB + 8 * i)) = false) as Hnh by (by apply (Hh p i rest)).
  pose proof (low_left_pages (v_pages s)) as Hlp.
  apply wp_bind. eapply wp_eq; [apply direct_table_eq; [lia | done |] |].
  { intros r a Er. assert (wp pmm_alloc_page (fun r _ => exists k, r = k * PAGE_SIZE_4KB /\ 0 < k < BOOT_PAGES) (v_pages s)) as H.
    { apply wp_take; [done.. |]. intros k a' (Hk & _) _. eauto. }
    unfold wp in H. by rewrite Er in H. }
  assert (wp (ensure_table PTE_WRITABLE (elem (direct (kb * PAGE_SIZE_4KB)) i)) (fun _ s' => ensured_state root p i s s' /\
    (truthy (Z.land PTE_WRITABLE PTE_USER) = true -> present (phys s' @@ (kb * PAGE_SIZE_4KB + 8 * i)) = true /\
       user_entry (phys s' @@ (kb * PAGE_SIZE_4KB + 8 * i)) = true)) s) as H1 by (apply (wp_ensure_table _ root p); [done | cbn; lia | done..]).
  pose proof (ensure_took kb i s Hkb Hi Hok Hleft) as H2. eapply wp_mono; [exact (wp_and _ _ _ _ H1 H2) |]. clear H1 H2.
  intros [] s' [[Hen Hu] Htk]. destruct (prepared_next _ _ _ _ _ _ _ _ _ _ Hpr Hpath Hlen Hen Hu) as (b' & Hpr' & Hb').
  pose proof Hen as (_ & He & _ & _).
  assert (b' < BOOT_MEMORY /\ low_left (v_pages s') = low_left (v_pages s) - level_cost (walk (phys s) root (p ++ [i])) /\ only_taken (v_pages s) (v_pages s')) as (Hb'l & Hc & Hot).
  { rewrite walk_snoc, Ht. cbn. destruct (present (phys s @@ (kb * PAGE_SIZE_4KB + 8 * i))) eqn:Ep.
    - subst s'. rewrite Hb'. split_and!; [| cbn; lia | done]. apply (Hlow (p ++ [i])); [by apply (valid_path_snoc 2) |]. by rewrite walk_snoc, Ht.
    - destruct Htk as (k & Htk & Hn). assert (next_table (phys s) (kb * PAGE_SIZE_4KB) i = None) as -> by (unfold next_table; by rewrite Ep).
      rewrite Hb' in Hn. injection Hn as ->. split_and!; [apply low_page, Htk | cbn; by apply took_left in Htk | by eapply took_only]. }
  apply wp_bind. apply wp_bind. eapply wp_eq; [apply kload_direct; [lia | done] |]. apply wp_load_elem; [done.. |]. apply wp_ret.
  unfold next_table in Hb'. destruct (present (phys s' @@ _) && _); [| done]. injection Hb' as <-. apply HQ; [done | | done..].
  intros q b2 Hq Hw. destruct (en_new _ _ _ _ _ _ He q b2 Hq Hw) as [Hw'| ->]; [by apply (Hlow q) |].
  rewrite (pr_table _ _ _ _ _ _ _ Hpr') in Hw. by injection Hw as <-.
Qed.

(** A leaf entry for one page does not make another page's path huge. *)
Lemma store_leaf_huge used m p b i x v : pt_wf used m root -> valid_path 3 p -> walk m root p = Some b -> 0 <= i < 512 ->
  (forall r, vpath v <> p ++ i :: r) -> no_huge_on_path m root v -> no_huge_on_path (<[b + 8 * i := x]> m) root v.
Proof.
  intros Hwf Hp Hb Hi Hv Hh q j rest t Hq Hrest Hw. pose proof (store_agree _ _ _ Hwf p b i x Hp Hb Hi) as Ha.
  pose proof (vpath_valid v) as Hval. rewrite Hq in Hval. pose proof (valid_path_index _ _ _ _ Hval) as Hj.
  assert (valid_path 3 q) as Hq3.
  { destruct Hval as [Hl [Hf _]%Forall_app]. rewrite length_app in Hl. destruct rest; [done |]. cbn in Hl. split; [lia | done]. }
  rewrite (walk_frame_root _ _ _ _ _ q Ha Hq3) in Hw; cycle 1.
  { intros r ->. apply (Hv (r ++ j :: rest)). by rewrite Hq, <- app_assoc. }
  rewrite (Ha q t j) by (done || (destruct (decide (q = p)) as [->|]; [right; intros ->; by apply (Hv rest) | by left])).
  by eapply Hh.
Qed.
End level.

(** The address of large page [n] of the direct mapping, and the tables that [n]
    of them need below the top. *)
Definition direct_va (n : Z) : Z := DIRECT_OFFSET + PAGE_SIZE_2MB * n.
Definition direct_tables (n : Z) : Z := (n + 2 ^ 18 - 1) / 2 ^ 18 + (n + 2 ^ 9 - 1) / 2 ^ 9.

Lemma vidx_div v sh : 0 <= sh -> vidx v sh = v / 2 ^ sh mod 512.
Proof. intros. unfold vidx. change 0x1FF with (Z.ones 9). by rewrite Z.land_ones, Z.shiftr_div_pow2 by lia. Qed.

Lemma direct_va_idx n : 0 <= n < 2 ^ 25 ->
  vidx (direct_va n) 39 = 256 + n / 2 ^ 18 /\ vidx (direct_va n) 30 = n / 2 ^ 9 mod 512 /\ vidx (direct_va n) 21 = n mod 512.
Proof.
  intros Hn. rewrite !vidx_div by lia. unfold direct_va, DIRECT_OFFSET, PAGE_SIZE_2MB. clear -Hn. split_and!; dlia.
Qed.

Lemma direct_tables_step n : 0 <= n ->
  direct_tables (n + 1) = direct_tables n + (if n mod 2 ^ 18 =? 0 then 1 else 0) + (if n mod 2 ^ 9 =? 0 then 1 else 0).
Proof.
  intros Hn. unfold direct_tables. destruct (Z.eqb_spec (n mod 2 ^ 18) 0), (Z.eqb_spec (n mod 2 ^ 9) 0); dlia.
Qed.

Lemma direct_page v : DIRECT_OFFSET <= v < DIRECT_OFFSET + 2 ^ 46 -> page_no 1 v = 2 ^ 26 + (v - DIRECT_OFFSET) / 2 ^ 21.
Proof.
  unfold page_no, vpn, PAGE_SIZE_4KB, DIRECT_OFFSET. change (2 ^ (9 * Z.of_nat 1)) with 512. intros Hv.
  clear -Hv. dlia.
Qed.

Lemma direct_page_va n : 0 <= n < 2 ^ 25 -> page_no 1 (direct_va n) = 2 ^ 26 + n.
Proof.
  intros Hn. rewrite direct_page by (unfold direct_va, PAGE_SIZE_2MB; lia). unfold direct_va. rewrite Z.add_simpl_l.
  unfold PAGE_SIZE_2MB. clear. dlia.
Qed.

(** ** The direct mapping *)

Section direct.
Context (root : Z) (m0 : gmap Z Z) (old : Z) (a0 : pmm).
Implicit Types s : vmm pmm.

(** When [n] large pages are mapped: the kernel's half is that of [m0]. *)
Record direct_inv (n : Z) s : Prop := {
  di_ok : vmm_ok root s;
  di_low : low_tables (phys s) root;
  di_done v : DIRECT_OFFSET <= v < direct_va n -> hw_translate (phys s) root v = Some (v - DIRECT_OFFSET);
  di_kernel v : vidx v 39 = 511 -> hw_walk (phys s) root (vpath v) = hw_walk m0 old (vpath v);
  di_huge v : direct_va n <= v < DIRECT_OFFSET + 2 ^ 46 -> no_huge_on_path (phys s) root v;
  di_pd : n mod 2 ^ 9 <> 0 -> exists b, walk (phys s) root [vidx (direct_va n) 39; vidx (direct_va n) 30] = Some b;
  di_pdpt : n mod 2 ^ 18 <> 0 -> exists b, walk (phys s) root [vidx (direct_va n) 39] = Some b;
  di_left : low_left a0 - direct_tables n <= low_left (v_pages s);
  di_taken : only_taken a0 (v_pages s);
}.

Lemma level_cost_le w : level_cost w <= 1.
Proof. by destruct w. Qed.

Lemma direct_leaf n b1 s s1 : 0 <= n < 2 ^ 25 -> direct_inv n s ->
  prepared PTE_WRITABLE root (direct_va n) [vidx (direct_va n) 39; vidx (direct_va n) 30] b1 s s1 -> low_tables (phys s1) root ->
  only_taken (v_pages s) (v_pages s1) -> low_left a0 - direct_tables (n + 1) <= low_left (v_pages s1) ->
  (forall v, no_huge_on_path (phys s) root v -> no_huge_on_path (phys s1) root v) ->
  direct_inv (n + 1) (with_phys (<[b1 + 8 * vidx (direct_va n) 21 := Z.lor (PAGE_SIZE_2MB * n) (leaf_flags 1 PTE_WRITABLE)]> (phys s1)) s1).
Proof.
  intros Hn [Hok Hlow Hdone Hker Hhuge Hpd Hpdpt Hleft Htk] Hpr Hlow1 Hot Hleft1 Hh1.
  assert (frame_ok 1 (PAGE_SIZE_2MB * n)) as Hfr by (unfold frame_ok, PAGE_SIZE_2MB; change (12 + 9 * Z.of_nat 1) with 21; clear -Hn; split; [lia | dlia]).
  destruct (map_leaf_2m _ _ (PAGE_SIZE_2MB * n) _ _ _ _ Hpr Hfr ltac:(by apply (flag_bits_pow2 1 1))) as (Hxp & Hxh & Hwf' & _ & Hat & Hother).
  set (v0 := direct_va n) in *. set (x := Z.lor _ _) in *. destruct Hpr as [[Hok1 Hwf1] Ht1 _ _ _ _ _].
  assert (valid_path 3 [vidx v0 39; vidx v0 30]) as Hp.
  { split; [simpl; lia | repeat apply Forall_cons_2; try apply vidx_range; by apply Forall_nil]. }
  pose proof (direct_va_idx n Hn) as (I39 & I30 & I21). fold v0 in I39, I30, I21. pose proof (direct_page_va n Hn) as Hpg. fold v0 in Hpg.
  assert (direct_va (n + 1) = v0 + PAGE_SIZE_2MB) as Hnext by (unfold v0, direct_va; lia).
  assert (DIRECT_OFFSET <= v0 /\ v0 + PAGE_SIZE_2MB <= DIRECT_OFFSET + 2 ^ 46) as Hv0 by (unfold v0, direct_va, PAGE_SIZE_2MB; lia).
  assert (0 < PAGE_SIZE_2MB) as H2m by done.
  assert (forall v, v0 <= v < v0 + PAGE_SIZE_2MB -> page_no 1 v = page_no 1 v0) as Hin.
  { intros v Hv. rewrite Hpg, direct_page by lia. unfold v0, direct_va, PAGE_SIZE_2MB in Hv. clear -Hv Hn. dlia. }
  assert (forall v, DIRECT_OFFSET <= v < DIRECT_OFFSET + 2 ^ 46 -> v < v0 \/ v0 + PAGE_SIZE_2MB <= v -> page_no 1 v <> page_no 1 v0) as Hout.
  { intros v Hv Hv'. rewrite Hpg, direct_page by lia. unfold v0, direct_va, PAGE_SIZE_2MB in Hv'. clear -Hv Hv' Hn. dlia. }
  assert (walk (<[b1 + 8 * vidx v0 21 := x]> (phys s1)) root [vidx v0 39; vidx v0 30] = Some b1) as Hw2.
  { rewrite (walk_frame_root (phys s1) _ _ [vidx v0 39; vidx v0 30] (vidx v0 21)); [done | | done | by intros [|? ?]].
    apply (store_agree _ _ _ Hwf1); [done | done | apply vidx_range]. }
  split; cbn [with_phys phys v_pages].
  - by split.
  - intros q b Hq Hw. apply (Hlow1 q); [done |]. exact (proj1 (store_block_walk _ _ _ Hwf1 _ b1 (vidx v0 21) x q b Hp Ht1 (vidx_range _ _) (or_intror (or_intror Hxh)) Hq Hw)).
  - intros v Hv. destruct (Z.lt_ge_cases v v0) as [Hlt|Hge].
    + rewrite <- Hdone by lia. apply hw_translate_ext, Hother, Hout; lia.
    + rewrite Hat by (apply Hin; lia). f_equal. rewrite Hnext in Hv. clear -Hv Hge Hn. unfold v0, direct_va, DIRECT_OFFSET, PAGE_SIZE_2MB in *. dlia.
  - intros v Hv. rewrite Hother, Hker; [done | done |]. intros (E & _)%page_no_path. rewrite Hv, I39 in E. clear -E Hn. dlia.
  - intros v Hv. apply (store_leaf_huge _ (page_used (v_pages s1)) _ [vidx v0 39; vidx v0 30]); [done | done | done | apply vidx_range | | apply Hh1, Hhuge; lia].
    intros r Hr. apply (Hout v); [lia | lia |]. destruct r as [|j [|? ?]]; [done | | done].
    symmetry. apply (same_page v0 v [vidx v0 39; vidx v0 30] (vidx v0 21) [vidx v0 12] [j]); done.
  - intros Hmod. destruct (Z.eq_dec n (2 ^ 25 - 1)) as [->|Hne]; [done |].
    pose proof (direct_va_idx (n + 1) ltac:(lia)) as (J39 & J30 & _). exists b1. rewrite J39, J30.
    replace ((n + 1) / 2 ^ 18) with (n / 2 ^ 18) by (clear -Hmod; dlia). replace ((n + 1) / 2 ^ 9) with (n / 2 ^ 9) by (clear -Hmod; dlia).
    by rewrite <- I39, <- I30.
  - intros Hmod. destruct (Z.eq_dec n (2 ^ 25 - 1)) as [->|Hne]; [done |].
    pose proof (direct_va_idx (n + 1) ltac:(lia)) as (J39 & _ & _). rewrite J39.
    replace ((n + 1) / 2 ^ 18) with (n / 2 ^ 18) by (clear -Hmod; dlia). rewrite <- I39.
    change [vidx v0 39; vidx v0 30] with ([vidx v0 39] ++ [vidx v0 30]) in Hw2. rewrite walk_app in Hw2.
    destruct (walk (<[_ := x]> (phys s1)) root [vidx v0 39]) as [t|]; [by exists t | discriminate Hw2].
  - done.
  - by transitivity (v_pages s).
Qed.

Lemma wp_map_direct n s : 0 <= n < 2 ^ 25 -> direct_inv n s -> direct_tables (n + 1) < low_left a0 ->
  wp (map_direct (kernel_virt root) (PAGE_SIZE_2MB * n)) (fun _ => direct_inv (n + 1)) s.
Proof.
  intros Hn Hinv Hcost. pose proof Hinv as [Hok Hlow Hdone Hker Hhuge Hpd Hpdpt Hleft Htk].
  pose proof (direct_tables_step n (proj1 Hn)) as Hstep.
  assert (u64 (PAGE_SIZE_2MB * n + DIRECT_OFFSET) = direct_va n) as Eva.
  { rewrite u64_small by (unfold PAGE_SIZE_2MB, DIRECT_OFFSET; lia). unfold direct_va. lia. }
  unfold map_direct. cbv zeta. rewrite Eva. set (v0 := direct_va n) in *.
  assert (no_huge_on_path (phys s) root v0) as Hnh by (apply Hhuge; unfold v0, direct_va, PAGE_SIZE_2MB; lia).
  eapply (wp_direct_level root v0 s []); [by apply prepared_nil | done | | reflexivity | cbn; lia |].
  { destruct (Z.eqb_spec (n mod 2 ^ 18) 0), (Z.eqb_spec (n mod 2 ^ 9) 0); lia. }
  intros b1 s1 Hpr1 Hlow1 Hl1 Hot1 He1. cbn [app] in *.
  assert (level_cost (walk (phys s) root [vidx v0 39]) <= if n mod 2 ^ 18 =? 0 then 1 else 0) as Hc1.
  { destruct (Z.eqb_spec (n mod 2 ^ 18) 0) as [_|Hne]; [apply level_cost_le |]. destruct (Hpdpt Hne) as [b ->]. done. }
  eapply (wp_direct_level root v0 s [_]); [done | done | | reflexivity | cbn; lia |].
  { destruct (n mod 2 ^ 9 =? 0); lia. }
  intros b2 s2 Hpr2 Hlow2 Hl2 Hot2 He2. cbn [app] in *.
  assert (level_cost (walk (phys s1) root [vidx v0 39; vidx v0 30]) <= if n mod 2 ^ 9 =? 0 then 1 else 0) as Hc2.
  { destruct (Z.eqb_spec (n mod 2 ^ 9) 0) as [_|Hne]; [apply level_cost_le |]. destruct (Hpd Hne) as [b Hb].
    apply (en_keep _ _ _ _ _ _ He1) in Hb as ->; [done |]. split; [cbn; lia | repeat apply Forall_cons_2; try apply vidx_range; by apply Forall_nil]. }
  pose proof (pr_table _ _ _ _ _ _ _ Hpr2) as Ht2.
  assert (valid_path 3 [vidx v0 39; vidx v0 30]) as Hp by (split; [cbn; lia | repeat apply Forall_cons_2; try apply vidx_range; by apply Forall_nil]).
  destruct (wf_page _ _ _ (proj2 (pr_ok _ _ _ _ _ _ _ Hpr2)) _ _ Hp Ht2) as (k & -> & Hk & _). pose proof (Hlow2 _ _ Hp Ht2) as Hkl. apply low_page in Hkl.
  eapply wp_eq; [apply kstore_direct; [lia | apply vidx_range] |]. apply wp_store_elem; [done | apply vidx_range |].
  replace (Z.lor (Z.lor PTE_PRESENT PTE_WRITABLE) PTE_PAGE_SIZE) with (leaf_flags 1 PTE_WRITABLE) by done.
  apply (direct_leaf n _ s s2); [done.. | by transitivity (v_pages s1) | lia |].
  intros v Hv. by apply (en_huge _ _ _ _ _ _ He2), (en_huge _ _ _ _ _ _ He1).
Qed.

Lemma direct_tables_mono n n' : n <= n' -> direct_tables n <= direct_tables n'.
Proof. intros. unfold direct_tables. apply Z.add_le_mono; apply Z.div_le_mono; lia. Qed.

Lemma wp_direct_loop fuel n maxAddr s : 0 <= n -> direct_inv n s -> maxAddr <= 2 ^ 46 ->
  maxAddr <= PAGE_SIZE_2MB * (n + Z.of_nat fuel) -> direct_tables ((maxAddr + PAGE_SIZE_2MB - 1) / PAGE_SIZE_2MB) < low_left a0 ->
  wp (direct_loop fuel (kernel_virt root) (PAGE_SIZE_2MB * n) maxAddr) (fun _ s' => exists n', n <= n' /\ maxAddr <= PAGE_SIZE_2MB * n' /\ direct_inv n' s') s.
Proof.
  intros Hn Hinv Hmax. revert n s Hn Hinv. induction fuel as [|fuel IH]; intros n s Hn Hinv Hf Hcost; cbn [direct_loop];
    destruct (Z.ltb_spec (PAGE_SIZE_2MB * n) maxAddr) as [Hlt|Hge].
  - lia.
  - apply wp_ret. by exists n.
  - assert (n < 2 ^ 25) by (unfold PAGE_SIZE_2MB in Hlt; lia). apply wp_bind. eapply wp_mono; [apply wp_map_direct; [lia | done |] |].
    { eapply Z.le_lt_trans; [apply direct_tables_mono | exact Hcost]. apply Z.div_le_lower_bound; [done |]. lia. }
    cbv beta. intros _ s' Hinv'. rewrite u64_small by (unfold PAGE_SIZE_2MB; lia).
    replace (PAGE_SIZE_2MB * n + PAGE_SIZE_2MB) with (PAGE_SIZE_2MB * (n + 1)) by lia.
    eapply wp_mono; [apply IH; [lia | done | lia | done] |]. intros [] s2 (n' & Hn' & Hrest). exists n'. split; [lia | done].
  - apply wp_ret. by exists n.
Qed.
End direct.

(** ** The new top-level table *)

Lemma hw_walk_step m t i rest : rest <> [] -> hw_walk m t (i :: rest) =
  let e := m @@ (t + 8 * i) in
  if negb (present e) then None else if huge e then Some (e, length rest) else hw_walk m (Z.land e PAGE_MASK_4KB) rest.
Proof. by destruct rest. Qed.

Section root_copy.
Context (used : Z -> bool) (m m' : gmap Z Z) (old k : Z).
Let root := k * PAGE_SIZE_4KB.
Hypothesis Hwf : pt_wf used m old.
Hypothesis Hk : 0 < k < 2 ^ 35.
Hypothesis Hfresh : used k = false.
Hypothesis Htable : forall j, 0 <= j < 512 -> m' @@ (root + 8 * j) = if j =? 511 then m @@ (old + 8 * 511) else 0.
Hypothesis Hother : forall c, (forall j, 0 <= j < 512 -> c <> root + 8 * j) -> m' @@ c = m @@ c.

(** Index -1 stands for no entry: all tables of the old tree are as they were. *)
Lemma copy_agree : agree_except m m' old [] (-1).
Proof.
  intros q b j Hq Hw Hj _. destruct (wf_page _ _ _ Hwf q b Hq Hw) as (kb & -> & _ & Hu). apply Hother.
  intros i Hi [-> _]%cell_inj; [congruence | done | done].
Qed.

Lemma no_minus_one n q : valid_path n q -> forall r, q <> [] ++ (-1) :: r.
Proof. intros [_ Hf] r ->. apply Forall_cons in Hf as [? _]. lia. Qed.

Lemma copy_next : next_table m' root 511 = next_table m old 511.
Proof. unfold next_table. by rewrite Htable. Qed.

Lemma copy_walk r : valid_path 3 (511 :: r) -> walk m' root (511 :: r) = walk m old (511 :: r).
Proof.
  intros Hv. cbn [walk]. rewrite copy_next. destruct (next_table m old 511) as [t|] eqn:E; [| done].
  apply (walk_frame m m' old [] (-1) copy_agree r [511]); [cbn; by rewrite E | done |]. by intros [|? ?].
Qed.

Lemma copy_hw v : vidx v 39 = 511 -> hw_walk m' root (vpath v) = hw_walk m old (vpath v).
Proof.
  intros Hv. pose proof (vpath_valid v) as Hval. set (rest := [vidx v 30; vidx v 21; vidx v 12]).
  assert (vpath v = 511 :: rest) as Hpath by (unfold vpath; by rewrite Hv). rewrite Hpath in *.
  rewrite !hw_walk_step by done. cbv zeta. rewrite Htable by done. rewrite (proj2 (Z.eqb_eq 511 511) eq_refl).
  destruct (present _) eqn:Ep; [| done]. destruct (huge _) eqn:Eh; [done |]. cbn [negb].
  apply (hw_frame m m' old [] (-1) copy_agree _ [511]); [| done | by intros [|? ?]].
  cbn [walk]. unfold next_table. by rewrite Ep, Eh.
Qed.

Lemma copy_walk_inv q b : valid_path 3 q -> walk m' root q = Some b -> (q = [] /\ b = root) \/ exists r, q = 511 :: r /\ walk m old q = Some b.
Proof.
  intros Hv. destruct q as [|i r]; [intros [= <-]; by left |]. intros Hw. right. pose proof Hv as [_ [Hi _]%Forall_cons].
  destruct (Z.eqb_spec i 511) as [->|Hne]; [exists r; by rewrite copy_walk in Hw |].
  cbn [walk] in Hw. unfold next_table in Hw. rewrite Htable, (proj2 (Z.eqb_neq _ _) Hne) in Hw by done. done.
Qed.

Lemma copy_wf used' : (forall j, used j = true -> used' j = true) -> used' k = true -> pt_wf used' m' root.
Proof.
  intros Hu Huk. split.
  - intros q b Hq [[-> ->]|(r & -> & Hw)]%copy_walk_inv; [by exists k | | done].
    destruct (wf_page _ _ _ Hwf _ b Hq Hw) as (kb & -> & Hkb & Hub). exists kb. by auto.
  - intros q q' b Hq Hq' H1%copy_walk_inv H2%copy_walk_inv; [| done..].
    destruct H1 as [[-> ->]|(r & -> & H1)], H2 as [[-> E]|(r' & -> & H2)]; [done | | | by eapply (wf_tree _ _ _ Hwf)].
    + destruct (wf_page _ _ _ Hwf _ _ Hq' H2) as (kb & E & _ & Hub). assert (kb = k) by (unfold root, PAGE_SIZE_4KB in E; lia). congruence.
    + subst b. destruct (wf_page _ _ _ Hwf _ _ Hq H1) as (kb & E & _ & Hub). assert (kb = k) by (unfold root, PAGE_SIZE_4KB in E; lia). congruence.
Qed.

Lemma copy_no_huge v : vidx v 39 <> 511 -> no_huge_on_path m' root v.
Proof.
  intros Hv q i rest b Hq _ Hw. pose proof (vpath_valid v) as Hval. rewrite Hq in Hval. pose proof (valid_path_index _ _ _ _ Hval) as Hi.
  destruct q as [|j q].
  - injection Hw as <-. unfold vpath in Hq. injection Hq as <- _. rewrite Htable, (proj2 (Z.eqb_neq _ _) Hv) by done. done.
  - injection Hq as <- _. cbn [walk] in Hw. unfold next_table in Hw. rewrite Htable, (proj2 (Z.eqb_neq _ _) Hv) in Hw by apply vidx_range. done.
Qed.
End root_copy.

(** ** The whole of [init_VMM] *)

(** What [vmm_init_direct_mapping] leaves: the memory below [maxAddr] is mapped at
    [DIRECT_OFFSET], and the kernel's half as before. *)
Definition direct_mapped (maxAddr : Z) (s s' : vmm pmm) : Prop :=
  let root := cr3 (p_cpu (v_pages s')) in
  vmm_ok root s' /\
  (forall x, 0 <= x < maxAddr -> hw_translate (phys s') root (DIRECT_OFFSET + x) = Some x) /\
  (forall v, vidx v 39 = 511 -> hw_walk (phys s') root (vpath v) = hw_walk (phys s) (cr3 (p_cpu (v_pages s))) (vpath v)) /\
  (forall k, bitmap_test (v_pages s) k = true -> bitmap_test (v_pages s') k = true) /\
  total_pages (v_pages s') = total_pages (v_pages s) /\ rflags (p_cpu (v_pages s')) = rflags (p_cpu (v_pages s)).

Lemma large_pages maxAddr n : maxAddr <= PAGE_SIZE_2MB * n -> forall x, x < maxAddr -> DIRECT_OFFSET + x < direct_va n.
Proof. unfold direct_va. lia. Qed.

Lemma wp_new_root (old : Z) (s : vmm pmm) (f : Z -> M (vmm pmm) unit) Q :
  vmm_ok old s -> cr3 (p_cpu (v_pages s)) = old -> low_tables (phys s) old -> 0 < low_left (v_pages s) ->
  (forall k s', let root := k * PAGE_SIZE_4KB in took k (v_pages s) (v_pages s') -> direct_inv root (phys s) old (v_pages s') 0 s' -> wp (f root) Q s') ->
  wp (pml4_phys ← zoom l_pages pmm_alloc_page;
      kclear_table (kernel_virt pml4_phys);;
      c ← zoom l_pages (read_cr3 l_cpu);
      x ← kload (elem (kernel_virt c) 511);
      kstore (elem (kernel_virt pml4_phys) 511) x;; f pml4_phys) Q s.
Proof.
  intros [Hok Hwf] Hcr3 Hlow Hleft HQ. destruct (wf_page _ _ _ Hwf [] old) as (ko & Eold & Hko & Hou); [by split; [cbn; lia |] | done |].
  assert (ko < BOOT_PAGES) as Hkol by (apply low_page; rewrite <- Eold; by apply (Hlow []); [split; [cbn; lia |] |]).
  apply wp_bind, wp_zoom, wp_take; [done.. |]. intros k a' Htk Hok'. change (view l_pages s) with (v_pages s) in *. change (over l_pages a' s) with (set_v_pages a' s).
  pose proof Htk as (Hk & Hfree & _ & Hat & Ho & _ & Hcpu & _).
  pose proof (boot_page k Hk) as Hk35. cbn in Hou, Hwf.
  apply wp_bind. eapply wp_eq; [by apply kclear_direct |]. apply wp_clear_table; [done |]. intros z Hz Hzo. cbn [phys set_v_pages] in Hzo.
  apply wp_bind, wp_zoom, wp_gets. cbn [view over l_pages l_cpu v_pages with_phys set_v_pages]. rewrite Hcpu, Hcr3, Eold.
  apply wp_bind. eapply wp_eq; [apply kload_direct; [lia | done] |]. apply wp_load_elem; [done.. |].
  apply wp_bind. eapply wp_eq; [by apply kstore_direct |]. apply wp_store_elem; [done.. |].
  cbn [phys with_phys set_v_pages v_pages invlpg].
  assert (forall c, (forall j, 0 <= j < 512 -> c <> k * PAGE_SIZE_4KB + 8 * j) ->
    <[k * PAGE_SIZE_4KB + 8 * 511 := z @@ (ko * PAGE_SIZE_4KB + 8 * 511)]> z @@ c = phys s @@ c) as Hother.
  { intros c Hc. rewrite rd_insert_ne by (intros <-; by apply (Hc 511)). by apply Hzo. }
  assert (z @@ (ko * PAGE_SIZE_4KB + 8 * 511) = phys s @@ (old + 8 * 511)) as E511.
  { rewrite Eold. apply Hzo. intros j Hj [-> _]%cell_inj; [congruence | done | done]. }
  assert (forall j, 0 <= j < 512 -> <[k * PAGE_SIZE_4KB + 8 * 511 := z @@ (ko * PAGE_SIZE_4KB + 8 * 511)]> z @@ (k * PAGE_SIZE_4KB + 8 * j) =
    if j =? 511 then phys s @@ (old + 8 * 511) else 0) as Htable.
  { intros j Hj. destruct (Z.eqb_spec j 511) as [->|Hne]; [by rewrite rd_insert_eq | rewrite rd_insert_ne by lia; by apply Hz]. }
  set (m1 := <[_ := _]> z) in *.
  apply (HQ k (Vmm a' m1 (invlpg s))); [done |]. split; cbn [phys v_pages].
  - split; [done |]. apply (copy_wf _ _ _ _ _ Hwf Hk35 Hfree Htable Hother); [| by apply Hat].
    intros j Hj. destruct (decide (j = k)) as [->|]; [by apply Hat | by cbn; rewrite Ho].
  - intros q b Hq [[-> ->]|(r & -> & Hw)]%(copy_walk_inv _ _ _ _ _ Hwf Hfree Htable Hother); [apply low_page; lia | by apply (Hlow (511 :: r)) | done].
  - unfold direct_va. lia.
  - intros v. by apply (copy_hw _ _ _ _ _ Hwf Hfree Htable Hother).
  - intros v Hv. apply (copy_no_huge _ _ _ _ Htable). rewrite vidx_div by lia. unfold direct_va, DIRECT_OFFSET, PAGE_SIZE_2MB in Hv. clear -Hv. dlia.
  - done.
  - done.
  - change (direct_tables 0) with 0. lia.
  - done.
Qed.

Lemma wp_init_direct fuel maxAddr (s : vmm pmm) :
  let old := cr3 (p_cpu (v_pages s)) in
  vmm_ok old s -> low_tables (phys s) old -> 0 <= maxAddr <= 2 ^ 46 -> maxAddr <= PAGE_SIZE_2MB * Z.of_nat fuel ->
  direct_tables ((maxAddr + PAGE_SIZE_2MB - 1) / PAGE_SIZE_2MB) + 1 < low_left (v_pages s) ->
  wp (vmm_init_direct_mapping fuel maxAddr) (fun _ s' => direct_mapped maxAddr s s') s.
Proof.
  intros old Hok Hlow Hmax Hf Hcost.
  assert (0 <= direct_tables ((maxAddr + PAGE_SIZE_2MB - 1) / PAGE_SIZE_2MB)) as Hpos.
  { change 0 with (direct_tables 0). apply direct_tables_mono, Z.div_pos; [| done]. unfold PAGE_SIZE_2MB. lia. }
  unfold vmm_init_direct_mapping. cbv zeta. apply (wp_new_root old); [done | done | done | lia |].
  intros k s1 root Htk Hinv. pose proof (took_left _ _ _ Htk) as Hl. apply wp_bind.
  eapply wp_mono; [apply (wp_direct_loop root (phys s) old (v_pages s1) fuel 0); [done | done | lia | lia | lia] |].
  intros [] s2 (n & Hn & Hmn & Hinv2). destruct Hinv2 as [Hok2 Hlow2 Hdone Hker _ _ _ _ (Hcpu & Htot & Hused)].
  pose proof (took_only _ _ _ Htk) as (Hcpu1 & Htot1 & Hused1).
  apply wp_zoom, wp_modify. unfold direct_mapped. cbn. split; [split; [exact (proj1 Hok2) | exact (proj2 Hok2)] |]. split; [| split; [exact Hker | split; [| split; congruence]]].
  - intros x Hx. rewrite Hdone; [f_equal; lia |]. pose proof (large_pages _ _ Hmn x). lia.
  - intros j Hj. by apply Hused, Hused1.
Qed.

(** The end of all memory, available or not, which is what [init_VMM] maps. *)
Definition map_end (es : list mmap_entry) : Z := foldl (fun m e => Z.max m (e_addr e + e_len e)) 0 es.

Lemma wp_find_map_end kernel_end fuel p n es lo hi (s : pmm) : boot_tags kernel_end (bitmap s) lo hi p n es -> (n <= fuel)%nat ->
  KERNEL_OFFSET <= lo -> hi <= KERNEL_OFFSET + BOOT_MEMORY ->
  Forall (fun e => 0 <= e_addr e /\ 0 <= e_len e /\ e_addr e + e_len e < 2 ^ 63) es ->
  wp (for_tags kernel_end fuel p (max_end kernel_end) 0) (fun r s' => s' = s /\ r = map_end es) s.
Proof.
  intros Ht Hn Hlo Hhi Hes.
  apply (wp_for_tags kernel_end lo hi (bitmap s) _ (fun es a s' => s' = s /\ a = map_end es) Hlo Hhi) with
    (P := fun e => 0 <= e_addr e /\ 0 <= e_len e /\ e_addr e + e_len e < 2 ^ 63) (done := []) (n := n); try done.
  - by intros _ _ s' [-> _].
  - intros es' e q a s' [-> ->] Hq Hq' (Ha & Hl & He) Hat. apply wp_bind, (wp_entry_end kernel_end q e); [lia | lia | done |].
    rewrite u64_small by lia. apply wp_ret. split; [done |]. unfold map_end. rewrite foldl_app. cbn. fold (map_end es').
    destruct (Z.ltb_spec (map_end es') (e_addr e + e_len e)); lia.
Qed.

(** The types of memory in the page attribute table, and its entries. *)
Definition WRITE_COMBINING : Z := 1.
Definition WRITE_BACK : Z := 6.
Definition pat_entry (pat i : Z) : Z := pat / 2 ^ (8 * i) mod 8.

Definition pat_of (m : gmap Z Z) : Z := m @@ MSR_IA32_PAT.

Lemma pat_bits pat : 0 <= pat < 2 ^ 64 ->
  Z.lor (u32 (u32 pat)) (Z.shiftl (u32 (Z.lor (Z.land (u32 (Z.shiftr pat 32)) (2 ^ 32 - 0x100)) 6)) 32) =
  pat mod 2 ^ 32 + 2 ^ 32 * (pat / 2 ^ 40 * 2 ^ 8 + 6).
Proof.
  intros Hp. rewrite Z.shiftr_div_pow2 by lia. rewrite (u32_small (pat / 2 ^ 32)) by (clear -Hp; dlia).
  assert (Z.land (pat / 2 ^ 32) (2 ^ 32 - 0x100) = 2 ^ 8 * (pat / 2 ^ 40)) as ->.
  { assert (0 <= pat / 2 ^ 32 < 2 ^ 32) as Hh by (clear -Hp; dlia).
    transitivity (Z.land (pat / 2 ^ 32) (2 ^ 64 - 2 ^ 8)).
    - rewrite <- (Z.mod_small (pat / 2 ^ 32) (2 ^ 32)) at 2 by done. rewrite <- Z.land_ones, <- Z.land_assoc by lia.
      by assert (Z.land (Z.ones 32) (2 ^ 64 - 2 ^ 8) = 2 ^ 32 - 0x100) as -> by reflexivity.
    - rewrite land_high_mask by lia. clear -Hp. dlia. }
  rewrite (Z.lor_comm _ 6), (lor_shifted 6 (pat / 2 ^ 40) 8) by lia.
  rewrite (u32_small (6 + _)) by (clear -Hp; dlia). rewrite Z.shiftl_mul_pow2 by lia.
  unfold u32. rewrite Z.mod_mod by lia. rewrite (Z.mul_comm _ (2 ^ 32)), lor_shifted by (lia || apply Z.mod_pos_bound; lia).
  clear. lia.
Qed.

Lemma wp_init_pat (Q : unit -> gmap Z Z -> Prop) m : 0 <= pat_of m < 2 ^ 64 ->
  (forall m', (forall i, 0 <= i < 8 -> pat_entry (pat_of m') i = if decide (i = 4) then WRITE_BACK else pat_entry (pat_of m) i) ->
     (forall r, r <> MSR_IA32_PAT -> m' @@ r = m @@ r) -> Q tt m') -> wp init_pat Q m.
Proof.
  intros Hp HQ. apply wp_bind, wp_gets. cbv beta iota. apply wp_modify, HQ; [| by intros r Hr; rewrite rd_insert_ne].
  intros i Hi. unfold pat_of at 1. rewrite rd_insert_eq. fold (pat_of m). rewrite pat_bits by done. unfold pat_entry, WRITE_BACK.
  revert Hp. generalize (pat_of m). clear -Hi. intros p Hp.
  assert (i = 0 \/ i = 1 \/ i = 2 \/ i = 3 \/ i = 4 \/ i = 5 \/ i = 6 \/ i = 7) as Hc by lia.
  destruct Hc as [-> | [-> | [-> | [-> | [-> | [-> | [-> | ->]]]]]]]; case_decide; try lia; cbn [Z.mul Pos.mul]; dlia.
Qed.

(** Free pages that are mapped at boot, according to the memory map. *)
Definition boot_pages (kernel_start kernel_end : Z) (es : list mmap_entry) : Z :=
  Z.of_nat (length (filter (fun k => free_page es k && negb (kernel_page kernel_start kernel_end es k) = true)
    (seqZ 0 (Z.min (memory_pages es) BOOT_PAGES)))).

Lemma free_count_filter (f : Z -> bool) n (s : pmm) : (forall k, 0 <= k < Z.of_nat n -> bitmap_test s k = negb (f k)) ->
  free_count n s = Z.of_nat (length (filter (fun k => f k = true) (seqZ 0 (Z.of_nat n)))).
Proof.
  induction n as [|n IH]; intros H; [done |]. cbn [free_count]. rewrite H, IH by (intros; try apply H; lia).
  rewrite seqZ_S, filter_app, length_app, Z.add_0_l. cbn [filter]. rewrite filter_cons, filter_nil.
  destruct (f (Z.of_nat n)) eqn:E; cbn [negb]; case_decide; try done; cbn [length]; lia.
Qed.

Section boot_state.
Context (kernel_start kernel_end : Z).

Lemma initialised_ok fuel bi es s s' : bootable kernel_start kernel_end fuel bi es s -> pmm_lock s = 0 ->
  pmm_initialised kernel_start kernel_end es s s' ->
  pmm_ok s' /\ (forall k, (k < memory_pages es /\ kernel_page kernel_start kernel_end es k = true) -> bitmap_test s' k = true) /\
  low_left s' = boot_pages kernel_start kernel_end es.
Proof.
  intros [_ Hes Hk Hbm Hfit _] Hlock (Ht & _ & Hl & Hbit & _). pose proof (memory_end_nonneg es) as Hpos.
  assert (0 <= memory_pages es) as Hpg by (by apply Z.div_pos).
  assert (BOOT_MEMORY = 2 ^ 27) as Ebm by done.
  assert (0 < memory_pages es) as Hp1.
  { assert (0 <= (memory_pages es + 7) / 8) by (apply Z.div_pos; lia). unfold kernel_limit, PAGE_SIZE_4KB in Hfit. lia. }
  split; [split_and!; [lia | lia | |] | split].
  - rewrite Ht. clear -Hbm Hk Ebm. unfold KERNEL_OFFSET in *. dlia.
  - rewrite Hbit by lia. destruct (free_page es 0) eqn:E; [| done]. exfalso. apply existsb_exists in E as (e & He & E).
    apply andb_true_iff in E as [[_ E1%Z.leb_le]%andb_true_iff [E2 _]%spanned_range].
    clear -E1 E2. unfold PAGE_SIZE_4KB in *. dlia.
  - intros k [Hk1 Hk2]. rewrite Hbit, Hk2 by (split; [| done]; apply spanned_range in Hk2 as [? _];
      pose proof (Z.div_pos (kernel_start - KERNEL_OFFSET) PAGE_SIZE_4KB ltac:(lia) eq_refl); lia).
    by rewrite orb_true_r.
  - assert (0 <= BOOT_PAGES) as Hbp by done. unfold low_left, boot_pages. rewrite Ht.
    rewrite (free_count_filter (fun k => free_page es k && negb (kernel_page kernel_start kernel_end es k))).
    + by rewrite Z2Nat.id by lia.
    + intros k Hkr. rewrite Z2Nat.id in Hkr by lia. rewrite Hbit by lia. by destruct (free_page es k), (kernel_page _ _ es k).
Qed.

Lemma wp_init_VMM fuel bi n es lo hi (s : boot) :
  let v := b_vmm s in let old := cr3 (p_cpu (v_pages v)) in
  boot_tags kernel_end (bitmap (v_pages v)) lo hi (first_tag bi) n es -> (n <= fuel)%nat ->
  KERNEL_OFFSET <= lo -> hi <= KERNEL_OFFSET + BOOT_MEMORY ->
  Forall (fun e => 0 <= e_addr e /\ 0 <= e_len e /\ e_addr e + e_len e < 2 ^ 63) es ->
  vmm_ok old v -> low_tables (phys v) old -> map_end es <= 2 ^ 46 -> map_end es <= PAGE_SIZE_2MB * Z.of_nat fuel ->
  direct_tables ((map_end es + PAGE_SIZE_2MB - 1) / PAGE_SIZE_2MB) + 1 < low_left (v_pages v) ->
  0 <= pat_of (b_msrs s) < 2 ^ 64 ->
  wp (init_VMM kernel_end fuel bi) (fun _ s' => direct_mapped (map_end es) v (b_vmm s') /\ pat_entry (pat_of (b_msrs s')) 4 = WRITE_BACK) s.
Proof.
  intros v old Ht Hn Hlo Hhi Hes Hok Hlow Hme Hf Hcost Hpat.
  assert (0 <= map_end es) as Hpos.
  { unfold map_end. clear. assert (forall l m, 0 <= m -> 0 <= foldl (fun m e => Z.max m (e_addr e + e_len e)) m l) as H; [| by apply H].
    induction l as [|e l IH]; intros m Hm; [done |]. apply IH. lia. }
  unfold init_VMM. apply wp_bind, wp_zoom, wp_zoom. eapply wp_mono; [by apply (wp_find_map_end _ _ _ n es lo hi) |]. intros r a [-> ->].
  apply wp_bind, wp_zoom. cbn [view over l_vmm l_pages b_vmm v_pages]. fold v.
  replace (set_v_pages (v_pages v) v) with v by (by destruct v). eapply wp_mono; [by apply wp_init_direct |].
  intros [] v' Hv'. apply wp_zoom, wp_init_pat; [done |]. intros m' Hm' _. split; [exact Hv' |]. cbn. by rewrite Hm'.
Qed.
End boot_state.

(** * Theorems *)





Section theorems.
Context (kernel_start kernel_end : Z).

(** [init_PMM] makes the bitmap of the memory map: of the pages below the end of the
    available memory those are free that an available region above the first MiB
    reaches and that neither the kernel nor the bitmap occupies. It changes no
    memory but the bitmap, or, when the memory ends inside a page, the next byte. *)
Theorem init_PMM_spec fuel bootInfoAddr es (s : pmm) : bootable kernel_start kernel_end fuel bootInfoAddr es s ->
  wp (init_PMM kernel_start kernel_end fuel bootInfoAddr) (fun _ s' => pmm_initialised kernel_start kernel_end es s s') s.
Proof. apply wp_init_PMM. Qed.


(** [vmm_init_direct_mapping] makes a new top-level table, in use from then on,
    that maps the memory below [maxAddr] at [DIRECT_OFFSET] and keeps the kernel's
    half: with the old tables and enough free pages in the memory mapped at boot
    it never touches memory that is not mapped. *)
Theorem vmm_init_direct_mapping_spec fuel maxAddr (s : vmm pmm) :
  let old := cr3 (p_cpu (v_pages s)) in
  vmm_ok old s -> low_tables (phys s) old -> 0 <= maxAddr <= 2 ^ 46 -> maxAddr <= PAGE_SIZE_2MB * Z.of_nat fuel ->
  direct_tables ((maxAddr + PAGE_SIZE_2MB - 1) / PAGE_SIZE_2MB) + 1 < low_left (v_pages s) ->
  wp (vmm_init_direct_mapping fuel maxAddr) (fun _ s' => direct_mapped maxAddr s s') s.
Proof. apply wp_init_direct. Qed.

(** [init_pat] makes entry 4 of the page attribute table, the one that the flags
    named after write combining select, write-back, and changes nothing else. *)
Theorem init_pat_spec (m : gmap Z Z) : 0 <= pat_of m < 2 ^ 64 ->
  wp init_pat (fun _ m' =>
    (forall i, 0 <= i < 8 -> pat_entry (pat_of m') i = if decide (i = 4) then WRITE_BACK else pat_entry (pat_of m) i) /\
    (forall r, r <> MSR_IA32_PAT -> m' @@ r = m @@ r)) m.
Proof. intros Hp. apply wp_init_pat; [done |]. by intros m' H1 H2. Qed.

(** C13: from the boot loader to the managers of memory: with the kernel's first tables
    in its own image, the two initialisations leave page tables that map all
    memory, and an allocator that keeps the kernel, and the pages that are not
    available, in use. *)
Theorem init_memory_spec fuel physBootInfo es (s : boot) :
  let v := b_vmm s in let a := v_pages v in
  bootable kernel_start kernel_end fuel physBootInfo es a -> pmm_lock a = 0 -> 0 <= pat_of (b_msrs s) < 2 ^ 64 ->
  pt_wf (fun k => (k <? memory_pages es) && kernel_page kernel_start kernel_end es k) (phys v) (cr3 (p_cpu a)) ->
  low_tables (phys v) (cr3 (p_cpu a)) ->
  map_end es <= 2 ^ 46 -> map_end es <= PAGE_SIZE_2MB * Z.of_nat fuel ->
  direct_tables ((map_end es + PAGE_SIZE_2MB - 1) / PAGE_SIZE_2MB) + 1 < boot_pages kernel_start kernel_end es ->
  wp (init_memory kernel_start kernel_end fuel physBootInfo) (fun _ s' =>
    let v' := b_vmm s' in let root := cr3 (p_cpu (v_pages v')) in
    vmm_ok root v' /\
    (forall x, 0 <= x < map_end es -> hw_translate (phys v') root (DIRECT_OFFSET + x) = Some x) /\
    (forall w, vidx w 39 = 511 -> hw_walk (phys v') root (vpath w) = hw_walk (phys v) (cr3 (p_cpu a)) (vpath w)) /\
    total_pages (v_pages v') = memory_pages es /\ rflags (p_cpu (v_pages v')) = rflags (p_cpu a) /\
    (forall k, 0 <= k < memory_pages es -> free_page es k = false \/ kernel_page kernel_start kernel_end es k = true ->
       bitmap_test (v_pages v') k = true) /\
    pat_entry (pat_of (b_msrs s')) 4 = WRITE_BACK) s.
Proof.
  intros v a Hb Hlock Hpat Hwf Hlow Hme Hf Hcost. unfold init_memory. apply wp_bind, wp_zoom, wp_zoom.
  change (view l_pages (view l_vmm s)) with a. eapply wp_mono; [by apply wp_init_PMM |]. intros [] a1 Hi.
  destruct (initialised_ok _ _ _ _ _ _ _ Hb Hlock Hi) as (Hok & Hker & Hleft). destruct Hi as (Etot & Ecpu & _ & Hbit & Hfr).
  destruct Hb as [(lo & hi & n & Ht & Hn & Hlo & Hhi & Hd) Hes _ _ _ _].
  set (s1 := over l_vmm (over l_pages a1 (view l_vmm s)) s).
  assert (cr3 (p_cpu (v_pages (b_vmm s1))) = cr3 (p_cpu a)) as Hcr3 by (cbn; by rewrite Ecpu).
  eapply wp_mono; [eapply (wp_init_VMM kernel_end fuel physBootInfo n es lo hi s1); rewrite ?Hcr3; try done |].
  - eapply boot_tags_same; [| exact Ht]. intros va Hva. apply Hfr. lia.
  - split; [done |]. destruct Hwf as [H1 H2]. split; [| done]. intros q b Hq Hw. destruct (H1 q b Hq Hw) as (k & -> & Hk & [Hk1%Z.ltb_lt Hk2]%andb_true_iff).
    exists k. split_and!; [done | lia | lia |]. by apply Hker.
  - cbn [s1 over l_vmm l_pages b_vmm v_pages set_v_pages]. by rewrite Hleft.
  - intros [] s2 [(Hok2 & Hmap & Hhw & Hused & Ht2 & Hrf) Hp]. cbn [s1 over view l_vmm l_pages b_vmm v_pages phys set_v_pages] in *.
    split; [done |]. split; [done |]. split; [intros w Hw; rewrite Hhw by done; by rewrite Ecpu |].
    split; [congruence |]. split; [by rewrite Hrf, Ecpu |]. split; [| done].
    intros k Hk Hor. apply Hused. rewrite Hbit by done. destruct Hor as [-> | ->]; [done | apply orb_true_r].
Qed.

(** A tag of size zero, which is none of a memory map, is read for ever. *)
Theorem init_PMM_empty_tag fuel bootInfoAddr (s : pmm) :
  let p := first_tag bootInfoAddr in
  KERNEL_OFFSET <= p -> p + 8 <= KERNEL_OFFSET + BOOT_MEMORY -> p mod 8 = 0 ->
  load32 (bitmap s) (p - kernel_end) <> MULTIBOOT_TAG_TYPE_END -> load32 (bitmap s) (p - kernel_end) <> MULTIBOOT_TAG_TYPE_MMAP ->
  load32 (bitmap s) (p + 4 - kernel_end) = 0 -> init_PMM kernel_start kernel_end fuel bootInfoAddr s = Err Hang.
Proof.
  intros p H1 H2 Hal Ht1 Ht2 Hsz. unfold init_PMM. cbv zeta. fold p.
  assert (for_tags kernel_end fuel p (max_available kernel_end) 0 s = Err Hang) as E; [| unfold mbind, M_bind; by rewrite E].
  assert (forall va, KERNEL_OFFSET <= va -> va + 4 <= KERNEL_OFFSET + BOOT_MEMORY -> peek32 kernel_end va s = Ok (load32 (bitmap s) (va - kernel_end), s)) as Hpeek.
  { intros va Hv Hv'. unfold peek32, peek, guard, mbind, M_bind. by rewrite !boot_mapped_true by lia. }
  assert (next_tag p 0 = p) as Enext.
  { unfold next_tag. rewrite u64_small by (unfold KERNEL_OFFSET, BOOT_MEMORY, PAGE_SIZE_2MB in *; lia).
    rewrite (land_high_mask 3) by (unfold KERNEL_OFFSET, BOOT_MEMORY, PAGE_SIZE_2MB in *; lia). clear -Hal. dlia. }
  induction fuel as [|fuel IH]; cbn [for_tags]; unfold mbind, M_bind; rewrite Hpeek, !(proj2 (Z.eqb_neq _ _)) by (done || lia); [done |].
  unfold mret, M_ret. rewrite Hpeek, Hsz, Enext by lia. exact IH.
Qed.
End theorems.

(** * Witnesses *)

(** A machine with 8 MiB: a kernel from the first MiB on, its bitmap at page 0x1A0,
    and the boot loader's information at [info]: a tag of another type, and the
    memory map. *)
Definition demo_start : Z := KERNEL_OFFSET + 0x100000.
Definition demo_end : Z := KERNEL_OFFSET + 0x1A0000.
Definition demo_map : list mmap_entry :=
  [Entry 0 0x9FC00 1; Entry 0x9FC00 0x400 2; Entry 0x100000 0x700000 1; Entry 0xFFFC0000 0x40000 2].
Definition demo_info (info : Z) : memory :=
  foldl (fun m '(a, w) => store32 m (info + a - 0x1A0000) w) ∅
    [(0, 144); (8, 4); (12, 16); (16, 640); (20, 7168); (24, 6); (28, 112); (32, 24);
     (48, 0x9FC00); (56, 1); (64, 0x9FC00); (72, 0x400); (80, 2); (88, 0x100000); (96, 0x700000); (104, 1);
     (112, 0xFFFC0000); (120, 0x40000); (128, 2); (140, 8)].
Definition demo_pmm : pmm := Pmm (Cpu 0x202 0x101000) 0 (demo_info 0x10000) 0.

Lemma demo_tags : boot_tags demo_end (demo_info 0x10000) (KERNEL_OFFSET + 0x10000) (KERNEL_OFFSET + 0x10090) (first_tag 0x10000) 2 demo_map.
Proof.
  apply boot_other; [by vm_compute.. |].
  apply (boot_mmap _ _ _ _ _ 0 demo_map []); [by vm_compute.. | |].
  - intros [|[|[|[|i]]]] e Hi; cbn in Hi; simplify_eq; by vm_compute.
  - by apply boot_end; vm_compute.
Qed.

Lemma demo_bootable fuel : (2048 < fuel)%nat -> bootable demo_start demo_end fuel 0x10000 demo_map demo_pmm.
Proof.
  intros Hf. split.
  - exists (KERNEL_OFFSET + 0x10000), (KERNEL_OFFSET + 0x10090), 2%nat. split; [exact demo_tags |]. split; [lia |].
    split; [by vm_compute |]. split; [by vm_compute |]. left. by vm_compute.
  - repeat constructor; by vm_compute.
  - closed_range.
  - closed_range.
  - closed_range.
  - change (memory_pages demo_map) with 2048. lia.
Qed.

Lemma init_PMM_spec_witness :
  wp (init_PMM demo_start demo_end (Z.to_nat 3000) 0x10000) (fun _ s' => total_pages s' = 2048 /\ bitmap_test s' 0x1A0 = true /\ bitmap_test s' 0x1A1 = false) demo_pmm.
Proof.
  eapply wp_mono; [apply (init_PMM_spec demo_start demo_end (Z.to_nat 3000) 0x10000 demo_map demo_pmm), demo_bootable; lia |].
  intros [] s' (Ht & _ & _ & Hbit & _). split; [exact Ht |]. by rewrite !Hbit by closed_range.
Defined.


(** The tables of [boot.asm], with two of the 64 large pages. *)
Definition demo_tables : gmap Z Z :=
  <[0x101000 + 8 * 511 := 0x102003]> (<[0x102000 + 8 * 510 := 0x103003]> (<[0x103000 := 0x83]> (<[0x103008 := 0x200083]> ∅))).

Lemma demo_walk q b : valid_path 3 q -> walk demo_tables 0x101000 q = Some b ->
  (q, b) = ([], 0x101000) \/ (q, b) = ([511], 0x102000) \/ (q, b) = ([511; 510], 0x103000).
Proof.
  assert (forall i, 0 <= i < 512 -> next_table demo_tables 0x101000 i = if i =? 511 then Some 0x102000 else None) as H1.
  { intros i Hi. unfold next_table, demo_tables. rewrite !rd_insert, rd_empty. destruct (Z.eqb_spec i 511); repeat case_decide; subst; lia || done. }
  assert (forall i, 0 <= i < 512 -> next_table demo_tables 0x102000 i = if i =? 510 then Some 0x103000 else None) as H2.
  { intros i Hi. unfold next_table, demo_tables. rewrite !rd_insert, rd_empty. destruct (Z.eqb_spec i 510); repeat case_decide; subst; lia || done. }
  assert (forall i, 0 <= i < 512 -> next_table demo_tables 0x103000 i = None) as H3.
  { intros i Hi. unfold next_table, demo_tables. rewrite !rd_insert, rd_empty. repeat case_decide; lia || done. }
  intros [_ Hq] Hw. destruct q as [|i1 [|i2 [|i3 q]]]; cbn [walk] in Hw; rewrite ?Forall_cons in Hq.
  - injection Hw as <-. by left.
  - rewrite H1 in Hw by apply Hq. destruct (Z.eqb_spec i1 511); [| done]. injection Hw as <-. subst. right. by left.
  - rewrite H1 in Hw by apply Hq. destruct (Z.eqb_spec i1 511); [| done]. cbn in Hw. rewrite H2 in Hw by apply Hq.
    destruct (Z.eqb_spec i2 510); [| done]. injection Hw as <-. subst. right. by right.
  - rewrite H1 in Hw by apply Hq. destruct (Z.eqb_spec i1 511); [| done]. cbn in Hw. rewrite H2 in Hw by apply Hq.
    destruct (Z.eqb_spec i2 510); [| done]. cbn in Hw. rewrite H3 in Hw by apply Hq. done.
Qed.

Lemma demo_tables_wf used : used 0x101 = true -> used 0x102 = true -> used 0x103 = true -> pt_wf used demo_tables 0x101000.
Proof.
  intros U1 U2 U3. split.
  - intros q b Hq Hw. destruct (demo_walk q b Hq Hw) as [E|[E|E]]; injection E as -> ->; [exists 0x101 | exists 0x102 | exists 0x103]; by split_and!.
  - intros q q' b Hq Hq' Hw Hw'. destruct (demo_walk q b Hq Hw) as [E|[E|E]], (demo_walk q' b Hq' Hw') as [E'|[E'|E']]; by simplify_eq.
Qed.

Lemma demo_tables_low : low_tables demo_tables 0x101000.
Proof. intros q b Hq Hw. destruct (demo_walk q b Hq Hw) as [E|[E|E]]; injection E as -> ->; by vm_compute. Qed.

(** The first 2 MiB are in use. *)
Definition demo_bitmap : gmap Z Z := list_to_map ((fun i => (i, 0xFF)) <$> seqZ 0 64).
Definition demo_vmm : vmm pmm := Vmm (Pmm (Cpu 0x202 0x101000) 0 demo_bitmap 2048) demo_tables [].

Lemma vmm_init_direct_mapping_spec_witness :
  wp (vmm_init_direct_mapping 4 0x800000) (fun _ s' => hw_translate (phys s') (cr3 (p_cpu (v_pages s'))) (DIRECT_OFFSET + 0x712345) = Some 0x712345) demo_vmm.
Proof.
  eapply wp_mono; [apply (vmm_init_direct_mapping_spec 4 0x800000 demo_vmm) |].
  - split; [by vm_compute |]. by apply demo_tables_wf; vm_compute.
  - exact demo_tables_low.
  - closed_range.
  - by vm_compute.
  - by vm_compute.
  - intros [] s' (_ & H & _). by apply H.
Defined.

Lemma init_pat_spec_witness : wp init_pat (fun _ m' => pat_entry (pat_of m') 4 = WRITE_BACK /\ pat_entry (pat_of m') 7 = 0) {[MSR_IA32_PAT := 0x0007040600070406]}.
Proof.
  eapply wp_mono; [apply (init_pat_spec {[MSR_IA32_PAT := 0x0007040600070406]}); by vm_compute |].
  intros [] m' [H _]. by rewrite !H by lia.
Defined.

Definition demo_boot : boot := Boot (Vmm demo_pmm demo_tables []) {[MSR_IA32_PAT := 0x0007040600070406]}.

Lemma init_memory_spec_witness :
  wp (init_memory demo_start demo_end (Z.to_nat 3000) 0x10000) (fun _ s' =>
    let v' := b_vmm s' in hw_translate (phys v') (cr3 (p_cpu (v_pages v'))) (DIRECT_OFFSET + 0xFEE00300) = Some 0xFEE00300) demo_boot.
Proof.
  eapply wp_mono; [apply (init_memory_spec demo_start demo_end (Z.to_nat 3000) 0x10000 demo_map demo_boot) |].
  - apply demo_bootable. lia.
  - done.
  - by vm_compute.
  - by apply demo_tables_wf; vm_compute.
  - exact demo_tables_low.
  - by vm_compute.
  - rewrite Z2Nat.id by done. by vm_compute.
  - by vm_compute.
  - intros [] s' (_ & H & _). by apply H.
Defined.

Lemma init_PMM_empty_tag_witness :
  init_PMM demo_start demo_end 100 0x10000 (set_bitmap (store32 ∅ (0x10008 - 0x1A0000) 4) demo_pmm) = Err Hang.
Proof. by apply (init_PMM_empty_tag demo_start demo_end 100 0x10000 (set_bitmap (store32 ∅ (0x10008 - 0x1A0000) 4) demo_pmm)); vm_compute. Defined.

(** The information of the boot loader is not kept in use: when it lies behind the
    bitmap, the first page the allocator hands out is its page, and the code that
    takes it as a table clears what [init_LFB] and [parse_acpi] read later. *)
Theorem boot_information_given_out :
  wp (init_PMM demo_start demo_end (Z.to_nat 3000) 0x1A1000;; pmm_alloc_page) (fun r _ => r = 0x1A1000)
    (set_bitmap (demo_info 0x1A1000) demo_pmm).
Proof. by vm_compute. Qed.
