(* ===== verification/Font.v ===== *)
(** The font of the console ([drivers/video/font8x16.c]): 16 rows to a
    glyph, a byte each, the leftmost pixel in the highest bit. The table has
    the first 128 of the 256 glyphs; C fills the others with zeros. *)
From S2P Require Import Prelude.

Definition font8x16 : list (list Z) := [
  [0; 0; 0; 0; 0; 0; 0; 0; 0; 0; 0; 0; 0; 0; 0; 0];
  [0; 0; 0x7E; 0x81; 0xA5; 0x81; 0x81; 0xBD; 0x99; 0x81; 0x81; 0x7E; 0; 0; 0; 0];
  [0; 0; 0x7E; 0xFF; 0xDB; 0xFF; 0xFF; 0xC3; 0xE7; 0xFF; 0xFF; 0x7E; 0; 0; 0; 0];
  [0; 0; 0; 0; 0x6C; 0xFE; 0xFE; 0xFE; 0xFE; 0x7C; 0x38; 0x10; 0; 0; 0; 0];
  [0; 0; 0; 0; 0x10; 0x38; 0x7C; 0xFE; 0x7C; 0x38; 0x10; 0; 0; 0; 0; 0];
  [0; 0; 0; 0x18; 0x3C; 0x3C; 0xE7; 0xE7; 0xE7; 0x18; 0x18; 0x3C; 0; 0; 0; 0];
  [0; 0; 0; 0x18; 0x3C; 0x7E; 0xFF; 0xFF; 0x7E; 0x18; 0x18; 0x3C; 0; 0; 0; 0];
  [0; 0; 0; 0; 0; 0; 0x18; 0x3C; 0x3C; 0x18; 0; 0; 0; 0; 0; 0];
  [0xFF; 0xFF; 0xFF; 0xFF; 0xFF; 0xFF; 0xE7; 0xC3; 0xC3; 0xE7; 0xFF; 0xFF; 0xFF; 0xFF; 0xFF; 0xFF];
  [0; 0; 0; 0; 0; 0x3C; 0x66; 0x42; 0x42; 0x66; 0x3C; 0; 0; 0; 0; 0];
  [0xFF; 0xFF; 0xFF; 0xFF; 0xFF; 0xC3; 0x99; 0xBD; 0xBD; 0x99; 0xC3; 0xFF; 0xFF; 0xFF; 0xFF; 0xFF];
  [0; 0; 0x1E; 0x0E; 0x1A; 0x32; 0x78; 0xCC; 0xCC; 0xCC; 0xCC; 0x78; 0; 0; 0; 0];
  [0; 0; 0x3C; 0x66; 0x66; 0x66; 0x66; 0x3C; 0x18; 0x7E; 0x18; 0x18; 0; 0; 0; 0];
  [0; 0; 0x3F; 0x33; 0x3F; 0x30; 0x30; 0x30; 0x30; 0x70; 0xF0; 0xE0; 0; 0; 0; 0];
  [0; 0; 0x7F; 0x63; 0x7F; 0x63; 0x63; 0x63; 0x63; 0x67; 0xE7; 0xE6; 0xC0; 0; 0; 0];
  [0; 0; 0; 0x18; 0x18; 0xDB; 0x3C; 0xE7; 0x3C; 0xDB; 0x18; 0x18; 0; 0; 0; 0];
  [0; 0x80; 0xC0; 0xE0; 0xF0; 0xF8; 0xFE; 0xF8; 0xF0; 0xE0; 0xC0; 0x80; 0; 0; 0; 0];
  [0; 0x02; 0x06; 0x0E; 0x1E; 0x3E; 0xFE; 0x3E; 0x1E; 0x0E; 0x06; 0x02; 0; 0; 0; 0];
  [0; 0; 0x18; 0x3C; 0x7E; 0x18; 0x18; 0x18; 0x7E; 0x3C; 0x18; 0; 0; 0; 0; 0];
  [0; 0; 0x66; 0x66; 0x66; 0x66; 0x66; 0x66; 0x66; 0; 0x66; 0x66; 0; 0; 0; 0];
  [0; 0; 0x7F; 0xDB; 0xDB; 0xDB; 0x7B; 0x1B; 0x1B; 0x1B; 0x1B; 0x1B; 0; 0; 0; 0];
  [0; 0x7C; 0xC6; 0x60; 0x38; 0x6C; 0xC6; 0xC6; 0x6C; 0x38; 0x0C; 0xC6; 0x7C; 0; 0; 0];
  [0; 0; 0; 0; 0; 0; 0; 0; 0xFE; 0xFE; 0xFE; 0xFE; 0; 0; 0; 0];
  [0; 0; 0x18; 0x3C; 0x7E; 0x18; 0x18; 0x18; 0x7E; 0x3C; 0x18; 0x7E; 0; 0; 0; 0];
  [0; 0; 0x18; 0x3C; 0x7E; 0x18; 0x18; 0x18; 0x18; 0x18; 0x18; 0x18; 0; 0; 0; 0];
  [0; 0; 0x18; 0x18; 0x18; 0x18; 0x18; 0x18; 0x18; 0x7E; 0x3C; 0x18; 0; 0; 0; 0];
  [0; 0; 0; 0; 0; 0x18; 0x0C; 0xFE; 0x0C; 0x18; 0; 0; 0; 0; 0; 0];
  [0; 0; 0; 0; 0; 0x30; 0x60; 0xFE; 0x60; 0x30; 0; 0; 0; 0; 0; 0];
  [0; 0; 0; 0; 0; 0; 0xC0; 0xC0; 0xC0; 0xFE; 0; 0; 0; 0; 0; 0];
  [0; 0; 0; 0; 0; 0x28; 0x6C; 0xFE; 0x6C; 0x28; 0; 0; 0; 0; 0; 0];
  [0; 0; 0; 0; 0x10; 0x38; 0x38; 0x7C; 0x7C; 0xFE; 0xFE; 0; 0; 0; 0; 0];
  [0; 0; 0; 0; 0xFE; 0xFE; 0x7C; 0x7C; 0x38; 0x38; 0x10; 0; 0; 0; 0; 0];
  [0; 0; 0; 0; 0; 0; 0; 0; 0; 0; 0; 0; 0; 0; 0; 0];
  [0; 0; 0x18; 0x3C; 0x3C; 0x3C; 0x18; 0x18; 0x18; 0; 0x18; 0x18; 0; 0; 0; 0];
  [0; 0x66; 0x66; 0x66; 0x24; 0; 0; 0; 0; 0; 0; 0; 0; 0; 0; 0];
  [0; 0; 0; 0x6C; 0x6C; 0xFE; 0x6C; 0x6C; 0x6C; 0xFE; 0x6C; 0x6C; 0; 0; 0; 0];
  [0x18; 0x18; 0x7C; 0xC6; 0xC2; 0xC0; 0x7C; 0x06; 0x06; 0x86; 0xC6; 0x7C; 0x18; 0x18; 0; 0];
  [0; 0; 0; 0; 0xC2; 0xC6; 0x0C; 0x18; 0x30; 0x60; 0xC6; 0x86; 0; 0; 0; 0];
  [0; 0; 0x38; 0x6C; 0x6C; 0x38; 0x76; 0xDC; 0xCC; 0xCC; 0xCC; 0x76; 0; 0; 0; 0];
  [0; 0x30; 0x30; 0x30; 0x60; 0; 0; 0; 0; 0; 0; 0; 0; 0; 0; 0];
  [0; 0; 0x0C; 0x18; 0x30; 0x30; 0x30; 0x30; 0x30; 0x30; 0x18; 0x0C; 0; 0; 0; 0];
  [0; 0; 0x30; 0x18; 0x0C; 0x0C; 0x0C; 0x0C; 0x0C; 0x0C; 0x18; 0x30; 0; 0; 0; 0];
  [0; 0; 0; 0; 0; 0x66; 0x3C; 0xFF; 0x3C; 0x66; 0; 0; 0; 0; 0; 0];
  [0; 0; 0; 0; 0; 0x18; 0x18; 0x7E; 0x18; 0x18; 0; 0; 0; 0; 0; 0];
  [0; 0; 0; 0; 0; 0; 0; 0; 0; 0x18; 0x18; 0x18; 0x30; 0; 0; 0];
  [0; 0; 0; 0; 0; 0; 0; 0xFE; 0; 0; 0; 0; 0; 0; 0; 0];
  [0; 0; 0; 0; 0; 0; 0; 0; 0; 0; 0x18; 0x18; 0; 0; 0; 0];
  [0; 0; 0; 0; 0x02; 0x06; 0x0C; 0x18; 0x30; 0x60; 0xC0; 0x80; 0; 0; 0; 0];
  [0; 0; 0x38; 0x6C; 0xC6; 0xC6; 0xD6; 0xD6; 0xC6; 0xC6; 0x6C; 0x38; 0; 0; 0; 0];
  [0; 0; 0x18; 0x38; 0x78; 0x18; 0x18; 0x18; 0x18; 0x18; 0x18; 0x7E; 0; 0; 0; 0];
  [0; 0; 0x7C; 0xC6; 0x06; 0x0C; 0x18; 0x30; 0x60; 0xC0; 0xC6; 0xFE; 0; 0; 0; 0];
  [0; 0; 0x7C; 0xC6; 0x06; 0x06; 0x3C; 0x06; 0x06; 0x06; 0xC6; 0x7C; 0; 0; 0; 0];
  [0; 0; 0x0C; 0x1C; 0x3C; 0x6C; 0xCC; 0xFE; 0x0C; 0x0C; 0x0C; 0x1E; 0; 0; 0; 0];
  [0; 0; 0xFE; 0xC0; 0xC0; 0xC0; 0xFC; 0x06; 0x06; 0x06; 0xC6; 0x7C; 0; 0; 0; 0];
  [0; 0; 0x38; 0x60; 0xC0; 0xC0; 0xFC; 0xC6; 0xC6; 0xC6; 0xC6; 0x7C; 0; 0; 0; 0];
  [0; 0; 0xFE; 0xC6; 0x06; 0x06; 0x0C; 0x18; 0x30; 0x30; 0x30; 0x30; 0; 0; 0; 0];
  [0; 0; 0x7C; 0xC6; 0xC6; 0xC6; 0x7C; 0xC6; 0xC6; 0xC6; 0xC6; 0x7C; 0; 0; 0; 0];
  [0; 0; 0x7C; 0xC6; 0xC6; 0xC6; 0x7E; 0x06; 0x06; 0x06; 0x0C; 0x78; 0; 0; 0; 0];
  [0; 0; 0; 0; 0x18; 0x18; 0; 0; 0; 0x18; 0x18; 0; 0; 0; 0; 0];
  [0; 0; 0; 0; 0x18; 0x18; 0; 0; 0; 0x18; 0x18; 0x30; 0; 0; 0; 0];
  [0; 0; 0; 0x06; 0x0C; 0x18; 0x30; 0x60; 0x30; 0x18; 0x0C; 0x06; 0; 0; 0; 0];
  [0; 0; 0; 0; 0; 0x7E; 0; 0; 0x7E; 0; 0; 0; 0; 0; 0; 0];
  [0; 0; 0; 0x60; 0x30; 0x18; 0x0C; 0x06; 0x0C; 0x18; 0x30; 0x60; 0; 0; 0; 0];
  [0; 0; 0x7C; 0xC6; 0xC6; 0x0C; 0x18; 0x18; 0x18; 0; 0x18; 0x18; 0; 0; 0; 0];
  [0; 0; 0; 0x7C; 0xC6; 0xC6; 0xDE; 0xDE; 0xDE; 0xDC; 0xC0; 0x7C; 0; 0; 0; 0];
  [0; 0; 0x10; 0x38; 0x6C; 0xC6; 0xC6; 0xFE; 0xC6; 0xC6; 0xC6; 0xC6; 0; 0; 0; 0];
  [0; 0; 0xFC; 0x66; 0x66; 0x66; 0x7C; 0x66; 0x66; 0x66; 0x66; 0xFC; 0; 0; 0; 0];
  [0; 0; 0x3C; 0x66; 0xC2; 0xC0; 0xC0; 0xC0; 0xC0; 0xC2; 0x66; 0x3C; 0; 0; 0; 0];
  [0; 0; 0xF8; 0x6C; 0x66; 0x66; 0x66; 0x66; 0x66; 0x66; 0x6C; 0xF8; 0; 0; 0; 0];
  [0; 0; 0xFE; 0x66; 0x62; 0x68; 0x78; 0x68; 0x60; 0x62; 0x66; 0xFE; 0; 0; 0; 0];
  [0; 0; 0xFE; 0x66; 0x62; 0x68; 0x78; 0x68; 0x60; 0x60; 0x60; 0xF0; 0; 0; 0; 0];
  [0; 0; 0x3C; 0x66; 0xC2; 0xC0; 0xC0; 0xDE; 0xC6; 0xC6; 0x66; 0x3A; 0; 0; 0; 0];
  [0; 0; 0xC6; 0xC6; 0xC6; 0xC6; 0xFE; 0xC6; 0xC6; 0xC6; 0xC6; 0xC6; 0; 0; 0; 0];
  [0; 0; 0x3C; 0x18; 0x18; 0x18; 0x18; 0x18; 0x18; 0x18; 0x18; 0x3C; 0; 0; 0; 0];
  [0; 0; 0x1E; 0x0C; 0x0C; 0x0C; 0x0C; 0x0C; 0xCC; 0xCC; 0xCC; 0x78; 0; 0; 0; 0];
  [0; 0; 0xE6; 0x66; 0x66; 0x6C; 0x78; 0x78; 0x6C; 0x66; 0x66; 0xE6; 0; 0; 0; 0];
  [0; 0; 0xF0; 0x60; 0x60; 0x60; 0x60; 0x60; 0x60; 0x62; 0x66; 0xFE; 0; 0; 0; 0];
  [0; 0; 0xC6; 0xEE; 0xFE; 0xFE; 0xD6; 0xC6; 0xC6; 0xC6; 0xC6; 0xC6; 0; 0; 0; 0];
  [0; 0; 0xC6; 0xE6; 0xF6; 0xFE; 0xDE; 0xCE; 0xC6; 0xC6; 0xC6; 0xC6; 0; 0; 0; 0];
  [0; 0; 0x7C; 0xC6; 0xC6; 0xC6; 0xC6; 0xC6; 0xC6; 0xC6; 0xC6; 0x7C; 0; 0; 0; 0];
  [0; 0; 0xFC; 0x66; 0x66; 0x66; 0x7C; 0x60; 0x60; 0x60; 0x60; 0xF0; 0; 0; 0; 0];
  [0; 0; 0x7C; 0xC6; 0xC6; 0xC6; 0xC6; 0xC6; 0xC6; 0xD6; 0xDE; 0x7C; 0x0C; 0x0E; 0; 0];
  [0; 0; 0xFC; 0x66; 0x66; 0x66; 0x7C; 0x6C; 0x66; 0x66; 0x66; 0xE6; 0; 0; 0; 0];
  [0; 0; 0x7C; 0xC6; 0xC6; 0x60; 0x38; 0x0C; 0x06; 0xC6; 0xC6; 0x7C; 0; 0; 0; 0];
  [0; 0; 0x7E; 0x7E; 0x5A; 0x18; 0x18; 0x18; 0x18; 0x18; 0x18; 0x3C; 0; 0; 0; 0];
  [0; 0; 0xC6; 0xC6; 0xC6; 0xC6; 0xC6; 0xC6; 0xC6; 0xC6; 0xC6; 0x7C; 0; 0; 0; 0];
  [0; 0; 0xC6; 0xC6; 0xC6; 0xC6; 0xC6; 0xC6; 0xC6; 0x6C; 0x38; 0x10; 0; 0; 0; 0];
  [0; 0; 0xC6; 0xC6; 0xC6; 0xC6; 0xD6; 0xD6; 0xD6; 0xFE; 0xEE; 0x6C; 0; 0; 0; 0];
  [0; 0; 0xC6; 0xC6; 0x6C; 0x7C; 0x38; 0x38; 0x7C; 0x6C; 0xC6; 0xC6; 0; 0; 0; 0];
  [0; 0; 0x66; 0x66; 0x66; 0x66; 0x3C; 0x18; 0x18; 0x18; 0x18; 0x3C; 0; 0; 0; 0];
  [0; 0; 0xFE; 0xC6; 0x86; 0x0C; 0x18; 0x30; 0x60; 0xC2; 0xC6; 0xFE; 0; 0; 0; 0];
  [0; 0; 0x3C; 0x30; 0x30; 0x30; 0x30; 0x30; 0x30; 0x30; 0x30; 0x3C; 0; 0; 0; 0];
  [0; 0; 0; 0x80; 0xC0; 0xE0; 0x70; 0x38; 0x1C; 0x0E; 0x06; 0x02; 0; 0; 0; 0];
  [0; 0; 0x3C; 0x0C; 0x0C; 0x0C; 0x0C; 0x0C; 0x0C; 0x0C; 0x0C; 0x3C; 0; 0; 0; 0];
  [0x10; 0x38; 0x6C; 0xC6; 0; 0; 0; 0; 0; 0; 0; 0; 0; 0; 0; 0];
  [0; 0; 0; 0; 0; 0; 0; 0; 0; 0; 0; 0; 0; 0xFF; 0; 0];
  [0x30; 0x30; 0x18; 0; 0; 0; 0; 0; 0; 0; 0; 0; 0; 0; 0; 0];
  [0; 0; 0; 0; 0; 0x78; 0x0C; 0x7C; 0xCC; 0xCC; 0xCC; 0x76; 0; 0; 0; 0];
  [0; 0; 0xE0; 0x60; 0x60; 0x78; 0x6C; 0x66; 0x66; 0x66; 0x66; 0x7C; 0; 0; 0; 0];
  [0; 0; 0; 0; 0; 0x7C; 0xC6; 0xC0; 0xC0; 0xC0; 0xC6; 0x7C; 0; 0; 0; 0];
  [0; 0; 0x1C; 0x0C; 0x0C; 0x3C; 0x6C; 0xCC; 0xCC; 0xCC; 0xCC; 0x76; 0; 0; 0; 0];
  [0; 0; 0; 0; 0; 0x7C; 0xC6; 0xFE; 0xC0; 0xC0; 0xC6; 0x7C; 0; 0; 0; 0];
  [0; 0; 0x38; 0x6C; 0x64; 0x60; 0xF0; 0x60; 0x60; 0x60; 0x60; 0xF0; 0; 0; 0; 0];
  [0; 0; 0; 0; 0; 0x76; 0xCC; 0xCC; 0xCC; 0xCC; 0xCC; 0x7C; 0x0C; 0xCC; 0x78; 0];
  [0; 0; 0xE0; 0x60; 0x60; 0x6C; 0x76; 0x66; 0x66; 0x66; 0x66; 0xE6; 0; 0; 0; 0];
  [0; 0; 0x18; 0x18; 0; 0x38; 0x18; 0x18; 0x18; 0x18; 0x18; 0x3C; 0; 0; 0; 0];
  [0; 0; 0x06; 0x06; 0; 0x0E; 0x06; 0x06; 0x06; 0x06; 0x06; 0x06; 0x66; 0x66; 0x3C; 0];
  [0; 0; 0xE0; 0x60; 0x60; 0x66; 0x6C; 0x78; 0x78; 0x6C; 0x66; 0xE6; 0; 0; 0; 0];
  [0; 0; 0x38; 0x18; 0x18; 0x18; 0x18; 0x18; 0x18; 0x18; 0x18; 0x3C; 0; 0; 0; 0];
  [0; 0; 0; 0; 0; 0xEC; 0xFE; 0xD6; 0xD6; 0xD6; 0xD6; 0xC6; 0; 0; 0; 0];
  [0; 0; 0; 0; 0; 0xDC; 0x66; 0x66; 0x66; 0x66; 0x66; 0x66; 0; 0; 0; 0];
  [0; 0; 0; 0; 0; 0x7C; 0xC6; 0xC6; 0xC6; 0xC6; 0xC6; 0x7C; 0; 0; 0; 0];
  [0; 0; 0; 0; 0; 0xDC; 0x66; 0x66; 0x66; 0x66; 0x66; 0x7C; 0x60; 0x60; 0xF0; 0];
  [0; 0; 0; 0; 0; 0x76; 0xCC; 0xCC; 0xCC; 0xCC; 0xCC; 0x7C; 0x0C; 0x0C; 0x1E; 0];
  [0; 0; 0; 0; 0; 0xDC; 0x76; 0x66; 0x60; 0x60; 0x60; 0xF0; 0; 0; 0; 0];
  [0; 0; 0; 0; 0; 0x7C; 0xC6; 0x60; 0x38; 0x0C; 0xC6; 0x7C; 0; 0; 0; 0];
  [0; 0; 0x10; 0x30; 0x30; 0xFC; 0x30; 0x30; 0x30; 0x30; 0x36; 0x1C; 0; 0; 0; 0];
  [0; 0; 0; 0; 0; 0xCC; 0xCC; 0xCC; 0xCC; 0xCC; 0xCC; 0x76; 0; 0; 0; 0];
  [0; 0; 0; 0; 0; 0x66; 0x66; 0x66; 0x66; 0x66; 0x3C; 0x18; 0; 0; 0; 0];
  [0; 0; 0; 0; 0; 0xC6; 0xC6; 0xD6; 0xD6; 0xD6; 0xFE; 0x6C; 0; 0; 0; 0];
  [0; 0; 0; 0; 0; 0xC6; 0x6C; 0x38; 0x38; 0x38; 0x6C; 0xC6; 0; 0; 0; 0];
  [0; 0; 0; 0; 0; 0xC6; 0xC6; 0xC6; 0xC6; 0xC6; 0xC6; 0x7E; 0x06; 0x0C; 0xF8; 0];
  [0; 0; 0; 0; 0; 0xFE; 0xCC; 0x18; 0x30; 0x60; 0xC6; 0xFE; 0; 0; 0; 0];
  [0; 0; 0x0E; 0x18; 0x18; 0x18; 0x70; 0x18; 0x18; 0x18; 0x18; 0x0E; 0; 0; 0; 0];
  [0; 0; 0x18; 0x18; 0x18; 0x18; 0; 0x18; 0x18; 0x18; 0x18; 0x18; 0; 0; 0; 0];
  [0; 0; 0x70; 0x18; 0x18; 0x18; 0x0E; 0x18; 0x18; 0x18; 0x18; 0x70; 0; 0; 0; 0];
  [0; 0; 0x76; 0xDC; 0; 0; 0; 0; 0; 0; 0; 0; 0; 0; 0; 0];
  [0; 0; 0; 0; 0; 0; 0; 0; 0; 0; 0; 0; 0; 0; 0; 0]
].

(** Row [i] of the glyph of character [c]. *)
Definition glyph (c i : Z) : Z := nth (Z.to_nat i) (nth (Z.to_nat c) font8x16 []) 0.

Lemma glyph_blank i : glyph 32 i = 0.
Proof.
  unfold glyph. destruct (Z.to_nat i) as [|n]; [done |]. do 15 (destruct n as [|n]; [done |]).
  by destruct n.
Qed.
