(* ===== verification/Lfb.v ===== *)
(** The text console on the linear framebuffer ([drivers/video/lfb.c]): pixels
    and glyphs in a back buffer, a cursor, scrolling, and the copy of the buffer
    to video memory. *)
From S2P Require Import Prelude CString Font.

(** * State *)

Definition LFB_ADDR : Z := 0xFFFFFFFFC0000000.

(** The global [lfb], with the bytes of the two areas it points to, and the
    vector extension found by [init_utils]. *)
Record framebuffer : Type := Fb {
  fb_mem : memory;
  vram : Z;
  buffer : Z;
  width : Z;
  height : Z;
  pitch : Z;
  fb_size : Z;
  char_width : Z;
  char_height : Z;
  cursor_x : Z;
  cursor_y : Z;
  sse_avx : Z;
}.

Definition set_fb_mem (m : memory) (s : framebuffer) : framebuffer :=
  Fb m (vram s) (buffer s) (width s) (height s) (pitch s) (fb_size s) (char_width s) (char_height s)
    (cursor_x s) (cursor_y s) (sse_avx s).
Definition set_cursor (x y : Z) (s : framebuffer) : framebuffer :=
  Fb (fb_mem s) (vram s) (buffer s) (width s) (height s) (pitch s) (fb_size s) (char_width s) (char_height s)
    x y (sse_avx s).
Definition set_cursor_x (x : Z) (s : framebuffer) : framebuffer := set_cursor x (cursor_y s) s.
Definition set_cursor_y (y : Z) (s : framebuffer) : framebuffer := set_cursor (cursor_x s) y s.

(** * Operations *)

(** [n] bytes at [a] are in an area of [size] bytes at [base]. *)
Definition inside (base size a n : Z) : bool := (base <=? a) && (a + n <=? base + size) && (0 <=? n).

Definition putpixel (x y color : Z) : M framebuffer unit :=
  s ← get;
  if (width s <=? u32 x) || (height s <=? u32 y) then mret tt
  else
    let a := buffer s + 4 * u32 (u32 (y * (pitch s / 4)) + x) in
    if inside (buffer s) (fb_size s) a 4 then modify (set_fb_mem (store32 (fb_mem s) a color)) else fail Fault.

Definition draw_char_at (x y c fg bg : Z) : M framebuffer unit :=
  s ← get;
  for_loop (Z.to_nat (char_height s)) 0 (fun i =>
    for_loop (Z.to_nat (char_width s)) 0 (fun j =>
      if truthy (Z.land (Z.shiftr (glyph (u8 c) i) (7 - j)) 1) then putpixel (s32 (x + j)) (s32 (y + i)) fg
      else putpixel (s32 (x + j)) (s32 (y + i)) bg)).

Definition lfb_scroll : M framebuffer unit :=
  s ← get;
  let line_size := u32 (pitch s * char_height s) in
  let move_size := u32 (fb_size s - line_size) in
  (if inside (buffer s) (fb_size s) (buffer s) move_size && inside (buffer s) (fb_size s) (buffer s + line_size) move_size
   then modify (fun s => set_fb_mem (memcpy (Z.to_nat move_size) (buffer s) (buffer s + line_size) (fb_mem s)) s)
   else fail Fault);;
  if inside (buffer s) (fb_size s) (buffer s + move_size) line_size
  then modify (fun s => set_fb_mem (memset (Z.to_nat line_size) (buffer s + move_size) 0 (fb_mem s)) s)
  else fail Fault.

Definition kputchar_direct (c : Z) : M framebuffer unit :=
  s ← get;
  go_on ← (
    if c =? 10 then
      modify (set_cursor 0 (u32 (cursor_y s + char_height s)));; mret true
    else if c =? 8 then
      if (cursor_x s =? 0) && (cursor_y s =? 0) then mret false
      else
        (if cursor_x s =? 0 then modify (set_cursor (u32 (width s - char_width s)) (u32 (cursor_y s - char_height s)))
         else modify (set_cursor_x (u32 (cursor_x s - char_width s))));;
        t ← get;
        draw_char_at (s32 (cursor_x t)) (s32 (cursor_y t)) 32 0xFFFFFFFF 0;;
        mret true
    else
      draw_char_at (s32 (cursor_x s)) (s32 (cursor_y s)) c 0xFFFFFFFF 0;;
      modify (fun t => set_cursor_x (u32 (cursor_x t + char_width t)) t);;
      mret true);
  if negb go_on then mret tt
  else
    t ← get;
    (when (width t <? u32 (cursor_x t + char_width t)) (
      modify (fun t => set_cursor 0 (u32 (cursor_y t + char_height t)) t)));;
    t ← get;
    when (height t <? u32 (cursor_y t + char_height t)) (
      lfb_scroll;;
      modify (fun t => set_cursor_y (u32 (cursor_y t - char_height t)) t)).

Definition kputchar (c : Z) : M framebuffer unit := kputchar_direct c.

Definition digit (d : Z) : Z := nth (Z.to_nat d) [48; 49; 50; 51; 52; 53; 54; 55; 56; 57; 97; 98; 99; 100; 101; 102] 0.

(** The loop that fills [buf] with the digits of [num], the lowest first; 32
    digits are enough for every 32-bit number. *)
Fixpoint num_digits (fuel : nat) (num base : Z) : list Z :=
  match fuel with
  | O => []
  | S fuel' => if 0 <? num then digit (num mod base) :: num_digits fuel' (num / base) base else []
  end.

Definition kputnum_direct (num base : Z) : M framebuffer unit :=
  if num =? 0 then kputchar_direct 48
  else
    (fix put (l : list Z) : M framebuffer unit :=
       match l with [] => mret tt | c :: l' => put l';; kputchar_direct c end) (num_digits 32 num base).

(** The copies in assembly move whole blocks: what is left of the size is not
    copied. *)
Definition lfb_swap : M framebuffer unit :=
  s ← get;
  let n :=
    if sse_avx s =? 0 then fb_size s
    else if sse_avx s =? 1 then fb_size s / 128 * 128
    else if sse_avx s =? 2 then fb_size s / 256 * 256
    else 0 in
  modify (set_fb_mem (memcpy (Z.to_nat n) (vram s) (buffer s) (fb_mem s))).

(** * Specification: a text terminal *)

(** What the screen shows: characters by row and column, and where the next one
    goes. *)
Record terminal : Type := Term { rows : Z; cols : Z; cell : Z -> Z -> Z; trow : Z; tcol : Z }.

Definition set_cell (r c x : Z) (t : terminal) : terminal :=
  Term (rows t) (cols t) (fun r' c' => if decide (r' = r /\ c' = c) then x else cell t r' c') (trow t) (tcol t).
Definition move_to (r c : Z) (t : terminal) : terminal := Term (rows t) (cols t) (cell t) r c.

Definition wrap_line (t : terminal) : terminal :=
  if decide (cols t <= tcol t) then move_to (trow t + 1) 0 t else t.
Definition scroll (t : terminal) : terminal :=
  if decide (rows t <= trow t) then
    Term (rows t) (cols t) (fun r c => if decide (r < rows t - 1) then cell t (r + 1) c else 32) (trow t - 1) (tcol t)
  else t.

Definition emit (x : Z) (t : terminal) : terminal :=
  if decide (x = 10) then scroll (wrap_line (move_to (trow t + 1) 0 t))
  else if decide (x = 8) then
    if decide (trow t = 0 /\ tcol t = 0) then t
    else
      let '(r, c) := if decide (tcol t = 0) then (trow t - 1, cols t - 1) else (trow t, tcol t - 1) in
      set_cell r c 32 (move_to r c t)
  else scroll (wrap_line (move_to (trow t) (tcol t + 1) (set_cell (trow t) (tcol t) x t))).

(** The pixel at column [x] of line [y] of the back buffer. *)
Definition pixel (s : framebuffer) (x y : Z) : Z := load32 (fb_mem s) (buffer s + 4 * (y * (pitch s / 4) + x)).

(** The colour of a pixel of a glyph, white on black. *)
Definition ink (c i j : Z) : Z := if Z.testbit (glyph (u8 c) i) (7 - j) then 0xFFFFFFFF else 0.

(** The geometry that [init_LFB] sets up: glyphs of 8 by 16, whole columns, and
    a back buffer of less than 2 GiB that is not the video memory. *)
Record geometry (s : framebuffer) : Prop := {
  g_char : char_width s = 8 /\ char_height s = 16;
  g_width : 8 <= width s /\ width s mod 8 = 0 /\ 4 * width s <= pitch s;
  g_height : 16 <= height s;
  g_pitch : pitch s mod 4 = 0;
  g_size : fb_size s = pitch s * height s /\ fb_size s < 2 ^ 31;
  g_apart : vram s + fb_size s <= buffer s \/ buffer s + fb_size s <= vram s;
}.

(** The back buffer shows the cells of [t], and the cursor is where it says. *)
Record drawn (t : terminal) (s : framebuffer) : Prop := {
  sh_geometry : geometry s;
  sh_rows : rows t = height s / 16;
  sh_cols : cols t = width s / 8;
  sh_cursor : cursor_x s = 8 * tcol t /\ cursor_y s = 16 * trow t;
  sh_pixel x y : 0 <= x < width s -> 0 <= y < height s ->
    pixel s x y = if decide (y < 16 * rows t) then ink (cell t (y / 16) (x / 8)) (y mod 16) (x mod 8) else 0;
}.

(** Between characters the cursor is on the screen. *)
Definition shows (t : terminal) (s : framebuffer) : Prop :=
  drawn t s /\ 0 <= tcol t < cols t /\ 0 <= trow t < rows t.

(** * Lemmas *)

Lemma inside_true base size a n : base <= a -> 0 <= n -> a + n <= base + size -> inside base size a n = true.
Proof. intros. unfold inside. rewrite !andb_true_iff, !Z.leb_le. lia. Qed.

Lemma ink_bit c i j (A : Type) (t e : A) : 0 <= j < 8 ->
  (if truthy (Z.land (Z.shiftr (glyph c i) (7 - j)) 1) then t else e) = if Z.testbit (glyph c i) (7 - j) then t else e.
Proof.
  intros Hj. replace (Z.land _ 1) with (Z.land (Z.shiftr (glyph c i) (7 - j)) (2 ^ 0)) by done.
  by rewrite land_pow2_testbit, Z.shiftr_spec, Z.add_0_l by lia.
Qed.

(** Only pixels changed. *)
Definition repainted (f : Z -> Z -> Z) (s s' : framebuffer) : Prop :=
  s' = set_fb_mem (fb_mem s') s /\ forall x y, 0 <= x < width s -> 0 <= y < height s -> pixel s' x y = f x y.

Lemma geometry_mem m s : geometry s -> geometry (set_fb_mem m s).
Proof. by intros [? ? ? ? ? ?]. Qed.

(** Addresses of pixels of a line are apart, and those of different lines too. *)
Lemma pixel_addr s x y x' y' : geometry s -> 0 <= x < width s -> 0 <= y < height s -> 0 <= x' < width s -> 0 <= y' < height s ->
  y * (pitch s / 4) + x = y' * (pitch s / 4) + x' -> x = x' /\ y = y'.
Proof.
  intros [_ [? [_ ?]] _ Hp _ _] Hx Hy Hx' Hy' E. assert (width s <= pitch s / 4) by dlia.
  set (w := pitch s / 4) in *. assert (y = y') as -> by nia. lia.
Qed.

Lemma pixel_bound s x y : geometry s -> 0 <= x < width s -> 0 <= y < height s ->
  0 <= y * (pitch s / 4) /\ 4 * (y * (pitch s / 4) + x) + 4 <= fb_size s /\ 4 * (pitch s / 4) = pitch s.
Proof.
  intros [_ [? [_ ?]] _ Hp [-> _] _] Hx Hy. assert (width s <= pitch s / 4 /\ pitch s = 4 * (pitch s / 4)) as [Hw E] by dlia.
  set (w := pitch s / 4) in *. rewrite E. nia.
Qed.

Lemma wp_putpixel x y color f s0 s (Q : unit -> framebuffer -> Prop) : geometry s0 -> repainted f s0 s ->
  0 <= x < width s0 -> 0 <= y < height s0 -> 0 <= color < 2 ^ 32 ->
  (forall s', repainted (fun x' y' => if decide (x' = x /\ y' = y) then color else f x' y') s0 s' -> Q tt s') ->
  wp (putpixel x y color) Q s.
Proof.
  intros Hg [Es Hf] Hx Hy Hc HQ. destruct (pixel_bound s0 x y Hg Hx Hy) as (H1 & H2 & H3). pose proof (g_size _ Hg) as [Hs Hs2].
  assert (width s0 <= fb_size s0 /\ height s0 <= fb_size s0) as [Hw Hh].
  { pose proof (g_width _ Hg). pose proof (g_height _ Hg). rewrite Hs. split; nia. }
  apply wp_bind, wp_get. rewrite Es. cbn [width height pitch buffer fb_size fb_mem set_fb_mem].
  rewrite (u32_small x), (u32_small y) by lia.
  rewrite (proj2 (Z.leb_gt (width s0) x)), (proj2 (Z.leb_gt (height s0) y)) by lia. cbn [orb].
  rewrite (u32_small (y * _)), u32_small by lia. rewrite inside_true by lia. rewrite <- Es. apply wp_modify.
  assert (set_fb_mem (store32 (fb_mem s) (buffer s0 + 4 * (y * (pitch s0 / 4) + x)) color) s
    = set_fb_mem (store32 (fb_mem s) (buffer s0 + 4 * (y * (pitch s0 / 4) + x)) color) s0) as -> by by rewrite Es.
  apply HQ. split; [done |]. intros x' y' Hx' Hy'. unfold pixel. cbn [fb_mem buffer pitch set_fb_mem].
  rewrite load_store32; [| done |].
  - case_decide as E.
    + destruct (pixel_addr s0 x y x' y') as [-> ->]; try done; [lia |]. by rewrite decide_True.
    + rewrite decide_False by (intros [-> ->]; by destruct E). rewrite <- Hf by done. unfold pixel. by rewrite Es.
  - destruct (decide (x = x' /\ y = y')) as [[-> ->]|Hne]; [by left |].
    destruct (decide (y * (pitch s0 / 4) + x = y' * (pitch s0 / 4) + x')) as [E|]; [| lia].
    destruct Hne. by apply (pixel_addr s0).
Qed.

Lemma repainted_ext f g s s' : repainted f s s' -> (forall x y, 0 <= x < width s -> 0 <= y < height s -> f x y = g x y) -> repainted g s s'.
Proof. intros [E Hf] Hfg. split; [done |]. intros x y Hx Hy. rewrite <- Hfg by done. by apply Hf. Qed.

Lemma repainted_refl s : repainted (pixel s) s s.
Proof. split; [by destruct s | done]. Qed.

(** The picture with the first [i] rows of the glyph of [c] at [(x, y)], and [j]
    pixels of the next. *)
Definition inked (c x y i j : Z) (f : Z -> Z -> Z) : Z -> Z -> Z := fun x' y' =>
  if decide ((x <= x' < x + 8 /\ y <= y' < y + i) \/ (x <= x' < x + j /\ y' = y + i)) then ink c (y' - y) (x' - x) else f x' y'.

Lemma geometry_small s : geometry s -> width s < 2 ^ 31 /\ height s < 2 ^ 31.
Proof.
  intros Hg. destruct (g_size _ Hg) as [Hs Hs2]. pose proof (g_width _ Hg). pose proof (g_height _ Hg).
  assert (width s <= fb_size s /\ height s <= fb_size s) by (rewrite Hs; split; nia). lia.
Qed.

Lemma wp_draw_char_at x y c s (Q : unit -> framebuffer -> Prop) : geometry s ->
  0 <= x -> x + 8 <= width s -> 0 <= y -> y + 16 <= height s ->
  (forall s', repainted (inked c x y 16 0 (pixel s)) s s' -> Q tt s') ->
  wp (draw_char_at x y c 0xFFFFFFFF 0) Q s.
Proof.
  intros Hg Hx Hx2 Hy Hy2 HQ. pose proof (geometry_small _ Hg) as [Hw Hh]. apply wp_bind, wp_get. destruct (g_char _ Hg) as [-> ->].
  eapply wp_mono; [apply (wp_for _ (fun i s' => repainted (inked c x y i 0 (pixel s)) s s')) | intros [] s'; apply HQ].
  - apply (repainted_ext (pixel s)); [apply repainted_refl |]. intros x' y' _ _. unfold inked. by rewrite decide_False by lia.
  - intros i s1 Hi H1. eapply wp_mono; [apply (wp_for _ (fun j s' => repainted (inked c x y i j (pixel s)) s s')); [exact H1 |] |].
    + intros j s2 Hj H2. rewrite !s32_small by lia.
      assert (forall v, v = ink c i j -> wp (putpixel (x + j) (y + i) v) (fun _ s' => repainted (inked c x y i (j + 1) (pixel s)) s s') s2) as Hput.
      { intros v ->. apply (wp_putpixel _ _ _ (inked c x y i j (pixel s)) s); [done | done | lia | lia | unfold ink; case_match; lia |].
        intros s3 H3. eapply repainted_ext; [exact H3 |]. intros x' y' _ _. unfold inked. cbv beta.
        repeat case_decide; try lia; try done. f_equal; lia. }
      rewrite (ink_bit (u8 c)) by lia. unfold ink in Hput. destruct (Z.testbit _ _); by apply Hput.
    + intros [] s2 H2. eapply repainted_ext; [exact H2 |]. intros x' y' _ _. unfold inked. repeat case_decide; lia || done.
Qed.

Lemma pixel_memory s m x y : (forall k, 0 <= k < 4 -> m @@ (buffer s + 4 * (y * (pitch s / 4) + x) + k) = fb_mem s @@ (buffer s + 4 * (y * (pitch s / 4) + x) + k)) ->
  pixel (set_fb_mem m s) x y = pixel s x y.
Proof.
  intros H. unfold pixel, load32. cbn. pose proof (H 0 ltac:(lia)) as H0. rewrite Z.add_0_r in H0. by rewrite H0, !H by lia.
Qed.

(** Branches on arithmetic conditions that [lia] settles. *)
Ltac decide_lia := repeat (case_decide; [try (exfalso; lia) | try (exfalso; lia)]).

(** Scrolling moves the picture up by 16 lines; the last 16 are black. *)
Lemma wp_lfb_scroll s (Q : unit -> framebuffer -> Prop) : geometry s ->
  (forall s', repainted (fun x y => if decide (y + 16 < height s) then pixel s x (y + 16) else 0) s s' -> Q tt s') ->
  wp lfb_scroll Q s.
Proof.
  intros Hg HQ. destruct (g_size _ Hg) as [Hs Hs2]. pose proof (g_height _ Hg) as Hh. pose proof (g_width _ Hg) as (Hw & _ & Hp).
  apply wp_bind, wp_get. destruct (g_char _ Hg) as [_ ->]. assert (0 <= pitch s * 16 <= fb_size s) as Hl by nia.
  cbv zeta. rewrite (u32_small (pitch s * 16)), u32_small by lia. set (line := pitch s * 16) in *.
  rewrite !inside_true by lia. cbn [andb]. apply wp_bind, wp_modify, wp_modify. apply HQ. split; [by destruct s |].
  intros x y Hx Hy. destruct (pixel_bound s x y Hg Hx Hy) as (H1 & H2 & H3). unfold pixel, load32. cbn.
  set (a := buffer s + 4 * (y * (pitch s / 4) + x)). assert (a = buffer s + 4 * (y * (pitch s / 4) + x)) as Ha by done.
  clearbody a. rewrite !memset_spec, !memcpy_spec by lia.
  destruct (decide (y + 16 < height s)) as [Hy'|Hy'].
  - assert (4 * ((y + 16) * (pitch s / 4) + x) + 4 <= fb_size s) as H4 by (apply pixel_bound; done || lia).
    assert (4 * ((y + 16) * (pitch s / 4) + x) = 4 * (y * (pitch s / 4) + x) + line) as E by (unfold line; lia). rewrite E in *.
    decide_lia.
    replace (buffer s + (4 * (y * (pitch s / 4) + x) + line)) with (a + line) by lia.
    assert (forall k, a + k - buffer s + (buffer s + line) = a + line + k) as Hk by lia. rewrite !Hk.
    by replace (a - buffer s + (buffer s + line)) with (a + line) by lia.
  - assert (fb_size s - line <= 4 * (y * (pitch s / 4) + x)) as H4.
    { unfold line. rewrite Hs. assert (pitch s * (height s - 16) <= pitch s * y) by nia. nia. }
    by decide_lia.
Qed.

(** ** The terminal *)

Lemma drawn_sizes t s : drawn t s -> 8 * cols t = width s /\ 0 < cols t < 2 ^ 28 /\
  16 * rows t <= height s < 16 * rows t + 16 /\ 0 < rows t < 2 ^ 27.
Proof.
  intros [Hg Hr Hc _ _]. pose proof (g_width _ Hg) as (? & ? & _). pose proof (g_height _ Hg).
  destruct (geometry_small _ Hg). rewrite Hr, Hc. dlia.
Qed.

Lemma repainted_fields f s s' : repainted f s s' ->
  width s' = width s /\ height s' = height s /\ cursor_x s' = cursor_x s /\ cursor_y s' = cursor_y s /\
  char_width s' = char_width s /\ char_height s' = char_height s /\ (geometry s -> geometry s').
Proof. intros [-> _]. split_and!; try done. apply geometry_mem. Qed.

Lemma drawn_move r c t s : drawn t s -> drawn (move_to r c t) (set_cursor (8 * c) (16 * r) s).
Proof. by intros [[? ? ? ? ? ?] ? ? _ Hp]. Qed.

Lemma drawn_cell r c x t s s' : drawn t s -> 0 <= r < rows t -> 0 <= c < cols t ->
  repainted (inked x (8 * c) (16 * r) 16 0 (pixel s)) s s' -> drawn (set_cell r c x t) s'.
Proof.
  intros [Hg Hr Hc Hcur Hp] Hrr Hcr Hrep. pose proof (repainted_fields _ _ _ Hrep) as (Ew & Eh & Ex & Ey & _ & _ & Hg').
  split; rewrite ?Ew, ?Eh, ?Ex, ?Ey; auto. intros x' y' Hx Hy. destruct Hrep as [_ Hf]. rewrite Hf by done. cbn.
  unfold inked. rewrite Hp by done. destruct (decide (8 * c <= x' < 8 * c + 8 /\ 16 * r <= y' < 16 * r + 16)) as [[H1 H2]|Hne].
  - rewrite decide_True by lia. rewrite decide_True by lia.
    assert (y' / 16 = r /\ x' / 8 = c /\ y' mod 16 = y' - 16 * r /\ x' mod 8 = x' - 8 * c) as (-> & -> & -> & ->) by dlia.
    by rewrite decide_True.
  - rewrite decide_False by lia. case_decide; [| done]. rewrite decide_False by dlia. done.
Qed.

Lemma ink_blank i j : ink 32 i j = 0.
Proof. unfold ink. change (u8 32) with 32. by rewrite glyph_blank, Z.testbit_0_l. Qed.

Lemma drawn_scroll t s s' : drawn t s -> rows t <= trow t ->
  repainted (fun x y => if decide (y + 16 < height s) then pixel s x (y + 16) else 0) s s' ->
  drawn (scroll t) (set_cursor (cursor_x s') (16 * (trow t - 1)) s').
Proof.
  intros Hd Hrow Hrep. pose proof (drawn_sizes _ _ Hd) as (H1 & H2 & H3 & H4). destruct Hd as [Hg Hr Hc [Hcx Hcy] Hp].
  pose proof (repainted_fields _ _ _ Hrep) as (Ew & Eh & Ex & Ey & _ & _ & Hg'). unfold scroll. rewrite decide_True by done.
  split; cbn; rewrite ?Ew, ?Eh, ?Ex, ?Ey; auto.
  - by destruct (Hg' Hg) as [? ? ? ? ? ?].
  - intros x y Hx Hy. destruct Hrep as [_ Hf]. change (pixel (set_cursor (cursor_x s) (16 * (trow t - 1)) s') x y) with (pixel s' x y).
    rewrite Hf by done. destruct (decide (y < 16 * rows t)) as [Hy1|Hy1].
    + destruct (decide (y / 16 < rows t - 1)) as [Hy2|Hy2].
      * rewrite decide_True by dlia. rewrite Hp, decide_True by dlia. f_equal; [f_equal; dlia | dlia].
      * rewrite ink_blank. case_decide; [| done]. rewrite Hp, decide_False by dlia. done.
    + case_decide; [| done]. rewrite Hp, decide_False by lia. done.
Qed.

(** The end of [kputchar_direct]: a new line at the end of a line, and a scroll
    at the end of the screen. *)
Lemma wp_after_char t s (Q : unit -> framebuffer -> Prop) : drawn t s -> 0 <= tcol t <= cols t -> 0 <= trow t <= rows t ->
  (tcol t = cols t -> trow t < rows t) ->
  (forall s', shows (scroll (wrap_line t)) s' -> Q tt s') ->
  wp (t ← get;
      (when (width t <? u32 (cursor_x t + char_width t)) (
        modify (fun t => set_cursor 0 (u32 (cursor_y t + char_height t)) t)));;
      t ← get;
      when (height t <? u32 (cursor_y t + char_height t)) (
        lfb_scroll;;
        modify (fun t => set_cursor_y (u32 (cursor_y t - char_height t)) t))) Q s.
Proof.
  intros Hd Hc Hr Hcr HQ. apply wp_bind, wp_get. apply wp_bind.
  apply (wp_mono _ (fun _ s1 => drawn (wrap_line t) s1)).
  { pose proof (drawn_sizes _ _ Hd) as (H1 & H2 & H3 & H4). pose proof (sh_cursor _ _ Hd) as [Hx Hy].
    destruct (g_char _ (sh_geometry _ _ Hd)) as [Ew Eh]. rewrite Ew, Hx, u32_small by lia. unfold wrap_line.
    apply wp_when; intros E; [apply Z.ltb_lt in E | apply Z.ltb_ge in E].
    - rewrite decide_True by lia. apply wp_modify. rewrite Hy, Eh, u32_small by lia.
      replace (16 * trow t + 16) with (16 * (trow t + 1)) by lia. by apply (drawn_move _ 0).
    - by rewrite decide_False by lia. }
  intros [] s1 Hd1. pose proof (drawn_sizes _ _ Hd1) as (H1 & H2 & H3 & H4). pose proof (sh_cursor _ _ Hd1) as [Hx Hy].
  destruct (g_char _ (sh_geometry _ _ Hd1)) as [Ew Eh].
  assert (0 <= tcol (wrap_line t) < cols (wrap_line t) /\ 0 <= trow (wrap_line t) <= rows (wrap_line t)) as [Hc1 Hr1].
  { pose proof (drawn_sizes _ _ Hd) as (? & ? & ? & ?). unfold wrap_line. case_decide; cbn; lia. }
  set (t1 := wrap_line t) in *. apply wp_bind, wp_get. rewrite Hy, Eh, u32_small by lia.
  apply wp_when; intros E; [apply Z.ltb_lt in E | apply Z.ltb_ge in E].
  - apply wp_bind, (wp_lfb_scroll _ _ (sh_geometry _ _ Hd1)). intros s2 Hrep. apply wp_modify, HQ.
    pose proof (repainted_fields _ _ _ Hrep) as (_ & _ & Ex2 & Ey2 & _ & Eh2 & _).
    unfold set_cursor_y. rewrite Ey2, Eh2, Hy, Eh, u32_small by lia. replace (16 * trow t1 - 16) with (16 * (trow t1 - 1)) by lia.
    split; [apply (drawn_scroll t1 s1); [done | lia | done] |]. unfold scroll. rewrite decide_True by lia. cbn. lia.
  - apply HQ. unfold scroll. rewrite decide_False by lia. split; [done | lia].
Qed.

Lemma wp_draw_cell r c x t s (Q : unit -> framebuffer -> Prop) : drawn t s -> 0 <= r < rows t -> 0 <= c < cols t ->
  cursor_x s = 8 * c -> cursor_y s = 16 * r -> (forall s', drawn (set_cell r c x t) s' -> Q tt s') ->
  wp (draw_char_at (s32 (cursor_x s)) (s32 (cursor_y s)) x 0xFFFFFFFF 0) Q s.
Proof.
  intros Hd Hr Hc -> -> HQ. pose proof (drawn_sizes _ _ Hd) as (H1 & H2 & H3 & H4).
  rewrite !s32_small by lia. apply wp_draw_char_at; [apply Hd | lia.. |]. intros s' Hrep. by apply HQ, (drawn_cell _ _ _ _ s).
Qed.

Lemma after_char_id t : tcol t < cols t -> trow t < rows t -> scroll (wrap_line t) = t.
Proof. intros. unfold wrap_line. rewrite decide_False by lia. unfold scroll. by rewrite decide_False by lia. Qed.

Lemma wp_kputchar_direct c t s : shows t s -> wp (kputchar_direct c) (fun _ s' => shows (emit c t) s') s.
Proof.
  intros [Hd [Hc Hr]]. pose proof (drawn_sizes _ _ Hd) as (H1 & H2 & H3 & H4). pose proof (sh_cursor _ _ Hd) as [Hx Hy].
  destruct (g_char _ (sh_geometry _ _ Hd)) as [Ew Eh]. apply wp_bind, wp_get, wp_bind. unfold emit.
  destruct (Z.eqb_spec c 10) as [->|Hn10]; [| destruct (Z.eqb_spec c 8) as [->|Hn8]].
  - rewrite decide_True by done. apply wp_bind, wp_modify, wp_ret. cbn [negb].
    rewrite Hy, Eh, u32_small by lia. replace (16 * trow t + 16) with (16 * (trow t + 1)) by lia.
    apply (wp_after_char (move_to (trow t + 1) 0 t)); [by apply (drawn_move _ 0) | cbn; lia.. | done].
  - rewrite decide_False, decide_True by done. rewrite Hx, Hy.
    replace ((8 * tcol t =? 0) && (16 * trow t =? 0)) with (bool_decide (trow t = 0 /\ tcol t = 0))
      by (apply eq_bool_prop_intro; rewrite bool_decide_spec, andb_True, !Is_true_true, !Z.eqb_eq; lia).
    case_decide as E0; [by rewrite bool_decide_true by done; apply wp_ret; cbn |]. rewrite bool_decide_false by done.
    apply wp_bind. case_decide as E.
    + rewrite E, Ew, Eh. cbn [Z.mul Z.eqb]. apply wp_modify, wp_bind, wp_get, wp_bind.
      rewrite !u32_small by lia. replace (width s - 8) with (8 * (cols t - 1)) by lia. replace (16 * trow t - 16) with (16 * (trow t - 1)) by lia.
      apply (wp_draw_cell (trow t - 1) (cols t - 1) 32 (move_to (trow t - 1) (cols t - 1) t)); [by apply drawn_move | cbn; lia.. | done | done |].
      intros s' Hd'. apply wp_ret. cbn [negb].
      apply (wp_after_char (set_cell (trow t - 1) (cols t - 1) 32 (move_to (trow t - 1) (cols t - 1) t))); [done | cbn; lia.. |].
      rewrite after_char_id by (cbn; lia). done.
    + destruct (Z.eqb_spec (8 * tcol t) 0); [lia |]. apply wp_modify, wp_bind, wp_get, wp_bind. unfold set_cursor_x.
      rewrite Hy, Ew, u32_small by lia. replace (8 * tcol t - 8) with (8 * (tcol t - 1)) by lia.
      apply (wp_draw_cell (trow t) (tcol t - 1) 32 (move_to (trow t) (tcol t - 1) t)); [by apply drawn_move | cbn; lia.. | done | done |].
      intros s' Hd'. apply wp_ret. cbn [negb].
      apply (wp_after_char (set_cell (trow t) (tcol t - 1) 32 (move_to (trow t) (tcol t - 1) t))); [done | cbn; lia.. |].
      rewrite after_char_id by (cbn; lia). done.
  - rewrite !decide_False by done. apply wp_bind, (wp_draw_cell (trow t) (tcol t) c t); [done | lia | lia | done | done |].
    intros s' Hd'. apply wp_bind, wp_modify, wp_ret. cbn [negb].
    pose proof (sh_cursor _ _ Hd') as [Hx' Hy']. destruct (g_char _ (sh_geometry _ _ Hd')) as [Ew' _]. cbn in Hx', Hy'.
    unfold set_cursor_x. rewrite Hx', Hy', Ew', u32_small by lia. replace (8 * tcol t + 8) with (8 * (tcol t + 1)) by lia.
    apply (wp_after_char (move_to (trow t) (tcol t + 1) (set_cell (trow t) (tcol t) c t))); [by apply drawn_move | cbn; lia.. | done].
Qed.

(** A text. *)
Definition kputs : list Z -> M framebuffer unit := fix go l := match l with [] => mret tt | c :: l' => kputchar_direct c;; go l' end.
Definition emit_all (l : list Z) (t : terminal) : terminal := fold_left (fun t c => emit c t) l t.

Lemma wp_kputs l t s : shows t s -> wp (kputs l) (fun _ s' => shows (emit_all l t) s') s.
Proof.
  revert t s. induction l as [|c l IH]; intros t s Hs; [done |]. apply wp_bind.
  eapply wp_mono; [by apply wp_kputchar_direct |]. intros [] s' Hs'. by apply IH.
Qed.

(** How much of the buffer [lfb_swap] copies. *)
Definition swapped (s : framebuffer) : Z :=
  if sse_avx s =? 0 then fb_size s else if sse_avx s =? 1 then fb_size s / 128 * 128
  else if sse_avx s =? 2 then fb_size s / 256 * 256 else 0.

Lemma swapped_range s : 0 <= fb_size s -> 0 <= swapped s <= fb_size s.
Proof. intros H. unfold swapped. repeat case_match; dlia. Qed.

(** What is copied is on the screen. *)
Definition displayed (s : framebuffer) : Prop :=
  forall k, 0 <= k < swapped s -> fb_mem s @@ (vram s + k) = fb_mem s @@ (buffer s + k).

Lemma wp_lfb_swap t s : shows t s -> wp lfb_swap (fun _ s' => shows t s' /\ displayed s') s.
Proof.
  intros [Hd Ht]. pose proof (sh_geometry _ _ Hd) as Hg. apply wp_bind, wp_get, wp_modify. change (if sse_avx s =? 0 then _ else _) with (swapped s).
  assert (0 <= fb_size s) as Hsz by (destruct (g_size _ Hg) as [-> _]; pose proof (g_width _ Hg); pose proof (g_height _ Hg); nia).
  pose proof (swapped_range s Hsz) as Hn. pose proof (g_apart _ Hg) as Ha. split; [split; [| done] |].
  - destruct Hd as [_ Hr Hc Hcur Hp]. split; [by apply geometry_mem | done | done | done |]. intros x y Hx Hy.
    rewrite <- Hp by done. apply pixel_memory. intros k Hk. destruct (pixel_bound s x y Hg Hx Hy) as (? & ? & ?).
    rewrite memcpy_spec, decide_False by lia. done.
  - intros k Hk. change (swapped (set_fb_mem _ s)) with (swapped s) in Hk. cbn.
    rewrite !memcpy_spec, decide_True, decide_False by lia. f_equal. lia.
Qed.

(** * Properties *)

(** C31: [kputchar_direct] implements a character of a terminal, new line, backspace,
    the end of a line and scrolling included, and stores nothing outside the
    back buffer. *)
Theorem kputchar_refines c t s : shows t s -> wp (kputchar_direct c) (fun _ s' => shows (emit c t) s') s.
Proof. apply wp_kputchar_direct. Qed.

(** [lfb_swap] brings the back buffer to the screen, all of it without vector
    instructions, whole blocks with them, and leaves the buffer alone. *)
Theorem lfb_swap_spec t s : shows t s -> wp lfb_swap (fun _ s' => shows t s' /\ displayed s') s.
Proof. apply wp_lfb_swap. Qed.

(** * Witnesses *)

(** A screen of two lines of two characters. *)
Definition fb0 : framebuffer := Fb ∅ LFB_ADDR 0x1000 16 32 64 2048 8 16 0 0 1.
Definition term0 : terminal := Term 2 2 (fun _ _ => 32) 0 0.

Lemma fb0_shows : shows term0 fb0.
Proof.
  split; [split; [split | ..] | done]; try done; cbn; try lia.
  { unfold LFB_ADDR. lia. }
  intros x y Hx Hy. rewrite ink_blank. by case_decide.
Qed.

Lemma kputchar_refines_witness : shows term0 fb0 /\ wp (kputchar_direct 65) (fun _ s' => shows (emit 65 term0) s' /\ tcol (emit 65 term0) = 1) fb0.
Proof.
  split; [apply fb0_shows |]. eapply wp_mono; [apply (kputchar_refines 65 term0 fb0 fb0_shows) |]. by intros [] s' ?.
Defined.

Lemma lfb_swap_spec_witness : wp lfb_swap (fun _ s' => shows term0 s') fb0.
Proof. eapply wp_mono; [apply (lfb_swap_spec term0 fb0 fb0_shows) |]. by intros [] s' [? _]. Defined.
