(* ===== verification/Kring.v ===== *)
(** The two rings of the console ([drivers/video/kring.c]): what the kernel
    prints waits in one until it is flushed to the screen, what the keyboard
    sends waits in the other until a program reads it. *)
From S2P Require Import Prelude Cpu CString Font Lfb.

(** * State *)

Definition KRING_BUF_MAX : Z := 4096.
Definition KRING_BUF_MASK : Z := KRING_BUF_MAX - 1.

(** A ring: the pointer to its entries, their characters and flags, and the
    free-running 64-bit indices of its ends. *)
Record ring : Type := Ring { ring_ptr : Z; ring_c : gmap Z Z; ring_ready : gmap Z Z; head : Z; tail : Z }.

(** [write_kring] and [read_kring] with their indices, the two locks, the screen
    and the keyboard's [backspace] flag. *)
Record console : Type := Console {
  write_ring : ring;
  read_ring : ring;
  kring_write_lock : Z;
  kring_read_lock : Z;
  backspace : Z;
  con_fb : framebuffer;
  con_cpu : cpu;
}.

Definition l_write_ring : lens console ring := Lens write_ring (fun r s =>
  Console r (read_ring s) (kring_write_lock s) (kring_read_lock s) (backspace s) (con_fb s) (con_cpu s)).
Definition l_read_ring : lens console ring := Lens read_ring (fun r s =>
  Console (write_ring s) r (kring_write_lock s) (kring_read_lock s) (backspace s) (con_fb s) (con_cpu s)).
Definition l_write_lock : lens console Z := Lens kring_write_lock (fun x s =>
  Console (write_ring s) (read_ring s) x (kring_read_lock s) (backspace s) (con_fb s) (con_cpu s)).
Definition l_read_lock : lens console Z := Lens kring_read_lock (fun x s =>
  Console (write_ring s) (read_ring s) (kring_write_lock s) x (backspace s) (con_fb s) (con_cpu s)).
Definition l_fb : lens console framebuffer := Lens con_fb (fun x s =>
  Console (write_ring s) (read_ring s) (kring_write_lock s) (kring_read_lock s) (backspace s) x (con_cpu s)).
Definition l_con_cpu : lens console cpu := Lens con_cpu (fun x s =>
  Console (write_ring s) (read_ring s) (kring_write_lock s) (kring_read_lock s) (backspace s) (con_fb s) x).
Definition set_backspace (x : Z) (s : console) : console :=
  Console (write_ring s) (read_ring s) (kring_write_lock s) (kring_read_lock s) x (con_fb s) (con_cpu s).

Definition set_head (x : Z) (r : ring) : ring := Ring (ring_ptr r) (ring_c r) (ring_ready r) x (tail r).
Definition set_tail (x : Z) (r : ring) : ring := Ring (ring_ptr r) (ring_c r) (ring_ready r) (head r) x.
Definition set_c (p x : Z) (r : ring) : ring := Ring (ring_ptr r) (<[p := x]> (ring_c r)) (ring_ready r) (head r) (tail r).
Definition set_ready (p x : Z) (r : ring) : ring := Ring (ring_ptr r) (ring_c r) (<[p := x]> (ring_ready r)) (head r) (tail r).

(** * Operations *)

(** The pointers are what [kmalloc] returned for the two rings. The loop that
    would clear the entries runs to 0. *)
Definition init_kring (w r : Z) : M console unit :=
  zoom l_write_ring (modify (fun x => Ring w (ring_c x) (ring_ready x) (head x) (tail x)));;
  zoom l_read_ring (modify (fun x => Ring r (ring_c x) (ring_ready x) (head x) (tail x)));;
  if negb (truthy w) then fail Hang
  else
    for_loop 0 0 (fun i =>
      zoom l_write_ring (modify (fun x => set_ready i 0 (set_c i 0 x)));;
      zoom l_read_ring (modify (fun x => set_ready i 0 (set_c i 0 x)))).

(** [s[i]], for a source that holds the characters [s]. *)
Definition char_at (s : list Z) (i : Z) : M ring Z :=
  match s !! Z.to_nat i with Some c => mret c | None => fail Fault end.

(** [Lr] is the ring of the mode; both are filled under the same lock. *)
Definition kring_fill (Lr : lens console ring) (s : list Z) (len : Z) : M console unit :=
  let len := if KRING_BUF_MAX <? len then KRING_BUF_MAX else len in
  rflags ← spin_lock_irqsave l_con_cpu l_write_lock;
  start_head ← gets (fun t => head (view Lr t));
  zoom Lr (modify (fun r => set_head (u64 (head r + len)) r));;
  spin_lock_irqrestore l_con_cpu l_write_lock rflags;;
  zoom Lr (for_loop (Z.to_nat len) 0 (fun i =>
    let pos := Z.land (u64 (start_head + i)) KRING_BUF_MASK in
    c ← char_at s i;
    modify (set_c pos c);;
    modify (set_ready pos 1))).

Definition kring_write (s : list Z) (len mode : Z) : M console unit :=
  if len =? 0 then mret tt
  else
    w ← gets (fun t => ring_ptr (write_ring t));
    r ← gets (fun t => ring_ptr (read_ring t));
    if truthy mode && truthy w then kring_fill l_write_ring s len
    else if negb (truthy mode) && truthy r then kring_fill l_read_ring s len
    else mret tt.

Definition drop_mark : list Z := [91; 100; 114; 111; 112; 93].

(** The start of a round of the flush: what was overwritten is dropped. *)
Definition kring_drop (printed : bool) : M console bool :=
  r ← gets write_ring;
  if KRING_BUF_MAX <? u64 (head r - tail r) then
    zoom l_write_ring (modify (set_tail (u64 (head r - KRING_BUF_MAX))));;
    zoom l_fb (kputs drop_mark);;
    mret true
  else mret printed.

(** The rest of a round: one entry, if it is ready, and [next], the next round. *)
Definition kring_flush_one (next : M console bool) (printed : bool) : M console bool :=
  r ← gets write_ring;
  if tail r =? head r then mret printed
  else
    let pos := Z.land (tail r) KRING_BUF_MASK in
    if negb (truthy (ring_ready r @@ pos)) then mret printed
    else
      zoom l_fb (kputchar_direct (ring_c r @@ pos));;
      zoom l_write_ring (modify (set_ready pos 0));;
      rflags0 ← spin_lock_irqsave l_con_cpu l_write_lock;
      zoom l_write_ring (modify (fun r => set_tail (u64 (tail r + 1)) r));;
      spin_lock_irqrestore l_con_cpu l_write_lock rflags0;;
      next.

(** Every round but the last moves the tail; there are at most as many as the
    ring has entries. *)
Fixpoint kring_flush_loop (fuel : nat) (printed : bool) : M console bool :=
  match fuel with
  | O => fail Hang
  | S fuel' => printed ← kring_drop printed; kring_flush_one (kring_flush_loop fuel' true) printed
  end.

Definition kring_flush_to_screen : M console unit :=
  w ← gets (fun t => ring_ptr (write_ring t));
  if negb (truthy w) then mret tt
  else
    rflags ← spin_lock_irqsave l_con_cpu l_read_lock;
    printed ← kring_flush_loop (Z.to_nat (KRING_BUF_MAX + 2)) false;
    b ← gets backspace;
    (when (printed || truthy b) (modify (set_backspace 0);; zoom l_fb lfb_swap));;
    spin_lock_irqrestore l_con_cpu l_read_lock rflags.

(** What is stored in [buf], in order; their number is the result of the
    function. Neither the flags nor the head are looked at. *)
Fixpoint kring_read_loop (count : nat) : M ring (list Z) :=
  match count with
  | O => mret []
  | S count' =>
      r ← get;
      let pos := Z.land (tail r) KRING_BUF_MASK in
      modify (set_tail (u64 (tail r + 1)));;
      let c := ring_c r @@ pos in
      modify (set_ready pos 0);;
      if c =? 10 then mret [c] else l ← kring_read_loop count'; mret (c :: l)
  end.
Definition kring_flush_to_rbuf (count : nat) : M console (list Z) := zoom l_read_ring (kring_read_loop count).

Definition check_for_n : M console Z :=
  r ← gets read_ring;
  mret (if existsb (fun i => (ring_c r @@ i =? 10) && (ring_ready r @@ i =? 1)) (seqZ 0 KRING_BUF_MAX) then 1 else 0).

(** * Specification *)

(** The characters [l] are in the ring and not yet read, the first at index [T].
    When there are more than it has entries, the first ones have been
    overwritten. *)
Record unread_from (T : Z) (r : ring) (l : list Z) : Prop := {
  un_tail : tail r = u64 T;
  un_head : head r = u64 (T + Z.of_nat (length l));
  un_length : Z.of_nat (length l) < 2 ^ 63;
  un_entry i c : l !! i = Some c -> Z.of_nat (length l) - KRING_BUF_MAX <= Z.of_nat i ->
    ring_c r @@ ((T + Z.of_nat i) mod KRING_BUF_MAX) = c /\
    ring_ready r @@ ((T + Z.of_nat i) mod KRING_BUF_MAX) = 1;
}.
Definition unread (r : ring) (l : list Z) : Prop := exists T, unread_from T r l.

(** What a flush prints: the last characters, after a mark if some were lost. *)
Definition flushed (l : list Z) : list Z :=
  if decide (KRING_BUF_MAX < Z.of_nat (length l)) then drop_mark ++ drop (length l - Z.to_nat KRING_BUF_MAX) l else l.

(** A line: up to the first newline, or [count] characters. *)
Fixpoint line (count : nat) (l : list Z) : list Z :=
  match count, l with
  | S n, c :: l' => if c =? 10 then [c] else c :: line n l'
  | _, _ => []
  end.

Definition console_out (r : ring) (f : framebuffer) (b : Z) (s : console) : console :=
  Console r (read_ring s) (kring_write_lock s) (kring_read_lock s) b f (con_cpu s).

(** * Lemmas *)

Lemma u64_mask z : Z.land (u64 z) KRING_BUF_MASK = z mod KRING_BUF_MAX.
Proof.
  unfold KRING_BUF_MASK, KRING_BUF_MAX, u64. change (4096 - 1) with (Z.ones 12). rewrite Z.land_ones by lia.
  change 4096 with (2 ^ 12). dlia.
Qed.

Lemma u64_add a b : u64 (u64 a + b) = u64 (a + b).
Proof. unfold u64. by rewrite Zplus_mod_idemp_l. Qed.

Lemma u64_sub a b : u64 (u64 a - b) = u64 (a - b).
Proof. unfold u64. by rewrite Zminus_mod_idemp_l. Qed.

Lemma u64_diff T n : 0 <= n < 2 ^ 64 -> u64 (u64 (T + n) - u64 T) = n.
Proof. intros Hn. unfold u64. rewrite Zminus_mod_idemp_l, Zminus_mod_idemp_r. rewrite Z.mod_small; lia. Qed.

Lemma u64_eq T n : 0 <= n < 2 ^ 64 -> u64 T = u64 (T + n) -> n = 0.
Proof. intros Hn E. rewrite <- (u64_diff T n Hn), <- E. by rewrite Z.sub_diag. Qed.

Lemma wp_char_at l i c (Q : Z -> ring -> Prop) r : 0 <= i -> l !! Z.to_nat i = Some c -> Q c r -> wp (char_at l i) Q r.
Proof. intros Hi Hc HQ. unfold char_at. rewrite Hc. by apply wp_ret. Qed.

(** Taking and releasing a lock that is free changes nothing. *)
Lemma wp_fill_entries T l m r0 s : unread_from T r0 l -> Z.of_nat (length l) + Z.of_nat m < 2 ^ 63 -> (m <= length s)%nat ->
  wp (for_loop m 0 (fun i =>
    let pos := Z.land (u64 (head r0 + i)) KRING_BUF_MASK in
    c ← char_at s i; modify (set_c pos c);; modify (set_ready pos 1)))
    (fun _ r => unread_from T r (l ++ take m s) /\ ring_ptr r = ring_ptr r0)
    (set_head (u64 (head r0 + Z.of_nat m)) r0).
Proof.
  intros [Ht Hh Hl He] Hm Hs. set (l' := l ++ take m s).
  assert (length l' = (length l + m)%nat) as Hl' by (unfold l'; rewrite length_app, length_take; lia).
  eapply wp_mono; [apply (wp_for m (fun n r => tail r = u64 T /\ head r = u64 (T + Z.of_nat (length l')) /\ ring_ptr r = ring_ptr r0 /\
    forall i c, l' !! i = Some c -> Z.of_nat (length l') - KRING_BUF_MAX <= Z.of_nat i < Z.of_nat (length l) + n ->
      ring_c r @@ ((T + Z.of_nat i) mod KRING_BUF_MAX) = c /\ ring_ready r @@ ((T + Z.of_nat i) mod KRING_BUF_MAX) = 1)) |].
  - split_and!; [done | cbn; rewrite Hh, u64_add; f_equal; lia | done |]. intros i c Hc Hi. cbn.
    unfold l' in Hc. rewrite lookup_app_l in Hc by lia. apply He; [done | lia].
  - intros n r Hn (H1 & H2 & H3 & H4). rewrite Hh, u64_add, u64_mask. apply wp_bind.
    destruct (lookup_lt_is_Some_2 s (Z.to_nat n) ltac:(lia)) as [c Hc]. apply (wp_char_at _ _ c); [lia | done |].
    apply wp_bind, wp_modify, wp_modify. split_and!; [done.. |]. intros i c' Hc' Hi. cbn. rewrite !rd_insert.
    destruct (decide (Z.of_nat i = Z.of_nat (length l) + n)) as [E|Hne].
    + rewrite E, Z.add_assoc, !decide_True by done. split; [| done]. unfold l' in Hc'. rewrite lookup_app_r in Hc' by lia.
      rewrite lookup_take_lt in Hc' by lia. replace (i - length l)%nat with (Z.to_nat n) in Hc' by lia. congruence.
    + assert ((T + Z.of_nat (length l) + n) mod KRING_BUF_MAX <> (T + Z.of_nat i) mod KRING_BUF_MAX) as Hmod
        by (unfold KRING_BUF_MAX in *; dlia).
      rewrite !decide_False by done. apply H4; [done | lia].
  - intros [] r (H1 & H2 & H3 & H4). split; [split | done]; [done | done | rewrite Hl'; lia |].
    intros i c Hc Hi. apply H4; [done |]. apply lookup_lt_Some in Hc. lia.
Qed.

(** A message that is not longer than the ring, or the start of one that is. *)
Lemma wp_kring_fill Lr T l len s st : Lr = l_write_ring \/ Lr = l_read_ring ->
  unread_from T (view Lr st) l -> kring_write_lock st = 0 -> 0 <= len -> Z.min len KRING_BUF_MAX <= Z.of_nat (length s) ->
  Z.of_nat (length l) + KRING_BUF_MAX < 2 ^ 63 ->
  wp (kring_fill Lr s len) (fun _ st' => exists r, st' = over Lr r st /\
    unread_from T r (l ++ take (Z.to_nat (Z.min len KRING_BUF_MAX)) s) /\ ring_ptr r = ring_ptr (view Lr st)) st.
Proof.
  intros HLr Hun Hlock Hlen Hs Hl. unfold kring_fill.
  replace (if KRING_BUF_MAX <? len then KRING_BUF_MAX else len) with (Z.min len KRING_BUF_MAX) by (case_match; lia).
  set (n := Z.min len KRING_BUF_MAX) in *. assert (0 <= n <= KRING_BUF_MAX) by (unfold n, KRING_BUF_MAX; lia).
  pose proof (wp_fill_entries T l (Z.to_nat n) (view Lr st) s Hun ltac:(lia) ltac:(lia)) as Hloop. rewrite Z2Nat.id in Hloop by lia.
  apply wp_bind, wp_spin_lock_irqsave. intros rf ->. split; [done |]. apply wp_bind, wp_gets, wp_bind, wp_zoom, wp_modify.
  apply wp_bind, wp_spin_lock_irqrestore. apply wp_zoom. destruct st as [w r wl rl b f [fl c3]]. cbn in Hlock. subst wl.
  destruct HLr as [-> | ->]; cbn in *; (eapply wp_mono; [exact Hloop |]); intros [] r' [H1 H2]; exists r'; done.
Qed.

Lemma flags_cpu c : Cpu (rflags c) (cr3 c) = c.
Proof. by destruct c. Qed.

(** ** Flushing *)

Lemma wp_kring_drop T l t p s : unread_from T (write_ring s) l -> shows t (con_fb s) ->
  wp (kring_drop p) (fun p' s' => exists r f, s' = console_out r f (backspace s) s /\ ring_ptr r = ring_ptr (write_ring s) /\
    let lost := (length l - Z.to_nat KRING_BUF_MAX)%nat in
    unread_from (T + Z.of_nat lost) r (drop lost l) /\
    (if decide (KRING_BUF_MAX < Z.of_nat (length l)) then p' = true /\ shows (emit_all drop_mark t) f
     else p' = p /\ r = write_ring s /\ f = con_fb s)) s.
Proof.
  intros [Ht Hh Hl He] Hsh. apply wp_bind, wp_gets. rewrite Ht, Hh, u64_diff by lia.
  destruct (Z.ltb_spec KRING_BUF_MAX (Z.of_nat (length l))) as [Hd|Hd].
  - apply wp_bind, wp_zoom, wp_modify, wp_bind, wp_zoom. eapply wp_mono; [by apply wp_kputs |]. intros [] f Hf. apply wp_ret.
    eexists (set_tail _ (write_ring s)), f. split; [done |]. split; [done |]. rewrite decide_True by done. split; [| done].
    split; cbn [set_tail ring_c ring_ready head tail].
    + rewrite u64_sub. f_equal. unfold KRING_BUF_MAX in *. lia.
    + rewrite length_drop, Hh. f_equal. lia.
    + rewrite length_drop. lia.
    + intros i c. rewrite lookup_drop, length_drop. intros Hc _. apply He in Hc; [| unfold KRING_BUF_MAX in *; lia].
      by replace (T + Z.of_nat _ + Z.of_nat i) with (T + Z.of_nat (length l - Z.to_nat KRING_BUF_MAX + i)) by lia.
  - apply wp_ret. exists (write_ring s), (con_fb s). split; [by destruct s |]. split; [done |]. rewrite decide_False by lia.
    cbv zeta. replace (length l - Z.to_nat KRING_BUF_MAX)%nat with 0%nat by lia. rewrite Z.add_0_r. done.
Qed.

(** One entry is printed and becomes free. *)
Lemma unread_pop T r c l : unread_from T r (c :: l) -> Z.of_nat (length (c :: l)) <= KRING_BUF_MAX ->
  ring_c r @@ Z.land (tail r) KRING_BUF_MASK = c /\ ring_ready r @@ Z.land (tail r) KRING_BUF_MASK = 1 /\
  unread_from (T + 1) (set_tail (u64 (tail r + 1)) (set_ready (Z.land (tail r) KRING_BUF_MASK) 0 r)) l.
Proof.
  intros [Ht Hh Hl He] Hlen. rewrite Ht, u64_mask. destruct (He 0%nat c) as [H1 H2]; [done | lia |].
  rewrite Z.add_0_r in H1, H2. split_and!; [done..|]. simpl length in *. split; cbn [set_tail set_ready tail head ring_c ring_ready].
  - by rewrite u64_add.
  - rewrite Hh. f_equal. lia.
  - lia.
  - intros i c' Hc' Hi. destruct (He (S i) c' Hc') as [E1 E2]; [lia |].
    replace (T + 1 + Z.of_nat i) with (T + Z.of_nat (S i)) by lia. split; [done |]. rewrite rd_insert_ne; [done |].
    apply lookup_lt_Some in Hc'. unfold KRING_BUF_MAX in *. dlia.
Qed.

Lemma wp_flush_one l : forall T fuel t p s, unread_from T (write_ring s) l -> Z.of_nat (length l) <= KRING_BUF_MAX ->
  (length l < fuel)%nat -> shows t (con_fb s) -> kring_write_lock s = 0 ->
  wp (kring_flush_one (kring_flush_loop (pred fuel) true) p) (fun p' s' => exists r f,
    s' = console_out r f (backspace s) s /\ ring_ptr r = ring_ptr (write_ring s) /\ unread r [] /\
    shows (emit_all l t) f /\ p' = match l with [] => p | _ => true end) s.
Proof.
  induction l as [|c l IH]; intros T fuel t p s Hun Hlen Hf Hsh Hlock; apply wp_bind, wp_gets.
  - pose proof Hun as [Ht Hh _ _]. simpl in Hh. rewrite Z.add_0_r in Hh. rewrite Ht, Hh, Z.eqb_refl. apply wp_ret.
    exists (write_ring s), (con_fb s). split_and!; [by destruct s | done | by exists T | done | done].
  - destruct (unread_pop T _ c l Hun Hlen) as (Hc & Hr & Hun'). pose proof Hun as [Ht Hh Hl63 _].
    destruct (Z.eqb_spec (tail (write_ring s)) (head (write_ring s))) as [E|_].
    { rewrite Ht, Hh in E. apply u64_eq in E; simpl length in *; lia. }
    cbv zeta. rewrite Hr, Hc. cbn [truthy negb Z.eqb]. apply wp_bind, wp_zoom. eapply wp_mono; [by apply wp_kputchar_direct |].
    intros [] f Hsh'. apply wp_bind, wp_zoom, wp_modify, wp_bind, wp_spin_lock_irqsave. intros rf ->. split; [done |].
    apply wp_bind, wp_zoom, wp_modify, wp_bind, wp_spin_lock_irqrestore. cbn [view over l_fb l_write_ring l_con_cpu l_write_lock
      write_ring read_ring kring_write_lock kring_read_lock backspace con_fb con_cpu rflags cr3 tail set_ready] in *.
    rewrite flags_cpu. destruct fuel as [|[|fuel]]; [simpl in Hf; lia.. |]. cbn [pred kring_flush_loop].
    set (r1 := set_tail _ _) in *. rewrite <- Hlock.
    change (Console r1 _ _ _ _ _ _) with (console_out r1 f (backspace s) s). set (s1 := console_out r1 f (backspace s) s).
    apply wp_bind. eapply wp_mono; [apply (wp_kring_drop (T + 1) l (emit c t) true s1 Hun' Hsh') |].
    intros p' s2 (r2 & f2 & -> & Hp2 & Hun2 & Hcase). simpl length in Hlen. rewrite decide_False in Hcase by lia.
    destruct Hcase as (-> & -> & ->). change (console_out (write_ring s1) (con_fb s1) (backspace s1) s1) with s1.
    eapply wp_mono; [apply (IH (T + 1) (S fuel) (emit c t) true s1); [done | lia | simpl in Hf; lia | done | done] |].
    intros p' s' (r & f' & -> & Hp & Hnil & Hsh2 & ->). exists r, f'. split_and!; [done | by rewrite Hp | done | done | by destruct l].
Qed.

Lemma wp_kring_flush_to_screen l t s : unread (write_ring s) l -> shows t (con_fb s) -> ring_ptr (write_ring s) <> 0 ->
  kring_write_lock s = 0 -> kring_read_lock s = 0 ->
  wp kring_flush_to_screen (fun _ s' => exists r f b, s' = console_out r f b s /\ ring_ptr r = ring_ptr (write_ring s) /\ unread r [] /\
    shows (emit_all (flushed l) t) f /\ (l <> [] \/ backspace s <> 0 -> b = 0 /\ displayed f)) s.
Proof.
  intros [T Hun] Hsh Hptr Hwl Hrl. apply wp_bind, wp_gets. rewrite (proj2 (truthy_true _) Hptr). cbn [negb].
  apply wp_bind, wp_spin_lock_irqsave. intros rf ->. split; [done |]. apply wp_bind.
  set (s1 := over l_read_lock 1 _). cbn [kring_flush_loop Z.to_nat Pos.to_nat]. change (Z.to_nat (KRING_BUF_MAX + 2)) with (S (Z.to_nat (KRING_BUF_MAX + 1))).
  cbn [kring_flush_loop]. apply wp_bind. eapply wp_mono; [by apply (wp_kring_drop T l t false s1)|].
  intros p s2 (r & f & -> & Hp & Hun2 & Hcase). set (lost := (length l - Z.to_nat KRING_BUF_MAX)%nat) in *.
  assert (lost <> 0%nat <-> KRING_BUF_MAX < Z.of_nat (length l)) as Hlost by (unfold lost, KRING_BUF_MAX; lia).
  assert (exists t2, shows t2 f /\ emit_all (drop lost l) t2 = emit_all (flushed l) t /\ (p = true <-> lost <> 0%nat)) as (t2 & Ht2 & Et2 & Hpl).
  { unfold flushed. case_decide as Hd; [destruct Hcase as [-> ?] | destruct Hcase as (-> & -> & ->)].
    - exists (emit_all drop_mark t). split_and!; [done | unfold emit_all; by rewrite fold_left_app | tauto].
    - exists t. replace lost with 0%nat by lia. split_and!; [done | done | split; [done | tauto]]. }
  eapply wp_mono; [apply (wp_flush_one (drop lost l) (T + Z.of_nat lost) (S (Z.to_nat (KRING_BUF_MAX + 1))) t2 p (console_out r f (backspace s1) s1)); [done | | | done | done] |].
  1, 2: rewrite length_drop; unfold lost, KRING_BUF_MAX; lia.
  intros p' s3 (r3 & f3 & -> & Hp3 & Hnil & Hsh3 & Hp'). rewrite Et2 in Hsh3.
  assert (p' = true <-> l <> []) as Hpl'.
  { destruct (drop lost l) as [|c l'] eqn:Ed; subst p'.
    - apply (f_equal length) in Ed. rewrite length_drop in Ed. simpl in Ed.
      assert (length l = 0%nat) as Hl0 by (unfold lost, KRING_BUF_MAX in Ed; lia). apply nil_length_inv in Hl0 as ->.
      rewrite Hpl. split; [by intros [] | done].
    - split; [intros _ -> | done]. by rewrite drop_nil in Ed. }
  apply wp_bind, wp_gets, wp_bind.
  apply (wp_mono _ (fun _ s' => exists f4 b, s' = console_out r3 f4 b s1 /\ shows (emit_all (flushed l) t) f4 /\
    (l <> [] \/ backspace s <> 0 -> b = 0 /\ displayed f4))).
  - apply wp_when; intros E.
    + apply wp_bind, wp_modify, wp_zoom. eapply wp_mono; [by apply wp_lfb_swap |]. intros [] f4 [? ?]. exists f4, 0. done.
    + apply orb_false_iff in E as [-> E%truthy_false]. cbn in E. exists f3, (backspace s). split; [done |]. split; [done |].
      intros [Hne%Hpl'|?]; done.
  - intros [] s4 (f4 & b & -> & Hsh4 & Hb). apply wp_spin_lock_irqrestore. exists r3, f4, b. split; [| split; [by rewrite Hp3 | done]].
    destruct s as [w rr wl rl bs fb [fl c3]]. cbn in *. by subst rl.
Qed.

Lemma wp_kring_write s len mode st (Q : unit -> console -> Prop) l : 0 < len -> Z.min len KRING_BUF_MAX <= Z.of_nat (length s) ->
  let Lr := if truthy mode then l_write_ring else l_read_ring in
  unread (view Lr st) l -> ring_ptr (view Lr st) <> 0 -> kring_write_lock st = 0 -> Z.of_nat (length l) + KRING_BUF_MAX < 2 ^ 63 ->
  (forall r, ring_ptr r = ring_ptr (view Lr st) -> unread r (l ++ take (Z.to_nat (Z.min len KRING_BUF_MAX)) s) -> Q tt (over Lr r st)) ->
  wp (kring_write s len mode) Q st.
Proof.
  intros Hlen Hs Lr [T Hun] Hptr%truthy_true Hlock Hl HQ. unfold kring_write. rewrite (proj2 (Z.eqb_neq len 0)) by lia.
  apply wp_bind, wp_gets, wp_bind, wp_gets. unfold Lr in *. destruct (truthy mode); cbn [view l_write_ring l_read_ring] in *; rewrite Hptr; cbn [andb negb].
  - eapply wp_mono; [apply (wp_kring_fill l_write_ring T l); auto; lia |]. intros [] st' (r & -> & Hr & Hp). apply HQ; [done | by exists T].
  - eapply wp_mono; [apply (wp_kring_fill l_read_ring T l); auto; lia |]. intros [] st' (r & -> & Hr & Hp). apply HQ; [done | by exists T].
Qed.

(** ** Reading *)

Lemma wp_kring_read_loop n : forall T l r, unread_from T r l -> Z.of_nat (length l) <= KRING_BUF_MAX -> (n <= length l)%nat \/ 10 ∈ l ->
  wp (kring_read_loop n) (fun x r' => x = line n l /\ ring_ptr r' = ring_ptr r /\ exists T', unread_from T' r' (drop (length x) l)) r.
Proof.
  induction n as [|n IH]; intros T l r Hun Hlen Hn.
  - apply wp_ret. split_and!; [by destruct l | done | by exists T].
  - destruct l as [|c l]; [destruct Hn as [Hn|Hn]; [simpl in Hn; lia | by apply elem_of_nil in Hn] |].
    destruct (unread_pop T r c l Hun Hlen) as (Hc & _ & Hun'). apply wp_bind, wp_get, wp_bind, wp_modify.
    cbv zeta. rewrite Hc. apply wp_bind, wp_modify. set (r1 := set_ready _ _ _).
    assert (unread_from (T + 1) r1 l) as Hun1 by exact Hun'. destruct (Z.eqb_spec c 10) as [->|Hne].
    + apply wp_ret. split_and!; [done | done | by exists (T + 1)].
    + apply wp_bind. eapply wp_mono; [apply (IH (T + 1) l r1 Hun1); [simpl in Hlen; lia |]|].
      { destruct Hn as [Hn|[E|Hn]%elem_of_cons]; [left; simpl in Hn; lia | congruence | by right]. }
      intros x r' (-> & Hp & T' & HT'). apply wp_ret. split_and!; [| done | by exists T'].
      cbn [line]. by rewrite (proj2 (Z.eqb_neq c 10)) by done.
Qed.

Lemma check_newline r l : unread r l -> Z.of_nat (length l) <= KRING_BUF_MAX -> 10 ∈ l ->
  existsb (fun i => (ring_c r @@ i =? 10) && (ring_ready r @@ i =? 1)) (seqZ 0 KRING_BUF_MAX) = true.
Proof.
  intros [T Hun] Hlen [i Hi]%list_elem_of_lookup. destruct (un_entry _ _ _ Hun i 10 Hi) as [H1 H2]; [lia |].
  apply existsb_exists. exists ((T + Z.of_nat i) mod KRING_BUF_MAX). rewrite H1, H2. split; [| done].
  apply list_elem_of_In, elem_of_seqZ. unfold KRING_BUF_MAX. dlia.
Qed.

(** * Properties *)

(** A message is appended to what waits in the ring of its mode, the first 4096
    characters of it if it is longer; nothing else changes. *)
Theorem kring_write_spec s mode st l : s <> [] -> kring_write_lock st = 0 -> Z.of_nat (length l) < 2 ^ 62 ->
  let Lr := if truthy mode then l_write_ring else l_read_ring in
  unread (view Lr st) l -> ring_ptr (view Lr st) <> 0 ->
  wp (kring_write s (Z.of_nat (length s)) mode) (fun _ st' =>
    unread (view Lr st') (l ++ take (Z.to_nat KRING_BUF_MAX) s) /\ st' = over Lr (view Lr st') st) st.
Proof.
  intros Hs Hlock Hl Lr Hun Hptr. assert (0 < Z.of_nat (length s)) by (destruct s; [done | simpl; lia]).
  apply (wp_kring_write s _ mode st _ l); try done; [lia | unfold KRING_BUF_MAX; lia |]. intros r Hr Hun'.
  fold Lr. assert (view Lr (over Lr r st) = r) as -> by (unfold Lr; by destruct (truthy mode)). split; [| done].
  destruct (decide (Z.of_nat (length s) <= KRING_BUF_MAX)).
  - rewrite take_ge by lia. rewrite take_ge in Hun' by lia. done.
  - rewrite Z.min_r in Hun' by lia. done.
Qed.

(** A flush leaves the ring empty, and the terminal shows what waited in it: all
    of it, or a mark and the last 4096 characters when more were lost; what it
    shows is on the screen, and the keyboard's flag is cleared. *)
Theorem kring_flush_spec l t s : unread (write_ring s) l -> shows t (con_fb s) -> ring_ptr (write_ring s) <> 0 ->
  kring_write_lock s = 0 -> kring_read_lock s = 0 ->
  wp kring_flush_to_screen (fun _ s' => unread (write_ring s') [] /\ shows (emit_all (flushed l) t) (con_fb s') /\
    (l <> [] \/ backspace s <> 0 -> backspace s' = 0 /\ displayed (con_fb s')) /\
    s' = console_out (write_ring s') (con_fb s') (backspace s') s) s.
Proof.
  intros Hun Hsh Hp Hw Hr. eapply wp_mono; [by apply (wp_kring_flush_to_screen l t)|].
  by intros [] s' (r & f & b & -> & _ & ? & ? & ?).
Qed.

(** Reading takes a line, or [count] characters if no line ends before: whenever
    that much is there, the rest stays. *)
Theorem kring_read_line n l s : unread (read_ring s) l -> Z.of_nat (length l) <= KRING_BUF_MAX -> (n <= length l)%nat \/ 10 ∈ l ->
  wp (kring_flush_to_rbuf n) (fun x s' => x = line n l /\ unread (read_ring s') (drop (length x) l) /\
    s' = over l_read_ring (read_ring s') s) s.
Proof.
  intros [T Hun] Hl Hn. apply wp_zoom. eapply wp_mono; [by apply (wp_kring_read_loop n T l)|].
  by intros x r (-> & _ & ?).
Qed.

(** * Witnesses *)

Definition ring0 : ring := Ring 0x1000 ∅ ∅ 0 0.
Definition console0 : console := Console ring0 ring0 0 0 0 fb0 (Cpu FLAGS_IF 0).

Lemma ring0_unread : unread ring0 [].
Proof. exists 0. by split. Qed.

Lemma kring_write_spec_witness :
  wp (kring_write [104; 105] 2 1) (fun _ s' => unread (write_ring s') [104; 105]) console0.
Proof.
  eapply wp_mono; [apply (kring_write_spec [104; 105] 1 console0 []); done || apply ring0_unread |]. by intros [] s' [? _].
Defined.

Lemma kring_flush_spec_witness :
  wp (kring_write [104; 105] 2 1;; kring_flush_to_screen) (fun _ s' => shows (emit_all [104; 105] term0) (con_fb s')) console0.
Proof.
  apply wp_bind, (wp_kring_write _ _ 1 _ _ []); try done; [apply ring0_unread |]. intros r Hp Hu.
  eapply wp_mono; [apply (kring_flush_spec [104; 105] term0 (over l_write_ring r console0)); try done; [apply fb0_shows | cbn in *; by rewrite Hp] |].
  by intros [] s' (_ & ? & _).
Defined.

Lemma kring_read_line_witness :
  wp (kring_write [104; 10; 105] 3 0;; kring_flush_to_rbuf 8) (fun x _ => x = [104; 10]) console0.
Proof.
  apply wp_bind, (wp_kring_write _ _ 0 _ _ []); try done; [apply ring0_unread |]. intros r Hp Hu.
  eapply wp_mono; [apply (kring_read_line 8 [104; 10; 105] (over l_read_ring r console0)); try done |].
  { right. by apply elem_of_cons; right; left. }
  by intros x s' (-> & _).
Defined.
