(* ===== verification/Kprintf.v ===== *)
(** [kprintf] ([drivers/video/lfb.c]): formatted output through a local buffer
    of 256 characters into the ring of the console. *)
From S2P Require Import Prelude Cpu Lfb Kring.

(** * Operations *)

Definition KPRINTF_BUF_MAX : Z := 256.

(** The variable arguments; asking for one that is not there, or of another
    type, is undefined. *)
Inductive arg : Type :=
  | AStr (s : list Z)
  | AInt (n : Z)
  | AU32 (n : Z)
  | AU64 (n : Z).

(** [local_putnum]: the digits of [num], the highest first, at most [max_len];
    64 digits are enough for a 64-bit number. *)
Definition local_putnum (max_len : nat) (num base : Z) : list Z :=
  if (num =? 0) && (0 <? Z.of_nat max_len) then [48] else take max_len (rev (num_digits 64 num base)).

(** [local_buf] up to [idx]; a store beyond its end is undefined. *)
Definition put_buf (b : list Z) (l : list Z) : M console (list Z) :=
  if Z.of_nat (length b + length l) <=? KPRINTF_BUF_MAX then mret (b ++ l) else fail Fault.

Definition flush_buf (b : list Z) : M console (list Z) :=
  kring_write b (Z.of_nat (length b)) 1;; mret [].

Definition CHECK_AND_FLUSH (b : list Z) : M console (list Z) :=
  if KPRINTF_BUF_MAX - 1 <=? Z.of_nat (length b) then flush_buf b else mret b.

(** A character after a check, the loop of [%s], and the number cases. *)
Definition check_put (b : list Z) (c : Z) : M console (list Z) :=
  b ← CHECK_AND_FLUSH b; put_buf b [c].
Fixpoint put_str (s b : list Z) : M console (list Z) :=
  match s with [] => mret b | c :: s' => b ← check_put b c; put_str s' b end.
Definition put_num (b : list Z) (num base : Z) : M console (list Z) :=
  b ← (if KPRINTF_BUF_MAX - 35 <? Z.of_nat (length b) then flush_buf b else mret b);
  put_buf b (local_putnum (Z.to_nat (KPRINTF_BUF_MAX - 1)) num base).
Definition put_hex (b : list Z) (num : Z) : M console (list Z) :=
  b ← check_put b 48; b ← check_put b 120; put_num b num 16.
Definition put_dec (b : list Z) (i : Z) : M console (list Z) :=
  if i <? 0 then b ← check_put b 45; put_num b (u64 (s32 (- i))) 10 else put_num b (u64 i) 10.

(** The loop over the format; a [%] at its end makes it run past the terminator. *)
Fixpoint kprintf_loop (p : list Z) (args : list arg) (b : list Z) : M console (list Z) :=
  match p with
  | [] => mret b
  | c :: p' =>
      b ← CHECK_AND_FLUSH b;
      if negb (c =? 37) then b ← put_buf b [c]; kprintf_loop p' args b
      else
        match p' with
        | [] => fail Fault
        | d :: p2 =>
            if d =? 115 then
              match args with AStr s :: args' => b ← put_str s b; kprintf_loop p2 args' b | _ => fail Fault end
            else if d =? 100 then
              match args with AInt n :: args' => b ← put_dec b n; kprintf_loop p2 args' b | _ => fail Fault end
            else if d =? 120 then
              match args with AU32 n :: args' => b ← put_hex b n; kprintf_loop p2 args' b | _ => fail Fault end
            else if d =? 108 then
              match p2 with
              | e :: f :: p3 =>
                  if (e =? 108) && (f =? 120) then
                    match args with AU64 n :: args' => b ← put_hex b n; kprintf_loop p3 args' b | _ => fail Fault end
                  else kprintf_loop p2 args b
              | _ => kprintf_loop p2 args b
              end
            else if d =? 112 then
              match args with AU64 n :: args' => b ← put_hex b n; kprintf_loop p2 args' b | _ => fail Fault end
            else if d =? 37 then b ← put_buf b [37]; kprintf_loop p2 args b
            else kprintf_loop p2 args b
        end
  end.

Definition kprintf (format : list Z) (args : list arg) : M console unit :=
  b ← kprintf_loop format args [];
  if 0 <? Z.of_nat (length b) then kring_write b (Z.of_nat (length b)) 1 else mret tt.

(** * Specification *)

(** The number that a text of digits denotes, and the one text of a number: no
    leading zero but for zero itself. *)
Definition digit_value (c : Z) : Z := if c <? 97 then c - 48 else c - 87.
Definition value (base : Z) (l : list Z) : Z := fold_left (fun v c => v * base + digit_value c) l 0.
Definition is_digit (base c : Z) : Prop := (48 <= c <= 57 \/ 97 <= c <= 122) /\ digit_value c < base.
Definition numeral (base n : Z) (l : list Z) : Prop :=
  Forall (is_digit base) l /\ value base l = n /\ l <> [] /\ (hd_error l = Some 48 -> l = [48]).
Definition signed_numeral (n : Z) (l : list Z) : Prop :=
  if decide (n < 0) then exists d, l = 45 :: d /\ numeral 10 (- n) d else numeral 10 n l.

(** The text of a format with its arguments. An unknown directive gives nothing; so
    does [%l] alone, and what follows it is text again. There is no text where an
    argument is missing or of another type, or the format ends in [%]. *)
Inductive shows : list Z -> list arg -> list Z -> Prop :=
  | sh_end args : shows [] args []
  | sh_char c p args t : c <> 37 -> shows p args t -> shows (c :: p) args (c :: t)
  | sh_percent p args t : shows p args t -> shows (37 :: 37 :: p) args (37 :: t)
  | sh_s s p args t : shows p args t -> shows (37 :: 115 :: p) (AStr s :: args) (s ++ t)
  | sh_d n d p args t : signed_numeral n d -> shows p args t -> shows (37 :: 100 :: p) (AInt n :: args) (d ++ t)
  | sh_x n d p args t : numeral 16 n d -> shows p args t -> shows (37 :: 120 :: p) (AU32 n :: args) (48 :: 120 :: d ++ t)
  | sh_llx n d p args t : numeral 16 n d -> shows p args t -> shows (37 :: 108 :: 108 :: 120 :: p) (AU64 n :: args) (48 :: 120 :: d ++ t)
  | sh_p n d p args t : numeral 16 n d -> shows p args t -> shows (37 :: 112 :: p) (AU64 n :: args) (48 :: 120 :: d ++ t)
  | sh_l p args t : ~ [108; 120] `prefix_of` p -> shows p args t -> shows (37 :: 108 :: p) args t
  | sh_unknown d p args t : d ∉ [37; 115; 100; 120; 108; 112] -> shows p args t -> shows (37 :: d :: p) args t.

(** Arguments in the range of their types; the least [int] has no opposite. *)
Definition arg_ok (a : arg) : Prop :=
  match a with
  | AStr _ => True
  | AInt n => - 2 ^ 31 < n < 2 ^ 31
  | AU32 n => 0 <= n < 2 ^ 32
  | AU64 n => 0 <= n < 2 ^ 64
  end.

(** * Lemmas *)

(** ** The text as a function *)

(** The text that the code gives without its buffer; [None] where it is undefined. *)
Definition hex (n : Z) : list Z := [48; 120] ++ local_putnum 255 n 16.
Definition dec (i : Z) : list Z := if i <? 0 then 45 :: local_putnum 255 (- i) 10 else local_putnum 255 i 10.

Definition put_text (s : list Z) (o : option (list Z)) : option (list Z) := (fun l => s ++ l) <$> o.
Fixpoint render (p : list Z) (args : list arg) : option (list Z) :=
  match p with
  | [] => Some []
  | c :: p' =>
      if negb (c =? 37) then put_text [c] (render p' args)
      else
        match p' with
        | [] => None
        | d :: p2 =>
            if d =? 115 then match args with AStr s :: args' => put_text s (render p2 args') | _ => None end
            else if d =? 100 then match args with AInt n :: args' => put_text (dec n) (render p2 args') | _ => None end
            else if d =? 120 then match args with AU32 n :: args' => put_text (hex n) (render p2 args') | _ => None end
            else if d =? 108 then
              match p2 with
              | e :: f :: p3 =>
                  if (e =? 108) && (f =? 120)
                  then match args with AU64 n :: args' => put_text (hex n) (render p3 args') | _ => None end
                  else render p2 args
              | _ => render p2 args
              end
            else if d =? 112 then match args with AU64 n :: args' => put_text (hex n) (render p2 args') | _ => None end
            else if d =? 37 then put_text [37] (render p2 args)
            else render p2 args
        end
  end.

(** ** Numerals *)

Lemma digit_value_digit d : 0 <= d < 16 -> digit_value (digit d) = d.
Proof.
  intros Hd. assert (d ∈ seqZ 0 16) as H by (apply elem_of_seqZ; lia). revert d H Hd.
  apply (Forall_forall (fun d => 0 <= d < 16 -> digit_value (digit d) = d)). repeat constructor.
Qed.

Lemma num_digits_value fuel num base : 2 <= base <= 16 -> 0 <= num < 2 ^ Z.of_nat fuel ->
  value base (rev (num_digits fuel num base)) = num.
Proof.
  intros Hb. unfold value. revert num. induction fuel as [|fuel IH]; intros num Hn; [simpl in *; lia |]. cbn [num_digits].
  destruct (Z.ltb_spec 0 num); [| simpl; lia]. cbn [rev]. rewrite fold_left_app. cbn [fold_left].
  rewrite IH.
  - rewrite digit_value_digit by (pose proof (Z.mod_pos_bound num base); lia). pose proof (Z_div_mod_eq_full num base). lia.
  - split; [apply Z.div_pos; lia |]. apply Z.div_lt_upper_bound; [lia |].
    rewrite Nat2Z.inj_succ, Z.pow_succ_r in Hn by lia. nia.
Qed.

Lemma num_digits_length fuel num base : (length (num_digits fuel num base) <= fuel)%nat.
Proof. revert num. induction fuel as [|fuel IH]; intros num; cbn [num_digits]; [done |]. case_match; simpl; [specialize (IH (num / base))|]; lia. Qed.

(** Fewer digits in a larger base: 22 are enough for 64 bits in base 10 or 16. *)
Lemma num_digits_short fuel k num base : 8 <= base -> 0 <= num < 8 ^ Z.of_nat k -> (length (num_digits fuel num base) <= k)%nat.
Proof.
  intros Hb. revert k num. induction fuel as [|fuel IH]; intros k num Hn; cbn [num_digits]; [simpl; lia |].
  destruct (Z.ltb_spec 0 num); [| simpl; lia]. destruct k as [|k]; [simpl in Hn; lia |]. simpl. apply le_n_S, IH.
  rewrite Nat2Z.inj_succ, Z.pow_succ_r in Hn by lia. split; [apply Z.div_pos; lia |].
  apply Z.div_lt_upper_bound; [lia |]. nia.
Qed.

Lemma putnum_length num base : base = 10 \/ base = 16 -> 0 <= num < 2 ^ 64 -> (length (local_putnum 255 num base) <= 22)%nat.
Proof.
  intros Hb Hn. unfold local_putnum. case_match; [simpl; lia |]. rewrite length_take, length_rev.
  pose proof (num_digits_short 64 22 num base ltac:(lia)). assert (2 ^ 64 <= 8 ^ Z.of_nat 22) by done. lia.
Qed.

Lemma putnum_value num base : base = 10 \/ base = 16 -> 0 <= num < 2 ^ 64 -> value base (local_putnum 255 num base) = num.
Proof.
  intros Hb Hn. unfold local_putnum. destruct (Z.eqb_spec num 0) as [->|_]; [done |]. cbn [andb].
  rewrite take_ge by (rewrite length_rev; pose proof (num_digits_length 64 num base); lia).
  apply num_digits_value; lia.
Qed.

Lemma value_snoc base l c : value base (l ++ [c]) = value base l * base + digit_value c.
Proof. unfold value. by rewrite fold_left_app. Qed.

Lemma digit_range base c : is_digit base c -> 0 <= digit_value c < base.
Proof. intros [Hc Hb]. split; [| done]. unfold digit_value. destruct (Z.ltb_spec c 97); lia. Qed.

Lemma digit_value_inj base c d : is_digit base c -> is_digit base d -> digit_value c = digit_value d -> c = d.
Proof. intros [Hc _] [Hd _]. unfold digit_value. destruct (Z.ltb_spec c 97), (Z.ltb_spec d 97); lia. Qed.

Lemma value_pos base l : 2 <= base -> Forall (is_digit base) l -> 0 <= value base l /\ (l <> [] -> hd_error l <> Some 48 -> 0 < value base l).
Proof.
  intros Hb. induction l as [|c l IH] using rev_ind; intros Hd; [done |]. apply Forall_app in Hd as [Hl [Hc _]%Forall_cons].
  pose proof (digit_range _ _ Hc) as Hr. destruct (IH Hl) as [H0 H1]. rewrite value_snoc. split; [nia |]. intros _ Hh.
  destruct l as [|e l]; [| assert (0 < value base (e :: l)) by (by apply H1); nia]. cbn. destruct (decide (digit_value c = 0)) as [E|]; [| lia].
  exfalso. apply Hh. cbn. f_equal. apply (digit_value_inj base); [done | | done]. split; [lia |]. change (digit_value 48) with 0. lia.
Qed.

(** Two texts without leading zeros that denote the same number are equal. *)
Lemma value_inj base : 2 <= base -> forall l l', Forall (is_digit base) l -> Forall (is_digit base) l' -> hd_error l <> Some 48 -> hd_error l' <> Some 48 ->
  value base l = value base l' -> l = l'.
Proof.
  intros Hb l. induction l as [|c l IH] using rev_ind; intros l' Hd Hd' Hh Hh' E.
  - destruct l' as [|c' l']; [done |]. destruct (value_pos base (c' :: l') Hb Hd') as [_ Hp]. specialize (Hp ltac:(done) Hh'). rewrite <- E in Hp. done.
  - destruct l' as [|c' l' _] using rev_ind.
    + destruct (value_pos base (l ++ [c]) Hb Hd) as [_ Hp]. specialize (Hp ltac:(by destruct l) Hh). by rewrite E in Hp.
    + apply Forall_app in Hd as [Hl [Hc _]%Forall_cons], Hd' as [Hl' [Hc' _]%Forall_cons]. rewrite !value_snoc in E.
      pose proof (digit_range _ _ Hc). pose proof (digit_range _ _ Hc').
      assert (value base l = value base l' /\ digit_value c = digit_value c') as [E1 E2].
      { rewrite !(Z.mul_comm _ base) in E. by apply Z.div_mod_unique in E; [| left..]. }
      f_equal; [| by f_equal; apply (digit_value_inj base)]. apply IH; [done | done | | | done].
      * intros Hx. apply Hh. by destruct l.
      * intros Hx. apply Hh'. by destruct l'.
Qed.

Lemma numeral_unique base n l l' : 2 <= base -> numeral base n l -> numeral base n l' -> l = l'.
Proof.
  intros Hb (Hd & Hv & Hne & Hz) (Hd' & Hv' & Hne' & Hz'). destruct (decide (n = 0)) as [->|Hn].
  - assert (forall l, Forall (is_digit base) l -> value base l = 0 -> l <> [] -> (hd_error l = Some 48 -> l = [48]) -> l = [48]) as H.
    { intros k Hk Hkv Hkne Hkz. destruct (decide (hd_error k = Some 48)) as [?|Hh]; [by apply Hkz |].
      destruct (value_pos base k Hb Hk) as [_ Hp]. specialize (Hp Hkne Hh). lia. }
    by rewrite (H l), (H l').
  - assert (forall l, value base l = n -> (hd_error l = Some 48 -> l = [48]) -> hd_error l <> Some 48) as H.
    { intros k Hkv Hkz Hh. rewrite (Hkz Hh) in Hkv. apply Hn. by rewrite <- Hkv. }
    apply (value_inj base); [done | done | done | by apply H | by apply H | congruence].
Qed.

Lemma digit_ok base d : base <= 16 -> 0 <= d < base -> is_digit base (digit d) /\ (digit d = 48 -> d = 0).
Proof.
  intros Hb Hd. assert (d ∈ seqZ 0 16) as H by (apply elem_of_seqZ; lia). unfold is_digit. rewrite digit_value_digit by lia.
  assert ((48 <= digit d <= 57 \/ 97 <= digit d <= 122) /\ (digit d = 48 -> d = 0)) as [H1 H2]; [| split; [split; [done | lia] | done]].
  assert (forallb (fun d => ((48 <=? digit d) && (digit d <=? 57) && ((d =? 0) || (49 <=? digit d))) || ((97 <=? digit d) && (digit d <=? 102)))
    (seqZ 0 16) = true) as Hf by by vm_compute.
  rewrite forallb_forall in Hf. specialize (Hf d (proj1 (list_elem_of_In _ _) H)).
  rewrite orb_true_iff, !andb_true_iff, orb_true_iff, !Z.leb_le, Z.eqb_eq in Hf. lia.
Qed.

Lemma num_digits_ok fuel num base : 2 <= base <= 16 -> Forall (is_digit base) (num_digits fuel num base).
Proof.
  intros Hb. revert num. induction fuel as [|fuel IH]; intros num; cbn [num_digits]; [done |]. case_match; [| done].
  constructor; [| apply IH]. apply digit_ok; [lia | apply Z.mod_pos_bound; lia].
Qed.

(** The highest digit, which comes last, is not zero. *)
Lemma num_digits_last fuel num base : 2 <= base <= 16 -> 0 < num < 2 ^ Z.of_nat fuel ->
  exists l d, num_digits fuel num base = l ++ [digit d] /\ 0 < d < base.
Proof.
  intros Hb. revert num. induction fuel as [|fuel IH]; intros num Hn; [simpl in *; lia |]. cbn [num_digits].
  rewrite (proj2 (Z.ltb_lt _ _)) by lia. pose proof (Z_div_mod_eq_full num base) as E. pose proof (Z.mod_pos_bound num base ltac:(lia)) as Hm.
  destruct (decide (num / base = 0)) as [H0|H0].
  - rewrite H0. exists [], (num mod base). split; [by destruct fuel | nia].
  - destruct (IH (num / base)) as (l & d & -> & Hd).
    + rewrite Nat2Z.inj_succ, Z.pow_succ_r in Hn by lia. split; [assert (0 <= num / base) by (apply Z.div_pos; lia); lia |].
      apply Z.div_lt_upper_bound; [lia |]. nia.
    + by exists (digit (num mod base) :: l), d.
Qed.

(** What the code prints is the numeral. *)
Lemma putnum_numeral num base : base = 10 \/ base = 16 -> 0 <= num < 2 ^ 64 -> numeral base num (local_putnum 255 num base).
Proof.
  intros Hb Hn. split; [| split; [by apply putnum_value |]].
  - unfold local_putnum. case_match; [by repeat constructor; destruct Hb as [-> | ->] |]. apply Forall_take, Forall_rev, num_digits_ok. lia.
  - unfold local_putnum. destruct (Z.eqb_spec num 0) as [->|Hne]; [done |]. cbn [andb].
    rewrite take_ge by (rewrite length_rev; pose proof (num_digits_length 64 num base); lia).
    destruct (num_digits_last 64 num base) as (l & d & -> & Hd); [lia.. |]. rewrite rev_app_distr. cbn. split; [done |]. intros [= E].
    apply (digit_ok base) in E; lia.
Qed.

Lemma numeral_text base n l : base = 10 \/ base = 16 -> 0 <= n < 2 ^ 64 -> numeral base n l -> l = local_putnum 255 n base.
Proof. intros Hb Hn Hl. apply (numeral_unique base n); [lia | done | by apply putnum_numeral]. Qed.

Lemma shows_render p args t : shows p args t -> Forall arg_ok args -> render p args = Some t.
Proof.
  induction 1 as [args|c p args t Hc _ IH|p args t _ IH|s p args t _ IH|n d p args t Hd _ IH|n d p args t Hd _ IH|n d p args t Hd _ IH
    |n d p args t Hd _ IH|p args t Hp _ IH|d p args t Hd _ IH]; intros Hargs; [done | ..].
  - cbn [render]. rewrite (proj2 (Z.eqb_neq _ _) Hc). cbn [negb]. by rewrite IH.
  - cbn. by rewrite IH.
  - apply Forall_cons in Hargs as [_ Hargs]. cbn. by rewrite IH.
  - apply Forall_cons in Hargs as [Ha Hargs]. cbn. rewrite IH by done. cbn. f_equal. f_equal. unfold dec, signed_numeral in *. cbn in Ha.
    destruct (Z.ltb_spec n 0); case_decide; try lia; [destruct Hd as (k & -> & Hk); f_equal; symmetry | symmetry]; apply numeral_text; (done || lia || by left).
  - apply Forall_cons in Hargs as [Ha Hargs]. cbn in Ha. cbn. rewrite IH by done. cbn. unfold hex. rewrite <- (numeral_text 16 n d); [done | by right | lia | done].
  - apply Forall_cons in Hargs as [Ha Hargs]. cbn in Ha. cbn. rewrite IH by done. cbn. unfold hex. rewrite <- (numeral_text 16 n d); [done | by right | lia | done].
  - apply Forall_cons in Hargs as [Ha Hargs]. cbn in Ha. cbn. rewrite IH by done. cbn. unfold hex. rewrite <- (numeral_text 16 n d); [done | by right | lia | done].
  - specialize (IH Hargs). destruct p as [|e [|f p3]]; [exact IH | exact IH |]. cbn [render] in *. cbn [Z.eqb Pos.eqb negb].
    destruct (Z.eqb_spec e 108) as [->|], (Z.eqb_spec f 120) as [->|]; try exact IH. destruct Hp. by exists p3.
  - rewrite !not_elem_of_cons in Hd. destruct Hd as (H1 & H2 & H3 & H4 & H5 & H6 & _). cbn [render]. cbn [Z.eqb Pos.eqb negb].
    rewrite !(proj2 (Z.eqb_neq d _)) by done. by apply IH.
Qed.

Section pending.
Variable s0 : console.
Hypothesis free_lock : kring_write_lock s0 = 0.

(** The text [l] is in the ring, but for its end [b], which is in the buffer. *)
Definition pending (l b : list Z) (s : console) : Prop :=
  Z.of_nat (length b) <= KPRINTF_BUF_MAX /\ Z.of_nat (length l) < 2 ^ 62 /\
  exists L r, l = L ++ b /\ unread r L /\ ring_ptr r <> 0 /\ s = over l_write_ring r s0.

Lemma wp_flush_buf l b s (Q : list Z -> console -> Prop) : pending l b s ->
  (forall s', pending l [] s' -> Q [] s') -> wp (flush_buf b) Q s.
Proof.
  intros (Hb & Hl & L & r & -> & Hu & Hp & ->) HQ. apply wp_bind. rewrite length_app in Hl. destruct b as [|c b].
  - apply wp_ret, wp_ret, HQ. rewrite app_nil_r. split_and!; [done | lia | by exists L, r; rewrite app_nil_r].
  - assert (Z.min (Z.of_nat (length (c :: b))) KRING_BUF_MAX = Z.of_nat (length (c :: b))) as Hmin
      by (unfold KPRINTF_BUF_MAX, KRING_BUF_MAX in *; lia).
    apply (wp_kring_write _ _ 1 _ _ L); [simpl; lia | lia | exact Hu | exact Hp | exact free_lock | unfold KRING_BUF_MAX; lia |].
    intros r' Hp' Hu'. apply wp_ret, HQ. rewrite Hmin, Nat2Z.id, take_ge in Hu' by lia. cbn in Hp'.
    split_and!; [done | rewrite length_app; lia | exists (L ++ c :: b), r']. rewrite app_nil_r. split_and!; [done | done | congruence | done].
Qed.

Lemma wp_CHECK_AND_FLUSH l b s (Q : list Z -> console -> Prop) : pending l b s ->
  (forall b' s', pending l b' s' -> Z.of_nat (length b') <= KPRINTF_BUF_MAX - 2 -> Q b' s') -> wp (CHECK_AND_FLUSH b) Q s.
Proof.
  intros Hp HQ. unfold CHECK_AND_FLUSH. case_match eqn:E.
  - apply (wp_flush_buf l); [done |]. intros s' Hs'. by apply HQ.
  - apply wp_ret, HQ; [done | lia].
Qed.

Lemma wp_put_buf l b t s (Q : list Z -> console -> Prop) : pending l b s -> Z.of_nat (length b + length t) <= KPRINTF_BUF_MAX ->
  Z.of_nat (length (l ++ t)) < 2 ^ 62 -> (forall b' s', pending (l ++ t) b' s' -> Q b' s') -> wp (put_buf b t) Q s.
Proof.
  intros (Hb & Hl & L & r & -> & Hu & Hp & ->) Ht Hlt HQ. unfold put_buf. rewrite (proj2 (Z.leb_le _ _)) by done.
  apply wp_ret, HQ. split_and!; [by rewrite length_app | done |]. exists L, r. by rewrite app_assoc.
Qed.

Lemma wp_check_put l b c s (Q : list Z -> console -> Prop) : pending l b s -> Z.of_nat (length (l ++ [c])) < 2 ^ 62 ->
  (forall b' s', pending (l ++ [c]) b' s' -> Q b' s') -> wp (check_put b c) Q s.
Proof.
  intros Hp Hl HQ. apply wp_bind, (wp_CHECK_AND_FLUSH l); [done |]. intros b' s' Hp' Hb'.
  apply (wp_put_buf l); [done | simpl; lia | done | done].
Qed.

Lemma wp_put_str t : forall l b s (Q : list Z -> console -> Prop), pending l b s -> Z.of_nat (length (l ++ t)) < 2 ^ 62 ->
  (forall b' s', pending (l ++ t) b' s' -> Q b' s') -> wp (put_str t b) Q s.
Proof.
  induction t as [|c t IH]; intros l b s Q Hp Hl HQ; cbn [put_str].
  - apply wp_ret, HQ. by rewrite app_nil_r.
  - rewrite length_app in Hl. simpl in Hl. apply wp_bind, (wp_check_put l); [done | rewrite length_app; simpl; lia |].
    intros b' s' Hp'. apply (IH (l ++ [c])); rewrite <- ?app_assoc; [done | rewrite length_app; simpl; lia | done].
Qed.

Lemma wp_put_num l b n base s (Q : list Z -> console -> Prop) : pending l b s -> base = 10 \/ base = 16 -> 0 <= n < 2 ^ 64 ->
  Z.of_nat (length (l ++ local_putnum 255 n base)) < 2 ^ 62 ->
  (forall b' s', pending (l ++ local_putnum 255 n base) b' s' -> Q b' s') -> wp (put_num b n base) Q s.
Proof.
  intros Hp Hbase Hn Hl HQ. pose proof (putnum_length n base Hbase Hn) as Hlen. apply wp_bind.
  apply (wp_mono _ (fun b' s' => pending l b' s' /\ Z.of_nat (length b') <= KPRINTF_BUF_MAX - 35)).
  - destruct (Z.ltb_spec (KPRINTF_BUF_MAX - 35) (Z.of_nat (length b))).
    + apply (wp_flush_buf l); [done |]. by intros s' Hs'.
    + apply wp_ret. done.
  - intros b' s' [Hp' Hb']. apply (wp_put_buf l); [done | | exact Hl | exact HQ].
    change (Z.to_nat (KPRINTF_BUF_MAX - 1)) with 255%nat. unfold KPRINTF_BUF_MAX in *. lia.
Qed.

Lemma wp_put_hex l b n s (Q : list Z -> console -> Prop) : pending l b s -> 0 <= n < 2 ^ 64 ->
  Z.of_nat (length (l ++ hex n)) < 2 ^ 62 -> (forall b' s', pending (l ++ hex n) b' s' -> Q b' s') -> wp (put_hex b n) Q s.
Proof.
  unfold hex. intros Hp Hn Hl HQ. rewrite !length_app in Hl. simpl in Hl.
  apply wp_bind, (wp_check_put l); [done | rewrite length_app; simpl; lia |]. intros b1 s1 H1.
  apply wp_bind, (wp_check_put (l ++ [48])); [done | rewrite !length_app; simpl; lia |]. intros b2 s2 H2. rewrite <- app_assoc in H2.
  apply (wp_put_num (l ++ [48; 120])); rewrite <- ?app_assoc; [done | by right | done | rewrite !length_app; simpl; lia | done].
Qed.

Lemma wp_put_dec l b n s (Q : list Z -> console -> Prop) : pending l b s -> - 2 ^ 31 < n < 2 ^ 31 ->
  Z.of_nat (length (l ++ dec n)) < 2 ^ 62 -> (forall b' s', pending (l ++ dec n) b' s' -> Q b' s') -> wp (put_dec b n) Q s.
Proof.
  unfold dec, put_dec. intros Hp Hn Hl HQ. destruct (Z.ltb_spec n 0).
  - rewrite length_app in Hl. simpl in Hl. apply wp_bind, (wp_check_put l); [done | rewrite length_app; simpl; lia |].
    intros b1 s1 H1. rewrite s32_small, u64_small by lia.
    apply (wp_put_num (l ++ [45])); rewrite <- ?app_assoc; [done | by left | lia | rewrite length_app; simpl; lia | done].
  - rewrite u64_small by lia. apply (wp_put_num l); [done | by left | lia | done | done].
Qed.

Lemma put_text_inv t o out : put_text t o = Some out -> exists out', o = Some out' /\ out = t ++ out'.
Proof. unfold put_text. intros (out' & -> & ->)%fmap_Some. eauto. Qed.

Lemma wp_kprintf_loop n : forall p args l b s out, (length p <= n)%nat -> render p args = Some out -> Forall arg_ok args ->
  pending l b s -> Z.of_nat (length (l ++ out)) < 2 ^ 62 ->
  wp (kprintf_loop p args b) (fun b' s' => pending (l ++ out) b' s') s.
Proof.
  induction n as [|n IH]; intros [|c p'] args l b s out Hn Hr Hargs Hp Hl; try (simpl in Hn; lia).
  1, 2: injection Hr as <-; apply wp_ret; by rewrite app_nil_r.
  cbn [render kprintf_loop] in *. simpl length in Hn. apply wp_bind, (wp_CHECK_AND_FLUSH l); [done |]. intros b1 s1 H1 Hb1.
  assert (forall p args t out, (length p <= n)%nat -> Forall arg_ok args -> put_text t (render p args) = Some out ->
    Z.of_nat (length (l ++ out)) < 2 ^ 62 -> Z.of_nat (length (l ++ t)) < 2 ^ 62 /\
    forall b s, pending (l ++ t) b s -> wp (kprintf_loop p args b) (fun b' s' => pending (l ++ out) b' s') s) as Hgo.
  { intros q args2 t out2 Hq Hargs2 (out' & Hr' & ->)%put_text_inv Hlo. split; [rewrite !length_app in *; lia |].
    intros b2 s2 H2. rewrite app_assoc in *. by apply IH. }
  destruct (negb (c =? 37)) eqn:Hc.
  { destruct (Hgo p' args [c] out) as [Hlt Hwp]; [lia | done | done | done |].
    apply wp_bind, (wp_put_buf l); [done | simpl; lia | done | exact Hwp]. }
  destruct p' as [|d p2]; [done |]. simpl length in Hn.
  destruct (d =? 115); [destruct args as [|[t| | |] args]; try done; apply Forall_cons in Hargs as [Ha Hargs] |].
  { destruct (Hgo p2 args t out) as [Hlt Hwp]; [lia | done..|]. apply wp_bind, (wp_put_str t l); [done | done | exact Hwp]. }
  destruct (d =? 100); [destruct args as [|[|i| |] args]; try done; apply Forall_cons in Hargs as [Ha Hargs] |].
  { destruct (Hgo p2 args (dec i) out) as [Hlt Hwp]; [lia | done..|]. apply wp_bind, (wp_put_dec l); [done.. | exact Hwp]. }
  destruct (d =? 120); [destruct args as [|[| |i|] args]; try done; apply Forall_cons in Hargs as [Ha Hargs] |].
  { destruct (Hgo p2 args (hex i) out) as [Hlt Hwp]; [lia | done..|]. apply wp_bind, (wp_put_hex l); [done | cbn in Ha; lia | done | exact Hwp]. }
  destruct (d =? 108).
  { destruct p2 as [|e [|f p3]]; [apply IH; simpl in *; done || lia.. |].
    destruct ((e =? 108) && (f =? 120)); [| apply IH; simpl in *; done || lia].
    destruct args as [|[| | |i] args]; try done; apply Forall_cons in Hargs as [Ha Hargs]. simpl in Hn.
    destruct (Hgo p3 args (hex i) out) as [Hlt Hwp]; [lia | done..|]. apply wp_bind, (wp_put_hex l); [done.. | exact Hwp]. }
  destruct (d =? 112); [destruct args as [|[| | |i] args]; try done; apply Forall_cons in Hargs as [Ha Hargs] |].
  { destruct (Hgo p2 args (hex i) out) as [Hlt Hwp]; [lia | done..|]. apply wp_bind, (wp_put_hex l); [done.. | exact Hwp]. }
  destruct (d =? 37); [| apply IH; simpl in *; done || lia].
  destruct (Hgo p2 args [37] out) as [Hlt Hwp]; [lia | done..|]. apply wp_bind, (wp_put_buf l); [done | simpl; lia | done | exact Hwp].
Qed.
End pending.

(** The state of the console in which printing works. *)
Record printing (l : list Z) (s : console) : Prop := {
  pr_unread : unread (write_ring s) l;
  pr_ptr : ring_ptr (write_ring s) <> 0;
  pr_lock : kring_write_lock s = 0;
}.

Lemma wp_kprintf p args l out s : printing l s -> render p args = Some out -> Forall arg_ok args ->
  Z.of_nat (length (l ++ out)) < 2 ^ 62 ->
  wp (kprintf p args) (fun _ s' => printing (l ++ out) s' /\ s' = over l_write_ring (write_ring s') s) s.
Proof.
  intros [Hu Hptr Hlock] Hr Hargs Hl. apply wp_bind.
  eapply wp_mono; [apply (wp_kprintf_loop s Hlock (length p) p args l [] s out); try done |].
  { split_and!; [done | rewrite length_app in Hl; lia | exists l, (write_ring s)]. rewrite app_nil_r. split_and!; [done.. | by destruct s]. }
  intros b s1 Hp. destruct (Z.ltb_spec 0 (Z.of_nat (length b))) as [Hb|Hb].
  - apply (wp_mono _ (fun _ s' => exists r, s' = over l_write_ring r s /\ unread r (l ++ out) /\ ring_ptr r <> 0)).
    + pose proof (wp_flush_buf s Hlock (l ++ out) b s1 (fun _ s' => pending s (l ++ out) [] s') Hp ltac:(auto)) as Hf.
      apply wp_bind_inv in Hf. eapply wp_mono; [exact Hf |]. intros [] s2 (_ & _ & L & r & E & Hu' & Hp' & ->).
      rewrite app_nil_r in E. subst L. by exists r.
    + intros [] s' (r & -> & Hu' & Hp'). done.
  - destruct b; [| simpl in Hb; lia]. apply wp_ret. destruct Hp as (_ & _ & L & r & E & Hu' & Hp' & ->).
    rewrite app_nil_r in E. subst L. done.
Qed.

(** * Properties *)

(** C32: [kprintf] puts into the ring exactly the text of its format and arguments,
    whatever their length: strings as they are, numbers as the numeral without
    leading zeros that denotes them, in base 10 with a sign or in base 16 after
    [0x]. It never writes outside its buffer, and loses or repeats nothing when the
    buffer is flushed. *)
Theorem kprintf_renders p args l out s : printing l s -> shows p args out -> Forall arg_ok args ->
  Z.of_nat (length (l ++ out)) < 2 ^ 62 ->
  wp (kprintf p args) (fun _ s' => printing (l ++ out) s' /\ s' = over l_write_ring (write_ring s') s) s.
Proof. intros Hp Hs Ha. apply wp_kprintf; [done | by apply shows_render | done]. Qed.

(** The digits that are printed denote the number, in base 10 and 16. *)
Theorem putnum_roundtrip num base : base = 10 \/ base = 16 -> 0 <= num < 2 ^ 64 -> value base (local_putnum 255 num base) = num.
Proof. apply putnum_value. Qed.

(** * Witnesses *)

Lemma console0_printing : printing [] console0.
Proof. split; [apply ring0_unread | done | done]. Qed.

(** [kprintf("n=%d %x\n", -42, 0xc0de)] *)
Lemma kprintf_renders_witness :
  wp (kprintf [110; 61; 37; 100; 32; 37; 120; 10] [AInt (-42); AU32 0xc0de])
    (fun _ s' => printing [110; 61; 45; 52; 50; 32; 48; 120; 99; 48; 100; 101; 10] s') console0.
Proof.
  eapply wp_mono; [apply (kprintf_renders [110; 61; 37; 100; 32; 37; 120; 10] [AInt (-42); AU32 0xc0de] []
    [110; 61; 45; 52; 50; 32; 48; 120; 99; 48; 100; 101; 10] console0 console0_printing) |].
  - do 2 (apply sh_char; [done |]). apply (sh_d (-42) [45; 52; 50]).
    { exists [52; 50]. split; [done |]. split; [repeat constructor; (by left || done) | by split]. }
    apply sh_char; [done |]. apply (sh_x 0xc0de [99; 48; 100; 101]).
    { split; [repeat constructor; (by left || by right || done) | by split]. }
    apply sh_char; [done | apply sh_end].
  - by repeat constructor.
  - done.
  - by intros [] s' [? _].
Defined.

Lemma putnum_roundtrip_witness : local_putnum 255 0xbeef 16 = [98; 101; 101; 102] /\ value 16 (local_putnum 255 0xbeef 16) = 0xbeef.
Proof. split; [by vm_compute | apply (putnum_roundtrip 0xbeef 16); [by right | done]]. Defined.
