(* ===== verification/Keyboard.v ===== *)
(** The keyboard ([arch/x86_64/drivers/keyboard/keyboard.c]) and the terminal
    files ([drivers/video/console.c]): key presses go to both rings of the
    console, and a line wakes the thread that reads from the terminal. *)
From Stdlib Require Import Ascii String.
From S2P Require Import Prelude Cpu DList Sched Mutex Lfb Kring.

(** * Keys *)

Definition txt (s : string) : list Z := (fun c => Z.of_nat (nat_of_ascii c)) <$> list_ascii_of_string s.

Definition lowercase : list (list Z) := [
  txt "UNKNOWN"; txt "ESC"; txt "1"; txt "2"; txt "3"; txt "4"; txt "5"; txt "6";
  txt "7"; txt "8"; txt "9"; txt "0"; txt "-"; txt "="; [8]; [9];
  txt "q"; txt "w"; txt "e"; txt "r"; txt "t"; txt "y"; txt "u"; txt "i";
  txt "o"; txt "p"; txt "["; txt "]"; [10]; txt "CTRL"; txt "a"; txt "s";
  txt "d"; txt "f"; txt "g"; txt "h"; txt "j"; txt "k"; txt "l"; txt ";";
  [34]; txt "`"; txt "LSHFT"; [92]; txt "z"; txt "x"; txt "c"; txt "v";
  txt "b"; txt "n"; txt "m"; txt ","; txt "."; txt "/"; txt "RSHFT"; txt "*";
  txt "ALT"; txt " "; txt "CAPS"; txt "F1"; txt "F2"; txt "F3"; txt "F4"; txt "F5";
  txt "F6"; txt "F7"; txt "F8"; txt "F9"; txt "F10"; txt "NUMLCK"; txt "SCRLCK"; txt "HOME";
  txt "UP"; txt "PGUP"; txt "-"; txt "LEFT"; txt "UNKNOWN"; txt "RIGHT"; txt "+"; txt "END";
  txt "DOWN"; txt "PGDOWN"; txt "INS"; txt "DEL"; txt "UNKNOWN"; txt "UNKNOWN"; txt "UNKNOWN"; txt "F11";
  txt "F12"; txt "UNKNOWN"; txt "UNKNOWN"; txt "UNKNOWN"; txt "UNKNOWN"; txt "UNKNOWN"; txt "UNKNOWN"; txt "UNKNOWN";
  txt "UNKNOWN"; txt "UNKNOWN"; txt "UNKNOWN"; txt "UNKNOWN"; txt "UNKNOWN"; txt "UNKNOWN"; txt "UNKNOWN"; txt "UNKNOWN";
  txt "UNKNOWN"; txt "UNKNOWN"; txt "UNKNOWN"; txt "UNKNOWN"; txt "UNKNOWN"; txt "UNKNOWN"; txt "UNKNOWN"; txt "UNKNOWN";
  txt "UNKNOWN"; txt "UNKNOWN"; txt "UNKNOWN"; txt "UNKNOWN"; txt "UNKNOWN"; txt "UNKNOWN"; txt "UNKNOWN"; txt "UNKNOWN";
  txt "UNKNOWN"; txt "UNKNOWN"; txt "UNKNOWN"; txt "UNKNOWN"; txt "UNKNOWN"; txt "UNKNOWN"; txt "UNKNOWN"; txt "UNKNOWN"
].

Definition uppercase : list (list Z) := [
  txt "UNKNOWN"; txt "ESC"; txt "!"; txt "@"; txt "#"; txt "$"; txt "%"; txt "^";
  txt "&"; txt "*"; txt "("; txt ")"; txt "_"; txt "+"; [8]; [9];
  txt "Q"; txt "W"; txt "E"; txt "R"; txt "T"; txt "Y"; txt "U"; txt "I";
  txt "O"; txt "P"; txt "{"; txt "}"; [10]; txt "CTRL"; txt "A"; txt "S";
  txt "D"; txt "F"; txt "G"; txt "H"; txt "J"; txt "K"; txt "L"; txt ":";
  [34]; txt "~"; txt "LSHFT"; txt "|"; txt "Z"; txt "X"; txt "C"; txt "V";
  txt "B"; txt "N"; txt "M"; txt "<"; txt ">"; txt "?"; txt "RSHFT"; txt "*";
  txt "ALT"; txt " "; txt "CAPS"; txt "F1"; txt "F2"; txt "F3"; txt "F4"; txt "F5";
  txt "F6"; txt "F7"; txt "F8"; txt "F9"; txt "F10"; txt "NUMLCK"; txt "SCRLCK"; txt "HOME";
  txt "UP"; txt "PGUP"; txt "-"; txt "LEFT"; txt "UNKNOWN"; txt "RIGHT"; txt "+"; txt "END";
  txt "DOWN"; txt "PGDOWN"; txt "INS"; txt "DEL"; txt "UNKNOWN"; txt "UNKNOWN"; txt "UNKNOWN"; txt "F11";
  txt "F12"; txt "UNKNOWN"; txt "UNKNOWN"; txt "UNKNOWN"; txt "UNKNOWN"; txt "UNKNOWN"; txt "UNKNOWN"; txt "UNKNOWN";
  txt "UNKNOWN"; txt "UNKNOWN"; txt "UNKNOWN"; txt "UNKNOWN"; txt "UNKNOWN"; txt "UNKNOWN"; txt "UNKNOWN"; txt "UNKNOWN";
  txt "UNKNOWN"; txt "UNKNOWN"; txt "UNKNOWN"; txt "UNKNOWN"; txt "UNKNOWN"; txt "UNKNOWN"; txt "UNKNOWN"; txt "UNKNOWN";
  txt "UNKNOWN"; txt "UNKNOWN"; txt "UNKNOWN"; txt "UNKNOWN"; txt "UNKNOWN"; txt "UNKNOWN"; txt "UNKNOWN"; txt "UNKNOWN";
  txt "UNKNOWN"; txt "UNKNOWN"; txt "UNKNOWN"; txt "UNKNOWN"; txt "UNKNOWN"; txt "UNKNOWN"; txt "UNKNOWN"; txt "UNKNOWN"
].

Definition extended : list (list Z) := [
  []; []; []; []; []; []; []; [];
  []; []; []; []; []; []; []; [];
  []; []; []; []; []; []; []; [];
  []; []; []; []; txt "Keypad Enter"; txt "RCtrl"; []; [];
  []; []; []; []; []; []; []; [];
  []; []; []; []; []; []; []; [];
  []; []; []; []; []; txt "Keypad /"; []; [];
  txt "RAlt"; []; []; []; []; []; []; [];
  []; []; []; []; []; []; []; txt "Home";
  txt "Up Arrow"; txt "Page Up"; []; txt "Left Arrow"; []; txt "Right Arrow"; []; txt "End";
  txt "Down Arrow"; txt "Page Down"; txt "Insert"; txt "Delete"; []; []; []; [];
  []; []; []; txt "Left Super"; txt "Right Super"; txt "Apps/Menu"; txt "Power"; txt "Sleep";
  []; []; []; txt "Wake"; []; []; []; [];
  []; []; []; []; []; []; []; [];
  []; []; []; []; []; []; []; [];
  []; []; []; []; []; []; []; [];
  []; []; []; []; []; []; []; [];
  []; []; []; []; []; []; []; [];
  []; []; []; []; []; []; []; [];
  []; []; []; []; []; []; []; [];
  []; []; []; []; []; []; []; [];
  []; []; []; []; []; []; []; [];
  []; []; []; []; []; []; []; [];
  []; []; []; []; []; []; []; [];
  []; []; []; []; []; []; []; [];
  []; []; []; []; []; []; []; [];
  []; []; []; []; []; []; []; [];
  []; []; []; []; []; []; []; [];
  []; []; []; []; []; []; []; [];
  []; []; []; []; []; []; []; [];
  []; []; []; []; []; []; []; [];
  []; []; []; []; []; []; []; []
].

(** * State *)

(** The console, the scheduler with the mutex [term_read_mutex], the state of
    the keys and the thread that waits for a line. *)
Record keyboard : Type := Keyboard {
  k_con : console;
  k_sys : msys;
  shift : Z;
  capslock : Z;
  ext : Z;
  read_blocked_thread : Z;
}.

Definition set_shift (x : Z) (s : keyboard) : keyboard := Keyboard (k_con s) (k_sys s) x (capslock s) (ext s) (read_blocked_thread s).
Definition set_capslock (x : Z) (s : keyboard) : keyboard := Keyboard (k_con s) (k_sys s) (shift s) x (ext s) (read_blocked_thread s).
Definition set_ext (x : Z) (s : keyboard) : keyboard := Keyboard (k_con s) (k_sys s) (shift s) (capslock s) x (read_blocked_thread s).
Definition set_read_blocked (x : Z) (s : keyboard) : keyboard := Keyboard (k_con s) (k_sys s) (shift s) (capslock s) (ext s) x.
Definition set_k_sys (x : msys) (s : keyboard) : keyboard := Keyboard (k_con s) x (shift s) (capslock s) (ext s) (read_blocked_thread s).
Definition l_k_sys : lens keyboard msys := Lens k_sys set_k_sys.

(** The console, on the one processor, which the scheduler's state holds. *)
Definition set_console (c : console) (s : keyboard) : keyboard :=
  Keyboard c (set_ms_sched (set_s_cpu (con_cpu c) (ms_sched (k_sys s))) (k_sys s)) (shift s) (capslock s) (ext s) (read_blocked_thread s).
Definition l_console : lens keyboard console :=
  Lens (fun s => over l_con_cpu (s_cpu (ms_sched (k_sys s))) (k_con s)) set_console.

(** * Operations *)

(** [if (tail == head--) tail--] *)
Definition ring_back : M ring unit :=
  r ← get;
  modify (set_head (u64 (head r - 1)));;
  when (tail r =? head r) (modify (set_tail (u64 (tail r - 1)))).

Definition press_backspace : M console unit :=
  modify (set_backspace 1);;
  w ← gets write_ring;
  (if negb (truthy (ring_ptr w)) then fail Fault
   else zoom l_write_ring (modify (set_ready (Z.land (head w) KRING_BUF_MASK) 1)));;
  zoom l_read_ring ring_back;;
  zoom l_write_ring ring_back;;
  zoom l_fb (kputchar_direct 8).

Definition press_enter : M keyboard unit :=
  zoom l_console (kring_write [10] 1 0);;
  zoom l_console (kring_write [10] 1 1);;
  t ← gets read_blocked_thread;
  when (truthy t) (
    zoom l_k_sys (zoom l_sched (upd_thread t (set_state READY)));;
    zoom l_k_sys (zoom l_sched (enqueue_thread t));;
    modify (set_read_blocked 0)).

(** A key of a table: its text goes to both rings. *)
Definition type_key (table : list (list Z)) (scanCode : Z) : M keyboard unit :=
  match table !! Z.to_nat scanCode with
  | None => fail Fault
  | Some key =>
      zoom l_console (kring_write key (Z.of_nat (length key)) 0);;
      zoom l_console (kring_write key (Z.of_nat (length key)) 1)
  end.

Definition ignored : list Z := [1; 29; 56; 59; 60; 61; 62; 63; 64; 65; 66; 67; 68; 87; 88].

(** [rawCode] is what [inb(0x60)] returned; its top bit is set on release. *)
Definition keyboard_handler (rawCode : Z) : M keyboard unit :=
  let scanCode := Z.land rawCode 0x7F in
  let press := Z.land rawCode 0x80 in
  if rawCode =? 0xE0 then modify (set_ext 1)
  else if bool_decide (scanCode ∈ ignored) then mret tt
  else if scanCode =? 14 then
    when (negb (truthy press)) (zoom l_console press_backspace)
  else if scanCode =? 28 then
    when (negb (truthy press)) press_enter
  else if scanCode =? 42 then
    if truthy press then modify (set_shift 0) else modify (set_shift 1)
  else if scanCode =? 58 then
    c ← gets capslock;
    if truthy c && truthy press then modify (set_capslock 0)
    else when (negb (truthy c) && truthy press) (modify (set_capslock 1))
  else
    when (negb (truthy press)) (
      e ← gets ext;
      if truthy e then
        modify (set_ext 0);;
        type_key extended scanCode
      else
        s ← get;
        let lower := (negb (truthy (shift s)) && negb (truthy (capslock s))) || (truthy (shift s) && truthy (capslock s)) in
        if lower then type_key lowercase scanCode else type_key uppercase scanCode).

Definition init_keyboard : M keyboard unit :=
  modify (set_shift 0);;
  modify (set_capslock 0);;
  modify (set_ext 0);;
  zoom l_console (modify (set_backspace 0)).

Definition terminal_write (buf : list Z) : M keyboard Z :=
  zoom l_console (kring_write buf (Z.of_nat (length buf)) 1);; mret (Z.of_nat (length buf)).

(** [terminal_read] up to where it may give up the processor, once it has the
    mutex: the result is the stack pointer to go on with when it waits for a
    line. [terminal_read_end] is the rest. *)
Definition terminal_read_begin (sstacks rsp : Z) : M keyboard (option Z) :=
  n ← zoom l_console check_for_n;
  if negb (truthy n) then
    t ← gets (fun s => current_thread (ms_sched (k_sys s)));
    modify (set_read_blocked t);;
    zoom l_k_sys (zoom l_sched (upd_thread t (set_state BLOCKED)));;
    r ← zoom l_k_sys (zoom l_sched (scheduler_handler sstacks rsp));
    mret (Some r)
  else mret None.

Definition terminal_read_end (count : nat) : M keyboard (list Z * Z) :=
  l ← zoom l_console (kring_flush_to_rbuf count);
  zoom l_k_sys mutex_unlock;;
  mret (l, 0).

(** * Specification *)

(** The codes of the keys that have a text. *)
Definition plain (code : Z) : Prop := 0 <= code < 128 /\ (code ∉ 14 :: 28 :: 42 :: 58 :: ignored).

(** The text of a key, with the state of the shift keys. *)
Definition key_text (s : keyboard) (code : Z) : list Z :=
  let table :=
    if truthy (ext s) then extended
    else if bool_decide (truthy (shift s) = truthy (capslock s)) then lowercase else uppercase in
  nth (Z.to_nat code) table [].

(** The console works, and [l1] and [l2] wait in its two rings. *)
Record typing (l1 l2 : list Z) (s : keyboard) : Prop := {
  ty_read : unread (read_ring (k_con s)) l1;
  ty_write : unread (write_ring (k_con s)) l2;
  ty_ptrs : ring_ptr (read_ring (k_con s)) <> 0 /\ ring_ptr (write_ring (k_con s)) <> 0;
  ty_lock : kring_write_lock (k_con s) = 0;
}.

(** Only the two rings changed. *)
Definition rings_only (s s' : keyboard) : Prop :=
  exists c, s' = Keyboard c (k_sys s) (shift s) (capslock s) (ext s) (read_blocked_thread s) /\
    con_fb c = con_fb (k_con s) /\ backspace c = backspace (k_con s) /\ kring_read_lock c = kring_read_lock (k_con s).

(** * Lemmas *)

Lemma tables_keys : forall t, t = lowercase \/ t = uppercase \/ t = extended -> forall code, 0 <= code < 128 ->
  t !! Z.to_nat code = Some (nth (Z.to_nat code) t []) /\ Z.of_nat (length (nth (Z.to_nat code) t [])) <= 16.
Proof.
  intros t Ht code Hc. assert (128 <= Z.of_nat (length t) /\ forallb (fun k => Z.of_nat (length k) <=? 16) t = true) as [Hl Hk].
  { by destruct Ht as [-> |[-> | ->]]. }
  destruct (lookup_lt_is_Some_2 t (Z.to_nat code) ltac:(lia)) as [k E]. rewrite (nth_lookup_Some _ _ _ _ E). split; [done |].
  rewrite forallb_forall in Hk. apply list_elem_of_lookup_2, list_elem_of_In, Hk in E. lia.
Qed.

Lemma set_ms_cpu_id y : set_ms_sched (set_s_cpu (s_cpu (ms_sched y)) (ms_sched y)) y = y.
Proof. by destruct y as [[] m]. Qed.

Lemma wp_ring_text key mode l1 l2 s (Q : unit -> keyboard -> Prop) : typing l1 l2 s -> Z.of_nat (length key) <= KRING_BUF_MAX ->
  Z.of_nat (length l1) < 2 ^ 62 -> Z.of_nat (length l2) < 2 ^ 62 ->
  (forall s', rings_only s s' -> typing (if truthy mode then l1 else l1 ++ key) (if truthy mode then l2 ++ key else l2) s' -> Q tt s') ->
  wp (zoom l_console (kring_write key (Z.of_nat (length key)) mode)) Q s.
Proof.
  intros [H1 H2 [H3 H4] H5] Hk Hl1 Hl2 HQ. apply wp_zoom. set (c := view l_console s).
  assert (forall c', con_fb c' = con_fb c -> backspace c' = backspace c -> kring_read_lock c' = kring_read_lock c ->
    con_cpu c' = con_cpu c -> rings_only s (over l_console c' s)) as Hro.
  { intros c' E1 E2 E3 E4. exists c'. cbn. unfold set_console. rewrite E4. cbn. rewrite set_ms_cpu_id. done. }
  destruct key as [|x key].
  - apply wp_ret, HQ; [by apply Hro |]. rewrite !app_nil_r. by destruct (truthy mode).
  - apply (wp_kring_write _ _ mode _ _ (if truthy mode then l2 else l1)).
    + simpl. lia.
    + lia.
    + by destruct (truthy mode).
    + by destruct (truthy mode).
    + done.
    + unfold KRING_BUF_MAX. destruct (truthy mode); lia.
    + intros r Hr Hun. rewrite Z.min_l, Nat2Z.id, take_ge in Hun by lia. apply HQ.
      * apply Hro; by destruct (truthy mode).
      * destruct (truthy mode); cbn in *; split; cbn; rewrite ?Hr; done.
Qed.

Lemma rings_only_refl s : rings_only s s.
Proof. exists (k_con s). by destruct s. Qed.

Lemma rings_only_trans s1 s2 s3 : rings_only s1 s2 -> rings_only s2 s3 -> rings_only s1 s3.
Proof. intros (c & -> & E1 & E2 & E3) (c' & -> & E4 & E5 & E6). exists c'. cbn in *. split_and!; congruence. Qed.

(** A text to both rings, as a key sends it. *)
Lemma wp_both_rings key l1 l2 s (Q : unit -> keyboard -> Prop) : typing l1 l2 s -> Z.of_nat (length key) <= KRING_BUF_MAX ->
  Z.of_nat (length l1) < 2 ^ 61 -> Z.of_nat (length l2) < 2 ^ 61 ->
  (forall s', rings_only s s' -> typing (l1 ++ key) (l2 ++ key) s' -> Q tt s') ->
  wp (zoom l_console (kring_write key (Z.of_nat (length key)) 0);; zoom l_console (kring_write key (Z.of_nat (length key)) 1)) Q s.
Proof.
  intros Ht Hk H1 H2 HQ. apply wp_bind, (wp_ring_text key 0 l1 l2); [done | done | lia | lia |]. intros s1 Hr1 Ht1.
  apply (wp_ring_text key 1 (l1 ++ key) l2); [done | done | rewrite length_app; unfold KRING_BUF_MAX in *; lia | lia |].
  intros s2 Hr2 Ht2. by apply HQ; [apply (rings_only_trans s s1) |].
Qed.

Lemma wp_type_key t code l1 l2 s (Q : unit -> keyboard -> Prop) : t = lowercase \/ t = uppercase \/ t = extended -> 0 <= code < 128 ->
  typing l1 l2 s -> Z.of_nat (length l1) < 2 ^ 61 -> Z.of_nat (length l2) < 2 ^ 61 ->
  (forall s', rings_only s s' -> typing (l1 ++ nth (Z.to_nat code) t []) (l2 ++ nth (Z.to_nat code) t []) s' -> Q tt s') ->
  wp (type_key t code) Q s.
Proof.
  intros Ht Hc Hty H1 H2 HQ. destruct (tables_keys t Ht code Hc) as [E Hlen]. unfold type_key. rewrite E.
  apply (wp_both_rings _ l1 l2); [done | unfold KRING_BUF_MAX; lia | done..].
Qed.

Lemma land_code code : 0 <= code < 128 -> Z.land code 0x7F = code /\ Z.land code 0x80 = 0.
Proof.
  intros Hc. change 0x7F with (Z.ones 7). rewrite Z.land_ones, Z.mod_small by lia. split; [done |].
  apply Z.bits_inj'. intros n Hn. rewrite Z.land_spec, Z.bits_0. change 0x80 with (2 ^ 7). rewrite Z.pow2_bits_eqb by lia.
  destruct (Z.eqb_spec 7 n) as [<-|]; [| by rewrite andb_false_r]. rewrite andb_true_r.
  destruct (Z.eq_dec code 0) as [->|]; [done |]. apply Z.bits_above_log2; [lia |]. apply Z.log2_lt_pow2; lia.
Qed.

Lemma wp_press_plain code l1 l2 s (Q : unit -> keyboard -> Prop) : plain code -> typing l1 l2 s ->
  Z.of_nat (length l1) < 2 ^ 61 -> Z.of_nat (length l2) < 2 ^ 61 ->
  (forall s', rings_only (set_ext 0 s) s' -> typing (l1 ++ key_text s code) (l2 ++ key_text s code) s' -> Q tt s') ->
  wp (keyboard_handler code) Q s.
Proof.
  intros [Hc Hn] Hty H1 H2 HQ. rewrite !not_elem_of_cons in Hn. destruct Hn as (Hn14 & Hn28 & Hn42 & Hn58 & Hig).
  destruct (land_code code Hc) as [E1 E2]. unfold keyboard_handler. rewrite E1, E2. cbn [truthy negb Z.eqb].
  rewrite (proj2 (Z.eqb_neq code 0xE0)), bool_decide_false, !(proj2 (Z.eqb_neq code _)) by (lia || done). cbn [when].
  apply wp_bind, wp_gets. unfold key_text in HQ. destruct (truthy (ext s)) eqn:Ee.
  - apply wp_bind, wp_modify. apply (wp_type_key extended code l1 l2); [auto | done | by destruct Hty | done | done | exact HQ].
  - apply wp_bind, wp_get. apply truthy_false in Ee. assert (set_ext 0 s = s) as Es by (destruct s; cbn in Ee; by rewrite Ee). rewrite Es in HQ.
    cbv zeta. destruct (truthy (shift s)), (truthy (capslock s)); cbn [negb andb orb bool_decide decide] in *;
      (eapply (wp_type_key _ code l1 l2); [| done.. | exact HQ]; auto).
Qed.

(** ** Backspace *)

Lemma lookup_removelast {A} (l : list A) i c : removelast l !! i = Some c -> l !! i = Some c.
Proof.
  destruct l as [|x l _] using rev_ind; [done |]. rewrite removelast_last. intros H. by apply lookup_app_l_Some.
Qed.

Lemma length_removelast {A} (l : list A) : length (removelast l) = pred (length l).
Proof. destruct l as [|x l _] using rev_ind; [done |]. rewrite removelast_last, length_app. simpl. lia. Qed.

(** The last character is taken back; an empty ring stays empty. *)
Lemma wp_ring_back l r : unread r l -> Z.of_nat (length l) <= KRING_BUF_MAX ->
  wp ring_back (fun _ r' => unread r' (removelast l) /\ ring_ptr r' = ring_ptr r) r.
Proof.
  intros [T [Ht Hh Hl He]] Hlen. apply wp_bind, wp_get, wp_bind, wp_modify. rewrite Ht, Hh, u64_sub. unfold KRING_BUF_MAX in Hlen.
  assert (forall T' r', (l = [] \/ T' = T) -> tail r' = u64 T' -> head r' = u64 (T + Z.of_nat (length l) - 1) -> (l = [] -> T' = T - 1) ->
    ring_c r' = ring_c r -> ring_ready r' = ring_ready r -> unread r' (removelast l)) as Hgo.
  { intros T' r' Hcase E1 E2 E3 E4 E5. exists T'. split; [done | | rewrite length_removelast; lia |].
    - rewrite E2, length_removelast. f_equal. destruct l; [rewrite E3 by done; simpl; lia | destruct Hcase as [?| ->]; [done | simpl; lia]].
    - intros i c Hi%lookup_removelast _. rewrite E4, E5. destruct Hcase as [-> | ->]; [done |].
      apply (He i c Hi). unfold KRING_BUF_MAX. lia. }
  apply wp_when; intros E.
  - apply Z.eqb_eq, u64_eq in E; [| lia]. apply wp_modify. split; [| done]. rewrite u64_sub. assert (l = []) as -> by (destruct l; done).
    apply (Hgo (T - 1)); auto.
  - apply Z.eqb_neq in E. split; [| done]. rewrite u64_sub. apply (Hgo T); auto. intros ->. simpl in E. by rewrite Z.add_0_r in E.
Qed.

Lemma unread_set_ready r p l : unread r l -> unread (set_ready p 1 r) l.
Proof.
  intros [T [Ht Hh Hl He]]. exists T. split; [done | done | done |]. intros i c Hi Hr. destruct (He i c Hi Hr) as [E1 E2].
  split; [done |]. cbn. rewrite rd_insert. by case_decide.
Qed.

Lemma wp_press_backspace l1 l2 t s : typing l1 l2 s -> Z.of_nat (length l1) <= KRING_BUF_MAX -> Z.of_nat (length l2) <= KRING_BUF_MAX ->
  shows t (con_fb (k_con s)) ->
  wp (zoom l_console press_backspace) (fun _ s' => typing (removelast l1) (removelast l2) s' /\
    shows (emit 8 t) (con_fb (k_con s')) /\ backspace (k_con s') = 1 /\ k_sys s' = k_sys s /\ read_blocked_thread s' = read_blocked_thread s) s.
Proof.
  intros [H1 H2 [H3 H4] H5] Hl1 Hl2 Hsh. apply wp_zoom, wp_bind, wp_modify, wp_bind, wp_gets, wp_bind.
  cbn [write_ring set_backspace view l_console over l_con_cpu].
  rewrite (proj2 (truthy_true _) H4). cbn [negb]. apply wp_zoom, wp_modify, wp_bind, wp_zoom.
  cbn [view l_read_ring read_ring over l_write_ring].
  eapply wp_mono; [apply (wp_ring_back l1); done |]. intros [] r1 [Hr1 Hp1]. apply wp_bind, wp_zoom. cbn [view l_write_ring write_ring over l_read_ring].
  eapply wp_mono; [apply (wp_ring_back l2); [by apply unread_set_ready | done] |]. intros [] r2 [Hr2 Hp2]. apply wp_zoom. cbn [view l_fb con_fb over l_write_ring].
  eapply wp_mono; [by apply (wp_kputchar_direct 8 t)|]. intros [] f Hf. cbn. rewrite set_ms_cpu_id.
  cbn in Hp2. split; [split; cbn; rewrite ?Hp1, ?Hp2; done | done].
Qed.

(** ** A line *)

(** [Enter] adds the end of the line to both rings; a thread that waits for it
    becomes ready, at the end of the ring. *)
Lemma wp_press_enter l1 l2 s l d : typing l1 l2 s -> Z.of_nat (length l1) < 2 ^ 61 -> Z.of_nat (length l2) < 2 ^ 61 ->
  (read_blocked_thread s <> 0 -> sleeps (read_blocked_thread s) l d (ms_sched (k_sys s))) ->
  wp press_enter (fun _ s' => typing (l1 ++ [10]) (l2 ++ [10]) s' /\ read_blocked_thread s' = 0 /\
    ms_mutex (k_sys s') = ms_mutex (k_sys s) /\
    (read_blocked_thread s = 0 -> k_sys s' = k_sys s) /\
    (read_blocked_thread s <> 0 -> sched_inv (ms_sched (k_sys s')) (l ++ [read_blocked_thread s]) d /\
      state (thread_of (threads (ms_sched (k_sys s'))) (read_blocked_thread s)) = READY /\
      current_thread (ms_sched (k_sys s')) = current_thread (ms_sched (k_sys s)))) s.
Proof.
  intros Hty H1 H2 Hrd. unfold press_enter. set (t := read_blocked_thread s) in *.
  apply wp_bind, (wp_ring_text [10] 0 l1 l2); [done | done | lia | lia |]. intros s1 Hr1 Ht1. cbn [truthy negb Z.eqb] in Ht1.
  apply wp_bind, (wp_ring_text [10] 1 (l1 ++ [10]) l2); [done | done | rewrite length_app; simpl; lia | lia |]. intros s2 Hr2 Ht2. cbn [truthy negb Z.eqb] in Ht2.
  pose proof (rings_only_trans _ _ _ Hr1 Hr2) as (c & -> & _). apply wp_bind, wp_gets. cbn [read_blocked_thread]. fold t.
  apply wp_when; intros E; [apply truthy_true in E | apply truthy_false in E; by split_and!].
  destruct (Hrd E) as [_ [Hl Ht0] _ _]. set (s0 := ms_sched (k_sys s)) in *.
  apply wp_bind, wp_zoom, wp_zoom. cbn [view l_k_sys l_sched k_sys ms_sched]. fold s0.
  apply wp_upd_thread; [done |]. apply wp_bind, wp_zoom, wp_zoom. cbn [view over l_k_sys l_sched k_sys ms_sched set_k_sys set_ms_sched].
  apply (wp_wake t l d); [by apply Hrd |]. intros s3 Hs3. apply wp_modify. cbn. split; [by destruct Ht2 |]. split; [done |]. split; [done |]. split; [done |].
  intros _. destruct Hs3 as [Hw1 Hw2 Hw3 _ _ _]. split; [exact Hw1 |]. split; [exact Hw2 | exact Hw3].
Qed.

(** The keys of a line, one after the other. *)
Fixpoint presses (codes : list Z) : M keyboard unit :=
  match codes with [] => mret tt | c :: codes' => keyboard_handler c;; presses codes' end.
Definition line_text (s : keyboard) (codes : list Z) : list Z := mjoin (key_text s <$> codes).

Lemma key_text_only s s' code : rings_only s s' -> key_text s' code = key_text s code.
Proof. by intros (c & -> & _). Qed.

Lemma key_text_length s code : plain code -> Z.of_nat (length (key_text s code)) <= 16.
Proof. intros [Hc _]. unfold key_text. repeat case_match; apply tables_keys; auto. Qed.

Lemma wp_presses codes : forall l1 l2 s, Forall plain codes -> ext s = 0 -> typing l1 l2 s ->
  Z.of_nat (length l1 + 16 * length codes) < 2 ^ 61 -> Z.of_nat (length l2 + 16 * length codes) < 2 ^ 61 ->
  wp (presses codes) (fun _ s' => rings_only s s' /\ typing (l1 ++ line_text s codes) (l2 ++ line_text s codes) s') s.
Proof.
  induction codes as [|c codes IH]; intros l1 l2 s Hp He Hty H1 H2.
  - apply wp_ret. unfold line_text. cbn. rewrite !app_nil_r. split; [apply rings_only_refl | done].
  - apply Forall_cons in Hp as [Hc Hp]. simpl length in *. apply wp_bind, (wp_press_plain c l1 l2); [done | done | lia | lia |].
    assert (set_ext 0 s = s) as -> by (destruct s; cbn in He; by rewrite He). intros s1 Hr1 Ht1.
    pose proof (key_text_length s c Hc) as Hlen.
    eapply wp_mono; [apply (IH (l1 ++ key_text s c) (l2 ++ key_text s c)); try done; [| rewrite length_app; lia | rewrite length_app; lia] |].
    { by destruct Hr1 as (c' & -> & _). }
    intros [] s2 [Hr2 Ht2]. split; [by apply (rings_only_trans s s1) |].
    assert (line_text s1 codes = line_text s codes) as E by (unfold line_text; f_equal; apply list_fmap_ext; intros; by apply key_text_only).
    change (line_text s (c :: codes)) with (key_text s c ++ line_text s codes). by rewrite !app_assoc, <- E.
Qed.

(** No text of a plain key holds a newline. *)
Lemma plain_no_newline s code : plain code -> 10 ∉ key_text s code.
Proof.
  intros [Hc Hn]. assert (forall t, t = lowercase \/ t = uppercase \/ t = extended -> 10 ∉ nth (Z.to_nat code) t []) as H.
  { intros t Ht Hin. assert (forallb (fun k => bool_decide (k = 28%nat) || bool_decide (10 ∉ nth k t [])) (seq 0 128) = true) as Hall
      by by destruct Ht as [-> |[-> | ->]].
    rewrite forallb_forall in Hall. specialize (Hall (Z.to_nat code)). rewrite orb_true_iff, !bool_decide_eq_true in Hall.
    destruct Hall as [E|?]; [apply in_seq; lia | | done]. apply Hn. rewrite !elem_of_cons. lia. }
  unfold key_text. repeat case_match; apply H; auto.
Qed.

Lemma line_app n l r : 10 ∉ l -> (length l < n)%nat -> line n (l ++ 10 :: r) = l ++ [10].
Proof.
  revert n. induction l as [|c l IH]; intros n Hl Hn; destruct n as [|n]; try (simpl in Hn; lia); cbn [line app]; [done |].
  apply not_elem_of_cons in Hl as [Hc Hl]. rewrite (proj2 (Z.eqb_neq c 10)) by done. f_equal. apply IH; [done | simpl in Hn; lia].
Qed.

(** * Properties *)

(** A key with a text appends it to both rings, as the shift keys and the prefix
    of extended keys say, and only that; the prefix is used up. *)
Theorem keyboard_press code l1 l2 s : plain code -> typing l1 l2 s ->
  Z.of_nat (length l1) < 2 ^ 61 -> Z.of_nat (length l2) < 2 ^ 61 ->
  wp (keyboard_handler code) (fun _ s' => rings_only (set_ext 0 s) s' /\ typing (l1 ++ key_text s code) (l2 ++ key_text s code) s') s.
Proof. intros. by apply (wp_press_plain code l1 l2). Qed.

(** Backspace takes the last character back from each ring, if there is one, and
    sends the backspace to the screen. *)
Theorem keyboard_backspace l1 l2 t s : typing l1 l2 s -> Z.of_nat (length l1) <= KRING_BUF_MAX -> Z.of_nat (length l2) <= KRING_BUF_MAX ->
  shows t (con_fb (k_con s)) ->
  wp (keyboard_handler 14) (fun _ s' => typing (removelast l1) (removelast l2) s' /\ shows (emit 8 t) (con_fb (k_con s')) /\
    k_sys s' = k_sys s) s.
Proof.
  intros Hty H1 H2 Hsh. eapply wp_mono; [by apply (wp_press_backspace l1 l2 t)|]. by intros [] s' (? & ? & _ & ? & _).
Qed.

(** C30: a line typed at the keyboard is what the reader gets: the thread that waits
    for it becomes ready when [Enter] is pressed, and reading then returns the
    text of the keys and the newline, and leaves nothing. *)
Theorem keyboard_line codes s l d n : Forall plain codes -> ext s = 0 -> typing [] [] s ->
  sleeps (read_blocked_thread s) l d (ms_sched (k_sys s)) ->
  Z.of_nat (length (line_text s codes)) < KRING_BUF_MAX -> Z.of_nat (length codes) < 2 ^ 32 -> (length (line_text s codes) < n)%nat ->
  wp (presses codes;; keyboard_handler 28;; zoom l_console (kring_flush_to_rbuf n)) (fun x s' =>
    x = line_text s codes ++ [10] /\ unread (read_ring (k_con s')) [] /\
    sched_inv (ms_sched (k_sys s')) (l ++ [read_blocked_thread s]) d /\
    state (thread_of (threads (ms_sched (k_sys s'))) (read_blocked_thread s)) = READY) s.
Proof.
  intros Hp He Hty Hrd Hlen Hc Hn. apply wp_bind.
  eapply wp_mono; [apply (wp_presses codes [] []); try done; simpl; lia |]. intros [] s1 [Hr1 Ht1].
  pose proof Hr1 as (c & Es1 & _). unfold KRING_BUF_MAX in Hlen. apply wp_bind. change (keyboard_handler 28) with press_enter.
  eapply wp_mono; [apply (wp_press_enter _ _ s1 l d Ht1); [simpl; lia | simpl; lia | by rewrite Es1] |].
  intros [] s2 ([Hu _ [Hp1 _] _] & _ & _ & _ & Hwake). replace (read_blocked_thread s1) with (read_blocked_thread s) in Hwake by by rewrite Es1.
  destruct (Hwake (proj2 (sl_live _ _ _ _ Hrd))) as (Hinv & Hst & _).
  assert (10 ∉ line_text s codes) as Hnl.
  { unfold line_text. intros (k & Hk & Hin)%list_elem_of_join. apply list_elem_of_fmap in Hin as (code & -> & Hin).
    rewrite Forall_forall in Hp. by apply (plain_no_newline s code (Hp _ Hin)). }
  apply wp_zoom, wp_zoom. destruct Hu as [T Hu]. cbn [view l_console l_read_ring read_ring over l_con_cpu].
  eapply wp_mono; [apply (wp_kring_read_loop n T _ _ Hu); [rewrite length_app; simpl; unfold KRING_BUF_MAX; lia | right; apply elem_of_app; right; by left] |].
  assert (set_s_cpu (s_cpu (ms_sched (k_sys s2))) (ms_sched (k_sys s2)) = ms_sched (k_sys s2)) as Ecpu by by destruct (ms_sched (k_sys s2)).
  intros x r (-> & _ & T' & HT'). cbn in HT' |- *. rewrite line_app in * by done. rewrite drop_ge in HT' by lia.
  rewrite Ecpu. split_and!; [done | by exists T' | done | done].
Qed.

(** * Witnesses *)

Definition keyboard0 : keyboard := Keyboard console0 one_waits 0 0 0 1.

Lemma keyboard0_typing : typing [] [] keyboard0.
Proof. by split; [apply ring0_unread.. | |]. Qed.

Lemma waits_sleeps s l d t q : refines s l d (AMutex true (t :: q)) -> sleeps t l d (ms_sched s).
Proof.
  intros [Hs _ _ _ Hw]. simpl in Hw. destruct (waits_pop _ _ _ _ _ _ _ Hw) as (_ & Ht0 & Htl & Htn & Htd & _ & _).
  split; [done | done | done |]. apply (wt_proc _ _ _ _ _ _ Hw). by left.
Qed.

Lemma keyboard0_sleeps : sleeps 1 [2; 3] [] (ms_sched (k_sys keyboard0)).
Proof.
  unfold keyboard0, one_waits. cbn [k_sys].
  destruct (wp_ok _ _ _ (wp_mutex_lock_taken 0 0x111 held_mutex [] 1 [2; 3] 2 [] [] held_mutex_refines eq_refl eq_refl)) as (r & s1 & E & _ & Hrf & _).
  rewrite E. by apply (waits_sleeps s1 [2; 3] [] 1 []).
Qed.

Lemma plain_codes : Forall plain [35; 23].
Proof. repeat apply Forall_cons_2; try apply Forall_nil_2; (split; [lia | by apply (bool_decide_unpack _)]). Qed.

(** [h], then [i] and [Enter]. *)
Lemma keyboard_press_witness :
  wp (keyboard_handler 35) (fun _ s' => typing [104] [104] s') keyboard0.
Proof.
  eapply wp_mono; [apply (keyboard_press 35 [] [] keyboard0); [by apply (Forall_inv plain_codes) | apply keyboard0_typing | done | done] |].
  by intros [] s' [_ ?].
Defined.

Lemma keyboard_backspace_witness :
  wp (keyboard_handler 14) (fun _ s' => typing [] [] s' /\ shows term0 (con_fb (k_con s'))) keyboard0.
Proof.
  eapply wp_mono; [apply (keyboard_backspace [] [] term0 keyboard0); [apply keyboard0_typing | done | done | apply fb0_shows] |].
  by intros [] s' (? & ? & _).
Defined.

Lemma keyboard_line_witness :
  wp (presses [35; 23];; keyboard_handler 28;; zoom l_console (kring_flush_to_rbuf 100)) (fun x _ => x = [104; 105; 10]) keyboard0.
Proof.
  eapply wp_mono; [apply (keyboard_line [35; 23] keyboard0 [2; 3] [] 100);
    [apply plain_codes | done | apply keyboard0_typing | apply keyboard0_sleeps | by vm_compute | done | by apply Nat.ltb_lt] |].
  by intros x s' (-> & _).
Defined.
