(* ===== verification/FsSim.v ===== *)
(** An implementation of the services the file system uses: free lists of pages
    and of objects, and a disk with one bad sector. The theorems on the file
    system hold of it in particular. *)
From S2P Require Import Prelude Interfaces.

Record fs_sim : Type := FsSim { free_pages : list Z; free_objs : list Z; disk : Z -> Z; bad : Z }.

Definition page_valid (p : Z) : Prop := 0 < p < 2 ^ 46 /\ p mod PAGE_SIZE_4KB = 0.
Definition obj_valid (a : Z) : Prop := DIRECT_OFFSET + 2 ^ 46 <= a < 2 ^ 64.

(** Where the objects are. *)
Definition sim_heap : Z := 0xFFFFE00000000000.

(** The [i]-th byte from a sector on. *)
Definition sector_byte (d : Z -> Z) (k i : Z) : Z := d (k * 512 + i).

#[export] Instance sim_services : FsServices fs_sim := {
  fs_alloc_page s :=
    match free_pages s with
    | [] => Ok (0, s)
    | p :: l => Ok (p, FsSim l (free_objs s) (disk s) (bad s))
    end;
  fs_alloc_pages n s := Ok (0, s);
  fs_free_page p s := Ok (tt, FsSim (p :: free_pages s) (free_objs s) (disk s) (bad s));
  fs_kmalloc n s :=
    match free_objs s with
    | [] => Ok (0, s)
    | a :: l => Ok (a, FsSim (free_pages s) l (disk s) (bad s))
    end;
  fs_kfree a s := Ok (tt, FsSim (free_pages s) (a :: free_objs s) (disk s) (bad s));
  fs_read k c s := Ok (0, sector_byte (disk s) k, s);
  fs_write k f s :=
    if k =? bad s then Ok (1, s)
    else Ok (0, FsSim (free_pages s) (free_objs s) (fun x => if decide (k * 512 <= x < k * 512 + PAGE_SIZE_4KB) then f (x - k * 512) else disk s x) (bad s));
}.

Record sim_ok (b : nat * nat) (s : fs_sim) : Prop := {
  so_pages : (b.1 <= length (free_pages s))%nat /\ NoDup (free_pages s) /\ Forall page_valid (free_pages s);
  so_objs : (b.2 <= length (free_objs s))%nat /\ NoDup (free_objs s) /\ Forall obj_valid (free_objs s);
}.

(** Taking an element from a free list, and putting one back. *)
Lemma used_take (P : Z -> Prop) x l q : P x -> x ∉ l -> (P q /\ (q ∉ l)) <-> q = x \/ (P q /\ (q ∉ x :: l)).
Proof.
  intros Hx Hl. rewrite not_elem_of_cons. destruct (decide (q = x)) as [->|Hne]; [tauto |]. split; [intros [? ?]; by right | intros [?|(? & ? & ?)]; [done | by split]].
Qed.
Lemma used_put (P : Z -> Prop) x l q : (P q /\ (q ∉ x :: l)) <-> q <> x /\ P q /\ (q ∉ l).
Proof. rewrite not_elem_of_cons. tauto. Qed.

#[export] Program Instance sim_laws : FsServicesLaws fs_sim := {
  fs_ok := sim_ok;
  fs_page s p := page_valid p /\ (p ∉ free_pages s);
  fs_obj s a := obj_valid a /\ (a ∉ free_objs s);
  fs_block s := sector_byte (disk s);
}.
Next Obligation.
  intros n h [[|p l] fo d b] [(Hl & Hnd & Hv) (Hlo & ? & ?)]; simpl in *; [lia |]. apply NoDup_cons in Hnd as [Hp Hnd]. apply Forall_cons in Hv as [Hvp Hv].
  destruct Hvp as [Hr Hal]. unfold wp. simpl. split; [split; split_and!; simpl; done || lia |].
  split; [lia |]. split; [done |]. split; [done |]. split; [set_solver |]. split; [| done].
  intros q. by apply used_take.
Qed.
Next Obligation.
  intros n h p [fp fo d b] [(Hl & Hnd & Hv) (Hlo & ? & ?)] [Hvp Hp]; simpl in *. unfold wp. simpl.
  split; [split; split_and!; simpl; try done; [lia | by constructor | by constructor] |]. split; [intros q; apply used_put | done].
Qed.
Next Obligation.
  intros n h z [fp [|a l] d b] [(Hl & ? & ?) (Hlo & Hnd & Hv)]; simpl in *; [lia |]. apply NoDup_cons in Hnd as [Hp Hnd]. apply Forall_cons in Hv as [Hvp Hv].
  unfold wp. simpl. split; [split; split_and!; simpl; done || lia |].
  split; [done |]. split; [set_solver |]. split; [| done]. intros q. by apply used_take.
Qed.
Next Obligation.
  intros n h a [fp fo d b] [(Hl & ? & ?) (Hlo & Hnd & Hv)] [Hvp Hp]; simpl in *. unfold wp. simpl.
  split; [split; split_and!; simpl; try done; [lia | by constructor | by constructor] |]. split; [intros q; apply used_put | done].
Qed.
Next Obligation.
  intros n k c [fp fo d b] Hok. unfold wp. simpl. split; [done |]. split; [| done]. intros _ i Hi. unfold sector_byte, PAGE_SIZE_4KB in *. f_equal. dlia.
Qed.
Next Obligation.
  intros n k f [fp fo d b] Hok. unfold wp. simpl. destruct (k =? b); [by split |]. split; [by destruct Hok; split |]. split; [| done].
  intros _ j i Hjk Hi. unfold sector_byte. simpl. unfold PAGE_SIZE_4KB in *. repeat case_decide; try done; try (f_equal; lia); exfalso; clear - H Hjk Hi H0; dlia.
Qed.
