(* ===== verification/PageCache.v ===== *)
(** The page cache ([mm/page_cache.c]): a list of the pages of files that are in
    memory, by inode and index in the file. *)
From S2P Require Import Prelude Interfaces FsSim.

(** * State *)

Definition DIRTY_FLAG : Z := Z.shiftl 1 0.
Definition WRITEBACK_FLAG : Z := Z.shiftl 1 1.

(** [page_cache_t]; pointers to entries are addresses. *)
Record page_cache : Type := PageCache { id : Z; indx : Z; addr : Z; pc_flags : Z; pc_next : Z }.

Definition set_pc_flags (x : Z) (c : page_cache) : page_cache := PageCache (id c) (indx c) (addr c) x (pc_next c).
Definition set_pc_next (x : Z) (c : page_cache) : page_cache := PageCache (id c) (indx c) (addr c) (pc_flags c) x.

(** The services, the entries that are allocated, and [cache_list]. *)
Record pcache (St : Type) : Type := PCache { pc_env : St; entries : gmap Z page_cache; cache_list : Z }.
Arguments PCache {St} pc_env entries cache_list.
Arguments pc_env {St} _.
Arguments entries {St} _.
Arguments cache_list {St} _.

(** * Operations *)

Section operations.
Context {St : Type} `{FsServices St}.
Implicit Types s : pcache St.

Definition set_pc_env (x : St) s : pcache St := PCache x (entries s) (cache_list s).
Definition set_entries (x : gmap Z page_cache) s : pcache St := PCache (pc_env s) x (cache_list s).
Definition set_cache_list (x : Z) s : pcache St := PCache (pc_env s) (entries s) x.
Definition l_pc_env : lens (pcache St) St := Lens pc_env set_pc_env.

Definition get_entry (p : Z) : M (pcache St) page_cache :=
  m ← gets entries;
  match m !! p with Some c => mret c | None => fail Fault end.
Definition upd_entry (p : Z) (f : page_cache -> page_cache) : M (pcache St) unit :=
  c ← get_entry p; modify (fun s => set_entries (<[p := f c]> (entries s)) s).

(** A store through the null pointer faults. *)
Definition add_page_to_cache (i x a flags : Z) : M (pcache St) unit :=
  cp ← zoom l_pc_env (fs_kmalloc 40);
  if negb (truthy cp) then fail Fault
  else
    l ← gets cache_list;
    modify (fun s => set_entries (<[cp := PageCache i x a flags l]> (entries s)) s);;
    modify (set_cache_list cp).

(** The loop of [remove_page_from_cache] from [cur] on. *)
Fixpoint remove_page_loop (fuel : nat) (i x prev cur : Z) : M (pcache St) unit :=
  if negb (truthy cur) then mret tt
  else
    match fuel with
    | O => fail Hang
    | S fuel' =>
        c ← get_entry cur;
        if (id c =? i) && (indx c =? x) then
          (when (truthy prev) (upd_entry prev (set_pc_next cur)));;
          l ← gets cache_list;
          (when (cur =? l) (modify (set_cache_list (pc_next c))));;
          zoom l_pc_env (fs_free_page (addr c));;
          zoom l_pc_env (fs_kfree cur);;
          modify (fun s => set_entries (delete cur (entries s)) s)
        else remove_page_loop fuel' i x cur (pc_next c)
    end.
Definition remove_page_from_cache (fuel : nat) (i x : Z) : M (pcache St) unit :=
  l ← gets cache_list; remove_page_loop fuel i x 0 l.

(** 0 when the page is not in the cache. *)
Fixpoint get_page_loop (fuel : nat) (i x cur : Z) : M (pcache St) Z :=
  if negb (truthy cur) then mret 0
  else
    match fuel with
    | O => fail Hang
    | S fuel' =>
        c ← get_entry cur;
        if (id c =? i) && (indx c =? x) then mret cur else get_page_loop fuel' i x (pc_next c)
    end.
Definition get_page_cache (fuel : nat) (i x : Z) : M (pcache St) Z :=
  l ← gets cache_list; get_page_loop fuel i x l.

End operations.

(** * Specification *)

(** The entries [l] are those of the list from [h], in order; all are allocated. *)
Fixpoint chain (m : gmap Z page_cache) (h : Z) (l : list Z) : Prop :=
  match l with
  | [] => h = 0
  | p :: l' => h = p /\ p <> 0 /\ exists c, m !! p = Some c /\ chain m (pc_next c) l'
  end.

(** The first entry of a page. *)
Definition is_page (m : gmap Z page_cache) (i x p : Z) : Prop := exists c, m !! p = Some c /\ id c = i /\ indx c = x.
#[global] Instance is_page_dec m i x p : Decision (is_page m i x p).
Proof.
  destruct (m !! p) as [c|] eqn:E; [| right; intros (c & ? & _); congruence].
  destruct (decide (id c = i /\ indx c = x)) as [?|Hne]; [left; by exists c | right; intros (c' & ? & ?)].
  simplify_eq. by apply Hne.
Defined.
Fixpoint lookup_page (m : gmap Z page_cache) (i x : Z) (l : list Z) : Z :=
  match l with [] => 0 | p :: l' => if decide (is_page m i x p) then p else lookup_page m i x l' end.

Section specification.
Context {St : Type} `{FsServicesLaws St}.

(** The list is a chain without repetition of live objects, whose pages are in
    use and used once. *)
Record cache_inv (n : nat * nat) (l : list Z) (s : pcache St) : Prop := {
  ci_ok : fs_ok n (pc_env s);
  ci_chain : chain (entries s) (cache_list s) l;
  ci_nodup : NoDup l;
  ci_entry p c : entries s !! p = Some c -> p ∈ l /\ fs_obj (pc_env s) p /\ fs_page (pc_env s) (addr c);
  ci_addr p q c c' : entries s !! p = Some c -> entries s !! q = Some c' -> addr c = addr c' -> p = q;
}.
End specification.

(** * Lemmas *)

Section lemmas.
Context {St : Type} `{FsServices St}.
Implicit Types s : pcache St.

Lemma wp_get_cached p c (Q : page_cache -> pcache St -> Prop) s : entries s !! p = Some c -> Q c s -> wp (get_entry p) Q s.
Proof. intros Hp HQ. apply wp_bind, wp_gets. rewrite Hp. by apply wp_ret. Qed.

Lemma wp_upd_entry p f c (Q : unit -> pcache St -> Prop) s : entries s !! p = Some c ->
  Q tt (set_entries (<[p := f c]> (entries s)) s) -> wp (upd_entry p f) Q s.
Proof. intros Hp HQ. apply wp_bind, (wp_get_cached _ c); [done |]. by apply wp_modify. Qed.

Lemma chain_ext m m' h l : chain m h l -> (forall p, p ∈ l -> pc_next <$> m' !! p = pc_next <$> m !! p) -> chain m' h l.
Proof.
  revert h. induction l as [|p l IH]; intros h; [done |]. intros (-> & Hp & c & Hc & Hch) Hm. split; [done |]. split; [done |].
  pose proof (Hm p ltac:(by left)) as E. rewrite Hc in E. simpl in E. apply fmap_Some in E as (c' & Hc' & E).
  exists c'. split; [done |]. rewrite <- E. apply IH; [done |]. intros q Hq. apply Hm. by right.
Qed.

Lemma chain_lookup m h l p : chain m h l -> p ∈ l -> is_Some (m !! p) /\ p <> 0.
Proof.
  revert h. induction l as [|q l IH]; intros h; [by intros _ ?%elem_of_nil |].
  intros (-> & Hq & c & Hc & Hch) [->|Hp]%elem_of_cons; [split; [by eexists | done] | by apply (IH _ Hch)].
Qed.

Lemma lookup_page_in m i x l : lookup_page m i x l = 0 \/ (lookup_page m i x l ∈ l /\ is_page m i x (lookup_page m i x l)).
Proof.
  induction l as [|p l IH]; [by left |]. simpl. case_decide; [right; split; [by left | done] |].
  destruct IH as [?|[? ?]]; [by left | right; split; [by right | done]].
Qed.

Lemma lookup_page_none m i x l : (forall p, p ∈ l -> p <> 0) -> lookup_page m i x l = 0 -> forall p, p ∈ l -> ~ is_page m i x p.
Proof.
  intros H0. induction l as [|q l IH]; [by intros _ p ?%elem_of_nil |]. simpl. case_decide as Hq.
  - intros E. exfalso. by apply (H0 q); [left |].
  - intros E p [->|Hp]%elem_of_cons; [done |]. apply IH; [| done | done]. intros r Hr. apply H0. by right.
Qed.

Lemma wp_get_page_loop i x l : forall fuel h s, chain (entries s) h l -> (length l < fuel)%nat ->
  wp (get_page_loop fuel i x h) (fun r s' => r = lookup_page (entries s) i x l /\ s' = s) s.
Proof.
  induction l as [|p l IH]; intros fuel h s Hc Hf; (destruct fuel as [|fuel]; [simpl in Hf; lia |]); cbn [get_page_loop lookup_page].
  - rewrite Hc. by apply wp_ret.
  - destruct Hc as (-> & Hp & c & Hc & Hch). rewrite (proj2 (truthy_true p) Hp). cbn [negb].
    apply wp_bind, (wp_get_cached _ c); [done |]. destruct ((id c =? i) && (indx c =? x)) eqn:E.
    + apply andb_true_iff in E as [E1%Z.eqb_eq E2%Z.eqb_eq]. apply wp_ret. split; [| done]. rewrite decide_True; [done |]. by exists c.
    + rewrite decide_False; [apply IH; [done | simpl in Hf; lia] |]. intros (c' & ? & ? & ?). simplify_eq.
      by rewrite !Z.eqb_refl in E.
Qed.

Lemma wp_get_page_cache i x l fuel s : chain (entries s) (cache_list s) l -> (length l < fuel)%nat ->
  wp (get_page_cache fuel i x) (fun r s' => r = lookup_page (entries s) i x l /\ s' = s) s.
Proof. intros Hc Hf. apply wp_bind, wp_gets. by apply wp_get_page_loop. Qed.
End lemmas.

Section add_remove.
Context {St : Type} `{HL : FsServicesLaws St}.
Implicit Types s : pcache St.

(** A new page, in use and not cached yet, becomes the first of the list. *)
Lemma wp_add_page n h l i x a flags s : cache_inv (n, S h) l s -> fs_page (pc_env s) a -> (forall p c, entries s !! p = Some c -> addr c <> a) ->
  wp (add_page_to_cache i x a flags) (fun _ s' => exists p, (p ∉ l) /\ cache_inv (n, h) (p :: l) s' /\
    entries s' = <[p := PageCache i x a flags (cache_list s)]> (entries s) /\ fs_block (pc_env s') = fs_block (pc_env s) /\
    (forall q, fs_page (pc_env s') q <-> fs_page (pc_env s) q)) s.
Proof.
  intros [Hok Hc Hnd He Ha] Hpg Hnew. apply wp_bind, wp_zoom. eapply wp_mono; [by apply (wp_fs_kmalloc n h)|].
  intros p e (Hok' & Hp & Hfresh & Hobj & Hpage & Hblk). rewrite (proj2 (truthy_true p)) by (unfold DIRECT_OFFSET in *; lia). cbn [negb].
  apply wp_bind, wp_gets, wp_bind, wp_modify, wp_modify. cbn.
  assert (entries s !! p = None) as Hnone.
  { destruct (entries s !! p) as [c|] eqn:E; [| done]. by destruct (He p c E) as (_ & ? & _). }
  assert (p ∉ l) as Hpl. { intros Hin. destruct (chain_lookup _ _ _ _ Hc Hin) as [[c E] _]. congruence. }
  exists p. split; [done |]. split; [| by split_and!]. split; cbn.
  - done.
  - split; [done |]. split; [unfold DIRECT_OFFSET in *; lia |]. eexists. split; [apply lookup_insert_eq |]. cbn. apply (chain_ext (entries s)); [done |].
    intros q Hq. by rewrite lookup_insert_ne by (by intros ->).
  - by constructor.
  - intros q c [[<- <-]|[Hne Hq]]%lookup_insert_Some; [cbn; split_and!; [by left | apply Hobj; by left | by apply Hpage] |].
    destruct (He q c Hq) as (? & ? & ?). split_and!; [by right | apply Hobj; by right | by apply Hpage].
  - intros q r c c' [[<- <-]|[Hne Hq]]%lookup_insert_Some [[<- <-]|[Hne' Hr]]%lookup_insert_Some; cbn; intros E; [done | | | by apply (Ha _ _ c c')].
    + by destruct (Hnew r c' Hr).
    + by destruct (Hnew q c Hq).
Qed.

(** The first page of the list is removed as it should. *)
Lemma wp_remove_head n h l p c fuel s : cache_inv (n, h) (p :: l) s -> entries s !! p = Some c ->
  wp (remove_page_from_cache (S fuel) (id c) (indx c)) (fun _ s' => cache_inv (S n, S h) l s' /\ entries s' = delete p (entries s) /\
    ~ fs_page (pc_env s') (addr c) /\ ~ fs_obj (pc_env s') p) s.
Proof.
  intros [Hok Hc Hnd He Ha] Hp. destruct Hc as (Hh & Hp0 & c' & Hc' & Hch). assert (c' = c) as -> by congruence. apply NoDup_cons in Hnd as [Hpl Hnd].
  apply wp_bind, wp_gets. cbn [remove_page_loop]. rewrite Hh, (proj2 (truthy_true p) Hp0). cbn [negb].
  apply wp_bind, (wp_get_cached _ c); [done |]. rewrite !Z.eqb_refl. cbn [andb truthy Z.eqb negb when].
  apply wp_bind, wp_ret, wp_bind, wp_gets, wp_bind. rewrite Hh, Z.eqb_refl. apply wp_modify.
  destruct (He p c Hp) as (_ & Hobj & Hpg). apply wp_bind, wp_zoom. eapply wp_mono; [by apply (wp_fs_free_page n h)|].
  intros [] e (Hok1 & Hpg1 & Hobj1 & _). apply wp_bind, wp_zoom. eapply wp_mono; [apply (wp_fs_kfree (S n) h); [done | by apply Hobj1] |].
  intros [] e' (Hok2 & Hobj2 & Hpg2 & _). apply wp_modify. cbn. split; [split; cbn | split_and!].
  - done.
  - apply (chain_ext (entries s)); [done |]. intros q Hq. by rewrite lookup_delete_ne by (by intros ->).
  - done.
  - intros q c' [Hne Hq]%lookup_delete_Some. destruct (He q c' Hq) as ([->|Hin]%elem_of_cons & Ho & Hg); [done |].
    split_and!; [done | apply Hobj2; split; [done | by apply Hobj1] | apply Hpg2, Hpg1; split; [| done]].
    intros E. by apply Hne, (Ha _ _ c c').
  - intros q r c1 c2 [_ Hq]%lookup_delete_Some [_ Hr]%lookup_delete_Some. by apply (Ha _ _ c1 c2).
  - done.
  - rewrite Hpg2, Hpg1. tauto.
  - rewrite Hobj2. tauto.
Qed.

(** A page that is not the first of the list stays linked after its removal,
    as an entry that no longer exists: a search that goes past it faults. *)
Lemma wp_remove_later n h l p q cp cq i x f1 f2 s : cache_inv (n, h) (p :: q :: l) s -> entries s !! p = Some cp -> entries s !! q = Some cq ->
  ~ (id cp = id cq /\ indx cp = indx cq) -> ~ (id cp = i /\ indx cp = x) ->
  wp (remove_page_from_cache (S (S f1)) (id cq) (indx cq)) (fun _ s' => get_page_cache (S (S f2)) i x s' = Err Fault) s.
Proof.
  intros [Hok Hc Hnd He Ha] Hp Hq Hpq Hpx. destruct Hc as (Hh & Hp0 & c1 & Hc1 & Hq1 & Hq0 & _). assert (c1 = cp) as -> by congruence.
  apply NoDup_cons in Hnd as [Hpl _]. assert (p <> q) as Hne by (intros ->; apply Hpl; by left).
  assert (forall a b c d : Z, ~ (a = b /\ c = d) -> (a =? b) && (c =? d) = false) as Hb.
  { intros a b c d Hn. apply andb_false_iff. rewrite !Z.eqb_neq. destruct (decide (a = b)); [right; tauto | by left]. }
  apply wp_bind, wp_gets. cbn [remove_page_loop]. rewrite Hh, (proj2 (truthy_true p) Hp0). cbn [negb].
  apply wp_bind, (wp_get_cached _ cp); [done |]. rewrite Hb by done. rewrite Hq1, (proj2 (truthy_true q) Hq0). cbn [negb].
  apply wp_bind, (wp_get_cached _ cq); [done |]. rewrite !Z.eqb_refl. cbn [andb].
  cbn [when]. apply wp_bind, (wp_upd_entry _ _ cp); [done |].
  apply wp_bind, wp_gets, wp_bind. cbn [cache_list set_entries]. rewrite Hh, (proj2 (Z.eqb_neq q p)) by congruence. apply wp_ret.
  destruct (He q cq Hq) as (_ & Hobj & Hpg). apply wp_bind, wp_zoom. eapply wp_mono; [by apply (wp_fs_free_page n h)|].
  intros [] e (Hok1 & _ & Hobj1 & _). apply wp_bind, wp_zoom. eapply wp_mono; [apply (wp_fs_kfree (S n) h); [done | by apply Hobj1] |].
  intros [] e' _. apply wp_modify. unfold get_page_cache. cbn [get_page_loop]. unfold get_entry, gets, mbind, M_bind. cbn.
  rewrite Hh, (proj2 (truthy_true p) Hp0). cbn. rewrite lookup_delete_ne, lookup_insert_eq by done. cbn. unfold mret, M_ret.
  rewrite Hb by done. rewrite (proj2 (truthy_true q) Hq0). cbn. by rewrite lookup_delete_eq.
Qed.
End add_remove.

(** * Theorems *)

(** A page that is added is found, with its frame, and can be removed; then
    the list is the one before. *)
Theorem page_cache_roundtrip {St : Type} `{HL : FsServicesLaws St} n h l i x a flags fuel (s : pcache St) : cache_inv (n, S h) l s ->
  fs_page (pc_env s) a -> (forall p c, entries s !! p = Some c -> addr c <> a) -> (length l < fuel)%nat ->
  wp (add_page_to_cache i x a flags;; p ← get_page_cache (S fuel) i x; c ← get_entry p; remove_page_from_cache (S fuel) i x;; mret c)
    (fun c s' => addr c = a /\ pc_flags c = flags /\ cache_inv (S n, S h) l s' /\ entries s' = entries s) s.
Proof.
  intros Hinv Hpg Hnew Hf. apply wp_bind. eapply wp_mono; [by apply (wp_add_page n h l)|]. intros [] s1 (p & Hp & Hinv1 & He & _).
  set (c := PageCache i x a flags (cache_list s)) in *. assert (entries s1 !! p = Some c) as Hc by (rewrite He; apply lookup_insert_eq).
  apply wp_bind. eapply wp_mono; [apply (wp_get_page_cache i x (p :: l)); [apply Hinv1 | simpl; lia] |]. intros q s1' [-> ->].
  cbn [lookup_page]. rewrite decide_True by by exists c. apply wp_bind, (wp_get_cached _ c); [done |].
  apply wp_bind. eapply wp_mono; [by apply (wp_remove_head n h l p c fuel)|]. intros [] s2 (Hinv2 & He2 & _). apply wp_ret.
  split_and!; [done | done | done |]. rewrite He2, He. apply delete_insert_id.
  destruct (entries s !! p) as [d|] eqn:E; [| done]. by destruct (ci_entry _ _ _ Hinv p d E).
Qed.

(** Removing the second page of the list leaves its entry linked though it is
    freed: a later search for any page that is not the first follows the stale
    pointer. In the model, where a freed entry is no longer there, it faults. *)
Theorem remove_page_dangles {St : Type} `{HL : FsServicesLaws St} n h l p q cp cq i x f1 f2 (s : pcache St) : cache_inv (n, h) (p :: q :: l) s ->
  entries s !! p = Some cp -> entries s !! q = Some cq -> ~ (id cp = id cq /\ indx cp = indx cq) -> ~ (id cp = i /\ indx cp = x) ->
  wp (remove_page_from_cache (S (S f1)) (id cq) (indx cq)) (fun _ s' => get_page_cache (S (S f2)) i x s' = Err Fault) s.
Proof. apply wp_remove_later. Qed.

(** * Witnesses *)

Definition sim_env : fs_sim := FsSim [0x100000; 0x101000] [sim_heap; sim_heap + 64] (fun _ => 0) 0.
Definition sim_cache : pcache fs_sim :=
  PCache sim_env {[ sim_heap + 4096 := PageCache 2 0 0x300000 0 (sim_heap + 8192); sim_heap + 8192 := PageCache 2 1 0x301000 0 0 ]} (sim_heap + 4096).

Lemma sim_entry p c : entries sim_cache !! p = Some c ->
  (p = sim_heap + 4096 /\ c = PageCache 2 0 0x300000 0 (sim_heap + 8192)) \/ (p = sim_heap + 8192 /\ c = PageCache 2 1 0x301000 0 0).
Proof.
  cbn [entries sim_cache]. intros [[<- <-]|[_ Hp]]%lookup_insert_Some; [by left |]. apply lookup_singleton_Some in Hp as [<- <-]. by right.
Qed.

Lemma sim_used p : page_valid p -> p <> 0x100000 -> p <> 0x101000 -> fs_page sim_env p.
Proof. intros Hv H1 H2. split; [done |]. cbn [free_pages sim_env]. rewrite !not_elem_of_cons. split_and!; [done .. | apply not_elem_of_nil]. Qed.

Lemma sim_cache_inv : cache_inv (2, 2)%nat [sim_heap + 4096; sim_heap + 8192] sim_cache.
Proof.
  assert (forall a, a = sim_heap + 4096 \/ a = sim_heap + 8192 -> a ∉ free_objs sim_env) as Ho.
  { intros a Ha. cbn [free_objs sim_env]. rewrite !not_elem_of_cons. split_and!; [lia .. | apply not_elem_of_nil]. }
  split.
  - split; simpl; (split; [lia | split; [apply (bool_decide_unpack _); vm_compute; exact I |]]); repeat constructor; vm_compute; done.
  - split; [done |]. split; [done |]. eexists. split; [apply lookup_insert_eq |]. split; [done |]. split; [done |]. eexists.
    split; [by vm_compute |]. done.
  - apply (bool_decide_unpack _). vm_compute. exact I.
  - intros p c [[-> ->]|[-> ->]]%sim_entry; (split; [set_solver |]); split; try (split; [| by auto]); try (apply sim_used; [split |..]); vm_compute; done.
  - intros p q c c' [[-> ->]|[-> ->]]%sim_entry [[-> ->]|[-> ->]]%sim_entry; done.
Qed.

Lemma page_cache_roundtrip_witness :
  wp (add_page_to_cache 3 5 0x302000 1;; p ← get_page_cache 4 3 5; c ← get_entry p; remove_page_from_cache 4 3 5;; mret c)
    (fun c s' => addr c = 0x302000 /\ pc_flags c = 1 /\ cache_inv (3, 2)%nat [sim_heap + 4096; sim_heap + 8192] s' /\ entries s' = entries sim_cache) sim_cache.
Proof.
  apply (page_cache_roundtrip 2 1 [sim_heap + 4096; sim_heap + 8192] 3 5 0x302000 1 3 sim_cache).
  - exact sim_cache_inv.
  - apply sim_used; [split |..]; vm_compute; done.
  - intros p c [[-> ->]|[-> ->]]%sim_entry; done.
  - simpl. lia.
Defined.

Lemma remove_page_dangles_witness : wp (remove_page_from_cache 5 2 1) (fun _ s' => get_page_cache 5 2 1 s' = Err Fault) sim_cache.
Proof.
  apply (remove_page_dangles 2 2 [] (sim_heap + 4096) (sim_heap + 8192) (PageCache 2 0 0x300000 0 (sim_heap + 8192)) (PageCache 2 1 0x301000 0 0) 2 1 3 3 sim_cache).
  - exact sim_cache_inv.
  - vm_compute. reflexivity.
  - vm_compute. reflexivity.
  - intros [_ [=]].
  - intros [_ [=]].
Defined.
