(* ===== verification/Dfs.v ===== *)
(** The file system ([fs/dfs.c]): an inode table and directories on disk, files
    in one run of blocks, read and written through the page cache. *)
From S2P Require Import Prelude Interfaces CString PageCache.

(** * State *)

Definition DFS_TYPE_DIR : Z := 2.
Definition DFS_MAGIC : Z := 0x00534644.

(** The structures on disk are read where they lie in memory: the fields of an
    [inode_t], of 128 bytes, and of a [dir_entry_t], of 64. *)
Definition sizeof_inode : Z := 128.
Definition sizeof_dir_entry : Z := 64.
Definition inode_num (m : memory) (p : Z) : Z := load32 m p.
Definition inode_size (m : memory) (p : Z) : Z := load64 m (p + 4).
Definition inode_type (m : memory) (p : Z) : Z := load16 m (p + 12).
Definition start_block (m : memory) (p : Z) : Z := load64 m (p + 28).
Definition entry_inode (m : memory) (p : Z) : Z := load32 m p.
Definition entry_name (p : Z) : Z := p + 8.

(** [struct FILE], but for its first field, the path, whose bytes are in memory
    at the address of the object. *)
Record file : Type := File { file_type : Z; file_flags : Z; position : Z; file_ops : Z; private_data : Z }.
Definition set_position (x : Z) (f : file) : file := File (file_type f) (file_flags f) x (file_ops f) (private_data f).

(** The page cache, the memory of the kernel, the open files, and [dfs_ctx]. *)
Record dfs (St : Type) : Type := Dfs {
  d_pc : pcache St;
  d_mem : memory;
  files : gmap Z file;
  sb : Z;
  inode_bitmap : Z;
  block_bitmap : Z;
  inode_table : Z;
}.
Arguments Dfs {St} d_pc d_mem files sb inode_bitmap block_bitmap inode_table.
Arguments d_pc {St} _.
Arguments d_mem {St} _.
Arguments files {St} _.
Arguments sb {St} _.
Arguments inode_bitmap {St} _.
Arguments block_bitmap {St} _.
Arguments inode_table {St} _.

(** * Operations *)

Section operations.
Context {St : Type} `{FsServices St}.
Implicit Types s : dfs St.

Definition set_d_pc (x : pcache St) s : dfs St := Dfs x (d_mem s) (files s) (sb s) (inode_bitmap s) (block_bitmap s) (inode_table s).
Definition set_d_mem (x : memory) s : dfs St := Dfs (d_pc s) x (files s) (sb s) (inode_bitmap s) (block_bitmap s) (inode_table s).
Definition set_files (x : gmap Z file) s : dfs St := Dfs (d_pc s) (d_mem s) x (sb s) (inode_bitmap s) (block_bitmap s) (inode_table s).
Definition set_ctx (a b c d : Z) s : dfs St := Dfs (d_pc s) (d_mem s) (files s) a b c d.
Definition l_d_pc : lens (dfs St) (pcache St) := Lens d_pc set_d_pc.
Definition l_d_env : lens (dfs St) St := lens_compose l_d_pc l_pc_env.

Definition ldb (a : Z) : M (dfs St) Z := gets (fun s => d_mem s @@ a).

(** A copy; one of 2^47 bytes or more runs out of the address space. *)
Definition copy (d s n : Z) : M (dfs St) unit :=
  if n <? 2 ^ 47 then modify (fun t => set_d_mem (memcpy (Z.to_nat n) d s (d_mem t)) t) else fail Fault.

(** What the controller puts into memory. *)
Fixpoint dma (n : nat) (a : Z) (f : Z -> Z) (i : Z) (m : memory) : memory :=
  match n with O => m | S n' => dma n' a f (i + 1) (<[a + i := f i]> m) end.
Definition disk_read (sector count page : Z) : M (dfs St) Z :=
  r ← zoom l_d_env (fs_read sector count);
  modify (fun s => set_d_mem (dma (Z.to_nat (count * PAGE_SIZE_4KB)) (u64 (page + DIRECT_OFFSET)) r.2 0 (d_mem s)) s);;
  mret r.1.
Definition disk_write (sector page : Z) : M (dfs St) Z :=
  m ← gets d_mem; zoom l_d_env (fs_write sector (fun i => m @@ (u64 (page + DIRECT_OFFSET) + i))).

(** The result is a pointer to the root's inode; the magic number is only
    reported. *)
Definition dfs_mount_root : M (dfs St) Z :=
  page ← zoom l_d_env fs_alloc_page;
  status ← disk_read 8 1 page;
  if negb (status =? 0) then mret 0
  else
    p ← zoom l_d_env (fs_alloc_pages 34);
    if negb (truthy p) then zoom l_d_env (fs_free_page page);; mret 0
    else
      status ← disk_read 16 34 p;
      if negb (status =? 0) then
        zoom l_d_env (fs_free_page page);;
        for_loop 34 0 (fun i => zoom l_d_env (fs_free_page (u64 (p + i * PAGE_SIZE_4KB))));;
        mret 0
      else
        modify (set_ctx (u64 (page + DIRECT_OFFSET)) (u64 (p + DIRECT_OFFSET))
          (u64 (p + PAGE_SIZE_4KB + DIRECT_OFFSET)) (u64 (p + 2 * PAGE_SIZE_4KB + DIRECT_OFFSET)));;
        t ← gets inode_table;
        mret (t + sizeof_inode).

(** ** Paths *)

(** [while (path[len] != '/' && path[len] != '\0') len++] *)
Fixpoint scan_component (fuel : nat) (path len : Z) : M (dfs St) Z :=
  c ← ldb (path + len);
  if negb (c =? 47) && negb (c =? 0) then
    match fuel with O => fail Hang | S fuel' => scan_component fuel' path (len + 1) end
  else mret len.

(** The loop over the entries of a directory that is in memory at [list]: the
    last entry whose name starts with the component. *)
Fixpoint search_entries (n : nat) (i list path len cur : Z) (found : bool) : M (dfs St) (Z * bool) :=
  match n with
  | O => mret (cur, found)
  | S n' =>
      let entry := list + sizeof_dir_entry * i in
      m ← gets d_mem;
      t ← gets inode_table;
      if memcmp (entry_name entry) path (Z.to_nat len) m =? 0
      then search_entries n' (i + 1) list path len (t + sizeof_inode * entry_inode m entry) true
      else search_entries n' (i + 1) list path len cur found
  end.

(** The loop over the path; [len] is never reset. *)
Fixpoint get_inode_loop (fuel : nat) (phys_buf path len cur : Z) : M (dfs St) Z :=
  match fuel with
  | O => fail Hang
  | S fuel' =>
      c ← ldb path;
      if c =? 0 then zoom l_d_env (fs_free_page phys_buf);; mret cur
      else if negb (c =? 47) then get_inode_loop fuel' phys_buf (path + 1) len cur
      else
        let path := path + 1 in
        len ← scan_component fuel' path len;
        m ← gets d_mem;
        c ← ldb path;
        if (inode_type m cur =? DFS_TYPE_DIR) && negb (c =? 0) then
          let total_entries := u32 (inode_size m cur / sizeof_dir_entry) in
          status ← disk_read (u64 (start_block m cur * 8)) 1 phys_buf;
          if negb (status =? 0) then zoom l_d_env (fs_free_page phys_buf);; mret 0
          else
            r ← search_entries (Z.to_nat total_entries) 0 (u64 (phys_buf + DIRECT_OFFSET)) path len cur false;
            let '(cur, found) := r in
            if (found : bool) then get_inode_loop fuel' phys_buf path len cur
            else zoom l_d_env (fs_free_page phys_buf);; mret 0
        else zoom l_d_env (fs_free_page phys_buf);; mret 0
  end.

(** [fuel] bounds the length of the path. *)
Definition dfs_get_inode (fuel : nat) (path : Z) : M (dfs St) Z :=
  t ← gets inode_table;
  phys_buf ← zoom l_d_env fs_alloc_page;
  modify (fun s => set_d_mem (memset (Z.to_nat PAGE_SIZE_4KB) (u64 (phys_buf + DIRECT_OFFSET)) 0 (d_mem s)) s);;
  get_inode_loop fuel phys_buf path 0 (t + sizeof_inode).

(** ** Reading and writing *)

Definition page_base (offset : Z) : Z := Z.land offset PAGE_MASK_4KB.
Definition page_count (offset size : Z) : Z :=
  u64 (u64 (offset + size - page_base offset) + PAGE_SIZE_4KB - 1) / PAGE_SIZE_4KB.

(** The pages that hold the range, [None] for one that is not cached; [mark] is
    what a write does to an entry. *)
Fixpoint find_pages (fuel n : nat) (num i : Z) (mark : page_cache -> page_cache) : M (dfs St) (list (option Z)) :=
  match n with
  | O => mret []
  | S n' =>
      p ← zoom l_d_pc (get_page_cache fuel num i);
      x ← (if truthy p then
             zoom l_d_pc (upd_entry p mark);;
             c ← zoom l_d_pc (get_entry p);
             mret (Some (addr c))
           else mret None);
      l ← find_pages fuel n' num (i + 1) mark;
      mret (x :: l)
  end.

(** The loop that reads the pages that are missing; [false]: the function
    returns. *)
Fixpoint fetch_pages (pages : list (option Z)) (num start i flags : Z) : M (dfs St) bool :=
  match pages with
  | [] => mret true
  | x :: pages' =>
      if truthy (default 0 x) then fetch_pages pages' num start (i + 1) flags
      else
        paddr ← zoom l_d_env fs_alloc_page;
        status ← disk_read (u64 (i * 8 + start * 8)) 1 paddr;
        if negb (status =? 0) then zoom l_d_env (fs_free_page paddr);; mret false
        else
          zoom l_d_pc (add_page_to_cache num i paddr flags);;
          fetch_pages pages' num start (i + 1) flags
  end.

Definition page_at (pages : list (option Z)) (i : Z) : Z := default 0 (default None (pages !! Z.to_nat i)).

(** The copies of [dfs_read], by the number of pages. *)
Definition copy_from_pages (pages : list (option Z)) (buffer offset size : Z) : M (dfs St) unit :=
  let count := Z.of_nat (length pages) in
  let page i := u64 (page_at pages i + DIRECT_OFFSET) in
  if count =? 1 then copy buffer (page 0) size
  else if count =? 2 then
    copy buffer (page 0) (u64 (PAGE_SIZE_4KB - offset));;
    copy (buffer + PAGE_SIZE_4KB - offset) (page 1) (u64 (size + offset) mod PAGE_SIZE_4KB)
  else if count =? 0 then fail Fault
  else
    copy buffer (page 0) (u64 (PAGE_SIZE_4KB - offset));;
    for_loop (Z.to_nat (count - 2)) 1 (fun i =>
      copy (buffer + PAGE_SIZE_4KB - offset + (i - 1) * PAGE_SIZE_4KB) (page i) PAGE_SIZE_4KB);;
    copy (buffer - offset + (count - 1) * PAGE_SIZE_4KB) (page (count - 1)) (u64 (size + offset) mod PAGE_SIZE_4KB).

(** Those of [dfs_write]. *)
Definition copy_to_pages (pages : list (option Z)) (buffer offset size : Z) : M (dfs St) unit :=
  let count := Z.of_nat (length pages) in
  let page i := u64 (page_at pages i + DIRECT_OFFSET) in
  if count =? 1 then copy (u64 (page 0 + offset)) buffer size
  else if count =? 2 then
    copy (u64 (page 0 + offset)) buffer (u64 (PAGE_SIZE_4KB - offset));;
    copy (page 1) (buffer + PAGE_SIZE_4KB - offset) (u64 (size + offset) mod PAGE_SIZE_4KB)
  else if count =? 0 then fail Fault
  else
    copy (u64 (page 0 + offset)) buffer (u64 (PAGE_SIZE_4KB - offset));;
    for_loop (Z.to_nat (count - 2)) 1 (fun i =>
      copy (page i) (buffer + PAGE_SIZE_4KB - offset + (i - 1) * PAGE_SIZE_4KB) PAGE_SIZE_4KB);;
    copy (page (count - 1)) (buffer - offset + (count - 1) * PAGE_SIZE_4KB) (u64 (size + offset) mod PAGE_SIZE_4KB).

(** [dfs_read] and [dfs_write]: the same code but for the direction of the
    copies and the dirty flag. The second round finds every page in the cache,
    unless the cache lost one; [rounds] bounds them. A null inode is read
    through, a fault. *)
Fixpoint dfs_transfer (rounds fuel : nat) (mark : page_cache -> page_cache) (flags : Z)
    (move : list (option Z) -> Z -> Z -> Z -> M (dfs St) unit) (fp buffer offset size : Z) : M (dfs St) Z :=
  match rounds with
  | O => fail Hang
  | S rounds' =>
      if negb (truthy buffer) || negb (truthy size) then mret 0
      else
        cur ← dfs_get_inode fuel fp;
        if negb (truthy cur) then fail Fault
        else
          m ← gets d_mem;
          if inode_size m cur <? offset then mret 0
          else
            let first := page_base offset / PAGE_SIZE_4KB in
            pages ← find_pages fuel (Z.to_nat (page_count offset size)) (inode_num m cur) first mark;
            if forallb (fun x => bool_decide (is_Some x)) pages then
              move pages buffer offset size;; mret size
            else
              let size' := if inode_size m cur <? u64 (offset + size) then u64 (inode_size m cur - offset) else size in
              ok ← fetch_pages pages (inode_num m cur) (start_block m cur) first flags;
              if negb ok then mret 0
              else dfs_transfer rounds' fuel mark flags move fp buffer offset size'
  end.

Definition dfs_read (rounds fuel : nat) (fp buffer offset size : Z) : M (dfs St) Z :=
  dfs_transfer rounds fuel (fun c => c) 0 copy_from_pages fp buffer offset size.
Definition dfs_write (rounds fuel : nat) (fp buffer offset size : Z) : M (dfs St) Z :=
  dfs_transfer rounds fuel (fun c => set_pc_flags (Z.lor (pc_flags c) DIRTY_FLAG) c) DIRTY_FLAG copy_to_pages fp buffer offset size.

(** ** Files *)

Definition get_file (f : Z) : M (dfs St) file :=
  m ← gets files; match m !! f with Some x => mret x | None => fail Fault end.
Definition upd_file (f : Z) (g : file -> file) : M (dfs St) unit :=
  x ← get_file f; modify (fun s => set_files (<[f := g x]> (files s)) s).

(** [dfs_file_read] and [dfs_file_write]; the result is an [int]. *)
Definition file_transfer (transfer : Z -> Z -> Z -> Z -> M (dfs St) Z) (f buf count : Z) : M (dfs St) Z :=
  x ← get_file f;
  m ← gets d_mem;
  let size := inode_size m (private_data x) in
  if size <=? position x then mret 0
  else
    let count := if size <? u64 (position x + count) then u64 (size - position x) else count in
    n ← transfer f buf (position x) count;
    if n =? 2 ^ 64 - 1 then mret 0
    else upd_file f (fun x => set_position (u64 (position x + n)) x);; mret (s32 n).
Definition dfs_file_read (rounds fuel : nat) : Z -> Z -> Z -> M (dfs St) Z := file_transfer (dfs_read rounds fuel).
Definition dfs_file_write (rounds fuel : nat) : Z -> Z -> Z -> M (dfs St) Z := file_transfer (dfs_write rounds fuel).

Definition dfs_file_close (f : Z) : M (dfs St) Z :=
  zoom l_d_env (fs_kfree f);;
  modify (fun s => set_files (delete f (files s)) s);;
  mret 0.

(** Writing back one page, if it is dirty and not being written; 1 on an error. *)
Definition write_back (p sector : Z) : M (dfs St) Z :=
  c ← zoom l_d_pc (get_entry p);
  if truthy (Z.land (pc_flags c) DIRTY_FLAG) && negb (truthy (Z.land (pc_flags c) WRITEBACK_FLAG)) then
    zoom l_d_pc (upd_entry p (fun c => set_pc_flags (Z.lor (pc_flags c) WRITEBACK_FLAG) c));;
    status ← disk_write sector (addr c);
    zoom l_d_pc (upd_entry p (fun c => set_pc_flags (Z.ldiff (pc_flags c) WRITEBACK_FLAG) c));;
    if negb (status =? 0) then mret 1
    else
      zoom l_d_pc (upd_entry p (fun c => set_pc_flags (Z.ldiff (pc_flags c) DIRTY_FLAG) c));;
      mret 0
  else mret 0.

Fixpoint sync_loop (fuel n : nat) (inode i ret : Z) : M (dfs St) Z :=
  match n with
  | O => mret ret
  | S n' =>
      m ← gets d_mem;
      p ← zoom l_d_pc (get_page_cache fuel (inode_num m inode) i);
      e ← (if truthy p then write_back p (u64 ((start_block m inode + i) * 8)) else mret 0);
      sync_loop fuel n' inode (i + 1) (ret + e)
  end.
Definition dfs_file_sync (fuel : nat) (f : Z) : M (dfs St) Z :=
  x ← get_file f;
  m ← gets d_mem;
  let count := u64 (inode_size m (private_data x) + PAGE_SIZE_4KB - 1) / PAGE_SIZE_4KB in
  sync_loop fuel (Z.to_nat count) (private_data x) 0 0.

(** [SYS_SYNC]: every page of the cache; the inode is found by the identity of
    the page. *)
Fixpoint sync_all (fuel : nat) (cur rax : Z) : M (dfs St) Z :=
  if negb (truthy cur) then mret rax
  else
    match fuel with
    | O => fail Hang
    | S fuel' =>
        c ← zoom l_d_pc (get_entry cur);
        m ← gets d_mem;
        t ← gets inode_table;
        e ← write_back cur (u64 ((start_block m (t + sizeof_inode * id c) + indx c) * 8));
        c ← zoom l_d_pc (get_entry cur);
        sync_all fuel' (pc_next c) (rax + e)
    end.
Definition sys_sync (fuel : nat) : M (dfs St) Z :=
  l ← gets (fun s => cache_list (d_pc s)); sync_all fuel l 0.

End operations.

(** * Specification *)

(** The last of [n] entries of a directory block, from entry [i] on, whose name
    starts with [name]: the number of its inode. *)
Definition block_word (blk : Z -> Z) (a : Z) : Z := blk a + 2 ^ 8 * blk (a + 1) + 2 ^ 16 * blk (a + 2) + 2 ^ 24 * blk (a + 3).
Definition name_starts (blk : Z -> Z) (i : Z) (name : list Z) : Prop :=
  (fun j => blk (sizeof_dir_entry * i + 8 + j)) <$> seqZ 0 (Z.of_nat (length name)) = name.
#[global] Instance name_starts_dec blk i name : Decision (name_starts blk i name).
Proof. unfold name_starts. apply _. Defined.
Fixpoint dir_find (blk : Z -> Z) (n : nat) (i : Z) (name : list Z) (found : option Z) : option Z :=
  match n with
  | O => found
  | S n' =>
      dir_find blk n' (i + 1) name (if decide (name_starts blk i name) then Some (block_word blk (sizeof_dir_entry * i)) else found)
  end.

Section specification.
Context {St : Type} `{FsServicesLaws St}.
Implicit Types s : dfs St.

Definition d_env s : St := pc_env (d_pc s).

(** Address [x] is not in the direct map of a free page, and not in that of a
    page of the cache either. *)
Definition in_page (p x : Z) : Prop := p + DIRECT_OFFSET <= x < p + DIRECT_OFFSET + PAGE_SIZE_4KB.
Definition kept s (x : Z) : Prop := forall p, 0 < p < 2 ^ 46 -> p mod PAGE_SIZE_4KB = 0 -> in_page p x -> fs_page (d_env s) p.
Definition stable s (x : Z) : Prop := kept s x /\ forall q c, entries (d_pc s) !! q = Some c -> ~ in_page (addr c) x.

(** What looking up a path changes: nothing but free pages. *)
Record quiet s s' : Prop := {
  qu_state : s' = set_d_mem (d_mem s') (set_d_pc (set_pc_env (d_env s') (d_pc s)) s);
  qu_page p : fs_page (d_env s') p <-> fs_page (d_env s) p;
  qu_obj a : fs_obj (d_env s') a <-> fs_obj (d_env s) a;
  qu_block : fs_block (d_env s') = fs_block (d_env s);
  qu_mem x : kept s x -> d_mem s' @@ x = d_mem s @@ x;
}.

(** The disk does not fail. *)
Definition reliable : Prop := forall k c (e : St), wp (fs_read k c) (fun r _ => r.1 = 0) e.

(** The file [name] of the root directory: [fp] is its path, and [ino] the
    pointer to the inode of the last entry of the directory that starts with
    [name]. *)
Record root_file s (fp : Z) (name : list Z) (ino : Z) : Prop := {
  rf_path : c_string (d_mem s) fp (47 :: name);
  rf_name : (47 ∉ name) /\ name <> [] /\ Z.of_nat (length name) <= 56;
  rf_path_stable i : 0 <= i <= Z.of_nat (length name) + 1 -> stable s (fp + i);
  rf_dir : inode_type (d_mem s) (inode_table s + sizeof_inode) = DFS_TYPE_DIR /\
    0 <= inode_size (d_mem s) (inode_table s + sizeof_inode) <= PAGE_SIZE_4KB;
  rf_dir_stable i : 0 <= i < sizeof_inode -> stable s (inode_table s + sizeof_inode + i);
  rf_entry : exists num,
    dir_find (fs_block (d_env s) (u64 (start_block (d_mem s) (inode_table s + sizeof_inode) * 8)))
      (Z.to_nat (inode_size (d_mem s) (inode_table s + sizeof_inode) / sizeof_dir_entry)) 0 name None = Some num /\
    ino = inode_table s + sizeof_inode * num;
}.

(** The cache holds whole pages of memory, each once. *)
Record dfs_inv (n : nat * nat) (l : list Z) s : Prop := {
  di_cache : cache_inv n l (d_pc s);
  di_addr p c : entries (d_pc s) !! p = Some c -> 0 < addr c < 2 ^ 46 /\ addr c mod PAGE_SIZE_4KB = 0;
}.

(** Byte [j] of page [i] of a file: in memory if the page is cached, on disk if
    not. *)
Definition file_byte s (l : list Z) (ino i j : Z) : Z :=
  match entries (d_pc s) !! lookup_page (entries (d_pc s)) (inode_num (d_mem s) ino) i l with
  | Some c => d_mem s @@ (addr c + DIRECT_OFFSET + j)
  | None => fs_block (d_env s) (u64 (i * 8 + start_block (d_mem s) ino * 8)) j
  end.
End specification.

(** * Lemmas *)

Section lemmas.
Context {St : Type} `{HL : FsServicesLaws St}.
Implicit Types s : dfs St.

Lemma dma_spec n : forall a f i m x, dma n a f i m @@ x = if decide (a + i <= x < a + i + Z.of_nat n) then f (x - a) else m @@ x.
Proof.
  induction n as [|n IH]; intros a f i m x; cbn [dma]; [by rewrite decide_False by lia |].
  rewrite IH, rd_insert. repeat case_decide; try lia; try done. f_equal. lia.
Qed.

Lemma direct_addr p : 0 < p < 2 ^ 46 -> u64 (p + DIRECT_OFFSET) = p + DIRECT_OFFSET.
Proof. intros Hp. apply u64_small. unfold DIRECT_OFFSET. lia. Qed.

Lemma quiet_refl s : quiet s s.
Proof. split; try done. by destruct s as [[]]. Qed.

Lemma quiet_entries s s' : quiet s s' -> entries (d_pc s') = entries (d_pc s) /\ cache_list (d_pc s') = cache_list (d_pc s).
Proof. intros Hq. rewrite (qu_state _ _ Hq). by destruct s as [[]]. Qed.

Lemma quiet_kept s s' x : quiet s s' -> kept s x <-> kept s' x.
Proof. intros Hq. unfold kept. setoid_rewrite (qu_page _ _ Hq). done. Qed.

Lemma quiet_stable s s' x : quiet s s' -> stable s x <-> stable s' x.
Proof. intros Hq. unfold stable. rewrite (quiet_kept s s') by done. by destruct (quiet_entries _ _ Hq) as [-> _]. Qed.

Lemma quiet_trans s1 s2 s3 : quiet s1 s2 -> quiet s2 s3 -> quiet s1 s3.
Proof.
  intros H1 H2. split.
  - rewrite (qu_state _ _ H2). unfold d_env. rewrite (qu_state _ _ H1). by destruct s1 as [[]].
  - intros p. by rewrite (qu_page _ _ H2), (qu_page _ _ H1).
  - intros a. by rewrite (qu_obj _ _ H2), (qu_obj _ _ H1).
  - by rewrite (qu_block _ _ H2), (qu_block _ _ H1).
  - intros x Hx. rewrite (qu_mem _ _ H2), (qu_mem _ _ H1); [done | done |]. by apply (quiet_kept s1 s2).
Qed.

(** Words of stable memory. *)
Lemma inode_same m m' p : (forall i, 0 <= i < sizeof_inode -> m' @@ (p + i) = m @@ (p + i)) ->
  inode_num m' p = inode_num m p /\ inode_size m' p = inode_size m p /\ inode_type m' p = inode_type m p /\ start_block m' p = start_block m p.
Proof.
  unfold sizeof_inode. intros E. split_and!; [apply load32_same | apply load64_same | apply load16_same | apply load64_same];
    intros i Hi; rewrite <- ?Z.add_assoc; apply E; lia.
Qed.

(** ** Paths *)

(** A page of the disk in an allocated page of memory. *)
Record loaded (k page : Z) s s' : Prop := {
  lo_state : s' = set_d_mem (d_mem s') (set_d_pc (set_pc_env (d_env s') (d_pc s)) s);
  lo_page p : fs_page (d_env s') p <-> fs_page (d_env s) p;
  lo_obj a : fs_obj (d_env s') a <-> fs_obj (d_env s) a;
  lo_block : fs_block (d_env s') = fs_block (d_env s);
  lo_data i : 0 <= i < PAGE_SIZE_4KB -> d_mem s' @@ (page + DIRECT_OFFSET + i) = fs_block (d_env s) k i;
  lo_mem x : ~ (page + DIRECT_OFFSET <= x < page + DIRECT_OFFSET + PAGE_SIZE_4KB) -> d_mem s' @@ x = d_mem s @@ x;
}.
End lemmas.

(** Copies of whole pages are not computed. *)
#[local] Opaque dma memset memcpy.

Section reliable_disk.
Context {St : Type} `{HL : FsServicesLaws St} (Hrel : reliable).
Implicit Types s : dfs St.

Lemma wp_disk_read n k page s : fs_ok n (d_env s) -> 0 < page < 2 ^ 46 ->
  wp (disk_read k 1 page) (fun r s' => r = 0 /\ loaded k page s s' /\ fs_ok n (d_env s')) s.
Proof.
  intros Hok Hp. apply wp_bind, wp_zoom. change (view l_d_env s) with (d_env s).
  pose proof (Hrel k 1 (d_env s)) as Hr. destruct (wp_ok _ _ _ Hr) as (r & e & E & Hr0).
  pose proof (wp_fs_read n k 1 (d_env s) Hok) as Hw. unfold wp in Hw |- *. rewrite E in Hw |- *. destruct Hw as (Hok' & Hd & Hpg & Hob & Hbl).
  specialize (Hd Hr0). cbn [over l_d_env lens_compose]. apply wp_bind, wp_modify, wp_ret. split; [done |]. split; [| done].
  rewrite direct_addr by done. rewrite Z.mul_1_l.
  pose proof (dma_spec (Z.to_nat PAGE_SIZE_4KB) (page + DIRECT_OFFSET) r.2 0 (d_mem (set_d_pc (set_pc_env e (d_pc s)) s))) as Hdma.
  change (d_mem (over l_d_env e s)) with (d_mem s). change (d_mem (set_d_pc (set_pc_env e (d_pc s)) s)) with (d_mem s) in Hdma.
  set (m' := dma _ _ _ _ _) in *. clearbody m'. split; try done; cbn [d_mem set_d_mem].
  - intros i Hi. rewrite Hdma, decide_True by (unfold PAGE_SIZE_4KB in *; lia). replace (page + DIRECT_OFFSET + i - (page + DIRECT_OFFSET)) with i by lia.
    rewrite Hd by lia. rewrite Z.div_small, Z.mod_small by done. by rewrite Z.mul_0_l, Z.add_0_r.
  - intros x Hx. rewrite Hdma, decide_False; [done |]. unfold PAGE_SIZE_4KB in *. lia.
Qed.

Lemma wp_scan_component l2 : forall fuel path l1 s, bytes (d_mem s) path (length (l1 ++ l2)) = l1 ++ l2 -> d_mem s @@ (path + Z.of_nat (length (l1 ++ l2))) = 0 ->
  Forall (fun c => c <> 0) l2 -> 47 ∉ l2 -> (length l2 <= fuel)%nat ->
  wp (scan_component fuel path (Z.of_nat (length l1))) (fun r s' => r = Z.of_nat (length (l1 ++ l2)) /\ s' = s) s.
Proof.
  induction l2 as [|c l2 IH]; intros fuel path l1 s Hb H0 Hnz Hns Hf.
  - rewrite app_nil_r in *. destruct fuel; cbn [scan_component]; apply wp_bind, wp_gets; rewrite H0; by apply wp_ret.
  - assert (d_mem s @@ (path + Z.of_nat (length l1)) = c) as Hc.
    { assert (bytes (d_mem s) path (length (l1 ++ c :: l2)) !! Z.to_nat (Z.of_nat (length l1)) = Some c) as E
        by (rewrite Hb, Nat2Z.id; by apply list_lookup_middle).
      rewrite bytes_lookup in E by (rewrite length_app; simpl; lia). by injection E. }
    apply Forall_cons in Hnz as [Hc0 Hnz]. apply not_elem_of_cons in Hns as [Hc1 Hns]. simpl in Hf. destruct fuel as [|fuel]; [lia |].
    cbn [scan_component]. apply wp_bind, wp_gets. rewrite Hc, (proj2 (Z.eqb_neq c 47)), (proj2 (Z.eqb_neq c 0)) by done. cbn [andb negb].
    replace (l1 ++ c :: l2) with ((l1 ++ [c]) ++ l2) in * by by rewrite <- app_assoc.
    replace (Z.of_nat (length l1) + 1) with (Z.of_nat (length (l1 ++ [c]))) by (rewrite length_app; simpl; lia).
    apply IH; [done | done | done | done | lia].
Qed.

(** What the search has found so far. *)
Definition found_at (t cur : Z) (o : option Z) : Z * bool := match o with Some num => (t + sizeof_inode * num, true) | None => (cur, false) end.

Lemma wp_search_entries blk n : forall i list path name cur o s, (forall j, 0 <= j < PAGE_SIZE_4KB -> d_mem s @@ (list + j) = blk j) ->
  bytes (d_mem s) path (length name) = name -> Z.of_nat (length name) <= 56 -> 0 <= i -> i + Z.of_nat n <= 64 ->
  wp (let '(c, f) := found_at (inode_table s) cur o in search_entries n i list path (Z.of_nat (length name)) c f)
    (fun r s' => r = found_at (inode_table s) cur (dir_find blk n i name o) /\ s' = s) s.
Proof.
  induction n as [|n IH]; intros i list path name cur o s Hblk Hname Hlen Hi Hn.
  - destruct (found_at _ _ _) as [c f] eqn:E. apply wp_ret. by rewrite <- E.
  - assert (memcmp (entry_name (list + sizeof_dir_entry * i)) path (length name) (d_mem s) = 0 <-> name_starts blk i name) as Hcmp.
    { rewrite memcmp_eq, Hname. unfold name_starts, bytes. unfold entry_name, sizeof_dir_entry, PAGE_SIZE_4KB in *.
      assert ((fun k => d_mem s @@ (list + 64 * i + 8 + k)) <$> seqZ 0 (Z.of_nat (length name)) = (fun j => blk (64 * i + 8 + j)) <$> seqZ 0 (Z.of_nat (length name))) as ->; [| done].
      apply list_fmap_ext. intros k y Hk. apply lookup_seqZ in Hk as [-> Hk]. rewrite <- !Z.add_assoc, Hblk by lia. done. }
    assert (entry_inode (d_mem s) (list + sizeof_dir_entry * i) = block_word blk (sizeof_dir_entry * i)) as Hnum.
    { unfold entry_inode, load32, block_word, sizeof_dir_entry, PAGE_SIZE_4KB in *. by rewrite <- !Z.add_assoc, !Hblk by lia. }
    cbn [dir_find]. destruct (decide (name_starts blk i name)) as [Hs|Hs].
    + destruct (found_at _ _ o) as [c f]. cbn [search_entries]. apply wp_bind, wp_gets, wp_bind, wp_gets. rewrite Nat2Z.id, (proj2 Hcmp Hs), Hnum. cbn [Z.eqb].
      apply (IH (i + 1) list path name cur (Some (block_word blk (sizeof_dir_entry * i))) s); [done | done | done | lia | lia].
    + pose proof (IH (i + 1) list path name cur o s Hblk Hname Hlen ltac:(lia) ltac:(lia)) as IH'. destruct (found_at _ _ o) as [c f].
      cbn [search_entries]. apply wp_bind, wp_gets, wp_bind, wp_gets. rewrite Nat2Z.id. rewrite <- Hcmp in Hs. rewrite (proj2 (Z.eqb_neq _ _) Hs). exact IH'.
Qed.

(** The rest of the path, once its only component is found. *)
Lemma wp_skip_name n h phys len cur l : forall fuel path s, bytes (d_mem s) path (length l) = l -> d_mem s @@ (path + Z.of_nat (length l)) = 0 ->
  Forall (fun c => c <> 0) l -> 47 ∉ l -> (length l < fuel)%nat -> fs_ok (n, h) (d_env s) -> fs_page (d_env s) phys ->
  wp (get_inode_loop fuel phys path len cur) (fun r s' => r = cur /\ exists e, s' = set_d_pc (set_pc_env e (d_pc s)) s /\ fs_ok (S n, h) e /\
    (forall q, fs_page e q <-> q <> phys /\ fs_page (d_env s) q) /\ (forall a, fs_obj e a <-> fs_obj (d_env s) a) /\ fs_block e = fs_block (d_env s)) s.
Proof.
  induction l as [|c l IH]; intros fuel path s Hb H0 Hnz Hns Hf Hok Hpg; (destruct fuel as [|fuel]; [simpl in Hf; lia |]); cbn [get_inode_loop]; apply wp_bind, wp_gets.
  - simpl in H0. rewrite Z.add_0_r in H0. rewrite H0. cbn [Z.eqb]. apply wp_bind, wp_zoom.
    eapply wp_mono; [by apply (wp_fs_free_page n h)|]. intros [] e He. apply wp_ret. split; [done |]. by exists e.
  - simpl length in *. rewrite bytes_S in Hb. injection Hb as Hc Hb. rewrite Hc. apply Forall_cons in Hnz as [Hc0 Hnz]. apply not_elem_of_cons in Hns as [Hc1 Hns].
    rewrite (proj2 (Z.eqb_neq c 0)), (proj2 (Z.eqb_neq c 47)) by done. cbn [negb].
    apply IH; try done; [| lia]. rewrite <- H0. f_equal. lia.
Qed.

Lemma wp_get_inode_root n h fuel fp name ino s : root_file s fp name ino -> fs_ok (S n, h) (d_env s) -> (length name + 2 < fuel)%nat ->
  wp (dfs_get_inode fuel fp) (fun r s' => r = ino /\ quiet s s' /\ fs_ok (S n, h) (d_env s')) s.
Proof.
  intros [(Hb & H0 & Hnz) (Hns & Hne & Hlen) Hst [Hty Hsz] Hdst (num & Hfind & ->)] Hok Hf.
  apply wp_bind, wp_gets, wp_bind, wp_zoom. eapply wp_mono; [by apply (wp_fs_alloc_page n h)|]. cbn [view over l_d_env lens_compose].
  intros phys e (Hok1 & Hp0 & Hal & Hpr & Hfresh & Hpg & Hob & Hbl). apply wp_bind, wp_modify.
  assert (forall x, kept s x -> ~ (phys + DIRECT_OFFSET <= x < phys + DIRECT_OFFSET + PAGE_SIZE_4KB)) as Hout.
  { intros x Hx Hin. by apply Hfresh, Hx. }
  assert (forall i, 0 <= i <= Z.of_nat (length name) + 1 -> kept s (fp + i)) as Hst' by (intros; by apply Hst).
  assert (forall i, 0 <= i < sizeof_inode -> kept s (inode_table s + sizeof_inode + i)) as Hdst' by (intros; by apply Hdst).
  clear Hst Hdst. rename Hst' into Hst, Hdst' into Hdst.
  pose proof (memset_spec (Z.to_nat PAGE_SIZE_4KB) (phys + DIRECT_OFFSET) 0 (d_mem s)) as Hset. rewrite direct_addr by done.
  cbn [d_mem set_d_pc l_d_pc over view l_pc_env]. set (m1 := memset _ _ _ _) in *. clearbody m1.
  set (s1 := set_d_mem m1 (set_d_pc (set_pc_env e (d_pc s)) s)). change (set_d_mem m1 _) with s1.
  assert (forall x, kept s x -> d_mem s1 @@ x = d_mem s @@ x) as Hm1.
  { intros x Hx%Hout. change (d_mem s1) with m1. rewrite Hset, decide_False; [done |]. unfold PAGE_SIZE_4KB in *. lia. }
  destruct fuel as [|fuel]; [lia |]. simpl length in *. rewrite bytes_S in Hb. injection Hb as Hc Hb. apply Forall_cons in Hnz as [_ Hnz].
  assert (forall s', (forall x, kept s x -> d_mem s' @@ x = d_mem s @@ x) ->
    bytes (d_mem s') (fp + 1) (length name) = name /\ d_mem s' @@ (fp + 1 + Z.of_nat (length name)) = 0) as Hname.
  { intros s' Hs'. split; [rewrite <- Hb at 2; apply bytes_ext; intros i Hi; apply Hs'; rewrite <- Z.add_assoc; apply Hst; lia |].
    rewrite Hs'; [rewrite <- H0; f_equal; lia |]. rewrite <- Z.add_assoc. apply Hst. lia. }
  destruct (Hname s1 Hm1) as [Hb1 H01]. cbn [get_inode_loop]. apply wp_bind, wp_gets.
  rewrite Hm1 by (rewrite <- (Z.add_0_r fp); apply Hst; lia). rewrite Hc. cbn [Z.eqb negb]. apply wp_bind.
  eapply wp_mono; [apply (wp_scan_component name fuel (fp + 1) [] s1); done || lia |]. cbn [app length Z.of_nat]. intros len s1' [-> ->].
  apply wp_bind, wp_gets, wp_bind, wp_gets.
  destruct (inode_same (d_mem s) (d_mem s1) (inode_table s + sizeof_inode)) as (_ & Es & Et & Eb); [intros i Hi; by apply Hm1, Hdst |].
  rewrite Es, Et, Eb, Hty, Z.eqb_refl. cbn [andb].
  assert (d_mem s1 @@ (fp + 1) <> 0) as Hc1.
  { destruct name as [|c name]; [done |]. simpl length in Hb1. rewrite bytes_S in Hb1. injection Hb1 as E _. apply Forall_cons in Hnz as [Hn _].
    intros E0. apply Hn. transitivity (d_mem s1 @@ (fp + 1)); [by symmetry | exact E0]. }
  rewrite (proj2 (Z.eqb_neq _ _) Hc1). cbn [negb]. apply wp_bind.
  eapply wp_mono; [apply (wp_disk_read (n, h) _ phys s1 Hok1 Hpr)|]. intros st s2 (-> & [Est2 Hpg2 Hob2 Hbl2 Hd2 Hm2] & Hok2). cbn [Z.eqb negb].
  assert (forall x, kept s x -> d_mem s2 @@ x = d_mem s @@ x) as Hm2'.
  { intros x Hx. rewrite Hm2 by by apply Hout. by apply Hm1. }
  destruct (Hname s2 Hm2') as [Hb2 H02]. apply wp_bind.
  rewrite u32_small by (unfold sizeof_dir_entry, PAGE_SIZE_4KB in *; dlia). rewrite direct_addr by done.
  pose proof (wp_search_entries (fs_block (d_env s1) (u64 (start_block (d_mem s) (inode_table s + sizeof_inode) * 8)))
    (Z.to_nat (inode_size (d_mem s) (inode_table s + sizeof_inode) / sizeof_dir_entry)) 0 (phys + DIRECT_OFFSET) (fp + 1) name
    (inode_table s + sizeof_inode) None s2 Hd2 Hb2 Hlen ltac:(lia) ltac:(unfold sizeof_dir_entry, PAGE_SIZE_4KB in *; dlia)) as Hsearch.
  cbn [found_at] in Hsearch. eapply wp_mono; [exact Hsearch |]. intros [cur found] s3 [Efound ->].
  change (fs_block (d_env s1)) with (fs_block e) in Efound. rewrite Hbl in Efound. change (fs_block (view l_pc_env (view l_d_pc s))) with (fs_block (d_env s)) in Efound.
  rewrite Hfind in Efound. cbn [found_at] in Efound. injection Efound as -> ->.
  eapply wp_mono; [apply (wp_skip_name n h phys _ _ name fuel (fp + 1) s2); try done; [lia | by apply Hpg2, Hpg; left] |].
  intros r s' (-> & e' & -> & Hok' & Hpg' & Hob' & Hbl'). split; [rewrite Est2; done |]. split; [| exact Hok'].
  assert (d_env s1 = e /\ d_mem s1 = m1) as [Ee Em] by done. rewrite Ee in *.
  split.
  - rewrite Est2. by destruct s as [[]].
  - intros p. change (d_env (set_d_pc _ s2)) with e'. rewrite Hpg', Hpg2, Hpg. change (fs_page (view l_pc_env (view l_d_pc s)) p) with (fs_page (d_env s) p).
    split; [tauto |]. intros Hp. split; [intros -> | tauto]. by apply Hfresh.
  - intros a. change (d_env (set_d_pc _ s2)) with e'. rewrite Hob', Hob2. apply Hob.
  - change (d_env (set_d_pc _ s2)) with e'. rewrite Hbl', Hbl2. exact Hbl.
  - exact Hm2'.
Qed.
End reliable_disk.
