(* ===== verification/DfsDemo.v ===== *)
(** A small file system, on which the theorems are evaluated. *)
From S2P Require Import Prelude Interfaces CString PageCache FsSim Dfs.

(** * A small file system *)

Fixpoint place (a : Z) (l : list Z) (m : memory) : memory :=
  match l with [] => m | x :: l' => place (a + 1) l' (<[a := x]> m) end.

(** An inode in memory: its number, size, type, and first block. *)
Definition inode_bytes (num size type start : Z) : list Z :=
  [num; 0; 0; 0; size mod 256; size / 256; 0; 0; 0; 0; 0; 0; type; 0] ++ repeat 0 14 ++ [start; 0; 0; 0; 0; 0; 0; 0] ++ repeat 0 92.

(** The path [/ab], and an inode table with the root and the file, of 8192
    bytes in blocks 6 and 7; its second block is on a bad sector. *)
Definition demo_path : Z := 0x5000.
Definition demo_table : Z := 0x200000 + DIRECT_OFFSET.
Definition demo_inode : Z := demo_table + 2 * sizeof_inode.
Definition demo_memory : memory :=
  place demo_path [47; 97; 98; 0] (place (demo_table + sizeof_inode) (inode_bytes 1 64 DFS_TYPE_DIR 5 ++ inode_bytes 2 8192 1 6) ∅).
Definition demo_disk (x : Z) : Z :=
  if x =? 40 * 512 then 2 else if x =? 40 * 512 + 8 then 97 else if x =? 40 * 512 + 9 then 98
  else if 48 * 512 <=? x then x mod 251 else 0.
Definition demo_env : fs_sim :=
  FsSim [0x100000; 0x101000; 0x102000; 0x103000] [sim_heap; sim_heap + 64; sim_heap + 128; sim_heap + 192] demo_disk 56.
Definition demo_dfs (e : gmap Z page_cache) (l : Z) : dfs fs_sim :=
  Dfs (PCache demo_env e l) demo_memory ∅ 0 0 0 demo_table.

Lemma demo_reliable : reliable (St := fs_sim).
Proof. done. Qed.

Lemma demo_ok : fs_ok (4, 4)%nat demo_env.
Proof. split; simpl; (split; [lia | split; [apply (bool_decide_unpack _); vm_compute; exact I |]]); repeat constructor; vm_compute; done. Qed.

(** A page, of which the frames are not on the free list, is kept. *)
Lemma demo_kept e l x : ~ (0x100000 + DIRECT_OFFSET <= x < 0x104000 + DIRECT_OFFSET) -> kept (demo_dfs e l) x.
Proof.
  intros Hx p Hr Hal Hin. split; [by split |]. unfold in_page, PAGE_SIZE_4KB in *. cbn. rewrite !not_elem_of_cons. split_and!; [lia .. |]. by apply not_elem_of_nil.
Qed.

Lemma demo_stable e l x : (forall p c, e !! p = Some c -> 0x300000 <= addr c) ->
  (x < DIRECT_OFFSET \/ demo_table <= x < demo_table + PAGE_SIZE_4KB) -> stable (demo_dfs e l) x.
Proof.
  unfold demo_table, DIRECT_OFFSET, PAGE_SIZE_4KB. intros He Hx. split; [apply demo_kept; unfold DIRECT_OFFSET; lia |].
  intros q c Hq Hin. apply He in Hq. unfold in_page, DIRECT_OFFSET, PAGE_SIZE_4KB in Hin. lia.
Qed.

Lemma demo_root e l : (forall p c, e !! p = Some c -> 0x300000 <= addr c) -> root_file (demo_dfs e l) demo_path [97; 98] demo_inode.
Proof.
  intros He. split.
  - split; [by vm_compute | split; [by vm_compute |]]. repeat constructor; done.
  - split; [| split; [done | simpl; lia]]. rewrite !not_elem_of_cons. split_and!; [done .. | apply not_elem_of_nil].
  - intros i Hi. simpl length in Hi. apply demo_stable; [done |]. unfold demo_path, DIRECT_OFFSET. lia.
  - split; [by vm_compute |]. vm_compute. split; discriminate.
  - intros i Hi. apply demo_stable; [done |]. cbn [inode_table demo_dfs]. unfold demo_table, sizeof_inode, DIRECT_OFFSET, PAGE_SIZE_4KB in *. lia.
  - exists 2. split; [by vm_compute | done].
Qed.

Lemma demo_inv : dfs_inv (4, 4)%nat [] (demo_dfs ∅ 0).
Proof. split; [split |]; cbn; try done; [apply demo_ok | constructor]. Qed.

(** The two pages of the file in the cache, both dirty. *)
Definition demo_entries : gmap Z page_cache :=
  {[ sim_heap + 4096 := PageCache 2 0 0x300000 DIRTY_FLAG (sim_heap + 8192); sim_heap + 8192 := PageCache 2 1 0x301000 DIRTY_FLAG 0 ]}.
Definition demo_list : list Z := [sim_heap + 4096; sim_heap + 8192].
Definition demo_cached : dfs fs_sim := demo_dfs demo_entries (sim_heap + 4096).

Lemma demo_entry p c : demo_entries !! p = Some c ->
  (p = sim_heap + 4096 /\ c = PageCache 2 0 0x300000 DIRTY_FLAG (sim_heap + 8192)) \/ (p = sim_heap + 8192 /\ c = PageCache 2 1 0x301000 DIRTY_FLAG 0).
Proof.
  unfold demo_entries. intros [[<- <-]|[_ Hp]]%lookup_insert_Some; [by left |]. apply lookup_singleton_Some in Hp as [<- <-]. by right.
Qed.

Lemma demo_cached_inv : dfs_inv (4, 4)%nat demo_list demo_cached.
Proof.
  assert (forall a, a = sim_heap + 4096 \/ a = sim_heap + 8192 -> a ∉ free_objs demo_env) as Ho.
  { intros a Ha. cbn [free_objs demo_env]. rewrite !not_elem_of_cons. split_and!; [lia .. | apply not_elem_of_nil]. }
  assert (forall a, a = 0x300000 \/ a = 0x301000 -> a ∉ free_pages demo_env) as Hp.
  { intros a Ha. cbn [free_pages demo_env]. rewrite !not_elem_of_cons. split_and!; [lia .. | apply not_elem_of_nil]. }
  split; [split |]; cbn [d_pc demo_cached demo_dfs pc_env entries cache_list].
  - apply demo_ok.
  - split; [done |]. split; [done |]. eexists. split; [apply lookup_insert_eq |]. split; [done |]. split; [done |]. eexists.
    split; [by vm_compute |]. done.
  - apply (bool_decide_unpack _). vm_compute. exact I.
  - intros p c [[-> ->]|[-> ->]]%demo_entry; (split; [set_solver |]); split; (split; [| by auto]); split; vm_compute; done.
  - intros p q c c' [[-> ->]|[-> ->]]%demo_entry [[-> ->]|[-> ->]]%demo_entry; done.
  - intros p c [[-> ->]|[-> ->]]%demo_entry; vm_compute; done.
Qed.
