(* ===== verification/DfsIo.v ===== *)
(** Reading and writing back the pages of a file ([fs/dfs.c]): what the
    functions of the file system do with the page cache. *)
From S2P Require Import Prelude Interfaces CString PageCache FsSim Dfs DfsDemo.

#[local] Opaque dma memset memcpy.

Section reading.
Context {St : Type} `{HL : FsServicesLaws St} (Hrel : reliable).
Implicit Types s : dfs St.

(** ** Reading a page *)

(** A lookup depends on the disk and on the stable memory of the path and of the
    inode of the directory only. *)
Lemma root_file_on (P : Z -> Prop) s s' fp name ino : root_file s fp name ino -> inode_table s' = inode_table s -> fs_block (d_env s') = fs_block (d_env s) ->
  (forall i, 0 <= i <= Z.of_nat (length name) + 1 -> P (fp + i)) -> (forall i, 0 <= i < sizeof_inode -> P (inode_table s + sizeof_inode + i)) ->
  (forall x, stable s x -> P x -> stable s' x /\ d_mem s' @@ x = d_mem s @@ x) -> root_file s' fp name ino.
Proof.
  intros [(Hb & H0 & Hnz) Hn Hst [Hty Hsz] Hdst Hent] Et Eb HPp HPd Hx.
  destruct (inode_same (d_mem s) (d_mem s') (inode_table s + sizeof_inode)) as (_ & E2 & E3 & E4); [intros i Hi; by apply Hx; [apply Hdst | apply HPd] |].
  split; rewrite ?Et, ?E2, ?E3, ?E4, ?Eb; try done.
  - simpl length in *. split; [| split; [| done]].
    + rewrite <- Hb at 2. apply bytes_ext. intros i Hi. apply Hx; [apply Hst | apply HPp]; lia.
    + rewrite <- H0. apply Hx; [apply Hst | apply HPp]; lia.
  - intros i Hi. by apply Hx; [apply Hst | apply HPp].
  - intros i Hi. by apply Hx; [apply Hdst | apply HPd].
Qed.

Lemma root_file_mono s s' fp name ino : root_file s fp name ino -> inode_table s' = inode_table s -> fs_block (d_env s') = fs_block (d_env s) ->
  (forall x, stable s x -> stable s' x /\ d_mem s' @@ x = d_mem s @@ x) -> root_file s' fp name ino.
Proof. intros. apply (root_file_on (fun _ => True) s); auto. Qed.

Lemma quiet_root_file s s' fp name ino : root_file s fp name ino -> quiet s s' -> root_file s' fp name ino.
Proof.
  intros Hrf Hq. apply (root_file_mono s); [done | by rewrite (qu_state _ _ Hq) | apply Hq |].
  intros x Hx. split; [by apply (quiet_stable s s') | by apply (qu_mem _ _ Hq), Hx].
Qed.

Lemma quiet_inv n l s s' : dfs_inv n l s -> quiet s s' -> fs_ok n (d_env s') -> dfs_inv n l s'.
Proof.
  intros [[_ Hc Hnd He Ha] Had] Hq Hok. destruct (quiet_entries _ _ Hq) as [E1 E2].
  split; [split; rewrite ?E1, ?E2; try done | by rewrite E1].
  intros p c Hp. change (pc_env (d_pc s')) with (d_env s'). rewrite (qu_obj _ _ Hq), (qu_page _ _ Hq). by apply He.
Qed.

(** A request for [size] bytes of a file, from byte [o] of its page [k] on and
    within this page; [buffer] is outside of the direct map. *)
Record page_request (fuel : nat) s (fp : Z) (name : list Z) (ino k o buffer size : Z) : Prop := {
  pr_file : root_file s fp name ino;
  pr_ino : ino <> 0 /\ forall i, 0 <= i < sizeof_inode -> stable s (ino + i);
  pr_size : 0 <= k /\ 0 <= o /\ 0 < size /\ o + size <= PAGE_SIZE_4KB /\ k * PAGE_SIZE_4KB + o + size <= inode_size (d_mem s) ino < 2 ^ 63;
  pr_buffer : 0 < buffer /\ (buffer + size <= DIRECT_OFFSET \/ DIRECT_OFFSET + 2 ^ 46 <= buffer);
  pr_fuel : (length name + 2 < fuel)%nat;
}.

Lemma page_request_on (P : Z -> Prop) fuel s s' fp name ino k o buffer size : page_request fuel s fp name ino k o buffer size ->
  inode_table s' = inode_table s -> fs_block (d_env s') = fs_block (d_env s) ->
  (forall i, 0 <= i <= Z.of_nat (length name) + 1 -> P (fp + i)) -> (forall i, 0 <= i < sizeof_inode -> P (inode_table s + sizeof_inode + i) /\ P (ino + i)) ->
  (forall x, stable s x -> P x -> stable s' x /\ d_mem s' @@ x = d_mem s @@ x) ->
  page_request fuel s' fp name ino k o buffer size /\
  inode_num (d_mem s') ino = inode_num (d_mem s) ino /\ start_block (d_mem s') ino = start_block (d_mem s) ino.
Proof.
  intros [Hrf [Hi0 Hist] Hsz Hb Hf] Et Eb HPp HPi Hx.
  destruct (inode_same (d_mem s) (d_mem s') ino) as (E1 & E2 & _ & E4); [intros i Hi; by apply Hx; [apply Hist | apply HPi] |].
  split; [split | done].
  - apply (root_file_on P s); try done. intros i Hi. by apply HPi.
  - split; [done |]. intros i Hi. by apply Hx; [apply Hist | apply HPi].
  - by rewrite E2.
  - done.
  - done.
Qed.

Lemma page_request_mono fuel s s' fp name ino k o buffer size : page_request fuel s fp name ino k o buffer size ->
  inode_table s' = inode_table s -> fs_block (d_env s') = fs_block (d_env s) ->
  (forall x, stable s x -> stable s' x /\ d_mem s' @@ x = d_mem s @@ x) ->
  page_request fuel s' fp name ino k o buffer size /\
  inode_num (d_mem s') ino = inode_num (d_mem s) ino /\ start_block (d_mem s') ino = start_block (d_mem s) ino.
Proof. intros. apply (page_request_on (fun _ => True) fuel s); auto. Qed.

(** Another part of the page, to another buffer. *)
Lemma page_request_other fuel s fp name ino k o o' buffer buffer' size : page_request fuel s fp name ino k o buffer size ->
  0 <= o' -> o' + size <= PAGE_SIZE_4KB -> k * PAGE_SIZE_4KB + o' + size <= inode_size (d_mem s) ino -> 0 < buffer' -> buffer' + size <= DIRECT_OFFSET ->
  page_request fuel s fp name ino k o' buffer' size.
Proof. intros [Hrf Hi (? & ? & ? & ? & ?) _ Hf] **. split; try done; [lia | split; [done | by left]]. Qed.

Lemma quiet_mono s s' : quiet s s' -> forall x, stable s x -> stable s' x /\ d_mem s' @@ x = d_mem s @@ x.
Proof. intros Hq x Hx. split; [by apply (quiet_stable s s') | by apply (qu_mem _ _ Hq), Hx]. Qed.

Lemma page_request_numbers k o size : 0 <= k -> 0 <= o -> 0 < size -> o + size <= PAGE_SIZE_4KB -> k * PAGE_SIZE_4KB + o + size < 2 ^ 63 ->
  page_base (k * PAGE_SIZE_4KB + o) / PAGE_SIZE_4KB = k /\ page_count (k * PAGE_SIZE_4KB + o) size = 1.
Proof.
  unfold page_count, page_base, PAGE_SIZE_4KB. intros Hk Ho Hs Hos Hb. rewrite land_page_mask by lia. unfold PAGE_SIZE_4KB.
  assert ((k * 4096 + o) / 4096 = k) as -> by dlia. split; [by apply Z.div_mul |].
  replace (k * 4096 + o + size - k * 4096) with (o + size) by lia. rewrite (u64_small (o + size)) by lia. rewrite u64_small by lia. dlia.
Qed.

(** ** Finding a page *)

(** What a write does to an entry of the cache leaves the list as it is. *)
Definition marks (mark : page_cache -> page_cache) : Prop := forall c,
  id (mark c) = id c /\ indx (mark c) = indx c /\ addr (mark c) = addr c /\ pc_next (mark c) = pc_next c.

Definition touched s (p : Z) (c : page_cache) : dfs St := set_d_pc (set_entries (<[p := c]> (entries (d_pc s))) (d_pc s)) s.

Lemma lookup_page_ext m m' i x l : (forall p, p ∈ l -> is_page m i x p <-> is_page m' i x p) -> lookup_page m i x l = lookup_page m' i x l.
Proof.
  induction l as [|p l IH]; intros Hm; [done |]. simpl. pose proof (Hm p ltac:(by left)) as Hp.
  assert (lookup_page m i x l = lookup_page m' i x l) as -> by (apply IH; intros q Hq; apply Hm; by right).
  repeat case_decide; try done; tauto.
Qed.

Lemma lookup_page_touched mark m i x l p c : marks mark -> m !! p = Some c -> lookup_page (<[p := mark c]> m) i x l = lookup_page m i x l.
Proof.
  intros Hm Hp. destruct (Hm c) as (E1 & E2 & _). apply lookup_page_ext. intros q _. unfold is_page. destruct (decide (p = q)) as [<-|Hne].
  - rewrite lookup_insert_eq, Hp. split; intros (c' & [= <-] & ? & ?); eexists; (split; [done |]); by rewrite ?E1, ?E2 in *.
  - by rewrite lookup_insert_ne by done.
Qed.

Lemma touched_inv mark n l s p c : marks mark -> dfs_inv n l s -> entries (d_pc s) !! p = Some c -> dfs_inv n l (touched s p (mark c)).
Proof.
  intros Hm [[Hok Hc Hnd He Ha] Had] Hp. destruct (Hm c) as (_ & _ & E3 & E4).
  assert (forall q d, <[p := mark c]> (entries (d_pc s)) !! q = Some d -> exists d', entries (d_pc s) !! q = Some d' /\ addr d = addr d') as Hq.
  { intros q d [[<- <-]|[Hne Hq]]%lookup_insert_Some; [by exists c | by exists d]. }
  split; [split |]; cbn [d_pc touched set_d_pc entries set_entries cache_list pc_env].
  - done.
  - apply (chain_ext (entries (d_pc s))); [done |]. intros q _. destruct (decide (p = q)) as [<-|Hne]; [| by rewrite lookup_insert_ne by done].
    rewrite lookup_insert_eq, Hp. simpl. by rewrite E4.
  - done.
  - intros q d (d' & Hd & ->)%Hq. by apply He.
  - intros q r d d2 (d' & Hd & ->)%Hq (d2' & Hd2 & ->)%Hq. by apply Ha.
  - intros q d (d' & Hd & ->)%Hq. by apply (Had q).
Qed.

Lemma wp_find_page mark n l s fuel num i (Q : list (option Z) -> dfs St -> Prop) : dfs_inv n l s -> (length l < fuel)%nat -> marks mark ->
  (let p := lookup_page (entries (d_pc s)) num i l in
   match entries (d_pc s) !! p with Some c => Q [Some (addr c)] (touched s p (mark c)) | None => Q [None] s end) ->
  wp (find_pages fuel 1 num i mark) Q s.
Proof.
  intros [[_ Hc _ He _] _] Hf Hm HQ. cbn [find_pages]. apply wp_bind, wp_zoom. eapply wp_mono; [by apply (wp_get_page_cache num i l)|].
  intros p pc [-> ->]. change (over l_d_pc (view l_d_pc s) s) with (set_d_pc (d_pc s) s).
  assert (set_d_pc (d_pc s) s = s) as -> by by destruct s. cbn [view l_d_pc].
  apply wp_bind. destruct (lookup_page_in (entries (d_pc s)) num i l) as [E|[Hin (c & Ec & _)]].
  - rewrite E in *. cbn [truthy negb Z.eqb]. apply wp_ret, wp_bind, wp_ret, wp_ret.
    cbn zeta in HQ. destruct (entries (d_pc s) !! 0) as [c|] eqn:E0; [| exact HQ]. destruct (He 0 c E0) as [H0 _].
    by destruct (chain_lookup _ _ _ _ Hc H0) as [_ ?].
  - destruct (chain_lookup _ _ _ _ Hc Hin) as [_ H0]. cbn zeta in HQ. set (p := lookup_page _ _ _ _) in *. rewrite (proj2 (truthy_true p) H0).
    rewrite Ec in HQ. destruct (Hm c) as (_ & _ & Ea & _).
    apply wp_bind, wp_zoom, (wp_upd_entry _ _ c); [done |]. apply wp_bind, wp_zoom, (wp_get_cached _ (mark c)); [by apply lookup_insert_eq |].
    apply wp_ret, wp_bind, wp_ret, wp_ret. by rewrite Ea.
Qed.

Lemma touched_same s p c : entries (d_pc s) !! p = Some c -> touched s p c = s.
Proof. destruct s as [[]]. unfold touched, set_d_pc, set_entries. cbn. intros Hp. by rewrite insert_id. Qed.

(** ** One round *)

(** Every round looks the file up and then the page. *)
Lemma wp_transfer_round mark flags move n h l rounds fuel s fp name ino k o buffer size (Q : Z -> dfs St -> Prop) :
  dfs_inv (S n, h) l s -> page_request fuel s fp name ino k o buffer size -> (length l < fuel)%nat -> marks mark ->
  (forall s1, quiet s s1 -> dfs_inv (S n, h) l s1 ->
     let p := lookup_page (entries (d_pc s)) (inode_num (d_mem s) ino) k l in
     match entries (d_pc s) !! p with
     | Some c => wp (move [Some (addr c)] buffer (k * PAGE_SIZE_4KB + o) size;; mret size) Q (touched s1 p (mark c))
     | None =>
         wp (ok ← fetch_pages [None] (inode_num (d_mem s) ino) (start_block (d_mem s) ino) k flags;
             if negb ok then mret 0 else dfs_transfer rounds fuel mark flags move fp buffer (k * PAGE_SIZE_4KB + o) size) Q s1
     end) ->
  wp (dfs_transfer (S rounds) fuel mark flags move fp buffer (k * PAGE_SIZE_4KB + o) size) Q s.
Proof.
  intros Hinv Hreq Hl Hm HQ. pose proof Hreq as [Hrf [Hi0 Hist] (Hk & Ho & Hs & Hos & Hsz) [Hb0 Hb] Hf2]. cbn [dfs_transfer].
  rewrite (proj2 (truthy_true buffer)), (proj2 (truthy_true size)) by lia. cbn [negb orb].
  apply wp_bind. eapply wp_mono; [apply (wp_get_inode_root Hrel n h fuel fp name ino); [done | apply (di_cache _ _ _ Hinv) | done] |].
  intros r s1 (-> & Hq & Hok1). rewrite (proj2 (truthy_true ino) Hi0). cbn [negb]. apply wp_bind, wp_gets.
  destruct (page_request_mono fuel s s1 fp name ino k o buffer size Hreq) as (_ & En & Es); [by rewrite (qu_state _ _ Hq) | apply Hq | by apply quiet_mono |].
  destruct (inode_same (d_mem s) (d_mem s1) ino) as (_ & E2 & _); [intros i Hi; by apply (quiet_mono s s1), Hist |].
  rewrite E2, En, Es. rewrite (proj2 (Z.ltb_ge _ _)) by lia. destruct (page_request_numbers k o size) as [-> ->]; [lia .. |].
  assert (u64 (k * PAGE_SIZE_4KB + o + size) = k * PAGE_SIZE_4KB + o + size) as -> by (apply u64_small; unfold PAGE_SIZE_4KB in *; lia).
  rewrite (proj2 (Z.ltb_ge _ _)) by lia.
  pose proof (quiet_inv _ _ _ _ Hinv Hq Hok1) as Hinv1. destruct (quiet_entries _ _ Hq) as [Ee _].
  apply wp_bind. change (Z.to_nat 1) with 1%nat. apply (wp_find_page mark (S n, h) l); [done | done | done |]. rewrite Ee.
  specialize (HQ s1 Hq Hinv1). cbn zeta in *. destruct (entries (d_pc s) !! _) as [c|]; cbn [forallb].
  - rewrite bool_decide_true by by eexists. exact HQ.
  - rewrite bool_decide_false by by intros [? [=]]. exact HQ.
Qed.

(** ** A page that is not cached *)

Record fetched (n : nat * nat) (l : list Z) s (sector num k flags p a : Z) s' : Prop := {
  fe_inv : dfs_inv n (p :: l) s';
  fe_new : (p ∉ l) /\ 0 < a < 2 ^ 46 /\ a mod PAGE_SIZE_4KB = 0 /\ ~ fs_page (d_env s) a;
  fe_entries : entries (d_pc s') = <[p := PageCache num k a flags (cache_list (d_pc s))]> (entries (d_pc s));
  fe_table : inode_table s' = inode_table s;
  fe_files : files s' = files s;
  fe_block : fs_block (d_env s') = fs_block (d_env s);
  fe_data i : 0 <= i < PAGE_SIZE_4KB -> d_mem s' @@ (a + DIRECT_OFFSET + i) = fs_block (d_env s) sector i;
  fe_kept x : kept s x -> kept s' x /\ d_mem s' @@ x = d_mem s @@ x;
}.

Lemma fetched_stable n l s sector num k flags p a s' x : fetched n l s sector num k flags p a s' -> stable s x -> stable s' x /\ d_mem s' @@ x = d_mem s @@ x.
Proof.
  intros [_ (_ & Ha & Hal & Hnew) He _ _ _ _ Hk] [Hx Hc]. destruct (Hk x Hx) as [Hx' Hm]. split; [split |]; [done | | done].
  rewrite He. intros q c [[<- <-]|[Hne Hq]]%lookup_insert_Some; [| by apply (Hc q)]. cbn [addr]. intros Hin. by apply Hnew, Hx.
Qed.

Lemma wp_fetch_page n h l s num start k flags : dfs_inv (S n, S h) l s ->
  wp (fetch_pages [None] num start k flags) (fun r s' => r = true /\ exists p a, fetched (n, h) l s (u64 (k * 8 + start * 8)) num k flags p a s') s.
Proof.
  intros [Hc Had]. cbn [fetch_pages default]. change (truthy 0) with false. cbn iota.
  apply wp_bind, wp_zoom. eapply wp_mono; [apply (wp_fs_alloc_page n (S h)), (ci_ok _ _ _ Hc) |]. cbn [view over l_d_env lens_compose].
  intros a e (Hok1 & Ha0 & Hal & Har & Hfresh & Hpg & Hob & Hbl). change (over l_d_pc _ s) with (set_d_pc (set_pc_env e (d_pc s)) s). set (s1 := set_d_pc _ s).
  apply wp_bind. eapply wp_mono; [by apply (wp_disk_read Hrel (n, S h) _ a s1)|]. intros st s2 (-> & [Est Hpg2 Hob2 Hbl2 Hd2 Hm2] & Hok2). cbn [negb Z.eqb].
  assert (d_env s1 = e /\ d_mem s1 = d_mem s) as [Ee Em] by done. rewrite Ee, Em in *.
  assert (d_env s = pc_env (d_pc s)) as Es by done. cbn [view l_d_pc] in Hpg, Hob, Hbl, Hfresh. change (view l_pc_env (view l_d_pc s)) with (d_env s) in *.
  assert (entries (d_pc s2) = entries (d_pc s) /\ cache_list (d_pc s2) = cache_list (d_pc s) /\ inode_table s2 = inode_table s /\ files s2 = files s) as (E1 & E2 & E3 & E4).
  { rewrite Est. by destruct s as [[]]. }
  apply wp_bind, wp_zoom. cbn [view l_d_pc]. destruct Hc as [_ Hch Hnd He Hinj].
  assert (forall p c, entries (d_pc s) !! p = Some c -> addr c <> a) as Hnew.
  { intros p c Hp <-. by apply Hfresh, (He p c). }
  eapply wp_mono; [apply (wp_add_page n h l num k a flags (d_pc s2)) |].
  - split; rewrite ?E1, ?E2; try done. intros p c Hp. change (pc_env (d_pc s2)) with (d_env s2). rewrite Hob2, Hob, Hpg2, Hpg.
    destruct (He p c Hp) as (? & ? & ?). auto.
  - change (pc_env (d_pc s2)) with (d_env s2). rewrite Hpg2, Hpg. by left.
  - rewrite E1. exact Hnew.
  - intros [] pc (p & Hpl & Hci & Een & Hbl3 & Hpg3). apply wp_ret. split; [done |]. exists p, a. rewrite E1, E2 in Een.
    split; cbn [over l_d_pc d_pc set_d_pc d_mem inode_table].
    + split; cbn [d_pc set_d_pc]; [done |]. rewrite Een. intros q c [[<- <-]|[Hne Hq]]%lookup_insert_Some; [by split | by apply (Had q)].
    + split; [done |]. split; [done |]. by split.
    + exact Een.
    + exact E3.
    + exact E4.
    + change (d_env (set_d_pc pc s2)) with (pc_env pc). rewrite Hbl3. change (pc_env (d_pc s2)) with (d_env s2). by rewrite Hbl2, Hbl.
    + intros i Hi. rewrite Hd2 by done. by rewrite Hbl.
    + intros x Hx. split.
      * intros q Hq1 Hq2 Hq3. change (d_env (set_d_pc pc s2)) with (pc_env pc). rewrite Hpg3. change (pc_env (d_pc s2)) with (d_env s2).
        rewrite Hpg2, Hpg. right. by apply Hx.
      * rewrite Hm2; [done |]. intros Hin. by apply Hfresh, Hx.
Qed.

(** After the miss the next round finds the page. *)
Lemma wp_transfer_miss mark flags move n h l rounds fuel s fp name ino k o buffer size (Q : Z -> dfs St -> Prop) :
  dfs_inv (S (S n), S h) l s -> page_request fuel s fp name ino k o buffer size -> (S (length l) < fuel)%nat -> marks mark ->
  entries (d_pc s) !! lookup_page (entries (d_pc s)) (inode_num (d_mem s) ino) k l = None ->
  (forall s1 s2 s3 p a, quiet s s1 -> fetched (S n, h) l s1 (u64 (k * 8 + start_block (d_mem s) ino * 8)) (inode_num (d_mem s) ino) k flags p a s2 ->
     quiet s2 s3 -> dfs_inv (S n, h) (p :: l) s3 ->
     wp (move [Some a] buffer (k * PAGE_SIZE_4KB + o) size;; mret size) Q
       (touched s3 p (mark (PageCache (inode_num (d_mem s) ino) k a flags (cache_list (d_pc s)))))) ->
  wp (dfs_transfer (S (S rounds)) fuel mark flags move fp buffer (k * PAGE_SIZE_4KB + o) size) Q s.
Proof.
  intros Hinv Hreq Hl Hm Hnone HQ. apply (wp_transfer_round mark flags move (S n) (S h) l (S rounds) fuel s fp name ino); [done | done | lia | done |].
  intros s1 Hq Hinv1. cbn zeta. rewrite Hnone. apply wp_bind. eapply wp_mono; [by apply (wp_fetch_page (S n) h l)|].
  intros b s2 (-> & p & a & Hfe). cbn [negb].
  destruct (page_request_mono fuel s s2 fp name ino k o buffer size Hreq) as (Hreq2 & En & _).
  - rewrite (fe_table _ _ _ _ _ _ _ _ _ _ Hfe). by rewrite (qu_state _ _ Hq).
  - rewrite (fe_block _ _ _ _ _ _ _ _ _ _ Hfe). apply Hq.
  - intros x [Hx Ex]%(quiet_mono s s1 Hq). destruct (fetched_stable _ _ _ _ _ _ _ _ _ _ x Hfe Hx) as [? ->]. done.
  - apply (wp_transfer_round mark flags move n h (p :: l) rounds fuel s2 fp name ino); [apply Hfe | done | simpl; lia | done |].
    intros s3 Hq3 Hinv3. cbn zeta. rewrite En, (fe_entries _ _ _ _ _ _ _ _ _ _ Hfe). cbn [lookup_page].
    rewrite decide_True by (eexists; split; [apply lookup_insert_eq | done]). rewrite lookup_insert_eq. cbn [addr].
    destruct (quiet_entries _ _ Hq) as [_ ->]. by apply (HQ s1 s2 s3).
Qed.

(** ** The page in memory *)

(** The state in which the bytes are copied: the page is entry [p] of the cache,
    [c], with the bytes of the file. *)
Record ready (m : nat * nat) (l : list Z) s (ino k : Z) (l' : list Z) s' (p : Z) (c : page_cache) : Prop := {
  rd_inv : dfs_inv m l' s';
  rd_len : (length l' <= S (length l))%nat;
  rd_entry : entries (d_pc s') !! p = Some c;
  rd_page : lookup_page (entries (d_pc s')) (inode_num (d_mem s) ino) k l' = p;
  rd_table : inode_table s' = inode_table s;
  rd_files : files s' = files s;
  rd_block : fs_block (d_env s') = fs_block (d_env s);
  rd_kept x : kept s x -> kept s' x /\ d_mem s' @@ x = d_mem s @@ x;
  rd_stable x : stable s x -> stable s' x;
  rd_data j : 0 <= j < PAGE_SIZE_4KB -> d_mem s' @@ (addr c + DIRECT_OFFSET + j) = file_byte s l ino k j;
}.

Lemma page_kept s p j : fs_page (d_env s) p -> p mod PAGE_SIZE_4KB = 0 -> 0 <= j < PAGE_SIZE_4KB -> kept s (p + DIRECT_OFFSET + j).
Proof.
  intros Hp Hal Hj q _ Hq Hin. assert (q = p) as -> by (unfold in_page, PAGE_SIZE_4KB in *; dlia). done.
Qed.

(** What is left of the budget of pages and objects. *)
Definition left_over (n h : nat) (m : nat * nat) : Prop := (n < m.1)%nat /\ (h <= m.2)%nat.

Lemma wp_transfer_page mark flags move n h l rounds fuel s fp name ino k o buffer size (Q : Z -> dfs St -> Prop) :
  dfs_inv (S (S n), S h) l s -> page_request fuel s fp name ino k o buffer size -> (S (length l) < fuel)%nat -> marks mark ->
  (forall m l' s' p c, left_over n h m -> ready m l s ino k l' s' p c ->
     wp (move [Some (addr c)] buffer (k * PAGE_SIZE_4KB + o) size;; mret size) Q (touched s' p (mark c))) ->
  wp (dfs_transfer (S (S rounds)) fuel mark flags move fp buffer (k * PAGE_SIZE_4KB + o) size) Q s.
Proof.
  intros Hinv Hreq Hl Hm HQ. set (p := lookup_page (entries (d_pc s)) (inode_num (d_mem s) ino) k l).
  destruct (entries (d_pc s) !! p) as [c|] eqn:Hc.
  - apply (wp_transfer_round mark flags move (S n) (S h) l (S rounds) fuel s fp name ino); [done | done | lia | done |].
    intros s1 Hq Hinv1. cbn zeta. change (lookup_page _ _ _ _) with p. rewrite Hc. destruct (quiet_entries _ _ Hq) as [Ee _].
    destruct (di_addr _ _ _ Hinv p c Hc) as [Har Hal]. destruct (ci_entry _ _ _ (di_cache _ _ _ Hinv) p c Hc) as (_ & _ & Hpg).
    apply (HQ (S (S n), S h) l); [split; simpl; lia |]. split; try (rewrite Ee); try done.
    + lia.
    + by rewrite (qu_state _ _ Hq).
    + by rewrite (qu_state _ _ Hq).
    + apply Hq.
    + intros x Hx. split; [by apply (quiet_kept s s1) | by apply Hq].
    + intros x Hx. by apply (quiet_stable s s1).
    + intros j Hj. unfold file_byte. change (lookup_page _ _ _ _) with p. rewrite Hc. by apply (qu_mem _ _ Hq), page_kept.
  - apply (wp_transfer_miss mark flags move n h l rounds fuel s fp name ino); [done .. |].
    intros s1 s2 s3 q a Hq Hfe Hq3 Hinv3. destruct (quiet_entries _ _ Hq) as [Ee El]. destruct (quiet_entries _ _ Hq3) as [Ee3 _].
    pose proof Hfe as [Hinv2 (Hql & Har & Hal & Hnew) Een Et Ef Eb Hd Hk]. rewrite Ee, El in Een. set (c := PageCache _ _ _ _ _) in *.
    apply (HQ (S n, h) (q :: l) s3 q c); [split; simpl; lia |]. split; rewrite ?Ee3, ?Een; try done.
    + apply lookup_insert_eq.
    + cbn [lookup_page]. rewrite decide_True; [done |]. exists c. split; [apply lookup_insert_eq | done].
    + rewrite (qu_state _ _ Hq3). change (inode_table s2 = inode_table s). rewrite Et, (qu_state _ _ Hq). done.
    + rewrite (qu_state _ _ Hq3). change (files s2 = files s). rewrite Ef, (qu_state _ _ Hq). done.
    + rewrite (qu_block _ _ Hq3), Eb. apply Hq.
    + intros x Hx. pose proof (proj1 (quiet_kept s s1 x Hq) Hx) as Hx1. destruct (Hk x Hx1) as [Hx2 Em2].
      split; [by apply (quiet_kept s2 s3) |]. by rewrite (qu_mem _ _ Hq3), Em2, (qu_mem _ _ Hq).
    + intros x Hx. apply (quiet_stable s2 s3); [done |]. apply (fetched_stable _ _ _ _ _ _ _ _ _ _ _ Hfe). by apply (quiet_stable s s1).
    + intros j Hj. change (addr c) with a. unfold file_byte. change (lookup_page _ _ _ _) with p. rewrite Hc.
      assert (fs_page (d_env s2) a) as Hpg by (apply (ci_entry _ _ _ (di_cache _ _ _ Hinv2) q c); rewrite Een; apply lookup_insert_eq).
      rewrite (qu_mem _ _ Hq3) by by apply page_kept. rewrite Hd by done. by rewrite (qu_block _ _ Hq).
Qed.

Lemma buffer_kept fuel s fp name ino k o buffer size i : page_request fuel s fp name ino k o buffer size -> 0 <= i < size -> kept s (buffer + i).
Proof. intros [_ _ _ [_ Hb] _] Hi p Hp Hal Hin. unfold in_page, DIRECT_OFFSET, PAGE_SIZE_4KB in *. clear - Hb Hi Hp Hal Hin. dlia. Qed.

Lemma page_end p : 0 < p < 2 ^ 46 -> p mod PAGE_SIZE_4KB = 0 -> p + PAGE_SIZE_4KB <= 2 ^ 46.
Proof. unfold PAGE_SIZE_4KB. intros Hp Hal. clear - Hp Hal. dlia. Qed.

Lemma wp_copy d a n s (Q : unit -> dfs St -> Prop) : n < 2 ^ 47 -> Q tt (set_d_mem (memcpy (Z.to_nat n) d a (d_mem s)) s) -> wp (copy d a n) Q s.
Proof. intros Hn HQ. unfold copy. rewrite (proj2 (Z.ltb_lt _ _) Hn). by apply wp_modify. Qed.

(** ** Reading *)

(** [size] bytes from the start of page [k] of a file have been read to
    [buffer]; the page is in the cache. *)
Record did_read (m : nat * nat) (l : list Z) s (ino k buffer size : Z) (l' : list Z) s' : Prop := {
  dr_inv : dfs_inv m l' s';
  dr_len : (length l' <= S (length l))%nat;
  dr_table : inode_table s' = inode_table s;
  dr_files : files s' = files s;
  dr_block : fs_block (d_env s') = fs_block (d_env s);
  dr_stable x : stable s x -> stable s' x /\ (~ (buffer <= x < buffer + size) -> d_mem s' @@ x = d_mem s @@ x);
  dr_data j : 0 <= j < size -> d_mem s' @@ (buffer + j) = file_byte s l ino k j;
  dr_page c : entries (d_pc s') !! lookup_page (entries (d_pc s')) (inode_num (d_mem s) ino) k l' = Some c ->
    forall j, 0 <= j < PAGE_SIZE_4KB -> d_mem s' @@ (addr c + DIRECT_OFFSET + j) = file_byte s l ino k j;
  dr_cached : is_Some (entries (d_pc s') !! lookup_page (entries (d_pc s')) (inode_num (d_mem s) ino) k l');
}.

Lemma wp_dfs_read_page n h l rounds fuel s fp name ino k o buffer size :
  dfs_inv (S (S n), S h) l s -> page_request fuel s fp name ino k o buffer size -> (S (length l) < fuel)%nat ->
  wp (dfs_read (S (S rounds)) fuel fp buffer (k * PAGE_SIZE_4KB + o) size) (fun r s' => r = size /\
    exists m l', left_over n h m /\ did_read m l s ino k buffer size l' s') s.
Proof.
  intros Hinv Hreq Hl. unfold dfs_read. apply (wp_transfer_page (fun c => c) 0 copy_from_pages n h l rounds fuel s fp name ino); [done .. |].
  intros m l' s' p c Hm Hrd. pose proof Hreq as [_ _ (_ & Ho & Hs & Hos & _) [_ Hb] _].
  pose proof Hrd as [Hinv' Hlen Hc Hpage Et Ef Eb Hk Hst Hd]. destruct (di_addr _ _ _ Hinv' p c Hc) as [Har Hal].
  pose proof (page_end _ Har Hal) as Hend. rewrite touched_same by done.
  apply wp_bind. unfold copy_from_pages. cbn [length Z.of_nat Z.eqb]. change (page_at [Some (addr c)] 0) with (addr c).
  rewrite direct_addr by done. apply wp_copy; [unfold PAGE_SIZE_4KB in *; lia |]. apply wp_ret. split; [done |]. exists m, l'. split; [done |].
  assert (forall x, memcpy (Z.to_nat size) buffer (addr c + DIRECT_OFFSET) (d_mem s') @@ x =
    if decide (buffer <= x < buffer + size) then d_mem s' @@ (x - buffer + (addr c + DIRECT_OFFSET)) else d_mem s' @@ x) as Hcpy.
  { intros x. rewrite memcpy_spec by (unfold PAGE_SIZE_4KB, DIRECT_OFFSET in *; lia). by rewrite Z2Nat.id by lia. }
  set (m1 := memcpy _ _ _ _) in *. clearbody m1. change (entries (d_pc (set_d_mem m1 s'))) with (entries (d_pc s')).
  split; try done; cbn [d_mem d_pc set_d_mem].
  - destruct Hinv'. by split.
  - intros x Hx. split; [by apply Hst |]. intros Hn. rewrite Hcpy, decide_False by done. by apply Hk, Hx.
  - intros j Hj. rewrite Hcpy, decide_True by lia. rewrite <- Hd by (unfold PAGE_SIZE_4KB in *; lia). f_equal. lia.
  - rewrite Hpage, Hc. intros ? [= <-] j Hj. rewrite Hcpy, decide_False; [by apply Hd |]. unfold PAGE_SIZE_4KB, DIRECT_OFFSET in *. lia.
  - rewrite Hpage, Hc. by eexists.
Qed.

(** ** Writing *)

Definition dirty (c : page_cache) : page_cache := set_pc_flags (Z.lor (pc_flags c) DIRTY_FLAG) c.

Lemma dirty_marks : marks dirty.
Proof. done. Qed.

(** [size] bytes at [buffer] have become bytes [o ..] of the first page of the
    file, which is in the cache and dirty. *)
Record wrote (m : nat * nat) (l : list Z) s (ino o buffer size : Z) (l' : list Z) s' : Prop := {
  wr_inv : dfs_inv m l' s';
  wr_len : (length l' <= S (length l))%nat;
  wr_table : inode_table s' = inode_table s;
  wr_files : files s' = files s;
  wr_block : fs_block (d_env s') = fs_block (d_env s);
  wr_stable x : stable s x -> stable s' x /\ d_mem s' @@ x = d_mem s @@ x;
  wr_byte j : 0 <= j < PAGE_SIZE_4KB ->
    file_byte s' l' ino 0 j = if decide (o <= j < o + size) then d_mem s @@ (buffer + (j - o)) else file_byte s l ino 0 j;
  wr_dirty : exists c, entries (d_pc s') !! lookup_page (entries (d_pc s')) (inode_num (d_mem s) ino) 0 l' = Some c /\
    Z.testbit (pc_flags c) 0 = true;
}.

Lemma wp_dfs_write_page n h l rounds fuel s fp name ino o buffer size :
  dfs_inv (S (S n), S h) l s -> page_request fuel s fp name ino 0 o buffer size -> (S (length l) < fuel)%nat ->
  wp (dfs_write (S (S rounds)) fuel fp buffer o size) (fun r s' => r = size /\
    exists m l', left_over n h m /\ wrote m l s ino o buffer size l' s') s.
Proof.
  intros Hinv Hreq Hl. unfold dfs_write. change (fun c : page_cache => _) with dirty. replace o with (0 * PAGE_SIZE_4KB + o) at 1 by lia.
  apply (wp_transfer_page dirty DIRTY_FLAG copy_to_pages n h l rounds fuel s fp name ino); [done | done | done | apply dirty_marks |].
  intros m l' s' p c Hm Hrd. pose proof Hreq as [_ [_ Hist] (_ & Ho & Hs & Hos & _) [_ Hb] _].
  destruct (di_addr _ _ _ (rd_inv _ _ _ _ _ _ _ _ _ Hrd) p c) as [Har Hal]; [apply Hrd |]. pose proof (page_end _ Har Hal) as Hend.
  apply wp_bind. unfold copy_to_pages. cbn [length Z.of_nat Z.eqb]. change (page_at [Some (addr c)] 0) with (addr c).
  rewrite direct_addr by done. replace (0 * PAGE_SIZE_4KB + o) with o by lia.
  assert (u64 (addr c + DIRECT_OFFSET + o) = addr c + DIRECT_OFFSET + o) as -> by (apply u64_small; unfold PAGE_SIZE_4KB, DIRECT_OFFSET in *; lia).
  apply wp_copy; [unfold PAGE_SIZE_4KB in *; lia |]. apply wp_ret. split; [done |]. exists m, l'. split; [done |].
  change (d_mem (touched s' p (dirty c))) with (d_mem s').
  assert (forall x, memcpy (Z.to_nat size) (addr c + DIRECT_OFFSET + o) buffer (d_mem s') @@ x =
    if decide (addr c + DIRECT_OFFSET + o <= x < addr c + DIRECT_OFFSET + o + size) then d_mem s' @@ (x - (addr c + DIRECT_OFFSET + o) + buffer)
    else d_mem s' @@ x) as Hcpy.
  { intros x. rewrite memcpy_spec by (unfold PAGE_SIZE_4KB, DIRECT_OFFSET in *; lia). by rewrite Z2Nat.id by lia. }
  set (m1 := memcpy _ _ _ _) in *. clearbody m1. pose proof Hrd as [Hinv' Hlen Hc Hpage Et Ef Eb Hk Hst Hd].
  assert (forall x, stable s x -> m1 @@ x = d_mem s @@ x) as Hm1.
  { intros x Hx. rewrite Hcpy, decide_False; [by apply Hk, Hx |]. intros Hin. apply (proj2 (Hst x Hx) p c Hc). unfold in_page. lia. }
  assert (entries (d_pc (set_d_mem m1 (touched s' p (dirty c)))) = <[p := dirty c]> (entries (d_pc s'))) as Ee by done.
  assert (inode_num m1 ino = inode_num (d_mem s) ino) as En by (apply (inode_same (d_mem s) m1); intros i Hi; by apply Hm1, Hist).
  split; try done.
  - destruct (touched_inv dirty _ _ _ _ _ dirty_marks Hinv' Hc). by split.
  - intros x Hx. split; [| by apply Hm1]. destruct (Hst x Hx) as [Hx1 Hx2]. split; [exact Hx1 |]. rewrite Ee.
    intros q d [[<- <-]|[Hne Hq]]%lookup_insert_Some; [by apply (Hx2 p c) | by apply (Hx2 q)].
  - intros j Hj. unfold file_byte at 1. rewrite Ee. cbn [d_mem set_d_mem]. rewrite En, (lookup_page_touched dirty), Hpage by (apply dirty_marks || done).
    rewrite lookup_insert_eq. change (addr (dirty c)) with (addr c). rewrite Hcpy.
    destruct (decide (o <= j < o + size)) as [Hin|Hin].
    + rewrite decide_True by lia. replace (addr c + DIRECT_OFFSET + j - (addr c + DIRECT_OFFSET + o) + buffer) with (buffer + (j - o)) by lia.
      apply Hk, (buffer_kept fuel s fp name ino 0 o buffer size); [done | lia].
    + rewrite decide_False by lia. by apply Hd.
  - exists (dirty c). rewrite Ee, (lookup_page_touched dirty), Hpage by (apply dirty_marks || done). rewrite lookup_insert_eq. split; [done |].
    unfold dirty, DIRTY_FLAG. cbn [pc_flags set_pc_flags]. rewrite Z.lor_spec. by rewrite orb_true_r.
Qed.

(** What was written is read again. *)
Lemma wp_dfs_write_read n h l fuel s fp name ino buffer buffer' size :
  dfs_inv (S (S n), S h) l s -> (1 <= n)%nat -> (1 <= h)%nat -> page_request fuel s fp name ino 0 0 buffer size -> (S (S (length l)) < fuel)%nat ->
  0 < buffer' -> buffer' + size <= DIRECT_OFFSET \/ DIRECT_OFFSET + 2 ^ 46 <= buffer' ->
  wp (_ ← dfs_write 2 fuel fp buffer 0 size; dfs_read 2 fuel fp buffer' 0 size) (fun r s' => r = size /\
    forall j, 0 <= j < size -> d_mem s' @@ (buffer' + j) = d_mem s @@ (buffer + j)) s.
Proof.
  intros Hinv Hn Hh Hreq Hl Hb0 Hb. apply wp_bind. eapply wp_mono; [by apply (wp_dfs_write_page n h l 0 fuel s fp name ino); [.. | lia] |].
  intros r s1 (-> & m & l1 & Hm & Hw). destruct (page_request_mono fuel s s1 fp name ino 0 0 buffer size Hreq) as (Hreq1 & _); [apply Hw .. |].
  pose proof (wr_len _ _ _ _ _ _ _ _ _ Hw) as Hlen. pose proof Hreq as [_ _ (_ & _ & Hs & Hos & _) _ _].
  destruct m as [[|[|m]] [|h']], Hm as [? ?]; simpl in *; [lia .. |]. eapply wp_mono; [apply (wp_dfs_read_page m h' l1 0 fuel s1 fp name ino 0 0 buffer' size) |].
  - apply Hw.
  - destruct Hreq1; by split.
  - lia.
  - intros r s2 (-> & ? & ? & _ & Hdr). split; [done |]. intros j Hj. rewrite (dr_data _ _ _ _ _ _ _ _ _ Hdr) by done. rewrite (wr_byte _ _ _ _ _ _ _ _ _ Hw) by lia.
    rewrite decide_True by lia. f_equal. lia.
Qed.

End reading.

(** * Theorems *)

Section theorems.
Context {St : Type} `{HL : FsServicesLaws St}.
Implicit Types s : dfs St.

(** The path of a file in the root directory is resolved to the inode of the
    last entry whose name starts with the component; the search gives back the
    page it uses and changes nothing that is in use. *)
Theorem dfs_get_inode_finds n h fuel fp name ino s : reliable -> root_file s fp name ino -> fs_ok (S n, h) (d_env s) -> (length name + 2 < fuel)%nat ->
  wp (dfs_get_inode fuel fp) (fun r s' => r = ino /\ quiet s s' /\ fs_ok (S n, h) (d_env s')) s.
Proof. intros Hrel. by apply wp_get_inode_root. Qed.

(** C17: a read within one page of a file returns its size and gives the bytes of
    that page, from the cache or, the first time, from the disk; it starts at
    the start of the page, wherever in the page it was asked to start. *)
Theorem dfs_read_page n h l rounds fuel s fp name ino k o buffer size : reliable ->
  dfs_inv (S (S n), S h) l s -> page_request fuel s fp name ino k o buffer size -> (S (length l) < fuel)%nat ->
  wp (dfs_read (S (S rounds)) fuel fp buffer (k * PAGE_SIZE_4KB + o) size) (fun r s' => r = size /\
    exists m l', left_over n h m /\ did_read m l s ino k buffer size l' s') s.
Proof. intros Hrel. by apply wp_dfs_read_page. Qed.

(** C18: a write within the first page of a file returns its size, stores the
    bytes of the buffer there, in the cache, leaves the other bytes of the page
    and all memory that is not of the cache as they were, and marks the page
    dirty. *)
Theorem dfs_write_page n h l rounds fuel s fp name ino o buffer size : reliable ->
  dfs_inv (S (S n), S h) l s -> page_request fuel s fp name ino 0 o buffer size -> (S (length l) < fuel)%nat ->
  wp (dfs_write (S (S rounds)) fuel fp buffer o size) (fun r s' => r = size /\
    exists m l', left_over n h m /\ wrote m l s ino o buffer size l' s') s.
Proof. intros Hrel. by apply wp_dfs_write_page. Qed.

(** What is written at the start of a file is what is read there next. *)
Theorem dfs_write_read n h l fuel s fp name ino buffer buffer' size : reliable ->
  dfs_inv (S (S n), S h) l s -> (1 <= n)%nat -> (1 <= h)%nat -> page_request fuel s fp name ino 0 0 buffer size -> (S (S (length l)) < fuel)%nat ->
  0 < buffer' -> buffer' + size <= DIRECT_OFFSET \/ DIRECT_OFFSET + 2 ^ 46 <= buffer' ->
  wp (_ ← dfs_write 2 fuel fp buffer 0 size; dfs_read 2 fuel fp buffer' 0 size) (fun r s' => r = size /\
    forall j, 0 <= j < size -> d_mem s' @@ (buffer' + j) = d_mem s @@ (buffer + j)) s.
Proof. intros Hrel. by apply wp_dfs_write_read. Qed.
End theorems.

(** * Witnesses *)

Lemma demo_request k o buffer size : 0 <= k <= 1 -> 0 <= o -> 0 < size -> o + size <= PAGE_SIZE_4KB -> 0 < buffer -> buffer + size <= DIRECT_OFFSET ->
  page_request 10 (demo_dfs ∅ 0) demo_path [97; 98] demo_inode k o buffer size.
Proof.
  intros. assert (inode_size (d_mem (demo_dfs ∅ 0)) demo_inode = 8192) as E by by vm_compute.
  split; [by apply demo_root | split | | |].
  - done.
  - intros i Hi. apply demo_stable; [done |]. unfold demo_inode, demo_table, sizeof_inode, DIRECT_OFFSET, PAGE_SIZE_4KB in *. lia.
  - rewrite E. unfold PAGE_SIZE_4KB in *. lia.
  - split; [done | by left].
  - simpl. lia.
Qed.

Lemma dfs_get_inode_finds_witness : wp (dfs_get_inode 10 demo_path)
  (fun r s' => r = demo_inode /\ quiet (demo_dfs ∅ 0) s' /\ fs_ok (4, 4)%nat (d_env s')) (demo_dfs ∅ 0).
Proof.
  apply (dfs_get_inode_finds 3 4 10 demo_path [97; 98]); [exact demo_reliable | by apply demo_root | exact demo_ok | simpl; lia].
Defined.

(** The second page of the file, read at offset 10, from its beginning. *)
Lemma dfs_read_page_witness : wp (dfs_read 2 10 demo_path 0x6000 (1 * PAGE_SIZE_4KB + 10) 100)
  (fun r s' => r = 100 /\ exists m l', left_over 2 3 m /\ did_read m [] (demo_dfs ∅ 0) demo_inode 1 0x6000 100 l' s') (demo_dfs ∅ 0) /\
  file_byte (demo_dfs ∅ 0) [] demo_inode 1 3 = (28672 + 3) mod 251.
Proof.
  split; [| by vm_compute]. apply (dfs_read_page 2 3 [] 0 10 (demo_dfs ∅ 0) demo_path [97; 98] demo_inode 1 10);
    [exact demo_reliable | exact demo_inv | apply demo_request; unfold PAGE_SIZE_4KB, DIRECT_OFFSET; lia | simpl; lia].
Defined.

Lemma dfs_write_page_witness : wp (dfs_write 2 10 demo_path 0x6000 7 100)
  (fun r s' => r = 100 /\ exists m l', left_over 2 3 m /\ wrote m [] (demo_dfs ∅ 0) demo_inode 7 0x6000 100 l' s') (demo_dfs ∅ 0).
Proof.
  apply (dfs_write_page 2 3 [] 0 10 (demo_dfs ∅ 0) demo_path [97; 98] demo_inode 7);
    [exact demo_reliable | exact demo_inv | apply demo_request; unfold PAGE_SIZE_4KB, DIRECT_OFFSET; lia | simpl; lia].
Defined.

Lemma dfs_write_read_witness : wp (_ ← dfs_write 2 10 demo_path demo_path 0 3; dfs_read 2 10 demo_path 0x7000 0 3)
  (fun r s' => r = 3 /\ forall j, 0 <= j < 3 -> d_mem s' @@ (0x7000 + j) = d_mem (demo_dfs ∅ 0) @@ (demo_path + j)) (demo_dfs ∅ 0).
Proof.
  apply (dfs_write_read 2 3 [] 10 (demo_dfs ∅ 0) demo_path [97; 98] demo_inode);
    [exact demo_reliable | exact demo_inv | lia | lia | apply demo_request; unfold PAGE_SIZE_4KB, DIRECT_OFFSET, demo_path; lia | simpl; lia | lia | unfold DIRECT_OFFSET; lia].
Defined.
