(* ===== verification/DfsSync.v ===== *)
(** Writing the dirty pages of a file back to disk ([dfs_file_sync] of
    [fs/dfs.c]). *)
From S2P Require Import Prelude Interfaces CString PageCache FsSim Dfs DfsDemo DfsIo.

(** * Specification *)

(** What is written back. *)
Definition flushable (c : page_cache) : bool :=
  truthy (Z.land (pc_flags c) DIRTY_FLAG) && negb (truthy (Z.land (pc_flags c) WRITEBACK_FLAG)).
Definition clean (c : page_cache) : page_cache := set_pc_flags (Z.ldiff (pc_flags c) DIRTY_FLAG) c.

Section syncing.
Context {St : Type} `{HL : FsServicesLaws St}.
Implicit Types s : dfs St.

(** The entry of a page of a file, and whether it waits to be written. *)
Definition page_entry (l : list Z) s (num x : Z) : Z := lookup_page (entries (d_pc s)) num x l.
Definition dirty_page (l : list Z) s (num x : Z) : bool :=
  match entries (d_pc s) !! page_entry l s num x with Some c => flushable c | None => false end.

(** The commands that write the dirty ones of the pages [xs] to disk, in their order,
    with the last argument but one the pages whose command the disk fails. *)
Inductive disk_run (l : list Z) s (num start : Z) : list Z -> St -> list Z -> St -> Prop :=
  | run_done e : disk_run l s num start [] e [] e
  | run_skip x xs e failed e' : dirty_page l s num x = false -> disk_run l s num start xs e failed e' ->
      disk_run l s num start (x :: xs) e failed e'
  | run_write x xs e c r e1 failed e' : entries (d_pc s) !! page_entry l s num x = Some c -> flushable c = true ->
      fs_write ((start + x) * 8) (fun j => d_mem s @@ (u64 (addr c + DIRECT_OFFSET) + j)) e = Ok (r, e1) ->
      disk_run l s num start xs e1 failed e' ->
      disk_run l s num start (x :: xs) e (if r =? 0 then failed else x :: failed) e'.

(** Pages [i .. i + n) of a file have been written back, but for the [failed] ones;
    nothing else has changed. *)
Record synced (m : nat * nat) (l : list Z) s (num start i n : Z) (failed : list Z) s' : Prop := {
  sy_inv : dfs_inv m l s';
  sy_mem : d_mem s' = d_mem s;
  sy_table : inode_table s' = inode_table s;
  sy_look num' x : page_entry l s' num' x = page_entry l s num' x;
  sy_run : disk_run l s num start (seqZ i n) (d_env s) failed (d_env s');
  sy_page x c : i <= x < i + n -> entries (d_pc s) !! page_entry l s num x = Some c ->
    entries (d_pc s') !! page_entry l s num x = Some (if flushable c && bool_decide (x ∉ failed) then clean c else c);
  sy_disk x c : i <= x < i + n -> entries (d_pc s) !! page_entry l s num x = Some c -> flushable c = true -> x ∉ failed ->
    forall j, 0 <= j < PAGE_SIZE_4KB -> fs_block (d_env s') ((start + x) * 8) j = d_mem s @@ (addr c + DIRECT_OFFSET + j);
  sy_entry q : (forall x, i <= x < i + n -> q <> page_entry l s num x) -> entries (d_pc s') !! q = entries (d_pc s) !! q;
  sy_block k j : k mod 8 = 0 -> 0 <= j < PAGE_SIZE_4KB ->
    (forall x, i <= x < i + n -> dirty_page l s num x = true -> x ∉ failed -> k <> (start + x) * 8) ->
    fs_block (d_env s') k j = fs_block (d_env s) k j;
}.

(** * Lemmas *)

Lemma clean_marks : marks clean.
Proof. done. Qed.

Lemma flushable_clean c : flushable (clean c) = false.
Proof.
  unfold flushable, clean. cbn [pc_flags set_pc_flags]. apply andb_false_iff. left. unfold truthy. apply negb_false_iff, Z.eqb_eq.
  apply Z.bits_inj'. intros i Hi. rewrite Z.land_spec, Z.ldiff_spec, Z.bits_0. by destruct (Z.testbit (pc_flags c) i), (Z.testbit DIRTY_FLAG i).
Qed.

Lemma writeback_clear f : truthy (Z.land f WRITEBACK_FLAG) = false -> Z.ldiff (Z.lor f WRITEBACK_FLAG) WRITEBACK_FLAG = f.
Proof.
  intros Hf. unfold truthy in Hf. apply negb_false_iff, Z.eqb_eq in Hf. apply Z.bits_inj'. intros i Hi. rewrite Z.ldiff_spec, Z.lor_spec.
  pose proof (f_equal (fun z => Z.testbit z i) Hf) as E. cbn beta in E. rewrite Z.land_spec, Z.bits_0 in E.
  by destruct (Z.testbit f i), (Z.testbit WRITEBACK_FLAG i).
Qed.

Lemma touched_twice s p c d : touched (touched s p c) p d = touched s p d.
Proof. destruct s as [[]]. unfold touched, set_d_pc, set_entries. cbn. by rewrite insert_insert_eq. Qed.

(** The state with another environment. *)
Definition with_env (e : St) s : dfs St := set_d_pc (set_pc_env e (d_pc s)) s.

Lemma with_env_inv n l e s : dfs_inv n l s -> fs_ok n e -> (forall p, fs_page e p <-> fs_page (d_env s) p) ->
  (forall a, fs_obj e a <-> fs_obj (d_env s) a) -> dfs_inv n l (with_env e s).
Proof.
  intros [[_ Hc Hnd He Ha] Had] Hok Hpg Hob. split; [split |]; try done. intros p c Hp. cbn [pc_env with_env d_pc set_d_pc set_pc_env].
  rewrite Hob, Hpg. by apply He.
Qed.

Lemma touched_env e s p c : touched (with_env e s) p c = with_env e (touched s p c).
Proof. by destruct s as [[]]. Qed.

Lemma wp_upd_touched p c f (Q : unit -> dfs St -> Prop) s : entries (d_pc s) !! p = Some c -> Q tt (touched s p (f c)) ->
  wp (zoom l_d_pc (upd_entry p f)) Q s.
Proof. intros Hp HQ. by apply wp_zoom, (wp_upd_entry _ _ c). Qed.

Lemma lookup_touched s p c : entries (d_pc (touched s p c)) !! p = Some c.
Proof. apply lookup_insert_eq. Qed.

(** The outcome of writing back the page of the entry [c] at [p]: the state, with [c']
    there, and the status. *)
Inductive written (s : dfs St) (p : Z) (c : page_cache) (sector : Z) : page_cache -> Z -> St -> Prop :=
  | written_not : flushable c = false -> written s p c sector c 0 (d_env s)
  | written_disk r e : flushable c = true ->
      fs_write sector (fun j => d_mem s @@ (u64 (addr c + DIRECT_OFFSET) + j)) (d_env s) = Ok (r, e) ->
      (r = 0 -> forall k j, k mod 8 = 0 -> 0 <= j < PAGE_SIZE_4KB ->
         fs_block e k j = if decide (k = sector) then d_mem s @@ (addr c + DIRECT_OFFSET + j) else fs_block (d_env s) k j) ->
      (r <> 0 -> fs_block e = fs_block (d_env s)) ->
      written s p c sector (if r =? 0 then clean c else c) r e.

Lemma wp_write_back n l s p c sector : dfs_inv n l s -> entries (d_pc s) !! p = Some c -> sector mod 8 = 0 ->
  wp (write_back p sector) (fun res s' => exists c' r e, written s p c sector c' r e /\ s' = with_env e (touched s p c') /\
    dfs_inv n l s' /\ res = (if r =? 0 then 0 else 1)) s.
Proof.
  intros Hinv Hp Hsec. destruct (di_addr _ _ _ Hinv p c Hp) as [Har Hal]. unfold write_back. apply wp_bind, wp_zoom, (wp_get_cached _ c); [done |].
  assert (over l_d_pc (view l_d_pc s) s = s) as -> by by destruct s as [[]]. change (truthy _ && _) with (flushable c).
  destruct (flushable c) eqn:Hfl.
  - pose proof Hfl as [_ Hwb%negb_true_iff]%andb_true_iff. apply wp_bind, (wp_upd_touched p c); [done |]. set (c1 := set_pc_flags _ c).
    unfold disk_write. apply wp_bind, wp_bind, wp_gets, wp_zoom. change (d_mem (touched s p c1)) with (d_mem s). change (addr c1) with (addr c).
    change (view l_d_env (touched s p c1)) with (d_env s).
    destruct (wp_ok _ _ _ (wp_fs_write n sector (fun j => d_mem s @@ (u64 (addr c + DIRECT_OFFSET) + j)) (d_env s) (ci_ok _ _ _ (di_cache _ _ _ Hinv))))
      as (r & e & E & Hok & Hr0 & Hr1 & Hpg & Hob). eapply wp_of_ok; [exact E |].
    change (over l_d_env e (touched s p c1)) with (with_env e (touched s p c1)). rewrite <- touched_env.
    apply wp_bind, (wp_upd_touched p c1); [apply lookup_touched |]. rewrite touched_twice.
    assert (set_pc_flags (Z.ldiff (pc_flags c1) WRITEBACK_FLAG) c1 = c) as ->.
    { unfold c1. destruct c. unfold set_pc_flags in *. cbn in *. by rewrite writeback_clear. }
    assert (written s p c sector (if r =? 0 then clean c else c) r e) as Hw.
    { apply written_disk; [done | done | | by apply Hr1]. intros Hr k j Hk Hj. rewrite (Hr0 Hr) by (done || dlia). by rewrite direct_addr. }
    destruct (Z.eqb_spec r 0) as [Hr|Hr]; cbn [negb].
    + apply wp_bind, (wp_upd_touched p c); [apply lookup_touched |]. change (set_pc_flags _ c) with (clean c). rewrite touched_twice, touched_env.
      apply wp_ret. exists (clean c), r, e. rewrite (proj2 (Z.eqb_eq _ _) Hr). split_and!; [done | done | | done].
      apply with_env_inv; [by apply touched_inv, Hp; [apply clean_marks |] | done ..].
    + apply wp_ret. exists c, r, e. rewrite touched_env, (proj2 (Z.eqb_neq _ _) Hr). split_and!; [done | done | | done].
      rewrite touched_same by done. by apply with_env_inv.
  - apply wp_ret. exists c, 0, (d_env s). rewrite touched_same by done. assert (with_env (d_env s) s = s) as -> by by destruct s as [[]].
    split; [by apply written_not | done].
Qed.

Lemma with_env_same s : with_env (d_env s) s = s.
Proof. by destruct s as [[]]. Qed.

(** Different pages of a file have different entries. *)
Lemma page_entry_inj n l s num x y : dfs_inv n l s -> page_entry l s num x = page_entry l s num y ->
  is_Some (entries (d_pc s) !! page_entry l s num x) -> x = y.
Proof.
  intros Hinv E [c Hc]. unfold page_entry in *. destruct (ci_entry _ _ _ (di_cache _ _ _ Hinv) _ c Hc) as [Hin _].
  destruct (chain_lookup _ _ _ _ (ci_chain _ _ _ (di_cache _ _ _ Hinv)) Hin) as [_ H0].
  destruct (lookup_page_in (entries (d_pc s)) num x l) as [?|[_ (c1 & E1 & _ & <-)]]; [done |].
  destruct (lookup_page_in (entries (d_pc s)) num y l) as [?|[_ (c2 & E2 & _ & <-)]]; [congruence |]. congruence.
Qed.

(** ** Runs *)

Lemma seqZ_one i : seqZ i 1 = [i].
Proof. by rewrite (seqZ_cons i) by lia. Qed.

Lemma dirty_page_eq l s s1 num x : entries (d_pc s1) !! page_entry l s1 num x = entries (d_pc s) !! page_entry l s num x ->
  dirty_page l s1 num x = dirty_page l s num x.
Proof. intros E. unfold dirty_page. by rewrite E. Qed.

Lemma disk_run_ext l s s1 num start xs e failed e' : d_mem s1 = d_mem s ->
  (forall x, x ∈ xs -> entries (d_pc s1) !! page_entry l s1 num x = entries (d_pc s) !! page_entry l s num x) ->
  disk_run l s1 num start xs e failed e' -> disk_run l s num start xs e failed e'.
Proof.
  intros Hm Hx. induction 1 as [|x xs e failed e' Hd _ IH|x xs e c r e1 failed e' Hc Hfl E _ IH].
  - apply run_done.
  - apply run_skip; [| apply IH; intros; apply Hx; by right]. rewrite <- Hd. symmetry. apply dirty_page_eq, Hx. by left.
  - rewrite Hm in E. eapply run_write; [| done | exact E | apply IH; intros; apply Hx; by right]. rewrite <- Hc. symmetry. apply Hx. by left.
Qed.

Lemma disk_run_app l s num start xs ys e f1 e1 f2 e2 : disk_run l s num start xs e f1 e1 -> disk_run l s num start ys e1 f2 e2 ->
  disk_run l s num start (xs ++ ys) e (f1 ++ f2) e2.
Proof.
  induction 1 as [|x xs e failed e' Hd _ IH|x xs e c r e' failed e'' Hc Hfl E _ IH]; intros H2; cbn [app].
  - done.
  - apply run_skip; [done | by apply IH].
  - replace ((if r =? 0 then failed else x :: failed) ++ f2) with (if r =? 0 then failed ++ f2 else x :: failed ++ f2) by (by destruct (r =? 0)).
    eapply run_write; [done | done | exact E | by apply IH].
Qed.

Lemma disk_run_failed l s num start xs e failed e' x : disk_run l s num start xs e failed e' -> x ∈ failed -> x ∈ xs.
Proof.
  induction 1 as [|y xs e failed e' _ _ IH|y xs e c r e1 failed e' _ _ _ _ IH]; intros Hx; [done | right; by apply IH |].
  destruct (r =? 0); [right; by apply IH |]. apply elem_of_cons in Hx as [->|Hx]; [by left | right; by apply IH].
Qed.

(** ** The loop *)

Lemma synced_refl m l s num start i : dfs_inv m l s -> synced m l s num start i 0 [] s.
Proof. intros Hinv. split; try done; [apply run_done | lia..]. Qed.

(** A page that is not in the cache. *)
Lemma synced_none m l s num start i : dfs_inv m l s -> entries (d_pc s) !! page_entry l s num i = None -> synced m l s num start i 1 [] s.
Proof.
  intros Hinv E. split; try done.
  - rewrite seqZ_one. apply run_skip; [| apply run_done]. unfold dirty_page. by rewrite E.
  - intros x c Hx Hc. assert (x = i) as -> by lia. congruence.
  - intros x c Hx Hc. assert (x = i) as -> by lia. congruence.
Qed.

(** One page of the cache. *)
Lemma synced_one m l s num start i c c' r e : entries (d_pc s) !! page_entry l s num i = Some c ->
  written s (page_entry l s num i) c ((start + i) * 8) c' r e ->
  dfs_inv m l (with_env e (touched s (page_entry l s num i) c')) ->
  synced m l s num start i 1 (if r =? 0 then [] else [i]) (with_env e (touched s (page_entry l s num i) c')).
Proof.
  set (p := page_entry l s num i). intros Hc Hw Hinv.
  assert (forall num' x, page_entry l (with_env e (touched s p c')) num' x = page_entry l s num' x) as Hl.
  { intros num' x. destruct Hw as [|r e _ _ _ _]; [by rewrite touched_same |]. destruct (r =? 0); [| by rewrite touched_same].
    by apply (lookup_page_touched clean); [apply clean_marks |]. }
  assert (forall q, q <> p -> entries (d_pc (with_env e (touched s p c'))) !! q = entries (d_pc s) !! q) as Hq.
  { intros q Hne. change (<[p := c']> (entries (d_pc s)) !! q = entries (d_pc s) !! q). by apply lookup_insert_ne. }
  assert (entries (d_pc (with_env e (touched s p c'))) !! p = Some c') as Hp by apply lookup_touched.
  set (s1 := with_env e (touched s p c')) in *. assert (d_mem s1 = d_mem s /\ inode_table s1 = inode_table s /\ d_env s1 = e) as (Em & Et & Ee) by done.
  clearbody s1. split; [done | done | done | done | | | | | ].
  - rewrite Ee. rewrite seqZ_one. destruct Hw as [Hfl|r e Hfl E Hr0 Hr1].
    + apply run_skip; [| apply run_done]. unfold dirty_page. fold p. by rewrite Hc.
    + eapply run_write; [exact Hc | done | exact E | apply run_done].
  - intros x d Hx Hd. assert (x = i) as -> by lia. fold p in Hd |- *. assert (d = c) as -> by congruence. rewrite Hp.
    destruct Hw as [Hfl|r e Hfl E Hr0 Hr1]; rewrite Hfl; [done |]. destruct (r =? 0); [by rewrite bool_decide_true by set_solver |].
    rewrite bool_decide_false; [done |]. set_solver.
  - intros x d Hx Hd Hfld Hnf j Hj. assert (x = i) as -> by lia. fold p in Hd. assert (d = c) as -> by congruence. rewrite Ee.
    destruct Hw as [Hfl|r e Hfl E Hr0 Hr1]; [congruence |]. destruct (Z.eqb_spec r 0) as [Hr|Hr]; [| set_solver].
    rewrite (Hr0 Hr) by (done || by apply Z.mod_mul). by rewrite decide_True.
  - intros q Hne. apply Hq, Hne. lia.
  - intros k j Hk Hj Hne. rewrite Ee. destruct Hw as [Hfl|r e Hfl E Hr0 Hr1]; [done |]. destruct (Z.eqb_spec r 0) as [Hr|Hr]; [| by rewrite Hr1].
    rewrite (Hr0 Hr) by done. rewrite decide_False; [done |]. apply Hne; [lia | | set_solver]. unfold dirty_page. fold p. by rewrite Hc.
Qed.

(** The first page, then the others. *)
Lemma synced_step m l s num start i n f1 f2 s1 s2 :
  (forall x y, page_entry l s num x = page_entry l s num y -> is_Some (entries (d_pc s) !! page_entry l s num x) -> x = y) ->
  synced m l s num start i 1 f1 s1 -> synced m l s1 num start (i + 1) n f2 s2 -> 0 <= n ->
  (forall x, is_Some (entries (d_pc s1) !! page_entry l s num x) -> is_Some (entries (d_pc s) !! page_entry l s num x)) ->
  synced m l s num start i (n + 1) (f1 ++ f2) s2.
Proof.
  intros Hinj [Hinv1 Hm1 Ht1 Hl1 Hr1 Hp1 Hd1 He1 Hb1] [Hinv2 Hm2 Ht2 Hl2 Hr2 Hp2 Hd2 He2 Hb2] Hn Hlive.
  assert (forall x, i + 1 <= x < i + 1 + n -> entries (d_pc s1) !! page_entry l s1 num x = entries (d_pc s) !! page_entry l s num x) as Hsame.
  { intros x Hx. rewrite Hl1. destruct (entries (d_pc s1) !! page_entry l s num x) as [c|] eqn:E.
    - rewrite <- E. apply He1. intros y Hy Exy. assert (x = y); [| lia]. apply Hinj; [done | by apply Hlive; rewrite E].
    - destruct (entries (d_pc s) !! page_entry l s num x) as [c|] eqn:E0; [| done]. rewrite He1 in E; [congruence |].
      intros y Hy Exy. assert (x = y); [| lia]. apply Hinj; [done | by eexists]. }
  assert (forall x, x ∈ f1 -> x = i) as Hf1 by (intros x Hx; apply (disk_run_failed _ _ _ _ _ _ _ _ _ Hr1), elem_of_seqZ in Hx; lia).
  assert (forall x, x ∈ f2 -> i + 1 <= x < i + 1 + n) as Hf2 by (intros x Hx; by apply (disk_run_failed _ _ _ _ _ _ _ _ _ Hr2), elem_of_seqZ in Hx).
  assert (i ∉ f2) as Hi by (intros Hx%Hf2; lia). split.
  - done.
  - by rewrite Hm2.
  - by rewrite Ht2.
  - intros num' x. by rewrite Hl2, Hl1.
  - rewrite (seqZ_cons i) by lia. replace (Z.pred (n + 1)) with n by lia. replace (Z.succ i) with (i + 1) by lia.
    apply (disk_run_app l s num start [i] _ (d_env s) f1 (d_env s1)); [by rewrite seqZ_one in Hr1 |].
    eapply disk_run_ext; [exact Hm1 | | exact Hr2]. intros x Hx%elem_of_seqZ. by apply Hsame.
  - intros x c Hx Hc. destruct (decide (x = i)) as [->|Hne].
    + rewrite He2 by (intros y Hy E; rewrite Hl1 in E; assert (i = y) by (by apply Hinj; [| eexists]); lia).
      rewrite (Hp1 i c) by first [exact Hc | lia]. rewrite (bool_decide_ext (i ∉ f1) (i ∉ f1 ++ f2)); [done |]. rewrite not_elem_of_app. naive_solver.
    + pose proof (Hp2 x c ltac:(lia)) as Hw. rewrite Hsame, Hl1 in Hw by lia. rewrite Hw by done. rewrite (bool_decide_ext (x ∉ f2) (x ∉ f1 ++ f2)); [done |].
      assert (x ∉ f1) by (by intros ?%Hf1). rewrite not_elem_of_app. naive_solver.
  - intros x c Hx Hc Hfl Hnf j Hj. apply not_elem_of_app in Hnf as [Hn1 Hn2]. destruct (decide (x = i)) as [->|Hne].
    + rewrite Hb2; [by apply Hd1; [lia | ..] | by apply Z.mod_mul | done |]. intros y Hy. lia.
    + rewrite <- Hm1. apply (Hd2 x c); [lia | by rewrite Hsame by lia | done..].
  - intros q Hq. rewrite He2, He1; [done | |].
    + intros x Hx. apply Hq. lia.
    + intros x Hx. rewrite Hl1. apply Hq. lia.
  - intros k j Hk Hj Hne. rewrite Hb2, Hb1; try done.
    + intros x Hx Hd Hnf. assert (x = i) as -> by lia. apply Hne; [lia | done | by apply not_elem_of_app].
    + intros x Hx Hd Hnf. apply Hne; [lia | by rewrite (dirty_page_eq l s s1) in Hd by (apply Hsame; lia) |]. apply not_elem_of_app. split; [| done].
      intros ->%Hf1. lia.
Qed.

Lemma wp_sync_loop n l fuel k : forall s inode i ret, dfs_inv n l s -> (length l < fuel)%nat -> 0 <= i -> 0 <= start_block (d_mem s) inode ->
  start_block (d_mem s) inode + i + Z.of_nat k <= 2 ^ 60 ->
  wp (sync_loop fuel k inode i ret) (fun r s' => exists failed,
    synced n l s (inode_num (d_mem s) inode) (start_block (d_mem s) inode) i (Z.of_nat k) failed s' /\ r = ret + Z.of_nat (length failed)) s.
Proof.
  induction k as [|k IH]; intros s inode i ret Hinv Hf Hi Hs0 Hb; cbn [sync_loop].
  - apply wp_ret. exists []. split; [| simpl; lia]. by apply synced_refl.
  - set (num := inode_num (d_mem s) inode) in *. set (start := start_block (d_mem s) inode) in *.
    pose proof (di_cache _ _ _ Hinv) as [Hok Hch _ He _].
    assert (forall f1 s1, synced n l s num start i 1 f1 s1 ->
      wp (sync_loop fuel k inode (i + 1) (ret + Z.of_nat (length f1))) (fun r s' => exists failed, synced n l s num start i (Z.of_nat (S k)) failed s' /\
        r = ret + Z.of_nat (length failed)) s1) as Hnext.
    { intros f1 s1 Hs1. pose proof Hs1 as [Hinv1 Hm1 _ _ _ _ _ _ _]. unfold num, start in *. rewrite <- Hm1 in *.
      eapply wp_mono; [apply IH; done || lia |]. intros r s2 (f2 & Hs2 & ->). replace (Z.of_nat (S k)) with (Z.of_nat k + 1) by lia.
      exists (f1 ++ f2). rewrite length_app. split; [| lia].
      apply (synced_step n l s _ _ i (Z.of_nat k) f1 f2 s1 s2); [intros x y; by apply (page_entry_inj n) | done | done | lia |].
      intros x [c Hx]. destruct (ci_entry _ _ _ (di_cache _ _ _ Hinv1) _ c Hx) as [Hin _]. by destruct (chain_lookup _ _ _ _ Hch Hin) as [? _]. }
    apply wp_bind, wp_gets, wp_bind, wp_zoom. eapply wp_mono; [by apply (wp_get_page_cache num i l)|]. intros p pc [-> ->].
    assert (over l_d_pc (view l_d_pc s) s = s) as -> by by destruct s as [[]]. cbn [view l_d_pc]. change (lookup_page _ _ _ _) with (page_entry l s num i).
    apply wp_bind. destruct (lookup_page_in (entries (d_pc s)) num i l) as [E|[Hin (c & Ec & _)]].
    + change (lookup_page _ _ _ _) with (page_entry l s num i) in E. rewrite E. apply wp_ret. apply (Hnext []), synced_none; [done |].
      rewrite E. destruct (entries (d_pc s) !! 0) as [c|] eqn:Ec; [| done]. exfalso. destruct (He 0 c Ec) as [Hin _].
      by destruct (chain_lookup _ _ _ _ Hch Hin).
    + change (lookup_page _ _ _ _) with (page_entry l s num i) in Hin, Ec. rewrite (proj2 (truthy_true _)) by by apply (chain_lookup _ _ _ _ Hch Hin).
      fold start. rewrite u64_small by lia. eapply wp_mono; [apply (wp_write_back n l s _ c); [done | done | by apply Z.mod_mul] |].
      intros res s1 (c' & r & e & Hw & -> & Hinv1 & ->).
      replace (if r =? 0 then 0 else 1) with (Z.of_nat (length (if r =? 0 then [] else [i]))) by (by destruct (r =? 0)).
      by apply Hnext, (synced_one n l s num start i c).
Qed.

Lemma wp_dfs_file_sync n l fuel f x s : dfs_inv n l s -> (length l < fuel)%nat -> files s !! f = Some x ->
  let inode := private_data x in let num := inode_num (d_mem s) inode in let start := start_block (d_mem s) inode in
  let count := (inode_size (d_mem s) inode + PAGE_SIZE_4KB - 1) / PAGE_SIZE_4KB in
  0 <= start -> 0 <= inode_size (d_mem s) inode < 2 ^ 63 -> start + count <= 2 ^ 60 ->
  wp (dfs_file_sync fuel f) (fun r s' => exists failed, synced n l s num start 0 count failed s' /\ r = Z.of_nat (length failed)) s.
Proof.
  intros Hinv Hl Hf inode num start count Hs Hsz Hc. apply wp_bind. unfold get_file. apply wp_bind, wp_gets. rewrite Hf. apply wp_ret, wp_bind, wp_gets.
  fold inode. assert (u64 (inode_size (d_mem s) inode + PAGE_SIZE_4KB - 1) = inode_size (d_mem s) inode + PAGE_SIZE_4KB - 1) as ->
    by (apply u64_small; unfold PAGE_SIZE_4KB; lia).
  fold count. assert (0 <= count) as Hc0 by (unfold count, PAGE_SIZE_4KB; dlia).
  pose proof (wp_sync_loop n l fuel (Z.to_nat count) s inode 0 0) as Hw. rewrite Z2Nat.id in Hw by done. fold num start in Hw. apply Hw; try done; lia.
Qed.
End syncing.

(** * Theorem *)

(** C26: syncing a file sends the disk a command for every dirty page of it that is in
    the cache and not being written, in their order, and for no other. A page whose
    command the disk does not fail is then clean and on disk, one whose command fails
    stays as it was, and the result is the number of those that failed.
    Memory, the other entries of the cache, and the other blocks of the disk do
    not change. *)
Theorem dfs_file_sync_spec {St : Type} `{HL : FsServicesLaws St} n l fuel f x (s : dfs St) : dfs_inv n l s -> (length l < fuel)%nat -> files s !! f = Some x ->
  let inode := private_data x in let num := inode_num (d_mem s) inode in let start := start_block (d_mem s) inode in
  let count := (inode_size (d_mem s) inode + PAGE_SIZE_4KB - 1) / PAGE_SIZE_4KB in
  0 <= start -> 0 <= inode_size (d_mem s) inode < 2 ^ 63 -> start + count <= 2 ^ 60 ->
  wp (dfs_file_sync fuel f) (fun r s' => exists failed, synced n l s num start 0 count failed s' /\ r = Z.of_nat (length failed)) s.
Proof. apply wp_dfs_file_sync. Qed.

(** Two dirty pages; the second cannot be written. *)
Definition demo_open : dfs fs_sim := set_files {[ sim_heap + 12288 := File 1 1 0 0 demo_inode ]} demo_cached.

Lemma dfs_file_sync_spec_witness : wp (dfs_file_sync 10 (sim_heap + 12288))
  (fun r s' => exists failed, synced (4, 4)%nat demo_list demo_open 2 6 0 2 failed s' /\ r = Z.of_nat (length failed)) demo_open.
Proof.
  apply (dfs_file_sync_spec (4, 4)%nat demo_list 10 (sim_heap + 12288) (File 1 1 0 0 demo_inode) demo_open);
    [destruct demo_cached_inv; by split | simpl; lia | by vm_compute | by vm_compute | by vm_compute | by vm_compute].
Defined.
