(* ===== verification/Vfs.v ===== *)
(** Open files ([fs/vfs.c]): descriptors, the table of a process, and the
    system calls that read and write through them. *)
From S2P Require Import Prelude Interfaces Cpu CString PageCache FsSim Dfs DfsDemo DfsIo DfsSync.

(** * State *)

Definition MAX_FD : Z := 128.
Definition MAX_FILEPATH : Z := 256.
Definition FILE_TYPE_REGULAR : Z := 1.
Definition O_RDONLY : Z := 1.
Definition O_WRONLY : Z := 2.
Definition O_RDWR : Z := 3.
Definition sizeof_FILE : Z := 296.

(** The addresses of the two tables of operations, [dfs_ops] and
    [terminal_ops]; only that they differ matters. *)
Definition DFS_OPS : Z := 1.
Definition TERMINAL_OPS : Z := 2.

(** The part of [process_t] from its table of files on. *)
Record process : Type := Process { fd_table : list Z; heap_start : Z; current_heap_end : Z; pages_alloced : Z }.

(** The file system, the processor, [open_lock], and the current process. *)
Record kernel (St : Type) : Type := Kernel { k_dfs : dfs St; k_cpu : cpu; open_lock : Z; k_proc : process }.
Arguments Kernel {St} k_dfs k_cpu open_lock k_proc.
Arguments k_dfs {St} _.
Arguments k_cpu {St} _.
Arguments open_lock {St} _.
Arguments k_proc {St} _.

(** * Operations *)

Section operations.
Context {St : Type} `{FsServices St}.
Implicit Types s : kernel St.

Definition set_k_dfs (x : dfs St) s : kernel St := Kernel x (k_cpu s) (open_lock s) (k_proc s).
Definition set_k_cpu (x : cpu) s : kernel St := Kernel (k_dfs s) x (open_lock s) (k_proc s).
Definition set_open_lock (x : Z) s : kernel St := Kernel (k_dfs s) (k_cpu s) x (k_proc s).
Definition set_k_proc (x : process) s : kernel St := Kernel (k_dfs s) (k_cpu s) (open_lock s) x.
Definition l_k_dfs : lens (kernel St) (dfs St) := Lens k_dfs set_k_dfs.
Definition l_k_cpu : lens (kernel St) cpu := Lens k_cpu set_k_cpu.
Definition l_open_lock : lens (kernel St) Z := Lens open_lock set_open_lock.
Definition l_k_proc : lens (kernel St) process := Lens k_proc set_k_proc.
Definition l_k_env : lens (kernel St) St := lens_compose l_k_dfs l_d_env.

(** [fd_table[i]]: the table has 128 elements, and the words after it are the
    next members of the process. *)
Definition fd_get (i : Z) : M (kernel St) Z :=
  p ← gets k_proc;
  if i <? MAX_FD then mret (nth (Z.to_nat i) (fd_table p) 0)
  else if i =? MAX_FD then mret (heap_start p)
  else if i =? MAX_FD + 1 then mret (current_heap_end p)
  else if i =? MAX_FD + 2 then mret (pages_alloced p)
  else fail Fault.
Definition fd_set (i x : Z) : M (kernel St) unit :=
  p ← gets k_proc;
  if i <? MAX_FD then modify (set_k_proc (Process (<[Z.to_nat i := x]> (fd_table p)) (heap_start p) (current_heap_end p) (pages_alloced p)))
  else if i =? MAX_FD then modify (set_k_proc (Process (fd_table p) x (current_heap_end p) (pages_alloced p)))
  else fail Fault.

(** The operations of a file, [vfs_ops_t]; one that is null is [None]. *)
Record vfs_ops : Type := VfsOps {
  op_read : Z -> Z -> Z -> M (kernel St) Z;
  op_write : Z -> Z -> Z -> M (kernel St) Z;
  op_close : option (Z -> M (kernel St) Z);
  op_sync : option (Z -> M (kernel St) Z);
}.

(** [rounds] and [fuel] are those of the file system, and the operations of the
    terminal are given. *)
Context (rounds fuel : nat) (terminal_read terminal_write : Z -> Z -> Z -> M (kernel St) Z).

Definition dfs_ops : vfs_ops := VfsOps
  (fun f buf n => zoom l_k_dfs (dfs_file_read rounds fuel f buf n)) (fun f buf n => zoom l_k_dfs (dfs_file_write rounds fuel f buf n))
  (Some (fun f => zoom l_k_dfs (dfs_file_close f))) (Some (fun f => zoom l_k_dfs (dfs_file_sync fuel f))).
Definition terminal_ops : vfs_ops := VfsOps terminal_read terminal_write None None.
Definition get_ops (p : Z) : M (kernel St) vfs_ops :=
  if p =? DFS_OPS then mret dfs_ops else if p =? TERMINAL_OPS then mret terminal_ops else fail Fault.

(** The loop of [open] over the table. *)
Fixpoint find_free (t : list Z) (i : Z) : option Z :=
  match t with [] => None | x :: t' => if x =? 0 then Some i else find_free t' (i + 1) end.

(** What [open] stores in the new file: its path, 255 bytes and a null, and the
    other fields. *)
Definition init_file (f fp flags inode : Z) : M (dfs St) unit :=
  if negb (truthy f) then fail Fault
  else
    modify (fun d => set_d_mem (<[f + (MAX_FILEPATH - 1) := 0]> (memcpy (Z.to_nat (MAX_FILEPATH - 1)) f fp (d_mem d))) d);;
    modify (fun d => set_files (<[f := File FILE_TYPE_REGULAR flags 0 DFS_OPS inode]> (files d)) d).

(** [open_fail] is [-1] as a [uint64_t]. *)
Definition open_fail : Z := 2 ^ 64 - 1.
Definition open (fp flags : Z) : M (kernel St) Z :=
  inode ← zoom l_k_dfs (dfs_get_inode fuel fp);
  if negb (truthy inode) then mret open_fail
  else
    rf ← spin_lock_irqsave l_k_cpu l_open_lock;
    t ← gets (fun s => fd_table (k_proc s));
    match find_free t 0 with
    | None => spin_lock_irqrestore l_k_cpu l_open_lock rf;; mret open_fail
    | Some fd =>
        f ← zoom l_k_env (fs_kmalloc sizeof_FILE);
        fd_set fd f;;
        spin_lock_irqrestore l_k_cpu l_open_lock rf;;
        zoom l_k_dfs (init_file f fp flags inode);;
        mret fd
    end.

(** The guards that [close], [lseek] and [fsync] share. *)
Definition with_file (fd : Z) (body : Z -> M (kernel St) Z) : M (kernel St) Z :=
  if fd <=? 2 then mret 0
  else if MAX_FD <? fd then mret (-1)
  else f ← fd_get fd; if negb (truthy f) then mret (-1) else body f.

Definition close (fd : Z) : M (kernel St) Z :=
  with_file fd (fun f =>
    x ← zoom l_k_dfs (get_file f);
    ops ← get_ops (file_ops x);
    match op_close ops with
    | None => fail Fault
    | Some c => ret ← c f; fd_set fd 0;; mret ret
    end).

Definition lseek (fd offset whence : Z) : M (kernel St) Z :=
  with_file fd (fun f =>
    if whence =? 0 then zoom l_k_dfs (upd_file f (set_position offset));; mret (s32 offset)
    else if whence =? 1 then zoom l_k_dfs (upd_file f (fun x => set_position (u64 (position x + offset)) x));; mret (s32 offset)
    else if whence =? 2 then
      x ← zoom l_k_dfs (get_file f);
      m ← gets (fun s => d_mem (k_dfs s));
      zoom l_k_dfs (upd_file f (set_position (u64 (inode_size m (private_data x) - offset))));;
      mret (s32 offset)
    else mret (-1)).

Definition fsync (fd : Z) : M (kernel St) Z :=
  with_file fd (fun f =>
    x ← zoom l_k_dfs (get_file f);
    ops ← get_ops (file_ops x);
    match op_sync ops with None => fail Fault | Some c => c f end).

(** ** System calls *)

(** [SYS_READ] and [SYS_WRITE]; the value is that of [rax]. *)
Definition sys_read (fd buf count : Z) : M (kernel St) Z :=
  f ← fd_get fd;
  x ← zoom l_k_dfs (get_file f);
  if truthy (Z.land (file_flags x) O_RDONLY) || truthy (Z.land (file_flags x) O_RDWR) then
    ops ← get_ops (file_ops x); n ← op_read ops f buf count; mret (u64 n)
  else mret 0.
Definition sys_write (fd buf count : Z) : M (kernel St) Z :=
  f ← fd_get fd;
  x ← zoom l_k_dfs (get_file f);
  if truthy (Z.land (file_flags x) O_WRONLY) || truthy (Z.land (file_flags x) O_RDWR) then
    ops ← get_ops (file_ops x); n ← op_write ops f buf count; mret (u64 n)
  else mret 0.

(** [brk]: no page is mapped or unmapped here. *)
Definition brk (addr : Z) : M (kernel St) Z :=
  p ← gets k_proc;
  if addr <? heap_start p then mret (current_heap_end p)
  else modify (set_k_proc (Process (fd_table p) (heap_start p) addr (pages_alloced p)));; mret (current_heap_end p).

End operations.

(** * Specification *)

Section specification.
Context {St : Type} `{FsServicesLaws St}.
Implicit Types s : kernel St.

(** The lock is free, the table has its length, and an open file is an object in
    use. *)
Record vfs_inv (n : nat * nat) (l : list Z) s : Prop := {
  vi_dfs : dfs_inv n l (k_dfs s);
  vi_files f x : files (k_dfs s) !! f = Some x -> fs_obj (d_env (k_dfs s)) f;
  vi_table : length (fd_table (k_proc s)) = Z.to_nat MAX_FD;
  vi_lock : open_lock s = 0;
}.

(** The inode table is in the direct map, below the heap. *)
Definition heap_base : Z := DIRECT_OFFSET + 2 ^ 46.
Definition table_mapped (d : dfs St) (ino : Z) : Prop := 
  DIRECT_OFFSET <= inode_table d /\ inode_table d + 2 * sizeof_inode <= heap_base /\ DIRECT_OFFSET <= ino /\ ino + sizeof_inode <= heap_base.

Definition slot s (fd : Z) : Z := nth (Z.to_nat fd) (fd_table (k_proc s)) 0.
Definition set_slot (fd f : Z) (p : process) : process := Process (<[Z.to_nat fd := f]> (fd_table p)) (heap_start p) (current_heap_end p) (pages_alloced p).

(** What [open] does: slot [fd] holds a new file, at position 0, of the inode,
    with a copy of the path. *)
Record opened (n : nat * nat) (l : list Z) s (name : list Z) (flags ino fd f : Z) s' : Prop := {
  op_inv : vfs_inv n l s';
  op_proc : k_proc s' = set_slot fd f (k_proc s);
  op_cpu : k_cpu s' = k_cpu s;
  op_new : files (k_dfs s) !! f = None /\ heap_base <= f /\ entries (d_pc (k_dfs s)) !! f = None;
  op_files : files (k_dfs s') = <[f := File FILE_TYPE_REGULAR flags 0 DFS_OPS ino]> (files (k_dfs s));
  op_root : root_file (k_dfs s') f name ino;
  op_table : inode_table (k_dfs s') = inode_table (k_dfs s);
  op_cache : entries (d_pc (k_dfs s')) = entries (d_pc (k_dfs s));
  op_block : fs_block (d_env (k_dfs s')) = fs_block (d_env (k_dfs s));
  op_stable x : stable (k_dfs s) x -> stable (k_dfs s') x;
  op_kept x : kept (k_dfs s) x -> x < heap_base -> d_mem (k_dfs s') @@ x = d_mem (k_dfs s) @@ x;
}.
End specification.

(** * Lemmas *)

Lemma find_free_spec t : forall i, match find_free t i with
  | Some k => i <= k < i + Z.of_nat (length t) /\ nth (Z.to_nat (k - i)) t 0 = 0 /\ forall j, i <= j < k -> nth (Z.to_nat (j - i)) t 0 <> 0
  | None => Forall (fun x => x <> 0) t
  end.
Proof.
  induction t as [|x t IH]; intros i; cbn [find_free]; [constructor |]. simpl length. destruct (Z.eqb_spec x 0) as [->|Hx].
  - replace (i - i) with 0 by lia. split; [lia |]. split; [done |]. lia.
  - specialize (IH (i + 1)). destruct (find_free t (i + 1)) as [k|]; [| by constructor]. destruct IH as (Hk & H0 & Hb). split; [lia |].
    assert (forall j, i + 1 <= j -> nth (Z.to_nat (j - i)) (x :: t) 0 = nth (Z.to_nat (j - (i + 1))) t 0) as Hn.
    { intros j Hj. by replace (Z.to_nat (j - i)) with (S (Z.to_nat (j - (i + 1)))) by lia. }
    split; [by rewrite Hn by lia |]. intros j Hj. destruct (decide (j = i)) as [->|Hne]; [by replace (i - i) with 0 by lia |]. rewrite Hn by lia. apply Hb. lia.
Qed.

(** The search from the first slot on. *)
Lemma find_free_slot t : match find_free t 0 with
  | Some k => 0 <= k < Z.of_nat (length t) /\ nth (Z.to_nat k) t 0 = 0 /\ forall j, 0 <= j < k -> nth (Z.to_nat j) t 0 <> 0
  | None => forall j, 0 <= j < Z.of_nat (length t) -> nth (Z.to_nat j) t 0 <> 0
  end.
Proof.
  pose proof (find_free_spec t 0) as H. destruct (find_free t 0) as [k|].
  - rewrite Z.sub_0_r in H. destruct H as (H1 & H2 & H3). do 2 (split; [done |]). intros j Hj. specialize (H3 j Hj). by rewrite Z.sub_0_r in H3.
  - intros j Hj. rewrite Forall_forall in H. apply H, list_elem_of_In, nth_In. lia.
Qed.

#[local] Opaque dma memset memcpy.

Section lemmas.
Context {St : Type} `{HL : FsServicesLaws St}.
Context (rounds fuel : nat) (terminal_read terminal_write : Z -> Z -> Z -> M (kernel St) Z).
Implicit Types s : kernel St.

Lemma wp_fd_set fd f (Q : unit -> kernel St -> Prop) s : 0 <= fd < MAX_FD -> Q tt (set_k_proc (set_slot fd f (k_proc s)) s) -> wp (fd_set fd f) Q s.
Proof. intros Hfd HQ. apply wp_bind, wp_gets. rewrite (proj2 (Z.ltb_lt _ _)) by lia. by apply wp_modify. Qed.

Lemma wp_fd_get fd (Q : Z -> kernel St -> Prop) s : 0 <= fd < MAX_FD -> Q (slot s fd) s -> wp (fd_get fd) Q s.
Proof. intros Hfd HQ. apply wp_bind, wp_gets. rewrite (proj2 (Z.ltb_lt _ _)) by lia. by apply wp_ret. Qed.

(** Descriptors of files are 3 and on. *)
Lemma wp_with_file fd body (Q : Z -> kernel St -> Prop) s : 3 <= fd < MAX_FD -> slot s fd <> 0 -> wp (body (slot s fd)) Q s -> wp (with_file fd body) Q s.
Proof.
  intros Hfd Hf HQ. unfold with_file. rewrite (proj2 (Z.leb_gt _ _)), (proj2 (Z.ltb_ge _ _)) by lia.
  apply wp_bind, wp_fd_get; [lia |]. by rewrite (proj2 (truthy_true _) Hf).
Qed.

Lemma k_dfs_same s : set_k_dfs (k_dfs s) s = s.
Proof. by destruct s. Qed.

Lemma wp_get_file f x (Q : file -> dfs St -> Prop) d : files d !! f = Some x -> Q x d -> wp (get_file f) Q d.
Proof. intros Hx HQ. apply wp_bind, wp_gets. rewrite Hx. by apply wp_ret. Qed.

Lemma wp_zoom_file f x (Q : file -> kernel St -> Prop) s : files (k_dfs s) !! f = Some x -> Q x s -> wp (zoom l_k_dfs (get_file f)) Q s.
Proof. intros Hx HQ. apply wp_zoom, (wp_get_file _ x); [done |]. cbn [over view l_k_dfs]. by rewrite k_dfs_same. Qed.

Lemma wp_upd_file f x g (Q : unit -> dfs St -> Prop) d : files d !! f = Some x -> Q tt (set_files (<[f := g x]> (files d)) d) -> wp (upd_file f g) Q d.
Proof. intros Hx HQ. apply wp_bind, (wp_get_file _ x); [done |]. by apply wp_modify. Qed.

(** ** Opening *)

(** What is in memory after the path is copied. *)
Lemma path_copied f fp m x : fp + MAX_FILEPATH <= f ->
  <[f + (MAX_FILEPATH - 1) := 0]> (memcpy (Z.to_nat (MAX_FILEPATH - 1)) f fp m) @@ x =
  if decide (f <= x < f + 255) then m @@ (fp + (x - f)) else if decide (x = f + 255) then 0 else m @@ x.
Proof.
  unfold MAX_FILEPATH. intros Hf. rewrite rd_insert, memcpy_spec by lia. rewrite Z2Nat.id by lia. repeat case_decide; try lia; try done. f_equal. lia.
Qed.

Lemma stable_high (d : dfs St) n l x : dfs_inv n l d -> heap_base <= x -> stable d x.
Proof.
  intros Hinv Hx. unfold heap_base in Hx. split.
  - intros p Hp Hal Hin. pose proof (page_end p Hp Hal). unfold in_page, PAGE_SIZE_4KB in *. lia.
  - intros q c Hq Hin. destruct (di_addr _ _ _ Hinv q c Hq) as [Har Hal]. pose proof (page_end _ Har Hal). unfold in_page, PAGE_SIZE_4KB in *. lia.
Qed.

(** The copy of the path names the same file. *)
Lemma copied_root (d d' : dfs St) n l fp name ino f : root_file d fp name ino -> table_mapped d ino -> fp + MAX_FILEPATH <= f -> heap_base <= f ->
  dfs_inv n l d' -> inode_table d' = inode_table d -> fs_block (d_env d') = fs_block (d_env d) ->
  (forall x, stable d x -> stable d' x /\ (x < heap_base -> d_mem d' @@ x = d_mem d @@ x)) ->
  (forall i, 0 <= i < 255 -> kept d (fp + i) -> d_mem d' @@ (f + i) = d_mem d @@ (fp + i)) -> root_file d' f name ino.
Proof.
  intros [(Hb & H0 & Hnz) (Hns & Hne & Hlen) Hst [Hty Hsz] Hdst Hent] (_ & Hlow & _) Hf Hh Hinv Et Eb Hx Hcp. simpl length in *.
  destruct (inode_same (d_mem d) (d_mem d') (inode_table d + sizeof_inode)) as (_ & E2 & E3 & E4);
    [intros i Hi; apply Hx; [by apply Hdst | unfold sizeof_inode in *; lia] |].
  split; rewrite ?Et, ?E2, ?E3, ?E4, ?Eb; try done.
  - simpl length. split; [| split; [| done]].
    + etransitivity; [| exact Hb]. unfold bytes. apply list_fmap_ext. intros k y Hk. apply lookup_seqZ in Hk as [-> Hk]. apply Hcp; [lia | apply Hst; lia].
    + rewrite <- H0. apply Hcp; [lia | apply Hst; lia].
  - intros i Hi. apply (stable_high _ n l); [done | lia].
  - intros i Hi. by apply Hx, Hdst.
Qed.

(** The file system with a new file. *)
Definition new_file (e : St) (f fp flags ino : Z) (d : dfs St) : dfs St :=
  set_files (<[f := File FILE_TYPE_REGULAR flags 0 DFS_OPS ino]> (files d))
    (set_d_mem (<[f + (MAX_FILEPATH - 1) := 0]> (memcpy (Z.to_nat (MAX_FILEPATH - 1)) f fp (d_mem d))) (with_env e d)).

Lemma opened_intro n h l s fp name flags ino fd d1 e f : vfs_inv (S n, S h) l s -> root_file (k_dfs s) fp name ino -> table_mapped (k_dfs s) ino ->
  fp + MAX_FILEPATH <= heap_base -> 0 <= fd < MAX_FD -> quiet (k_dfs s) d1 -> dfs_inv (S n, S h) l d1 ->
  fs_ok (S n, h) e -> heap_base <= f < 2 ^ 64 -> ~ fs_obj (d_env d1) f -> (forall a, fs_obj e a <-> a = f \/ fs_obj (d_env d1) a) ->
  (forall p, fs_page e p <-> fs_page (d_env d1) p) -> fs_block e = fs_block (d_env d1) ->
  opened (S n, h) l s name flags ino fd f (Kernel (new_file e f fp flags ino d1) (k_cpu s) 0 (set_slot fd f (k_proc s))).
Proof.
  intros [Hinv Hfiles Htab Hlock] Hrf Hlow Hfp Hfd Hq Hinv1 Hok Hf Hnew Hobj Hpage Hblk. destruct (quiet_entries _ _ Hq) as [Ee El].
  assert (files d1 = files (k_dfs s) /\ inode_table d1 = inode_table (k_dfs s)) as [Ef Et] by (rewrite (qu_state _ _ Hq); by destruct (k_dfs s) as [[]]).
  assert (dfs_inv (S n, h) l (new_file e f fp flags ino d1)) as Hinv2.
  { destruct Hinv1 as [[_ Hc Hnd He Ha] Had]. split; [split |]; try done. intros p c Hp. cbn. rewrite Hobj, Hpage. destruct (He p c Hp) as (? & ? & ?). auto. }
  assert (forall x, d_mem (new_file e f fp flags ino d1) @@ x = if decide (f <= x < f + 255) then d_mem d1 @@ (fp + (x - f)) else if decide (x = f + 255) then 0 else d_mem d1 @@ x) as Hmem.
  { intros x. apply path_copied. lia. }
  assert (forall x, stable (k_dfs s) x -> stable (new_file e f fp flags ino d1) x /\
    (x < heap_base -> d_mem (new_file e f fp flags ino d1) @@ x = d_mem (k_dfs s) @@ x)) as Hst.
  { intros x Hx. pose proof (proj1 (quiet_stable _ d1 x Hq) Hx) as [Hk Hc]. split; [split; [| exact Hc] |].
    - intros p Hp Hal Hin. apply Hpage. by apply Hk.
    - intros Hlt. rewrite Hmem, !decide_False by lia. by apply (qu_mem _ _ Hq), Hx. }
  assert (inode_table (new_file e f fp flags ino d1) = inode_table (k_dfs s)) as Et2 by exact Et.
  assert (fs_block (d_env (new_file e f fp flags ino d1)) = fs_block (d_env (k_dfs s))) as Eb2 by (transitivity (fs_block (d_env d1)); [exact Hblk | apply Hq]).
  split; cbn [k_dfs k_proc k_cpu].
  - split; cbn [k_dfs k_proc open_lock]; [exact Hinv2 | | | reflexivity].
    + cbn [files new_file set_files]. change (d_env (new_file e f fp flags ino d1)) with e. intros g x [[<- <-]|[Hne Hg]]%lookup_insert_Some; apply Hobj; [by left |]. right. apply (qu_obj _ _ Hq), (Hfiles g x). by rewrite <- Ef.
    + cbn [fd_table set_slot]. by rewrite length_insert.
  - reflexivity.
  - reflexivity.
  - split; [| split; [apply Hf |]]. 2: { destruct (entries (d_pc (k_dfs s)) !! f) as [c|] eqn:E; [| done]. exfalso. rewrite <- Ee in E. by apply Hnew, (ci_entry _ _ _ (di_cache _ _ _ Hinv1) f c). }
    destruct (files (k_dfs s) !! f) as [x|] eqn:E; [| done]. exfalso. by apply Hnew, (qu_obj _ _ Hq), (Hfiles f x).
  - cbn [files new_file set_files]. by rewrite Ef.
  - apply (copied_root (k_dfs s) _ (S n, h) l fp); [exact Hrf | exact Hlow | lia | lia | exact Hinv2 | exact Et2 | exact Eb2 | exact Hst |].
    intros i Hi Hk. rewrite Hmem, decide_True by lia. replace (fp + (f + i - f)) with (fp + i) by lia. by apply (qu_mem _ _ Hq).
  - exact Et2.
  - exact Ee.
  - exact Eb2.
  - intros x Hx. by apply Hst.
  - intros x Hx Hlt. rewrite Hmem, !decide_False by lia. by apply (qu_mem _ _ Hq).
Qed.

Lemma wp_open (Hrel : reliable) n h l s fp name flags ino : vfs_inv (S n, S h) l s -> root_file (k_dfs s) fp name ino -> table_mapped (k_dfs s) ino ->
  ino <> 0 -> 0 < fp /\ fp + MAX_FILEPATH <= heap_base -> (length name + 2 < fuel)%nat ->
  wp (open fuel fp flags) (fun r s' =>
    match find_free (fd_table (k_proc s)) 0 with
    | Some fd => r = fd /\ exists f, opened (S n, h) l s name flags ino fd f s'
    | None => r = open_fail /\ s' = set_k_dfs (k_dfs s') s /\ quiet (k_dfs s) (k_dfs s')
    end) s.
Proof.
  intros [Hinv Hfiles Htab Hlock] Hrf Hlow Hi0 [Hfp0 Hfp] Hf. apply wp_bind, wp_zoom. cbn [view l_k_dfs].
  eapply wp_mono; [apply (wp_get_inode_root Hrel n (S h) fuel fp name ino); [done | apply (di_cache _ _ _ Hinv) | done] |].
  intros r d1 (-> & Hq & Hok1). rewrite (proj2 (truthy_true ino) Hi0). cbn [negb over l_k_dfs].
  pose proof (quiet_inv _ _ _ _ Hinv Hq Hok1) as Hinv1. destruct (quiet_entries _ _ Hq) as [Ee El].
  apply wp_bind, wp_spin_lock_irqsave. intros rf ->. split; [exact Hlock |]. cbn [over view l_k_cpu l_open_lock].
  apply wp_bind, wp_gets. cbn [fd_table k_proc set_open_lock set_k_cpu set_k_dfs].
  pose proof (find_free_spec (fd_table (k_proc s)) 0) as Hfree. destruct (find_free (fd_table (k_proc s)) 0) as [fd|].
  - destruct Hfree as (Hfd & _ & _). rewrite Htab in Hfd.
    apply wp_bind, wp_zoom. cbn [view over l_k_env lens_compose l_k_dfs k_dfs set_open_lock set_k_cpu set_k_dfs].
    eapply wp_mono; [apply (wp_fs_kmalloc (S n) h); exact Hok1 |]. intros f e (Hok2 & Hfr & Hnew & Hobj & Hpage & Hblk).
    change (view l_d_env d1) with (d_env d1) in *. change (over l_d_env e d1) with (with_env e d1).
    apply wp_bind, wp_fd_set; [unfold MAX_FD in *; lia |]. apply wp_bind, wp_spin_lock_irqrestore. cbn zeta.
    apply wp_bind, wp_zoom. unfold init_file. rewrite (proj2 (truthy_true f)) by (unfold DIRECT_OFFSET in *; lia). cbn [negb].
    apply wp_bind, wp_modify, wp_modify, wp_ret. split; [done |]. exists f.
    match goal with |- opened _ _ _ _ _ _ _ _ ?s' => assert (s' = Kernel (new_file e f fp flags ino d1) (k_cpu s) 0 (set_slot fd f (k_proc s))) as -> end.
    { destruct s as [d [rf cr] lk p]. done. }
    apply (opened_intro n h l); first [assumption | unfold MAX_FD in *; lia | by split].
  - apply wp_bind, wp_spin_lock_irqrestore, wp_ret. cbn. split; [done |]. split; [| done]. destruct s as [d [rf cr] lk p]. cbn in *. by rewrite Hlock.
Qed.
(** ** Reading *)

(** A read through a descriptor, within one page of the file: the bytes are those
    from the start of the page. *)
Lemma wp_sys_read (Hrel : reliable) n h l s fd x fp name k o buffer size :
  dfs_inv (S (S n), S h) l (k_dfs s) -> 0 <= fd < MAX_FD -> files (k_dfs s) !! slot s fd = Some x -> fp = slot s fd ->
  file_ops x = DFS_OPS -> Z.odd (file_flags x) = true -> position x = k * PAGE_SIZE_4KB + o ->
  page_request fuel (k_dfs s) fp name (private_data x) k o buffer size -> (S (length l) < fuel)%nat ->
  wp (sys_read (S (S rounds)) fuel terminal_read terminal_write fd buffer size) (fun r s' => r = size /\
    exists d m l', left_over n h m /\ did_read m l (k_dfs s) (private_data x) k buffer size l' d /\
      s' = set_k_dfs (set_files (<[slot s fd := set_position (position x + size) x]> (files d)) d) s) s.
Proof.
  intros Hinv Hfd Hx -> Hops Hfl Hpos Hreq Hl. pose proof Hreq as [_ _ (Hk & Ho & Hs & Hos & Hsz) _ _].
  apply wp_bind, wp_fd_get; [done |]. apply wp_bind, (wp_zoom_file _ x); [done |].
  assert (truthy (Z.land (file_flags x) O_RDONLY) = true) as ->.
  { apply truthy_true. intros E. apply (f_equal Z.odd) in E. unfold O_RDONLY in E. rewrite <- Z.bit0_odd, Z.land_spec, Z.bit0_odd, Hfl in E. done. }
  cbn [orb]. apply wp_bind. unfold get_ops. rewrite Hops, Z.eqb_refl. apply wp_ret, wp_bind, wp_zoom. cbn [view l_k_dfs].
  unfold dfs_file_read, file_transfer. apply wp_bind, (wp_get_file _ x); [done |]. apply wp_bind, wp_gets.
  rewrite Hpos, (proj2 (Z.leb_gt _ _)) by (unfold PAGE_SIZE_4KB in *; lia).
  rewrite u64_small by (unfold PAGE_SIZE_4KB in *; lia). rewrite (proj2 (Z.ltb_ge _ _)) by lia. apply wp_bind.
  eapply wp_mono; [by apply (wp_dfs_read_page Hrel n h l rounds fuel (k_dfs s) (slot s fd) name)|]. intros r d (-> & m & l' & Hm & Hdr).
  assert ((size =? 2 ^ 64 - 1) = false) as -> by (apply Z.eqb_neq; unfold PAGE_SIZE_4KB in *; lia).
  apply wp_bind, (wp_upd_file _ x); [by rewrite (dr_files _ _ _ _ _ _ _ _ _ Hdr) |].
  apply wp_ret, wp_ret. rewrite s32_small, u64_small by (unfold PAGE_SIZE_4KB in *; lia). split; [done |].
  exists d, m, l'. rewrite Hpos, u64_small by (unfold PAGE_SIZE_4KB in *; lia). done.
Qed.

(** A request on the file that was opened. *)
Lemma opened_request n n' l s name flags ino fd f s' fp buffer o size : opened n l s name flags ino fd f s' -> table_mapped (k_dfs s) ino ->
  page_request fuel (k_dfs s) fp name ino 0 o buffer size -> dfs_inv n' l (k_dfs s) ->
  page_request fuel (k_dfs s') f name ino 0 o buffer size /\
  forall j, 0 <= j < PAGE_SIZE_4KB -> file_byte (k_dfs s') l ino 0 j = file_byte (k_dfs s) l ino 0 j.
Proof.
  intros Hop (_ & _ & _ & Hlow) [Hrf [Hi0 Hist] Hsz Hb Hf] Hinv.
  destruct (inode_same (d_mem (k_dfs s)) (d_mem (k_dfs s')) ino) as (En & Es & _ & Ed).
  { intros i Hi. apply (op_kept _ _ _ _ _ _ _ _ _ Hop); [by apply Hist | unfold sizeof_inode in *; lia]. }
  split; [split; try done; [apply Hop | split; [done |] | by rewrite Es] |].
  - intros i Hi. by apply (op_stable _ _ _ _ _ _ _ _ _ Hop), Hist.
  - intros j Hj. unfold file_byte. rewrite En, Ed, (op_cache _ _ _ _ _ _ _ _ _ Hop), (op_block _ _ _ _ _ _ _ _ _ Hop).
    destruct (entries _ !! _) as [c|] eqn:Ec; [| done]. destruct (di_addr _ _ _ Hinv _ c Ec) as [Har Hal]. pose proof (page_end _ Har Hal) as Hend.
    apply (op_kept _ _ _ _ _ _ _ _ _ Hop); [| unfold heap_base; lia]. apply page_kept; [| done | done].
    by apply (ci_entry _ _ _ (di_cache _ _ _ Hinv) _ c Ec).
Qed.

(** The file system after a read, for the next one. *)
Lemma did_read_next m l d name ino f x o b1 b2 size l' d' g : did_read m l d ino 0 b1 size l' d' -> table_mapped d ino -> heap_base <= f ->
  page_request fuel d f name ino 0 0 b1 size -> b1 + size <= DIRECT_OFFSET -> 0 <= o -> o + size <= PAGE_SIZE_4KB -> o + size <= inode_size (d_mem d) ino ->
  0 < b2 -> b2 + size <= DIRECT_OFFSET ->
  dfs_inv m l' (set_files (<[g := x]> (files d')) d') /\ page_request fuel (set_files (<[g := x]> (files d')) d') f name ino 0 o b2 size /\
  forall j, 0 <= j < PAGE_SIZE_4KB -> file_byte (set_files (<[g := x]> (files d')) d') l' ino 0 j = file_byte d l ino 0 j.
Proof.
  intros Hdr (Ht1 & Ht2 & Hi1 & Hi2) Hf Hreq Hb1 Ho Hos Hsz Hb20 Hb2. unfold heap_base in Hf.
  destruct (page_request_on (fun x => DIRECT_OFFSET <= x) fuel d (set_files (<[g := x]> (files d')) d') f name ino 0 0 b1 size Hreq) as (Hreq' & En & _).
  - apply (dr_table _ _ _ _ _ _ _ _ _ Hdr).
  - apply (dr_block _ _ _ _ _ _ _ _ _ Hdr).
  - intros i Hi. lia.
  - intros i Hi. unfold sizeof_inode in *. lia.
  - intros y Hy HP. destruct (dr_stable _ _ _ _ _ _ _ _ _ Hdr y Hy) as [Hy' Em]. split; [exact Hy' | apply Em; lia].
  - split; [by destruct (dr_inv _ _ _ _ _ _ _ _ _ Hdr); split |]. split.
    + apply (page_request_other fuel _ f name ino 0 0 o b1 b2 size); try done.
      destruct (inode_same (d_mem d) (d_mem d') ino) as (_ & E & _); [| cbn [d_mem set_files]; rewrite E; lia].
      intros i Hi. apply (dr_stable _ _ _ _ _ _ _ _ _ Hdr); [by apply Hreq | unfold sizeof_inode in *; lia].
    + intros j Hj. destruct (dr_cached _ _ _ _ _ _ _ _ _ Hdr) as [c Hc]. unfold file_byte at 1. rewrite En. cbn [d_pc set_files]. rewrite Hc.
      by apply (dr_page _ _ _ _ _ _ _ _ _ Hdr c Hc).
Qed.

Lemma slot_set s fd f : 0 <= fd < Z.of_nat (length (fd_table (k_proc s))) -> nth (Z.to_nat fd) (fd_table (set_slot fd f (k_proc s))) 0 = f.
Proof. intros Hfd. cbn [fd_table set_slot]. rewrite nth_lookup, list_lookup_insert_eq by lia. done. Qed.

Lemma wp_open_read_twice (Hrel : reliable) n h l s fp name flags ino fd b1 b2 size :
  vfs_inv (S (S (S n)), S (S (S h))) l s -> table_mapped (k_dfs s) ino -> page_request fuel (k_dfs s) fp name ino 0 0 b1 size ->
  find_free (fd_table (k_proc s)) 0 = Some fd -> Z.odd flags = true -> fp + MAX_FILEPATH <= heap_base -> 0 < fp ->
  2 * size <= PAGE_SIZE_4KB -> 2 * size <= inode_size (d_mem (k_dfs s)) ino -> b1 + size <= DIRECT_OFFSET -> 0 < b2 -> b2 + size <= DIRECT_OFFSET ->
  (S (S (length l)) < fuel)%nat ->
  wp (fd ← open fuel fp flags; _ ← sys_read (S (S rounds)) fuel terminal_read terminal_write fd b1 size;
      sys_read (S (S rounds)) fuel terminal_read terminal_write fd b2 size)
    (fun r s' => r = size /\ forall j, 0 <= j < size -> d_mem (k_dfs s') @@ (b2 + j) = file_byte (k_dfs s) l ino 0 j) s.
Proof.
  intros Hinv Htm Hreq Hfd Hfl Hfp Hfp0 H2s H2i Hb1 Hb20 Hb2 Hl. pose proof Hreq as [Hrf [Hi0 _] (_ & _ & Hs & _) _ Hfuel].
  pose proof (find_free_spec (fd_table (k_proc s)) 0) as Hfree. rewrite Hfd in Hfree. destruct Hfree as (Hfdr & _). apply wp_bind.
  eapply wp_mono; [by apply (wp_open Hrel (S (S n)) (S (S h)) l s fp name flags ino)|].
  rewrite Hfd. intros r s1 (-> & f & Hop). pose proof (op_new _ _ _ _ _ _ _ _ _ Hop) as (_ & Hfh & _).
  destruct (opened_request _ _ _ _ _ _ _ _ _ _ fp b1 0 size Hop Htm Hreq (vi_dfs _ _ _ Hinv)) as [Hreq1 Hbyte].
  assert (slot s1 fd = f) as Hslot by (unfold slot; rewrite (op_proc _ _ _ _ _ _ _ _ _ Hop); by apply slot_set).
  set (x := File FILE_TYPE_REGULAR flags 0 DFS_OPS ino). assert (files (k_dfs s1) !! slot s1 fd = Some x) as Hx.
  { rewrite Hslot, (op_files _ _ _ _ _ _ _ _ _ Hop). apply lookup_insert_eq. }
  assert (0 <= fd < MAX_FD) as Hfdm by (rewrite (vi_table _ _ _ Hinv) in Hfdr; unfold MAX_FD in *; lia).
  assert (inode_size (d_mem (k_dfs s1)) ino = inode_size (d_mem (k_dfs s)) ino) as Esz.
  { destruct (inode_same (d_mem (k_dfs s)) (d_mem (k_dfs s1)) ino) as (_ & E & _); [| done]. intros i Hi.
    apply (op_kept _ _ _ _ _ _ _ _ _ Hop); [by apply Hreq | destruct Htm as (_ & _ & _ & ?); unfold sizeof_inode in *; lia]. }
  assert (table_mapped (k_dfs s1) ino) as Htm1 by (unfold table_mapped in *; by rewrite (op_table _ _ _ _ _ _ _ _ _ Hop)).
  apply wp_bind. eapply wp_mono; [apply (wp_sys_read Hrel (S n) (S h) l s1 fd x f name 0 0 b1 size);
    [apply Hop | done | done | done | done | done | done | done | lia] |].
  intros r s2 (-> & d & m & l1 & [Hm1 Hm2] & Hdr & ->). rewrite Hslot.
  set (x' := set_position (position x + size) x). set (s2 := set_k_dfs _ s1). change (private_data x) with ino in *.
  destruct (did_read_next m l (k_dfs s1) name ino f x' size b1 b2 size l1 d f Hdr) as (Hinv2 & Hreq2 & Hbyte2); try (done || lia).
  destruct m as [[|[|m1]] [|m2]]; simpl in Hm1, Hm2; [lia .. |].
  pose proof (dr_len _ _ _ _ _ _ _ _ _ Hdr) as Hlen.
  assert (slot s2 fd = f) as Hslot2 by exact Hslot.
  eapply wp_mono; [apply (wp_sys_read Hrel m1 m2 l1 s2 fd x' f name 0 size b2 size);
    [exact Hinv2 | done | rewrite Hslot2; apply lookup_insert_eq | done | done | done | done | exact Hreq2 | lia] |].
  intros r s3 (-> & d' & m' & l' & _ & Hdr' & ->). split; [done |]. intros j Hj. cbn [k_dfs set_k_dfs d_mem set_files].
  rewrite (dr_data _ _ _ _ _ _ _ _ _ Hdr') by done. unfold s2 at 1. cbn [k_dfs set_k_dfs]. change (private_data x') with ino.
  rewrite Hbyte2, Hbyte; [done | unfold PAGE_SIZE_4KB in *; lia ..].
Qed.

(** ** Closing and seeking *)

Lemma set_slot_undo fd f p : nth (Z.to_nat fd) (fd_table p) 0 = 0 -> 0 <= fd < Z.of_nat (length (fd_table p)) -> set_slot fd 0 (set_slot fd f p) = p.
Proof.
  intros H0 Hfd. destruct p as [t a b c]. unfold set_slot. cbn in *. f_equal. rewrite list_insert_insert_eq. apply list_insert_id.
  rewrite nth_lookup in H0. destruct (t !! Z.to_nat fd) as [y|] eqn:E; [simpl in H0; by rewrite H0 |]. apply lookup_ge_None in E. lia.
Qed.

(** What is left is the lookup's doing; see [quiet]. *)
Lemma wp_open_close (Hrel : reliable) n h l s fp name flags ino fd : vfs_inv (S n, S h) l s -> root_file (k_dfs s) fp name ino -> table_mapped (k_dfs s) ino ->
  ino <> 0 -> 0 < fp /\ fp + MAX_FILEPATH <= heap_base -> (length name + 2 < fuel)%nat -> find_free (fd_table (k_proc s)) 0 = Some fd -> 3 <= fd ->
  wp (fd ← open fuel fp flags; close rounds fuel terminal_read terminal_write fd) (fun r s' => r = 0 /\ vfs_inv (S n, S h) l s' /\
    k_proc s' = k_proc s /\ k_cpu s' = k_cpu s /\ files (k_dfs s') = files (k_dfs s)) s.
Proof.
  intros Hinv Hrf Htm Hi0 Hfp Hf Hfd Hfd3. pose proof (find_free_spec (fd_table (k_proc s)) 0) as Hfree. rewrite Hfd in Hfree.
  destruct Hfree as (Hfdr & H0 & _). rewrite Z.sub_0_r in H0. apply wp_bind. eapply wp_mono; [by apply (wp_open Hrel n h l s fp name flags ino)|].
  rewrite Hfd. intros r s1 (-> & f & Hop). pose proof (op_new _ _ _ _ _ _ _ _ _ Hop) as (Hnf & Hfh & Hne).
  assert (slot s1 fd = f) as Hslot by (unfold slot; rewrite (op_proc _ _ _ _ _ _ _ _ _ Hop); by apply slot_set).
  assert (0 <= fd < MAX_FD) as Hfdm by (rewrite (vi_table _ _ _ Hinv) in Hfdr; unfold MAX_FD in *; lia).
  pose proof (op_inv _ _ _ _ _ _ _ _ _ Hop) as [Hd1 Hfi1 Ht1 Hl1]. set (x := File FILE_TYPE_REGULAR flags 0 DFS_OPS ino).
  assert (files (k_dfs s1) !! f = Some x) as Hx by (rewrite (op_files _ _ _ _ _ _ _ _ _ Hop); apply lookup_insert_eq).
  apply wp_with_file; [lia | rewrite Hslot; unfold heap_base, DIRECT_OFFSET in *; lia |]. rewrite Hslot.
  apply wp_bind, (wp_zoom_file _ x); [done |]. apply wp_bind. unfold get_ops. cbn [file_ops x Z.eqb DFS_OPS Pos.eqb]. apply wp_ret. cbn [op_close dfs_ops].
  apply wp_bind, wp_zoom. cbn [view l_k_dfs]. apply wp_bind, wp_zoom. eapply wp_mono; [apply (wp_fs_kfree (S n) h f); [apply Hd1 | by apply (Hfi1 f x)] |].
  intros [] e (Hok & Hob & Hpg & Hbl). apply wp_bind, wp_modify, wp_ret, wp_bind, wp_fd_set; [done |]. apply wp_ret. split; [done |].
  assert (delete f (files (k_dfs s1)) = files (k_dfs s)) as Edel.
  { rewrite (op_files _ _ _ _ _ _ _ _ _ Hop). by apply delete_insert_id. }
  cbn. rewrite Edel, (op_proc _ _ _ _ _ _ _ _ _ Hop), (op_cpu _ _ _ _ _ _ _ _ _ Hop), set_slot_undo by done.
  split; [| done]. destruct Hd1 as [[_ Hc Hnd He Ha] Had]. split; cbn.
  - split; [split |]; try done. intros p c Hp. cbn. destruct (He p c Hp) as (? & Ho & ?). split; [done |]. rewrite Hob, Hpg. split; [| done].
    split; [| done]. intros ->. change (entries (d_pc (k_dfs s1)) !! f = Some c) in Hp. rewrite (op_cache _ _ _ _ _ _ _ _ _ Hop), Hne in Hp. done.
  - intros g y Hg. apply Hob. split; [intros ->; congruence |]. apply (Hfi1 g y). rewrite (op_files _ _ _ _ _ _ _ _ _ Hop).
    rewrite lookup_insert_ne; [done |]. intros ->. congruence.
  - apply Hinv.
  - apply Hl1.
Qed.

(** The position that [lseek] sets. *)
Definition seek_to (x : file) (size offset whence : Z) : Z :=
  if whence =? 0 then offset else if whence =? 1 then u64 (position x + offset) else u64 (size - offset).

Lemma wp_lseek s fd x offset whence : 3 <= fd < MAX_FD -> slot s fd <> 0 -> files (k_dfs s) !! slot s fd = Some x -> 0 <= whence <= 2 ->
  wp (lseek fd offset whence) (fun r s' => r = s32 offset /\ s' = set_k_dfs (set_files (<[slot s fd :=
    set_position (seek_to x (inode_size (d_mem (k_dfs s)) (private_data x)) offset whence) x]> (files (k_dfs s))) (k_dfs s)) s) s.
Proof.
  intros Hfd Hs Hx Hw. apply wp_with_file; [done | done |]. unfold seek_to.
  destruct (Z.eqb_spec whence 0) as [->|H0]; [| destruct (Z.eqb_spec whence 1) as [->|H1]; [| assert (whence = 2) as -> by lia; cbn [Z.eqb Pos.eqb]]].
  - apply wp_bind, wp_zoom, (wp_upd_file _ x); [done |]. by apply wp_ret.
  - apply wp_bind, wp_zoom, (wp_upd_file _ x); [done |]. by apply wp_ret.
  - apply wp_bind, (wp_zoom_file _ x); [done |]. apply wp_bind, wp_gets, wp_bind, wp_zoom, (wp_upd_file _ x); [done |]. by apply wp_ret.
Qed.

Lemma close_guards s fd : 0 <= fd ->
  close rounds fuel terminal_read terminal_write fd s =
    if fd <=? 2 then Ok (0, s)
    else if fd <? MAX_FD then
      if slot s fd =? 0 then Ok (-1, s) else close rounds fuel terminal_read terminal_write fd s
    else if fd =? MAX_FD then
      if heap_start (k_proc s) =? 0 then Ok (-1, s)
      else match files (k_dfs s) !! heap_start (k_proc s) with None => Err Fault | Some _ => close rounds fuel terminal_read terminal_write fd s end
    else Ok (-1, s).
Proof.
  intros Hfd. destruct (Z.leb_spec fd 2) as [H2|H2]; [unfold close, with_file; by rewrite (proj2 (Z.leb_le _ _) H2) |].
  destruct (Z.ltb_spec fd MAX_FD) as [H3|H3].
  - destruct (Z.eqb_spec (slot s fd) 0) as [E|E]; [| done]. unfold close, with_file, fd_get, gets, mbind, M_bind.
    rewrite (proj2 (Z.leb_gt _ _)), (proj2 (Z.ltb_ge _ _)), (proj2 (Z.ltb_lt _ _) H3) by lia. cbn. unfold slot in E. by rewrite E.
  - destruct (Z.eqb_spec fd MAX_FD) as [->|H4].
    + destruct (Z.eqb_spec (heap_start (k_proc s)) 0) as [E|E].
      * unfold close, with_file, fd_get, gets, mbind, M_bind. cbn. by rewrite E.
      * destruct (files (k_dfs s) !! heap_start (k_proc s)) as [x|] eqn:Ex; [done |].
        unfold close, with_file, fd_get, gets, mbind, M_bind. cbn. rewrite (proj2 (truthy_true _) E). cbn. unfold zoom, get_file, gets, mbind, M_bind. cbn. by rewrite Ex.
    + unfold close, with_file. rewrite (proj2 (Z.leb_gt _ _)), (proj2 (Z.ltb_lt _ _)) by lia. done.
Qed.
End lemmas.

(** * Theorems *)

Section theorems.
Context {St : Type} `{HL : FsServicesLaws St}.
Context (rounds fuel : nat) (terminal_read terminal_write : Z -> Z -> Z -> M (kernel St) Z).
Implicit Types s : kernel St.

(** C27: [open] puts a new file, at position 0, with its own copy of the path, in
    a free slot of the table below which no slot is free, and returns that slot's
    number; only if all 128 slots are taken it gives -1 and makes no file. The lock
    is free and interrupts are as before. *)
Theorem open_lowest_free n h l s fp name flags ino : reliable -> vfs_inv (S n, S h) l s -> root_file (k_dfs s) fp name ino -> table_mapped (k_dfs s) ino ->
  ino <> 0 -> 0 < fp /\ fp + MAX_FILEPATH <= heap_base -> (length name + 2 < fuel)%nat ->
  wp (open fuel fp flags) (fun r s' =>
    (0 <= r < MAX_FD /\ slot s r = 0 /\ (forall i, 0 <= i < r -> slot s i <> 0) /\ exists f, opened (S n, h) l s name flags ino r f s') \/
    ((forall i, 0 <= i < MAX_FD -> slot s i <> 0) /\ r = open_fail /\ s' = set_k_dfs (k_dfs s') s /\ quiet (k_dfs s) (k_dfs s'))) s.
Proof.
  intros Hrel Hinv Hrf Htm Hi0 Hfp Hf. eapply wp_mono; [by eapply wp_open |]. intros r s'.
  pose proof (find_free_slot (fd_table (k_proc s))) as Hfree. rewrite (vi_table _ _ _ Hinv), Z2Nat.id in Hfree by done.
  destruct (find_free _ 0) as [fd|]; [| by right]. intros [-> Ho]. destruct Hfree as (H1 & H2 & H3). by left.
Qed.

(** Opening a file and closing it again leaves the process, the open files and
    the processor as they were. *)
Theorem open_close_roundtrip n h l s fp name flags ino fd : reliable -> vfs_inv (S n, S h) l s -> root_file (k_dfs s) fp name ino -> table_mapped (k_dfs s) ino ->
  ino <> 0 -> 0 < fp /\ fp + MAX_FILEPATH <= heap_base -> (length name + 2 < fuel)%nat -> find_free (fd_table (k_proc s)) 0 = Some fd -> 3 <= fd ->
  wp (fd ← open fuel fp flags; close rounds fuel terminal_read terminal_write fd) (fun r s' => r = 0 /\ vfs_inv (S n, S h) l s' /\
    k_proc s' = k_proc s /\ k_cpu s' = k_cpu s /\ files (k_dfs s') = files (k_dfs s)) s.
Proof. intros Hrel. by apply wp_open_close. Qed.

(** The second of two reads that follow an [open] gives the same bytes as the
    first, those at the start of the file, although the position has moved on:
    the offset in the page is ignored. *)
Theorem second_read_repeats n h l s fp name flags ino fd b1 b2 size : reliable ->
  vfs_inv (S (S (S n)), S (S (S h))) l s -> table_mapped (k_dfs s) ino -> page_request fuel (k_dfs s) fp name ino 0 0 b1 size ->
  find_free (fd_table (k_proc s)) 0 = Some fd -> Z.odd flags = true -> fp + MAX_FILEPATH <= heap_base -> 0 < fp ->
  2 * size <= PAGE_SIZE_4KB -> 2 * size <= inode_size (d_mem (k_dfs s)) ino -> b1 + size <= DIRECT_OFFSET -> 0 < b2 -> b2 + size <= DIRECT_OFFSET ->
  (S (S (length l)) < fuel)%nat ->
  wp (fd ← open fuel fp flags; _ ← sys_read (S (S rounds)) fuel terminal_read terminal_write fd b1 size;
      sys_read (S (S rounds)) fuel terminal_read terminal_write fd b2 size)
    (fun r s' => r = size /\ forall j, 0 <= j < size -> d_mem (k_dfs s') @@ (b2 + j) = file_byte (k_dfs s) l ino 0 j) s.
Proof. intros Hrel. by apply wp_open_read_twice. Qed.

(** [lseek] sets the position of the file from the start, the current position
    or the end, less the offset there, and changes nothing else; it returns the
    offset it was given. *)
Theorem lseek_spec s fd x offset whence : 3 <= fd < MAX_FD -> slot s fd <> 0 -> files (k_dfs s) !! slot s fd = Some x -> 0 <= whence <= 2 ->
  wp (lseek fd offset whence) (fun r s' => r = s32 offset /\ s' = set_k_dfs (set_files (<[slot s fd :=
    set_position (seek_to x (inode_size (d_mem (k_dfs s)) (private_data x)) offset whence) x]> (files (k_dfs s))) (k_dfs s)) s) s.
Proof. apply wp_lseek. Qed.

(** The errors of [close]: the descriptors of the terminal give 0, a free slot
    and a descriptor above 128 give -1, without any effect; descriptor 128, which
    is past the table, is not rejected, and the start of the heap of the process
    is taken for a file. *)
Theorem close_bad_descriptor s fd : 0 <= fd -> (fd < MAX_FD -> slot s fd = 0) ->
  files (k_dfs s) !! heap_start (k_proc s) = None ->
  close rounds fuel terminal_read terminal_write fd s =
    if fd <=? 2 then Ok (0, s)
    else if (fd =? MAX_FD) && negb (heap_start (k_proc s) =? 0) then Err Fault else Ok (-1, s).
Proof.
  intros Hfd Hs Hh. rewrite close_guards by done. rewrite Hh. destruct (fd <=? 2); [done |].
  destruct (Z.ltb_spec fd MAX_FD) as [H1|H1]; [rewrite (proj2 (Z.eqb_neq fd MAX_FD)) by lia; by rewrite Hs |].
  by destruct (fd =? MAX_FD), (heap_start (k_proc s) =? 0).
Qed.
End theorems.

(** * Witnesses *)

(** No file is open but those of the terminal. *)
Definition demo_kernel : kernel fs_sim :=
  Kernel (set_files {[ sim_heap + 12288 := File 1 1 4000 DFS_OPS demo_inode ]} (demo_dfs ∅ 0)) (Cpu FLAGS_IF 0) 0
    (Process ([7; 8; 8; sim_heap + 12288] ++ repeat 0 124) 0x401000 0x402000 0).
Definition no_terminal (f buf n : Z) : M (kernel fs_sim) Z := mret 0.

Lemma demo_kernel_inv : vfs_inv (4, 4)%nat [] demo_kernel.
Proof.
  split; [destruct demo_inv; by split | | by vm_compute | done]. cbn [k_dfs demo_kernel files set_files]. intros f x [<- <-]%lookup_singleton_Some.
  split; [vm_compute; split; [discriminate | done] |]. cbn [d_env d_pc set_files demo_dfs pc_env free_objs demo_env]. rewrite !not_elem_of_cons.
  split_and!; [unfold sim_heap; lia .. | apply not_elem_of_nil].
Qed.

Lemma demo_kernel_root : root_file (k_dfs demo_kernel) demo_path [97; 98] demo_inode.
Proof. apply (root_file_mono (demo_dfs ∅ 0)); [by apply demo_root | done | done | done]. Qed.

Lemma demo_kernel_mapped : table_mapped (k_dfs demo_kernel) demo_inode.
Proof. vm_compute. split_and!; discriminate. Qed.

Lemma demo_kernel_free : find_free (fd_table (k_proc demo_kernel)) 0 = Some 4.
Proof. by vm_compute. Qed.

Lemma open_lowest_free_witness : wp (open 10 demo_path O_RDONLY)
  (fun r s' => r = 4 /\ exists f, opened (4, 3)%nat [] demo_kernel [97; 98] O_RDONLY demo_inode 4 f s') demo_kernel.
Proof.
  eapply wp_mono; [apply (open_lowest_free 10 3 3 [] demo_kernel demo_path [97; 98] O_RDONLY demo_inode);
    [exact demo_reliable | exact demo_kernel_inv | exact demo_kernel_root | exact demo_kernel_mapped | done
    | split; [done | vm_compute; discriminate] | simpl; lia] |].
  intros r s' [(H1 & H2 & H3 & Ho)|(Hfull & _)]; [| by destruct (Hfull 4); [unfold MAX_FD; lia |]].
  assert (~ 4 < r) as Hlow by (intros Hr; by destruct (H3 4); [lia |]).
  assert (r = 4) as ->; [| by split].
  assert (forallb (fun k => negb (slot demo_kernel k =? 0)) [0; 1; 2; 3] = true) as Hb by (by vm_compute).
  rewrite forallb_forall in Hb. destruct (decide (r = 4)) as [|Hne]; [done |]. exfalso.
  assert (In r [0; 1; 2; 3]) as Hin by (cbn; lia). apply Hb, negb_true_iff, Z.eqb_neq in Hin. done.
Defined.

Lemma open_close_roundtrip_witness : wp (fd ← open 10 demo_path O_RDONLY; close 2 10 no_terminal no_terminal fd)
  (fun r s' => r = 0 /\ vfs_inv (4, 4)%nat [] s' /\ k_proc s' = k_proc demo_kernel /\ k_cpu s' = k_cpu demo_kernel /\
    files (k_dfs s') = files (k_dfs demo_kernel)) demo_kernel.
Proof.
  apply (open_close_roundtrip 2 10 no_terminal no_terminal 3 3 [] demo_kernel demo_path [97; 98] O_RDONLY demo_inode 4);
    [exact demo_reliable | exact demo_kernel_inv | exact demo_kernel_root | exact demo_kernel_mapped | done
    | split; [done | vm_compute; discriminate] | simpl; lia | exact demo_kernel_free | lia].
Defined.

(** The first ten bytes, twice. *)
Lemma second_read_repeats_witness :
  wp (fd ← open 10 demo_path O_RDONLY; _ ← sys_read 2 10 no_terminal no_terminal fd 0x6000 10; sys_read 2 10 no_terminal no_terminal fd 0x7000 10)
    (fun r s' => r = 10 /\ forall j, 0 <= j < 10 -> d_mem (k_dfs s') @@ (0x7000 + j) = file_byte (k_dfs demo_kernel) [] demo_inode 0 j) demo_kernel /\
  file_byte (k_dfs demo_kernel) [] demo_inode 0 3 <> file_byte (k_dfs demo_kernel) [] demo_inode 0 13.
Proof.
  split; [| by vm_compute].
  apply (second_read_repeats 0 10 no_terminal no_terminal 1 1 [] demo_kernel demo_path [97; 98] O_RDONLY demo_inode 4 0x6000 0x7000 10);
    [exact demo_reliable | exact demo_kernel_inv | exact demo_kernel_mapped | | exact demo_kernel_free | done | vm_compute; discriminate | done
    | done | vm_compute; discriminate | vm_compute; discriminate | done | vm_compute; discriminate | simpl; lia].
  apply (page_request_mono 10 (demo_dfs ∅ 0)); [| done | done | done]. apply demo_request; unfold PAGE_SIZE_4KB, DIRECT_OFFSET; lia.
Defined.

Lemma lseek_spec_witness : wp (lseek 3 100 2) (fun r s' => r = 100 /\
  s' = set_k_dfs (set_files (<[sim_heap + 12288 := File 1 1 8092 DFS_OPS demo_inode]> (files (k_dfs demo_kernel))) (k_dfs demo_kernel)) demo_kernel) demo_kernel.
Proof.
  apply (lseek_spec demo_kernel 3 (File 1 1 4000 DFS_OPS demo_inode) 100 2); [unfold MAX_FD; lia | vm_compute; discriminate | by vm_compute | lia].
Defined.

Lemma close_bad_descriptor_witness :
  close 2 10 no_terminal no_terminal 128 demo_kernel = Err Fault /\ close 2 10 no_terminal no_terminal 200 demo_kernel = Ok (-1, demo_kernel).
Proof.
  split; apply (close_bad_descriptor 2 10 no_terminal no_terminal demo_kernel); (lia || (unfold MAX_FD; lia) || by vm_compute).
Defined.
