(* ===== verification/Time.v ===== *)
(** Time ([arch/x86_64/drivers/rtc/rtc.c], [tsc/tsc.c], [timers/pit.c],
    [kernel/time/time.c]): the clock read at boot, the date as seconds since
    1970, and the time since then from the time stamp counter. *)
From S2P Require Import Prelude Interfaces.

(** * State *)

Definition CMOS_ADDRESS_PORT : Z := 0x70.
Definition CMOS_DATA_PORT : Z := 0x71.

(** [rtc_time_t]. *)
Record rtc_time : Type := RtcTime { second : Z; minute : Z; hour : Z; day : Z; month : Z; year : Z }.

(** The devices and the globals of [time.c]. *)
Record clock (St : Type) : Type := Clock {
  c_env : St;
  division : Z;
  boot_rtc : rtc_time;
  boot_tsc : Z;
  tsc_ticks_per_ms : Z;
  unix_boot_timestamp : Z;
}.
Arguments Clock {St} c_env division boot_rtc boot_tsc tsc_ticks_per_ms unix_boot_timestamp.
Arguments c_env {St} _.
Arguments division {St} _.
Arguments boot_rtc {St} _.
Arguments boot_tsc {St} _.
Arguments tsc_ticks_per_ms {St} _.
Arguments unix_boot_timestamp {St} _.

(** * Operations *)

Section rtc.
Context {St : Type} `{Ports St}.

Definition get_update_in_progress_flag : M St Z :=
  outb CMOS_ADDRESS_PORT 0x0A;; x ← inb CMOS_DATA_PORT; mret (Z.land x 0x80).
Definition read_rtc_register (reg : Z) : M St Z :=
  outb CMOS_ADDRESS_PORT (u8 reg);; inb CMOS_DATA_PORT.

(** [while (get_update_in_progress_flag());] *)
Fixpoint wait_update (fuel : nat) : M St unit :=
  f ← get_update_in_progress_flag;
  if truthy f then match fuel with O => fail Hang | S fuel' => wait_update fuel' end else mret tt.

(** A byte in binary-coded decimal. *)
Definition unbcd (x : Z) : Z := u8 (Z.land x 0x0F + x / 16 * 10).

(** What [read_rtc] makes of the registers. *)
Definition rtc_binary (registerB : Z) (t : rtc_time) : rtc_time :=
  if negb (truthy (Z.land registerB 0x04)) then
    RtcTime (unbcd (second t)) (unbcd (minute t))
      (Z.lor (Z.land (hour t) 0x0F + Z.land (hour t) 0x70 / 16 * 10) (Z.land (hour t) 0x80))
      (unbcd (day t)) (unbcd (month t)) (Z.land (year t) 0x0F + year t / 16 * 10)
  else t.
Definition rtc_24h (registerB : Z) (t : rtc_time) : rtc_time :=
  let h := if negb (truthy (Z.land registerB 0x02)) && truthy (Z.land (hour t) 0x80)
    then (Z.land (hour t) 0x7F + 12) mod 24 else hour t in
  RtcTime (second t) (minute t) h (day t) (month t) (year t + 2000).

Definition read_rtc (fuel : nat) : M St rtc_time :=
  wait_update fuel;;
  s ← read_rtc_register 0x00;
  m ← read_rtc_register 0x02;
  h ← read_rtc_register 0x04;
  d ← read_rtc_register 0x07;
  mo ← read_rtc_register 0x08;
  y ← read_rtc_register 0x09;
  registerB ← read_rtc_register 0x0B;
  mret (rtc_24h registerB (rtc_binary registerB (RtcTime s m h d mo y))).

(** ** The interval timer *)

(** The inner loop of [pit_wait_ms]. *)
Fixpoint pit_poll (fuel : nat) (last : Z) : M St unit :=
  outb 0x43 0x00;;
  lo ← inb 0x40;
  hi ← inb 0x40;
  let count := Z.lor lo (Z.shiftl hi 8) in
  if (last <? count) || (count =? 0) then mret tt
  else match fuel with O => fail Hang | S fuel' => pit_poll fuel' count end.

(** Its outer loop; [rounds] bounds the loads of the counter. *)
Fixpoint pit_wait (rounds fuel : nat) (total_ticks : Z) : M St unit :=
  if total_ticks <=? 0 then mret tt
  else
    match rounds with
    | O => fail Hang
    | S rounds' =>
        let wait := if 0xFFFF <? total_ticks then 0xFFFF else u16 total_ticks in
        outb 0x43 0x30;;
        outb 0x40 (u8 wait);;
        outb 0x40 (u8 (Z.shiftr wait 8));;
        pit_poll fuel wait;;
        pit_wait rounds' fuel (u32 (total_ticks - wait))
    end.
Definition pit_wait_ms (rounds fuel : nat) (division ms : Z) : M St unit :=
  pit_wait rounds fuel (u32 (ms * 1193));;
  outb 0x43 0x36;;
  outb 0x40 (u8 division);;
  outb 0x40 (u8 (Z.shiftr division 8)).

(** ** The time stamp counter *)

(** [(uint64_t)high >> 32 | low] *)
Definition rdtsc : M St Z :=
  t ← read_tsc;
  let high := t / 2 ^ 32 in let low := t mod 2 ^ 32 in
  mret (Z.lor (Z.shiftr high 32) low).

(** [init_tsc] stores through its two pointers. *)
Definition init_tsc (rounds fuel : nat) (division : Z) : M St (Z * Z) :=
  boot ← rdtsc;
  pit_wait_ms rounds fuel division 10;;
  current ← rdtsc;
  mret (boot, u64 (current - boot) / 10).
End rtc.

Section time.
Context {St : Type} `{Ports St}.
Implicit Types s : clock St.

Definition set_c_env (x : St) s : clock St := Clock x (division s) (boot_rtc s) (boot_tsc s) (tsc_ticks_per_ms s) (unix_boot_timestamp s).
Definition l_c_env : lens (clock St) St := Lens c_env set_c_env.
Definition set_boot (t : rtc_time) (tsc ticks unix : Z) s : clock St := Clock (c_env s) (division s) t tsc ticks unix.

(** The seconds from 1970 to a time, as [init_time] computes them: the days
    through the number of the Julian day, of which [julian] is what the year and
    the month contribute. *)
Definition julian (year month : Z) : Z :=
  let a := u64 ((14 - month) ÷ 12) in
  let y := u64 (u32 (year + 4800) - a) in
  let m := u64 (u64 (month + 12 * a) - 3) in
  u64 (153 * m + 2) / 5 + 365 * y + y / 4 - y / 100 + y / 400 - 32045.
Definition days_of (t : rtc_time) : Z := u64 (day t + julian (year t) (month t)).
Definition unix_of (t : rtc_time) : Z :=
  u64 (u64 (u64 (days_of t - 2440588) * 86400) + hour t * 3600 + minute t * 60 + second t).

Definition init_time (rounds fuel : nat) : M (clock St) unit :=
  t ← zoom l_c_env (read_rtc fuel);
  d ← gets division;
  r ← zoom l_c_env (init_tsc rounds fuel d);
  modify (set_boot t r.1 r.2 (unix_of t)).

(** A division by 0 traps. *)
Definition time : M (clock St) Z :=
  cur_rdtsc ← zoom l_c_env rdtsc;
  s ← get;
  if tsc_ticks_per_ms s =? 0 then fail Fault
  else
    let seconds_passed := u64 (cur_rdtsc - boot_tsc s) / tsc_ticks_per_ms s / 1000 in
    mret (u64 (seconds_passed + unix_boot_timestamp s)).
End time.

(** * Specification *)

(** ** The devices *)

(** [dev_ok n r s]: an update of the clock ends within [n] looks at it, and its
    registers then read [r]. [cmos_at i s]: register [i] of it is selected.
    [pit_left k s]: the counter of the timer runs out within [k] looks at it;
    [pit_polls] bounds this for any load. *)
Class ClockDevices (St : Type) `{Ports St} : Type := {
  dev_ok : nat -> (Z -> Z) -> St -> Prop;
  cmos_at : Z -> St -> Prop;
  pit_left : nat -> St -> Prop;
  pit_polls : nat;
  wp_outb_cmos n r i s : dev_ok n r s ->
    wp (outb CMOS_ADDRESS_PORT i) (fun _ s' => dev_ok n r s' /\ cmos_at i s') s;
  wp_inb_cmos n r i s : dev_ok n r s -> cmos_at i s -> i <> 0x0A ->
    wp (inb CMOS_DATA_PORT) (fun x s' => x = r i /\ dev_ok n r s') s;
  wp_inb_update n r s : dev_ok n r s -> cmos_at 0x0A s ->
    wp (inb CMOS_DATA_PORT) (fun x s' => (Z.land x 0x80 = 0 /\ dev_ok n r s') \/ (exists n', n = S n' /\ dev_ok n' r s')) s;
  wp_outb_pit_mode n r k x s : dev_ok n r s -> pit_left k s ->
    wp (outb 0x43 x) (fun _ s' => dev_ok n r s' /\ pit_left k s') s;
  wp_outb_pit_load n r x s : dev_ok n r s ->
    wp (outb 0x40 x) (fun _ s' => dev_ok n r s' /\ pit_left pit_polls s') s;
  wp_outb_pit_command n r x s : dev_ok n r s -> wp (outb 0x43 x) (fun _ s' => dev_ok n r s') s;
  wp_inb_pit n r k s : dev_ok n r s -> pit_left k s ->
    wp (lo ← inb 0x40; hi ← inb 0x40; mret (Z.lor lo (Z.shiftl hi 8))) (fun x s' => dev_ok n r s' /\
      (x = 0 \/ exists k', k = S k' /\ pit_left k' s')) s;
  wp_read_tsc n r s : dev_ok n r s -> wp read_tsc (fun t s' => 0 <= t < 2 ^ 64 /\ dev_ok n r s') s;
}.

(** ** The clock *)

Definition rtc_valid (t : rtc_time) : Prop :=
  0 <= second t < 60 /\ 0 <= minute t < 60 /\ 0 <= hour t < 24 /\ 1 <= day t <= 31 /\ 1 <= month t <= 12 /\ 2000 <= year t < 2100.

(** The registers of a clock at time [t]; bit 2 of the mode [b] is set for binary
    numbers and bit 1 for hours from 0 to 23. Otherwise they are 12, 1, ..., 11
    with the highest bit set for the afternoon. *)
Definition bcd (n : Z) : Z := n / 10 * 16 + n mod 10.
Definition hour12 (h : Z) : Z := if h mod 12 =? 0 then 12 else h mod 12.
Definition rtc_registers (b : Z) (t : rtc_time) (i : Z) : Z :=
  let enc n := if Z.testbit b 2 then n else bcd n in
  if i =? 0x00 then enc (second t)
  else if i =? 0x02 then enc (minute t)
  else if i =? 0x04 then
    if Z.testbit b 1 then enc (hour t) else Z.lor (enc (hour12 (hour t))) (if 12 <=? hour t then 0x80 else 0)
  else if i =? 0x07 then enc (day t)
  else if i =? 0x08 then enc (month t)
  else if i =? 0x09 then enc (year t - 2000)
  else if i =? 0x0B then b else 0.

(** What [read_rtc] makes of it: noon and midnight change places where the hours
    are not from 0 to 23. *)
Definition hour_seen (b h : Z) : Z := if Z.testbit b 1 then h else if h =? 0 then 12 else if h =? 12 then 0 else h.
Definition rtc_seen (b : Z) (t : rtc_time) : rtc_time := RtcTime (second t) (minute t) (hour_seen b (hour t)) (day t) (month t) (year t).

(** ** The calendar *)

Definition leap (y : Z) : bool := (y mod 4 =? 0) && negb (y mod 100 =? 0) || (y mod 400 =? 0).
Definition month_days (y m : Z) : Z :=
  if m =? 2 then (if leap y then 29 else 28) else if (m =? 4) || (m =? 6) || (m =? 9) || (m =? 11) then 30 else 31.
Definition sum (l : list Z) : Z := foldr Z.add 0 l.
Definition civil_days (t : rtc_time) : Z :=
  sum ((fun y => if leap y then 366 else 365) <$> seqZ 1970 (year t - 1970)) + sum (month_days (year t) <$> seqZ 1 (month t - 1)) + (day t - 1).
Definition unix_time (t : rtc_time) : Z := civil_days t * 86400 + hour t * 3600 + minute t * 60 + second t.

(** * Lemmas *)

Lemma unbcd_bcd n : 0 <= n < 100 -> unbcd (bcd n) = n /\ Z.land (bcd n) 0x0F + bcd n / 16 * 10 = n.
Proof.
  intros Hn. assert (forallb (fun k => (unbcd (bcd (Z.of_nat k)) =? Z.of_nat k) && (Z.land (bcd (Z.of_nat k)) 0x0F + bcd (Z.of_nat k) / 16 * 10 =? Z.of_nat k)) (seq 0 100) = true) as H by by vm_compute.
  apply (forall_Z_lt 100 (fun n => (unbcd (bcd n) =? n) && (Z.land (bcd n) 0x0F + bcd n / 16 * 10 =? n))) with (k := n) in H; [| done].
  apply andb_true_iff in H as [?%Z.eqb_eq ?%Z.eqb_eq]. done.
Qed.

(** The hour register, for a mode with binary numbers or not ([b2]) and hours from
    0 to 23 or not ([b1]). *)
Definition hour_read (b2 b1 : bool) (h : Z) : Z :=
  let enc n := if b2 then n else bcd n in
  let x := if b1 then enc h else Z.lor (enc (hour12 h)) (if 12 <=? h then 0x80 else 0) in
  let y := if negb b2 then Z.lor (Z.land x 0x0F + Z.land x 0x70 / 16 * 10) (Z.land x 0x80) else x in
  if negb b1 && truthy (Z.land y 0x80) then (Z.land y 0x7F + 12) mod 24 else y.

Lemma hour_read_seen b2 b1 h : 0 <= h < 24 -> hour_read b2 b1 h = if b1 then h else if h =? 0 then 12 else if h =? 12 then 0 else h.
Proof.
  intros Hh. apply Z.eqb_eq.
  apply (forall_Z_lt 24 (fun h => hour_read b2 b1 h =? (if b1 then h else if h =? 0 then 12 else if h =? 12 then 0 else h))); [| exact Hh].
  by destruct b2, b1; vm_compute.
Qed.

Lemma rtc_decode b t : rtc_valid t ->
  let r := rtc_registers b t in
  rtc_24h (r 0x0B) (rtc_binary (r 0x0B) (RtcTime (r 0) (r 2) (r 4) (r 7) (r 8) (r 9))) = rtc_seen b t.
Proof.
  intros (Hs & Hm & Hh & Hd & Hmo & Hy). cbn zeta. unfold rtc_registers. cbn [Z.eqb Pos.eqb].
  pose proof (hour_read_seen (Z.testbit b 2) (Z.testbit b 1) (hour t) Hh) as Hhr. unfold hour_read in Hhr.
  unfold rtc_24h, rtc_binary, rtc_seen, hour_seen.
  assert (truthy (Z.land b 0x04) = Z.testbit b 2) as -> by by apply (land_pow2_testbit b 2).
  assert (truthy (Z.land b 0x02) = Z.testbit b 1) as -> by by apply (land_pow2_testbit b 1).
  destruct (Z.testbit b 2); cbn [negb second minute hour day month year] in *; f_equal; try exact Hhr; try lia;
    try (apply unbcd_bcd; lia).
  rewrite (proj2 (unbcd_bcd (year t - 2000) ltac:(lia))). lia.
Qed.

(** Each reading of the counter is one of [pit_left]. *)
Section devices.
Context {St : Type} `{HC : ClockDevices St}.
Implicit Types s : St.

Lemma wp_wait_update fuel : forall n r s, dev_ok n r s -> (n <= fuel)%nat -> wp (wait_update fuel) (fun _ s' => exists n', dev_ok n' r s') s.
Proof.
  induction fuel as [|fuel IH]; intros n r s Hok Hn; cbn [wait_update]; apply wp_bind, wp_bind;
    (eapply wp_mono; [by apply (wp_outb_cmos n r)|]); intros [] s1 [Hok1 Hat]; apply wp_bind;
    (eapply wp_mono; [by apply (wp_inb_update n r)|]); intros x s2 [[Hx Hok2]|(n' & -> & Hok2)]; apply wp_ret.
  - rewrite Hx. apply wp_ret. by exists n.
  - lia.
  - rewrite Hx. apply wp_ret. by exists n.
  - destruct (truthy _); [by apply (IH n'); [| lia] | apply wp_ret; by exists n'].
Qed.

Lemma wp_read_rtc_register n r i s : dev_ok n r s -> 0 <= i < 256 -> i <> 0x0A -> wp (read_rtc_register i) (fun x s' => x = r i /\ dev_ok n r s') s.
Proof.
  intros Hok Hi Ha. apply wp_bind. unfold u8. rewrite Z.mod_small by lia. eapply wp_mono; [by apply (wp_outb_cmos n r)|]. intros [] s1 [Hok1 Hat].
  by apply (wp_inb_cmos n r).
Qed.

Lemma wp_read_rtc fuel n b t s : dev_ok n (rtc_registers b t) s -> (n <= fuel)%nat -> rtc_valid t ->
  wp (read_rtc fuel) (fun x s' => x = rtc_seen b t /\ exists n', dev_ok n' (rtc_registers b t) s') s.
Proof.
  intros Hok Hn Ht. apply wp_bind. eapply wp_mono; [by apply (wp_wait_update fuel n)|]. intros [] s0 [n' Hok0].
  do 7 (apply wp_bind; eapply wp_mono; [apply (wp_read_rtc_register n' (rtc_registers b t)); [eassumption | lia | lia] |]; intros ? ? [-> ?]).
  apply wp_ret. split; [| by exists n']. by apply (rtc_decode b t).
Qed.

Lemma wp_pit_poll fuel : forall k n r last s, dev_ok n r s -> pit_left k s -> (k <= fuel)%nat -> wp (pit_poll fuel last) (fun _ s' => dev_ok n r s') s.
Proof.
  induction fuel as [|fuel IH]; intros k n r last s Hok Hk Hf; cbn [pit_poll]; apply wp_bind;
    (eapply wp_mono; [by apply (wp_outb_pit_mode n r k)|]); intros [] s1 [Hok1 Hk1]; pose proof (wp_inb_pit n r k s1 Hok1 Hk1) as Hw.
  all: unfold wp, mbind, M_bind in Hw |- *; destruct (inb 0x40 s1) as [[lo s2]|]; [| done]; destruct (inb 0x40 s2) as [[hi s3]|]; [| done];
    cbn [mret M_ret] in Hw; destruct Hw as [Hok2 Hx]; cbv zeta.
  - destruct Hx as [->|(k' & -> & _)]; [| lia]. rewrite orb_true_r. exact Hok2.
  - destruct Hx as [->|(k' & -> & Hk')]; [by rewrite orb_true_r |]. destruct (_ || _); [exact Hok2 |].
    apply (IH k'); [done | done | lia].
Qed.

Lemma wp_pit_wait rounds fuel : (pit_polls <= fuel)%nat -> forall n r total s, dev_ok n r s -> 0 <= total < 2 ^ 32 -> total <= 0xFFFF * Z.of_nat rounds ->
  wp (pit_wait rounds fuel total) (fun _ s' => dev_ok n r s') s.
Proof.
  intros Hf. induction rounds as [|rounds IH]; intros n r total s Hok Ht Hr; cbn [pit_wait].
  - rewrite (proj2 (Z.leb_le _ _)) by lia. by apply wp_ret.
  - destruct (Z.leb_spec total 0) as [|Hpos]; [by apply wp_ret |].
    set (wait := if 0xFFFF <? total then 0xFFFF else u16 total).
    assert (0 < wait <= 0xFFFF /\ (wait = total \/ wait = 0xFFFF) /\ wait <= total) as Hw.
    { unfold wait. destruct (Z.ltb_spec 0xFFFF total); [lia |]. unfold u16. rewrite Z.mod_small; lia. }
    clearbody wait. apply wp_bind. eapply wp_mono; [by apply wp_outb_pit_command |]. intros [] s1 Hok1.
    apply wp_bind. eapply wp_mono; [by apply wp_outb_pit_load |]. intros [] s2 [Hok2 _].
    apply wp_bind. eapply wp_mono; [by apply wp_outb_pit_load |]. intros [] s3 [Hok3 Hk].
    apply wp_bind. eapply wp_mono; [by apply (wp_pit_poll fuel pit_polls)|]. intros [] s4 Hok4.
    rewrite u32_small by lia. apply IH; [done | lia | lia].
Qed.

Lemma wp_pit_wait_ms rounds fuel n r d ms s : dev_ok n r s -> (pit_polls <= fuel)%nat -> 0 <= ms -> ms * 1193 < 2 ^ 32 -> ms * 1193 <= 0xFFFF * Z.of_nat rounds ->
  wp (pit_wait_ms rounds fuel d ms) (fun _ s' => dev_ok n r s') s.
Proof.
  intros Hok Hf Hms H1 H2. apply wp_bind. rewrite u32_small by lia. eapply wp_mono; [apply (wp_pit_wait rounds fuel Hf n r); [done | lia | lia] |]. intros [] s1 Hok1.
  apply wp_bind. eapply wp_mono; [by apply wp_outb_pit_command |]. intros [] s2 Hok2.
  apply wp_bind. eapply wp_mono; [by apply wp_outb_pit_load |]. intros [] s3 [Hok3 _].
  eapply wp_mono; [by apply wp_outb_pit_load |]. by intros [] s4 [? _].
Qed.

Lemma wp_rdtsc n r s : dev_ok n r s -> wp rdtsc (fun x s' => 0 <= x < 2 ^ 32 /\ dev_ok n r s') s.
Proof.
  intros Hok. apply wp_bind. eapply wp_mono; [by apply wp_read_tsc |]. intros t s1 [Ht Hok1]. apply wp_ret. cbv zeta.
  rewrite Z.shiftr_div_pow2, (Z.div_small (t / 2 ^ 32)) by (done || dlia). split; [| done]. apply Z.mod_pos_bound. lia.
Qed.

Lemma wp_init_tsc rounds fuel n r d s : dev_ok n r s -> (pit_polls <= fuel)%nat -> (1 <= rounds)%nat ->
  wp (init_tsc rounds fuel d) (fun _ s' => dev_ok n r s') s.
Proof.
  intros Hok Hf Hr. apply wp_bind. eapply wp_mono; [by apply wp_rdtsc |]. intros boot s1 [_ Hok1].
  apply wp_bind. eapply wp_mono; [apply (wp_pit_wait_ms rounds fuel n r); [done | done | lia | lia | lia] |]. intros [] s2 Hok2.
  apply wp_bind. eapply wp_mono; [by apply wp_rdtsc |]. intros current s3 [_ Hok3]. by apply wp_ret.
Qed.
End devices.

(** ** The calendar *)

(** The two calendars agree on the first day of every month of the century. *)
Definition calendars_agree (y m : Z) : bool :=
  let t := RtcTime 0 0 0 1 (m + 1) (y + 2000) in
  (days_of t - 2440588 =? civil_days t) && (0 <=? civil_days t) && (civil_days t <? 2 ^ 19).

Definition calendar_year (y : Z) : bool := forallb (fun m => calendars_agree y (Z.of_nat m)) (seq 0 12).

Lemma calendars : forallb (fun y => calendar_year (Z.of_nat y)) (seq 0 100) = true.
Proof. vm_compute. reflexivity. Qed.

Lemma calendar_month y m : 2000 <= y < 2100 -> 1 <= m <= 12 -> calendars_agree (y - 2000) (m - 1) = true.
Proof.
  intros Hy Hm. pose proof (forall_Z_lt 100 calendar_year calendars (y - 2000) ltac:(lia)) as H1. unfold calendar_year in H1.
  by apply (forall_Z_lt 12 (calendars_agree (y - 2000)) H1); lia.
Qed.

Lemma calendars_agree_first y m : calendars_agree y m = true ->
  let t := RtcTime 0 0 0 1 (m + 1) (y + 2000) in days_of t - 2440588 = civil_days t /\ 0 <= civil_days t < 2 ^ 19.
Proof. unfold calendars_agree. cbv zeta. rewrite !andb_true_iff, Z.eqb_eq, Z.leb_le, Z.ltb_lt. tauto. Qed.

(** From the first day of a month to the others. *)
Lemma days_of_month t t1 : year t1 = year t -> month t1 = month t -> day t1 = 1 -> 1 <= day t <= 31 ->
  days_of t1 - 2440588 = civil_days t1 /\ 0 <= civil_days t1 < 2 ^ 19 -> days_of t - 2440588 = civil_days t /\ 0 <= civil_days t < 2 ^ 20.
Proof.
  intros Ey Em Ed Hd [E Hc]. assert (civil_days t = civil_days t1 + (day t - 1)) as Ec by (unfold civil_days; rewrite Ey, Em, Ed; lia).
  assert (days_of t = u64 (days_of t1 + (day t - 1))) as Edt.
  { unfold days_of. rewrite Ey, Em, Ed. unfold u64. rewrite Z.add_mod_idemp_l by done. f_equal. lia. }
  rewrite Edt, Ec, u64_small by lia. lia.
Qed.

Lemma days_of_civil t : rtc_valid t -> days_of t - 2440588 = civil_days t /\ 0 <= civil_days t < 2 ^ 20.
Proof.
  intros (_ & _ & _ & Hd & Hm & Hy). pose proof (calendars_agree_first _ _ (calendar_month (year t) (month t) Hy Hm)) as H1.
  cbv zeta in H1. by apply (days_of_month t _) in H1; cbn [year month day]; try lia.
Qed.

Lemma unix_of_unix_time t : rtc_valid t -> unix_of t = unix_time t.
Proof.
  intros Ht. destruct (days_of_civil t Ht) as [E Hc]. destruct Ht as (Hs & Hm & Hh & _). unfold unix_of. rewrite E, (u64_small (civil_days t)) by lia.
  rewrite (u64_small (civil_days t * 86400)) by lia. rewrite u64_small by lia. done.
Qed.

(** * Theorems *)

(** C34: at boot the time is read from the clock and turned into the seconds since
    1970 of the Gregorian calendar, for every date of the century, whether the
    clock counts in binary or in decimal digits; only where it gives hours from
    1 to 12 are noon and midnight taken for one another. *)
Theorem init_time_spec {St : Type} `{HC : ClockDevices St} rounds fuel n b t (s : clock St) : dev_ok n (rtc_registers b t) (c_env s) ->
  (n <= fuel)%nat -> (pit_polls <= fuel)%nat -> (1 <= rounds)%nat -> rtc_valid t ->
  wp (init_time rounds fuel) (fun _ s' => boot_rtc s' = rtc_seen b t /\ unix_boot_timestamp s' = unix_time (rtc_seen b t) /\
    (Z.testbit b 1 = true -> rtc_seen b t = t)) s.
Proof.
  intros Hok Hn Hp Hr Ht. apply wp_bind, wp_zoom. eapply wp_mono; [by apply (wp_read_rtc fuel n b t)|]. intros x e (-> & n' & Hok1).
  apply wp_bind, wp_gets, wp_bind, wp_zoom. eapply wp_mono; [by apply (wp_init_tsc rounds fuel n')|]. intros r e' _. apply wp_modify.
  cbn [boot_rtc unix_boot_timestamp set_boot]. split; [done |]. split.
  - apply unix_of_unix_time. destruct Ht as (? & ? & ? & ?). unfold rtc_valid, rtc_seen, hour_seen. cbn. split_and!; try done; repeat case_match; lia.
  - intros Hb. unfold rtc_seen, hour_seen. rewrite Hb. by destruct t.
Qed.

(** A counter that always reads [t]. *)
Definition time_at (t : Z) (s : clock unit) : res Z :=
  match time (H := {| outb _ _ := mret tt; inb _ := mret 0; outl _ _ := mret tt; inl _ := mret 0; read_tsc := mret t |}) s with Ok (x, _) => Ok x | Err e => Err e end.

(** [time] counts the seconds since boot right as long as the high half of the counter
    is that at boot. Once the low half is below that at boot, the difference of the
    two wraps around: [rdtsc] has shifted the high half out, and what [time] gives is
    ahead by nearly 2^64 ticks. *)
Theorem time_until_wrap t0 t (s : clock unit) : 0 <= t0 -> boot_tsc s = t0 mod 2 ^ 32 -> 0 < tsc_ticks_per_ms s < 2 ^ 32 ->
  0 <= unix_boot_timestamp s < 2 ^ 62 -> t0 <= t < 2 ^ 64 ->
  (t / 2 ^ 32 = t0 / 2 ^ 32 -> time_at t s = Ok (unix_boot_timestamp s + (t - t0) / tsc_ticks_per_ms s / 1000)) /\
  (t mod 2 ^ 32 < t0 mod 2 ^ 32 ->
   time_at t s = Ok (unix_boot_timestamp s + (2 ^ 64 - (t0 mod 2 ^ 32 - t mod 2 ^ 32)) / tsc_ticks_per_ms s / 1000)).
Proof.
  intros H0 Hb Ht Hu Htt.
  assert (time_at t s = Ok (u64 (u64 (t mod 2 ^ 32 - boot_tsc s) / tsc_ticks_per_ms s / 1000 + unix_boot_timestamp s))) as E.
  { unfold time_at, time, zoom, rdtsc, get, mbind, M_bind. cbn. rewrite (proj2 (Z.eqb_neq _ _)) by lia.
    rewrite Z.shiftr_div_pow2, (Z.div_small (t / 2 ^ 32)) by (done || dlia). done. }
  pose proof (Z.mod_pos_bound t (2 ^ 32)) as Hm. pose proof (Z.mod_pos_bound t0 (2 ^ 32)) as Hm0.
  assert (forall d, 0 <= d < 2 ^ 64 -> 0 <= d / tsc_ticks_per_ms s / 1000 < 2 ^ 62) as Hs.
  { intros d Hd. rewrite Z.div_div by lia. split; [apply Z.div_pos; lia |]. apply Z.div_lt_upper_bound; nia. }
  rewrite E, Hb. split; intros Hc.
  - assert (t mod 2 ^ 32 - t0 mod 2 ^ 32 = t - t0) as -> by dlia. rewrite (u64_small (t - t0)) by lia.
    rewrite Z.add_comm, u64_small; [done |]. specialize (Hs (t - t0) ltac:(lia)). lia.
  - assert (u64 (t mod 2 ^ 32 - t0 mod 2 ^ 32) = 2 ^ 64 - (t0 mod 2 ^ 32 - t mod 2 ^ 32)) as ->.
    { unfold u64. rewrite <- (Z.mod_add _ 1) by done. rewrite Z.mod_small; lia. }
    rewrite Z.add_comm, u64_small; [done |]. specialize (Hs (2 ^ 64 - (t0 mod 2 ^ 32 - t mod 2 ^ 32)) ltac:(lia)). lia.
Qed.

(** * Witnesses *)

(** A clock that is being updated, a timer that runs out at the third look, and
    a counter that goes up with every reading. *)
Record dev_sim : Type := DevSim { index : Z; polls : nat; registers : Z -> Z; pit : nat; tsc : Z }.

#[export] Instance sim_ports : Ports dev_sim := {
  outb p x s :=
    if p =? CMOS_ADDRESS_PORT then Ok (tt, DevSim x (polls s) (registers s) (pit s) (tsc s))
    else if p =? 0x40 then Ok (tt, DevSim (index s) (polls s) (registers s) 3 (tsc s))
    else Ok (tt, s);
  inb p s :=
    if p =? CMOS_DATA_PORT then
      if index s =? 0x0A then
        match polls s with O => Ok (0, s) | S n => Ok (0x80, DevSim (index s) n (registers s) (pit s) (tsc s)) end
      else Ok (registers s (index s), s)
    else Ok (if pit s is O then 0 else 1, DevSim (index s) (polls s) (registers s) (pred (pit s)) (tsc s));
  outl p x := mret tt;
  inl p := mret 0;
  read_tsc s := Ok (tsc s mod 2 ^ 64, DevSim (index s) (polls s) (registers s) (pit s) (tsc s + 1));
}.

#[export] Program Instance sim_devices : ClockDevices dev_sim := {
  dev_ok n r s := polls s = n /\ registers s = r;
  cmos_at i s := index s = i;
  pit_left k s := (pit s <= k)%nat;
  pit_polls := 3;
}.
Next Obligation. intros n r i [] [? ?]. done. Qed.
Next Obligation. intros n r i [] [Hn Hr] Hi H10. unfold wp. cbn in *. subst. rewrite (proj2 (Z.eqb_neq _ _) H10). done. Qed.
Next Obligation. intros n r [] [Hn Hr] Hi. unfold wp. cbn in *. subst. destruct n; [by left | right; by exists n]. Qed.
Next Obligation. intros n r k x [] [? ?] ?. done. Qed.
Next Obligation. intros n r x [] [? ?]. done. Qed.
Next Obligation. intros n r x [] [? ?]. done. Qed.
Next Obligation.
  intros n r k [i p f c t] [? ?] Hk. unfold wp. cbn in *. split; [done |]. destruct c as [|c]; [by left |]. right. exists (pred k).
  destruct c; cbn; lia.
Qed.
Next Obligation. intros n r [] [? ?]. unfold wp. cbn. split; [apply Z.mod_pos_bound; lia | done]. Qed.

(** One minute before the year 2024, on a clock in decimal digits with hours from
    1 to 12. *)
Definition demo_time : rtc_time := RtcTime 0 59 23 31 12 2023.
Definition demo_clock : clock dev_sim := Clock (DevSim 0 4 (rtc_registers 0 demo_time) 0 1000) 0 (RtcTime 0 0 0 0 0 0) 0 0 0.

Lemma init_time_spec_witness : wp (init_time 1 10) (fun _ s' => unix_boot_timestamp s' = 1704067140) demo_clock.
Proof.
  eapply wp_mono; [apply (init_time_spec 1 10 4 0 demo_time demo_clock); [done | lia | cbn; lia | lia | by repeat split] |].
  intros [] s' (_ & -> & _). vm_compute. reflexivity.
Defined.

(** 1000 ticks a millisecond, and a counter about to wrap at boot. *)
Definition booted : clock unit := Clock tt 0 demo_time (2 ^ 32 - 5000000) 1000 1704067140.

Lemma time_until_wrap_witness :
  time_at (2 ^ 32 - 1000000) booted = Ok (1704067140 + 4) /\ time_at (2 ^ 32 + 1000000) booted = Ok (1704067140 + 18446744069420).
Proof.
  split.
  - apply (time_until_wrap (2 ^ 32 - 5000000) (2 ^ 32 - 1000000) booted); cbn; lia || (vm_compute; reflexivity).
  - apply (time_until_wrap (2 ^ 32 - 5000000) (2 ^ 32 + 1000000) booted); cbn; lia || (vm_compute; reflexivity).
Defined.
