(* ===== verification/Acpi.v ===== *)
(** Interrupt routing ([arch/x86_64/apic/acpi.c], [ioapic.c], [lapic.c]): the
    tables of the firmware that say which input of the I/O APIC each interrupt
    uses, and the programming of its redirection table. *)
From S2P Require Import Prelude CString.

(** * State *)

Definition MAX_ISO : Z := 16.
Definition MULTIBOOT_TAG_TYPE_END : Z := 0.
Definition MULTIBOOT_TAG_TYPE_ACPI_OLD : Z := 14.
Definition MULTIBOOT_TAG_TYPE_ACPI_NEW : Z := 15.
Definition sizeof_SDTHeader : Z := 36.
Definition sizeof_MADT : Z := 44.
Definition IOAPIC_VIRT : Z := 0xffffffffffffb000.
Definition IOAPIC_REGSEL_OFFSET : Z := 0x0.
Definition IOAPIC_IOWIN_OFFSET : Z := 0x10.
Definition IOAPIC_REDTBL_OFFSET : Z := 0x10.
Definition LAPIC_VIRT : Z := 0xffffffffffffa000.
Definition LAPIC_EOI_OFFSET : Z := 0xB0.

(** [struct MADT_ISO]. *)
Record iso : Type := Iso { BusSource : Z; IRQSource : Z; GSI : Z; Flags : Z }.

(** The memory of the firmware's tables, the globals of [acpi.c], [iso_list] up to
    [iso_count], and the stores to the registers of the two APICs, the last
    first. *)
Record apic : Type := Apic {
  a_mem : memory;
  lapic_paddr : Z;
  ioapic_paddr : Z;
  iso_list : list iso;
  mmio : list (Z * Z);
}.
Definition set_lapic_paddr (x : Z) (s : apic) : apic := Apic (a_mem s) x (ioapic_paddr s) (iso_list s) (mmio s).
Definition set_ioapic_paddr (x : Z) (s : apic) : apic := Apic (a_mem s) (lapic_paddr s) x (iso_list s) (mmio s).
Definition set_iso_list (x : list iso) (s : apic) : apic := Apic (a_mem s) (lapic_paddr s) (ioapic_paddr s) x (mmio s).
Definition set_mmio (x : list (Z * Z)) (s : apic) : apic := Apic (a_mem s) (lapic_paddr s) (ioapic_paddr s) (iso_list s) x.

(** * Operations *)

Definition load_iso (m : memory) (p : Z) : iso := Iso (m @@ (p + 2)) (m @@ (p + 3)) (load32 m (p + 4)) (load16 m (p + 8)).

Definition save_iso (p : Z) : M apic unit :=
  s ← get;
  when (Z.of_nat (length (iso_list s)) <? MAX_ISO) (modify (set_iso_list (iso_list s ++ [load_iso (a_mem s) p]))).

(** The loop over the entries of the table. *)
Fixpoint parse_entries (fuel : nat) (ptr stop : Z) : M apic unit :=
  if ptr <? stop then
    match fuel with
    | O => fail Hang
    | S fuel' =>
        m ← gets a_mem;
        let type := m @@ ptr in
        (if type =? 1 then modify (set_ioapic_paddr (load32 m (ptr + 4))) else if type =? 2 then save_iso ptr else mret tt);;
        parse_entries fuel' (ptr + m @@ (ptr + 1)) stop
    end
  else mret tt.

(** A null table faults. *)
Definition parse_madt (fuel : nat) (madt : Z) : M apic unit :=
  if negb (truthy madt) then fail Fault
  else
    m ← gets a_mem;
    modify (set_lapic_paddr (load32 m (madt + sizeof_SDTHeader)));;
    parse_entries fuel (madt + sizeof_MADT) (madt + load32 m (madt + 4)).

(** The loop of [find_madt]: [n] pointers to go, at [ptrs]. *)
Definition APIC_signature : list Z := [65; 80; 73; 67].
Fixpoint find_entry (n : nat) (ptrs entry_size : Z) (m : memory) : Z :=
  match n with
  | O => 0
  | S n' =>
      let paddr := if entry_size =? 8 then load64 m ptrs else load32 m ptrs in
      let h := u64 (paddr + DIRECT_OFFSET) in
      if decide (bytes m h 4 = APIC_signature) then h else find_entry n' (ptrs + entry_size) entry_size m
  end.
Definition find_madt (sdt_phys : Z) (is_xsdt : bool) : M apic Z :=
  m ← gets a_mem;
  let sdt := u64 (sdt_phys + DIRECT_OFFSET) in
  let entry_size := if is_xsdt then 8 else 4 in
  let entries := s32 (u64 (load32 m (sdt + 4) - sizeof_SDTHeader) / entry_size) in
  mret (find_entry (Z.to_nat entries) (sdt + sizeof_SDTHeader) entry_size m).

(** The loop over the tags of the boot loader. Without a tag for the tables the
    pointer is read uninitialised, a fault here. *)
Fixpoint parse_tags (fuel : nat) (tag : Z) : M apic Z :=
  m ← gets a_mem;
  let type := load32 m tag in
  if type =? MULTIBOOT_TAG_TYPE_END then fail Fault
  else if type =? MULTIBOOT_TAG_TYPE_ACPI_NEW then find_madt (load64 m (tag + 8 + 24)) true
  else if type =? MULTIBOOT_TAG_TYPE_ACPI_OLD then find_madt (load32 m (tag + 8 + 16)) false
  else
    match fuel with
    | O => fail Hang
    | S fuel' => parse_tags fuel' (Z.land (u64 (tag + load32 m (tag + 4) + 7)) (2 ^ 64 - 8))
    end.
Definition parse_acpi (fuel : nat) (physBootInfo : Z) : M apic unit :=
  madt ← parse_tags fuel (u64 (physBootInfo + DIRECT_OFFSET) + 8);
  parse_madt fuel madt.

(** ** The I/O APIC *)

Definition store (a v : Z) : M apic unit := modify (fun s => set_mmio ((a, v) :: mmio s) s).
Definition write_ioapic (reg data : Z) : M apic unit :=
  store (IOAPIC_VIRT + IOAPIC_REGSEL_OFFSET) reg;; store (IOAPIC_VIRT + IOAPIC_IOWIN_OFFSET) data.
Definition lapic_eoi : M apic unit := store (LAPIC_VIRT + LAPIC_EOI_OFFSET) 0.

(** The loop over [iso_list]: the first override of an interrupt. *)
Fixpoint find_iso (l : list iso) (irq : Z) : option iso :=
  match l with [] => None | i :: l' => if IRQSource i =? irq then Some i else find_iso l' irq end.

Definition get_gsi_for_irq (irq : Z) : M apic Z :=
  l ← gets iso_list; mret (match find_iso l irq with Some i => GSI i | None => irq end).

Definition ioapic_set_irq (irq vector cpu_id : Z) : M apic unit :=
  l ← gets iso_list;
  let '(gsi, flags) := match find_iso l irq with Some i => (GSI i, Flags i) | None => (irq, 0) end in
  let low := vector in
  let low := if truthy (Z.land flags 0x2) then Z.lor low (Z.shiftl 1 13) else low in
  let low := if truthy (Z.land flags 0x8) then Z.lor low (Z.shiftl 1 15) else low in
  write_ioapic (u32 (IOAPIC_REDTBL_OFFSET + gsi * 2)) low;;
  write_ioapic (u32 (IOAPIC_REDTBL_OFFSET + gsi * 2 + 1)) (u32 (Z.shiftl cpu_id 24)).

(** * Specification *)

(** The tables. An entry of another type than 1 and 2 is skipped. *)
Inductive entry : Type :=
  | EIoapic (ioapic_id address gsi_base : Z)
  | EIso (i : iso)
  | EOther (type : Z) (body : list Z).

Definition le16 (x : Z) : list Z := [x mod 256; x / 2 ^ 8 mod 256].
Definition le32 (x : Z) : list Z := [x mod 256; x / 2 ^ 8 mod 256; x / 2 ^ 16 mod 256; x / 2 ^ 24 mod 256].
Definition entry_bytes (e : entry) : list Z :=
  match e with
  | EIoapic i a g => [1; 12; i; 0] ++ le32 a ++ le32 g
  | EIso i => [2; 10; BusSource i; IRQSource i] ++ le32 (GSI i) ++ le16 (Flags i)
  | EOther t b => t :: Z.of_nat (2 + length b) :: b
  end.
Definition entry_ok (e : entry) : Prop :=
  match e with
  | EIoapic _ a _ => 0 <= a < 2 ^ 32
  | EIso i => 0 <= GSI i < 2 ^ 32 /\ 0 <= Flags i < 2 ^ 16
  | EOther t b => t <> 1 /\ t <> 2 /\ (2 + length b < 256)%nat
  end.
Definition entry_ioapic (e : entry) : list Z := match e with EIoapic _ a _ => [a] | _ => [] end.
Definition entry_iso (e : entry) : list iso := match e with EIso i => [i] | _ => [] end.

(** The registers of an I/O APIC after a list of stores, the last first: a store
    to the window goes to the register selected last. *)
Fixpoint regsel (l : list (Z * Z)) : Z :=
  match l with [] => 0 | (a, v) :: l' => if a =? IOAPIC_VIRT + IOAPIC_REGSEL_OFFSET then v else regsel l' end.
Fixpoint ioapic_reg (l : list (Z * Z)) (r : Z) : Z :=
  match l with
  | [] => 0
  | (a, v) :: l' => if (a =? IOAPIC_VIRT + IOAPIC_IOWIN_OFFSET) && (regsel l' =? r) then v else ioapic_reg l' r
  end.

(** A table of interrupt controllers with these entries at [p]. *)
Definition madt_at (m : memory) (p lapic : Z) (es : list entry) : Prop :=
  0 < p /\ 0 <= lapic < 2 ^ 32 /\ Forall entry_ok es /\
  bytes m (p + sizeof_SDTHeader) 4 = le32 lapic /\
  load32 m (p + 4) = sizeof_MADT + Z.of_nat (length (es ≫= entry_bytes)) /\
  bytes m (p + sizeof_MADT) (length (es ≫= entry_bytes)) = (es ≫= entry_bytes).

(** A root table whose pointers, of [size] bytes, are [ps]. *)
Definition root_at (m : memory) (sdt size : Z) (ps : list Z) : Prop :=
  0 <= sdt < 2 ^ 64 - DIRECT_OFFSET /\ Z.of_nat (length ps) < 2 ^ 28 /\
  load32 m (sdt + DIRECT_OFFSET + 4) = sizeof_SDTHeader + size * Z.of_nat (length ps) /\
  forall i q, ps !! i = Some q -> 0 <= q < 2 ^ 64 - DIRECT_OFFSET /\
    (if size =? 8 then load64 else load32) m (sdt + DIRECT_OFFSET + sizeof_SDTHeader + size * Z.of_nat i) = q.

Definition is_apic (m : memory) (q : Z) : Prop := bytes m (q + DIRECT_OFFSET) 4 = APIC_signature.

(** [n] tags of other types lie between the tags at [p] and [q]. *)
Inductive tags_at (m : memory) : Z -> nat -> Z -> Prop :=
  | tags_here p : tags_at m p 0 p
  | tags_next p n q :
      load32 m p <> MULTIBOOT_TAG_TYPE_END -> load32 m p <> MULTIBOOT_TAG_TYPE_ACPI_NEW -> load32 m p <> MULTIBOOT_TAG_TYPE_ACPI_OLD ->
      tags_at m (Z.land (u64 (p + load32 m (p + 4) + 7)) (2 ^ 64 - 8)) n q -> tags_at m p (S n) q.

(** The tag at [q] leads to a root table with [size]-byte pointers at [sdt]. *)
Definition tag_root (m : memory) (q size sdt : Z) : Prop :=
  load32 m q = MULTIBOOT_TAG_TYPE_ACPI_NEW /\ size = 8 /\ load64 m (q + 8 + 24) = sdt \/
  load32 m q = MULTIBOOT_TAG_TYPE_ACPI_OLD /\ size = 4 /\ load32 m (q + 8 + 16) = sdt.

(** The first override of an interrupt, as the firmware lists them. *)
Definition override (l : list iso) (irq : Z) : option iso := head (filter (fun i => IRQSource i = irq) l).
Definition gsi_of (l : list iso) (irq : Z) : Z := from_option GSI irq (override l irq).
Definition flags_of (l : list iso) (irq : Z) : Z := from_option Flags 0 (override l irq).

(** * Lemmas *)

Lemma bytes_app m a l1 l2 : bytes m a (length (l1 ++ l2)) = l1 ++ l2 ->
  bytes m a (length l1) = l1 /\ bytes m (a + Z.of_nat (length l1)) (length l2) = l2.
Proof.
  revert a. induction l1 as [|x l1 IH]; intros a; cbn [app length].
  - intros E. split; [done |]. by replace (a + Z.of_nat 0) with a by lia.
  - rewrite !bytes_S. intros [= Ex E]. apply IH in E as [E1 E2]. split; [by rewrite Ex, E1 |].
    by replace (a + Z.of_nat (S (length l1))) with (a + 1 + Z.of_nat (length l1)) by lia.
Qed.

Lemma bytes_byte m a l i x : bytes m a (length l) = l -> l !! i = Some x -> m @@ (a + Z.of_nat i) = x.
Proof.
  intros E Hi. pose proof (lookup_lt_Some _ _ _ Hi). rewrite <- E, <- (Nat2Z.id i), bytes_lookup in Hi by lia. by injection Hi.
Qed.

Lemma load32_le32 m a x : bytes m a 4 = le32 x -> 0 <= x < 2 ^ 32 -> load32 m a = x.
Proof.
  rewrite !bytes_S. unfold le32, load32. intros [= E0 E1 E2 E3] Hx. replace (a + 1 + 1) with (a + 2) in * by lia. replace (a + 2 + 1) with (a + 3) in * by lia.
  rewrite E0, E1, E2, E3. clear - Hx. dlia.
Qed.

Lemma load16_le16 m a x : bytes m a 2 = le16 x -> 0 <= x < 2 ^ 16 -> load16 m a = x.
Proof. rewrite !bytes_S. unfold le16, load16. intros [= E0 E1] Hx. rewrite E0, E1. clear - Hx. dlia. Qed.

Lemma entry_bytes_length m p e : bytes m p (length (entry_bytes e)) = entry_bytes e -> m @@ (p + 1) = Z.of_nat (length (entry_bytes e)).
Proof. intros E. destruct e; [by apply (bytes_byte m p _ 1 12 E) | by apply (bytes_byte m p _ 1 10 E) | by apply (bytes_byte m p _ 1 _ E)]. Qed.

Lemma length_entry_bytes e : (2 <= length (entry_bytes e))%nat.
Proof. destruct e; cbn; lia. Qed.

(** One entry: its length, and what the loop does with it. *)
Definition entry_step (e : entry) (s : apic) : apic :=
  set_iso_list (take 16 (iso_list s ++ entry_iso e)) (set_ioapic_paddr (default (ioapic_paddr s) (last (entry_ioapic e))) s).

Lemma load_entry m p e : bytes m p (length (entry_bytes e)) = entry_bytes e -> entry_ok e ->
  match e with
  | EIoapic _ a _ => m @@ p = 1 /\ load32 m (p + 4) = a
  | EIso i => m @@ p = 2 /\ load_iso m p = i
  | EOther t _ => m @@ p = t
  end.
Proof.
  intros E Hok. pose proof (fun x => bytes_byte m p _ 0 x E) as H0. rewrite Z.add_0_r in H0. destruct e as [i a g|[b q g f]|t l].
  - split; [by apply H0 |]. apply load32_le32; [| done]. by apply (bytes_app m p [1; 12; i; 0]) in E as [_ [E _]%(bytes_app m _ (le32 a))].
  - split; [by apply H0 |]. unfold load_iso. pose proof (bytes_byte m p _ 2 b E eq_refl) as E2. pose proof (bytes_byte m p _ 3 q E eq_refl) as E3.
    change (Z.of_nat 2) with 2 in E2. change (Z.of_nat 3) with 3 in E3. rewrite E2, E3.
    apply (bytes_app m p [2; 10; b; q]) in E as [_ [E4 E8]%(bytes_app m _ (le32 g))]. destruct Hok as [Hg Hf].
    rewrite <- Z.add_assoc in E8. f_equal; [by apply load32_le32 | by apply load16_le16].
  - by apply H0.
Qed.

Lemma wp_parse_entry fuel p stop e (s : apic) Q : p < stop -> bytes (a_mem s) p (length (entry_bytes e)) = entry_bytes e -> entry_ok e ->
  (length (iso_list s) <= 16)%nat ->
  wp (parse_entries fuel (p + Z.of_nat (length (entry_bytes e))) stop) Q (entry_step e s) -> wp (parse_entries (S fuel) p stop) Q s.
Proof.
  intros Hp E Hok Hl HQ. cbn [parse_entries]. rewrite (proj2 (Z.ltb_lt _ _) Hp). apply wp_bind, wp_gets. rewrite (entry_bytes_length _ _ _ E).
  pose proof (load_entry _ _ _ E Hok) as H. apply wp_bind. unfold entry_step in HQ. destruct e as [i a g|i|t l]; cbn [entry_ioapic entry_iso last default] in HQ.
  - destruct H as [-> ->]. rewrite app_nil_r, take_ge in HQ by done. by destruct s.
  - destruct H as [-> Ei]. apply wp_bind, wp_get, wp_when; rewrite ?Ei; intros Hc.
    + apply wp_modify. rewrite take_ge in HQ; [by destruct s |]. apply Z.ltb_lt in Hc. rewrite length_app. cbn. unfold MAX_ISO in Hc. lia.
    + rewrite take_app_le, take_ge in HQ; [by destruct s | | ]; apply Z.ltb_ge in Hc; unfold MAX_ISO in Hc; lia.
  - rewrite H, app_nil_r, take_ge in * by done. destruct Hok as (H1 & H2 & _). rewrite (proj2 (Z.eqb_neq _ _) H1), (proj2 (Z.eqb_neq _ _) H2). by destruct s.
Qed.

Lemma take_app_take {A} n (l1 l2 : list A) : take n (take n l1 ++ l2) = take n (l1 ++ l2).
Proof.
  destruct (decide (length l1 <= n)%nat); [by rewrite (take_ge l1) |].
  by rewrite !take_app, take_take, length_take, Nat.min_id, !(proj2 (Nat.sub_0_le _ _)) by lia.
Qed.

Lemma wp_parse_entries es fuel p (s : apic) :
  Forall entry_ok es -> bytes (a_mem s) p (length (es ≫= entry_bytes)) = (es ≫= entry_bytes) -> (length (iso_list s) <= 16)%nat ->
  (length es <= fuel)%nat ->
  wp (parse_entries fuel p (p + Z.of_nat (length (es ≫= entry_bytes)))) (fun _ s' =>
    s' = set_iso_list (take 16 (iso_list s ++ (es ≫= entry_iso))) (set_ioapic_paddr (default (ioapic_paddr s) (last (es ≫= entry_ioapic))) s)) s.
Proof.
  revert fuel p s. induction es as [|e es IH]; intros fuel p s Hes Hb Hl Hf.
  - cbn. rewrite app_nil_r, take_ge by done. destruct fuel; cbn [parse_entries]; rewrite Z.add_0_r, Z.ltb_irrefl; apply wp_ret; by destruct s.
  - apply Forall_cons in Hes as [He Hes]. cbn in Hb, Hf. change ((e :: es) ≫= ?f) with (f e ++ (es ≫= f)) in *.
    apply bytes_app in Hb as [Hb1 Hb2]. pose proof (length_entry_bytes e). destruct fuel as [|fuel]; [lia |].
    apply (wp_parse_entry _ _ _ e); [rewrite length_app; lia | done | done | done |].
    rewrite length_app, Nat2Z.inj_add, Z.add_assoc. eapply wp_mono; [apply IH; [done | done | cbn; rewrite length_take; lia | lia] |].
    cbv beta. intros _ s' ->. cbn. rewrite take_app_take, <- app_assoc. unfold set_iso_list, set_ioapic_paddr. cbn. f_equal.
    rewrite last_app. by destruct (last (es ≫= entry_ioapic)).
Qed.

Lemma wp_parse_madt fuel p lapic es (s : apic) : madt_at (a_mem s) p lapic es -> (length (iso_list s) <= 16)%nat -> (length es <= fuel)%nat ->
  wp (parse_madt fuel p) (fun _ s' => s' = set_iso_list (take 16 (iso_list s ++ (es ≫= entry_iso)))
    (set_ioapic_paddr (default (ioapic_paddr s) (last (es ≫= entry_ioapic))) (set_lapic_paddr lapic s))) s.
Proof.
  intros (Hp & Hlap & Hes & Hb1 & Hlen & Hb2) Hl Hf. unfold parse_madt.
  assert (truthy p = true) as -> by (apply truthy_true; lia). cbn [negb]. apply wp_bind, wp_gets, wp_bind, wp_modify.
  rewrite (load32_le32 _ _ lapic Hb1 Hlap). rewrite Hlen, Z.add_assoc. by apply (wp_parse_entries es fuel _ (set_lapic_paddr lapic s)).
Qed.

(** The pointers that are no table of interrupt controllers are passed over. *)
Lemma find_entry_first m size ps q ptrs : size = 4 \/ size = 8 ->
  (forall i x, (ps ++ [q]) !! i = Some x -> 0 <= x < 2 ^ 64 - DIRECT_OFFSET /\
    (if size =? 8 then load64 else load32) m (ptrs + size * Z.of_nat i) = x) ->
  Forall (fun x => ~ is_apic m x) ps -> is_apic m q ->
  forall k, find_entry (length ps + S k) ptrs size m = q + DIRECT_OFFSET.
Proof.
  intros Hsize. revert ptrs. induction ps as [|x ps IH]; intros ptrs Hptr Hps Hq k.
  - destruct (Hptr 0%nat q eq_refl) as [Hr E]. rewrite Z.mul_0_r, Z.add_0_r in E. cbn [length Nat.add find_entry].
    destruct (size =? 8); rewrite E, u64_small, decide_True by (done || unfold DIRECT_OFFSET in *; lia); done.
  - apply Forall_cons in Hps as [Hx Hps]. destruct (Hptr 0%nat x eq_refl) as [Hr E]. rewrite Z.mul_0_r, Z.add_0_r in E. cbn [length Nat.add find_entry].
    assert (find_entry (length ps + S k) (ptrs + size) size m = q + DIRECT_OFFSET) as IHk.
    { apply IH; [| done | done]. intros i y Hi. destruct (Hptr (S i) y Hi) as [Hy Ey]. split; [done |].
      rewrite <- Ey. f_equal. lia. }
    destruct (size =? 8); rewrite E, u64_small, decide_False by (done || unfold DIRECT_OFFSET in *; lia); done.
Qed.

Lemma wp_find_madt sdt (b : bool) ps q ps' (s : apic) : root_at (a_mem s) sdt (if b then 8 else 4) (ps ++ q :: ps') ->
  Forall (fun x => ~ is_apic (a_mem s) x) ps -> is_apic (a_mem s) q ->
  wp (find_madt sdt b) (fun p s' => p = q + DIRECT_OFFSET /\ s' = s) s.
Proof.
  intros (Hsdt & Hlen & Hl & Hptr) Hps Hq. apply wp_bind, wp_gets. cbv zeta. rewrite (u64_small (sdt + _)) by (unfold DIRECT_OFFSET in *; lia). rewrite Hl.
  apply wp_ret. split; [| done]. set (size := if b then 8 else 4) in *. assert (size = 4 \/ size = 8) as Hsize by (unfold size; destruct b; lia).
  replace (sizeof_SDTHeader + size * Z.of_nat (length (ps ++ q :: ps')) - sizeof_SDTHeader) with (Z.of_nat (length (ps ++ q :: ps')) * size) by lia.
  rewrite u64_small, Z.div_mul, s32_small, Nat2Z.id by lia. rewrite length_app. cbn [length].
  apply find_entry_first; [done | | done | done]. intros i x Hi. apply Hptr. rewrite (app_assoc ps [q] ps' : ps ++ q :: ps' = _). by apply lookup_app_l_Some.
Qed.

Lemma wp_parse_tags fuel tag n q size sdt ps madt ps' (s : apic) : tags_at (a_mem s) tag n q -> tag_root (a_mem s) q size sdt ->
  root_at (a_mem s) sdt size (ps ++ madt :: ps') -> Forall (fun x => ~ is_apic (a_mem s) x) ps -> is_apic (a_mem s) madt -> (n <= fuel)%nat ->
  wp (parse_tags fuel tag) (fun p s' => p = madt + DIRECT_OFFSET /\ s' = s) s.
Proof.
  intros Ht Hroot Hr Hps Hq. revert fuel. induction Ht as [p|p n q H0 H15 H14 Ht IH]; intros fuel Hn.
  - destruct Hroot as [(Et & -> & <-)|(Et & -> & <-)].
    + destruct fuel; cbn [parse_tags]; apply wp_bind, wp_gets; rewrite Et; by apply (wp_find_madt _ true ps _ ps').
    + destruct fuel; cbn [parse_tags]; apply wp_bind, wp_gets; rewrite Et; by apply (wp_find_madt _ false ps _ ps').
  - destruct fuel as [|fuel]; [lia |]. cbn [parse_tags]. apply wp_bind, wp_gets. rewrite !(proj2 (Z.eqb_neq _ _)) by done. apply IH; [done | lia].
Qed.

Lemma find_iso_override l irq : find_iso l irq = override l irq.
Proof.
  induction l as [|i l IH]; [done |]. cbn [find_iso]. unfold override in *. rewrite filter_cons, IH.
  by destruct (Z.eqb_spec (IRQSource i) irq), (decide (IRQSource i = irq)).
Qed.

(** Setting a bit above a byte. *)
Lemma lor_above x n : 0 <= n -> 0 <= x < 2 ^ n -> Z.lor x (2 ^ n) = x + 2 ^ n.
Proof. intros Hn Hx. pose proof (lor_shifted x 1 n Hn Hx) as H. by rewrite Z.mul_1_r in H. Qed.

Lemma ioapic_reg_write l reg data r :
  ioapic_reg ((IOAPIC_VIRT + IOAPIC_IOWIN_OFFSET, data) :: (IOAPIC_VIRT + IOAPIC_REGSEL_OFFSET, reg) :: l) r = if decide (r = reg) then data else ioapic_reg l r.
Proof.
  cbn [ioapic_reg regsel]. rewrite !Z.eqb_refl. cbn [andb].
  assert ((IOAPIC_VIRT + IOAPIC_REGSEL_OFFSET =? IOAPIC_VIRT + IOAPIC_IOWIN_OFFSET) = false) as -> by done. cbn [andb].
  destruct (Z.eqb_spec reg r); case_decide; congruence.
Qed.

Lemma wp_write_ioapic reg data (s : apic) Q :
  Q tt (set_mmio ((IOAPIC_VIRT + IOAPIC_IOWIN_OFFSET, data) :: (IOAPIC_VIRT + IOAPIC_REGSEL_OFFSET, reg) :: mmio s) s) -> wp (write_ioapic reg data) Q s.
Proof. intros HQ. apply wp_bind, wp_modify, wp_modify. exact HQ. Qed.

Lemma redirection_low vector f : 0 <= vector < 2 ^ 8 ->
  (let low := if truthy (Z.land f 0x2) then Z.lor vector (Z.shiftl 1 13) else vector in
   if truthy (Z.land f 0x8) then Z.lor low (Z.shiftl 1 15) else low) =
  vector + 2 ^ 13 * Z.b2z (Z.testbit f 1) + 2 ^ 15 * Z.b2z (Z.testbit f 3).
Proof.
  intros Hv. change 0x2 with (2 ^ 1). change 0x8 with (2 ^ 3). rewrite !land_pow2_testbit, !Z.shiftl_1_l by lia.
  destruct (Z.testbit f 1), (Z.testbit f 3); cbn [Z.b2z]; rewrite ?(lor_above vector 13), ?(lor_above _ 15) by lia; lia.
Qed.

Lemma wp_ioapic_set_irq irq vector cpu (s : apic) : let g := gsi_of (iso_list s) irq in let f := flags_of (iso_list s) irq in
  0 <= g < 2 ^ 30 -> 0 <= vector < 2 ^ 8 -> 0 <= cpu < 2 ^ 8 ->
  wp (ioapic_set_irq irq vector cpu) (fun _ s' => s' = set_mmio (mmio s') s /\
    ioapic_reg (mmio s') (16 + 2 * g) = vector + 2 ^ 13 * Z.b2z (Z.testbit f 1) + 2 ^ 15 * Z.b2z (Z.testbit f 3) /\
    ioapic_reg (mmio s') (16 + 2 * g + 1) = 2 ^ 24 * cpu /\
    forall r, r <> 16 + 2 * g -> r <> 16 + 2 * g + 1 -> ioapic_reg (mmio s') r = ioapic_reg (mmio s) r) s.
Proof.
  intros g f Hg Hv Hc. apply wp_bind, wp_gets. rewrite find_iso_override.
  replace (match override (iso_list s) irq with Some i => (GSI i, Flags i) | None => (irq, 0) end) with (g, f)
    by (unfold g, f, gsi_of, flags_of; by destruct (override _ _)). cbv beta iota.
  clearbody g f. rewrite <- (redirection_low vector f Hv). cbv zeta. unfold IOAPIC_REDTBL_OFFSET.
  rewrite !u32_small by (rewrite ?Z.shiftl_mul_pow2; lia). apply wp_bind, wp_write_ioapic, wp_write_ioapic. cbn [mmio set_mmio].
  rewrite !ioapic_reg_write, Z.shiftl_mul_pow2 by lia. split; [by destruct s |].
  rewrite (decide_False (P := 16 + 2 * g = _)), (decide_True (P := 16 + 2 * g = _)), decide_True by lia. split; [done |]. split; [lia |].
  intros r H1 H2. by rewrite !ioapic_reg_write, !decide_False by lia.
Qed.

(** * Theorems *)

(** C37: the boot loader's tags lead to the firmware's root table, its first table
    of interrupt controllers is parsed, and the addresses of the local and of the
    last I/O APIC it names and its first sixteen overrides are recorded, in
    order, whatever other entries, tables and tags there are. *)
Theorem parse_acpi_spec fuel physBootInfo n q size sdt ps madt ps' lapic es (s : apic) :
  0 <= physBootInfo < 2 ^ 32 -> tags_at (a_mem s) (physBootInfo + DIRECT_OFFSET + 8) n q -> tag_root (a_mem s) q size sdt ->
  root_at (a_mem s) sdt size (ps ++ madt :: ps') -> Forall (fun x => ~ is_apic (a_mem s) x) ps -> is_apic (a_mem s) madt ->
  madt_at (a_mem s) (madt + DIRECT_OFFSET) lapic es -> iso_list s = [] -> (n <= fuel)%nat -> (length es <= fuel)%nat ->
  wp (parse_acpi fuel physBootInfo) (fun _ s' =>
    s' = Apic (a_mem s) lapic (default (ioapic_paddr s) (last (es ≫= entry_ioapic))) (take 16 (es ≫= entry_iso)) (mmio s)) s.
Proof.
  intros Hp Htags Hroot Hr Hps Hq Hm Hl Hn Hes. apply wp_bind. rewrite u64_small by (unfold DIRECT_OFFSET; lia).
  eapply wp_mono; [by apply (wp_parse_tags fuel _ n q size sdt ps madt ps')|]. cbv beta. intros p s' [-> ->].
  eapply wp_mono; [by apply (wp_parse_madt fuel _ lapic es); [| rewrite Hl; cbn; lia |]|]. cbv beta. intros _ s' ->. rewrite Hl. by destruct s.
Qed.

(** C36: routing an interrupt programs the redirection entry of the input that the
    first override of the interrupt names, with the vector, the polarity and the
    trigger mode of the override, for the given processor, and unmasks it; no
    other register of the I/O APIC changes. *)
Theorem ioapic_set_irq_spec irq vector cpu (s : apic) : let g := gsi_of (iso_list s) irq in let f := flags_of (iso_list s) irq in
  0 <= g < 2 ^ 30 -> 0 <= vector < 2 ^ 8 -> 0 <= cpu < 2 ^ 8 ->
  wp (ioapic_set_irq irq vector cpu) (fun _ s' => s' = set_mmio (mmio s') s /\
    ioapic_reg (mmio s') (16 + 2 * g) = vector + 2 ^ 13 * Z.b2z (Z.testbit f 1) + 2 ^ 15 * Z.b2z (Z.testbit f 3) /\
    ioapic_reg (mmio s') (16 + 2 * g + 1) = 2 ^ 24 * cpu /\
    forall r, r <> 16 + 2 * g -> r <> 16 + 2 * g + 1 -> ioapic_reg (mmio s') r = ioapic_reg (mmio s) r) s.
Proof. exact (wp_ioapic_set_irq irq vector cpu s). Qed.

(** The input of the I/O APIC for an interrupt is that of its first override,
    or the interrupt's own number; nothing changes. *)
Theorem get_gsi_for_irq_spec irq (s : apic) : get_gsi_for_irq irq s = Ok (gsi_of (iso_list s) irq, s).
Proof. unfold get_gsi_for_irq, mbind, M_bind. cbn. rewrite find_iso_override. unfold gsi_of. by destruct (override _ _). Qed.

(** * Witnesses *)

(** A memory with the given bytes. *)
Fixpoint put (a : Z) (l : list Z) (m : memory) : memory := match l with [] => m | x :: l' => <[a := x]> (put (a + 1) l' m) end.

(** Boot information at 0x100 with a tag for the command line and one for the
    tables, a root table at 0x1000 with two tables, and the second of them at
    0x3000 with a processor, an I/O APIC and the usual override of the timer. *)
Definition demo_entries : list entry := [EOther 0 [0; 0; 1; 0; 0; 0]; EIoapic 1 0xfec00000 0; EIso (Iso 0 0 2 0); EIso (Iso 0 9 9 13)].
Definition demo_tables : memory :=
  put (DIRECT_OFFSET + 0x108) (le32 1 ++ le32 12 ++ [0; 0; 0; 0]) (
  put (DIRECT_OFFSET + 0x118) (le32 14 ++ le32 28) (put (DIRECT_OFFSET + 0x130) (le32 0x1000) (
  put (DIRECT_OFFSET + 0x1004) (le32 44) (put (DIRECT_OFFSET + 0x1024) (le32 0x2000 ++ le32 0x3000) (
  put (DIRECT_OFFSET + 0x3000) (APIC_signature ++ le32 84) (put (DIRECT_OFFSET + 0x3024) (le32 0xfee00000 ++ le32 1 ++ (demo_entries ≫= entry_bytes)) ∅)))))).
Definition demo_apic : apic := Apic demo_tables 0 0 [] [].

Lemma parse_acpi_spec_witness : wp (parse_acpi 9 0x100) (fun _ s' =>
  s' = Apic demo_tables 0xfee00000 0xfec00000 [Iso 0 0 2 0; Iso 0 9 9 13] []) demo_apic.
Proof.
  apply (parse_acpi_spec 9 0x100 1 (DIRECT_OFFSET + 0x118) 4 0x1000 [0x2000] 0x3000 [] 0xfee00000 demo_entries demo_apic).
  - done.
  - apply tags_next; [by vm_compute | by vm_compute | by vm_compute |].
    replace (Z.land _ _) with (DIRECT_OFFSET + 0x118) by (vm_compute; reflexivity). apply tags_here.
  - right. split; [vm_compute; reflexivity |]. split; [done | vm_compute; reflexivity].
  - split; [done |]. split; [done |]. split; [vm_compute; reflexivity |].
    intros [|[|i]] x Hx; [injection Hx as <- | injection Hx as <- | done]; (split; [done | vm_compute; reflexivity]).
  - apply Forall_singleton. by vm_compute.
  - vm_compute. reflexivity.
  - split; [done |]. split; [done |]. split; [by repeat constructor |]. split; [vm_compute; reflexivity |]. split; vm_compute; reflexivity.
  - done.
  - lia.
  - cbn. lia.
Defined.

Lemma ioapic_set_irq_spec_witness : let s := Apic ∅ 0 0 [Iso 0 9 20 10] [] in
  wp (ioapic_set_irq 9 0x29 1) (fun _ s' => ioapic_reg (mmio s') 56 = 0xA029 /\ ioapic_reg (mmio s') 57 = 2 ^ 24) s.
Proof.
  eapply wp_mono; [apply (ioapic_set_irq_spec 9 0x29 1); by vm_compute |]. cbv beta.
  intros _ s' (_ & H1 & H2 & _). split; [exact H1 | exact H2].
Defined.
