(* ===== verification/Desc.v ===== *)
(** Descriptor tables ([arch/x86_64/gdt/gdt.c], [arch/x86_64/idt/idt.c]): the
    segments and the interrupt gates as the kernel lays them out in memory and as
    the processor decodes them, the remapping of the interrupt controllers, and
    the dispatch of exceptions and interrupts. *)
From S2P Require Import Prelude Interfaces CString.

(** * Constants and state *)

Definition sizeof_gdt_entry : Z := 8.
Definition sizeof_gdt : Z := 7 * sizeof_gdt_entry.
Definition sizeof_idt_entry : Z := 16.
Definition sizeof_TSS : Z := 104.

(** The memory of the tables, the registers of the processor that [gdt_flush] and
    [lidt] load, and the handlers of the interrupt lines. *)
Record desc (St : Type) : Type := Desc {
  d_env : St;
  d_mem : memory;
  gdtr : Z * Z;
  tr : Z;
  cs : Z;
  ds : Z;
  idtr : Z * Z;
  irq_handlers : gmap Z Z;
}.
Arguments Desc {St} d_env d_mem gdtr tr cs ds idtr irq_handlers.
Arguments d_env {St} d.
Arguments d_mem {St} d.
Arguments gdtr {St} d.
Arguments tr {St} d.
Arguments cs {St} d.
Arguments ds {St} d.
Arguments idtr {St} d.
Arguments irq_handlers {St} d.

Definition set_d_env {St} (x : St) (d : desc St) : desc St := Desc x (d_mem d) (gdtr d) (tr d) (cs d) (ds d) (idtr d) (irq_handlers d).
Definition set_d_mem {St} (x : memory) (d : desc St) : desc St := Desc (d_env d) x (gdtr d) (tr d) (cs d) (ds d) (idtr d) (irq_handlers d).
Definition load_gdt {St} (x : Z * Z) (d : desc St) : desc St := Desc (d_env d) (d_mem d) x 0x28 0x08 0x10 (idtr d) (irq_handlers d).
Definition set_idtr {St} (x : Z * Z) (d : desc St) : desc St := Desc (d_env d) (d_mem d) (gdtr d) (tr d) (cs d) (ds d) x (irq_handlers d).
Definition set_irq_handlers {St} (x : gmap Z Z) (d : desc St) : desc St := Desc (d_env d) (d_mem d) (gdtr d) (tr d) (cs d) (ds d) (idtr d) x.
Definition l_d_env {St} : lens (desc St) St := Lens d_env set_d_env.

(** * Operations *)

(** The addresses that the linker gives to the tables, the stack and the stubs in
    assembly. *)
Record link_map : Type := LinkMap {
  gdt_entries : Z;
  idt_entries : Z;
  tss : Z;
  ist1_stack_top : Z;
  isr_stub_table : Z -> Z;
  irq_stub_table : Z -> Z;
  isr255 : Z;
  yield_handler : Z;
}.

Section Tables.
Context {St : Type} `{Ports St} (L : link_map).

Definition put_mem (f : memory -> memory) : M (desc St) unit := modify (fun d => set_d_mem (f (d_mem d)) d).

Definition setGDTGate (vector base limit access flags : Z) : M (desc St) unit :=
  let e := gdt_entries L + vector * sizeof_gdt_entry in
  put_mem (fun m => store16 m e (Z.land limit 0xFFFF));;
  put_mem (fun m => store16 m (e + 2) (Z.land base 0xFFFF));;
  put_mem (fun m => store8 m (e + 4) (Z.land (Z.shiftr base 16) 0xFF));;
  put_mem (fun m => store8 m (e + 5) access);;
  put_mem (fun m => store8 m (e + 6) (Z.lor (Z.land (Z.shiftr limit 16) 0x0F) (Z.land flags 0xF0)));;
  put_mem (fun m => store8 m (e + 7) (Z.land (Z.shiftr base 24) 0xFF)).

Definition setTSSGate (vector base limit : Z) : M (desc St) unit :=
  let tss_entry := gdt_entries L + vector * sizeof_gdt_entry in
  setGDTGate vector (u32 base) limit 0x89 0x40;;
  put_mem (fun m => store32 m (tss_entry + 8) (u32 (Z.shiftr base 32)));;
  put_mem (fun m => store32 m (tss_entry + 12) 0).

(** [gdt_flush] loads the table, the segment registers and the task register. *)
Definition init_GDT : M (desc St) unit :=
  setGDTGate 0 0 0 0 0;;
  setGDTGate 1 0 0xFFFFFFFF 0x9A 0x20;;
  setGDTGate 2 0 0xFFFFFFFF 0x92 0x00;;
  setGDTGate 3 0 0xFFFFFFFF 0xF2 0x00;;
  setGDTGate 4 0 0xFFFFFFFF 0xFA 0x20;;
  for_loop (Z.to_nat sizeof_TSS) 0 (fun i => put_mem (fun m => store8 m (tss L + i) 0));;
  put_mem (fun m => store64 m (tss L + 36) (ist1_stack_top L));;
  put_mem (fun m => store16 m (tss L + 102) sizeof_TSS);;
  setTSSGate 5 (tss L) (sizeof_TSS - 1);;
  modify (load_gdt (sizeof_gdt - 1, gdt_entries L)).

Definition remap_PIC : M (desc St) unit :=
  zoom l_d_env (outb 0x20 0x11);;
  zoom l_d_env (outb 0xA0 0x11);;
  zoom l_d_env (outb 0x21 0x20);;
  zoom l_d_env (outb 0xA1 0x28);;
  zoom l_d_env (outb 0x21 0x04);;
  zoom l_d_env (outb 0xA1 0x02);;
  zoom l_d_env (outb 0x21 0x01);;
  zoom l_d_env (outb 0xA1 0x01);;
  zoom l_d_env (outb 0x21 0xFF);;
  zoom l_d_env (outb 0xA1 0xFF).

Definition setIDTGate (vector handler flags ist : Z) : M (desc St) unit :=
  let e := idt_entries L + vector * sizeof_idt_entry in
  put_mem (fun m => store16 m e (Z.land handler 0xFFFF));;
  put_mem (fun m => store16 m (e + 2) 0x08);;
  put_mem (fun m => store8 m (e + 4) (Z.land ist 0x07));;
  put_mem (fun m => store8 m (e + 5) flags);;
  put_mem (fun m => store16 m (e + 6) (Z.land (Z.shiftr handler 16) 0xFFFF));;
  put_mem (fun m => store32 m (e + 8) (Z.land (Z.shiftr handler 32) 0xFFFFFFFF));;
  put_mem (fun m => store32 m (e + 12) 0).

Definition init_IDT : M (desc St) unit :=
  remap_PIC;;
  for_loop 256 0 (fun i => setIDTGate i 0 0 0);;
  for_loop 8 0 (fun vector => setIDTGate vector (isr_stub_table L vector) 0x8E 0);;
  setIDTGate 8 (isr_stub_table L 8) 0x8E 1;;
  for_loop 23 9 (fun vector => setIDTGate vector (isr_stub_table L vector) 0x8E 0);;
  for_loop 16 32 (fun vector => setIDTGate vector (irq_stub_table L (vector - 32)) 0x8E 0);;
  setIDTGate 0x81 (yield_handler L) 0x8E 0;;
  setIDTGate 0xFF (isr255 L) 0x8E 0;;
  modify (set_idtr (u16 (sizeof_idt_entry * 256) - 1, idt_entries L)).

End Tables.

(** ** Dispatch *)

(** The handlers that the dispatch calls: those of two exceptions, the functions
    registered for interrupt lines, and the end of interrupt of the local APIC. *)
Class TrapHandlers (St : Type) : Type := {
  vector_ctx_switch : M St unit;
  page_fault_handler : M St unit;
  call_handler : Z -> M St unit;
  end_of_interrupt : M St unit;
}.

Section Dispatch.
Context {St : Type} `{TrapHandlers St}.

(** The table has 16 entries; the number is not checked. *)
Definition put_irq_handler (num handler : Z) : M (desc St) unit :=
  if (0 <=? num) && (num <? 16) then modify (fun d => set_irq_handlers (<[num := handler]> (irq_handlers d)) d) else fail Fault.
Definition setIRQHandler (num handler : Z) : M (desc St) unit := put_irq_handler num handler.
Definition deleteIRQHandler (num : Z) : M (desc St) unit := put_irq_handler num 0.

(** Other exceptions are printed, and the processor stops in a loop. *)
Definition isr_handler (int_no : Z) : M (desc St) unit :=
  if int_no =? 0x07 then zoom l_d_env vector_ctx_switch
  else if int_no =? 0x0e then zoom l_d_env page_fault_handler
  else fail Hang.

Definition irq_handler (int_no : Z) : M (desc St) unit :=
  handler ← gets (fun d => irq_handlers d @@ (int_no - 32));
  if negb (truthy handler) then fail Fault
  else zoom l_d_env (call_handler handler);; zoom l_d_env end_of_interrupt.

Definition exception_handler (int_no : Z) : M (desc St) unit :=
  when (int_no <? 32) (isr_handler int_no);;
  when ((31 <? int_no) && (int_no <? 48)) (irq_handler int_no).

End Dispatch.

(** * Specification *)

(** A segment descriptor and a gate as the processor reads them. *)
Record segment : Type := Segment { seg_base : Z; seg_limit : Z; seg_access : Z; seg_flags : Z }.
Definition segment_at (m : memory) (e : Z) : segment :=
  Segment (load16 m (e + 2) + 2 ^ 16 * m @@ (e + 4) + 2 ^ 24 * m @@ (e + 7)) (load16 m e + 2 ^ 16 * (m @@ (e + 6) mod 2 ^ 4))
    (m @@ (e + 5)) (m @@ (e + 6) / 2 ^ 4).

Record gate : Type := Gate { g_offset : Z; g_selector : Z; g_ist : Z; g_flags : Z }.
Definition gate_at (m : memory) (e : Z) : gate :=
  Gate (load16 m e + 2 ^ 16 * load16 m (e + 6) + 2 ^ 32 * load32 m (e + 8)) (load16 m (e + 2)) (m @@ (e + 4) mod 2 ^ 3) (m @@ (e + 5)).

(** The two interrupt controllers: a word to the command port starts the
    initialisation, the next three words at the data port are the vector of line
    0, the wiring and the mode, and words there later are the mask. *)
Record pic : Type := Pic { pic_step : nat; pic_vector : Z; pic_wiring : Z; pic_mode : Z; pic_mask : Z }.
Definition pic_command (x : Z) (p : pic) : pic := if Z.testbit x 4 then Pic 3 (pic_vector p) (pic_wiring p) (pic_mode p) 0 else p.
Definition pic_data (x : Z) (p : pic) : pic :=
  match pic_step p with
  | 3%nat => Pic 2 x (pic_wiring p) (pic_mode p) (pic_mask p)
  | 2%nat => Pic 1 (pic_vector p) x (pic_mode p) (pic_mask p)
  | 1%nat => Pic 0 (pic_vector p) (pic_wiring p) x (pic_mask p)
  | _ => Pic 0 (pic_vector p) (pic_wiring p) (pic_mode p) x
  end.
#[export] Instance pic_ports : Ports (pic * pic) := {
  outb port x s := Ok (tt,
    if port =? 0x20 then (pic_command x s.1, s.2) else if port =? 0x21 then (pic_data x s.1, s.2)
    else if port =? 0xA0 then (s.1, pic_command x s.2) else if port =? 0xA1 then (s.1, pic_data x s.2) else s);
  inb port := mret 0;
  outl port x := mret tt;
  inl port := mret 0;
  read_tsc := mret 0;
}.

(** The gate of each vector after the initialisation. *)
Definition idt_handler (L : link_map) (v : Z) : option Z :=
  if v <? 32 then Some (isr_stub_table L v)
  else if v <? 48 then Some (irq_stub_table L (v - 32))
  else if v =? 0x81 then Some (yield_handler L)
  else if v =? 0xFF then Some (isr255 L)
  else None.
Definition idt_gate (L : link_map) (v : Z) : gate :=
  match idt_handler L v with
  | Some h => Gate h 0x08 (if v =? 8 then 1 else 0) 0x8E
  | None => Gate 0 0x08 0 0
  end.

(** The tables fit in the address space and do not overlap; the addresses of the
    handlers are 64-bit. *)
Definition link_ok (L : link_map) : Prop :=
  0 <= gdt_entries L /\ gdt_entries L + sizeof_gdt <= tss L /\ tss L + sizeof_TSS < 2 ^ 64 /\
  0 <= ist1_stack_top L < 2 ^ 64 /\
  forall v h, 0 <= v < 256 -> idt_handler L v = Some h -> 0 <= h < 2 ^ 64.

(** * Lemmas *)

Lemma high_nibble f : 0 <= f < 256 -> Z.land f 0xF0 = 2 ^ 4 * (f / 2 ^ 4).
Proof.
  intros Hf. apply Z.eqb_eq. revert f Hf. apply (forall_Z_lt 256 (fun f => Z.land f 0xF0 =? 2 ^ 4 * (f / 2 ^ 4))). vm_compute. reflexivity.
Qed.

Section descriptors.
Context {St : Type} `{Ports St} (L : link_map).
Implicit Types (d : desc St) (m : memory).

Lemma wp_put_mem f Q d : Q tt (set_d_mem (f (d_mem d)) d) -> wp (put_mem f) Q d.
Proof. exact id. Qed.

Lemma wp_setGDTGate vector base limit access flags d : 0 <= base < 2 ^ 32 -> 0 <= access < 256 -> 0 <= flags < 256 ->
  let e := gdt_entries L + vector * sizeof_gdt_entry in
  wp (setGDTGate L vector base limit access flags) (fun _ d' => d' = set_d_mem (d_mem d') d /\
    segment_at (d_mem d') e = Segment base (limit mod 2 ^ 20) access (flags / 2 ^ 4) /\ only_bytes e (e + 8) (d_mem d) (d_mem d')) d.
Proof.
  intros Hb Ha Hf e. unfold setGDTGate. do 5 apply wp_bind, wp_put_mem. apply wp_put_mem. cbn [set_d_mem d_mem]. fold e.
  rewrite !(land_mask _ 16 0xFFFF), (land_mask _ 4 0x0F), !(land_mask _ 8 0xFF), !Z.shiftr_div_pow2, high_nibble, lor_shifted by (done || lia || dlia).
  clearbody e. split; [by destruct d |]. split.
  - unfold segment_at, load16. f_equal; rd_stores; clear - Hb Ha Hf; dlia.
  - intros x Hx. rd_stores. done.
Qed.

Lemma wp_setIDTGate vector handler flags ist d : 0 <= handler < 2 ^ 64 -> 0 <= flags < 256 -> 0 <= ist < 8 ->
  let e := idt_entries L + vector * sizeof_idt_entry in
  wp (setIDTGate L vector handler flags ist) (fun _ d' => d' = set_d_mem (d_mem d') d /\
    gate_at (d_mem d') e = Gate handler 0x08 ist flags /\ only_bytes e (e + 16) (d_mem d) (d_mem d')) d.
Proof.
  intros Hh Hf Hi e. unfold setIDTGate. do 6 apply wp_bind, wp_put_mem. apply wp_put_mem. cbn [set_d_mem d_mem]. fold e.
  rewrite !(land_mask _ 16 0xFFFF), (land_mask _ 3 0x07), (land_mask _ 32 0xFFFFFFFF), !Z.shiftr_div_pow2 by (done || lia).
  clearbody e. split; [by destruct d |]. split.
  - unfold gate_at, load16. f_equal; [rewrite !load_store32, decide_False, decide_True by (dlia || lia) | | |]; rd_stores; clear - Hh Hf Hi; dlia.
  - intros x Hx. rd_stores. done.
Qed.

Lemma segment_frame a b m m' e : only_bytes a b m m' -> b <= e \/ e + 8 <= a -> segment_at m' e = segment_at m e.
Proof. intros Hm He. unfold segment_at, load16. by rewrite !Hm by lia. Qed.

Lemma gate_frame a b m m' e : only_bytes a b m m' -> b <= e \/ e + 16 <= a -> gate_at m' e = gate_at m e.
Proof. intros Hm He. unfold gate_at, load16, load32. by rewrite !Hm by lia. Qed.

Lemma set_d_mem_twice m m' d : set_d_mem m (set_d_mem m' d) = set_d_mem m d.
Proof. done. Qed.

(** Tables as functions of the vector. *)
Definition updated {A} (v : Z) (x : A) (f : Z -> A) (w : Z) : A := if decide (w = v) then x else f w.
Definition gdt_is (m0 : memory) (f : Z -> segment) d0 d : Prop := d = set_d_mem (d_mem d) d0 /\
  only_bytes (gdt_entries L) (gdt_entries L + sizeof_gdt) m0 (d_mem d) /\
  forall v, 0 <= v < 7 -> segment_at (d_mem d) (gdt_entries L + v * sizeof_gdt_entry) = f v.
Definition idt_is (m0 : memory) (f : Z -> gate) d0 d : Prop := d = set_d_mem (d_mem d) d0 /\
  only_bytes (idt_entries L) (idt_entries L + 256 * sizeof_idt_entry) m0 (d_mem d) /\
  forall v, 0 <= v < 256 -> gate_at (d_mem d) (idt_entries L + v * sizeof_idt_entry) = f v.

Lemma gdt_is_start d : gdt_is (d_mem d) (fun v => segment_at (d_mem d) (gdt_entries L + v * sizeof_gdt_entry)) d d.
Proof. split; [by destruct d |]. split; done. Qed.
Lemma idt_is_start d : idt_is (d_mem d) (fun v => gate_at (d_mem d) (idt_entries L + v * sizeof_idt_entry)) d d.
Proof. split; [by destruct d |]. split; done. Qed.

Lemma wp_gdt_step vector base limit access flags m0 f d0 d (Q : unit -> desc St -> Prop) : gdt_is m0 f d0 d -> 0 <= vector < 7 ->
  0 <= base < 2 ^ 32 -> 0 <= access < 256 -> 0 <= flags < 256 ->
  (forall d', gdt_is m0 (updated vector (Segment base (limit mod 2 ^ 20) access (flags / 2 ^ 4)) f) d0 d' -> Q tt d') ->
  wp (setGDTGate L vector base limit access flags) Q d.
Proof.
  intros (Hd & Ho & Hf) Hv Hb Ha Hfl HQ. eapply wp_mono; [by apply wp_setGDTGate |]. cbv beta. intros [] d' (Ed & Hg & Ho'). apply HQ.
  unfold gdt_is, sizeof_gdt, sizeof_gdt_entry in *. split; [rewrite Hd in Ed; by rewrite Ed at 1 |]. split.
  - eapply only_bytes_trans; [done | eapply only_bytes_weaken; [done | lia | lia]].
  - intros w Hw. unfold updated. destruct (decide (w = vector)) as [->|Hne]; [done |]. rewrite (segment_frame _ _ _ _ _ Ho') by lia. by apply Hf.
Qed.

Lemma wp_idt_step vector handler flags ist m0 f d0 d (Q : unit -> desc St -> Prop) : idt_is m0 f d0 d -> 0 <= vector < 256 ->
  0 <= handler < 2 ^ 64 -> 0 <= flags < 256 -> 0 <= ist < 8 ->
  (forall d', idt_is m0 (updated vector (Gate handler 0x08 ist flags) f) d0 d' -> Q tt d') -> wp (setIDTGate L vector handler flags ist) Q d.
Proof.
  intros (Hd & Ho & Hf) Hv Hh Hfl Hi HQ. eapply wp_mono; [by apply wp_setIDTGate |]. cbv beta. intros [] d' (Ed & Hg & Ho'). apply HQ.
  unfold idt_is, sizeof_idt_entry in *. split; [rewrite Hd in Ed; by rewrite Ed at 1 |]. split.
  - eapply only_bytes_trans; [done | eapply only_bytes_weaken; [done | lia | lia]].
  - intros w Hw. unfold updated. destruct (decide (w = vector)) as [->|Hne]; [done |]. rewrite (gate_frame _ _ _ _ _ Ho') by lia. by apply Hf.
Qed.

(** A loop over vectors. *)
Lemma wp_idt_loop n lo (h : Z -> Z) flags ist m0 f d0 d (Q : unit -> desc St -> Prop) : idt_is m0 f d0 d -> 0 <= lo -> lo + Z.of_nat n <= 256 ->
  (forall v, lo <= v < lo + Z.of_nat n -> 0 <= h v < 2 ^ 64) -> 0 <= flags < 256 -> 0 <= ist < 8 ->
  (forall d', idt_is m0 (fun w => if decide (lo <= w < lo + Z.of_nat n) then Gate (h w) 0x08 ist flags else f w) d0 d' -> Q tt d') ->
  wp (for_loop n lo (fun v => setIDTGate L v (h v) flags ist)) Q d.
Proof.
  intros Hd Hlo Hn Hh Hf Hi HQ. eapply wp_mono.
  - apply (wp_for n (fun k d' => idt_is m0 (fun w => if decide (lo <= w < k) then Gate (h w) 0x08 ist flags else f w) d0 d')).
    + destruct Hd as (Hd & Ho & Hf0). split_and!; [done | done |]. intros v Hv. rewrite decide_False by lia. by apply Hf0.
    + intros k d' Hk Hd'. eapply wp_idt_step; [done | lia | by apply Hh | done | done |]. intros d2 (H2 & Ho2 & Hf2). split_and!; [done | done |].
      intros w Hw. rewrite Hf2 by done. unfold updated. repeat case_decide; try lia; by subst.
  - intros []. apply HQ.
Qed.

End descriptors.

(** The base of the descriptor of a task state segment has its upper half in the
    next eight bytes. *)
Definition tss_segment_at (m : memory) (e : Z) : segment :=
  let g := segment_at m e in Segment (seg_base g + 2 ^ 32 * load32 m (e + 8)) (seg_limit g) (seg_access g) (seg_flags g).

(** The task state segment: no stacks for the privilege levels, one for the first
    entry of the interrupt stack table, no map of ports. *)
Definition tss_ok (L : link_map) (m : memory) : Prop :=
  load64 m (tss L + 36) = ist1_stack_top L /\ load16 m (tss L + 102) = sizeof_TSS /\
  forall i, 0 <= i < 36 \/ 44 <= i < 102 -> m @@ (tss L + i) = 0.

Lemma tss_ok_frame L a b m m' : only_bytes a b m m' -> b <= tss L \/ tss L + sizeof_TSS <= a -> tss_ok L m -> tss_ok L m'.
Proof.
  unfold sizeof_TSS. intros Hm Hab (H1 & H2 & H3). unfold tss_ok, load64, load32, load16, sizeof_TSS in *. rewrite !Hm by lia. split; [done |]. split; [done |].
  intros i Hi. rewrite Hm by lia. by apply H3.
Qed.

Section boot.
Context {St : Type} (L : link_map).
Implicit Types d : desc St.

(** Setting up the task state segment. *)
Lemma wp_init_tss (k : M (desc St) unit) d (Q : unit -> desc St -> Prop) : 0 <= ist1_stack_top L < 2 ^ 64 ->
  (forall d', d' = set_d_mem (d_mem d') d -> tss_ok L (d_mem d') -> only_bytes (tss L) (tss L + sizeof_TSS) (d_mem d) (d_mem d') -> wp k Q d') ->
  wp (for_loop (Z.to_nat sizeof_TSS) 0 (fun i => put_mem (fun m => store8 m (tss L + i) 0));;
      put_mem (fun m => store64 m (tss L + 36) (ist1_stack_top L));; put_mem (fun m => store16 m (tss L + 102) sizeof_TSS);; k) Q d.
Proof.
  intros Hi HQ. unfold sizeof_TSS in *. apply wp_bind. eapply wp_mono.
  - apply (wp_for (Z.to_nat 104) (fun j d' => d' = set_d_mem (d_mem d') d /\ only_bytes (tss L) (tss L + 104) (d_mem d) (d_mem d') /\
      forall i, 0 <= i < j -> d_mem d' @@ (tss L + i) = 0)).
    + split_and!; [by destruct d | done | lia].
    + intros j d' Hj (Ed & Ho & Hz). apply wp_put_mem. cbn [d_mem set_d_mem]. split_and!.
      * rewrite Ed at 2. done.
      * intros x Hx. rewrite rd_store8, decide_False by lia. by apply Ho.
      * intros i Hi'. rewrite rd_store8. case_decide; [done |]. apply Hz. lia.
  - cbv beta. intros [] d' (Ed & Ho & Hz). apply wp_bind, wp_put_mem, wp_bind, wp_put_mem. apply HQ; cbn [d_mem set_d_mem].
    + rewrite Ed. done.
    + split_and!.
      * transitivity (load64 (store64 (d_mem d') (tss L + 36) (ist1_stack_top L)) (tss L + 36)); [| by apply load_store64].
        unfold load64, load32. rd_stores. done.
      * unfold load16. rd_stores. done.
      * intros i Hi'. rd_stores. rewrite rd_store64 by lia. apply Hz. lia.
    + intros x Hx. rd_stores. rewrite rd_store64 by lia. by apply Ho.
Qed.

(** The segments that the kernel sets up, by vector. *)
Definition boot_segment (v : Z) : segment :=
  if v =? 1 then Segment 0 0xFFFFF 0x9A 2 else if v =? 2 then Segment 0 0xFFFFF 0x92 0
  else if v =? 3 then Segment 0 0xFFFFF 0xF2 0 else if v =? 4 then Segment 0 0xFFFFF 0xFA 2 else Segment 0 0 0 0.

(** The segment of the task state, after the other descriptors. *)
Lemma wp_set_tss_gate (f : Z -> segment) m0 d0 d (Q : unit -> desc St -> Prop) : gdt_is L m0 f d0 d -> 0 <= tss L < 2 ^ 64 ->
  (forall d', d' = set_d_mem (d_mem d') d -> (forall v, 0 <= v < 5 -> segment_at (d_mem d') (gdt_entries L + v * 8) = f v) ->
    tss_segment_at (d_mem d') (gdt_entries L + 40) = Segment (tss L) (sizeof_TSS - 1) 0x89 4 ->
    only_bytes (gdt_entries L) (gdt_entries L + sizeof_gdt) (d_mem d) (d_mem d') -> Q tt d') ->
  wp (setTSSGate L 5 (tss L) (sizeof_TSS - 1)) Q d.
Proof.
  intros (Hd & Ho & Hf) Ht HQ. apply wp_bind. eapply wp_mono; [apply wp_setGDTGate; [apply u32_range | done | done] |].
  unfold sizeof_gdt, sizeof_gdt_entry in *. cbv beta. intros [] d' (Ed & Hg & Ho'). apply wp_bind, wp_put_mem, wp_put_mem. cbn [d_mem set_d_mem] in *.
  change (5 * 8) with 40 in *. rewrite Z.shiftr_div_pow2 by lia. set (m2 := store32 (store32 _ _ _) _ _).
  assert (only_bytes (gdt_entries L + 48) (gdt_entries L + 56) (d_mem d') m2) as Ho2 by (intros x Hx; subst m2; rd_stores; done).
  apply HQ; cbn [d_mem set_d_mem].
  - rewrite set_d_mem_twice, Ed. done.
  - intros v Hv. rewrite (segment_frame _ _ _ _ _ Ho2), (segment_frame _ _ _ _ _ Ho') by lia. apply Hf. lia.
  - unfold tss_segment_at. rewrite (segment_frame _ _ _ _ _ Ho2), Hg by lia. cbn. subst m2.
    replace (gdt_entries L + 40 + 12) with (gdt_entries L + 52) by lia. replace (gdt_entries L + 40 + 8) with (gdt_entries L + 48) by lia.
    rewrite !load_store32 by (apply u32_range || lia). rewrite decide_False, decide_True by lia. f_equal. unfold u32. clear - Ht. dlia.
  - eapply only_bytes_trans; (eapply only_bytes_weaken; [eassumption | lia | lia]).
Qed.

Lemma wp_init_GDT d : link_ok L ->
  wp (init_GDT L) (fun _ d' => d' = load_gdt (55, gdt_entries L) (set_d_mem (d_mem d') d) /\
    (forall v, 0 <= v < 5 -> segment_at (d_mem d') (gdt_entries L + v * 8) = boot_segment v) /\
    tss_segment_at (d_mem d') (gdt_entries L + tr d') = Segment (tss L) (sizeof_TSS - 1) 0x89 4 /\ tss_ok L (d_mem d')) d.
Proof.
  intros (H0 & Hgt & Ht & Hi & _). unfold sizeof_gdt, sizeof_gdt_entry, sizeof_TSS in *. unfold init_GDT.
  apply wp_bind. eapply wp_gdt_step; [apply gdt_is_start | done | done | done | done |]. intros d1 H1.
  apply wp_bind. eapply wp_gdt_step; [exact H1 | done | done | done | done |]. intros d2 H2.
  apply wp_bind. eapply wp_gdt_step; [exact H2 | done | done | done | done |]. intros d3 H3.
  apply wp_bind. eapply wp_gdt_step; [exact H3 | done | done | done | done |]. intros d4 H4.
  apply wp_bind. eapply wp_gdt_step; [exact H4 | done | done | done | done |]. intros d5 H5.
  match type of H5 with gdt_is _ _ ?f _ _ => assert (forall v, 0 <= v < 5 -> f v = boot_segment v) as Hf end.
  { intros v Hv. assert (v = 0 \/ v = 1 \/ v = 2 \/ v = 3 \/ v = 4) as [-> | [-> | [-> | [-> | ->]]]] by lia; reflexivity. }
  clear H1 H2 H3 H4. destruct H5 as (E5 & Ho5 & Hf5). apply wp_init_tss; [done |]. intros d6 E6 Htss Ho6.
  apply wp_bind. eapply (wp_set_tss_gate _ (d_mem d6) d); [| lia |].
  - split; [rewrite E5 in E6; by rewrite E6 at 1 |]. split; [by intros x Hx |].
    intros v Hv. unfold sizeof_gdt_entry, sizeof_TSS in *. rewrite (segment_frame _ _ _ _ _ Ho6) by lia. by apply Hf5.
  - intros d7 E7 Hseg Hts Ho7. apply wp_modify. cbn [d_mem load_gdt tr]. unfold sizeof_gdt, sizeof_gdt_entry, sizeof_TSS in *. split_and!.
    + rewrite E7, E6, E5. done.
    + intros v Hv. rewrite Hseg by done. by apply Hf.
    + done.
    + eapply tss_ok_frame; [exact Ho7 | unfold sizeof_TSS; lia | done].
Qed.

Context `{Ports St}.

Lemma wp_init_IDT_gates d (Q : unit -> desc St -> Prop) : link_ok L ->
  (forall d', d' = set_idtr (4095, idt_entries L) (set_d_mem (d_mem d') d) ->
    only_bytes (idt_entries L) (idt_entries L + 4096) (d_mem d) (d_mem d') ->
    (forall v, 0 <= v < 256 -> gate_at (d_mem d') (idt_entries L + 16 * v) = idt_gate L v) -> Q tt d') ->
  wp (for_loop 256 0 (fun i => setIDTGate L i 0 0 0);;
      for_loop 8 0 (fun vector => setIDTGate L vector (isr_stub_table L vector) 0x8E 0);;
      setIDTGate L 8 (isr_stub_table L 8) 0x8E 1;;
      for_loop 23 9 (fun vector => setIDTGate L vector (isr_stub_table L vector) 0x8E 0);;
      for_loop 16 32 (fun vector => setIDTGate L vector (irq_stub_table L (vector - 32)) 0x8E 0);;
      setIDTGate L 0x81 (yield_handler L) 0x8E 0;;
      setIDTGate L 0xFF (isr255 L) 0x8E 0;;
      modify (set_idtr (u16 (sizeof_idt_entry * 256) - 1, idt_entries L))) Q d.
Proof.
  intros (_ & _ & _ & _ & Hh) HQ.
  assert (forall v, 0 <= v < 32 -> 0 <= isr_stub_table L v < 2 ^ 64) as Hisr.
  { intros v Hv. apply (Hh v); [lia |]. unfold idt_handler. by rewrite (proj2 (Z.ltb_lt v 32)) by lia. }
  assert (forall v, 32 <= v < 48 -> 0 <= irq_stub_table L (v - 32) < 2 ^ 64) as Hirq.
  { intros v Hv. apply (Hh v); [lia |]. unfold idt_handler. by rewrite (proj2 (Z.ltb_ge v 32)), (proj2 (Z.ltb_lt v 48)) by lia. }
  pose proof (Hh 0x81 _ ltac:(lia) eq_refl) as Hy. pose proof (Hh 0xFF _ ltac:(lia) eq_refl) as H255.
  apply wp_bind. eapply (wp_idt_loop L 256 0 (fun _ => 0)); [apply idt_is_start | lia | lia | lia | lia | lia |]. intros d1 H1.
  apply wp_bind. eapply (wp_idt_loop L 8 0 (isr_stub_table L)); [exact H1 | lia | lia | intros; apply Hisr; lia | lia | lia |]. intros d2 H2.
  apply wp_bind. eapply wp_idt_step; [exact H2 | lia | apply Hisr; lia | lia | lia |]. intros d3 H3.
  apply wp_bind. eapply (wp_idt_loop L 23 9 (isr_stub_table L)); [exact H3 | lia | lia | intros; apply Hisr; lia | lia | lia |]. intros d4 H4.
  apply wp_bind. eapply (wp_idt_loop L 16 32 (fun v => irq_stub_table L (v - 32))); [exact H4 | lia | lia | intros; apply Hirq; lia | lia | lia |]. intros d5 H5.
  apply wp_bind. eapply wp_idt_step; [exact H5 | lia | done | lia | lia |]. intros d6 H6.
  apply wp_bind. eapply wp_idt_step; [exact H6 | lia | done | lia | lia |]. intros d7 (E7 & Ho7 & Hf7). apply wp_modify. apply HQ; cbn [d_mem set_idtr].
  - by rewrite E7.
  - exact Ho7.
  - intros v Hv. rewrite Z.mul_comm, Hf7 by done. clear - Hv. unfold updated, idt_gate, idt_handler.
    repeat case_decide; repeat (first [rewrite (proj2 (Z.ltb_lt _ _)) by lia | rewrite (proj2 (Z.ltb_ge _ _)) by lia | rewrite (proj2 (Z.eqb_eq _ _)) by lia
      | rewrite (proj2 (Z.eqb_neq _ _)) by lia]); try lia; subst; done.
Qed.
End boot.

(** ** Dispatch *)

Section dispatch.
Context {St : Type} `{TrapHandlers St}.
Implicit Types d : desc St.

Lemma bind_ok {A B} (m : M (desc St) A) (f : A -> M (desc St) B) d a d' : m d = Ok (a, d') -> (m ≫= f) d = f a d'.
Proof. unfold mbind, M_bind. by intros ->. Qed.

Lemma put_irq_handler_ok d num h : 0 <= num < 16 -> put_irq_handler num h d = Ok (tt, set_irq_handlers (<[num := h]> (irq_handlers d)) d).
Proof. intros Hn. unfold put_irq_handler. by rewrite (proj2 (Z.leb_le 0 num)), (proj2 (Z.ltb_lt num 16)) by lia. Qed.

Lemma exception_handler_irq d num : 0 <= num < 16 -> exception_handler (32 + num) d = irq_handler (32 + num) d.
Proof.
  intros Hn. unfold exception_handler, when. rewrite (proj2 (Z.ltb_ge (32 + num) 32)), (proj2 (Z.ltb_lt 31 _)), (proj2 (Z.ltb_lt _ 48)) by lia. done.
Qed.

Lemma irq_handler_call d num h : irq_handlers d @@ num = h -> h <> 0 ->
  irq_handler (32 + num) d = (zoom l_d_env (call_handler h);; zoom l_d_env end_of_interrupt) d.
Proof.
  intros Hh H0. unfold irq_handler, gets, mbind at 1, M_bind at 1. replace (32 + num - 32) with num by lia. rewrite Hh.
  by rewrite (proj2 (truthy_true h) H0).
Qed.

Lemma irq_handler_null d num : irq_handlers d @@ num = 0 -> irq_handler (32 + num) d = Err Fault.
Proof. intros Hh. unfold irq_handler, gets, mbind, M_bind. replace (32 + num - 32) with num by lia. by rewrite Hh. Qed.

End dispatch.

Lemma remap_PIC_masks (d : desc (pic * pic)) : remap_PIC d = Ok (tt, set_d_env (Pic 0 0x20 0x04 0x01 0xFF, Pic 0 0x28 0x02 0x01 0xFF) d).
Proof. destruct d as [[[] []] m g t c s i h]. vm_compute. reflexivity. Qed.

(** * Theorems *)

(** After the initialisation the processor uses the new table: its selectors
    name a 64-bit code and a data segment of the kernel, the next two entries are
    data and 64-bit code of user mode, and the task register names a task state
    segment whose 64-bit base is that of the structure, which has a stack for the
    double fault and no map of ports. *)
Theorem init_GDT_spec {St : Type} (L : link_map) (d : desc St) : link_ok L ->
  wp (init_GDT L) (fun _ d' => d' = load_gdt (55, gdt_entries L) (set_d_mem (d_mem d') d) /\
    (forall v, 0 <= v < 5 -> segment_at (d_mem d') (gdt_entries L + v * 8) = boot_segment v) /\
    tss_segment_at (d_mem d') (gdt_entries L + tr d') = Segment (tss L) (sizeof_TSS - 1) 0x89 4 /\ tss_ok L (d_mem d')) d.
Proof. exact (wp_init_GDT L d). Qed.

(** After the initialisation the gate of every vector, as the processor decodes
    it, leads to the stub of its exception or interrupt, with a stack of its own
    for the double fault, and the vectors without a stub are not present; the two
    interrupt controllers are moved to vectors 0x20 and 0x28, and all their lines
    are masked; nothing outside the table is written. *)
Theorem init_IDT_spec (L : link_map) (d : desc (pic * pic)) : link_ok L ->
  wp (init_IDT L) (fun _ d' => idtr d' = (4095, idt_entries L) /\
    (forall v, 0 <= v < 256 -> gate_at (d_mem d') (idt_entries L + 16 * v) = idt_gate L v) /\
    d_env d' = (Pic 0 0x20 0x04 0x01 0xFF, Pic 0 0x28 0x02 0x01 0xFF) /\
    only_bytes (idt_entries L) (idt_entries L + 4096) (d_mem d) (d_mem d')) d.
Proof.
  intros HL. apply wp_bind. eapply wp_of_ok; [apply remap_PIC_masks |]. apply wp_init_IDT_gates; [done |].
  intros d' Ed Ho Hg. split_and!; [by rewrite Ed | done | by rewrite Ed | done].
Qed.

(** An interrupt of a line calls the handler registered last for the line and
    then ends the interrupt; without a registered handler, or after it was
    deleted, a null pointer is called; vectors from 48 on are ignored, and
    exceptions other than 7 and 14 stop the kernel. *)
Theorem interrupt_dispatch {St : Type} `{TrapHandlers St} (d : desc St) num h : 0 <= num < 16 -> h <> 0 ->
  (setIRQHandler num h;; exception_handler (32 + num)) d = (setIRQHandler num h;; zoom l_d_env (call_handler h);; zoom l_d_env end_of_interrupt) d /\
  (setIRQHandler num h;; deleteIRQHandler num;; exception_handler (32 + num)) d = Err Fault /\
  (forall v, 48 <= v -> exception_handler v d = Ok (tt, d)) /\
  (forall v, 0 <= v < 32 -> v <> 7 -> v <> 14 -> exception_handler v d = Err Hang).
Proof.
  intros Hn Hh. split_and!.
  - unfold setIRQHandler. rewrite !(bind_ok (put_irq_handler num h) _ _ _ _ (put_irq_handler_ok d num h Hn)), exception_handler_irq by done.
    apply irq_handler_call; [apply rd_insert_eq | done].
  - unfold setIRQHandler, deleteIRQHandler. rewrite !(bind_ok _ _ _ _ _ (put_irq_handler_ok _ num _ Hn)), exception_handler_irq by done.
    apply irq_handler_null, rd_insert_eq.
  - intros v Hv. unfold exception_handler, when. rewrite (proj2 (Z.ltb_ge v 32)), (proj2 (Z.ltb_ge v 48)), andb_false_r by lia. done.
  - intros v Hv H7 H14. unfold exception_handler, isr_handler, when, mbind, M_bind. rewrite (proj2 (Z.ltb_lt v 32)), !(proj2 (Z.eqb_neq _ _)) by lia. done.
Qed.

(** * Witnesses *)

Definition demo_link : link_map :=
  LinkMap 0xFFFFFFFF80200000 0xFFFFFFFF80201000 0xFFFFFFFF80202000 0xFFFFFFFF80204000 (fun v => 0xFFFFFFFF80100000 + 16 * v)
    (fun v => 0xFFFFFFFF80101000 + 16 * v) 0xFFFFFFFF80102000 0xFFFFFFFF80102100.

Lemma demo_link_ok : link_ok demo_link.
Proof.
  split; [by vm_compute |]. split; [by vm_compute |]. split; [by vm_compute |]. split; [by vm_compute |].
  intros v h Hv. unfold idt_handler, demo_link. cbn [isr_stub_table irq_stub_table isr255 yield_handler].
  destruct (Z.ltb_spec v 32), (Z.ltb_spec v 48), (v =? 0x81), (v =? 0xFF); intros E; simplify_eq; lia.
Qed.

Lemma init_GDT_spec_witness : wp (init_GDT demo_link) (fun _ d' =>
  segment_at (d_mem d') (gdt_entries demo_link + cs d') = Segment 0 0xFFFFF 0x9A 2 /\
  tss_segment_at (d_mem d') (gdt_entries demo_link + 40) = Segment 0xFFFFFFFF80202000 103 0x89 4) (Desc tt ∅ (0, 0) 0 0 0 (0, 0) ∅).
Proof.
  eapply wp_mono; [apply (init_GDT_spec demo_link), demo_link_ok |]. intros [] d' (Ed & Hs & Ht & _).
  assert (cs d' = 8 /\ tr d' = 40) as [E1 E2] by (by rewrite Ed). rewrite E2 in Ht. split; [rewrite E1; by apply (Hs 1) | exact Ht].
Defined.

Lemma init_IDT_spec_witness : wp (init_IDT demo_link) (fun _ d' =>
  gate_at (d_mem d') (idt_entries demo_link + 16 * 0x21) = Gate 0xFFFFFFFF80101010 0x08 0 0x8E)
  (Desc (Pic 0 0 0 0 0, Pic 0 0 0 0 0) ∅ (0, 0) 0 0 0 (0, 0) ∅).
Proof.
  eapply wp_mono; [apply (init_IDT_spec demo_link), demo_link_ok |]. intros [] d' (_ & Hg & _). by apply (Hg 0x21).
Defined.

(** Handlers that leave a trace of the calls. *)
Definition trace_handlers : TrapHandlers (list Z) := {|
  vector_ctx_switch := modify (cons 1); page_fault_handler := modify (cons 2); call_handler h := modify (cons h); end_of_interrupt := modify (cons 0);
|}.

Lemma interrupt_dispatch_witness : let H := trace_handlers in
  (setIRQHandler 1 0x1000;; exception_handler 33) (Desc [] ∅ (0, 0) 0 0 0 (0, 0) ∅) =
  Ok (tt, Desc [0; 0x1000] ∅ (0, 0) 0 0 0 (0, 0) {[1 := 0x1000]}).
Proof. intros H. exact (proj1 (interrupt_dispatch (Desc [] ∅ (0, 0) 0 0 0 (0, 0) ∅) 1 0x1000 ltac:(done) ltac:(done))). Defined.
