(* ===== verification/Pci.v ===== *)
(** The configuration space of the PCI bus ([arch/x86_64/drivers/pci/pci.c]):
    reading and writing registers through the two ports, and turning on message
    signalled interrupts. *)
From S2P Require Import Prelude Interfaces.

(** * Operations *)

Definition PCI_CONFIG_ADDRESS : Z := 0xCF8.
Definition PCI_CONFIG_DATA : Z := 0xCFC.

Section Pci.
Context {St : Type} `{Ports St}.

Definition pci_address (bus dev func offset : Z) : Z :=
  Z.lor (Z.lor (Z.lor (Z.lor (Z.shiftl 1 31) (Z.shiftl bus 16)) (Z.shiftl dev 11)) (Z.shiftl func 8)) (Z.land offset 0xFC).

(** The parameters are bytes. *)
Definition pci_write_dword (bus dev func offset value : Z) : M St unit :=
  outl PCI_CONFIG_ADDRESS (pci_address (u8 bus) (u8 dev) (u8 func) (u8 offset));;
  outl PCI_CONFIG_DATA value.

Definition pci_read_dword (bus dev func offset : Z) : M St Z :=
  outl PCI_CONFIG_ADDRESS (pci_address (u8 bus) (u8 dev) (u8 func) (u8 offset));;
  inl PCI_CONFIG_DATA.

(** What is written to the capability at [cap_ptr]. *)
Definition write_msi (lapic_paddr bus dev func vector lapic_id cap_ptr cap_header : Z) : M St unit :=
  let msg_ctrl_reg := u16 (Z.land (Z.shiftr cap_header 16) 0xFFFF) in
  let msg_addr := u32 (Z.lor lapic_paddr (u32 (Z.shiftl lapic_id 12))) in
  pci_write_dword bus dev func (cap_ptr + 4) msg_addr;;
  (if truthy (Z.land msg_ctrl_reg (Z.shiftl 1 7)) then
     pci_write_dword bus dev func (cap_ptr + 8) 0;;
     pci_write_dword bus dev func (cap_ptr + 12) vector
   else pci_write_dword bus dev func (cap_ptr + 8) vector);;
  pci_write_dword bus dev func cap_ptr (Z.lor cap_header (Z.shiftl 1 16)).

(** The walk over the capabilities. *)
Fixpoint msi_loop (fuel : nat) (lapic_paddr bus dev func vector lapic_id cap_ptr : Z) : M St unit :=
  if cap_ptr =? 0 then mret tt
  else
    match fuel with
    | O => fail Hang
    | S fuel' =>
        cap_header ← pci_read_dword bus dev func cap_ptr;
        let cap_id := u8 (Z.land cap_header 0xFF) in
        let next_ptr := u8 (Z.land (Z.shiftr cap_header 8) 0xFF) in
        if cap_id =? 0x05 then write_msi lapic_paddr bus dev func vector lapic_id cap_ptr cap_header
        else msi_loop fuel' lapic_paddr bus dev func vector lapic_id next_ptr
    end.

Definition pci_enable_msi (fuel : nat) (lapic_paddr bus dev func vector lapic_id : Z) : M St unit :=
  cap_reg ← pci_read_dword bus dev func 0x34;
  msi_loop fuel lapic_paddr bus dev func vector lapic_id (u16 (Z.land cap_reg 0xFFFF)).

End Pci.

(** * Specification *)

(** The bus: the address written last, and the registers, by bus, device,
    function and number. A register that is not there reads as ones. *)
Record pci_bus : Type := PciBus { config_address : Z; config : gmap (Z * Z * Z * Z) Z }.

Definition decode_address (a : Z) : Z * Z * Z * Z :=
  (a / 2 ^ 16 mod 2 ^ 8, a / 2 ^ 11 mod 2 ^ 5, a / 2 ^ 8 mod 2 ^ 3, a / 2 ^ 2 mod 2 ^ 6).
Definition config_reg (s : pci_bus) (r : Z * Z * Z * Z) : Z := default (2 ^ 32 - 1) (config s !! r).

#[export] Instance pci_ports : Ports pci_bus := {
  outb p x := mret tt;
  inb p := mret 0;
  outl p x s := Ok (tt,
    if p =? PCI_CONFIG_ADDRESS then PciBus x (config s)
    else if (p =? PCI_CONFIG_DATA) && Z.testbit (config_address s) 31
    then PciBus (config_address s) (<[decode_address (config_address s) := x]> (config s)) else s);
  inl p s := Ok (if (p =? PCI_CONFIG_DATA) && Z.testbit (config_address s) 31 then config_reg s (decode_address (config_address s)) else 2 ^ 32 - 1, s);
  read_tsc := mret 0;
}.

(** A function of a device. *)
Definition bdf_ok (bus dev func : Z) : Prop := 0 <= bus < 2 ^ 8 /\ 0 <= dev < 2 ^ 5 /\ 0 <= func < 2 ^ 3.

(** The chain of capabilities of a function whose registers are [c]: the offsets,
    from the one at [ptr] on. *)
Fixpoint caps_at (c : Z -> Z) (ptr : Z) (l : list Z) : Prop :=
  match l with
  | [] => ptr = 0
  | p :: l' => ptr = p /\ 0 < p < 256 /\ caps_at c (c (p / 4) / 2 ^ 8 mod 2 ^ 8) l'
  end.
Definition cap_id_at (c : Z -> Z) (p : Z) : Z := c (p / 4) mod 2 ^ 8.

(** The registers of a function with messages enabled in the capability at [p]. *)
Definition msi_enabled (c c' : Z -> Z) (p addr vector : Z) : Prop :=
  let h := c (p / 4) in
  c' (p / 4) = Z.lor h (2 ^ 16) /\ c' (p / 4 + 1) = addr /\
  (if Z.testbit h 23 then c' (p / 4 + 2) = 0 /\ c' (p / 4 + 3) = vector else c' (p / 4 + 2) = vector) /\
  (forall r, ~ p / 4 <= r < p / 4 + (if Z.testbit h 23 then 4 else 3) -> c' r = c r).

(** * Lemmas *)

Lemma lor_high a b n : 0 <= n -> 0 <= b < 2 ^ n -> Z.lor (2 ^ n * a) b = 2 ^ n * a + b.
Proof. intros Hn Hb. rewrite Z.lor_comm, lor_shifted by done. lia. Qed.

Lemma low_bits_dword f : 0 <= f < 256 -> Z.land f 0xFC = 2 ^ 2 * (f / 2 ^ 2).
Proof.
  intros Hf. apply Z.eqb_eq. revert f Hf. apply (forall_Z_lt 256 (fun f => Z.land f 0xFC =? 2 ^ 2 * (f / 2 ^ 2))). vm_compute. reflexivity.
Qed.

Lemma pci_address_sum bus dev func offset : bdf_ok bus dev func -> 0 <= offset < 2 ^ 8 ->
  pci_address bus dev func offset = 2 ^ 8 * (2 ^ 3 * (2 ^ 5 * (2 ^ 15 + bus) + dev) + func) + 2 ^ 2 * (offset / 2 ^ 2).
Proof.
  intros (Hb & Hd & Hf) Ho. unfold pci_address. rewrite !Z.shiftl_mul_pow2, low_bits_dword by lia.
  replace (1 * 2 ^ 31) with (2 ^ 31 * 1) by lia. rewrite (lor_high 1) by lia.
  replace (2 ^ 31 * 1 + bus * 2 ^ 16) with (2 ^ 16 * (2 ^ 15 + bus)) by lia. rewrite lor_high by lia.
  replace (2 ^ 16 * (2 ^ 15 + bus) + dev * 2 ^ 11) with (2 ^ 11 * (2 ^ 5 * (2 ^ 15 + bus) + dev)) by lia. rewrite lor_high by lia.
  replace (2 ^ 11 * (2 ^ 5 * (2 ^ 15 + bus) + dev) + func * 2 ^ 8) with (2 ^ 8 * (2 ^ 3 * (2 ^ 5 * (2 ^ 15 + bus) + dev) + func)) by lia.
  rewrite lor_high; [done | lia |]. clear - Ho. dlia.
Qed.

(** The device decodes the address that the code composes. *)
Lemma pci_address_decodes bus dev func offset : bdf_ok bus dev func -> 0 <= offset < 2 ^ 8 ->
  decode_address (pci_address bus dev func offset) = (bus, dev, func, offset / 4) /\ Z.testbit (pci_address bus dev func offset) 31 = true.
Proof.
  intros Hok Ho. rewrite pci_address_sum by done. destruct Hok as (Hb & Hd & Hf).
  assert (0 <= offset / 4 < 2 ^ 6) as Hq by dlia. change (2 ^ 2) with 4. set (q := offset / 4) in *. clearbody q. split.
  - unfold decode_address. f_equal; [f_equal; [f_equal |] |]; clear - Hb Hd Hf Hq; dlia.
  - apply Z.testbit_true; [lia |]. clear - Hb Hd Hf Hq. dlia.
Qed.

Section bus.
Implicit Types s : pci_bus.

(** The registers of one function. *)
Definition regs_of s (bus dev func r : Z) : Z := config_reg s (bus, dev, func, r).

(** The state after a write to one register, whatever address was written last. *)
Definition reg_set s (bus dev func r x : Z) s' : Prop := forall k, config_reg s' k = if decide (k = (bus, dev, func, r)) then x else config_reg s k.
Definition regs_same s s' : Prop := forall k, config_reg s' k = config_reg s k.

Lemma wp_pci_read bus dev func offset (Q : Z -> pci_bus -> Prop) s : bdf_ok bus dev func ->
  (forall s', regs_same s s' -> Q (regs_of s bus dev func (u8 offset / 4)) s') -> wp (pci_read_dword bus dev func offset) Q s.
Proof.
  intros Hok HQ. destruct (pci_address_decodes bus dev func (u8 offset) Hok (u8_range _)) as [Hd Hb]. unfold pci_read_dword.
  rewrite !(u8_small bus), !(u8_small dev), !(u8_small func) by (unfold bdf_ok in Hok; lia).
  set (a := pci_address _ _ _ _) in *. unfold wp, mbind, M_bind. cbn -[Z.testbit decode_address]. rewrite Hb, Hd. cbn -[Z.testbit]. by apply HQ.
Qed.

Lemma wp_pci_write bus dev func offset x (Q : unit -> pci_bus -> Prop) s : bdf_ok bus dev func ->
  (forall s', reg_set s bus dev func (u8 offset / 4) x s' -> Q tt s') -> wp (pci_write_dword bus dev func offset x) Q s.
Proof.
  intros Hok HQ. destruct (pci_address_decodes bus dev func (u8 offset) Hok (u8_range _)) as [Hd Hb]. unfold pci_write_dword.
  rewrite !(u8_small bus), !(u8_small dev), !(u8_small func) by (unfold bdf_ok in Hok; lia).
  set (a := pci_address _ _ _ _) in *. unfold wp, mbind, M_bind. cbn -[Z.testbit decode_address]. rewrite Hb, Hd. cbn -[Z.testbit]. apply HQ.
  intros k. unfold config_reg. cbn. destruct (decide (k = _)) as [->|Hne]; [by rewrite lookup_insert_eq | by rewrite lookup_insert_ne].
Qed.

Lemma reg_set_of s bus dev func r x s' r' : reg_set s bus dev func r x s' ->
  regs_of s' bus dev func r' = if decide (r' = r) then x else regs_of s bus dev func r'.
Proof. intros H. unfold regs_of. rewrite H. repeat case_decide; naive_solver. Qed.

(** Only registers of one function change. *)
Definition other_regs_same s bus dev func s' : Prop := forall b d f r, (b, d, f) <> (bus, dev, func) -> regs_of s' b d f r = regs_of s b d f r.

Lemma wp_write_msi lapic bus dev func vector id p (Q : unit -> pci_bus -> Prop) s : let c := regs_of s bus dev func in
  bdf_ok bus dev func -> 0 < p <= 240 -> 0 <= c (p / 4) < 2 ^ 32 ->
  (forall s', msi_enabled c (regs_of s' bus dev func) p (u32 (Z.lor lapic (u32 (Z.shiftl id 12)))) vector -> other_regs_same s bus dev func s' -> Q tt s') ->
  wp (write_msi lapic bus dev func vector id p (c (p / 4))) Q s.
Proof.
  intros c Hok Hp Hh HQ. unfold write_msi. set (addr := u32 (Z.lor _ _)) in *. clearbody addr. cbv zeta.
  assert (truthy (Z.land (u16 (Z.land (Z.shiftr (c (p / 4)) 16) 0xFFFF)) (Z.shiftl 1 7)) = Z.testbit (c (p / 4)) 23) as ->.
  { rewrite (land_mask _ 16 0xFFFF), u16_small, Z.shiftl_1_l, land_pow2_testbit, Z.mod_pow2_bits_low, Z.shiftr_spec by (done || lia || apply Z.mod_pos_bound; lia). done. }
  assert (u8 p / 4 = p / 4 /\ u8 (p + 4) / 4 = p / 4 + 1 /\ u8 (p + 8) / 4 = p / 4 + 2 /\ u8 (p + 12) / 4 = p / 4 + 3) as (H0 & Hu4 & Hu8 & Hu12)
    by (rewrite !u8_small by lia; clear; dlia).
  apply wp_bind, wp_pci_write; [done |]. rewrite Hu4. intros s1 H1. apply wp_bind.
  destruct (Z.testbit (c (p / 4)) 23) eqn:Hb.
  - apply wp_bind, wp_pci_write; [done |]. rewrite Hu8. intros s2 H2. apply wp_pci_write; [done |]. rewrite Hu12. intros s3 H3.
    apply wp_pci_write; [done |]. rewrite H0, Z.shiftl_1_l. intros s4 H4. apply HQ.
    + unfold msi_enabled. rewrite Hb. cbv zeta. rewrite !(reg_set_of _ _ _ _ _ _ _ _ H4), !(reg_set_of _ _ _ _ _ _ _ _ H3), !(reg_set_of _ _ _ _ _ _ _ _ H2), !(reg_set_of _ _ _ _ _ _ _ _ H1).
      split_and!; [by repeat (case_decide; try lia).. |]. intros r Hr.
      rewrite (reg_set_of _ _ _ _ _ _ _ _ H4), (reg_set_of _ _ _ _ _ _ _ _ H3), (reg_set_of _ _ _ _ _ _ _ _ H2), (reg_set_of _ _ _ _ _ _ _ _ H1).
      repeat (case_decide; try lia). done.
    + intros b d f r Hne. unfold regs_of. rewrite H4, H3, H2, H1. by rewrite !decide_False by naive_solver.
  - apply wp_pci_write; [done |]. rewrite Hu8. intros s2 H2.
    apply wp_pci_write; [done |]. rewrite H0, Z.shiftl_1_l. intros s4 H4. apply HQ.
    + unfold msi_enabled. rewrite Hb. cbv zeta. rewrite !(reg_set_of _ _ _ _ _ _ _ _ H4), !(reg_set_of _ _ _ _ _ _ _ _ H2), !(reg_set_of _ _ _ _ _ _ _ _ H1).
      split_and!; [by repeat (case_decide; try lia).. |]. intros r Hr.
      rewrite (reg_set_of _ _ _ _ _ _ _ _ H4), (reg_set_of _ _ _ _ _ _ _ _ H2), (reg_set_of _ _ _ _ _ _ _ _ H1).
      repeat (case_decide; try lia). done.
    + intros b d f r Hne. unfold regs_of. rewrite H4, H2, H1. by rewrite !decide_False by naive_solver.
Qed.

Lemma regs_same_of s s' bus dev func r : regs_same s s' -> regs_of s' bus dev func r = regs_of s bus dev func r.
Proof. intros H. apply H. Qed.

Lemma cap_fields h : 0 <= h < 2 ^ 32 -> u8 (Z.land h 0xFF) = h mod 2 ^ 8 /\ u8 (Z.land (Z.shiftr h 8) 0xFF) = h / 2 ^ 8 mod 2 ^ 8.
Proof. intros Hh. by rewrite !(land_mask _ 8 0xFF), Z.shiftr_div_pow2, !u8_small by (done || apply Z.mod_pos_bound; lia). Qed.

(** The capabilities before the one for messages are passed over. *)
Lemma wp_msi_skip l1 fuel lapic bus dev func vector id ptr l2 s0 s Q : let c := regs_of s0 bus dev func in
  bdf_ok bus dev func -> (forall r, 0 <= c r < 2 ^ 32) -> regs_same s0 s -> caps_at c ptr (l1 ++ l2) -> Forall (fun x => cap_id_at c x <> 5) l1 ->
  (forall ptr' s', regs_same s0 s' -> caps_at c ptr' l2 -> wp (msi_loop fuel lapic bus dev func vector id ptr') Q s') ->
  wp (msi_loop (length l1 + fuel) lapic bus dev func vector id ptr) Q s.
Proof.
  intros c Hok Hc. revert ptr s. induction l1 as [|p l1 IH]; intros ptr s Hs Hl Hne HQ; [by apply HQ |].
  apply Forall_cons in Hne as [Hp Hne]. destruct Hl as (-> & Hr & Hl). cbn [length Nat.add msi_loop].
  rewrite (proj2 (Z.eqb_neq p 0)) by lia. apply wp_bind, wp_pci_read; [done |]. intros s' Hs'. rewrite (u8_small p), (regs_same_of _ _ _ _ _ _ Hs) by lia. fold c.
  destruct (cap_fields (c (p / 4)) (Hc _)) as [-> ->]. rewrite (proj2 (Z.eqb_neq _ 5)) by done.
  apply IH; [| done | done | done]. intros k. by rewrite Hs', Hs.
Qed.

Lemma wp_pci_enable_msi fuel lapic bus dev func vector id l1 p l2 s : let c := regs_of s bus dev func in
  bdf_ok bus dev func -> (forall r, 0 <= c r < 2 ^ 32) -> caps_at c (c 13 mod 2 ^ 16) (l1 ++ p :: l2) ->
  Forall (fun x => cap_id_at c x <> 5) l1 -> cap_id_at c p = 5 -> p <= 240 -> (length l1 < fuel)%nat ->
  wp (pci_enable_msi fuel lapic bus dev func vector id) (fun _ s' =>
    msi_enabled c (regs_of s' bus dev func) p (u32 (Z.lor lapic (u32 (Z.shiftl id 12)))) vector /\ other_regs_same s bus dev func s') s.
Proof.
  intros c Hok Hc Hl Hne H5 Hp Hf. apply wp_bind, wp_pci_read; [done |]. intros s1 H1. change (u8 0x34 / 4) with 13. fold c.
  rewrite (land_mask _ 16 0xFFFF), u16_small by (done || apply Z.mod_pos_bound; lia).
  replace fuel with (length l1 + S (fuel - length l1 - 1))%nat by lia. apply (wp_msi_skip l1 _ lapic bus dev func vector id _ (p :: l2) s); [done.. |].
  intros ptr s2 H2 (-> & Hr & _). cbn [msi_loop]. rewrite (proj2 (Z.eqb_neq p 0)) by lia. apply wp_bind, wp_pci_read; [done |]. intros s3 H3.
  rewrite (u8_small p) by lia. destruct (cap_fields (regs_of s2 bus dev func (p / 4))) as [-> _]; [rewrite (regs_same_of _ _ _ _ _ _ H2); apply Hc |].
  rewrite (regs_same_of _ _ _ _ _ _ H2). fold c. rewrite (proj2 (Z.eqb_eq _ 5)) by done.
  assert (forall r, regs_of s3 bus dev func r = c r) as E by (intros r; by rewrite (regs_same_of _ _ _ _ _ _ H3), (regs_same_of _ _ _ _ _ _ H2)).
  rewrite <- E. apply wp_write_msi; [done | lia | rewrite E; apply Hc |]. intros s4 Hm Ho. split.
  - unfold msi_enabled in *. rewrite !E in Hm. destruct Hm as (? & ? & ? & Hm). split_and!; [done.. |]. intros r Hr'. rewrite Hm by done. apply E.
  - intros b d f r Hbdf. rewrite Ho by done. rewrite (regs_same_of _ _ _ _ _ _ H3). apply (regs_same_of _ _ _ _ _ _ H2).
Qed.

End bus.

(** ** The configuration space *)

(** What a reader of the configuration space needs of a state with ports: the
    registers, and that a read gives one and changes nothing that counts. *)
Class PciSpace (St : Type) `{Ports St} : Type := {
  space_regs : St -> Z -> Z -> Z -> Z -> Z;
  space_same : St -> St -> Prop;
  space_refl : forall s, space_same s s;
  space_trans : forall s1 s2 s3, space_same s1 s2 -> space_same s2 s3 -> space_same s1 s3;
  space_regs_same : forall s s', space_same s s' -> forall b d f r, space_regs s' b d f r = space_regs s b d f r;
  space_read : forall bus dev func offset (Q : Z -> St -> Prop) s, bdf_ok bus dev func ->
    (forall s', space_same s s' -> Q (space_regs s bus dev func (u8 offset / 4)) s') -> wp (pci_read_dword bus dev func offset) Q s;
}.

#[export] Instance pci_bus_space : PciSpace pci_bus.
Proof.
  refine {| space_regs := regs_of; space_same := regs_same; space_read := wp_pci_read |}.
  - done.
  - intros s1 s2 s3 H1 H2 k. by rewrite H2, H1.
  - intros s s' H b d f r. apply H.
Defined.

Lemma wp_space_read {St} `{PciSpace St} (s0 : St) bus dev func offset (Q : Z -> St -> Prop) s : space_same s0 s -> bdf_ok bus dev func ->
  (forall s', space_same s0 s' -> Q (space_regs s0 bus dev func (u8 offset / 4)) s') -> wp (pci_read_dword bus dev func offset) Q s.
Proof.
  intros Hs Hok HQ. apply space_read; [done |]. intros s' Hs'. rewrite (space_regs_same _ _ Hs). apply HQ. by apply (space_trans _ s).
Qed.

(** * Theorems *)

(** C38: enabling message signalled interrupts writes the address of the local APIC
    and the vector into the first capability of that kind, in the layout that its
    control word asks for, and sets its enable bit; no other register of the
    function and no other function changes, and the walk over the capabilities
    ends. *)
Theorem pci_enable_msi_spec fuel lapic bus dev func vector id l1 p l2 (s : pci_bus) : let c := regs_of s bus dev func in
  bdf_ok bus dev func -> (forall r, 0 <= c r < 2 ^ 32) -> caps_at c (c 13 mod 2 ^ 16) (l1 ++ p :: l2) ->
  Forall (fun x => cap_id_at c x <> 5) l1 -> cap_id_at c p = 5 -> p <= 240 -> (length l1 < fuel)%nat ->
  wp (pci_enable_msi fuel lapic bus dev func vector id) (fun _ s' =>
    msi_enabled c (regs_of s' bus dev func) p (u32 (Z.lor lapic (u32 (Z.shiftl id 12)))) vector /\ other_regs_same s bus dev func s') s.
Proof. apply wp_pci_enable_msi. Qed.

(** A function without the capability is left as it is. *)
Theorem pci_no_msi fuel lapic bus dev func vector id l (s : pci_bus) : let c := regs_of s bus dev func in
  bdf_ok bus dev func -> (forall r, 0 <= c r < 2 ^ 32) -> caps_at c (c 13 mod 2 ^ 16) l ->
  Forall (fun x => cap_id_at c x <> 5) l -> (length l <= fuel)%nat ->
  wp (pci_enable_msi fuel lapic bus dev func vector id) (fun _ s' => regs_same s s') s.
Proof.
  intros c Hok Hc Hl Hne Hf. apply wp_bind, wp_pci_read; [done |]. intros s1 H1. change (u8 0x34 / 4) with 13. fold c.
  rewrite (land_mask _ 16 0xFFFF), u16_small by (done || apply Z.mod_pos_bound; lia).
  replace fuel with (length l + (fuel - length l))%nat by lia. apply (wp_msi_skip l _ lapic bus dev func vector id _ [] s); [done | done | done | by rewrite app_nil_r | done |].
  intros ptr s2 H2 ->. by destruct (fuel - length l)%nat.
Qed.

(** A register that was written reads back the value, and the others read as
    before, whatever bytes the addresses are composed of. *)
Theorem pci_config_roundtrip bus dev func offset x bus' dev' func' offset' (s : pci_bus) :
  bdf_ok bus dev func -> bdf_ok bus' dev' func' -> 0 <= offset < 2 ^ 8 -> 0 <= offset' < 2 ^ 8 ->
  wp (pci_write_dword bus dev func offset x;; pci_read_dword bus' dev' func' offset') (fun y _ =>
    y = if decide ((bus', dev', func', offset' / 4) = (bus, dev, func, offset / 4)) then x else regs_of s bus' dev' func' (offset' / 4)) s.
Proof.
  intros H H' Ho Ho'. apply wp_bind, wp_pci_write; [done |]. intros s1 H1. apply wp_pci_read; [done |]. intros s2 H2.
  rewrite !u8_small in * by lia. apply H1.
Qed.

(** * Witnesses *)

(** A device at 0:5.0 with a power management capability and, after it, one for
    messages with 64-bit addresses. *)
Definition demo_bus : pci_bus := PciBus 0 (
  <[(0, 5, 0, 13) := 0x40]> (<[(0, 5, 0, 16) := 0x00025001]> (<[(0, 5, 0, 20) := 0x00800005]> (<[(0, 5, 0, 0) := 0x29228086]> ∅)))).

Lemma demo_bus_words r : 0 <= regs_of demo_bus 0 5 0 r < 2 ^ 32.
Proof.
  unfold regs_of, config_reg, demo_bus. cbn [config].
  destruct (decide (r = 13)) as [->|]; [by vm_compute |]. destruct (decide (r = 16)) as [->|]; [by vm_compute |].
  destruct (decide (r = 20)) as [->|]; [by vm_compute |]. destruct (decide (r = 0)) as [->|]; [by vm_compute |].
  rewrite !lookup_insert_ne by congruence. by vm_compute.
Qed.

Lemma pci_enable_msi_spec_witness : wp (pci_enable_msi 5 0xfee00000 0 5 0 49 0) (fun _ s' =>
  regs_of s' 0 5 0 20 = 0x00810005 /\ regs_of s' 0 5 0 21 = 0xfee00000 /\ regs_of s' 0 5 0 23 = 49) demo_bus.
Proof.
  eapply wp_mono; [apply (pci_enable_msi_spec 5 0xfee00000 0 5 0 49 0 [0x40] 0x50 [] demo_bus) |].
  - by repeat split.
  - apply demo_bus_words.
  - split; [by vm_compute |]. split; [done |]. split; [by vm_compute |]. split; [done |]. by vm_compute.
  - apply Forall_singleton. by vm_compute.
  - by vm_compute.
  - done.
  - cbn. lia.
  - cbv beta. intros [] s' [(H0 & H1 & H2 & _) _]. split; [exact H0 |]. split; [exact H1 |]. apply H2.
Defined.

Lemma pci_no_msi_witness : let s := PciBus 0 {[(0, 3, 0, 13) := 0]} in wp (pci_enable_msi 5 0xfee00000 0 3 0 49 0) (fun _ s' => regs_same s s') s.
Proof.
  apply (pci_no_msi 5 0xfee00000 0 3 0 49 0 [] (PciBus 0 {[(0, 3, 0, 13) := 0]})); [by repeat split | | by vm_compute | done | cbn; lia].
  intros r. unfold regs_of, config_reg. cbn [config]. destruct (decide (r = 13)) as [->|]; [by vm_compute |]. rewrite lookup_singleton_ne by congruence. by vm_compute.
Defined.

Lemma pci_config_roundtrip_witness : wp (pci_write_dword 0 5 0 4 7;; pci_read_dword 0 5 0 4) (fun y _ => y = 7) demo_bus.
Proof. eapply wp_mono; [apply (pci_config_roundtrip 0 5 0 4 7 0 5 0 4 demo_bus); by repeat split |]. cbv beta. intros y s' ->. by vm_compute. Defined.
