(* ===== verification/Virtio.v ===== *)
(** The graphics device ([drivers/virtio/virtio.c], [include/drivers/virtio.h]): the
    search on the bus, its capabilities, the negotiation of features, and the
    queue of commands with its free descriptors. *)
From S2P Require Import Prelude Interfaces CString Pci.

(** * Constants *)

Definition VIRTIO_VENDOR_ID : Z := 0x1AF4.
Definition VIRTIO_GPU_DEVID : Z := 0x1050.
Definition VIRTIO_F_VERSION_1 : Z := 2 ^ 32.
Definition COMMON_CFG_TYPE : Z := 1.
Definition NOTIFY_CFG_TYPE : Z := 2.
Definition DEVICE_CFG_TYPE : Z := 4.

(** The constants have 17 digits; the first is lost. *)
Definition COMMON_CFG_VIRT : Z := u64 0xFFFFFFFFFFFFC0000.
Definition NOTIFY_CFG_VIRT : Z := u64 0xFFFFFFFFFFFFD0000.
Definition DEVICE_CFG_VIRT : Z := u64 0xFFFFFFFFFFFFE0000.

Definition VIRTIO_STATUS_RESET : Z := 0x00.
Definition VIRTIO_STATUS_ACKNOWLEDGE : Z := 0x01.
Definition VIRTIO_STATUS_DRIVER : Z := 0x02.
Definition VIRTIO_STATUS_FEATURES_OK : Z := 0x08.
Definition VIRTIO_STATUS_DRIVER_OK : Z := 0x80.
Definition VIRTIO_STATUS_FAILED : Z := 0x80.

Definition VIRTQ_DESC_F_NEXT : Z := 1.
Definition VIRTQ_DESC_F_WRITE : Z := 2.

Definition PTE_WRITABLE_UNCACHED : Z := Z.lor (Z.lor (2 ^ 1) (2 ^ 3)) (2 ^ 4).

(** Offsets in [struct virtio_pci_common_cfg]. *)
Definition CFG_DEVICE_FEATURE_SELECT : Z := 0.
Definition CFG_DEVICE_FEATURE : Z := 4.
Definition CFG_DRIVER_FEATURE_SELECT : Z := 8.
Definition CFG_DRIVER_FEATURE : Z := 12.
Definition CFG_DEVICE_STATUS : Z := 20.
Definition CFG_QUEUE_SELECT : Z := 22.
Definition CFG_QUEUE_SIZE : Z := 24.
Definition CFG_QUEUE_ENABLE : Z := 28.
Definition CFG_QUEUE_DESC : Z := 32.
Definition CFG_QUEUE_AVAIL : Z := 40.
Definition CFG_QUEUE_USED : Z := 48.

(** Offsets in [struct vring_desc], [vring_avail], [vring_used] and [vring_used_elem]. *)
Definition sizeof_desc : Z := 16.
Definition DESC_ADDR : Z := 0.
Definition DESC_LEN : Z := 8.
Definition DESC_FLAGS : Z := 12.
Definition DESC_NEXT : Z := 14.
Definition AVAIL_IDX : Z := 2.
Definition USED_IDX : Z := 2.
Definition USED_RING : Z := 4.
Definition sizeof_used_elem : Z := 8.
Definition sizeof_virtqueue : Z := 40.

Definition s16 (z : Z) : Z := (z + 2 ^ 15) mod 2 ^ 16 - 2 ^ 15.

(** * State *)

(** What the driver uses: memory, page tables, the registers of the device by
    address, the delay, and, for the loop that polls, what the device may do to
    memory in between. [vs_translate] is the translation of the tables in use;
    [vs_stale] is what a new object of the heap holds where a queue has its
    [last_seen_used]. *)
Class VirtioServices (St : Type) : Type := {
  vs_kmalloc : Z -> M St Z;
  vs_alloc_pages : Z -> M St Z;
  vs_map_page : Z -> Z -> Z -> M St unit;
  vs_get_paddr : Z -> M St Z;
  vs_wait_ms : Z -> M St unit;
  vs_reg_get : Z -> M St Z;
  vs_reg_set : Z -> Z -> M St unit;
  vs_translate : St -> Z -> option Z;
  vs_device : St -> memory -> St * memory;
  vs_stale : St -> Z -> Z;
}.

(** [vgpu_regions_t]. A pointer is the address of the registers. *)
Record regions : Type := Regions {
  common_bar : Z; common_offset : Z; common_bar_addr : Z;
  notify_bar : Z; notify_offset : Z; notify_bar_addr : Z; notify_multiplier : Z;
  device_bar : Z; device_offset : Z; device_bar_addr : Z;
  common_cfg : Z; notify_cfg : Z; device_cfg : Z;
}.

(** [virtqueue_t]. *)
Record virtqueue : Type := Virtqueue {
  vq_desc : Z; vq_avail : Z; vq_used : Z; raw_memory_block : Z;
  queue_size : Z; num_free : Z; free_head : Z; last_seen_used : Z;
}.

(** [virtio_gpu], the queues by address, the memory by physical address, and the
    services. *)
Record vgpu (St : Type) : Type := Vgpu {
  g_env : St;
  g_mem : memory;
  g_bus : Z; g_dev : Z; g_func : Z;
  g_regions : regions;
  vq0 : Z;
  queues : gmap Z virtqueue;
}.
Arguments Vgpu {St} g_env g_mem g_bus g_dev g_func g_regions vq0 queues.
Arguments g_env {St} v.
Arguments g_mem {St} v.
Arguments g_bus {St} v.
Arguments g_dev {St} v.
Arguments g_func {St} v.
Arguments g_regions {St} v.
Arguments vq0 {St} v.
Arguments queues {St} v.

Section driver.
Context {St : Type}.
Implicit Types s : vgpu St.

Definition set_g_env (x : St) s : vgpu St := Vgpu x (g_mem s) (g_bus s) (g_dev s) (g_func s) (g_regions s) (vq0 s) (queues s).
Definition set_g_mem (x : memory) s : vgpu St := Vgpu (g_env s) x (g_bus s) (g_dev s) (g_func s) (g_regions s) (vq0 s) (queues s).
Definition set_function (b d f : Z) s : vgpu St := Vgpu (g_env s) (g_mem s) b d f (g_regions s) (vq0 s) (queues s).
Definition set_regions (x : regions) s : vgpu St := Vgpu (g_env s) (g_mem s) (g_bus s) (g_dev s) (g_func s) x (vq0 s) (queues s).
Definition set_vq0 (x : Z) s : vgpu St := Vgpu (g_env s) (g_mem s) (g_bus s) (g_dev s) (g_func s) (g_regions s) x (queues s).
Definition set_queues (x : gmap Z virtqueue) s : vgpu St := Vgpu (g_env s) (g_mem s) (g_bus s) (g_dev s) (g_func s) (g_regions s) (vq0 s) x.

Definition l_g_env : lens (vgpu St) St := Lens g_env set_g_env.

(** * Operations *)

(** ** The search on the bus *)

Section scan.
Context `{Ports St}.

Definition vendor_of (reg_id : Z) : Z := Z.land reg_id 0xFFFF.
Definition is_gpu (reg_id : Z) : bool := (vendor_of reg_id =? VIRTIO_VENDOR_ID) && (u16 (Z.shiftr reg_id 16) =? VIRTIO_GPU_DEVID).

(** The three loops, with [n] rounds to go; the result is what was found. *)
Fixpoint scan_funcs (n : nat) (bus dev func reg_id : Z) : M St (option Z) :=
  match n with
  | O => mret None
  | S n' =>
      reg_id ← (if 0 <? func then pci_read_dword bus dev func 0x00 else mret reg_id);
      if (0 <? func) && (vendor_of reg_id =? 0xFFFF) then scan_funcs n' bus dev (func + 1) reg_id
      else if is_gpu reg_id then mret (Some func)
      else scan_funcs n' bus dev (func + 1) reg_id
  end.
Fixpoint scan_devs (n : nat) (bus dev : Z) : M St (option (Z * Z)) :=
  match n with
  | O => mret None
  | S n' =>
      reg_id ← pci_read_dword bus dev 0 0x00;
      if vendor_of reg_id =? 0xFFFF then scan_devs n' bus (dev + 1)
      else
        header ← pci_read_dword bus dev 0 0x0C;
        let header_type := Z.land (Z.shiftr header 16) 0xFF in
        r ← scan_funcs (if truthy (Z.land header_type 0x80) then 8 else 1) bus dev 0 reg_id;
        match r with Some f => mret (Some (dev, f)) | None => scan_devs n' bus (dev + 1) end
  end.
Fixpoint scan_buses (n : nat) (bus : Z) : M St (option (Z * Z * Z)) :=
  match n with
  | O => mret None
  | S n' =>
      r ← scan_devs 32 bus 0;
      match r with Some (d, f) => mret (Some (bus, d, f)) | None => scan_buses n' (bus + 1) end
  end.

Definition find_virtio_gpu : M (vgpu St) unit :=
  r ← zoom l_g_env (scan_buses 256 0);
  match r with Some (b, d, f) => modify (set_function b d f) | None => mret tt end.

(** ** The capabilities *)

Definition read_gpu (offset : Z) : M (vgpu St) Z :=
  s ← get; zoom l_g_env (pci_read_dword (g_bus s) (g_dev s) (g_func s) offset).

Definition set_common (bar off addr : Z) (r : regions) : regions :=
  Regions bar off addr (notify_bar r) (notify_offset r) (notify_bar_addr r) (notify_multiplier r)
    (device_bar r) (device_offset r) (device_bar_addr r) (common_cfg r) (notify_cfg r) (device_cfg r).
Definition set_notify (bar off addr mult : Z) (r : regions) : regions :=
  Regions (common_bar r) (common_offset r) (common_bar_addr r) bar off addr mult
    (device_bar r) (device_offset r) (device_bar_addr r) (common_cfg r) (notify_cfg r) (device_cfg r).
Definition set_device (bar off addr : Z) (r : regions) : regions :=
  Regions (common_bar r) (common_offset r) (common_bar_addr r) (notify_bar r) (notify_offset r) (notify_bar_addr r) (notify_multiplier r)
    bar off addr (common_cfg r) (notify_cfg r) (device_cfg r).
Definition set_pointers (c n d : Z) (r : regions) : regions :=
  Regions (common_bar r) (common_offset r) (common_bar_addr r) (notify_bar r) (notify_offset r) (notify_bar_addr r) (notify_multiplier r)
    (device_bar r) (device_offset r) (device_bar_addr r) c n d.
Definition upd_regions (f : regions -> regions) : M (vgpu St) unit := modify (fun s => set_regions (f (g_regions s)) s).

(** A capability of the vendor. *)
Definition parse_capability (cap_ptr cap_header : Z) : M (vgpu St) unit :=
  let cfg_type := u8 (Z.land (Z.shiftr cap_header 24) 0xFF) in
  bar ← read_gpu (cap_ptr + 4);
  let bar_num := Z.land bar 0xFF in
  bar_offset ← read_gpu (cap_ptr + 8);
  bar_info ← read_gpu (0x10 + bar_num * 4);
  let low := Z.land bar_info 0xFFFFFFF0 in
  bar_address ← (if truthy (Z.land bar_info (Z.shiftl 1 2))
                 then high ← read_gpu (0x10 + bar_num * 4 + 4); mret (Z.lor low (Z.shiftl high 32)) else mret low);
  if cfg_type =? COMMON_CFG_TYPE then upd_regions (set_common bar_num bar_offset bar_address)
  else if cfg_type =? NOTIFY_CFG_TYPE then
    multiplier ← read_gpu (cap_ptr + 12);
    upd_regions (set_notify bar_num bar_offset bar_address multiplier)
  else if cfg_type =? DEVICE_CFG_TYPE then upd_regions (set_device bar_num bar_offset bar_address)
  else mret tt.

Fixpoint capability_loop (fuel : nat) (cap_ptr : Z) : M (vgpu St) unit :=
  if cap_ptr =? 0 then mret tt
  else
    match fuel with
    | O => fail Hang
    | S fuel' =>
        cap_header ← read_gpu cap_ptr;
        let cap_id := u8 (Z.land cap_header 0xFF) in
        let next_ptr := u8 (Z.land (Z.shiftr cap_header 8) 0xFF) in
        when (cap_id =? 0x09) (parse_capability cap_ptr cap_header);;
        capability_loop fuel' next_ptr
    end.

Definition parse_virtio_gpu_capabilities (fuel : nat) : M (vgpu St) unit :=
  cap_reg ← read_gpu 0x34;
  capability_loop fuel (u16 (Z.land cap_reg 0xFFFF)).
End scan.

(** ** The registers *)

Context `{VirtioServices St}.

(** The region of the device is taken at twice its offset. *)
Definition map_virtio_gpu_capablities : M (vgpu St) unit :=
  r ← gets g_regions;
  zoom l_g_env (vs_map_page (u64 (common_bar_addr r + common_offset r)) COMMON_CFG_VIRT PTE_WRITABLE_UNCACHED);;
  zoom l_g_env (vs_map_page (u64 (notify_bar_addr r + notify_offset r)) NOTIFY_CFG_VIRT PTE_WRITABLE_UNCACHED);;
  zoom l_g_env (vs_map_page (u32 (device_offset r + device_offset r)) DEVICE_CFG_VIRT PTE_WRITABLE_UNCACHED);;
  upd_regions (set_pointers COMMON_CFG_VIRT NOTIFY_CFG_VIRT DEVICE_CFG_VIRT).

Definition cfg_get (off : Z) : M (vgpu St) Z :=
  p ← gets (fun s => common_cfg (g_regions s));
  if p =? 0 then fail Fault else zoom l_g_env (vs_reg_get (p + off)).
Definition cfg_set (off v : Z) : M (vgpu St) unit :=
  p ← gets (fun s => common_cfg (g_regions s));
  if p =? 0 then fail Fault else zoom l_g_env (vs_reg_set (p + off) v).
Definition wait_ms (ms : Z) : M (vgpu St) unit := zoom l_g_env (vs_wait_ms ms).

(** [device_status |= bits] *)
Definition add_status (bits : Z) : M (vgpu St) unit :=
  v ← cfg_get CFG_DEVICE_STATUS; cfg_set CFG_DEVICE_STATUS (Z.lor v bits).

Definition init_virtio_gpu_handshake : M (vgpu St) unit :=
  cfg_set CFG_DEVICE_STATUS VIRTIO_STATUS_RESET;;
  wait_ms 10;;
  add_status VIRTIO_STATUS_ACKNOWLEDGE;;
  add_status VIRTIO_STATUS_DRIVER.

Definition init_virtio_gpu_features : M (vgpu St) unit :=
  cfg_set CFG_DEVICE_FEATURE_SELECT 0;;
  wait_ms 3;;
  device_features_low ← cfg_get CFG_DEVICE_FEATURE;
  cfg_set CFG_DEVICE_FEATURE_SELECT 1;;
  wait_ms 3;;
  device_features_high ← cfg_get CFG_DEVICE_FEATURE;
  let device_features := Z.lor (Z.shiftl device_features_high 32) device_features_low in
  if truthy (Z.land device_features VIRTIO_F_VERSION_1) then
    let driver_features := Z.lor 0 VIRTIO_F_VERSION_1 in
    cfg_set CFG_DRIVER_FEATURE_SELECT 0;;
    cfg_set CFG_DRIVER_FEATURE (Z.land driver_features 0xFFFFFFFF);;
    cfg_set CFG_DRIVER_FEATURE_SELECT 1;;
    cfg_set CFG_DRIVER_FEATURE (u32 (Z.shiftr driver_features 32));;
    cfg_set CFG_DEVICE_STATUS VIRTIO_STATUS_FEATURES_OK;;
    wait_ms 6;;
    st ← cfg_get CFG_DEVICE_STATUS;
    if truthy (Z.land st VIRTIO_STATUS_FEATURES_OK) then mret tt
    else add_status VIRTIO_STATUS_FAILED
  else add_status VIRTIO_STATUS_FAILED.

(** ** The queue *)

(** Accesses through the page tables. *)
Definition vmem_get (word : memory -> Z -> Z) (va : Z) : M (vgpu St) Z :=
  s ← get; match vs_translate (g_env s) va with Some p => mret (word (g_mem s) p) | None => fail Fault end.
Definition vmem_set (store : memory -> Z -> Z -> memory) (va x : Z) : M (vgpu St) unit :=
  s ← get;
  match vs_translate (g_env s) va with Some p => modify (set_g_mem (store (g_mem s) p x)) | None => fail Fault end.

(** A queue is an object of the heap. *)
Definition queue_at (p : Z) : M (vgpu St) virtqueue :=
  s ← get; match queues s !! p with Some q => mret q | None => fail Fault end.
Definition put_queue (p : Z) (q : virtqueue) : M (vgpu St) unit := modify (fun s => set_queues (<[p := q]> (queues s)) s).

Definition desc_field (table i field : Z) : Z := u64 (table + sizeof_desc * i + field).

(** [last_seen_used] is not set. *)
Definition create_virtio_gpu_queue (count : Z) : M (vgpu St) Z :=
  vq ← zoom l_g_env (vs_kmalloc sizeof_virtqueue);
  paddr ← zoom l_g_env (vs_alloc_pages 3);
  for_loop (Z.to_nat (PAGE_SIZE_4KB * 3)) 0 (fun i => vmem_set store8 (u64 (u64 (paddr + DIRECT_OFFSET) + i)) 0);;
  if vq =? 0 then fail Fault
  else
    let desc := u64 (paddr + DIRECT_OFFSET) in
    for_loop (Z.to_nat (count - 1)) 0 (fun i => vmem_set store16 (desc_field desc i DESC_NEXT) (u16 (i + 1)));;
    vmem_set store16 (desc_field desc (count - 1) DESC_NEXT) (u16 (-1));;
    last ← gets (fun s => vs_stale (g_env s) vq);
    put_queue vq (Virtqueue paddr (u64 (paddr + PAGE_MASK_4KB)) (u64 (paddr + PAGE_SIZE_4KB * 2)) paddr count count 0 last);;
    mret vq.

Definition configure_and_start_queue : M (vgpu St) unit :=
  cfg_set CFG_QUEUE_SELECT 0;;
  hardware_queue_size ← cfg_get CFG_QUEUE_SIZE;
  p ← create_virtio_gpu_queue hardware_queue_size;
  modify (set_vq0 p);;
  cfg_set CFG_QUEUE_SIZE hardware_queue_size;;
  q ← queue_at p;
  cfg_set CFG_QUEUE_DESC (vq_desc q);;
  cfg_set CFG_QUEUE_AVAIL (vq_avail q);;
  cfg_set CFG_QUEUE_USED (vq_used q);;
  cfg_set CFG_QUEUE_ENABLE 1;;
  add_status VIRTIO_STATUS_DRIVER_OK.

(** The device as [kernel_main] starts it; what the negotiation ended with is not
    looked at. *)
Definition start_virtio_gpu `{Ports St} (fuel : nat) : M (vgpu St) unit :=
  find_virtio_gpu;;
  parse_virtio_gpu_capabilities fuel;;
  map_virtio_gpu_capablities;;
  init_virtio_gpu_handshake;;
  init_virtio_gpu_features;;
  configure_and_start_queue.

Definition set_free (head n : Z) (q : virtqueue) : virtqueue :=
  Virtqueue (vq_desc q) (vq_avail q) (vq_used q) (raw_memory_block q) (queue_size q) n head (last_seen_used q).

(** The table is used at its physical address. *)
Definition alloc_desc (vq : Z) : M (vgpu St) Z :=
  q ← queue_at vq;
  if (num_free q =? 0) || (free_head q =? -1) then mret (-1)
  else
    let id := free_head q in
    next ← vmem_get load16 (desc_field (vq_desc q) id DESC_NEXT);
    put_queue vq (set_free (s16 next) (u16 (num_free q - 1)) q);;
    vmem_set store16 (desc_field (vq_desc q) id DESC_FLAGS) 0;;
    vmem_set store16 (desc_field (vq_desc q) id DESC_NEXT) 0;;
    mret id.

Definition free_desc (vq id : Z) : M (vgpu St) unit :=
  q ← queue_at vq;
  vmem_set store16 (desc_field (vq_desc q) id DESC_NEXT) (u16 (free_head q));;
  put_queue vq (set_free (s16 id) (u16 (num_free q + 1)) q).

(** ** Commands *)

Definition fill_desc (table id addr len flags next : Z) : M (vgpu St) unit :=
  vmem_set store64 (desc_field table id DESC_ADDR) addr;;
  vmem_set store32 (desc_field table id DESC_LEN) len;;
  vmem_set store16 (desc_field table id DESC_FLAGS) flags;;
  vmem_set store16 (desc_field table id DESC_NEXT) next.

(** Up to the notification, which sets the pointer instead of writing through it. *)
Definition put_command (vq desc_req desc_resp request req_len response resp_len : Z) : M (vgpu St) unit :=
  q ← queue_at vq;
  pa ← zoom l_g_env (vs_get_paddr request);
  fill_desc (vq_desc q) desc_req pa req_len VIRTQ_DESC_F_NEXT (u16 desc_resp);;
  pr ← zoom l_g_env (vs_get_paddr response);
  fill_desc (vq_desc q) desc_resp pr resp_len VIRTQ_DESC_F_WRITE 0;;
  idx ← vmem_get load16 (u64 (vq_avail q + AVAIL_IDX));
  vmem_set store16 (u64 (vq_avail q + AVAIL_IDX)) (u16 (idx + 1));;
  upd_regions (fun r => set_pointers (common_cfg r) 0 (device_cfg r) r).

(** While the loop waits the device works. *)
Definition device_turn : M (vgpu St) unit :=
  modify (fun s => let '(e, m) := vs_device (g_env s) (g_mem s) in set_g_mem m (set_g_env e s)).
Fixpoint wait_used (fuel : nat) (vq : Z) : M (vgpu St) unit :=
  q ← queue_at vq;
  idx ← vmem_get load16 (u64 (vq_used q + USED_IDX));
  if idx =? last_seen_used q then
    match fuel with O => fail Hang | S fuel' => device_turn;; wait_used fuel' vq end
  else mret tt.

Definition take_used (vq response : Z) : M (vgpu St) Z :=
  q ← queue_at vq;
  if queue_size q =? 0 then fail Fault
  else
    let used_slot := last_seen_used q mod queue_size q in
    id ← vmem_get load32 (u64 (vq_used q + USED_RING + sizeof_used_elem * used_slot));
    let desc_head := u16 id in
    idx ← vmem_get load16 (u64 (vq_used q + USED_IDX));
    put_queue vq (Virtqueue (vq_desc q) (vq_avail q) (vq_used q) (raw_memory_block q) (queue_size q) (num_free q) (free_head q) idx);;
    desc_next ← vmem_get load16 (desc_field (vq_desc q) desc_head DESC_NEXT);
    free_desc vq desc_head;;
    free_desc vq desc_next;;
    vmem_get load32 response.

Definition virtio_gpu_send_command (fuel : nat) (vq request req_len response resp_len : Z) : M (vgpu St) Z :=
  desc_req ← alloc_desc vq;
  desc_resp ← alloc_desc vq;
  if (desc_req =? -1) || (desc_resp =? -1) then
    when (negb (desc_req =? -1)) (free_desc vq (u16 desc_req));;
    mret 0
  else
    put_command vq desc_req desc_resp request req_len response resp_len;;
    wait_used fuel vq;;
    take_used vq response.
End driver.

(** * Specification *)

(** ** What is on the bus *)

Section bus.
Context (regs : Z -> Z -> Z -> Z -> Z).

Definition id_of (bus dev func : Z) : Z := regs bus dev func 0.

(** The functions of a device at which one has to look: none if there is no
    device, the first, or all eight if the header says so. *)
Definition funcs_of (bus dev : Z) : list Z :=
  if vendor_of (id_of bus dev 0) =? 0xFFFF then []
  else if Z.testbit (regs bus dev 0 3) 23 then seqZ 0 8 else [0].
Definition functions : list (Z * Z * Z) :=
  seqZ 0 256 ≫= fun b => seqZ 0 32 ≫= fun d => (fun f => (b, d, f)) <$> funcs_of b d.
Definition gpu_at (x : Z * Z * Z) : Prop := is_gpu (id_of x.1.1 x.1.2 x.2) = true.
#[export] Instance gpu_at_dec x : Decision (gpu_at x).
Proof. unfold gpu_at. apply _. Defined.
Definition first_gpu : option (Z * Z * Z) := head (filter gpu_at functions).
End bus.

(** What the capability at [p] of a function with registers [c] describes. *)
Definition cap_type (c : Z -> Z) (p : Z) : Z := c (p / 4) / 2 ^ 24 mod 2 ^ 8.
Definition cap_bar (c : Z -> Z) (p : Z) : Z := c (p / 4 + 1) mod 2 ^ 8.
Definition bar_base (c : Z -> Z) (n : Z) : Z :=
  c (4 + n) / 2 ^ 4 * 2 ^ 4 + (if Z.testbit (c (4 + n)) 2 then 2 ^ 32 * c (4 + n + 1) else 0).
Definition cap_effect (c : Z -> Z) (r : regions) (p : Z) : regions :=
  if negb (cap_id_at c p =? 9) then r
  else
    let bar := cap_bar c p in let off := c (p / 4 + 2) in let addr := bar_base c bar in
    if cap_type c p =? COMMON_CFG_TYPE then set_common bar off addr r
    else if cap_type c p =? NOTIFY_CFG_TYPE then set_notify bar off addr (c (p / 4 + 3)) r
    else if cap_type c p =? DEVICE_CFG_TYPE then set_device bar off addr r else r.
(** The capabilities of the vendor lie in the first 256 bytes and name one of the
    six base registers. *)
Definition cap_ok (c : Z -> Z) (p : Z) : Prop := p <= 240 /\ (cap_id_at c p = 9 -> cap_bar c p < 6).

(** ** The free descriptors *)

(** The descriptors [l], from [head] on, are linked in the table at [desc]. *)
Fixpoint free_chain (m : memory) (desc head : Z) (l : list Z) : Prop :=
  match l with
  | [] => head = -1
  | i :: l' => head = i /\ free_chain m desc (s16 (load16 m (desc + sizeof_desc * i + DESC_NEXT))) l'
  end.

(** The descriptors [l] of the queue at [vq] are free: a stack. The table, of [n]
    descriptors at [desc], is reached at [desc] by the tables in use: the driver
    takes physical addresses for its own, which is right only as long as memory is
    mapped there too ([new_queue_faults]). *)
Record queue_ok {St} `{VirtioServices St} (vq desc n : Z) (l : list Z) (s : vgpu St) : Prop := {
  qo_queue : exists q, queues s !! vq = Some q /\ vq_desc q = desc /\ num_free q = Z.of_nat (length l) /\
    free_chain (g_mem s) desc (free_head q) l;
  qo_range : 0 <= n <= 2 ^ 15 /\ 0 <= desc /\ desc + sizeof_desc * n < 2 ^ 64;
  qo_ids : Forall (fun i => 0 <= i < n) l /\ NoDup l;
  qo_mapped : forall a, desc <= a < desc + sizeof_desc * n -> vs_translate (g_env s) a = Some a;
}.

(** No memory changes but the descriptors [P] of the table. *)
Definition only_descs (desc : Z) (P : Z -> Prop) (m m' : memory) : Prop :=
  forall a, (forall i, P i -> ~ desc + sizeof_desc * i <= a < desc + sizeof_desc * (i + 1)) -> m' @@ a = m @@ a.

(** ** A device *)

(** What the device is: its functions on the bus, where its registers are, the
    features it offers and whether it accepts a choice; its registers and the
    features chosen; and around it the page tables, by page, and where the heap
    and the page allocator have room. *)
Record vdev : Type := VDev {
  vd_bus : pci_bus; vd_common : Z; vd_offers : Z; vd_agrees : bool;
  vd_cfg : gmap Z Z; vd_driver : gmap Z Z; vd_maps : gmap Z Z; vd_heap : Z; vd_pages : Z;
}.
Definition set_vd_bus (x : pci_bus) (d : vdev) : vdev :=
  VDev x (vd_common d) (vd_offers d) (vd_agrees d) (vd_cfg d) (vd_driver d) (vd_maps d) (vd_heap d) (vd_pages d).
Definition set_vd_regs (c dr : gmap Z Z) (d : vdev) : vdev :=
  VDev (vd_bus d) (vd_common d) (vd_offers d) (vd_agrees d) c dr (vd_maps d) (vd_heap d) (vd_pages d).
Definition set_vd_maps (x : gmap Z Z) (d : vdev) : vdev :=
  VDev (vd_bus d) (vd_common d) (vd_offers d) (vd_agrees d) (vd_cfg d) (vd_driver d) x (vd_heap d) (vd_pages d).

(** The registers, by offset. The device answers a choice of features that it
    does not accept by clearing [FEATURES_OK]. *)
Definition dev_get (d : vdev) (off : Z) : Z :=
  if off =? CFG_DEVICE_FEATURE then vd_offers d / 2 ^ (32 * vd_cfg d @@ CFG_DEVICE_FEATURE_SELECT) mod 2 ^ 32 else vd_cfg d @@ off.
Definition dev_set (d : vdev) (off v : Z) : vdev :=
  if off =? CFG_DRIVER_FEATURE then set_vd_regs (vd_cfg d) (<[vd_cfg d @@ CFG_DRIVER_FEATURE_SELECT := v]> (vd_driver d)) d
  else if off =? CFG_DEVICE_STATUS then
    if v =? 0 then set_vd_regs (<[CFG_DEVICE_STATUS := 0]> (vd_cfg d)) ∅ d
    else set_vd_regs (<[CFG_DEVICE_STATUS := if Z.testbit v 3 && negb (vd_agrees d) then v - 2 ^ 3 else v]> (vd_cfg d)) (vd_driver d) d
  else set_vd_regs (<[off := v]> (vd_cfg d)) (vd_driver d) d.
Definition vd_status (d : vdev) : Z := vd_cfg d @@ CFG_DEVICE_STATUS.

(** The register at an address, through the tables. *)
Definition reg_offset (d : vdev) (va : Z) : option Z :=
  (fun p => p + va mod PAGE_SIZE_4KB - vd_common d) <$> vd_maps d !! (va / PAGE_SIZE_4KB * PAGE_SIZE_4KB).

#[export] Instance vdev_services : VirtioServices vdev := {
  vs_kmalloc n := gets vd_heap;
  vs_alloc_pages n := gets vd_pages;
  vs_map_page pa va flags := modify (fun d => set_vd_maps (<[va := pa]> (vd_maps d)) d);
  vs_get_paddr va := mret va;
  vs_wait_ms ms := mret tt;
  vs_reg_get va d := match reg_offset d va with Some off => Ok (dev_get d off, d) | None => Err Fault end;
  vs_reg_set va v d := match reg_offset d va with Some off => Ok (tt, dev_set d off v) | None => Err Fault end;
  vs_translate d va := if DIRECT_OFFSET <=? va then Some (va - DIRECT_OFFSET) else None;
  vs_device d m := (d, m);
  vs_stale d p := 0;
}.

#[export] Instance vdev_ports : Ports vdev := {
  outb p x := mret tt;
  inb p := mret 0;
  outl p x := zoom (Lens vd_bus set_vd_bus) (outl p x);
  inl p := zoom (Lens vd_bus set_vd_bus) (inl p);
  read_tsc := mret 0;
}.

(** The status that the negotiation leaves. *)
Definition negotiated (d : vdev) : Z :=
  if negb (Z.testbit (vd_offers d) 32) then Z.lor (Z.lor VIRTIO_STATUS_ACKNOWLEDGE VIRTIO_STATUS_DRIVER) VIRTIO_STATUS_FAILED
  else if vd_agrees d then VIRTIO_STATUS_FEATURES_OK else VIRTIO_STATUS_FAILED.

(** The registers that place a queue of [size] descriptors in the block at [paddr]. *)
Definition queue_registers (size paddr : Z) : list (Z * Z) :=
  [(CFG_QUEUE_SELECT, 0); (CFG_QUEUE_SIZE, size); (CFG_QUEUE_DESC, paddr); (CFG_QUEUE_AVAIL, u64 (paddr - PAGE_SIZE_4KB));
   (CFG_QUEUE_USED, paddr + 2 * PAGE_SIZE_4KB); (CFG_QUEUE_ENABLE, 1)].

(** The driver reaches the registers. *)
Definition attached (s : vgpu vdev) : Prop :=
  common_cfg (g_regions s) = COMMON_CFG_VIRT /\ vd_maps (g_env s) !! COMMON_CFG_VIRT = Some (vd_common (g_env s)).

(** * Lemmas *)

(** ** The search *)

Lemma filter_fmap {A B} (P : B -> Prop) `{forall x, Decision (P x)} (f : A -> B) (l : list A) : filter P (f <$> l) = f <$> filter (fun x => P (f x)) l.
Proof. induction l as [|x l IH]; [done |]. rewrite fmap_cons, !filter_cons, IH. by destruct (decide (P (f x))). Qed.

Section scan_lemmas.
Context {St : Type} `{PciSpace St} (p0 : St).
Let regs : Z -> Z -> Z -> Z -> Z := space_regs p0.
Implicit Types p : St.

Lemma wp_scan_funcs n bus dev func reg_id p : 0 <= bus < 256 -> 0 <= dev < 32 -> 0 <= func -> func + Z.of_nat n <= 8 ->
  (func = 0 -> reg_id = id_of regs bus dev 0) -> space_same p0 p ->
  wp (scan_funcs n bus dev func reg_id) (fun r p' => space_same p0 p' /\
    r = head (filter (fun f => gpu_at regs (bus, dev, f)) (seqZ func (Z.of_nat n)))) p.
Proof.
  intros Hb Hd. revert func reg_id p. induction n as [|n IH]; intros func reg_id p Hf Hn Hr Hs; cbn [scan_funcs]; [by apply wp_ret |].
  rewrite (seqZ_cons func) by lia. replace (Z.pred (Z.of_nat (S n))) with (Z.of_nat n) by lia. rewrite filter_cons.
  replace (Z.succ func) with (func + 1) by lia.
  assert (forall r p', space_same p0 p' -> r = id_of regs bus dev func ->
    wp (if (0 <? func) && (vendor_of r =? 0xFFFF) then scan_funcs n bus dev (func + 1) r
        else if is_gpu r then mret (Some func) else scan_funcs n bus dev (func + 1) r)
      (fun r p' => space_same p0 p' /\ r = head (if decide (gpu_at regs (bus, dev, func))
        then func :: filter (fun f => gpu_at regs (bus, dev, f)) (seqZ (func + 1) (Z.of_nat n))
        else filter (fun f => gpu_at regs (bus, dev, f)) (seqZ (func + 1) (Z.of_nat n)))) p') as Hbody.
  { intros r p' Hs' ->. destruct (decide (gpu_at regs (bus, dev, func))) as [Hg|Hg]; unfold gpu_at in Hg; cbn in Hg.
    - assert ((vendor_of (id_of regs bus dev func) =? 0xFFFF) = false) as ->.
      { apply andb_true_iff in Hg as [->%Z.eqb_eq _]. done. }
      rewrite Hg, andb_false_r. by apply wp_ret.
    - apply not_true_is_false in Hg. rewrite Hg. destruct (_ && _); apply IH; try lia; done. }
  apply wp_bind. destruct (Z.ltb_spec 0 func) as [Hlt|Hge]; [| apply wp_ret, Hbody; [done |]; replace func with 0 in * by lia; by apply Hr].
  apply (wp_space_read p0); [done | by repeat split; try lia |]. intros p' Hs'. by apply Hbody.
Qed.

Lemma wp_scan_devs n bus dev p : 0 <= bus < 256 -> 0 <= dev -> dev + Z.of_nat n <= 32 -> space_same p0 p ->
  wp (scan_devs n bus dev) (fun r p' => space_same p0 p' /\ (fun '(d, f) => (bus, d, f)) <$> r =
    head (filter (gpu_at regs) (seqZ dev (Z.of_nat n) ≫= fun d => (fun f => (bus, d, f)) <$> funcs_of regs bus d))) p.
Proof.
  intros Hb. revert dev p. induction n as [|n IH]; intros dev p Hd Hn Hs; cbn [scan_devs]; [by apply wp_ret |].
  rewrite (seqZ_cons dev) by lia. replace (Z.pred (Z.of_nat (S n))) with (Z.of_nat n) by lia. replace (Z.succ dev) with (dev + 1) by lia.
  cbn [mbind list_bind]. rewrite filter_app. unfold funcs_of at 1.
  apply wp_bind, (wp_space_read p0); [done | by repeat split; try lia |]. intros p1 H1. change (u8 0 / 4) with 0. fold regs. fold (id_of regs bus dev 0).
  destruct (vendor_of (id_of regs bus dev 0) =? 0xFFFF); [apply IH; [lia | lia | done] |].
  apply wp_bind, (wp_space_read p0); [done | by repeat split; try lia |]. intros p2 H2. change (u8 0x0C / 4) with 3. fold regs.
  rewrite (land_mask _ 8 0xFF) by done. change 0x80 with (2 ^ 7). rewrite land_pow2_testbit, Z.mod_pow2_bits_low, Z.shiftr_spec by lia. change (7 + 16) with 23.
  set (fs := if Z.testbit (regs bus dev 0 3) 23 then seqZ 0 8 else [0]).
  set (nf := if Z.testbit (regs bus dev 0 3) 23 then 8%nat else 1%nat).
  assert (seqZ 0 (Z.of_nat nf) = fs /\ (nf <= 8)%nat) as [Efs Hnf] by (unfold nf, fs; destruct (Z.testbit _ 23); split; done || lia).
  apply wp_bind. eapply wp_mono; [apply (wp_scan_funcs nf bus dev 0); [done | lia | lia | lia | done | done] |].
  intros r p3 [H3 ->]. rewrite Efs, filter_fmap.
  destruct (filter _ fs) as [|f l].
  - cbn. apply IH; [lia | lia | done].
  - cbn. by apply wp_ret.
Qed.

Lemma wp_scan_buses n bus p : 0 <= bus -> bus + Z.of_nat n <= 256 -> space_same p0 p ->
  wp (scan_buses n bus) (fun r p' => space_same p0 p' /\ r =
    head (filter (gpu_at regs) (seqZ bus (Z.of_nat n) ≫= fun b => seqZ 0 32 ≫= fun d => (fun f => (b, d, f)) <$> funcs_of regs b d))) p.
Proof.
  revert bus p. induction n as [|n IH]; intros bus p Hb Hn Hs; [by apply wp_ret |]. unfold scan_buses; fold scan_buses.
  rewrite (seqZ_cons bus) by lia. replace (Z.pred (Z.of_nat (S n))) with (Z.of_nat n) by lia. replace (Z.succ bus) with (bus + 1) by lia.
  rewrite bind_cons, filter_app. apply wp_bind. eapply wp_mono; [apply (wp_scan_devs 32 bus 0); [lia | lia | lia | done] |].
  intros r p1 [H1 Hr]. change (Z.of_nat 32) with 32 in Hr.
  destruct (filter (gpu_at regs) (seqZ 0 32 ≫= _)) as [|x l]; cbn in Hr; destruct r as [[d f]|]; try done.
  cbn [app]. apply IH; [lia | lia | done].
Qed.
End scan_lemmas.

(** ** The capabilities *)

Section parse.
Context {St : Type} `{PciSpace St} (b d f : Z) (p0 : St).
Let c : Z -> Z := space_regs p0 b d f.
Hypothesis Hok : bdf_ok b d f.
Hypothesis Hreg : forall r, 0 <= c r < 2 ^ 32.
Implicit Types s : vgpu St.

(** The driver has the function, and its registers are those of [p0]. *)
Definition parsing (r : regions) (s0 s : vgpu St) : Prop :=
  exists p, space_same p0 p /\ s = set_regions r (set_g_env p s0).

Lemma wp_read_gpu offset r s0 s (Q : Z -> vgpu St -> Prop) : (g_bus s0, g_dev s0, g_func s0) = (b, d, f) -> parsing r s0 s ->
  (forall s', parsing r s0 s' -> Q (c (u8 offset / 4)) s') -> wp (read_gpu offset) Q s.
Proof.
  intros [= Eb Ed Ef] (p & Hp & ->) HQ. apply wp_bind, wp_get, wp_zoom. cbn. rewrite Eb, Ed, Ef.
  apply (wp_space_read p0); [done | done |]. intros p' Hp'. apply HQ. by exists p'.
Qed.

Lemma wp_parse_capability p r s0 s : (g_bus s0, g_dev s0, g_func s0) = (b, d, f) -> 0 < p -> cap_ok c p -> cap_id_at c p = 9 -> parsing r s0 s ->
  wp (parse_capability p (c (p / 4))) (fun _ => parsing (cap_effect c r p) s0) s.
Proof.
  intros Ef Hp [Hp' Hbar] H9 Hs. specialize (Hbar H9). pose proof (Hreg (p / 4 + 1)) as Hr1.
  assert (0 <= cap_bar c p) as Hb0 by (unfold cap_bar; apply Z.mod_pos_bound; lia).
  assert (u8 (p + 4) / 4 = p / 4 + 1 /\ u8 (p + 8) / 4 = p / 4 + 2 /\ u8 (p + 12) / 4 = p / 4 + 3) as (E4 & E8 & E12)
    by (rewrite !u8_small by lia; clear; dlia).
  unfold parse_capability. cbv zeta. apply wp_bind, (wp_read_gpu _ r s0); [done | done |]. intros s1 H1. rewrite E4.
  rewrite (land_mask (c (p / 4 + 1)) 8 0xFF) by done. fold (cap_bar c p).
  apply wp_bind, (wp_read_gpu _ r s0); [done | done |]. intros s2 H2. rewrite E8.
  apply wp_bind, (wp_read_gpu _ r s0); [done | done |]. intros s3 H3.
  assert (u8 (0x10 + cap_bar c p * 4) / 4 = 4 + cap_bar c p /\ u8 (0x10 + cap_bar c p * 4 + 4) / 4 = 4 + cap_bar c p + 1) as [Eb Eb']
    by (rewrite !u8_small by lia; clear; dlia).
  rewrite Eb. set (base := c (4 + cap_bar c p)). pose proof (Hreg (4 + cap_bar c p)) as Hbase. fold base in Hbase.
  assert (Z.land base 0xFFFFFFF0 = base / 2 ^ 4 * 2 ^ 4) as ->.
  { transitivity (Z.land (base mod 2 ^ 32) (2 ^ 64 - 2 ^ 4)).
    - rewrite <- Z.land_ones, <- Z.land_assoc by lia. by assert (Z.land (Z.ones 32) (2 ^ 64 - 2 ^ 4) = 0xFFFFFFF0) as -> by reflexivity.
    - rewrite Z.mod_small by lia. apply land_high_mask; lia. }
  change (Z.shiftl 1 2) with (2 ^ 2). rewrite land_pow2_testbit by lia.
  apply wp_bind. eapply (wp_mono _ (fun a s' => a = bar_base c (cap_bar c p) /\ parsing r s0 s')).
  { unfold bar_base. fold base. destruct (Z.testbit base 2); [| apply wp_ret; split; [lia | done]].
    apply wp_bind, (wp_read_gpu _ r s0); [done | done |]. intros s4 H4. rewrite Eb'. apply wp_ret. split; [| done].
    rewrite Z.shiftl_mul_pow2, (Z.mul_comm _ (2 ^ 32)) by lia. rewrite lor_shifted by (clear -Hbase; lia || (split; dlia)). lia. }
  intros a s4 [-> H4]. rewrite (land_mask _ 8 0xFF), Z.shiftr_div_pow2, u8_small by (done || lia || apply Z.mod_pos_bound; lia). fold (cap_type c p).
  unfold cap_effect. rewrite H9. cbn [Z.eqb Pos.eqb negb].
  assert (forall g s', parsing r s0 s' -> wp (upd_regions g) (fun _ => parsing (g r) s0) s') as Hupd.
  { intros g s' (q & Hq & ->). apply wp_modify. by exists q. }
  destruct (cap_type c p =? COMMON_CFG_TYPE); [by apply Hupd |]. destruct (cap_type c p =? NOTIFY_CFG_TYPE).
  - apply wp_bind, (wp_read_gpu _ r s0); [done | done |]. intros s5 H5. rewrite E12. by apply Hupd.
  - destruct (cap_type c p =? DEVICE_CFG_TYPE); [by apply Hupd | by apply wp_ret].
Qed.

Lemma wp_capability_loop fuel ptr l r s0 s : (g_bus s0, g_dev s0, g_func s0) = (b, d, f) -> caps_at c ptr l -> Forall (cap_ok c) l ->
  (length l <= fuel)%nat -> parsing r s0 s ->
  wp (capability_loop fuel ptr) (fun _ => parsing (foldl (cap_effect c) r l) s0) s.
Proof.
  intros Ef. revert fuel ptr r s. induction l as [|p l IH]; intros fuel ptr r s Hl Hcaps Hf Hs.
  - cbn in Hl. subst ptr. destruct fuel; by apply wp_ret.
  - destruct Hl as (-> & Hp & Hl). apply Forall_cons in Hcaps as [Hcp Hcaps]. destruct fuel as [|fuel]; [cbn in Hf; lia |]. cbn [capability_loop].
    rewrite (proj2 (Z.eqb_neq p 0)) by lia. apply wp_bind, (wp_read_gpu _ r s0); [done | done |]. intros s1 H1. rewrite (u8_small p) by lia.
    destruct (cap_fields (c (p / 4)) (Hreg _)) as [-> ->]. fold (cap_id_at c p).
    apply wp_bind. eapply (wp_mono _ (fun _ => parsing (cap_effect c r p) s0)).
    + apply wp_when; [intros H9%Z.eqb_eq; apply wp_parse_capability; done || lia |]. intros H9. unfold cap_effect. by rewrite H9.
    + intros [] s2 H2. apply IH; [done | done | cbn in Hf; lia | done].
Qed.
End parse.

(** ** Memory *)

Lemma s16_u16 x : -1 <= x < 2 ^ 15 -> s16 (u16 x) = x.
Proof. unfold s16, u16. intros Hx. clear -Hx. dlia. Qed.

Lemma load16_store16 m a v : 0 <= v < 2 ^ 16 -> load16 (store16 m a v) a = v.
Proof.
  intros Hv. unfold load16. rewrite !rd_store16, decide_False by lia. rewrite !decide_True by done. clear -Hv. dlia.
Qed.

Lemma load16_ext m m' a : m' @@ a = m @@ a -> m' @@ (a + 1) = m @@ (a + 1) -> load16 m' a = load16 m a.
Proof. unfold load16. by intros -> ->. Qed.

Section queue.
Context {St : Type} `{VirtioServices St}.
Implicit Types s : vgpu St.

Lemma wp_vmem_get word va p (Q : Z -> vgpu St -> Prop) s : vs_translate (g_env s) va = Some p -> Q (word (g_mem s) p) s -> wp (vmem_get word va) Q s.
Proof. intros Hp HQ. apply wp_bind, wp_get. rewrite Hp. by apply wp_ret. Qed.

Lemma wp_vmem_set store va x p (Q : unit -> vgpu St -> Prop) s : vs_translate (g_env s) va = Some p ->
  Q tt (set_g_mem (store (g_mem s) p x) s) -> wp (vmem_set store va x) Q s.
Proof. intros Hp HQ. apply wp_bind, wp_get. rewrite Hp. by apply wp_modify. Qed.

Lemma wp_queue_at p q (Q : virtqueue -> vgpu St -> Prop) s : queues s !! p = Some q -> Q q s -> wp (queue_at p) Q s.
Proof. intros Hq HQ. apply wp_bind, wp_get. rewrite Hq. by apply wp_ret. Qed.

Lemma free_chain_ext m m' desc head l :
  (forall i, i ∈ l -> load16 m' (desc + sizeof_desc * i + DESC_NEXT) = load16 m (desc + sizeof_desc * i + DESC_NEXT)) ->
  free_chain m desc head l -> free_chain m' desc head l.
Proof.
  revert head. induction l as [|i l IH]; intros head Hext Hl; [done |]. destruct Hl as [-> Hl]. split; [done |].
  rewrite Hext by apply list_elem_of_here. apply IH; [| done]. intros j Hj. by apply Hext, list_elem_of_further.
Qed.

Lemma free_chain_head m desc head l n : Forall (fun i => 0 <= i < n) l -> free_chain m desc head l -> -1 <= head < Z.max 0 n.
Proof. destruct l as [|i l]; cbn; [intros _ ->; lia |]. intros [Hi _]%Forall_cons [-> _]. lia. Qed.

(** Different numbers below [n]: at most [n] of them. *)
Lemma ids_length n l : 0 <= n -> Forall (fun i => 0 <= i < n) l -> NoDup l -> Z.of_nat (length l) <= n.
Proof.
  intros Hn Hl Hnd. assert (l ⊆+ seqZ 0 n) as Hsub.
  { apply NoDup_submseteq; [done |]. intros i Hi. apply elem_of_seqZ. rewrite Forall_forall in Hl. specialize (Hl i Hi). lia. }
  apply submseteq_length in Hsub. rewrite length_seqZ in Hsub. lia.
Qed.

Lemma wp_alloc_desc vq desc n l s : queue_ok vq desc n l s ->
  wp (alloc_desc vq) (fun r s' =>
    match l with
    | [] => r = -1 /\ s' = s
    | i :: l' => r = i /\ queue_ok vq desc n l' s' /\ only_descs desc (fun k => k = i) (g_mem s) (g_mem s') /\
        load16 (g_mem s') (desc + sizeof_desc * i + DESC_NEXT) = 0 /\ load16 (g_mem s') (desc + sizeof_desc * i + DESC_FLAGS) = 0 /\
        exists q h k, queues s !! vq = Some q /\ s' = set_g_mem (g_mem s') (set_queues (<[vq := set_free h k q]> (queues s)) s)
    end) s.
Proof.
  intros [(q & Hq & Hdesc & Hnum & Hch) (Hn & Hd & Hend) [Hids Hnd] Hmap]. unfold alloc_desc. apply wp_bind, (wp_queue_at _ q); [done |].
  rewrite Hnum. destruct l as [|i l]; [by apply wp_ret |]. destruct Hch as [Hhead Hch]. rewrite Hhead.
  pose proof (ids_length n (i :: l) ltac:(lia) Hids Hnd) as Hlen. cbn [length] in *.
  pose proof Hids as [Hi Hids']%Forall_cons. apply NoDup_cons in Hnd as [Hni Hnd].
  rewrite (proj2 (Z.eqb_neq _ 0)), (proj2 (Z.eqb_neq i (-1))) by lia. cbn [orb]. cbv zeta. rewrite Hdesc.
  assert (forall fl, 0 <= fl < 15 -> desc_field desc i fl = desc + sizeof_desc * i + fl) as Hf.
  { intros fl Hfl. apply u64_small. unfold sizeof_desc in *. lia. }
  rewrite !Hf by done. unfold DESC_FLAGS, DESC_NEXT in *.
  assert (forall fl, 0 <= fl < 15 -> vs_translate (g_env s) (desc + sizeof_desc * i + fl) = Some (desc + sizeof_desc * i + fl)) as Ht.
  { intros fl Hfl. apply Hmap. unfold sizeof_desc in *. lia. }
  apply wp_bind, (wp_vmem_get _ _ _ _ _ (Ht 14 ltac:(lia))). set (nx := load16 (g_mem s) _) in *.
  apply wp_bind, wp_modify. apply wp_bind. eapply wp_vmem_set; [by apply Ht |].
  apply wp_bind. eapply wp_vmem_set; [by apply Ht |]. apply wp_ret. cbn [set_queues set_g_mem g_mem g_env queues].
  set (m1 := store16 (store16 (g_mem s) _ _) _ _).
  assert (forall x, m1 @@ x = if decide (desc + 16 * i + 12 <= x < desc + 16 * i + 16) then 0 else g_mem s @@ x) as Hm1.
  { intros x. unfold m1. rewrite !rd_store16. unfold sizeof_desc. change (0 / 2 ^ 8 mod 256) with 0. change (0 mod 256) with 0. repeat case_decide; lia || done. }
  assert (only_descs desc (fun k => k = i) (g_mem s) m1) as Honly.
  { intros a Ha. rewrite Hm1. case_decide; [| done]. exfalso. apply (Ha i); [done |]. unfold sizeof_desc. lia. }
  split; [done |]. split; [| split; [done |]].
  - split; cbn [queues g_env g_mem].
    + exists (set_free (s16 nx) (u16 (Z.of_nat (S (length l)) - 1)) q). split; [by apply lookup_insert_eq |].
      cbn [set_free vq_desc num_free free_head].
      split; [done |]. split; [rewrite u16_small; lia |]. apply (free_chain_ext (g_mem s)); [| exact Hch]. intros j Hj. match goal with |- context [load16 ?m _ = load16 (g_mem s) _] => change m with m1 end.
      rewrite Forall_forall in Hids'. specialize (Hids' j Hj). assert (j <> i) by congruence.
      apply load16_ext; rewrite Hm1, decide_False by (unfold sizeof_desc, DESC_NEXT; lia); done.
    + done.
    + done.
    + exact Hmap.
  - split; [unfold load16; by rewrite !Hm1, !decide_True by (unfold sizeof_desc; lia) |].
    split; [unfold load16; by rewrite !Hm1, !decide_True by (unfold sizeof_desc; lia) |].
    exists q, (s16 nx), (u16 (Z.of_nat (S (length l)) - 1)). done.
Qed.

Lemma wp_free_desc vq desc n l i s : queue_ok vq desc n l s -> 0 <= i < n -> i ∉ l ->
  wp (free_desc vq i) (fun _ s' => queue_ok vq desc n (i :: l) s' /\ only_descs desc (fun k => k = i) (g_mem s) (g_mem s') /\ g_env s' = g_env s) s.
Proof.
  intros [(q & Hq & Hdesc & Hnum & Hch) (Hn & Hd & Hend) [Hids Hnd] Hmap] Hi Hni. unfold free_desc. apply wp_bind, (wp_queue_at _ q); [done |].
  rewrite Hdesc. assert (desc_field desc i DESC_NEXT = desc + sizeof_desc * i + 14) as ->.
  { apply u64_small. unfold sizeof_desc, DESC_NEXT in *. lia. }
  assert (vs_translate (g_env s) (desc + sizeof_desc * i + 14) = Some (desc + sizeof_desc * i + 14)) as Ht.
  { apply Hmap. unfold sizeof_desc in *. lia. }
  pose proof (ids_length n (i :: l) ltac:(lia) ltac:(by constructor) ltac:(by constructor)) as Hlen. cbn [length] in Hlen.
  pose proof (free_chain_head _ _ _ _ _ Hids Hch) as Hh.
  apply wp_bind. eapply wp_vmem_set; [exact Ht |]. apply wp_modify. cbn [set_queues set_g_mem g_mem g_env queues].
  set (m1 := store16 _ _ _).
  assert (forall x, ~ desc + 16 * i + 14 <= x < desc + 16 * i + 16 -> m1 @@ x = g_mem s @@ x) as Hm1.
  { intros x Hx. unfold m1. rewrite rd_store16. unfold sizeof_desc. repeat case_decide; lia || done. }
  split; [split; cbn [queues g_env g_mem] | split; [| done]].
  - exists (set_free (s16 i) (u16 (num_free q + 1)) q). split; [by apply lookup_insert_eq |].
    cbn [set_free vq_desc num_free free_head].
    split; [done |]. split; [rewrite Hnum, u16_small by lia; cbn [length]; lia |].
    split; [transitivity (s16 (u16 i)); [by rewrite u16_small by lia | apply s16_u16; lia] |].
    match goal with |- context [free_chain ?m _ _ _] => change m with m1 end. assert (s16 (load16 m1 (desc + sizeof_desc * i + DESC_NEXT)) = free_head q) as ->.
    { unfold m1, DESC_NEXT. rewrite load16_store16 by apply u16_range. apply s16_u16. lia. }
    apply (free_chain_ext (g_mem s)); [| exact Hch]. intros j Hj. assert (j <> i) by congruence.
    rewrite Forall_forall in Hids. specialize (Hids j Hj).
    apply load16_ext; apply Hm1; unfold sizeof_desc, DESC_NEXT; lia.
  - done.
  - split; by constructor.
  - exact Hmap.
  - intros a Ha. apply Hm1. intros Hr. apply (Ha i); [done |]. unfold sizeof_desc. lia.
Qed.
End queue.

(** ** A new queue *)

Section create.
Context {St : Type} `{VirtioServices St}.
Implicit Types s : vgpu St.

(** A block of three pages for a queue of [count] descriptors: the table, all free,
    and nothing else. *)
Record fresh_block (paddr count : Z) (m m' : memory) : Prop := {
  fb_chain : free_chain m' paddr 0 (seqZ 0 count);
  fb_fields : forall i j, 0 <= i < count -> 0 <= j < DESC_NEXT -> m' @@ (paddr + sizeof_desc * i + j) = 0;
  fb_rest : forall a, paddr + sizeof_desc * count <= a < paddr + 3 * PAGE_SIZE_4KB -> m' @@ a = 0;
  fb_outside : forall a, ~ paddr <= a < paddr + 3 * PAGE_SIZE_4KB -> m' @@ a = m @@ a;
}.

Lemma free_chain_seq m desc k n :
  (forall i, k <= i < k + Z.of_nat n -> s16 (load16 m (desc + sizeof_desc * i + DESC_NEXT)) = if i =? k + Z.of_nat n - 1 then -1 else i + 1) ->
  free_chain m desc (if (n =? 0)%nat then -1 else k) (seqZ k (Z.of_nat n)).
Proof.
  revert k. induction n as [|n IH]; intros k Hl; [done |]. rewrite seqZ_cons by lia. replace (Z.pred (Z.of_nat (S n))) with (Z.of_nat n) by lia.
  split; [done |]. rewrite Hl by lia. replace (if k =? k + Z.of_nat (S n) - 1 then -1 else k + 1) with (if (n =? 0)%nat then -1 else Z.succ k).
  - apply IH. intros i Hi. rewrite Hl by lia. by replace (Z.succ k + Z.of_nat n - 1) with (k + Z.of_nat (S n) - 1) by lia.
  - destruct (Nat.eqb_spec n 0), (Z.eqb_spec k (k + Z.of_nat (S n) - 1)); lia.
Qed.

Lemma wp_clear_block n base paddr s : (forall k, 0 <= k < Z.of_nat n -> vs_translate (g_env s) (u64 (base + k)) = Some (paddr + k)) ->
  wp (for_loop n 0 (fun i => vmem_set store8 (u64 (base + i)) 0))
    (fun _ s' => exists m, s' = set_g_mem m s /\ forall a, m @@ a = if decide (paddr <= a < paddr + Z.of_nat n) then 0 else g_mem s @@ a) s.
Proof.
  intros Ht. refine (wp_for n (fun k s' => exists m, s' = set_g_mem m s /\ forall a, m @@ a = if decide (paddr <= a < paddr + k) then 0 else g_mem s @@ a) _ 0 s _ _).
  - exists (g_mem s). split; [by destruct s |]. intros a. by rewrite decide_False by lia.
  - intros k s' Hk (m & -> & Hm). eapply wp_vmem_set; [by apply Ht |]. eexists. split; [reflexivity |]. intros a.
    rewrite rd_store8. cbn [set_g_mem g_mem]. rewrite Hm. repeat case_decide; lia || done.
Qed.

(** The loop that links the descriptors. *)
Lemma wp_link_block n desc paddr s :
  (forall k, 0 <= k < Z.of_nat n -> vs_translate (g_env s) (desc_field desc k DESC_NEXT) = Some (paddr + sizeof_desc * k + DESC_NEXT)) -> Z.of_nat n < 2 ^ 16 ->
  wp (for_loop n 0 (fun i => vmem_set store16 (desc_field desc i DESC_NEXT) (u16 (i + 1))))
    (fun _ s' => exists m, s' = set_g_mem m s /\
      (forall i, 0 <= i < Z.of_nat n -> load16 m (paddr + sizeof_desc * i + DESC_NEXT) = u16 (i + 1)) /\
      (forall a, (forall i, 0 <= i < Z.of_nat n -> ~ paddr + sizeof_desc * i + DESC_NEXT <= a < paddr + sizeof_desc * (i + 1)) -> m @@ a = g_mem s @@ a)) s.
Proof.
  intros Ht Hn. unfold sizeof_desc, DESC_NEXT in *.
  refine (wp_for n (fun k s' => exists m, s' = set_g_mem m s /\
      (forall i, 0 <= i < k -> load16 m (paddr + 16 * i + 14) = u16 (i + 1)) /\
      (forall a, (forall i, 0 <= i < k -> ~ paddr + 16 * i + 14 <= a < paddr + 16 * (i + 1)) -> m @@ a = g_mem s @@ a)) _ 0 s _ _).
  - exists (g_mem s). split; [by destruct s |]. split; [lia | done].
  - intros k s' Hk (m & -> & Hl & Ho). eapply wp_vmem_set; [by apply Ht |]. eexists. split; [reflexivity |]. cbn [set_g_mem g_mem]. split.
    + intros i Hi. destruct (decide (i = k)) as [->|Hne]; [apply load16_store16, u16_range |].
      rewrite <- (Hl i) by lia. apply load16_ext; rewrite rd_store16, !decide_False by lia; done.
    + intros a Ha. rewrite rd_store16. pose proof (Ha k ltac:(lia)). rewrite !decide_False by lia. apply Ho. intros i Hi. apply Ha. lia.
Qed.

Lemma wp_create_queue count p paddr e1 e2 s : 1 <= count <= 2 ^ 8 -> p <> 0 ->
  vs_kmalloc sizeof_virtqueue (g_env s) = Ok (p, e1) -> vs_alloc_pages 3 e1 = Ok (paddr, e2) ->
  0 <= paddr -> paddr + 3 * PAGE_SIZE_4KB <= 2 ^ 64 - DIRECT_OFFSET ->
  (forall a, paddr <= a < paddr + 3 * PAGE_SIZE_4KB -> vs_translate e2 (a + DIRECT_OFFSET) = Some a) ->
  wp (create_virtio_gpu_queue count) (fun r s' => r = p /\ exists m,
    s' = set_queues (<[p := Virtqueue paddr (u64 (paddr - PAGE_SIZE_4KB)) (paddr + 2 * PAGE_SIZE_4KB) paddr count count 0 (vs_stale e2 p)]> (queues s))
           (set_g_mem m (set_g_env e2 s)) /\
    fresh_block paddr count (g_mem s) m) s.
Proof.
  intros Hc Hp Hk Ha H0 Hend Ht. unfold PAGE_SIZE_4KB, DIRECT_OFFSET in Hend, Ht. unfold create_virtio_gpu_queue.
  apply wp_bind, wp_zoom. eapply wp_of_ok; [exact Hk |]. cbv beta. apply wp_bind, wp_zoom. eapply wp_of_ok; [exact Ha |]. cbv beta.
  set (s2 := over _ _ _). unfold DIRECT_OFFSET.
  assert (u64 (paddr + 0xFFFF800000000000) = paddr + 0xFFFF800000000000) as -> by (apply u64_small; lia).
  apply wp_bind. eapply wp_mono; [apply (wp_clear_block _ _ paddr) |].
  { intros k Hk'. change (Z.of_nat (Z.to_nat (PAGE_SIZE_4KB * 3))) with 12288 in Hk'. rewrite u64_small by lia.
    replace (paddr + 0xFFFF800000000000 + k) with (paddr + k + 0xFFFF800000000000) by lia. apply Ht. lia. }
  intros [] s3 (m3 & -> & H3). change (Z.of_nat (Z.to_nat (PAGE_SIZE_4KB * 3))) with 12288 in H3.
  rewrite (proj2 (Z.eqb_neq p 0)) by done. cbv zeta.
  assert (forall k, 0 <= k < count -> vs_translate e2 (desc_field (paddr + 0xFFFF800000000000) k DESC_NEXT) = Some (paddr + sizeof_desc * k + DESC_NEXT)) as Ht'.
  { intros k Hk'. unfold desc_field, sizeof_desc, DESC_NEXT. rewrite u64_small by lia.
    replace (paddr + 0xFFFF800000000000 + 16 * k + 14) with (paddr + 16 * k + 14 + 0xFFFF800000000000) by lia. apply Ht. lia. }
  apply wp_bind. eapply wp_mono; [apply (wp_link_block _ _ paddr) |]; [intros k Hk'; apply Ht'; lia | lia |].
  intros [] s4 (m4 & -> & Hl4 & Ho4). rewrite Z2Nat.id in Hl4, Ho4 by lia.
  apply wp_bind. eapply wp_vmem_set; [apply Ht'; lia |]. apply wp_bind, wp_gets, wp_bind, wp_modify, wp_ret.
  split; [done |]. change (u16 (-1)) with 0xFFFF. set (m5 := store16 _ _ _). exists m5. split.
  - assert (u64 (paddr + PAGE_MASK_4KB) = u64 (paddr - PAGE_SIZE_4KB)) as ->.
    { unfold u64, PAGE_MASK_4KB, PAGE_SIZE_4KB. replace (paddr + (2 ^ 64 - 0x1000)) with (paddr - 0x1000 + 1 * 2 ^ 64) by lia. by rewrite Z_mod_plus_full. }
    assert (u64 (paddr + PAGE_SIZE_4KB * 2) = paddr + 2 * PAGE_SIZE_4KB) as -> by (unfold PAGE_SIZE_4KB; rewrite u64_small; lia). done.
  - cbn [set_g_mem g_mem] in m5, Hl4, Ho4. unfold sizeof_desc, DESC_NEXT in *.
    assert (forall a, (forall i, 0 <= i < count -> ~ paddr + 16 * i + 14 <= a < paddr + 16 * (i + 1)) ->
      m5 @@ a = if decide (paddr <= a < paddr + 12288) then 0 else g_mem s @@ a) as Hm5.
    { intros a Hi. unfold m5. rewrite rd_store16. pose proof (Hi (count - 1) ltac:(lia)). rewrite !decide_False by lia.
      rewrite Ho4; [apply H3 |]. intros i Hi'. apply Hi. lia. }
    split; unfold sizeof_desc, DESC_NEXT, PAGE_SIZE_4KB.
    + pose proof (free_chain_seq m5 paddr 0 (Z.to_nat count)) as Hch. rewrite Z2Nat.id in Hch by lia.
      replace (Z.to_nat count =? 0)%nat with false in Hch by (symmetry; apply Nat.eqb_neq; lia). apply Hch. unfold sizeof_desc, DESC_NEXT.
      intros i Hi. destruct (Z.eqb_spec i (0 + count - 1)) as [->|Hne].
      * unfold m5. by rewrite load16_store16.
      * rewrite <- (s16_u16 (i + 1)), <- (Hl4 i) by lia. f_equal. unfold m5. apply load16_ext; rewrite rd_store16, !decide_False by lia; done.
    + intros i j Hi Hj. rewrite Hm5, decide_True by lia. done.
    + intros a Ha'. rewrite Hm5, decide_True by lia. done.
    + intros a Ha'. rewrite Hm5, decide_False by lia. done.
Qed.
End create.

(** ** Commands *)

(** The descriptor [i] as the driver fills it. *)
Definition desc_is (m : memory) (desc i addr len flags next : Z) : Prop :=
  let a := desc + sizeof_desc * i in
  load64 m (a + DESC_ADDR) = addr /\ load32 m (a + DESC_LEN) = len /\ load16 m (a + DESC_FLAGS) = flags /\ load16 m (a + DESC_NEXT) = next.

Lemma desc_is_ext m m' desc i addr len flags next : (forall a, desc + sizeof_desc * i <= a < desc + sizeof_desc * (i + 1) -> m' @@ a = m @@ a) ->
  desc_is m desc i addr len flags next -> desc_is m' desc i addr len flags next.
Proof.
  unfold desc_is, sizeof_desc, DESC_ADDR, DESC_LEN, DESC_FLAGS, DESC_NEXT. intros H (H1 & H2 & H3 & H4). cbv zeta.
  split; [rewrite <- H1; apply load64_same; intros x Hx; apply H; lia |].
  split; [rewrite <- H2; apply load32_same; intros x Hx; apply H; lia |].
  split; [rewrite <- H3 | rewrite <- H4]; apply load16_ext; apply H; lia.
Qed.

Section command.
Context {St : Type} `{VirtioServices St}.
Implicit Types s : vgpu St.

Lemma queue_ok_ext vq desc n l s s' q q' : queue_ok vq desc n l s -> queues s !! vq = Some q -> queues s' !! vq = Some q' ->
  vq_desc q' = vq_desc q -> num_free q' = num_free q -> free_head q' = free_head q ->
  (forall a, vs_translate (g_env s') a = vs_translate (g_env s) a) ->
  (forall i, i ∈ l -> load16 (g_mem s') (desc + sizeof_desc * i + DESC_NEXT) = load16 (g_mem s) (desc + sizeof_desc * i + DESC_NEXT)) ->
  queue_ok vq desc n l s'.
Proof.
  intros [(q0 & Hq0 & Hd & Hn & Hch) Hr Hids Hmap] Hq Hq' Ed En Eh Ht Hm. assert (q0 = q) as -> by congruence. split.
  - exists q'. split; [done |]. rewrite Ed, En, Eh. split; [done |]. split; [done |]. by apply (free_chain_ext (g_mem s)).
  - done.
  - done.
  - intros a Ha. rewrite Ht. by apply Hmap.
Qed.

Lemma wp_fill_desc desc n i addr len flags next (Q : unit -> vgpu St -> Prop) s :
  0 <= desc -> desc + sizeof_desc * n < 2 ^ 64 -> 0 <= i < n ->
  (forall a, desc <= a < desc + sizeof_desc * n -> vs_translate (g_env s) a = Some a) ->
  0 <= addr < 2 ^ 64 -> 0 <= len < 2 ^ 32 -> 0 <= flags < 2 ^ 16 -> 0 <= next < 2 ^ 16 ->
  (forall m, only_descs desc (fun k => k = i) (g_mem s) m -> desc_is m desc i addr len flags next -> Q tt (set_g_mem m s)) ->
  wp (fill_desc desc i addr len flags next) Q s.
Proof.
  intros Hd Hend Hi Hmap Haddr Hlen Hflags Hnext HQ. unfold sizeof_desc in *.
  assert (forall fl, 0 <= fl < 16 -> vs_translate (g_env s) (desc_field desc i fl) = Some (desc + 16 * i + fl)) as Ht.
  { intros fl Hfl. unfold desc_field, sizeof_desc. rewrite u64_small by lia. apply Hmap. lia. }
  unfold fill_desc, DESC_ADDR, DESC_LEN, DESC_FLAGS, DESC_NEXT.
  apply wp_bind. eapply wp_vmem_set; [by apply Ht |]. apply wp_bind. eapply wp_vmem_set; [by apply Ht |].
  apply wp_bind. eapply wp_vmem_set; [by apply Ht |]. eapply wp_vmem_set; [by apply Ht |]. cbn [set_g_mem g_mem].
  set (m1 := store64 _ _ _). set (m2 := store32 m1 _ _). set (m3 := store16 m2 _ _). set (m4 := store16 m3 _ _).
  apply (HQ m4).
  - intros a Ha. specialize (Ha i eq_refl). unfold sizeof_desc in Ha.
    unfold m4, m3, m2, m1. rewrite !rd_store16, rd_store32, !decide_False by lia. apply rd_store64; lia.
  - unfold desc_is, sizeof_desc, DESC_ADDR, DESC_LEN, DESC_FLAGS, DESC_NEXT. cbv zeta.
    split; [| split; [| split]].
    + transitivity (load64 m1 (desc + 16 * i + 0)); [| by apply load_store64]. apply load64_same. intros x Hx.
      unfold m4, m3, m2. by rd_stores.
    + transitivity (load32 m2 (desc + 16 * i + 8)).
      * apply load32_same. intros x Hx. unfold m4, m3. by rewrite !rd_store16, !decide_False by lia.
      * unfold m2. rewrite load_store32, decide_True by (done || lia). done.
    + transitivity (load16 m3 (desc + 16 * i + 12)); [| by apply load16_store16].
      apply load16_ext; unfold m4; by rewrite rd_store16, !decide_False by lia.
    + by apply load16_store16.
Qed.

(** What a command needs of its queue, besides free descriptors: the index words
    of the two rings, at [aa] and [ua], reached by the tables in use and apart
    from each other and from the table. *)
Record rings_ok (q : virtqueue) (desc n aa ua : Z) s : Prop := {
  ro_avail : vs_translate (g_env s) (u64 (vq_avail q + AVAIL_IDX)) = Some aa;
  ro_used : vs_translate (g_env s) (u64 (vq_used q + USED_IDX)) = Some ua;
  ro_apart : aa + 2 <= ua \/ ua + 2 <= aa;
  ro_avail_table : aa + 2 <= desc \/ desc + sizeof_desc * n <= aa;
  ro_used_table : ua + 2 <= desc \/ desc + sizeof_desc * n <= ua;
}.

(** The memory once a command is described by the descriptors [i] and [j]. *)
Record described (desc i j aa pa req_len pr resp_len : Z) (m m' : memory) : Prop := {
  de_request : desc_is m' desc i pa req_len VIRTQ_DESC_F_NEXT j;
  de_response : desc_is m' desc j pr resp_len VIRTQ_DESC_F_WRITE 0;
  de_rest : forall a, ~ desc + sizeof_desc * i <= a < desc + sizeof_desc * (i + 1) -> ~ desc + sizeof_desc * j <= a < desc + sizeof_desc * (j + 1) ->
    ~ aa <= a < aa + 2 -> m' @@ a = m @@ a;
}.

Lemma wp_put_command vq q desc n i j aa ua request req_len response resp_len pa pr s :
  queues s !! vq = Some q -> vq_desc q = desc -> 0 <= desc -> desc + sizeof_desc * n < 2 ^ 64 -> 0 <= i < n -> 0 <= j < n -> n <= 2 ^ 15 -> i <> j ->
  (forall a, desc <= a < desc + sizeof_desc * n -> vs_translate (g_env s) a = Some a) -> rings_ok q desc n aa ua s ->
  vs_get_paddr request (g_env s) = Ok (pa, g_env s) -> vs_get_paddr response (g_env s) = Ok (pr, g_env s) ->
  0 <= pa < 2 ^ 64 -> 0 <= pr < 2 ^ 64 -> 0 <= req_len < 2 ^ 32 -> 0 <= resp_len < 2 ^ 32 ->
  wp (put_command vq i j request req_len response resp_len) (fun _ s' => exists m r,
    s' = set_regions r (set_g_mem m s) /\ described desc i j aa pa req_len pr resp_len (g_mem s) m) s.
Proof.
  intros Hq Hd H0 Hend Hi Hj Hn Hij Hmap [Hav Hus _ Hat _] Hpa Hpr Rpa Rpr Rq Rs. unfold put_command.
  apply wp_bind, (wp_queue_at _ q); [done |]. apply wp_bind, wp_zoom. eapply wp_of_ok; [exact Hpa |]. cbv beta. rewrite Hd.
  apply wp_bind. apply (wp_fill_desc _ n); [done | done | done | exact Hmap | done | done | done | apply u16_range |].
  rewrite u16_small by lia. intros m1 Ho1 Hi1.
  apply wp_bind, wp_zoom. eapply wp_of_ok; [exact Hpr |]. cbv beta.
  apply wp_bind. apply (wp_fill_desc _ n); [done | done | done | exact Hmap | done | done | done | done |].
  intros m2 Ho2 Hj2. cbn [set_g_env set_g_mem g_mem] in Ho1, Ho2.
  apply wp_bind. eapply wp_vmem_get; [exact Hav |]. apply wp_bind. eapply wp_vmem_set; [exact Hav |].
  apply wp_modify. cbn [set_g_env set_g_mem g_mem]. set (m3 := store16 _ _ _).
  assert (forall a, ~ aa <= a < aa + 2 -> m3 @@ a = m2 @@ a) as Ho3 by (intros a Ha; unfold m3; by rd_stores).
  eexists m3, _. split; [reflexivity |]. unfold sizeof_desc in *. split; unfold sizeof_desc.
  - apply (desc_is_ext m2); [unfold sizeof_desc; intros a Ha; apply Ho3; lia |].
    apply (desc_is_ext m1); [| done]. unfold sizeof_desc. intros a Ha. apply Ho2. intros k ->. unfold sizeof_desc. lia.
  - apply (desc_is_ext m2); [unfold sizeof_desc; intros a Ha; apply Ho3; lia | done].
  - intros a Hai Haj Haa. rewrite Ho3, Ho2, Ho1; [done | | | done]; intros k ->; done.
Qed.
End command.

Section served.
Context {St : Type} `{VirtioServices St}.
Implicit Types s : vgpu St.

(** What happens to memory from the first descriptor taken to the command described. *)
Lemma described_from desc i j aa pa req_len pr resp_len m0 m1 m2 m :
  only_descs desc (fun k => k = i) m0 m1 -> only_descs desc (fun k => k = j) m1 m2 ->
  described desc i j aa pa req_len pr resp_len m2 m -> described desc i j aa pa req_len pr resp_len m0 m.
Proof.
  intros H1 H2 [Hq Hp Hr]. split; [done | done |]. intros a Hi Hj Ha. rewrite Hr, H2, H1; [done | | | done | done | done]; by intros k ->.
Qed.

(** Up to the wait. *)
Lemma command_put vq desc n i j l q aa ua request req_len response resp_len pa pr s :
  queue_ok vq desc n (i :: j :: l) s -> queues s !! vq = Some q -> rings_ok q desc n aa ua s ->
  vs_get_paddr request (g_env s) = Ok (pa, g_env s) -> vs_get_paddr response (g_env s) = Ok (pr, g_env s) ->
  0 <= pa < 2 ^ 64 -> 0 <= pr < 2 ^ 64 -> 0 <= req_len < 2 ^ 32 -> 0 <= resp_len < 2 ^ 32 ->
  exists m r h k s', s' = set_regions r (set_g_mem m (set_queues (<[vq := set_free h k q]> (queues s)) s)) /\
    described desc i j aa pa req_len pr resp_len (g_mem s) m /\ queue_ok vq desc n l s' /\
    forall fuel, virtio_gpu_send_command fuel vq request req_len response resp_len s = (wait_used fuel vq;; take_used vq response) s'.
Proof.
  intros Hok Hq Hr Hpa Hpr Rpa Rpr Rq Rs. pose proof Hok as [_ (Hn & Hd & Hend) [Hids Hnd] Hmap].
  apply Forall_cons in Hids as [Hi Hids]. apply Forall_cons in Hids as [Hj Hids]. apply NoDup_cons in Hnd as [Hni Hnd]. apply NoDup_cons in Hnd as [Hnj _].
  destruct (wp_ok _ _ _ (wp_alloc_desc vq desc n (i :: j :: l) s Hok)) as (r1 & s1 & A1 & -> & Hok1 & Ho1 & _ & _ & q1 & h1 & k1 & Hq1 & E1).
  assert (q1 = q) as -> by congruence.
  destruct (wp_ok _ _ _ (wp_alloc_desc vq desc n (j :: l) s1 Hok1)) as (r2 & s2 & A2 & -> & Hok2 & Ho2 & _ & _ & q2 & h2 & k2 & Hq2 & E2).
  assert (queues s1 !! vq = Some (set_free h1 k1 q)) as Eq1 by (rewrite E1; apply lookup_insert_eq).
  assert (q2 = set_free h1 k1 q) as -> by congruence.
  assert (s2 = set_g_mem (g_mem s2) (set_queues (<[vq := set_free h2 k2 q]> (queues s)) s)) as Es2.
  { rewrite E2, E1. unfold set_g_mem, set_queues. cbn. f_equal. apply insert_insert_eq. }
  assert (queues s2 !! vq = Some (set_free h2 k2 q)) as Eq2 by (rewrite Es2; apply lookup_insert_eq).
  assert (g_env s2 = g_env s) as Ee by by rewrite Es2.
  pose proof (qo_queue _ _ _ _ _ Hok) as (q0 & Hq0 & Hdesc & _). assert (q0 = q) as -> by congruence.
  unshelve epose proof (wp_put_command vq (set_free h2 k2 q) desc n i j aa ua request req_len response resp_len pa pr s2 _ _ _ _ _ _ _ _ _ _ _ _ _ _ _ _) as Hput;
    try done; try lia; rewrite ?Ee; try done.
  { by intros ->; apply Hni, list_elem_of_here. }
  { destruct Hr as [R1 R2 R3 R4 R5]. split; rewrite ?Ee; done. }
  destruct (wp_ok _ _ _ Hput) as ([] & s3 & A3 & m & r & -> & Hde).
  exists m, r, h2, k2, (set_regions r (set_g_mem m s2)). rewrite Es2 at 1. split; [done |].
  assert (described desc i j aa pa req_len pr resp_len (g_mem s) m) as Hde' by by eapply described_from.
  split; [done |]. split.
  - eapply (queue_ok_ext _ _ _ _ s2); [done | done | exact Eq2 | done | done | done | done |].
    intros k Hk. cbn [g_mem set_regions set_g_mem]. destruct Hde as [_ _ Hrest].
    rewrite Forall_forall in Hids. specialize (Hids k Hk). assert (k <> i) by (intros ->; apply Hni; by apply list_elem_of_further).
    assert (k <> j) by congruence. destruct Hr as [_ _ _ R4 _]. unfold sizeof_desc, DESC_NEXT in *. apply load16_ext; apply Hrest; lia.
  - intros fuel. unfold virtio_gpu_send_command, mbind, M_bind. rewrite A1, A2, !(proj2 (Z.eqb_neq _ (-1))) by lia. cbn [orb]. by rewrite A3.
Qed.

(** A queue without two free descriptors. *)
Lemma wp_command_full vq desc n l fuel request req_len response resp_len s : queue_ok vq desc n l s -> (length l < 2)%nat ->
  wp (virtio_gpu_send_command fuel vq request req_len response resp_len) (fun r s' => r = 0 /\ queue_ok vq desc n l s') s.
Proof.
  intros Hok Hl. unfold virtio_gpu_send_command. apply wp_bind. eapply wp_mono; [by apply wp_alloc_desc |].
  destruct l as [|i [|j l]]; [| | cbn in Hl; lia].
  - intros r1 s1 [-> ->]. apply wp_bind. eapply wp_mono; [by apply (wp_alloc_desc vq desc n []) |]. intros r2 s2 [-> ->]. by apply wp_ret.
  - intros r1 s1 (-> & Hok1 & _). apply wp_bind. eapply wp_mono; [by apply (wp_alloc_desc vq desc n []) |]. intros r2 s2 [-> ->].
    pose proof (qo_ids _ _ _ _ _ Hok) as [Hids _]. apply Forall_cons in Hids as [Hids _]. pose proof (qo_range _ _ _ _ _ Hok) as [Hn _].
    rewrite orb_true_r, (proj2 (Z.eqb_neq i (-1))), u16_small by lia. apply wp_bind. eapply wp_mono; [apply (wp_free_desc vq desc n []); [done | lia | by apply not_elem_of_nil] |].
    intros [] s2 (Hok2 & _). by apply wp_ret.
Qed.

(** An idle device never ends the wait. *)
Lemma wait_used_idle fuel vq q ua s : (forall m, vs_device (g_env s) m = (g_env s, m)) -> queues s !! vq = Some q ->
  vs_translate (g_env s) (u64 (vq_used q + USED_IDX)) = Some ua -> load16 (g_mem s) ua = last_seen_used q -> wait_used fuel vq s = Err Hang.
Proof.
  intros Hdev Hq Hua Hidx. induction fuel as [|fuel IH]; cbn [wait_used]; unfold queue_at, vmem_get, mbind, M_bind, get, mret, M_ret;
    rewrite Hq, Hua, Hidx, Z.eqb_refl; [done |].
  unfold device_turn, modify. rewrite Hdev. replace (set_g_mem (g_mem s) (set_g_env (g_env s) s)) with s by by destruct s. exact IH.
Qed.

End served.

(** ** The device *)

#[export] Instance vdev_space : PciSpace vdev.
Proof.
  refine {| space_regs d := regs_of (vd_bus d); space_same d d' := regs_same (vd_bus d) (vd_bus d') /\ d' = set_vd_bus (vd_bus d') d |}.
  - intros d. split; [done | by destruct d].
  - intros d1 d2 d3 [H1 E1] [H2 E2]. split; [intros k; by rewrite H2, H1 |]. by rewrite E2, E1.
  - intros d d' [H _] b dv f r. apply H.
  - intros bus dev func offset Q d Hok HQ.
    assert (wp (pci_read_dword (St := pci_bus) bus dev func offset) (fun x p' => Q x (set_vd_bus p' d)) (vd_bus d)) as Hr.
    { apply wp_pci_read; [done |]. intros p' Hp'. by apply HQ. }
    exact Hr.
Defined.

Section device.
Implicit Types (s : vgpu vdev) (d : vdev).

Lemma reg_offset_attached s off : attached s -> 0 <= off < PAGE_SIZE_4KB -> reg_offset (g_env s) (COMMON_CFG_VIRT + off) = Some off.
Proof.
  intros [_ Hm] Hoff. unfold reg_offset. assert ((COMMON_CFG_VIRT + off) / PAGE_SIZE_4KB * PAGE_SIZE_4KB = COMMON_CFG_VIRT) as ->.
  { change COMMON_CFG_VIRT with (0xFFFFFFFFFFFC0 * 0x1000). unfold PAGE_SIZE_4KB in *. clear -Hoff. dlia. }
  rewrite Hm. cbn. f_equal. change COMMON_CFG_VIRT with (0xFFFFFFFFFFFC0 * 0x1000). unfold PAGE_SIZE_4KB in *.
  rewrite (Z.add_comm (_ * _)), Z_mod_plus_full, Z.mod_small by lia. lia.
Qed.

(** Nothing that the negotiation cannot change is changed. *)
Definition same_device d d' : Prop :=
  vd_maps d' = vd_maps d /\ vd_common d' = vd_common d /\ vd_offers d' = vd_offers d /\ vd_agrees d' = vd_agrees d /\
  vd_heap d' = vd_heap d /\ vd_pages d' = vd_pages d /\ vd_cfg d' @@ CFG_QUEUE_SIZE = vd_cfg d @@ CFG_QUEUE_SIZE.
#[export] Instance same_device_preorder : PreOrder same_device.
Proof. split; [done |]. intros d1 d2 d3 H1 H2. unfold same_device in *. naive_solver congruence. Qed.

Lemma dev_set_maps d off v : vd_maps (dev_set d off v) = vd_maps d /\ vd_common (dev_set d off v) = vd_common d.
Proof. unfold dev_set. by repeat case_match. Qed.

Lemma dev_set_same d off v : off <> CFG_QUEUE_SIZE -> same_device d (dev_set d off v).
Proof. intros Hne. unfold dev_set. repeat case_match; unfold same_device; cbn -[rd insert]; rewrite ?rd_insert_ne by done; done. Qed.
#[local] Ltac same_device := repeat (first [done | etrans; [| by apply dev_set_same]]).

Lemma wp_cfg_get off (Q : Z -> vgpu vdev -> Prop) d s : attached (set_g_env d s) -> 0 <= off < PAGE_SIZE_4KB ->
  Q (dev_get d off) (set_g_env d s) -> wp (cfg_get off) Q (set_g_env d s).
Proof.
  intros Ha Hoff HQ. pose proof (reg_offset_attached _ off Ha Hoff) as Hr. destruct Ha as [Hc Hm]. unfold cfg_get. apply wp_bind, wp_gets.
  rewrite Hc, (proj2 (Z.eqb_neq COMMON_CFG_VIRT 0)) by done. apply wp_zoom. unfold wp. cbn [vs_reg_get vdev_services view l_g_env]. by rewrite Hr.
Qed.

Lemma wp_cfg_set off v (Q : unit -> vgpu vdev -> Prop) d s : attached (set_g_env d s) -> 0 <= off < PAGE_SIZE_4KB ->
  (attached (set_g_env (dev_set d off v) s) -> Q tt (set_g_env (dev_set d off v) s)) -> wp (cfg_set off v) Q (set_g_env d s).
Proof.
  intros Ha Hoff HQ. pose proof (reg_offset_attached _ off Ha Hoff) as Hr. destruct Ha as [Hc Hm]. unfold cfg_set. apply wp_bind, wp_gets.
  rewrite Hc, (proj2 (Z.eqb_neq COMMON_CFG_VIRT 0)) by done. apply wp_zoom. unfold wp. cbn [vs_reg_set vdev_services view l_g_env]. rewrite Hr.
  apply HQ. destruct (dev_set_maps d off v) as (E1 & E2). split; [done |]. cbn [set_g_env g_env]. by rewrite E1, E2.
Qed.

Lemma wp_env {A} (m : M (vgpu vdev) A) Q s : wp m Q (set_g_env (g_env s) s) -> wp m Q s.
Proof. by destruct s. Qed.

Lemma wp_wait ms (Q : unit -> vgpu vdev -> Prop) d s : Q tt (set_g_env d s) -> wp (wait_ms ms) Q (set_g_env d s).
Proof. intros HQ. by apply wp_zoom, wp_ret. Qed.

Lemma wp_add_status bits (Q : unit -> vgpu vdev -> Prop) d s : attached (set_g_env d s) ->
  (let d' := dev_set d CFG_DEVICE_STATUS (Z.lor (vd_status d) bits) in attached (set_g_env d' s) -> Q tt (set_g_env d' s)) ->
  wp (add_status bits) Q (set_g_env d s).
Proof.
  intros Ha HQ. unfold add_status. apply wp_bind, wp_cfg_get; [done | by split |]. by apply wp_cfg_set; [done | by split |].
Qed.

(** The status, the choice and the selectors after a write. *)
Lemma status_set d v : vd_status (dev_set d CFG_DEVICE_STATUS v) = if Z.testbit v 3 && negb (vd_agrees d) then v - 2 ^ 3 else v.
Proof. unfold vd_status, dev_set. cbn -[rd insert Z.testbit]. destruct (Z.eqb_spec v 0) as [->|]; cbn -[rd insert Z.testbit]; by rewrite rd_insert_eq. Qed.

Lemma status_other d off v : off <> CFG_DEVICE_STATUS -> vd_status (dev_set d off v) = vd_status d.
Proof.
  intros Hne. unfold vd_status, dev_set. rewrite (proj2 (Z.eqb_neq off CFG_DEVICE_STATUS)) by done. case_match; [done |]. cbn -[rd insert].
  by rewrite rd_insert_ne.
Qed.

(** Any other register holds what was written last. *)
Lemma dev_get_set d off v off' : off' <> CFG_DEVICE_FEATURE -> off <> CFG_DRIVER_FEATURE -> off <> CFG_DEVICE_STATUS \/ off' <> off ->
  dev_get (dev_set d off v) off' = if decide (off' = off) then v else dev_get d off'.
Proof.
  intros H1 H2 H3. unfold dev_get. rewrite (proj2 (Z.eqb_neq off' _)) by done. unfold dev_set. rewrite (proj2 (Z.eqb_neq off _)) by done.
  destruct (Z.eqb_spec off CFG_DEVICE_STATUS) as [->|Hne].
  - rewrite decide_False by naive_solver. case_match; cbn -[rd insert]; rewrite rd_insert_ne; naive_solver.
  - cbn -[rd insert]. rewrite rd_insert. repeat case_decide; congruence.
Qed.

Lemma driver_status d v : v <> 0 -> vd_driver (dev_set d CFG_DEVICE_STATUS v) = vd_driver d.
Proof. intros Hv. unfold dev_set. cbn. by rewrite (proj2 (Z.eqb_neq v 0)). Qed.

(** The features chosen, when there was a choice. *)
Definition chosen d : Z := vd_driver d @@ 0 + 2 ^ 32 * vd_driver d @@ 1.

Lemma wp_handshake s : attached s ->
  wp init_virtio_gpu_handshake (fun _ s' => exists d', s' = set_g_env d' s /\ attached s' /\ same_device (g_env s) d' /\
    vd_status d' = Z.lor VIRTIO_STATUS_ACKNOWLEDGE VIRTIO_STATUS_DRIVER /\ vd_driver d' = ∅) s.
Proof.
  intros Ha. unfold init_virtio_gpu_handshake. apply wp_env.
  assert (attached (set_g_env (g_env s) s)) as A0 by by destruct s.
  apply wp_bind, wp_cfg_set; [done | by split |]. intros A1. apply wp_bind, wp_wait.
  apply wp_bind, wp_add_status; [done |]. cbv zeta. intros A2. apply wp_add_status; [done |]. cbv zeta. intros A3.
  eexists. split; [reflexivity |]. split; [done |]. split; [same_device |].
  set (d1 := dev_set (g_env s) _ _). assert (vd_status d1 = 0) as E1 by apply status_set. rewrite E1.
  set (d2 := dev_set d1 _ _). assert (vd_status d2 = 1) as E2 by apply status_set. rewrite E2. by rewrite status_set.
Qed.

Lemma features_offered o : 0 <= o < 2 ^ 64 ->
  truthy (Z.land (Z.lor (Z.shiftl (o / 2 ^ 32 mod 2 ^ 32) 32) (o mod 2 ^ 32)) VIRTIO_F_VERSION_1) = Z.testbit o 32.
Proof.
  intros Ho. unfold VIRTIO_F_VERSION_1.
  rewrite land_pow2_testbit, Z.shiftl_mul_pow2, Z.lor_comm, (Z.mul_comm _ (2 ^ 32)), lor_shifted by (lia || apply Z.mod_pos_bound; lia).
  f_equal. clear -Ho. dlia.
Qed.

(** The features as the driver reads them. *)
Lemma features_read d : 0 <= vd_offers d < 2 ^ 64 ->
  let d1 := dev_set d CFG_DEVICE_FEATURE_SELECT 0 in let d2 := dev_set d1 CFG_DEVICE_FEATURE_SELECT 1 in
  truthy (Z.land (Z.lor (Z.shiftl (dev_get d2 CFG_DEVICE_FEATURE) 32) (dev_get d1 CFG_DEVICE_FEATURE)) VIRTIO_F_VERSION_1) = Z.testbit (vd_offers d) 32.
Proof.
  intros Ho. cbv zeta. rewrite <- (features_offered _ Ho). unfold dev_get, dev_set.
  cbn -[rd insert Z.shiftl Z.lor Z.land Z.div Z.modulo Z.pow Z.mul]. rewrite !rd_insert_eq. by rewrite Z.mul_0_r, Z.pow_0_r, Z.div_1_r.
Qed.

(** The choice, and the device's answer. *)
Lemma features_written d d3 d4 d5 d6 d7 : d3 = dev_set d CFG_DRIVER_FEATURE_SELECT 0 -> d4 = dev_set d3 CFG_DRIVER_FEATURE 0 ->
  d5 = dev_set d4 CFG_DRIVER_FEATURE_SELECT 1 -> d6 = dev_set d5 CFG_DRIVER_FEATURE 1 -> d7 = dev_set d6 CFG_DEVICE_STATUS VIRTIO_STATUS_FEATURES_OK ->
  vd_status d7 = (if vd_agrees d then VIRTIO_STATUS_FEATURES_OK else 0) /\ chosen d7 = VIRTIO_F_VERSION_1.
Proof.
  intros -> -> -> -> ->. split.
  - rewrite status_set. change (Z.testbit VIRTIO_STATUS_FEATURES_OK 3) with true. cbn -[Z.pow]. by destruct (vd_agrees d).
  - unfold chosen. rewrite driver_status by done. unfold dev_set. cbn -[rd insert Z.pow Z.mul]. rewrite !rd_insert_eq. by rewrite rd_insert_ne, rd_insert_eq.
Qed.

Lemma wp_features s : attached s -> 0 <= vd_offers (g_env s) < 2 ^ 64 ->
  wp init_virtio_gpu_features (fun _ s' => exists d', s' = set_g_env d' s /\ same_device (g_env s) d' /\
    if Z.testbit (vd_offers (g_env s)) 32
    then vd_status d' = (if vd_agrees (g_env s) then VIRTIO_STATUS_FEATURES_OK else VIRTIO_STATUS_FAILED) /\ chosen d' = VIRTIO_F_VERSION_1
    else vd_status d' = (let v := Z.lor (vd_status (g_env s)) VIRTIO_STATUS_FAILED in if Z.testbit v 3 && negb (vd_agrees (g_env s)) then v - 2 ^ 3 else v) /\
      (vd_status (g_env s) = 3 -> vd_driver d' = vd_driver (g_env s))) s.
Proof.
  intros Ha Ho. unfold init_virtio_gpu_features. apply wp_env.
  assert (attached (set_g_env (g_env s) s)) as A0 by by destruct s. set (d := g_env s) in *.
  apply wp_bind, wp_cfg_set; [done | by split |]. intros A1. apply wp_bind, wp_wait, wp_bind, wp_cfg_get; [done | by split |].
  apply wp_bind, wp_cfg_set; [done | by split |]. intros A2. apply wp_bind, wp_wait, wp_bind, wp_cfg_get; [done | by split |]. cbv zeta.
  rewrite (features_read d Ho). set (d2 := dev_set (dev_set d _ _) _ _) in *.
  assert (vd_agrees d2 = vd_agrees d) as Eg by done. destruct (Z.testbit (vd_offers d) 32).
  - apply wp_bind, wp_cfg_set; [done | by split |]. intros A3. apply wp_bind, wp_cfg_set; [done | by split |]. intros A4.
    apply wp_bind, wp_cfg_set; [done | by split |]. intros A5. apply wp_bind, wp_cfg_set; [done | by split |]. intros A6.
    apply wp_bind, wp_cfg_set; [done | by split |]. intros A7. apply wp_bind, wp_wait, wp_bind, wp_cfg_get; [done | by split |].
    destruct (features_written d2 _ _ _ _ _ eq_refl eq_refl eq_refl eq_refl eq_refl) as [E7 C7].
    change (u32 (Z.shiftr (Z.lor 0 VIRTIO_F_VERSION_1) 32)) with 1. change (Z.land (Z.lor 0 VIRTIO_F_VERSION_1) 0xFFFFFFFF) with 0.
    match goal with |- wp _ _ (set_g_env ?d' _) => set (d7 := d') in * end.
    assert (same_device d d7) as S7 by (unfold d7, d2; same_device).
    change (dev_get d7 CFG_DEVICE_STATUS) with (vd_status d7). rewrite E7, Eg. destruct (vd_agrees d).
    + apply wp_ret. exists d7. rewrite E7. by rewrite Eg.
    + apply wp_add_status; [done |]. cbv zeta. intros _. eexists. split; [reflexivity |]. split; [by etrans; [| apply dev_set_same] |].
      rewrite status_set, E7, Eg. split; [done |]. unfold chosen in *. rewrite driver_status; done.
  - apply wp_add_status; [done |]. cbv zeta. intros _. eexists. split; [reflexivity |]. split; [unfold d2; same_device |].
    assert (vd_status d2 = vd_status d) as Es by (unfold d2; by rewrite !status_other).
    rewrite status_set, Es, Eg. split; [done |]. intros ->. by rewrite driver_status.
Qed.
End device.

(** ** The search and the capabilities, whole *)

(** The search takes the first graphics device of the bus, in the order of buses,
    devices and functions, or leaves the function as it was; nothing else changes. *)
Lemma wp_find_virtio_gpu {St : Type} `{PciSpace St} (s : vgpu St) :
  wp find_virtio_gpu (fun _ s' => exists p, space_same (g_env s) p /\
    s' = match first_gpu (space_regs (g_env s)) with
         | Some (b, d, f) => set_function b d f (set_g_env p s)
         | None => set_g_env p s
         end) s.
Proof.
  unfold find_virtio_gpu. apply wp_bind, wp_zoom. eapply wp_mono; [apply (wp_scan_buses (g_env s) 256 0); [done | done | apply space_refl] |].
  intros r p [Hp Hr]. change (r = first_gpu (space_regs (g_env s))) in Hr. rewrite Hr.
  destruct (first_gpu _) as [[[b d] f]|]; [apply wp_modify | apply wp_ret]; by exists p.
Qed.

(** Every capability of the vendor that the function has takes effect, in the order
    of the chain; the walk ends. *)
Lemma wp_parse_capabilities {St : Type} `{PciSpace St} p0 fuel l r (s0 s : vgpu St) :
  let c := space_regs p0 (g_bus s0) (g_dev s0) (g_func s0) in
  bdf_ok (g_bus s0) (g_dev s0) (g_func s0) -> (forall k, 0 <= c k < 2 ^ 32) -> caps_at c (c 13 mod 2 ^ 16) l -> Forall (cap_ok c) l ->
  (length l <= fuel)%nat -> parsing p0 r s0 s ->
  wp (parse_virtio_gpu_capabilities fuel) (fun _ => parsing p0 (foldl (cap_effect c) r l) s0) s.
Proof.
  intros c Hok Hreg Hl Hcaps Hf Hs. unfold parse_virtio_gpu_capabilities.
  apply wp_bind, (wp_read_gpu (g_bus s0) (g_dev s0) (g_func s0) p0 Hok _ r s0); [done | done |].
  intros s1 H1. change (u8 0x34 / 4) with 13. fold c. rewrite (land_mask (c 13) 16 0xFFFF), u16_small by (done || apply Z.mod_pos_bound; lia).
  by apply (wp_capability_loop (g_bus s0) (g_dev s0) (g_func s0) p0 Hok Hreg).
Qed.

Lemma functions_ok regs x : x ∈ functions regs -> bdf_ok x.1.1 x.1.2 x.2.
Proof.
  unfold functions. intros (b & Hx & Hb)%list_elem_of_bind. apply list_elem_of_bind in Hx as (d & Hx & Hd).
  apply list_elem_of_fmap in Hx as (f & -> & Hf). apply elem_of_seqZ in Hb, Hd. cbn. unfold bdf_ok. split; [lia |]. split; [lia |].
  unfold funcs_of in Hf. case_match; [by apply elem_of_nil in Hf |]. case_match; [apply elem_of_seqZ in Hf; lia |].
  apply list_elem_of_singleton in Hf as ->. lia.
Qed.

Lemma first_gpu_ok regs b d f : first_gpu regs = Some (b, d, f) -> bdf_ok b d f.
Proof.
  unfold first_gpu. intros Hh. destruct (filter _ _) as [|x l] eqn:E; [done |]. cbn in Hh. injection Hh as ->.
  apply (functions_ok regs (b, d, f)). assert ((b, d, f) ∈ filter (gpu_at regs) (functions regs)) as Hin by (rewrite E; apply list_elem_of_here).
  by apply list_elem_of_filter in Hin as [_ Hin].
Qed.

Lemma wp_map_capabilities (Q : unit -> vgpu vdev -> Prop) s : let r := g_regions s in
  (forall maps, maps !! COMMON_CFG_VIRT = Some (u64 (common_bar_addr r + common_offset r)) ->
    maps !! NOTIFY_CFG_VIRT = Some (u64 (notify_bar_addr r + notify_offset r)) ->
    maps !! DEVICE_CFG_VIRT = Some (u32 (device_offset r + device_offset r)) ->
    Q tt (set_regions (set_pointers COMMON_CFG_VIRT NOTIFY_CFG_VIRT DEVICE_CFG_VIRT r) (set_g_env (set_vd_maps maps (g_env s)) s))) ->
  wp map_virtio_gpu_capablities Q s.
Proof.
  intros r HQ. unfold map_virtio_gpu_capablities. apply wp_bind, wp_gets. fold r.
  do 3 (apply wp_bind, wp_zoom, wp_modify). apply wp_modify.
  refine (HQ (<[DEVICE_CFG_VIRT := _]> (<[NOTIFY_CFG_VIRT := _]> (<[COMMON_CFG_VIRT := _]> (vd_maps (g_env s))))) _ _ _).
  - by rewrite !lookup_insert_ne, lookup_insert_eq by done.
  - by rewrite lookup_insert_ne, lookup_insert_eq by done.
  - by rewrite lookup_insert_eq.
Qed.

(** Starting the queue tells the device where the parts of the new queue are and
    enables it; the status bit that is set then is the one of failure. *)
Lemma wp_configure_queue (s : vgpu vdev) : let d := g_env s in let p := vd_heap d in let paddr := vd_pages d in
  attached s -> 1 <= vd_cfg d @@ CFG_QUEUE_SIZE <= 2 ^ 8 -> p <> 0 -> 0 <= paddr -> paddr + 3 * PAGE_SIZE_4KB <= 2 ^ 64 - DIRECT_OFFSET ->
  Z.testbit (vd_status d) 3 && negb (vd_agrees d) = false ->
  wp configure_and_start_queue (fun _ s' => let d' := g_env s' in vq0 s' = p /\
    (forall off x, (off, x) ∈ queue_registers (vd_cfg d @@ CFG_QUEUE_SIZE) paddr -> dev_get d' off = x) /\
    g_regions s' = g_regions s /\ (g_bus s', g_dev s', g_func s') = (g_bus s, g_dev s, g_func s) /\
    vd_maps d' = vd_maps d /\ vd_driver d' = vd_driver d /\
    vd_status d' = Z.lor (vd_status d) VIRTIO_STATUS_FAILED) s.
Proof.
  intros d p paddr Ha Hc Hp H0 Hend Hst. unfold configure_and_start_queue. apply wp_env. fold d.
  assert (attached (set_g_env d s)) as A0 by (unfold d; by destruct s).
  apply wp_bind, wp_cfg_set; [done | by split |]. intros A1. apply wp_bind, wp_cfg_get; [done | by split |].
  set (d1 := dev_set d _ _) in *. change (dev_get d1 CFG_QUEUE_SIZE) with (<[CFG_QUEUE_SELECT := 0]> (vd_cfg d) @@ CFG_QUEUE_SIZE).
  rewrite rd_insert_ne by done. set (count := vd_cfg d @@ CFG_QUEUE_SIZE) in *.
  apply wp_bind. eapply wp_mono; [apply (wp_create_queue count p paddr d1 d1); [done | done | done | done | done | done |] |].
  { intros a Ha'. cbn [vs_translate vdev_services]. rewrite (proj2 (Z.leb_le _ _)) by (unfold DIRECT_OFFSET in *; lia). f_equal. lia. }
  intros r s1 (-> & m & -> & _). apply wp_bind, wp_modify.
  match goal with |- context [<[p := ?q]> _] => set (q0 := q) end.
  set (s2 := set_vq0 _ _). assert (attached (set_g_env d1 s2)) as A2 by exact A1. change s2 with (set_g_env d1 s2).
  apply wp_bind, wp_cfg_set; [done | by split |]. intros A3. set (d2 := dev_set d1 _ _) in *.
  apply wp_bind, (wp_queue_at _ q0); [apply lookup_insert_eq |]. cbn [q0 vq_desc vq_avail vq_used].
  apply wp_bind, wp_cfg_set; [done | by split |]. intros A4. set (d3 := dev_set d2 _ _) in *.
  apply wp_bind, wp_cfg_set; [done | by split |]. intros A5. set (d4 := dev_set d3 _ _) in *.
  apply wp_bind, wp_cfg_set; [done | by split |]. intros A6. set (d5 := dev_set d4 _ _) in *.
  apply wp_bind, wp_cfg_set; [done | by split |]. intros A7. set (d6 := dev_set d5 _ _) in *.
  apply wp_add_status; [done |]. cbv zeta. intros _. cbn [set_g_env g_env]. split; [done |].
  assert (vd_status d6 = vd_status d) as E6 by (unfold d6, d5, d4, d3, d2, d1; by rewrite !status_other).
  assert (vd_status (dev_set d6 CFG_DEVICE_STATUS (Z.lor (vd_status d6) VIRTIO_STATUS_DRIVER_OK)) = Z.lor (vd_status d) VIRTIO_STATUS_FAILED) as E7.
  { rewrite status_set, E6, Z.lor_spec. change (Z.testbit VIRTIO_STATUS_DRIVER_OK 3) with false. rewrite orb_false_r.
    change (vd_agrees d6) with (vd_agrees d). by rewrite Hst. }
  split; [| split; [done |]; split; [done |]; split; [exact (proj1 (dev_set_maps d6 _ _)) |]; split; [| exact E7]].
  2: { rewrite driver_status; [done |]. rewrite E6. intros [_ E0]%Z.lor_eq_0_iff. done. }
  intros off x Hin. unfold queue_registers in Hin. repeat (apply elem_of_cons in Hin as [[= -> ->]|Hin]); [.. | by apply elem_of_nil in Hin].
  all: rewrite dev_get_set, decide_False by (done || by right); unfold d6, d5, d4, d3, d2, d1.
  all: by rewrite !dev_get_set by (done || by left).
Qed.

(** * Properties *)

Lemma negotiated_stays d : Z.testbit (negotiated d) 3 && negb (vd_agrees d) = false.
Proof. unfold negotiated. by destruct (Z.testbit (vd_offers d) 32), (vd_agrees d). Qed.

(** C40: the start of the device: the first one of the bus is taken; if its capabilities
    place the common configuration where it is, the negotiation reaches the device
    and chooses version 1 alone where it is offered, and the queue of the device's
    size is placed and enabled. The status ends with the bit of failure set, and with
    [FEATURES_OK] alone of the others when the device agrees. The region of the
    device is mapped at twice its offset, without its base. *)
Theorem start_virtio_gpu_spec fuel b d f l (s : vgpu vdev) : let v := g_env s in
  let regs := space_regs v in let c := regs b d f in let r := foldl (cap_effect c) (g_regions s) l in
  first_gpu regs = Some (b, d, f) -> (forall k, 0 <= c k < 2 ^ 32) -> caps_at c (c 13 mod 2 ^ 16) l -> Forall (cap_ok c) l -> (length l <= fuel)%nat ->
  u64 (common_bar_addr r + common_offset r) = vd_common v -> 0 <= vd_offers v < 2 ^ 64 ->
  1 <= vd_cfg v @@ CFG_QUEUE_SIZE <= 2 ^ 8 -> vd_heap v <> 0 -> 0 <= vd_pages v -> vd_pages v + 3 * PAGE_SIZE_4KB <= 2 ^ 64 - DIRECT_OFFSET ->
  wp (start_virtio_gpu fuel) (fun _ s' => let v' := g_env s' in
    (g_bus s', g_dev s', g_func s') = (b, d, f) /\ g_regions s' = set_pointers COMMON_CFG_VIRT NOTIFY_CFG_VIRT DEVICE_CFG_VIRT r /\
    vd_status v' = Z.lor (negotiated v) VIRTIO_STATUS_FAILED /\ (Z.testbit (vd_offers v) 32 = true -> chosen v' = VIRTIO_F_VERSION_1) /\
    vd_maps v' !! DEVICE_CFG_VIRT = Some (u32 (2 * device_offset r)) /\
    vq0 s' = vd_heap v /\ forall off x, (off, x) ∈ queue_registers (vd_cfg v @@ CFG_QUEUE_SIZE) (vd_pages v) -> dev_get v' off = x) s.
Proof.
  intros v regs c r Hfirst Hreg Hl Hcaps Hf Hcom Ho Hsize Hheap Hpages Hend. unfold start_virtio_gpu.
  apply wp_bind. eapply wp_mono; [apply wp_find_virtio_gpu |]. cbv beta. intros [] s1 (p1 & Hp1 & Hs1). fold v regs in Hs1. rewrite Hfirst in Hs1. subst s1.
  apply wp_bind. eapply wp_mono; [apply (wp_parse_capabilities v fuel l (g_regions s) (set_function b d f s)) |].
  { by apply first_gpu_ok in Hfirst. } { done. } { done. } { done. } { done. } { by exists p1. }
  intros [] s2 (p2 & [_ Hp2] & ->). cbn [set_function g_bus g_dev g_func]. fold regs c r.
  apply wp_bind, wp_map_capabilities. cbn [set_regions set_g_env set_function g_regions g_env]. intros maps Hm1 _ Hm3.
  assert (same_device (set_vd_maps maps v) (set_vd_maps maps p2)) as S2 by by rewrite Hp2.
  apply wp_bind. eapply wp_mono; [apply wp_handshake |].
  { split; [done |]. cbn. rewrite Hm1, Hcom, Hp2. done. }
  intros [] s3 (d3 & -> & A3 & S3 & E3 & D3). cbn [set_regions set_g_env set_function g_regions g_env] in *.
  pose proof (transitivity S2 S3) as (_ & _ & EO & EG & _). cbn [set_vd_maps vd_offers vd_agrees] in EO, EG.
  apply wp_bind. eapply wp_mono; [apply wp_features; [done | cbn; by rewrite EO] |]. cbn [set_regions set_g_env set_function g_regions g_env].
  rewrite EO, EG, E3. intros [] s4 (d4 & -> & S4 & Hd4). pose proof (transitivity (transitivity S2 S3) S4) as (EM & EC & _ & EA & EH & EP & ES).
  cbn [set_vd_maps vd_maps vd_common vd_agrees vd_heap vd_pages vd_cfg] in EM, EC, EA, EH, EP, ES.
  assert (vd_status d4 = negotiated v) as E4 by (unfold negotiated; destruct (Z.testbit (vd_offers v) 32); destruct Hd4 as [Hd4 _]; exact Hd4).
  eapply wp_mono; [apply wp_configure_queue |]; cbn [set_regions set_g_env set_function g_regions g_env g_bus g_dev g_func]; rewrite ?ES, ?EH, ?EP, ?E4, ?EA; try done.
  { split; [done |]. cbn [set_g_env g_env]. by rewrite EM, EC, <- Hcom. }
  { apply negotiated_stays. }
  intros [] s5 (Q1 & Q2 & Q3 & Q4 & Q5 & Q6 & Q7). split; [exact Q4 |]. split; [exact Q3 |]. split; [exact Q7 |]. split; [| split; [| done]].
  - intros Ht. rewrite Ht in Hd4. unfold chosen. rewrite Q6. apply Hd4.
  - rewrite Q5, EM, Hm3. f_equal. f_equal. lia.
Qed.

(** A new queue holds all its descriptors free, in order, in a block that is zero
    elsewhere; nothing outside the block changes. The ring of the driver is placed a
    page below the block, not a page above its start. *)
Theorem create_virtio_gpu_queue_spec {St : Type} `{VirtioServices St} count p paddr e1 e2 (s : vgpu St) : 1 <= count <= 2 ^ 8 -> p <> 0 ->
  vs_kmalloc sizeof_virtqueue (g_env s) = Ok (p, e1) -> vs_alloc_pages 3 e1 = Ok (paddr, e2) ->
  0 <= paddr -> paddr + 3 * PAGE_SIZE_4KB <= 2 ^ 64 - DIRECT_OFFSET ->
  (forall a, paddr <= a < paddr + 3 * PAGE_SIZE_4KB -> vs_translate e2 (a + DIRECT_OFFSET) = Some a /\ vs_translate e2 a = Some a) ->
  wp (create_virtio_gpu_queue count) (fun r s' => r = p /\ queue_ok p paddr count (seqZ 0 count) s' /\
    fresh_block paddr count (g_mem s) (g_mem s') /\ vq_avail <$> queues s' !! p = Some (u64 (paddr - PAGE_SIZE_4KB))) s.
Proof.
  intros Hc Hp Hk Ha H0 Hend Ht. eapply wp_mono; [apply (wp_create_queue count p paddr e1 e2); [done | done | done | done | done | done |] |].
  { intros a Ha'. by apply Ht. }
  intros r s' (-> & m & -> & Hb). split; [done |]. cbn [set_queues set_g_mem g_mem]. split; [| split; [done |]].
  - unfold PAGE_SIZE_4KB, DIRECT_OFFSET in *. split.
    + eexists. split; [apply lookup_insert_eq |]. cbn [vq_desc num_free free_head]. split; [done |].
      split; [rewrite length_seqZ; lia |]. exact (fb_chain _ _ _ _ Hb).
    + unfold sizeof_desc. lia.
    + split; [| apply NoDup_seqZ]. apply Forall_forall. intros i Hi%elem_of_seqZ. lia.
    + intros a Ha'. unfold sizeof_desc in Ha'. apply Ht. lia.
  - cbn [set_queues queues]. by rewrite lookup_insert_eq.
Qed.

(** Where the physical memory is not mapped at its own addresses, as once the tables
    of the kernel are in use, the first use of a descriptor of a new queue faults. *)
Theorem new_queue_faults {St : Type} `{VirtioServices St} count p paddr e1 e2 (s : vgpu St) : 1 <= count <= 2 ^ 8 -> p <> 0 ->
  vs_kmalloc sizeof_virtqueue (g_env s) = Ok (p, e1) -> vs_alloc_pages 3 e1 = Ok (paddr, e2) ->
  0 <= paddr -> paddr + 3 * PAGE_SIZE_4KB <= 2 ^ 64 - DIRECT_OFFSET ->
  (forall a, paddr <= a < paddr + 3 * PAGE_SIZE_4KB -> vs_translate e2 (a + DIRECT_OFFSET) = Some a /\ vs_translate e2 a = None) ->
  (vq ← create_virtio_gpu_queue count; alloc_desc vq) s = Err Fault.
Proof.
  intros Hc Hp Hk Ha H0 Hend Ht. unshelve epose proof (wp_create_queue count p paddr e1 e2 s Hc Hp Hk Ha H0 Hend _) as Hw.
  { intros a Ha'. by apply Ht. }
  apply wp_ok in Hw as (r & s' & E & -> & m & -> & _). unfold mbind, M_bind. rewrite E.
  unfold alloc_desc, queue_at, mbind, M_bind, get. cbn [set_queues queues]. rewrite lookup_insert_eq. cbn [mret M_ret num_free free_head vq_desc].
  rewrite (proj2 (Z.eqb_neq count 0)) by lia. cbn [orb Z.eqb]. unfold vmem_get, mbind, M_bind, get. cbn [set_queues set_g_mem set_g_env g_env].
  unfold desc_field, sizeof_desc, DESC_NEXT, PAGE_SIZE_4KB, DIRECT_OFFSET in *. rewrite u64_small by lia.
  by rewrite (proj2 (Ht (paddr + 16 * 0 + 14) ltac:(lia))).
Qed.

Section commands.
Context {St : Type} `{VirtioServices St} (vq desc n : Z) (l : list Z) (request req_len response resp_len pa pr : Z) (s : vgpu St).
Hypothesis Hpa : vs_get_paddr request (g_env s) = Ok (pa, g_env s).
Hypothesis Hpr : vs_get_paddr response (g_env s) = Ok (pr, g_env s).
Hypothesis Rpa : 0 <= pa < 2 ^ 64.
Hypothesis Rpr : 0 <= pr < 2 ^ 64.
Hypothesis Rq : 0 <= req_len < 2 ^ 32.
Hypothesis Rs : 0 <= resp_len < 2 ^ 32.

(** The command is put in the table but not in the ring, and the pointer to the
    registers for notifications is cleared instead of written through: a device that
    has nothing to do leaves memory as it is, and the command never returns. *)
Theorem virtio_command_lost fuel i j q aa ua :
  queue_ok vq desc n (i :: j :: l) s -> queues s !! vq = Some q -> rings_ok q desc n aa ua s ->
  load16 (g_mem s) ua = last_seen_used q -> (forall m, vs_device (g_env s) m = (g_env s, m)) ->
  virtio_gpu_send_command fuel vq request req_len response resp_len s = Err Hang.
Proof.
  intros Hok Hq Hr Hidx Hdev.
  destruct (command_put vq desc n i j l q aa ua request req_len response resp_len pa pr s Hok Hq Hr Hpa Hpr Rpa Rpr Rq Rs)
    as (m & r & h & k & s' & Es' & Hde & Hok' & Hsend).
  rewrite Hsend. destruct Hr as [_ Hua Hx1 Hx2 Hx3]. destruct Hde as [_ _ Drest].
  pose proof (qo_ids _ _ _ _ _ Hok) as [Hids _]. apply Forall_cons in Hids as [Ri Hids]. apply Forall_cons in Hids as [Rj _].
  unfold mbind, M_bind. rewrite (wait_used_idle fuel vq (set_free h k q) ua); [done | | | |]; rewrite Es'.
  - exact Hdev.
  - apply lookup_insert_eq.
  - exact Hua.
  - cbn [set_regions set_g_mem g_mem set_free last_seen_used]. rewrite <- Hidx. unfold sizeof_desc in *. apply load16_ext; apply Drest; lia.
Qed.
End commands.

(** * Witnesses *)

Lemma config_words p b d f : map_Forall (fun _ x => 0 <= x < 2 ^ 32) (config p) -> forall r, 0 <= regs_of p b d f r < 2 ^ 32.
Proof.
  intros Hp r. unfold regs_of, config_reg. destruct (config p !! (b, d, f, r)) as [x|] eqn:E; [| done]. by apply (Hp _ _ E).
Qed.

(** A device at 0:3.0 with a common configuration at 0x1000 and a region of the
    device at 0x2000 of its fifth base register. *)
Definition demo_gpu : pci_bus := PciBus 0 (list_to_map [
  ((0, 3, 0, 0), 0x10501AF4); ((0, 3, 0, 3), 0); ((0, 3, 0, 8), 0xFE000004); ((0, 3, 0, 9), 0); ((0, 3, 0, 13), 0x40);
  ((0, 3, 0, 16), 0x01105009); ((0, 3, 0, 17), 4); ((0, 3, 0, 18), 0x1000);
  ((0, 3, 0, 20), 0x04100009); ((0, 3, 0, 21), 4); ((0, 3, 0, 22), 0x2000)]).
Definition demo_vdev : vdev := VDev demo_gpu 0xFE001000 (2 ^ 32 + 1) true {[CFG_QUEUE_SIZE := 64]} ∅ ∅ 0x5000 0x200000.
Definition no_regions : regions := Regions 0 0 0 0 0 0 0 0 0 0 0 0 0.
Definition demo_vgpu : vgpu vdev := Vgpu demo_vdev ∅ 0 0 0 no_regions 0 ∅.

Lemma start_virtio_gpu_witness : wp (start_virtio_gpu 5) (fun _ s' => (g_bus s', g_dev s', g_func s') = (0, 3, 0) /\
  vd_status (g_env s') = 0x88 /\ dev_get (g_env s') CFG_QUEUE_AVAIL = 0x1FF000 /\ chosen (g_env s') = VIRTIO_F_VERSION_1 /\ vd_maps (g_env s') !! DEVICE_CFG_VIRT = Some 0x4000) demo_vgpu.
Proof.
  eapply wp_mono; [apply (start_virtio_gpu_spec 5 0 3 0 [0x40; 0x50] demo_vgpu) |].
  - by vm_compute.
  - apply (config_words demo_gpu). apply (bool_decide_unpack _). by vm_compute.
  - split; [by vm_compute |]. split; [done |]. split; [by vm_compute |]. split; [done |]. by vm_compute.
  - apply Forall_cons. split; [by vm_compute |]. apply Forall_cons. split; [by vm_compute | constructor].
  - cbn. lia.
  - by vm_compute.
  - done.
  - by vm_compute.
  - done.
  - done.
  - by vm_compute.
  - intros [] s' (E1 & _ & E3 & E4 & E5 & _ & E7). split; [exact E1 |]. split; [rewrite E3; by vm_compute |]. split.
    + apply E7. do 3 apply list_elem_of_further. apply list_elem_of_here.
    + split; [apply E4; by vm_compute |]. rewrite E5. by vm_compute.
Defined.

(** Physical memory at its own addresses as well, and a device that does [work]. *)
Definition flat_services (work : memory -> memory) : VirtioServices unit := {|
  vs_kmalloc n := mret 0x5000; vs_alloc_pages n := mret 0x200000; vs_map_page _ _ _ := mret tt; vs_get_paddr va := mret va;
  vs_wait_ms _ := mret tt; vs_reg_get _ := mret 0; vs_reg_set _ _ := mret tt;
  vs_translate _ va := Some (if DIRECT_OFFSET <=? va then va - DIRECT_OFFSET else va);
  vs_device e m := (e, work m); vs_stale _ _ := 0;
|}.

Lemma create_virtio_gpu_queue_witness : let H := flat_services id in
  wp (create_virtio_gpu_queue 4) (fun r s' => queue_ok 0x5000 0x200000 4 [0; 1; 2; 3] s') (Vgpu tt ∅ 0 0 0 no_regions 0 ∅).
Proof.
  intros H. eapply wp_mono; [apply (create_virtio_gpu_queue_spec (H := flat_services id) 4 0x5000 0x200000 tt tt); try done |].
  - intros a Ha. unfold PAGE_SIZE_4KB, DIRECT_OFFSET in *. cbn [vs_translate flat_services]. unfold DIRECT_OFFSET.
    rewrite (proj2 (Z.leb_le _ _)), (proj2 (Z.leb_gt _ a)) by lia. split; f_equal. lia.
  - intros r s' (_ & Hok & _). exact Hok.
Defined.

Lemma new_queue_faults_witness : (vq ← create_virtio_gpu_queue 4; alloc_desc vq) demo_vgpu = Err Fault.
Proof.
  apply (new_queue_faults 4 0x5000 0x200000 demo_vdev demo_vdev); try done.
  intros a Ha. unfold PAGE_SIZE_4KB in *. cbn [vs_translate vdev_services]. unfold DIRECT_OFFSET.
  rewrite (proj2 (Z.leb_le _ _)), (proj2 (Z.leb_gt _ a)) by lia. split; f_equal. lia.
Defined.

(** A queue of two descriptors, where memory is mapped at its own addresses. *)
Definition demo_queue : virtqueue := Virtqueue 0x1000 0x2000 0x3000 0x1000 2 2 0 0.
Definition demo_ring : vgpu unit := Vgpu tt (store16 (store16 ∅ 0x100E 1) 0x101E 0xFFFF) 0 0 0 no_regions 0 {[0x5000 := demo_queue]}.

Lemma demo_ring_ok work : @queue_ok unit (flat_services work) 0x5000 0x1000 2 [0; 1] demo_ring /\ @rings_ok unit (flat_services work) demo_queue 0x1000 2 0x2002 0x3002 demo_ring.
Proof.
  split; split.
  - exists demo_queue. split; [done |]. split; [done |]. split; [done |]. split; [done |]. split; [by vm_compute |]. by vm_compute.
  - done.
  - split; [by repeat constructor |]. apply (bool_decide_unpack (NoDup [0; 1])). by vm_compute.
  - intros a Ha. cbn [vs_translate flat_services]. unfold sizeof_desc, DIRECT_OFFSET in *. by rewrite (proj2 (Z.leb_gt _ a)) by lia.
  - by vm_compute.
  - by vm_compute.
  - lia.
  - right. by vm_compute.
  - right. by vm_compute.
Qed.

Lemma virtio_command_lost_witness : @virtio_gpu_send_command unit (flat_services id) 1000 0x5000 0x8000 24 0x9000 24 demo_ring = Err Hang.
Proof.
  destruct (demo_ring_ok id) as [Hok Hr].
  by apply (virtio_command_lost (H := flat_services id) 0x5000 0x1000 2 [] 0x8000 24 0x9000 24 0x8000 0x9000 demo_ring eq_refl eq_refl ltac:(done) ltac:(done) ltac:(done) ltac:(done)
    1000 0 1 demo_queue 0x2002 0x3002).
Defined.

