(* ===== verification/Ahci.v ===== *)
(** The disk driver ([drivers/storage/ahci.c]): commands laid out in memory for the
    controller, the thread that waits for one, and the interrupt handler that
    wakes it. *)
From S2P Require Import Prelude Interfaces Cpu DList CString Sched Mutex.

(** * Constants *)

Definition AHCI_MAX_PRDT : Z := 64.
Definition AHCI_DEV_SATA : Z := 0x00000101.
Definition ATA_CMD_READ_DMA_EXT : Z := 0x25.
Definition ATA_CMD_WRITE_DMA_EXT : Z := 0x35.

(** Offsets from [ahci_regs] of [hba_mem_t], and from a port of [hba_port_t]. *)
Definition HBA_IS : Z := 0x08.
Definition HBA_PI : Z := 0x0C.
Definition HBA_PORTS : Z := 0x100.
Definition sizeof_port : Z := 0x80.
Definition PORT_CLB : Z := 0x00.
Definition PORT_CLBU : Z := 0x04.
Definition PORT_FB : Z := 0x08.
Definition PORT_FBU : Z := 0x0C.
Definition PORT_IS : Z := 0x10.
Definition PORT_IE : Z := 0x14.
Definition PORT_CMD : Z := 0x18.
Definition PORT_TFD : Z := 0x20.
Definition PORT_SIG : Z := 0x24.
Definition PORT_SSTS : Z := 0x28.
Definition PORT_CI : Z := 0x38.

(** Offsets in [ahci_cmd_header_t], [ahci_cmd_table_t] and [ahci_prdt_entry_t]. *)
Definition sizeof_cmd_header : Z := 32.
Definition HEAD_PRDTL : Z := 2.
Definition HEAD_CTBA : Z := 8.
Definition HEAD_CTBAU : Z := 12.
Definition TABLE_PRDT : Z := 0x80.
Definition sizeof_prdt_entry : Z := 16.

(** * State *)

(** The two commands, each with a slot, a mutex and a thread of its own. *)
Inductive dir : Type := Read | Write.
#[export] Instance dir_eq_dec : EqDecision dir.
Proof. solve_decision. Defined.
Definition slot (d : dir) : Z := match d with Read => 0 | Write => 1 end.

(** The registers of the controller and the page allocator, as the driver uses
    them; registers by offset. *)
Class AhciServices (St : Type) : Type := {
  a_alloc_page : M St Z;
  a_free_page : Z -> M St unit;
  hba_get : Z -> M St Z;
  hba_set : Z -> Z -> M St unit;
}.

(** The part of [ahci_controller_t] that belongs to one direction. *)
Record channel : Type := Channel { ch_mutex : mutex; blocked_thread : Z; port_is : Z }.
Record ahci (St : Type) : Type := Ahci {
  h_env : St;
  h_sched : sched;
  h_mem : memory;
  ch_read : channel;
  ch_write : channel;
}.
Arguments Ahci {St} h_env h_sched h_mem ch_read ch_write.
Arguments h_env {St} a.
Arguments h_sched {St} a.
Arguments h_mem {St} a.
Arguments ch_read {St} a.
Arguments ch_write {St} a.

Definition ch {St} (d : dir) (s : ahci St) : channel := match d with Read => ch_read s | Write => ch_write s end.
Definition set_h_env {St} (x : St) (s : ahci St) : ahci St := Ahci x (h_sched s) (h_mem s) (ch_read s) (ch_write s).
Definition set_h_sched {St} (x : sched) (s : ahci St) : ahci St := Ahci (h_env s) x (h_mem s) (ch_read s) (ch_write s).
Definition set_h_mem {St} (x : memory) (s : ahci St) : ahci St := Ahci (h_env s) (h_sched s) x (ch_read s) (ch_write s).
Definition set_ch {St} (d : dir) (x : channel) (s : ahci St) : ahci St :=
  match d with
  | Read => Ahci (h_env s) (h_sched s) (h_mem s) x (ch_write s)
  | Write => Ahci (h_env s) (h_sched s) (h_mem s) (ch_read s) x
  end.
Definition set_ch_mutex (x : mutex) (c : channel) : channel := Channel x (blocked_thread c) (port_is c).
Definition set_blocked_thread (x : Z) (c : channel) : channel := Channel (ch_mutex c) x (port_is c).
Definition set_port_is (x : Z) (c : channel) : channel := Channel (ch_mutex c) (blocked_thread c) x.

Definition l_env {St} : lens (ahci St) St := Lens h_env set_h_env.
Definition l_h_sched {St} : lens (ahci St) sched := Lens h_sched set_h_sched.
Definition l_h_cpu {St} : lens (ahci St) cpu := lens_compose l_h_sched l_s_cpu.
(** A mutex of the driver and the scheduler. *)
Definition l_mutex {St} (d : dir) : lens (ahci St) msys :=
  Lens (fun s => MSys (h_sched s) (ch_mutex (ch d s))) (fun x s => set_ch d (set_ch_mutex (ms_mutex x) (ch d s)) (set_h_sched (ms_sched x) s)).

(** * Operations *)

Section Driver.
Context {St : Type} `{AhciServices St}.

Definition get_reg (a : Z) : M (ahci St) Z := zoom l_env (hba_get a).
Definition set_reg (a v : Z) : M (ahci St) unit := zoom l_env (hba_set a v).
Definition upd_mem (f : memory -> memory) : M (ahci St) unit := modify (fun s => set_h_mem (f (h_mem s)) s).
Definition upd_ch (d : dir) (f : channel -> channel) : M (ahci St) unit := modify (fun s => set_ch d (f (ch d s)) s).

(** ** A port at boot *)

(** Whether the loop goes on: one of two bits of the command register is set. *)
Definition port_busy (port : Z) : M (ahci St) bool :=
  cr ← get_reg (port + PORT_CMD);
  if truthy (Z.land cr (Z.shiftl 1 15)) then mret true else fr ← get_reg (port + PORT_CMD); mret (truthy (Z.land fr (Z.shiftl 1 14))).
Fixpoint port_idle (fuel : nat) (port : Z) : M (ahci St) unit :=
  again ← port_busy port;
  if (again : bool) then match fuel with O => fail Hang | S fuel' => port_idle fuel' port end else mret tt.

Definition ahci_stop_port (fuel : nat) (port : Z) : M (ahci St) unit :=
  cmd ← get_reg (port + PORT_CMD); set_reg (port + PORT_CMD) (Z.ldiff cmd (Z.shiftl 1 0));;
  cmd ← get_reg (port + PORT_CMD); set_reg (port + PORT_CMD) (Z.ldiff cmd (Z.shiftl 1 4));;
  port_idle fuel port.

Fixpoint device_ready (fuel : nat) (port : Z) : M (ahci St) unit :=
  tfd ← get_reg (port + PORT_TFD);
  if truthy (Z.land tfd (Z.lor (Z.shiftl 1 7) (Z.shiftl 1 3))) then match fuel with O => fail Hang | S fuel' => device_ready fuel' port end
  else mret tt.

Definition ahci_start_port (fuel : nat) (port : Z) : M (ahci St) unit :=
  device_ready fuel port;;
  cmd ← get_reg (port + PORT_CMD); set_reg (port + PORT_CMD) (Z.lor cmd (Z.shiftl 1 0));;
  cmd ← get_reg (port + PORT_CMD); set_reg (port + PORT_CMD) (Z.lor cmd (Z.shiftl 1 4)).

Definition ahci_init_port (fuel : nat) (port : Z) : M (ahci St) unit :=
  ahci_stop_port fuel port;;
  phys_page ← zoom l_env a_alloc_page;
  upd_mem (memset 4096 (u64 (phys_page + DIRECT_OFFSET)) 0);;
  set_reg (port + PORT_CLB) (Z.land phys_page 0xFFFFFFFF);;
  set_reg (port + PORT_CLBU) (u32 (Z.shiftr phys_page 32));;
  set_reg (port + PORT_FB) (Z.land (u64 (phys_page + 1024)) 0xFFFFFFFF);;
  set_reg (port + PORT_FBU) (u32 (Z.shiftr (u64 (phys_page + 1024)) 32));;
  ie ← get_reg (port + PORT_IE); set_reg (port + PORT_IE) (Z.lor ie (Z.lor (Z.shiftl 1 0) (Z.shiftl 1 5)));;
  ahci_start_port fuel port.

Definition probe_port (fuel : nat) (i : Z) : M (ahci St) unit :=
  pi ← get_reg HBA_PI;
  when (Z.testbit pi i) (
    let port := HBA_PORTS + sizeof_port * i in
    ssts ← get_reg (port + PORT_SSTS);
    if negb (Z.land ssts 0x0F =? 0x03) then mret tt
    else
      sig ← get_reg (port + PORT_SIG);
      when (sig =? AHCI_DEV_SATA) (ahci_init_port fuel port)).
Definition probe_ahci_ports (fuel : nat) : M (ahci St) unit := for_loop 32 0 (probe_port fuel).

(** ** Commands *)

Definition read_page_addr (pages : list Z) (i : Z) : M (ahci St) Z :=
  match pages !! Z.to_nat i with Some p => mret p | None => fail Fault end.

(** The loop over the pages, [n] to go: the entry [i] of the table describes the
    next at most 4096 of the [bytes_left] bytes. *)
Definition put_prdt (e page chunk_size last : Z) (m : memory) : memory :=
  let m := store32 m e (Z.land page 0xFFFFFFFF) in
  let m := store32 m (e + 4) (u32 (Z.shiftr page 32)) in
  let m := store32 m (e + 12) (Z.lor (Z.land (load32 m (e + 12)) 0xFFC00000) (Z.land (u32 (chunk_size - 1)) 0x3FFFFF)) in
  store32 m (e + 12) (Z.lor (Z.land (load32 m (e + 12)) 0x7FFFFFFF) (Z.shiftl last 31)).
Fixpoint fill_prdt (n : nat) (i bytes_left cmd_table : Z) (pages : list Z) (page_count : Z) : M (ahci St) unit :=
  match n with
  | O => mret tt
  | S n' =>
      page ← read_page_addr pages i;
      let chunk_size := u32 (if 4096 <? bytes_left then 4096 else bytes_left) in
      let e := cmd_table + TABLE_PRDT + sizeof_prdt_entry * i in
      upd_mem (put_prdt e page chunk_size (if i =? page_count - 1 then 1 else 0));;
      fill_prdt n' (i + 1) (bytes_left - chunk_size) cmd_table pages page_count
  end.

(** The header of the command and the FIS. *)
Definition put_header (head phys_cmd_table : Z) (w page_count : Z) (m : memory) : memory :=
  let m := store32 m (head + HEAD_CTBA) (Z.land phys_cmd_table 0xFFFFFFFF) in
  let m := store32 m (head + HEAD_CTBAU) (u32 (Z.shiftr phys_cmd_table 32)) in
  let m := store8 m head (Z.lor (Z.land (m @@ head) 0xE0) 5) in
  let m := store8 m head (Z.lor (Z.land (m @@ head) 0xBF) (Z.shiftl w 6)) in
  store16 m (head + HEAD_PRDTL) (u16 page_count).
Definition put_fis (fis command lba seccount : Z) (m : memory) : memory :=
  let m := store8 m fis 0x27 in
  let m := store8 m (fis + 1) (Z.lor (m @@ (fis + 1)) 0x80) in
  let m := store8 m (fis + 2) command in
  let m := store8 m (fis + 7) (Z.shiftl 1 6) in
  let m := store8 m (fis + 4) (Z.land lba 0xFF) in
  let m := store8 m (fis + 5) (Z.land (Z.shiftr lba 8) 0xFF) in
  let m := store8 m (fis + 6) (Z.land (Z.shiftr lba 16) 0xFF) in
  let m := store8 m (fis + 8) (Z.land (Z.shiftr lba 24) 0xFF) in
  let m := store8 m (fis + 9) (Z.land (Z.shiftr lba 32) 0xFF) in
  let m := store8 m (fis + 10) (Z.land (Z.shiftr lba 40) 0xFF) in
  let m := store8 m (fis + 12) (Z.land seccount 0xFF) in
  store8 m (fis + 13) (Z.land (Z.shiftr seccount 8) 0xFF).
Definition ata_command (d : dir) : Z := match d with Read => ATA_CMD_READ_DMA_EXT | Write => ATA_CMD_WRITE_DMA_EXT end.
Definition w_bit (d : dir) : Z := match d with Read => 0 | Write => 1 end.

(** The start of both functions. A thread that has to wait for the mutex gives
    way to the one whose stack pointer is returned, and goes on with
    [ahci_prepare] when it holds the mutex. *)
Inductive entered : Type := Refused | Waits (rsp : Z) | Holds.
Definition ahci_enter (d : dir) (sstacks rsp page_count : Z) : M (ahci St) entered :=
  if AHCI_MAX_PRDT <? page_count then mret Refused
  else r ← zoom (l_mutex d) (mutex_lock sstacks rsp); mret (match r with Some r => Waits r | None => Holds end).

(** The command in memory; the address of its table. *)
Definition ahci_prepare (d : dir) (port lba seccount : Z) (pages : list Z) (page_count : Z) : M (ahci St) Z :=
  set_reg (port + PORT_IS) 0xFFFFFFFF;;
  clbu ← get_reg (port + PORT_CLBU);
  clb ← get_reg (port + PORT_CLB);
  let phys_cmd_list := Z.lor (Z.shiftl clbu 32) clb in
  let head := u64 (phys_cmd_list + DIRECT_OFFSET) + sizeof_cmd_header * slot d in
  phys_cmd_table ← zoom l_env a_alloc_page;
  let cmd_table := u64 (phys_cmd_table + DIRECT_OFFSET) in
  upd_mem (memset 4096 cmd_table 0);;
  upd_mem (put_header head phys_cmd_table (w_bit d) page_count);;
  fill_prdt (Z.to_nat page_count) 0 (u32 (seccount * 512)) cmd_table pages page_count;;
  upd_mem (put_fis cmd_table (ata_command d) lba seccount);;
  mret phys_cmd_table.

(** The thread blocks and issues the command with interrupts off; then it yields. *)
Definition ahci_block (d : dir) (port : Z) : M (ahci St) unit :=
  saved_rflags ← read_rflags l_h_cpu;
  write_rflags l_h_cpu (Z.ldiff saved_rflags 0x200);;
  t ← gets (fun s => current_thread (h_sched s));
  upd_ch d (set_blocked_thread t);;
  zoom l_h_sched (upd_thread t (set_state BLOCKED));;
  set_reg (port + PORT_CI) (Z.shiftl 1 (slot d));;
  write_rflags l_h_cpu saved_rflags.
Definition ahci_issue (d : dir) (sstacks rsp port : Z) : M (ahci St) Z :=
  ahci_block d port;;
  zoom l_h_sched (scheduler_handler sstacks rsp).

(** After the thread was woken. *)
Definition ahci_finish (d : dir) (phys_cmd_table : Z) : M (ahci St) Z :=
  pis ← gets (fun s => port_is (ch d s));
  let status := if truthy (Z.land pis (Z.shiftl 1 30)) then -1 else 0 in
  zoom l_env (a_free_page phys_cmd_table);;
  zoom (l_mutex d) mutex_unlock;;
  mret status.

Definition ahci_read_prepare := ahci_prepare Read.
Definition ahci_read_issue := ahci_issue Read.
Definition ahci_read_finish := ahci_finish Read.
Definition ahci_write_prepare := ahci_prepare Write.
Definition ahci_write_issue := ahci_issue Write.
Definition ahci_write_finish := ahci_finish Write.

(** ** The interrupt *)

Definition handle (d : dir) (port pis : Z) : M (ahci St) unit :=
  done ← (if truthy (Z.land pis (Z.shiftl 1 30)) then mret true
          else ci ← get_reg (port + PORT_CI); mret (Z.land ci (Z.shiftl 1 (slot d)) =? 0));
  when (done : bool) (
    upd_ch d (set_port_is pis);;
    t ← gets (fun s => blocked_thread (ch d s));
    when (truthy t) (
      zoom l_h_sched (upd_thread t (set_state READY));;
      zoom l_h_sched (enqueue_thread t);;
      upd_ch d (set_blocked_thread 0))).

Definition ahci_handler : M (ahci St) unit :=
  irq ← get_reg HBA_IS;
  when (truthy (Z.land irq (Z.shiftl 1 0))) (
    let port := HBA_PORTS in
    pis ← get_reg (port + PORT_IS);
    set_reg (port + PORT_IS) pis;;
    handle Read port pis;;
    handle Write port pis);;
  set_reg HBA_IS irq.

End Driver.

(** * Specification *)

(** A command as the controller reads it from memory: the header in the list, the
    FIS and the regions of memory in the table. *)
Record command : Type := Command { c_write : bool; c_lba : Z; c_count : Z; c_regions : list (Z * Z) }.
Definition header_at (m : memory) (list_page k : Z) : Z := list_page + DIRECT_OFFSET + sizeof_cmd_header * k.
Definition region_at (m : memory) (e : Z) : Z * Z := (load64 m e, load32 m (e + 12) mod 2 ^ 22 + 1).
Definition lba_at (m : memory) (fis : Z) : Z :=
  m @@ (fis + 4) + 2 ^ 8 * m @@ (fis + 5) + 2 ^ 16 * m @@ (fis + 6) + 2 ^ 24 * m @@ (fis + 8) + 2 ^ 32 * m @@ (fis + 9) + 2 ^ 40 * m @@ (fis + 10).
Definition command_at (m : memory) (list_page k : Z) : option command :=
  let h := header_at m list_page k in
  let t := load64 m (h + HEAD_CTBA) + DIRECT_OFFSET in
  let w := Z.testbit (m @@ h) 6 in
  if (m @@ h mod 2 ^ 5 =? 5) && (m @@ t =? 0x27) && Z.testbit (m @@ (t + 1)) 7 &&
     (m @@ (t + 2) =? if w then ATA_CMD_WRITE_DMA_EXT else ATA_CMD_READ_DMA_EXT) && (m @@ (t + 7) =? 0x40)
  then Some (Command w (lba_at m t) (m @@ (t + 12) + 2 ^ 8 * m @@ (t + 13))
    ((fun i => region_at m (t + TABLE_PRDT + sizeof_prdt_entry * i)) <$> seqZ 0 (load16 m (h + HEAD_PRDTL))))
  else None.

(** What the driver asks for: the pages, each with what is left of the bytes, at
    most 4096; a page beyond them is given a length of 4 MiB. *)
Definition region_size (left : Z) : Z := if left =? 0 then 2 ^ 22 else Z.min 4096 left.
Fixpoint regions (pages : list Z) (left : Z) : list (Z * Z) :=
  match pages with [] => [] | p :: pages' => (p, region_size left) :: regions pages' (left - Z.min 4096 left) end.
Definition is_write (d : dir) : bool := match d with Read => false | Write => true end.

(** The registers of the controller, as the specification of AHCI says: status
    registers are cleared by writing ones, commands are issued by writing ones,
    and two bits of the command register belong to the controller. *)
Definition port_reg (a : Z) : Z := if a <? HBA_PORTS then -1 else (a - HBA_PORTS) mod sizeof_port.
Definition hba_written (a v : Z) (f : Z -> Z) (x : Z) : Z :=
  if decide (x = a) then
    if (a =? HBA_IS) || (port_reg a =? PORT_IS) then Z.ldiff (f a) v
    else if port_reg a =? PORT_CI then Z.lor (f a) v
    else if port_reg a =? PORT_CMD then Z.ldiff v (2 ^ 14 + 2 ^ 15)
    else v
  else f x.
(** The bits of registers that say that the controller or the disk is busy. *)
Definition busy_bits (a : Z) : Z :=
  if port_reg a =? PORT_CMD then 2 ^ 14 + 2 ^ 15 else if port_reg a =? PORT_TFD then 2 ^ 3 + 2 ^ 7 else 0.

(** [dev_ok (n, k) f s]: [n] pages can be had, the controller stays busy for [k] more
    reads of a busy bit, and otherwise its registers read as [f]. *)
Class AhciLaws (St : Type) `{AhciServices St} : Type := {
  dev_ok : nat * nat -> (Z -> Z) -> St -> Prop;
  dev_page : St -> Z -> Prop;
  dev_ok_ext b f g s : dev_ok b f s -> (forall x, g x = f x) -> dev_ok b g s;
  wp_a_alloc_page n k f s : dev_ok (S n, k) f s ->
    wp a_alloc_page (fun r s' => dev_ok (n, k) f s' /\ 0 < r < 2 ^ 46 /\ r mod 4096 = 0 /\ ~ dev_page s r /\
      forall p, dev_page s' p <-> p = r \/ dev_page s p) s;
  wp_a_free_page n k f p s : dev_ok (n, k) f s -> dev_page s p ->
    wp (a_free_page p) (fun _ s' => dev_ok (S n, k) f s' /\ forall q, dev_page s' q <-> q <> p /\ dev_page s q) s;
  wp_hba_get b f a s : dev_ok b f s ->
    wp (hba_get a) (fun x s' => (forall p, dev_page s' p <-> dev_page s p) /\
      (x = f a /\ dev_ok b f s' \/
       exists k y, b.2 = S k /\ busy_bits a <> 0 /\ x = Z.lor (f a) (Z.land y (busy_bits a)) /\ dev_ok (b.1, k) f s')) s;
  wp_hba_set b f a v s : dev_ok b f s ->
    wp (hba_set a v) (fun _ s' => dev_ok b (hba_written a v f) s' /\ forall p, dev_page s' p <-> dev_page s p) s;
}.

(** * Lemmas *)

(** ** Memory *)

Lemma memset_only n a c m : only_bytes a (a + Z.of_nat n) m (memset n a c m).
Proof. intros x Hx. by rewrite memset_spec, decide_False. Qed.

Lemma only_bytes_store8 a b m p v : a <= p < b -> only_bytes a b m (store8 m p v).
Proof. intros Hp x Hx. rewrite rd_store8, decide_False; [done | lia]. Qed.
Lemma only_bytes_store16 a b m p v : a <= p -> p + 2 <= b -> only_bytes a b m (store16 m p v).
Proof. intros H1 H2 x Hx. by rewrite rd_store16, !decide_False by lia. Qed.
Lemma only_bytes_store32 a b m p v : a <= p -> p + 4 <= b -> only_bytes a b m (store32 m p v).
Proof. intros H1 H2 x Hx. by rewrite rd_store32, decide_False by lia. Qed.

Lemma put_prdt_only e page chunk last m : only_bytes e (e + 16) m (put_prdt e page chunk last m).
Proof.
  unfold put_prdt. cbv zeta.
  do 3 (eapply only_bytes_trans; [| apply only_bytes_store32; lia]). apply only_bytes_store32; lia.
Qed.

Lemma put_header_only h t w n m : only_bytes h (h + 32) m (put_header h t w n m).
Proof.
  unfold put_header. cbv zeta. unfold HEAD_CTBA, HEAD_CTBAU, HEAD_PRDTL.
  eapply only_bytes_trans; [| apply only_bytes_store16; lia]. do 2 (eapply only_bytes_trans; [| apply only_bytes_store8; lia]).
  eapply only_bytes_trans; [| apply only_bytes_store32; lia]. apply only_bytes_store32; lia.
Qed.

Lemma put_fis_only t c l n m : only_bytes t (t + 20) m (put_fis t c l n m).
Proof.
  unfold put_fis. cbv zeta. do 11 (eapply only_bytes_trans; [| apply only_bytes_store8; lia]). apply only_bytes_store8; lia.
Qed.

Lemma fits_shiftr x n : 0 <= n -> 0 <= x < 2 ^ n <-> 0 <= x /\ Z.shiftr x n = 0.
Proof.
  intros Hn. rewrite Z.shiftr_div_pow2 by lia. split.
  - intros Hx. split; [lia | by apply Z.div_small].
  - intros [H0 E]. split; [done |]. apply Z.div_small_iff in E; [| lia]. pose proof (Z.pow_pos_nonneg 2 n). lia.
Qed.
Lemma lor_fits x y n : 0 <= n -> 0 <= x < 2 ^ n -> 0 <= y < 2 ^ n -> 0 <= Z.lor x y < 2 ^ n.
Proof.
  intros Hn Hx Hy. apply fits_shiftr in Hx, Hy; [| done..]. apply fits_shiftr; [done |]. split; [apply Z.lor_nonneg; lia |].
  rewrite Z.shiftr_lor, (proj2 Hx), (proj2 Hy). done.
Qed.
Lemma land_fits x y n : 0 <= n -> 0 <= y < 2 ^ n -> 0 <= Z.land x y < 2 ^ n.
Proof.
  intros Hn Hy. apply fits_shiftr in Hy; [| done..]. apply fits_shiftr; [done |]. split; [apply Z.land_nonneg; lia |].
  rewrite Z.shiftr_land, (proj2 Hy). apply Z.land_0_r.
Qed.

Lemma dbc_bits old x last : (Z.lor (Z.land (Z.lor (Z.land old 0xFFC00000) (Z.land x 0x3FFFFF)) 0x7FFFFFFF) (Z.shiftl last 31)) mod 2 ^ 22 = x mod 2 ^ 22.
Proof.
  change 0xFFC00000 with (Z.shiftl (Z.ones 10) 22). change 0x3FFFFF with (Z.ones 22). change 0x7FFFFFFF with (Z.ones 31).
  apply Z.bits_inj'. intros n Hn. destruct (Z.ltb_spec n 22); [| by rewrite !Z.mod_pow2_bits_high by lia].
  rewrite !Z.mod_pow2_bits_low, !Z.lor_spec, !Z.land_spec, Z.lor_spec, !Z.land_spec, !Z.shiftl_spec by lia.
  rewrite !(Z.testbit_neg_r _ (n - _)), !Z.testbit_ones_nonneg by lia. rewrite !(proj2 (Z.ltb_lt _ _)) by lia.
  by rewrite andb_false_r, !andb_true_r, orb_false_r.
Qed.

Lemma put_prdt_region e page chunk last m : 0 <= page < 2 ^ 64 -> 0 <= last <= 1 ->
  region_at (put_prdt e page chunk last m) e = (page, u32 (chunk - 1) mod 2 ^ 22 + 1).
Proof.
  intros Hp Hl. unfold region_at, put_prdt, load64. cbv zeta.
  rewrite !(load_store32 _ _ e), !(load_store32 _ _ (e + 4)), !(load_store32 _ _ (e + 12)) by
    (lia || apply u32_range || (apply land_fits; lia) || (apply lor_fits; [lia | apply land_fits; lia | rewrite Z.shiftl_mul_pow2; lia]) ||
     (apply lor_fits; [lia | apply land_fits; lia | apply land_fits; lia])).
  repeat first [rewrite decide_False by lia | rewrite decide_True by lia]. rewrite dbc_bits. f_equal.
  rewrite (land_mask _ 32 0xFFFFFFFF), Z.shiftr_div_pow2 by (done || lia). unfold u32. clear - Hp. dlia.
Qed.

Lemma load32_frame a b m m' e : only_bytes a b m m' -> b <= e \/ e + 4 <= a -> load32 m' e = load32 m e.
Proof. intros Hm He. unfold load32. by rewrite !Hm by lia. Qed.

Lemma region_frame a b m m' e : only_bytes a b m m' -> b <= e \/ e + 16 <= a -> region_at m' e = region_at m e.
Proof. intros Hm He. unfold region_at, load64, load32. by rewrite !Hm by lia. Qed.

Lemma region_size_spec left : 0 <= left < 2 ^ 32 ->
  u32 (u32 (if 4096 <? left then 4096 else left) - 1) mod 2 ^ 22 + 1 = region_size left /\ u32 (if 4096 <? left then 4096 else left) = Z.min 4096 left.
Proof.
  intros Hl. assert (u32 (if 4096 <? left then 4096 else left) = Z.min 4096 left) as E by (destruct (Z.ltb_spec 4096 left); rewrite u32_small; lia).
  rewrite E. split; [| done]. unfold region_size. destruct (Z.eqb_spec left 0) as [->|]; [done |]. rewrite u32_small by lia. rewrite Z.mod_small; lia.
Qed.

Lemma put_header_fields h t w n m : 0 <= t < 2 ^ 64 -> 0 <= n < 2 ^ 16 -> 0 <= w <= 1 -> let m' := put_header h t w n m in
  m' @@ h mod 2 ^ 5 = 5 /\ Z.testbit (m' @@ h) 6 = (w =? 1) /\ load16 m' (h + HEAD_PRDTL) = n /\ load64 m' (h + HEAD_CTBA) = t.
Proof.
  intros Ht Hn Hw m'. subst m'. unfold put_header, HEAD_CTBA, HEAD_CTBAU, HEAD_PRDTL. cbv zeta.
  assert (forall b, let x := Z.lor (Z.land (Z.lor (Z.land b 0xE0) 5 mod 256) 0xBF) (Z.shiftl w 6) mod 256 in x mod 2 ^ 5 = 5 /\ Z.testbit x 6 = (w =? 1)) as Hx.
  { intros b. replace (Z.land b 0xE0) with (Z.land (Z.land b 0xE0) 0xE0) by (by rewrite <- Z.land_assoc).
    pose proof (land_fits b 0xE0 8 ltac:(lia) ltac:(lia)) as Hy. set (y := Z.land b 0xE0) in *. clearbody y.
    assert (w = 0 \/ w = 1) as [-> | ->] by lia.
    - pose proof (forall_Z_lt 256 (fun y => let x := Z.lor (Z.land (Z.lor (Z.land y 0xE0) 5 mod 256) 0xBF) (Z.shiftl 0 6) mod 256 in (x mod 2 ^ 5 =? 5) && negb (Z.testbit x 6))) as H.
      specialize (H ltac:(vm_compute; reflexivity) y Hy). cbv zeta in *. apply andb_true_iff in H as [H1%Z.eqb_eq H2%negb_true_iff]. split; [exact H1 | exact H2].
    - pose proof (forall_Z_lt 256 (fun y => let x := Z.lor (Z.land (Z.lor (Z.land y 0xE0) 5 mod 256) 0xBF) (Z.shiftl 1 6) mod 256 in (x mod 2 ^ 5 =? 5) && Z.testbit x 6)) as H.
      specialize (H ltac:(vm_compute; reflexivity) y Hy). cbv zeta in *. apply andb_true_iff in H as [H1%Z.eqb_eq H2]. split; [exact H1 | exact H2]. }
  match goal with |- ?m' @@ h mod _ = _ /\ _ => assert (exists b, m' @@ h = Z.lor (Z.land (Z.lor (Z.land b 0xE0) 5 mod 256) 0xBF) (Z.shiftl w 6) mod 256) as [b Eb] end.
  { exists (m @@ h). rd_stores. done. }
  rewrite Eb. destruct (Hx b) as [H1 H2]. split; [done |]. split; [done |]. split.
  - unfold load16. rd_stores. rewrite u16_small by done. clear - Hn. dlia.
  - set (m2 := store32 (store32 m _ _) _ _). match goal with |- load64 ?m' _ = _ => assert (only_bytes h (h + 4) m2 m') as Ho end.
    { eapply only_bytes_trans; [| apply only_bytes_store16; lia]. eapply only_bytes_trans; [| apply only_bytes_store8; lia]. apply only_bytes_store8; lia. }
    unfold load64. rewrite !(load32_frame _ _ _ _ _ Ho) by lia. subst m2. replace (h + 8 + 4) with (h + 12) by lia.
    rewrite !load_store32 by (lia || apply u32_range || (apply land_fits; lia)). repeat first [rewrite decide_False by lia | rewrite decide_True by lia].
    rewrite (land_mask _ 32 0xFFFFFFFF), Z.shiftr_div_pow2 by (done || lia). unfold u32. clear - Ht. dlia.
Qed.

Lemma put_fis_fields t c lba n m : 0 <= c < 256 -> 0 <= lba < 2 ^ 48 -> 0 <= n < 2 ^ 16 -> m @@ (t + 1) = 0 -> let m' := put_fis t c lba n m in
  m' @@ t = 0x27 /\ Z.testbit (m' @@ (t + 1)) 7 = true /\ m' @@ (t + 2) = c /\ m' @@ (t + 7) = 0x40 /\ lba_at m' t = lba /\
  m' @@ (t + 12) + 2 ^ 8 * m' @@ (t + 13) = n.
Proof.
  intros Hc Hl Hn H1 m'. subst m'. unfold put_fis. cbv zeta.
  rewrite !(land_mask _ 8 0xFF), !Z.shiftr_div_pow2 by (done || lia). split_and!.
  - rd_stores. done.
  - rd_stores. rewrite H1. done.
  - rd_stores. by apply Z.mod_small.
  - rd_stores. done.
  - unfold lba_at. rd_stores. clear - Hl. dlia.
  - rd_stores. clear - Hn. dlia.
Qed.

(** ** Laying out a command *)

#[local] Opaque memset.

Section prepare.
Context {St : Type} `{AhciLaws St}.
Implicit Types s : ahci St.

Lemma wp_upd_mem (f : memory -> memory) (Q : unit -> ahci St -> Prop) s : Q tt (set_h_mem (f (h_mem s)) s) -> wp (upd_mem f) Q s.
Proof. exact id. Qed.

Lemma set_h_mem_twice m m' s : set_h_mem m (set_h_mem m' s) = set_h_mem m s.
Proof. done. Qed.

Lemma wp_fill_prdt rest pre left t count s : 0 <= left < 2 ^ 32 -> Forall (fun p => 0 <= p < 2 ^ 64) rest ->
  let i := Z.of_nat (length pre) in
  wp (fill_prdt (length rest) i left t (pre ++ rest) count) (fun _ s' => s' = set_h_mem (h_mem s') s /\
    only_bytes (t + TABLE_PRDT + 16 * i) (t + TABLE_PRDT + 16 * (i + Z.of_nat (length rest))) (h_mem s) (h_mem s') /\
    forall j r, regions rest left !! j = Some r -> region_at (h_mem s') (t + TABLE_PRDT + 16 * (i + Z.of_nat j)) = r) s.
Proof.
  revert pre left s. induction rest as [|p rest IH]; intros pre left s Hl Hp i; cbn [length fill_prdt].
  - apply wp_ret. split; [by destruct s |]. split; [by intros x Hx | by intros [|j] r].
  - apply Forall_cons in Hp as [Hp Hps]. unfold read_page_addr at 1. assert ((pre ++ p :: rest) !! Z.to_nat i = Some p) as -> by (unfold i; rewrite Nat2Z.id; by apply list_lookup_middle).
    apply wp_bind, wp_ret. cbv zeta. destruct (region_size_spec left Hl) as [Hsz ->]. unfold sizeof_prdt_entry.
    apply wp_bind, wp_upd_mem. set (e := t + TABLE_PRDT + 16 * i). set (m1 := put_prdt _ _ _ _ _).
    assert (region_at m1 e = (p, region_size left)) as He.
    { unfold m1. rewrite put_prdt_region by (done || (destruct (i =? count - 1); lia)). by rewrite <- Hsz, (proj2 (region_size_spec left Hl)). }
    pose proof (put_prdt_only e p (Z.min 4096 left) (if i =? count - 1 then 1 else 0) (h_mem s)) as Ho1. fold m1 in Ho1. clearbody m1.
    replace (i + 1) with (Z.of_nat (length (pre ++ [p]))) by (rewrite length_app; cbn; lia).
    rewrite (cons_middle p pre rest), (app_assoc pre).
    eapply wp_mono; [apply IH; [lia | done] |]. cbv beta. intros [] s' (Es & Ho & Hr).
    replace (Z.of_nat (length (pre ++ [p]))) with (i + 1) in * by (rewrite length_app; cbn; lia). cbn [h_mem set_h_mem] in *.
    split; [by rewrite set_h_mem_twice in Es |]. split.
    + eapply only_bytes_trans; (eapply only_bytes_weaken; [eassumption | lia | lia]).
    + intros [|j] r Hj; cbn [regions lookup] in Hj.
      * injection Hj as <-. rewrite Z.add_0_r. rewrite (region_frame _ _ _ _ _ Ho) by (fold e; lia). exact He.
      * replace (i + Z.of_nat (S j)) with (i + 1 + Z.of_nat j) by lia. by apply Hr.
Qed.

Lemma length_regions pages left : length (regions pages left) = length pages.
Proof. revert left. induction pages; intros; cbn; auto. Qed.

(** The command that the controller reads. *)
Lemma command_at_built m L d t lba n regs : let h := header_at m L (slot d) in
  m @@ h mod 2 ^ 5 = 5 -> Z.testbit (m @@ h) 6 = is_write d -> load16 m (h + HEAD_PRDTL) = Z.of_nat (length regs) -> load64 m (h + HEAD_CTBA) = t ->
  let f := t + DIRECT_OFFSET in
  m @@ f = 0x27 -> Z.testbit (m @@ (f + 1)) 7 = true -> m @@ (f + 2) = ata_command d -> m @@ (f + 7) = 0x40 -> lba_at m f = lba ->
  m @@ (f + 12) + 2 ^ 8 * m @@ (f + 13) = n ->
  (forall j r, regs !! j = Some r -> region_at m (f + TABLE_PRDT + 16 * Z.of_nat j) = r) ->
  command_at m L (slot d) = Some (Command (is_write d) lba n regs).
Proof.
  intros h E1 E2 E3 E4 f F1 F2 F3 F4 F5 F6 Hr. unfold command_at. fold h. rewrite E1, E2, E3, E4. fold f. rewrite F1, F2, F3, F4, F5, F6.
  assert ((ata_command d =? (if is_write d then ATA_CMD_WRITE_DMA_EXT else ATA_CMD_READ_DMA_EXT)) = true) as -> by by destruct d.
  cbn [Z.eqb Pos.eqb andb]. do 2 f_equal. apply list_eq. intros j. rewrite list_lookup_fmap.
  destruct (decide (j < length regs)%nat) as [Hj|Hj].
  - destruct (lookup_lt_is_Some_2 regs j Hj) as [r Er]. rewrite Er. rewrite <- (Nat2Z.id j), lookup_seqZ_lt by lia. cbn. f_equal.
    rewrite Z.add_0_l, Nat2Z.id. by apply Hr.
  - rewrite (lookup_ge_None_2 regs) by lia. rewrite lookup_ge_None_2; [done | rewrite length_seqZ; lia].
Qed.

(** Registers of a port. *)
Definition port_ok (port : Z) : Prop := exists i, 0 <= i /\ port = HBA_PORTS + sizeof_port * i.

Lemma port_reg_of port off : port_ok port -> 0 <= off < sizeof_port -> port_reg (port + off) = off.
Proof.
  intros (i & Hi & ->) Ho. unfold port_reg, HBA_PORTS, sizeof_port in *. destruct (Z.ltb_spec (0x100 + 0x80 * i + off) 0x100); [lia |].
  replace (0x100 + 0x80 * i + off - 0x100) with (off + i * 0x80) by lia. rewrite Z.mod_add by done. by apply Z.mod_small.
Qed.

Lemma wp_get_quiet b f a (Q : Z -> ahci St -> Prop) s : dev_ok b f (h_env s) -> busy_bits a = 0 ->
  (forall e, dev_ok b f e -> (forall p, dev_page e p <-> dev_page (h_env s) p) -> Q (f a) (set_h_env e s)) -> wp (get_reg a) Q s.
Proof.
  intros Hd Hb HQ. apply wp_zoom. eapply wp_mono; [by apply (wp_hba_get b f a) |]. intros x e (Hp & [[-> Hd']|(k & y & _ & Hne & _)]); [| done].
  by apply HQ.
Qed.

Lemma wp_set_reg b f a v (Q : unit -> ahci St -> Prop) s : dev_ok b f (h_env s) ->
  (forall e, dev_ok b (hba_written a v f) e -> (forall p, dev_page e p <-> dev_page (h_env s) p) -> Q tt (set_h_env e s)) -> wp (set_reg a v) Q s.
Proof. intros Hd HQ. apply wp_zoom. eapply wp_mono; [by apply (wp_hba_set b f a v) |]. intros [] e [Hd' Hp]. by apply HQ. Qed.

Definition list_page_at (f : Z -> Z) (port L : Z) : Prop :=
  f (port + PORT_CLB) = L mod 2 ^ 32 /\ f (port + PORT_CLBU) = L / 2 ^ 32 /\ 0 < L < 2 ^ 46 /\ L mod 4096 = 0.

(** The whole layout, in terms of memory. *)
Lemma command_layout m1 h t d n lba sec regs m2 m3 : 0 <= t < 2 ^ 46 -> n = Z.of_nat (length regs) -> n <= 64 -> 0 <= lba < 2 ^ 48 -> 0 <= sec < 2 ^ 16 ->
  forall L, h = header_at m1 L (slot d) -> h + 32 <= t + DIRECT_OFFSET \/ t + DIRECT_OFFSET + 4096 <= h ->
  m2 = put_header h t (w_bit d) n (memset 4096 (t + DIRECT_OFFSET) 0 m1) ->
  only_bytes (t + DIRECT_OFFSET + 0x80) (t + DIRECT_OFFSET + 0x80 + 16 * n) m2 m3 ->
  (forall j r, regs !! j = Some r -> region_at m3 (t + DIRECT_OFFSET + 0x80 + 16 * Z.of_nat j) = r) ->
  let m4 := put_fis (t + DIRECT_OFFSET) (ata_command d) lba sec m3 in
  command_at m4 L (slot d) = Some (Command (is_write d) lba sec regs) /\
  forall x, ~ h <= x < h + 32 -> ~ t + DIRECT_OFFSET <= x < t + DIRECT_OFFSET + 4096 -> m4 @@ x = m1 @@ x.
Proof.
  intros Ht Hn Hn64 Hlba Hsec L Hh Hdis Em2 Ho3 Hr m4.
  pose proof (put_fis_only (t + DIRECT_OFFSET) (ata_command d) lba sec m3) as Ho4. fold m4 in Ho4.
  pose proof (put_header_only h t (w_bit d) n (memset 4096 (t + DIRECT_OFFSET) 0 m1)) as Ho2. rewrite <- Em2 in Ho2.
  pose proof (memset_only 4096 (t + DIRECT_OFFSET) 0 m1) as Ho1. change (Z.of_nat 4096) with 4096 in Ho1.
  destruct (put_header_fields h t (w_bit d) n (memset 4096 (t + DIRECT_OFFSET) 0 m1)) as (E1 & E2 & E3 & E4); [lia | lia | destruct d; cbn; lia |].
  rewrite <- Em2 in E1, E2, E3, E4.
  assert (m3 @@ (t + DIRECT_OFFSET + 1) = 0) as Hz.
  { rewrite Ho3, Ho2 by lia. rewrite memset_spec, decide_True by lia. done. }
  destruct (put_fis_fields (t + DIRECT_OFFSET) (ata_command d) lba sec m3) as (F1 & F2 & F3 & F4 & F5 & F6); [clear; by destruct d | exact Hlba | exact Hsec | exact Hz |].
  fold m4 in F1, F2, F3, F4, F5, F6.
  assert (forall x, h <= x < h + 32 -> m4 @@ x = m2 @@ x) as Hhead by (intros x Hx; rewrite Ho4, Ho3 by lia; done).
  split.
  - eapply (command_at_built m4 L d t lba sec regs); change (header_at m4 L (slot d)) with (header_at m1 L (slot d)); rewrite <- ?Hh; unfold HEAD_PRDTL, HEAD_CTBA in *.
    + rewrite Hhead by lia. exact E1.
    + rewrite Hhead by lia. rewrite E2. by destruct d.
    + unfold load16. rewrite !Hhead by lia. rewrite <- Hn. exact E3.
    + unfold load64, load32. rewrite !Hhead by lia. exact E4.
    + exact F1.
    + exact F2.
    + exact F3.
    + exact F4.
    + exact F5.
    + exact F6.
    + intros j r Hj. rewrite (region_frame _ _ _ _ _ Ho4) by (unfold TABLE_PRDT; lia). by apply Hr.
  - intros x Hx1 Hx2. rewrite (Ho4 x), (Ho3 x), (Ho2 x), (Ho1 x) by lia. reflexivity.
Qed.

(** Two pages do not overlap, also through the direct map. *)
Lemma pages_apart L t h : 0 < L -> 0 < t -> L mod 4096 = 0 -> t mod 4096 = 0 -> t <> L -> L + DIRECT_OFFSET <= h -> h + 32 <= L + DIRECT_OFFSET + 4096 ->
  h + 32 <= t + DIRECT_OFFSET \/ t + DIRECT_OFFSET + 4096 <= h.
Proof. intros H1 H2 HL Ht Hne Hh1 Hh2. unfold DIRECT_OFFSET in *. clear -H1 H2 HL Ht Hne Hh1 Hh2. dlia. Qed.

Lemma wp_ahci_prepare n k f d port L lba sec pages s : dev_ok (S n, k) f (h_env s) -> port_ok port -> list_page_at f port L -> dev_page (h_env s) L ->
  (length pages <= 64)%nat -> Forall (fun p => 0 <= p < 2 ^ 64) pages -> 0 <= lba < 2 ^ 48 -> 0 <= sec < 2 ^ 16 ->
  wp (ahci_prepare d port lba sec pages (Z.of_nat (length pages))) (fun t s' =>
    s' = set_h_env (h_env s') (set_h_mem (h_mem s') s) /\ dev_ok (n, k) (hba_written (port + PORT_IS) 0xFFFFFFFF f) (h_env s') /\
    ~ dev_page (h_env s) t /\ (forall p, dev_page (h_env s') p <-> p = t \/ dev_page (h_env s) p) /\
    command_at (h_mem s') L (slot d) = Some (Command (is_write d) lba sec (regions pages (512 * sec))) /\
    (forall x, ~ header_at (h_mem s) L (slot d) <= x < header_at (h_mem s) L (slot d) + 32 -> ~ t + DIRECT_OFFSET <= x < t + DIRECT_OFFSET + 4096 ->
       h_mem s' @@ x = h_mem s @@ x)) s.
Proof.
  intros Hd Hport (Hclb & Hclbu & HL & HLp) Hused Hn Hpages Hlba Hsec. unfold ahci_prepare.
  set (f1 := hba_written (port + PORT_IS) 0xFFFFFFFF f).
  assert (forall off, off = 0 \/ off = 4 -> f1 (port + off) = f (port + off) /\ busy_bits (port + off) = 0) as Hf1.
  { intros off Hoff. assert (port_reg (port + off) = off) as Ep by (apply port_reg_of; [done | unfold sizeof_port; lia]).
    unfold f1, hba_written, busy_bits. rewrite Ep, decide_False by (unfold PORT_IS; lia). destruct Hoff as [-> | ->]; done. }
  apply wp_bind. eapply wp_set_reg; [exact Hd |]. fold f1. intros e1 Hd1 Hp1.
  apply wp_bind. eapply wp_get_quiet; [exact Hd1 | by apply Hf1; right |]. intros e2 Hd2 Hp2.
  apply wp_bind. eapply wp_get_quiet; [exact Hd2 | by apply Hf1; left |]. intros e3 Hd3 Hp3.
  rewrite (proj1 (Hf1 PORT_CLBU (or_intror eq_refl))), (proj1 (Hf1 PORT_CLB (or_introl eq_refl))), Hclb, Hclbu.
  assert (Z.lor (Z.shiftl (L / 2 ^ 32) 32) (L mod 2 ^ 32) = L) as ->.
  { rewrite Z.lor_comm, Z.shiftl_mul_pow2, Z.mul_comm, lor_shifted by (lia || apply Z.mod_pos_bound; lia). clear. dlia. }
  apply wp_bind, wp_zoom. eapply wp_mono; [exact (wp_a_alloc_page n k f1 e3 Hd3) |]. intros t e4 (Hd4 & Ht & Htp & Hfresh & Hp4).
  rewrite !u64_small by (unfold DIRECT_OFFSET; lia).
  assert (forall p, dev_page e3 p <-> dev_page (h_env s) p) as Hp03 by (intros p; cbn in Hp2, Hp3; by rewrite Hp3, Hp2, Hp1).
  apply wp_bind, wp_upd_mem, wp_bind, wp_upd_mem. rewrite Nat2Z.id. unfold sizeof_cmd_header.
  set (h := L + DIRECT_OFFSET + 32 * slot d). rewrite u32_small, (Z.mul_comm sec) by lia. rewrite <- (app_nil_l pages) at 2.
  apply wp_bind. eapply wp_mono; [apply (wp_fill_prdt pages [] (512 * sec) (t + DIRECT_OFFSET) (Z.of_nat (length pages))); [lia | done] |].
  cbv beta. intros [] s3 (Es3 & Ho3 & Hr3). cbn [length Z.of_nat h_mem set_h_mem set_h_env view over l_env] in Es3, Ho3, Hr3.
  apply wp_bind, wp_upd_mem, wp_ret. cbn [h_mem h_env set_h_mem].
  destruct (command_layout (h_mem s) h t d (Z.of_nat (length pages)) lba sec (regions pages (512 * sec))
    (put_header h t (w_bit d) (Z.of_nat (length pages)) (memset 4096 (t + DIRECT_OFFSET) 0 (h_mem s))) (h_mem s3)) with (L := L) as [Hc Ho];
    [lia | by rewrite length_regions | lia | done | done | done | | done | | |].
  - apply (pages_apart L t h); try lia; [| unfold h; destruct d; cbn; lia..]. intros ->. by apply Hfresh, Hp03.
  - eapply only_bytes_weaken; [exact Ho3 | unfold TABLE_PRDT; lia | unfold TABLE_PRDT; lia].
  - intros j r Hj. exact (Hr3 j r Hj).
  - assert (h_env s3 = e4) as He by (rewrite Es3; done). rewrite He. set (m4 := put_fis _ _ _ _ (h_mem s3)) in *. clearbody m4. split; [by rewrite Es3 |]. split; [exact Hd4 |]. split; [by rewrite <- Hp03 |].
    split; [intros p; by rewrite Hp4, Hp03 |]. split; [exact Hc | exact Ho].
Qed.

End prepare.

(** ** Starting a port *)

Section port.
Context {St : Type} `{AhciLaws St}.
Implicit Types s : ahci St.

Definition cmd_busy : Z := 2 ^ 14 + 2 ^ 15.

(** A read that may find the controller busy. *)
Lemma wp_get_busy b f a (Q : Z -> ahci St -> Prop) s : dev_ok b f (h_env s) ->
  (forall e k x, (k <= b.2)%nat -> dev_ok (b.1, k) f e -> (forall p, dev_page e p <-> dev_page (h_env s) p) ->
    (x = f a \/ (k < b.2)%nat) -> (exists y, x = Z.lor (f a) (Z.land y (busy_bits a))) -> Q x (set_h_env e s)) -> wp (get_reg a) Q s.
Proof.
  intros Hd HQ. apply wp_zoom. eapply wp_mono; [by apply (wp_hba_get b f a) |]. destruct b as [n k0]. cbn [fst snd] in *.
  intros x e (Hp & [[-> Hd']|(k & y & -> & _ & -> & Hd')]).
  - apply (HQ e k0); [lia | done | done | by left |]. exists 0. by rewrite Z.land_0_l, Z.lor_0_r.
  - apply (HQ e k); [lia | done | done | right; lia | by exists y].
Qed.

(** The bits the driver changes are not those that say busy. *)
Definition keeps_cmd (g : Z -> Z) : Prop := forall v w, Z.ldiff v cmd_busy = Z.ldiff w cmd_busy -> Z.ldiff (g v) cmd_busy = Z.ldiff (g w) cmd_busy.
Lemma keeps_cmd_ldiff c : keeps_cmd (fun v => Z.ldiff v c).
Proof. intros v w E. by rewrite !Z.ldiff_ldiff_l, !(Z.lor_comm c), <- !Z.ldiff_ldiff_l, E. Qed.
Lemma keeps_cmd_lor c : keeps_cmd (fun v => Z.lor v c).
Proof. intros v w E. rewrite !Z.ldiff_land, !Z.land_lor_distr_l, <- !Z.ldiff_land. by rewrite E. Qed.

Definition cmd_updated (port : Z) (g f : Z -> Z) (x : Z) : Z := if decide (x = port + PORT_CMD) then Z.ldiff (g (f x)) cmd_busy else f x.

Lemma wp_update_cmd b f port g (Q : unit -> ahci St -> Prop) s : dev_ok b f (h_env s) -> port_ok port -> keeps_cmd g ->
  (forall e k, (k <= b.2)%nat -> dev_ok (b.1, k) (cmd_updated port g f) e -> (forall p, dev_page e p <-> dev_page (h_env s) p) -> Q tt (set_h_env e s)) ->
  wp (cmd ← get_reg (port + PORT_CMD); set_reg (port + PORT_CMD) (g cmd)) Q s.
Proof.
  intros Hd Hport Hg HQ. apply wp_bind. eapply wp_get_busy; [exact Hd |]. intros e k x Hk Hd' Hp _ [y ->].
  eapply wp_set_reg; [exact Hd' |]. intros e' Hd2 Hp2. apply (HQ e' k Hk).
  - eapply dev_ok_ext; [exact Hd2 |]. intros z. unfold cmd_updated, hba_written, busy_bits. rewrite !port_reg_of by done. case_decide as E; [| done]. subst z.
    assert ((port + PORT_CMD =? HBA_IS) = false) as ->. { apply Z.eqb_neq. destruct Hport as (i & Hi & ->). unfold HBA_PORTS, sizeof_port, PORT_CMD, HBA_IS. lia. }
    change (2 ^ 14 + 2 ^ 15) with cmd_busy. cbn [PORT_CMD PORT_IS PORT_CI Z.eqb Pos.eqb orb]. apply Hg.
    rewrite (Z.ldiff_land (Z.lor _ _)), Z.land_lor_distr_l, <- !Z.ldiff_land. rewrite Z.ldiff_land, (Z.ldiff_land (Z.land y _)), <- (Z.land_assoc y), Z.land_lnot_diag, Z.land_0_r. by rewrite Z.lor_0_r.
  - intros p. by rewrite Hp2, <- Hp.
Qed.

Lemma wp_port_idle fuel port n k f (Q : unit -> ahci St -> Prop) s : (k <= fuel)%nat -> dev_ok (n, k) f (h_env s) -> port_ok port ->
  Z.land (f (port + PORT_CMD)) cmd_busy = 0 ->
  (forall e k', (k' <= k)%nat -> dev_ok (n, k') f e -> (forall p, dev_page e p <-> dev_page (h_env s) p) -> Q tt (set_h_env e s)) ->
  wp (port_idle fuel port) Q s.
Proof.
  intros Hk Hd Hport Hf HQ. revert k s Hk Hd HQ. 
  assert (forall i, i = 14 \/ i = 15 -> truthy (Z.land (f (port + PORT_CMD)) (Z.shiftl 1 i)) = false) as Hq.
  { intros i Hi. rewrite Z.shiftl_1_l, land_pow2_testbit by lia. pose proof (f_equal (fun x => Z.testbit x i) Hf) as E. cbn beta in E.
    rewrite Z.land_spec, Z.bits_0 in E. destruct Hi as [-> | ->]; by rewrite andb_true_r in E. }
  assert (forall k s (Q' : bool -> ahci St -> Prop), dev_ok (n, k) f (h_env s) ->
    (forall e k', (k' <= k)%nat -> dev_ok (n, k') f e -> (forall p, dev_page e p <-> dev_page (h_env s) p) -> Q' false (set_h_env e s)) ->
    (forall e k', (k' < k)%nat -> dev_ok (n, k') f e -> (forall p, dev_page e p <-> dev_page (h_env s) p) -> Q' true (set_h_env e s)) ->
    wp (port_busy port) Q' s) as Hstep.
  { intros k s Q' Hd H1 H2. apply wp_bind. eapply wp_get_busy; [exact Hd |]. cbn [fst snd]. intros e k1 x Hk1 Hd1 Hp1 Hx _.
    destruct (truthy (Z.land x (Z.shiftl 1 15))) eqn:E1.
    { destruct Hx as [-> | Hlt]; [by rewrite Hq in E1 by (by right) |]. apply wp_ret. by apply (H2 e k1). }
    apply wp_bind. eapply wp_get_busy; [exact Hd1 |]. cbn [fst snd]. intros e2 k2 y Hk2 Hd2 Hp2 Hy _. apply wp_ret.
    assert (forall p, dev_page e2 p <-> dev_page (h_env s) p) as Hp by (intros p; rewrite Hp2; apply Hp1).
    destruct (truthy (Z.land y (Z.shiftl 1 14))) eqn:E2; [| apply (H1 e2 k2); [lia | done | done]].
    destruct Hy as [-> | Hlt]; [by rewrite Hq in E2 by (by left) |]. apply (H2 e2 k2); [lia | done | done]. }
  induction fuel as [|fuel IH]; intros k s Hk Hd HQ; cbn [port_idle]; apply wp_bind; (eapply Hstep; [exact Hd | |]); intros e k' Hk' Hd' Hp'.
  - apply wp_ret. by apply (HQ e k').
  - lia.
  - apply wp_ret. by apply (HQ e k').
  - apply (IH k'); [lia | done |]. intros e2 k2 Hk2 Hd2 Hp2. apply (HQ e2 k2); [lia | done |]. intros p. rewrite Hp2. apply Hp'.
Qed.
Definition tfd_busy : Z := 2 ^ 3 + 2 ^ 7.
Lemma wp_device_ready fuel port n k f (Q : unit -> ahci St -> Prop) s : (k <= fuel)%nat -> dev_ok (n, k) f (h_env s) ->
  Z.land (f (port + PORT_TFD)) tfd_busy = 0 ->
  (forall e k', (k' <= k)%nat -> dev_ok (n, k') f e -> (forall p, dev_page e p <-> dev_page (h_env s) p) -> Q tt (set_h_env e s)) ->
  wp (device_ready fuel port) Q s.
Proof.
  intros Hk Hd Hf. revert k s Hk Hd. induction fuel as [|fuel IH]; intros k s Hk Hd HQ; cbn [device_ready]; apply wp_bind;
    (eapply wp_get_busy; [exact Hd |]; cbn [fst snd]; intros e k' x Hk' Hd' Hp' Hx _; change (Z.lor (Z.shiftl 1 7) (Z.shiftl 1 3)) with tfd_busy;
     destruct (truthy (Z.land x tfd_busy)) eqn:E; [destruct Hx as [-> | Hlt]; [by rewrite Hf in E |] | apply wp_ret; by apply (HQ e k')]).
  - lia.
  - apply (IH k'); [lia | done |]. intros e2 k2 Hk2 Hd2 Hp2. apply (HQ e2 k2); [lia | done |]. intros p. rewrite Hp2. apply Hp'.
Qed.

(** The registers after the port was started with the page [L]. *)
Definition port_started (port L : Z) (f : Z -> Z) (x : Z) : Z :=
  if decide (x = port + PORT_CMD) then Z.lor (f x) 0x11
  else if decide (x = port + PORT_CLB) then L mod 2 ^ 32
  else if decide (x = port + PORT_CLBU) then L / 2 ^ 32
  else if decide (x = port + PORT_FB) then (L + 1024) mod 2 ^ 32
  else if decide (x = port + PORT_FBU) then (L + 1024) / 2 ^ 32
  else if decide (x = port + PORT_IE) then Z.lor (f x) 0x21
  else f x.

Definition cmd_stopped (f : Z -> Z) (port : Z) := cmd_updated port (fun v => Z.ldiff v (Z.shiftl 1 4)) (cmd_updated port (fun v => Z.ldiff v (Z.shiftl 1 0)) f).
Definition cmd_started (f : Z -> Z) (port : Z) := cmd_updated port (fun v => Z.lor v (Z.shiftl 1 4)) (cmd_updated port (fun v => Z.lor v (Z.shiftl 1 0)) f).

Lemma cmd_stopped_at f port x : cmd_stopped f port x = if decide (x = port + PORT_CMD) then Z.ldiff (f x) (cmd_busy + 0x11) else f x.
Proof. unfold cmd_stopped, cmd_updated. case_decide; [| done]. by rewrite !Z.ldiff_ldiff_l. Qed.
Lemma cmd_started_at f port x : cmd_started f port x = if decide (x = port + PORT_CMD) then Z.lor (Z.ldiff (f x) cmd_busy) 0x11 else f x.
Proof.
  unfold cmd_started, cmd_updated. case_decide; [| done]. rewrite !Z.ldiff_land, !Z.land_lor_distr_l, <- !Z.ldiff_land, !Z.ldiff_ldiff_l, <- Z.lor_assoc. done.
Qed.

Lemma wp_ahci_stop_port fuel port n k f (Q : unit -> ahci St -> Prop) s : (k <= fuel)%nat -> dev_ok (n, k) f (h_env s) -> port_ok port ->
  (forall e k', (k' <= k)%nat -> dev_ok (n, k') (cmd_stopped f port) e -> (forall p, dev_page e p <-> dev_page (h_env s) p) -> Q tt (set_h_env e s)) ->
  wp (ahci_stop_port fuel port) Q s.
Proof.
  intros Hk Hd Hport HQ. unfold ahci_stop_port.
  apply wp_bind_assoc, wp_bind. eapply (wp_update_cmd _ _ port (fun v => Z.ldiff v (Z.shiftl 1 0))); [exact Hd | done | apply keeps_cmd_ldiff |]. cbn [fst snd]. intros e1 k1 Hk1 Hd1 Hp1.
  apply wp_bind_assoc, wp_bind. eapply (wp_update_cmd _ _ port (fun v => Z.ldiff v (Z.shiftl 1 4))); [exact Hd1 | done | apply keeps_cmd_ldiff |]. cbn [fst snd]. intros e2 k2 Hk2 Hd2 Hp2.
  eapply (wp_port_idle fuel port n k2); [lia | exact Hd2 | done | |].
  - fold (cmd_stopped f port). rewrite cmd_stopped_at, decide_True by done. rewrite Z.ldiff_land, <- Z.land_assoc. change (Z.land (Z.lnot (cmd_busy + 17)) cmd_busy) with 0. apply Z.land_0_r.
  - intros e3 k3 Hk3 Hd3 Hp3. apply (HQ e3 k3); [lia | done |]. intros p. rewrite Hp3. cbn. rewrite Hp2. apply Hp1.
Qed.

Lemma wp_ahci_start_port fuel port n k f (Q : unit -> ahci St -> Prop) s : (k <= fuel)%nat -> dev_ok (n, k) f (h_env s) -> port_ok port ->
  Z.land (f (port + PORT_TFD)) tfd_busy = 0 ->
  (forall e k', (k' <= k)%nat -> dev_ok (n, k') (cmd_started f port) e -> (forall p, dev_page e p <-> dev_page (h_env s) p) -> Q tt (set_h_env e s)) ->
  wp (ahci_start_port fuel port) Q s.
Proof.
  intros Hk Hd Hport Htfd HQ. unfold ahci_start_port. apply wp_bind. eapply (wp_device_ready fuel port n k); [done | exact Hd | done |]. intros e0 k0 Hk0 Hd0 Hp0.
  apply wp_bind_assoc, wp_bind. eapply (wp_update_cmd _ _ port (fun v => Z.lor v (Z.shiftl 1 0))); [exact Hd0 | done | apply keeps_cmd_lor |]. cbn [fst snd]. intros e1 k1 Hk1 Hd1 Hp1.
  eapply (wp_update_cmd _ _ port (fun v => Z.lor v (Z.shiftl 1 4))); [exact Hd1 | done | apply keeps_cmd_lor |]. cbn [fst snd]. intros e2 k2 Hk2 Hd2 Hp2.
  apply (HQ e2 k2); [lia | done |]. intros p. rewrite Hp2. cbn. rewrite Hp1. apply Hp0.
Qed.

Lemma cmd_bits v : Z.land v cmd_busy = 0 -> Z.lor (Z.ldiff (Z.ldiff v (cmd_busy + 0x11)) cmd_busy) 0x11 = Z.lor v 0x11.
Proof.
  intros Hv. apply Z.bits_inj'. intros i Hi. pose proof (f_equal (fun x => Z.testbit x i) Hv) as E. cbn beta in E. rewrite Z.land_spec, Z.bits_0 in E.
  rewrite !Z.lor_spec, !Z.ldiff_spec. change (cmd_busy + 0x11) with (Z.lor cmd_busy 0x11). rewrite Z.lor_spec.
  destruct (Z.testbit v i), (Z.testbit cmd_busy i), (Z.testbit 0x11 i); done.
Qed.

Lemma wp_ahci_init_port fuel port n k f s : (k <= fuel)%nat -> dev_ok (S n, k) f (h_env s) -> port_ok port ->
  Z.land (f (port + PORT_CMD)) cmd_busy = 0 -> Z.land (f (port + PORT_TFD)) tfd_busy = 0 ->
  wp (ahci_init_port fuel port) (fun _ s' => exists L k', (k' <= k)%nat /\ dev_ok (n, k') (port_started port L f) (h_env s') /\
    list_page_at (port_started port L f) port L /\ ~ dev_page (h_env s) L /\ (forall p, dev_page (h_env s') p <-> p = L \/ dev_page (h_env s) p) /\
    s' = set_h_env (h_env s') (set_h_mem (memset 4096 (L + DIRECT_OFFSET) 0 (h_mem s)) s)) s.
Proof.
  intros Hk Hd Hport Hcmd Htfd.
  apply wp_bind. eapply (wp_ahci_stop_port fuel port (S n) k); [done | exact Hd | done |]. intros e1 k1 Hk1 Hd1 Hp1.
  apply wp_bind, wp_zoom. eapply wp_mono; [apply (wp_a_alloc_page n k1 _ e1 Hd1) |]. intros L e2 (Hd2 & HL & HLp & Hfresh & Hp2).
  apply wp_bind, wp_upd_mem.
  apply wp_bind. eapply wp_set_reg; [exact Hd2 |]. intros e3 Hd3 Hp3. apply wp_bind. eapply wp_set_reg; [exact Hd3 |]. intros e4 Hd4 Hp4.
  apply wp_bind. eapply wp_set_reg; [exact Hd4 |]. intros e5 Hd5 Hp5. apply wp_bind. eapply wp_set_reg; [exact Hd5 |]. intros e6 Hd6 Hp6.
  apply wp_bind. eapply wp_get_quiet; [exact Hd6 | unfold busy_bits; by rewrite port_reg_of |]. intros e7 Hd7 Hp7.
  apply wp_bind. eapply wp_set_reg; [exact Hd7 |]. intros e8 Hd8 Hp8. set (f8 := hba_written (port + PORT_IE) _ _) in *.
  assert (forall a, 0 <= a -> (port + a =? HBA_IS) = false) as Hnis'.
  { intros a Ha. apply Z.eqb_neq. destruct Hport as (i & Hi & ->). unfold HBA_PORTS, sizeof_port, HBA_IS. lia. }
  assert (forall x, f8 x = if decide (x = port + PORT_CMD) then Z.ldiff (f x) (cmd_busy + 0x11) else port_started port L f x) as Ef8.
  { intros x. unfold f8, hba_written, port_started. rewrite !port_reg_of, !Hnis', cmd_stopped_at by done.
    rewrite !(land_mask _ 32 0xFFFFFFFF) by done.
    rewrite !u64_small, !Z.shiftr_div_pow2, !u32_small by (unfold u32; (lia || (split; [apply Z.div_pos; lia | apply Z.div_lt_upper_bound; lia]))).
    unfold PORT_CMD, PORT_CLB, PORT_CLBU, PORT_FB, PORT_FBU, PORT_IE, PORT_IS, PORT_CI. cbn [Z.eqb Pos.eqb orb].
    rewrite !cmd_stopped_at. unfold PORT_CMD. clear. repeat (case_decide; try lia); by subst. }
  eapply (wp_ahci_start_port fuel port n k1); [lia | exact Hd8 | done | |].
  { rewrite Ef8, decide_False by (unfold PORT_TFD, PORT_CMD; lia). unfold port_started.
    rewrite !decide_False by (unfold PORT_TFD, PORT_CMD, PORT_CLB, PORT_CLBU, PORT_FB, PORT_FBU, PORT_IE; lia). done. }
  intros e9 k9 Hk9 Hd9 Hp9. exists L, k9. split; [lia |]. split.
  { eapply dev_ok_ext; [exact Hd9 |]. intros x. rewrite cmd_started_at, Ef8. case_decide as E; [| done]. unfold port_started. rewrite decide_True by done.
    symmetry. apply cmd_bits. by rewrite E. }
  split; [| split; [| split]].
  - unfold list_page_at, port_started, PORT_CMD, PORT_CLB, PORT_CLBU. repeat first [rewrite decide_False by lia | rewrite decide_True by lia]. done.
  - by rewrite <- Hp1.
  - intros p. cbn in *. rewrite Hp9, Hp8, Hp7, Hp6, Hp5, Hp4, Hp3, Hp2, Hp1. done.
  - rewrite u64_small by (unfold DIRECT_OFFSET; lia). done.
Qed.

End port.

(** ** Waiting and waking *)

Section wait.
Context {St : Type} `{AhciLaws St}.
Implicit Types s : ahci St.

Definition other (d : dir) : dir := match d with Read => Write | Write => Read end.

Lemma ch_set_ch d x s : ch d (set_ch d x s) = x.
Proof. by destruct d. Qed.
Lemma ch_set_other d d' x s : d <> d' -> ch d' (set_ch d x s) = ch d' s.
Proof. by destruct d, d'. Qed.

Lemma wp_ahci_block b f d port cur s (Q : unit -> ahci St -> Prop) : dev_ok b f (h_env s) ->
  is_Some (threads (h_sched s) !! cur) -> current_thread (h_sched s) = cur ->
  (forall s1, h_sched s1 = set_threads (upd cur (set_state BLOCKED) (threads (h_sched s))) (h_sched s) ->
    dev_ok b (hba_written (port + PORT_CI) (2 ^ slot d) f) (h_env s1) -> (forall p, dev_page (h_env s1) p <-> dev_page (h_env s) p) ->
    h_mem s1 = h_mem s -> ch d s1 = set_blocked_thread cur (ch d s) -> (forall d', d' <> d -> ch d' s1 = ch d' s) -> Q tt s1) ->
  wp (ahci_block d port) Q s.
Proof.
  intros Hd Hlive Hcur HQ. apply wp_bind, wp_gets, wp_bind, wp_modify. apply wp_bind, wp_gets.
  cbn [h_sched view over l_h_cpu l_h_sched lens_compose l_s_cpu set_h_sched set_s_cpu current_thread].
  rewrite Hcur. apply wp_bind, wp_modify. apply wp_bind, wp_zoom, wp_upd_thread; [by destruct d |].
  assert (forall x (t : ahci St), h_env (set_ch d x t) = h_env t) as He by by destruct d.
  apply wp_bind. eapply wp_set_reg; [cbn; rewrite He; exact Hd |]. rewrite Z.shiftl_1_l. intros e Hd' Hp'. apply wp_modify. apply HQ.
  - destruct d; cbn; by destruct (h_sched s) as [[]].
  - by destruct d.
  - by destruct d.
  - by destruct d.
  - by destruct d.
  - by destruct d; intros [].
Qed.

(** Setting the state of a thread and issuing its command. *)
Lemma wp_ahci_issue b f d ss rsp0 port l1 cur l2 n dd s : dev_ok b f (h_env s) ->
  sched_inv (h_sched s) (l1 ++ cur :: l2) dd -> current_thread (h_sched s) = cur -> head (l1 ++ l2) = Some n ->
  wp (ahci_issue d ss rsp0 port) (fun r s' => r = rsp (thread_of (threads (h_sched s)) n) /\
    sleeps cur (l1 ++ l2) dd (h_sched s') /\ state (thread_of (threads (h_sched s')) cur) = BLOCKED /\
    rsp (thread_of (threads (h_sched s')) cur) = rsp0 /\ current_thread (h_sched s') = n /\
    dev_ok b (hba_written (port + PORT_CI) (2 ^ slot d) f) (h_env s') /\ (forall p, dev_page (h_env s') p <-> dev_page (h_env s) p) /\
    h_mem s' = h_mem s /\ ch d s' = set_blocked_thread cur (ch d s) /\ forall d', d' <> d -> ch d' s' = ch d' s) s.
Proof.
  intros Hd Hs Hcur Hn. destruct (ready_remove _ _ _ _ (si_ring _ _ _ Hs)) as (Hlive & Hc0 & Hcl).
  apply wp_bind. apply (wp_ahci_block b f d port cur); [done | done | done |]. intros s1 Es1 Hd' Hp' Hm' Hch Ho. apply wp_zoom. cbn [view over l_h_sched].
  assert (sched_inv (h_sched s1) (l1 ++ cur :: l2) dd) as Hs1.
  { rewrite Es1. apply sched_inv_threads; [done |]. intros p. rewrite thread_of_upd. split_and!; [intros; thread_live | by case_decide; subst.. |].
    rewrite Hcur. intros _ Hne. by rewrite decide_False by (by intros ->). }
  assert (state (thread_of (threads (h_sched s1)) cur) = BLOCKED) as Hst1 by (rewrite Es1; cbn; by rewrite thread_of_upd, decide_True).
  eapply wp_mono; [apply (wp_handler_stopped ss rsp0 l1 cur l2 n dd); [done | by rewrite Es1 | by rewrite Hst1 | done] |].
  intros r s2 (-> & Hruns & Hinv2 & Hst2 & Hrsp2 & _ & Hnb2 & Hl2). rewrite Hst1 in *.
  assert (cur <> n) as Hcn by (intros ->; apply (Hcl n); [| done]; destruct (l1 ++ l2); [done |]; injection Hn as ->; by left).
  split; [rewrite Es1; cbn; by rewrite thread_of_upd, decide_False |]. cbn [h_sched h_env h_mem set_h_sched].
  split.
  { split.
    - exact Hinv2.
    - split; [| done]. apply Hl2. rewrite Es1. cbn. thread_live.
    - split; [intros Hin; by apply (Hcl cur) | intros Hin]. apply (si_disj _ _ _ Hs cur Hin), elem_of_app. right. by left.
    - rewrite (proj2 (Hnb2 cur)). intros Hp. apply (proj2 (Hl2 _)). rewrite Es1 in Hp |- *. cbn in *. rewrite thread_of_upd, decide_True in * by done.
      apply (si_proc _ _ _ Hs); [apply elem_of_app; right; by left | done]. }
  split; [done |]. split; [by apply Hrsp2 |]. split; [apply Hruns |]. split; [done |]. split; [done |]. split; [done |].
  split; [rewrite <- Hch; by destruct d | intros d' Hne; rewrite <- Ho by done; by destruct d'].
Qed.

(** A command is over when the port reports an error or its bit has been cleared. *)
Definition completed (f : Z -> Z) (port pis : Z) (d : dir) : bool := Z.testbit pis 30 || negb (Z.testbit (f (port + PORT_CI)) (slot d)).

(** What the handler does for one direction, where [R] is what becomes of the
    scheduler when a thread waits for the command that is over. *)
Record handled (d : dir) (c : bool) (pis : Z) (R : sched -> Prop) (s s' : ahci St) : Prop := {
  hd_running : c = false -> h_sched s' = h_sched s /\ ch d s' = ch d s;
  hd_done : c = true -> ch d s' = Channel (ch_mutex (ch d s)) 0 pis /\
    (blocked_thread (ch d s) = 0 -> h_sched s' = h_sched s) /\ (blocked_thread (ch d s) <> 0 -> R (h_sched s'));
  hd_other d' : d' <> d -> ch d' s' = ch d' s;
  hd_mem : h_mem s' = h_mem s;
  hd_pages p : dev_page (h_env s') p <-> dev_page (h_env s) p;
}.
Definition wake_gives (t : Z) (R : sched -> Prop) (s : sched) : Prop :=
  t <> 0 -> is_Some (threads s !! t) /\ wp (enqueue_thread t) (fun _ => R) (set_threads (upd t (set_state READY) (threads s)) s).

Lemma wp_handle b f d port pis R s (Q : unit -> ahci St -> Prop) : dev_ok b f (h_env s) -> port_ok port ->
  wake_gives (blocked_thread (ch d s)) R (h_sched s) ->
  (forall s', handled d (completed f port pis d) pis R s s' -> dev_ok b f (h_env s') -> Q tt s') -> wp (handle d port pis) Q s.
Proof.
  intros Hd Hport Hw HQ. unfold handle. rewrite !Z.shiftl_1_l, land_pow2_testbit by lia. apply wp_bind.
  apply (wp_mono _ (fun c s1 => c = completed f port pis d /\ exists e, s1 = set_h_env e s /\ dev_ok b f e /\ forall p, dev_page e p <-> dev_page (h_env s) p)).
  { unfold completed. destruct (Z.testbit pis 30); cbn [orb]; [apply wp_ret; split; [done |]; exists (h_env s); by destruct s |].
    apply wp_bind. eapply wp_get_quiet; [exact Hd | unfold busy_bits; by rewrite port_reg_of |]. intros e Hde Hpe. apply wp_ret. split; [| by exists e].
    rewrite <- (land_pow2_testbit _ (slot d)) by by destruct d. unfold truthy. by rewrite negb_involutive. }
  intros c s1 (-> & e & -> & Hde & Hpe). set (c := completed f port pis d) in *. clearbody c.
  assert (ch d (set_h_env e s) = ch d s) as Hch by by destruct d.
  apply wp_when; intros ->; [| apply HQ; [split; [by split | done | by destruct d, d' | done | done] | done]].
  apply wp_bind, wp_modify, wp_bind, wp_gets. rewrite Hch, ch_set_ch. cbn [blocked_thread set_port_is]. set (t := blocked_thread (ch d s)) in *.
  set (s1 := set_ch d _ _). assert (h_sched s1 = h_sched s /\ h_env s1 = e /\ h_mem s1 = h_mem s) as (Es & Ee & Em) by by destruct d.
  assert (forall d', d' <> d -> ch d' s1 = ch d' s) as Eo by by destruct d, d'.
  assert (ch d s1 = set_port_is pis (ch d s)) as Ec by (unfold s1; apply ch_set_ch). clearbody s1.
  apply wp_when; intros Ht; [apply truthy_true in Ht | apply truthy_false in Ht].
  - destruct (Hw Ht) as [Hl Hq]. apply wp_bind, wp_zoom, wp_upd_thread; [cbn; by rewrite Es |]. apply wp_bind, wp_zoom. cbn [view over l_h_sched h_sched set_h_sched]. rewrite Es.
    eapply wp_mono; [exact Hq |]. intros [] s2 HR. apply wp_modify. apply HQ.
    + split; [done | intros _ | intros d' Hne | | intros p].
      * rewrite ch_set_ch. split; [destruct d; cbn in *; by rewrite Ec |]. split; [intros E; by destruct Ht |]. intros _. by destruct d.
      * rewrite ch_set_other by congruence. rewrite <- Eo by done. by destruct d'.
      * rewrite <- Em. by destruct d.
      * rewrite <- Hpe. rewrite <- Ee. by destruct d.
    + rewrite <- Ee in Hde. by destruct d.
  - apply HQ; [| by rewrite Ee]. split; [done | intros _ | done | done | intros p; by rewrite Ee].
    rewrite Ec. split; [unfold set_port_is; f_equal; done |]. split; [done | by intros []].
Qed.

(** The whole handler, for the first port. *)
Lemma wp_ahci_handler_steps b f R1 (R2 : ahci St -> sched -> Prop) s (Q : unit -> ahci St -> Prop) :
  dev_ok b f (h_env s) -> Z.testbit (f HBA_IS) 0 = true ->
  let pis := f (HBA_PORTS + PORT_IS) in let c := completed f HBA_PORTS pis in
  wake_gives (blocked_thread (ch Read s)) R1 (h_sched s) ->
  (forall s1, handled Read (c Read) pis R1 s s1 -> wake_gives (blocked_thread (ch Write s)) (R2 s1) (h_sched s1)) ->
  (forall s1 s2 e, handled Read (c Read) pis R1 s s1 -> handled Write (c Write) pis (R2 s1) s1 s2 ->
    dev_ok b (hba_written HBA_IS (f HBA_IS) (hba_written (HBA_PORTS + PORT_IS) pis f)) e -> (forall p, dev_page e p <-> dev_page (h_env s2) p) ->
    Q tt (set_h_env e s2)) ->
  wp ahci_handler Q s.
Proof.
  intros Hd Hirq pis c HW1 HW2 HQ. assert (port_ok HBA_PORTS) as Hport by (exists 0; split; [lia | done]).
  apply wp_bind. eapply wp_get_quiet; [exact Hd | done |]. intros e1 Hd1 Hp1. rewrite Z.shiftl_1_l, land_pow2_testbit, Hirq by lia. cbn [when].
  apply wp_bind. apply wp_bind. eapply wp_get_quiet; [exact Hd1 | done |]. intros e2 Hd2 Hp2. fold pis.
  apply wp_bind. eapply wp_set_reg; [exact Hd2 |]. intros e3 Hd3 Hp3. cbn [set_h_env h_env] in Hp1, Hp2, Hp3.
  set (f1 := hba_written (HBA_PORTS + PORT_IS) pis f) in *. set (s3 := set_h_env e3 _).
  assert (forall d, completed f1 HBA_PORTS pis d = c d) as Hc by reflexivity.
  assert (forall d, ch d s3 = ch d s) as Hch by by destruct d.
  apply wp_bind. apply (wp_handle b f1 Read HBA_PORTS pis R1); [exact Hd3 | done | by rewrite Hch |]. rewrite Hc. intros s4 H4 Hd4. fold pis in H4.
  assert (handled Read (c Read) pis R1 s s4) as H4'.
  { destruct H4 as [H1 H2 H3 Hm Hp]. rewrite Hch in *. split; [done | done | intros d' Hne; by rewrite H3, Hch | done |].
    intros p. rewrite Hp. cbn. by rewrite Hp3, Hp2, Hp1. }
  apply (wp_handle b f1 Write HBA_PORTS pis (R2 s4)); [exact Hd4 | done | |].
  { rewrite (hd_other _ _ _ _ _ _ H4' Write) by done. by apply HW2. }
  rewrite Hc. intros s5 H5 Hd5. eapply wp_set_reg; [exact Hd5 |]. intros e6 Hd6 Hp6. by apply (HQ s4).
Qed.

(** The ring after the handler: the threads of the commands that are over. *)
Definition woken_by (d : dir) (c : bool) (s : ahci St) : list Z := if c && truthy (blocked_thread (ch d s)) then [blocked_thread (ch d s)] else [].

Lemma sleeps_wake t l dd (s : sched) : (t <> 0 -> sleeps t l dd s) -> wake_gives t (wakes t l dd s) s.
Proof.
  intros Hs Ht. specialize (Hs Ht). split; [apply (sl_live _ _ _ _ Hs) |]. by apply (wp_wake t l dd).
Qed.

Lemma handled_ring d c pis l dd s s' : handled d c pis (wakes (blocked_thread (ch d s)) l dd (h_sched s)) s s' -> sched_inv (h_sched s) l dd ->
  sched_inv (h_sched s') (l ++ woken_by d c s) dd.
Proof.
  intros [Hr Hdn _ _ _] Hs. unfold woken_by. destruct c; cbn [andb]; [| by rewrite app_nil_r, (proj1 (Hr eq_refl))].
  destruct (Hdn eq_refl) as (_ & Hn & Hw). destruct (truthy (blocked_thread (ch d s))) eqn:E; [apply truthy_true in E | apply truthy_false in E].
  - apply (wk_sched _ _ _ _ _ (Hw E)).
  - by rewrite app_nil_r, Hn.
Qed.

Lemma handled_sleeps d c pis l dd s s' t : handled d c pis (wakes (blocked_thread (ch d s)) l dd (h_sched s)) s s' ->
  sleeps t l dd (h_sched s) -> t <> blocked_thread (ch d s) -> sleeps t (l ++ woken_by d c s) dd (h_sched s').
Proof.
  intros [Hr Hdn _ _ _] Hs Hne. unfold woken_by. destruct c; cbn [andb]; [| by rewrite app_nil_r, (proj1 (Hr eq_refl))].
  destruct (Hdn eq_refl) as (_ & Hn & Hw). destruct (truthy (blocked_thread (ch d s))) eqn:E; [apply truthy_true in E | apply truthy_false in E].
  - by apply (sleeps_on _ _ _ _ _ _ Hs (Hw E)).
  - by rewrite app_nil_r, Hn.
Qed.

Lemma handled_ch d c pis R s s' : handled d c pis R s s' -> ch d s' = if c then Channel (ch_mutex (ch d s)) 0 pis else ch d s.
Proof. intros [H1 H2 _ _ _]. destruct c; [by apply H2 | by apply H1]. Qed.

Lemma wp_ahci_handler b f l dd s : dev_ok b f (h_env s) -> Z.testbit (f HBA_IS) 0 = true -> sched_inv (h_sched s) l dd ->
  (forall d, blocked_thread (ch d s) <> 0 -> sleeps (blocked_thread (ch d s)) l dd (h_sched s)) ->
  (blocked_thread (ch Read s) <> 0 -> blocked_thread (ch Read s) <> blocked_thread (ch Write s)) ->
  let pis := f (HBA_PORTS + PORT_IS) in let c := completed f HBA_PORTS pis in
  wp ahci_handler (fun _ s' =>
    sched_inv (h_sched s') (l ++ woken_by Read (c Read) s ++ woken_by Write (c Write) s) dd /\
    (forall d, ch d s' = if c d then Channel (ch_mutex (ch d s)) 0 pis else ch d s) /\
    dev_ok b (hba_written HBA_IS (f HBA_IS) (hba_written (HBA_PORTS + PORT_IS) pis f)) (h_env s') /\
    (forall p, dev_page (h_env s') p <-> dev_page (h_env s) p) /\ h_mem s' = h_mem s) s.
Proof.
  intros Hd Hirq Hs Hsl Hne pis c.
  apply (wp_ahci_handler_steps b f (wakes (blocked_thread (ch Read s)) l dd (h_sched s))
    (fun s1 => wakes (blocked_thread (ch Write s1)) (l ++ woken_by Read (c Read) s) dd (h_sched s1)) s); [done | done | by apply sleeps_wake, Hsl | |]; fold pis c.
  - intros s1 H1. rewrite (hd_other _ _ _ _ _ _ H1 Write) by done. apply sleeps_wake. intros Hw. apply (handled_sleeps _ _ _ _ _ _ _ _ H1); [by apply Hsl |].
    intros E. apply Hne; congruence.
  - intros s1 s2 e H1 H2 Hd' Hp. pose proof (hd_other _ _ _ _ _ _ H1 Write ltac:(done)) as Hw1.
    split; [| split; [| split; [exact Hd' | split]]]; cbn [h_sched h_env h_mem set_h_env].
    + pose proof (handled_ring _ _ _ _ _ _ _ H2 (handled_ring _ _ _ _ _ _ _ H1 Hs)) as Hr. rewrite <- app_assoc in Hr. unfold woken_by in *. by rewrite Hw1 in Hr.
    + intros d. change (ch d (set_h_env e s2)) with (ch d s2). destruct d.
      * rewrite (hd_other _ _ _ _ _ _ H2) by done. apply (handled_ch _ _ _ _ _ _ H1).
      * rewrite (handled_ch _ _ _ _ _ _ H2). by rewrite Hw1.
    + intros p. by rewrite Hp, (hd_pages _ _ _ _ _ _ H2), (hd_pages _ _ _ _ _ _ H1).
    + by rewrite (hd_mem _ _ _ _ _ _ H2), (hd_mem _ _ _ _ _ _ H1).
Qed.

(** Enqueueing the thread at the head of the ring leaves it alone there. *)
Lemma wp_enqueue_head t l (s : sched) : ready_ring s (t :: l) -> wp (enqueue_thread t) (fun _ (s' : sched) => ready_ring s' [t]) s.
Proof.
  intros [Hr Hl]. destruct (ring_head _ _ _ _ Hr) as [Hh _]. cbn in Hh. pose proof (Hl t ltac:(by left)) as Hlt.
  assert (t_prev (thread_of (threads s) t) ∈ t :: l) as Htail.
  { destruct Hr as [[? _]|(_ & _ & q & Hq)]; [done |]. destruct (dseg_ends _ _ _ _ _ _ _ Hq ltac:(done)) as (Hp & _ & _ & Hql). cbn in Hp. rewrite Hh in Hp. by rewrite Hp. }
  apply wp_bind, wp_gets. rewrite (ring_truthy _ _ _ _ Hr), bool_decide_false, Hh by done. cbn [negb].
  apply wp_bind, wp_get_thread; [done |]. cbv zeta. specialize (Hl _ Htail). set (tail := t_prev _) in *.
  apply wp_bind. thread_step. apply wp_bind. thread_step. apply wp_bind. thread_step. thread_step. split.
  - assert (t <> 0) by (apply (ring_valid _ _ _ _ t Hr); by left). cbn. rewrite Hh. apply ring_single; cbn; rewrite ?thread_of_upd, ?(decide_True (P := t = t)); done.
  - intros p ->%list_elem_of_singleton. cbn. thread_live.
Qed.

Lemma handled_idle d c pis R s s' : handled d c pis R s s' -> blocked_thread (ch d s) = 0 -> h_sched s' = h_sched s.
Proof. intros [H1 H2 _ _ _] E. destruct c; [by apply (H2 eq_refl) | by apply H1]. Qed.

(** The interrupt comes before the thread has given the processor away, and the
    thread heads the ring. *)
Lemma wp_ahci_early b f d cur l2 s : dev_ok b f (h_env s) -> ready_ring (h_sched s) (cur :: l2) -> current_thread (h_sched s) = cur ->
  blocked_thread (ch (other d) s) = 0 ->
  wp (ahci_block d HBA_PORTS) (fun _ s1 => forall b' f' e, dev_ok b' f' e -> Z.testbit (f' HBA_IS) 0 = true ->
    completed f' HBA_PORTS (f' (HBA_PORTS + PORT_IS)) d = true ->
    wp ahci_handler (fun _ s2 => ready_ring (h_sched s2) [cur]) (set_h_env e s1)) s.
Proof.
  intros Hd Hring Hcur Hoth. assert (is_Some (threads (h_sched s) !! cur)) as Hlive by (apply Hring; by left).
  apply (wp_ahci_block b f d HBA_PORTS cur); [done.. |]. intros s1 Es1 _ _ _ Hch Ho b' f' e Hd' Hirq Hc.
  assert (forall d', ch d' (set_h_env e s1) = ch d' s1) as Hche by by intros [].
  assert (blocked_thread (ch d s1) = cur) as Hb by by rewrite Hch. assert (blocked_thread (ch (other d) s1) = 0) as Hb0 by (rewrite Ho; by destruct d).
  assert (wake_gives cur (fun x => ready_ring x [cur]) (h_sched s1)) as Hw.
  { intros _. split; [rewrite Es1; cbn; thread_live |]. apply (wp_enqueue_head cur l2). destruct Hring as [Hr Hl]. rewrite Es1. apply (ready_ring_ext (h_sched s)); [by split | done |].
    intros p Hp. cbn. rewrite !thread_of_upd. split; [| by repeat case_decide; subst]. specialize (Hl p Hp). thread_live. }
  destruct d; cbn [other] in *.
  - apply (wp_ahci_handler_steps b' f' (fun x => ready_ring x [cur]) (fun _ _ => True) (set_h_env e s1)); [done | done | by rewrite Hche, Hb | |].
    + intros s2 H2 Hne. exfalso. apply Hne. by rewrite Hche.
    + intros s2 s3 e3 H2 H3 _ _. cbn [h_sched set_h_env]. rewrite (handled_idle _ _ _ _ _ _ H3) by (rewrite (hd_other _ _ _ _ _ _ H2 Write) by done; by rewrite Hche).
      apply (hd_done _ _ _ _ _ _ H2 Hc). rewrite Hche, Hb. apply (ring_valid _ _ _ _ cur (rr_ring _ _ Hring)). by left.
  - apply (wp_ahci_handler_steps b' f' (fun _ => True) (fun _ x => ready_ring x [cur]) (set_h_env e s1)); [done | done | by rewrite Hche, Hb0 | |].
    + intros s2 H2. rewrite Hche, Hb.
      by rewrite (handled_idle _ _ _ _ _ _ H2) by (by rewrite Hche).
    + intros s2 s3 e3 H2 H3 _ _. apply (hd_done _ _ _ _ _ _ H3 Hc). rewrite (hd_other _ _ _ _ _ _ H2 Write) by done. rewrite Hche, Hb.
      apply (ring_valid _ _ _ _ cur (rr_ring _ _ Hring)). by left.
Qed.

(** Taking the mutex when it is free. *)
Lemma l_mutex_view d s : view (l_mutex d) s = MSys (h_sched s) (ch_mutex (ch d s)).
Proof. done. Qed.

End wait.

Section transfer.
Context {St : Type} `{AhciLaws St}.
Implicit Types s : ahci St.

(** A command, from taking the mutex to giving the processor away; the result is
    the stack pointer that it goes on with, and the page of the command table. *)
Definition ahci_start (d : dir) (sstacks rsp port lba seccount : Z) (pages : list Z) : M (ahci St) (option (Z * Z)) :=
  e ← ahci_enter d sstacks rsp (Z.of_nat (length pages));
  match e with
  | Holds =>
      t ← ahci_prepare d port lba seccount pages (Z.of_nat (length pages));
      r ← ahci_issue d sstacks rsp port;
      mret (Some (r, t))
  | _ => mret None
  end.

(** The thread [cur] waits for its command, whose table is the page [t]. *)
Record in_flight (d : dir) (cur t : Z) (l dd : list Z) s : Prop := {
  fl_sleeps : sleeps cur l dd (h_sched s);
  fl_state : state (thread_of (threads (h_sched s)) cur) = BLOCKED;
  fl_blocked : blocked_thread (ch d s) = cur;
  fl_mutex : refines (view (l_mutex d) s) l dd (AMutex true []);
  fl_page : dev_page (h_env s) t;
}.

Lemma held_refines ms sched' l l' dd : refines ms l dd (AMutex true []) -> sched_inv sched' l' dd -> refines (MSys sched' (ms_mutex ms)) l' dd (AMutex true []).
Proof.
  intros [_ H1 H2 _ [W1 W2 _ _ _]] Hs. split; [done | done | done | done |]. split; [by cbn in * | done | by intros ? ?%elem_of_nil..].
Qed.

Lemma wp_ahci_enter_free d ss rsp0 l dd s count (Q : entered -> ahci St -> Prop) : count <= 64 -> refines (view (l_mutex d) s) l dd (AMutex false []) ->
  (forall s', refines (view (l_mutex d) s') l dd (AMutex true []) -> h_sched s' = h_sched s -> h_env s' = h_env s -> h_mem s' = h_mem s ->
    blocked_thread (ch d s') = blocked_thread (ch d s) -> port_is (ch d s') = port_is (ch d s) -> (forall d', d' <> d -> ch d' s' = ch d' s) -> Q Holds s') ->
  wp (ahci_enter d ss rsp0 count) Q s.
Proof.
  intros Hc Hrf HQ. unfold ahci_enter. rewrite (proj2 (Z.ltb_ge AHCI_MAX_PRDT count)) by done. apply wp_bind, wp_zoom.
  eapply wp_mono; [apply (wp_mutex_lock_free ss rsp0 _ l dd 0 Hrf) |]. intros r ms (-> & Hrf' & Hms). apply wp_ret. cbn in Hms, Hrf'.
  apply HQ; try by destruct d.
  - rewrite l_mutex_view. destruct d; cbn; by destruct ms.
  - intros d' Hne. by destruct d, d'.
Qed.

Lemma wp_ahci_start n k f d ss rsp0 port L lba sec pages l1 cur l2 nxt dd s :
  dev_ok (S n, k) f (h_env s) -> port_ok port -> list_page_at f port L -> dev_page (h_env s) L ->
  (length pages <= 64)%nat -> Forall (fun p => 0 <= p < 2 ^ 64) pages -> 0 <= lba < 2 ^ 48 -> 0 <= sec < 2 ^ 16 ->
  refines (view (l_mutex d) s) (l1 ++ cur :: l2) dd (AMutex false []) -> current_thread (h_sched s) = cur -> head (l1 ++ l2) = Some nxt ->
  wp (ahci_start d ss rsp0 port lba sec pages) (fun x s' => exists t, x = Some (rsp (thread_of (threads (h_sched s)) nxt), t) /\
    in_flight d cur t (l1 ++ l2) dd s' /\ current_thread (h_sched s') = nxt /\ rsp (thread_of (threads (h_sched s')) cur) = rsp0 /\
    command_at (h_mem s') L (slot d) = Some (Command (is_write d) lba sec (regions pages (512 * sec))) /\
    (forall x, ~ header_at (h_mem s) L (slot d) <= x < header_at (h_mem s) L (slot d) + 32 -> ~ t + DIRECT_OFFSET <= x < t + DIRECT_OFFSET + 4096 ->
       h_mem s' @@ x = h_mem s @@ x) /\
    dev_ok (n, k) (hba_written (port + PORT_CI) (2 ^ slot d) (hba_written (port + PORT_IS) 0xFFFFFFFF f)) (h_env s') /\
    ~ dev_page (h_env s) t /\ (forall p, dev_page (h_env s') p <-> p = t \/ dev_page (h_env s) p) /\
    forall d', d' <> d -> ch d' s' = ch d' s) s.
Proof.
  intros Hd Hport HL Hused Hn Hpages Hlba Hsec Hrf Hcur Hnxt. apply wp_bind.
  apply (wp_ahci_enter_free d ss rsp0 (l1 ++ cur :: l2) dd); [lia | done |]. intros s1 Hrf1 Es1 Ee1 Em1 _ _ Ho1.
  apply wp_bind. eapply wp_mono; [apply (wp_ahci_prepare n k f d port L lba sec pages); rewrite ?Ee1; done |].
  intros t s2 (Es2 & Hd2 & Hfresh & Hp2 & Hc2 & Hm2).
  assert (h_sched s2 = h_sched s) as Eh2 by (rewrite Es2; exact Es1). assert (forall d', ch d' s2 = ch d' s1) as Ech2 by (intros d'; rewrite Es2; by destruct d').
  rewrite Ee1 in Hfresh, Hp2. rewrite Em1 in Hm2.
  apply wp_bind. eapply wp_mono; [apply (wp_ahci_issue (n, k) _ d ss rsp0 port l1 cur l2 nxt dd s2 Hd2); [rewrite Eh2; by apply (rf_sched _ _ _ _ Hrf) | by rewrite Eh2 | done] |].
  intros r s3 (-> & Hsl & Hst & Hrsp & Hcur3 & Hd3 & Hp3 & Hm3 & Hch3 & Ho3). apply wp_ret. exists t. rewrite Eh2, Hm3.
  split; [done |]. split.
  { split; [done | done | by rewrite Hch3 | | apply Hp3, Hp2; by left]. rewrite l_mutex_view, Hch3. cbn [ch_mutex set_blocked_thread]. rewrite Ech2.
    apply (held_refines (view (l_mutex d) s1) _ (l1 ++ cur :: l2)); [done | apply Hsl]. }
  split; [done |]. split; [done |]. split; [done |]. split; [exact Hm2 |]. split; [done |]. split; [done |].
  split; [intros p; by rewrite Hp3, Hp2 |]. intros d' Hne. by rewrite Ho3, Ech2, Ho1.
Qed.

(** The end of a command. *)
Lemma wp_ahci_finish n k f d t l dd q s : dev_ok (n, k) f (h_env s) -> dev_page (h_env s) t -> refines (view (l_mutex d) s) l dd (AMutex true q) ->
  wp (ahci_finish d t) (fun r s' => r = (if Z.testbit (port_is (ch d s)) 30 then -1 else 0) /\
    dev_ok (S n, k) f (h_env s') /\ (forall p, dev_page (h_env s') p <-> p <> t /\ dev_page (h_env s) p) /\
    refines (view (l_mutex d) s') (l ++ take 1 q) dd (a_unlock (AMutex true q)) /\ h_mem s' = h_mem s /\
    current_thread (h_sched s') = current_thread (h_sched s) /\ forall d', d' <> d -> ch d' s' = ch d' s) s.
Proof.
  intros Hd Ht Hrf. apply wp_bind, wp_gets. cbv zeta. rewrite Z.shiftl_1_l, land_pow2_testbit by lia.
  apply wp_bind, wp_zoom. eapply wp_mono; [apply (wp_a_free_page n k f t _ Hd Ht) |]. intros [] e [Hde Hpe]. apply wp_bind, wp_zoom.
  change (view (l_mutex d) (over l_env e s)) with (MSys (h_sched s) (ch_mutex (ch d (set_h_env e s)))).
  assert (ch d (set_h_env e s) = ch d s) as -> by by destruct d. rewrite l_mutex_view in Hrf.
  apply (wp_mono _ (fun _ ms => refines ms (l ++ take 1 q) dd (a_unlock (AMutex true q)) /\ current_thread (ms_sched ms) = current_thread (h_sched s))).
  - destruct q as [|t' q]; cbn [take].
    + eapply wp_mono; [apply (wp_mutex_unlock_free _ _ _ _ Hrf) |]. intros [] ms [? E]. rewrite app_nil_r. split; [done | by rewrite E].
    + eapply wp_mono; [apply (wp_mutex_unlock_wakes _ _ _ _ _ Hrf) |]. intros [] ms (? & _ & ?). rewrite take_0. done.
  - intros [] ms [Hrf' Hcur]. apply wp_ret. split; [done |]. rewrite l_mutex_view. destruct ms as [sch mx]. destruct d; cbn in *;
      (split; [done |]; split; [done |]; split; [done |]; split; [done |]; split; [done |]; by intros []).
Qed.
End transfer.

(** * Theorems *)

Section theorems.
Context {St : Type} `{AhciLaws St}.

(** C28: initialising a port ends, whatever the controller does within the fuel: a
    fresh page, cleared, becomes its command list and its area for received FIS,
    interrupts for register and descriptor FIS are on and the port is started; no
    other register is changed. *)
Theorem ahci_init_port_spec fuel port n k f (s : ahci St) : (k <= fuel)%nat -> dev_ok (S n, k) f (h_env s) -> port_ok port ->
  Z.land (f (port + PORT_CMD)) cmd_busy = 0 -> Z.land (f (port + PORT_TFD)) tfd_busy = 0 ->
  wp (ahci_init_port fuel port) (fun _ s' => exists L k', (k' <= k)%nat /\ dev_ok (n, k') (port_started port L f) (h_env s') /\
    list_page_at (port_started port L f) port L /\ ~ dev_page (h_env s) L /\ (forall p, dev_page (h_env s') p <-> p = L \/ dev_page (h_env s) p) /\
    s' = set_h_env (h_env s') (set_h_mem (memset 4096 (L + DIRECT_OFFSET) 0 (h_mem s)) s)) s.
Proof. apply wp_ahci_init_port. Qed.

(** C22: a transfer leaves in memory, in its slot of the command list, the command
    that was asked for, with a region for each page; the caller sleeps with the
    mutex held, the next ready thread runs, and no other memory is written. *)
Theorem ahci_command_spec n k f d ss rsp0 port L lba sec pages l1 cur l2 nxt dd (s : ahci St) :
  dev_ok (S n, k) f (h_env s) -> port_ok port -> list_page_at f port L -> dev_page (h_env s) L ->
  (length pages <= 64)%nat -> Forall (fun p => 0 <= p < 2 ^ 64) pages -> 0 <= lba < 2 ^ 48 -> 0 <= sec < 2 ^ 16 ->
  refines (view (l_mutex d) s) (l1 ++ cur :: l2) dd (AMutex false []) -> current_thread (h_sched s) = cur -> head (l1 ++ l2) = Some nxt ->
  wp (ahci_start d ss rsp0 port lba sec pages) (fun x s' => exists t, x = Some (rsp (thread_of (threads (h_sched s)) nxt), t) /\
    in_flight d cur t (l1 ++ l2) dd s' /\ current_thread (h_sched s') = nxt /\ rsp (thread_of (threads (h_sched s')) cur) = rsp0 /\
    command_at (h_mem s') L (slot d) = Some (Command (is_write d) lba sec (regions pages (512 * sec))) /\
    (forall x, ~ header_at (h_mem s) L (slot d) <= x < header_at (h_mem s) L (slot d) + 32 -> ~ t + DIRECT_OFFSET <= x < t + DIRECT_OFFSET + 4096 ->
       h_mem s' @@ x = h_mem s @@ x) /\
    dev_ok (n, k) (hba_written (port + PORT_CI) (2 ^ slot d) (hba_written (port + PORT_IS) 0xFFFFFFFF f)) (h_env s') /\
    ~ dev_page (h_env s) t /\ (forall p, dev_page (h_env s') p <-> p = t \/ dev_page (h_env s) p) /\
    forall d', d' <> d -> ch d' s' = ch d' s) s.
Proof. apply wp_ahci_start. Qed.

(** The interrupt wakes exactly the threads whose command is over, at the end of
    the ring and in the order read, write; it keeps the status of the port for
    them and acknowledges what it has read. *)
Theorem ahci_handler_wakes b f l dd (s : ahci St) : dev_ok b f (h_env s) -> Z.testbit (f HBA_IS) 0 = true -> sched_inv (h_sched s) l dd ->
  (forall d, blocked_thread (ch d s) <> 0 -> sleeps (blocked_thread (ch d s)) l dd (h_sched s)) ->
  (blocked_thread (ch Read s) <> 0 -> blocked_thread (ch Read s) <> blocked_thread (ch Write s)) ->
  let pis := f (HBA_PORTS + PORT_IS) in let c := completed f HBA_PORTS pis in
  wp ahci_handler (fun _ s' =>
    sched_inv (h_sched s') (l ++ woken_by Read (c Read) s ++ woken_by Write (c Write) s) dd /\
    (forall d, ch d s' = if c d then Channel (ch_mutex (ch d s)) 0 pis else ch d s) /\
    dev_ok b (hba_written HBA_IS (f HBA_IS) (hba_written (HBA_PORTS + PORT_IS) pis f)) (h_env s') /\
    (forall p, dev_page (h_env s') p <-> dev_page (h_env s) p) /\ h_mem s' = h_mem s) s.
Proof. apply wp_ahci_handler. Qed.

(** A woken transfer returns -1 exactly for a reported error, gives the page of
    its table back and hands the mutex to the first thread in the queue. *)
Theorem ahci_finish_spec n k f d t l dd q (s : ahci St) :
  dev_ok (n, k) f (h_env s) -> dev_page (h_env s) t -> refines (view (l_mutex d) s) l dd (AMutex true q) ->
  wp (ahci_finish d t) (fun r s' => r = (if Z.testbit (port_is (ch d s)) 30 then -1 else 0) /\
    dev_ok (S n, k) f (h_env s') /\ (forall p, dev_page (h_env s') p <-> p <> t /\ dev_page (h_env s) p) /\
    refines (view (l_mutex d) s') (l ++ take 1 q) dd (a_unlock (AMutex true q)) /\ h_mem s' = h_mem s /\
    current_thread (h_sched s') = current_thread (h_sched s) /\ forall d', d' <> d -> ch d' s' = ch d' s) s.
Proof. apply wp_ahci_finish. Qed.

(** Interrupts are on again before the thread that issued a command gives the
    processor away: when the completion arrives in between and the thread heads
    the ring, it is enqueued twice, every other thread drops out of the ring and
    the scheduler goes on with this one for ever. *)
Theorem ahci_early_interrupt b f d cur l2 (s : ahci St) : dev_ok b f (h_env s) -> ready_ring (h_sched s) (cur :: l2) ->
  current_thread (h_sched s) = cur -> blocked_thread (ch (other d) s) = 0 ->
  wp (ahci_block d HBA_PORTS) (fun _ s1 => forall b' f' e, dev_ok b' f' e -> Z.testbit (f' HBA_IS) 0 = true ->
    completed f' HBA_PORTS (f' (HBA_PORTS + PORT_IS)) d = true ->
    wp ahci_handler (fun _ s2 => ready_ring (h_sched s2) [cur] /\ forall ss r, scheduler_handler ss r (h_sched s2) = Ok (r, h_sched s2)) (set_h_env e s1)) s.
Proof.
  intros Hd Hr Hcur Ho. eapply wp_mono; [exact (wp_ahci_early b f d cur l2 s Hd Hr Hcur Ho) |]. intros [] s1 Hs1 b' f' e H1 H2 H3.
  eapply wp_mono; [exact (Hs1 b' f' e H1 H2 H3) |]. intros [] s2 Hs2. split; [done |]. intros ss r. by apply (sole_thread_returns ss r cur).
Qed.

End theorems.

(** * A controller *)

(** Registers that keep what the specification says, and that are busy for some
    more reads; a list of free pages. *)
Record hba : Type := Hba { regs : Z -> Z; busy : nat; pool : list Z; used : list Z }.
Definition hba_page_ok (p : Z) : Prop := 0 < p < 2 ^ 46 /\ p mod 4096 = 0.
#[export] Instance hba_services : AhciServices hba := {
  a_alloc_page := fun s => match pool s with [] => Ok (0, s) | p :: pool' => Ok (p, Hba (regs s) (busy s) pool' (p :: used s)) end;
  a_free_page := fun p => modify (fun s => Hba (regs s) (busy s) (p :: pool s) (filter (fun q => q <> p) (used s)));
  hba_get := fun a s => match busy s with
    | S k => if busy_bits a =? 0 then Ok (regs s a, s) else Ok (Z.lor (regs s a) (busy_bits a), Hba (regs s) k (pool s) (used s))
    | O => Ok (regs s a, s)
    end;
  hba_set := fun a v => modify (fun s => Hba (hba_written a v (regs s)) (busy s) (pool s) (used s));
}.
Record hba_ok (b : nat * nat) (f : Z -> Z) (s : hba) : Prop := {
  ho_regs x : f x = regs s x;
  ho_busy : busy s = b.2;
  ho_pool : length (pool s) = b.1;
  ho_dup : NoDup (pool s ++ used s);
  ho_pages : Forall hba_page_ok (pool s ++ used s);
}.

#[export, refine] Instance hba_laws : AhciLaws hba := {| dev_ok := hba_ok; dev_page := fun s p => p ∈ used s |}.
Proof.
  - intros b f g s [H1 H2 H3 H4 H5] Hg. split; [intros x; by rewrite Hg | done..].
  - intros n k f s [H1 H2 H3 H4 H5]. unfold wp, a_alloc_page. cbn. destruct (pool s) as [|p pool']; [done |]. cbn in *.
    apply Forall_cons in H5 as [[Hp1 Hp2] H5]. pose proof H4 as Hnd. apply NoDup_cons in H4 as [Hnin H4]. split_and!; try done.
    + split; cbn; [done | done | lia | by rewrite <- Permutation_middle | rewrite <- Permutation_middle; by apply Forall_cons].
    + lia.
    + lia.
    + intros Hin. apply Hnin, elem_of_app. by right.
    + intros q. by rewrite elem_of_cons.
  - intros n k f p s [H1 H2 H3 H4 H5] Hp. apply wp_modify. split.
    + cbn in H3. split; cbn; [done | done | lia | |].
      * apply NoDup_app in H4 as (Hn1 & Hd & Hn2). apply NoDup_cons. split.
        { rewrite elem_of_app, list_elem_of_filter. intros [Hin|[]]; [by apply (Hd p) | done]. }
        apply NoDup_app. split_and!; [done | intros q Hq [_ Hq2]%list_elem_of_filter; by apply (Hd q) | by apply NoDup_filter].
      * apply Forall_app in H5 as [Hf1 Hf2]. apply Forall_cons. split; [by apply (proj1 (Forall_forall _ _) Hf2) |].
        apply Forall_app. split; [done |]. apply Forall_forall. intros q [_ Hq]%list_elem_of_filter. by apply (proj1 (Forall_forall _ _) Hf2).
    + intros q. cbn. rewrite list_elem_of_filter. done.
  - intros [n k] f a s [H1 H2 H3 H4 H5]. unfold wp, hba_get. cbn [hba_services fst snd] in *. destruct (busy s) as [|k'] eqn:E.
    + split; [done |]. left. split; [by rewrite H1 | by split; rewrite ?E].
    + destruct (Z.eqb_spec (busy_bits a) 0) as [Eb|Eb]; [split; [done |]; left; split; [by rewrite H1 | by split; rewrite ?E] |].
      split; [done |]. right. exists k', (-1). split_and!; [done | done | by rewrite H1, Z.land_m1_l | by split].
  - intros b f a v s [H1 H2 H3 H4 H5]. apply wp_modify. split; [| done]. split; cbn; [| done..].
    intros x. unfold hba_written. by rewrite !H1.
Defined.

(** The registers of a started port whose command list is the page [0x1000]. *)
Definition demo_regs (x : Z) : Z := if decide (x = HBA_PORTS + PORT_CLB) then 0x1000 else 0.
Definition demo_hba : hba := Hba demo_regs 2 [0x2000; 0x3000] [0x1000].
Definition demo_ahci : ahci hba := Ahci demo_hba (three RUNNING) ∅ (Channel (Mutex 0 0 0 0) 0 0) (Channel (Mutex 0 0 0 0) 0 0).
Lemma demo_hba_ok : dev_ok (2%nat, 2%nat) demo_regs demo_hba.
Proof. split; [done.. | |]; apply (bool_decide_unpack _); by vm_compute. Qed.
Lemma demo_port : port_ok HBA_PORTS.
Proof. by exists 0. Qed.
Lemma demo_list_page : list_page_at demo_regs HBA_PORTS 0x1000.
Proof. repeat split. Qed.

(** Seven sectors in one page. *)
Lemma ahci_command_spec_witness :
  wp (ahci_start Read 0 0x111 HBA_PORTS 0x123456 7 [0x9000]) (fun x s' => exists t, x = Some (0x200, t) /\
    current_thread (h_sched s') = 2 /\ command_at (h_mem s') 0x1000 0 = Some (Command false 0x123456 7 [(0x9000, 3584)])) demo_ahci.
Proof.
  eapply wp_mono; [apply (ahci_command_spec 1 2 demo_regs Read 0 0x111 HBA_PORTS 0x1000 0x123456 7 [0x9000] [] 1 [2; 3] 2 [] demo_ahci);
    [exact demo_hba_ok | exact demo_port | exact demo_list_page | by left | cbn; lia | by repeat constructor | lia | lia | exact free_mutex_refines | done | done] |].
  intros x s' (t & -> & _ & Hcur & _ & Hc & _). by exists t.
Defined.

(** The disk was busy twice. *)
Lemma ahci_init_port_spec_witness :
  wp (ahci_init_port 2 HBA_PORTS) (fun _ s' => exists L, L <> 0x1000 /\ L ∈ used (h_env s') /\ regs (h_env s') (HBA_PORTS + PORT_CMD) = 0x11) demo_ahci.
Proof.
  eapply wp_mono; [apply (ahci_init_port_spec 2 HBA_PORTS 1 2 demo_regs demo_ahci (le_n 2) demo_hba_ok demo_port eq_refl eq_refl) |].
  intros [] s' (L & k' & _ & Hd & _ & Hf & Hp & _). exists L. split_and!.
  - intros ->. apply Hf. by left.
  - apply Hp. by left.
  - rewrite <- (ho_regs _ _ _ Hd). reflexivity.
Defined.

(** Thread 1 waits for a command of reading, the queue for the mutex is empty; the
    controller has completed it, without and with an error. *)
Definition done_regs (status x : Z) : Z := if decide (x = HBA_IS) then 1 else if decide (x = HBA_PORTS + PORT_IS) then status else demo_regs x.
Definition done_hba (status : Z) : hba := Hba (done_regs status) 2 [0x3000] [0x2000; 0x1000].
Lemma done_hba_ok status : dev_ok (1%nat, 2%nat) (done_regs status) (done_hba status).
Proof. split; [done.. | |]; apply (bool_decide_unpack _); by vm_compute. Qed.
Definition waiting (status : Z) : ahci hba :=
  match ahci_start Read 0 0x111 HBA_PORTS 0x123456 7 [0x9000] demo_ahci with Ok (_, s) => set_h_env (done_hba status) s | Err _ => demo_ahci end.

Lemma waiting_facts status : sleeps 1 [2; 3] [] (h_sched (waiting status)) /\
  blocked_thread (ch Read (waiting status)) = 1 /\ blocked_thread (ch Write (waiting status)) = 0 /\
  refines (view (l_mutex Read) (waiting status)) [2; 3] [] (AMutex true []) /\ h_env (waiting status) = done_hba status.
Proof.
  destruct (wp_ok _ _ _ (wp_ahci_start 1 2 demo_regs Read 0 0x111 HBA_PORTS 0x1000 0x123456 7 [0x9000] [] 1 [2; 3] 2 [] demo_ahci
    demo_hba_ok demo_port demo_list_page ltac:(by left) ltac:(cbn; lia) ltac:(by repeat constructor) ltac:(lia) ltac:(lia) free_mutex_refines eq_refl eq_refl))
    as (r & s1 & E & t & _ & [F1 F2 F3 F4 _] & _ & _ & _ & _ & _ & _ & _ & Ho). unfold waiting. rewrite E.
  split; [exact F1 |]. split; [exact F3 |]. split; [change (blocked_thread (ch Write s1) = 0); by rewrite (Ho Write) |]. by split.
Qed.

Lemma ahci_handler_wakes_witness :
  wp ahci_handler (fun _ s' => sched_inv (h_sched s') [2; 3; 1] [] /\ ch Read s' = Channel (ch_mutex (ch Read (waiting (2 ^ 30)))) 0 (2 ^ 30)) (waiting (2 ^ 30)).
Proof.
  destruct (waiting_facts (2 ^ 30)) as (F1 & F2 & F3 & _ & He). generalize dependent (waiting (2 ^ 30)). intros w F1 F2 F3 He.
  eapply wp_mono; [apply (ahci_handler_wakes (1%nat, 2%nat) (done_regs (2 ^ 30)) [2; 3] [] w) |].
  - rewrite He. apply done_hba_ok.
  - reflexivity.
  - exact (sl_sched _ _ _ _ F1).
  - intros [] Hb; [by rewrite F2 | by destruct Hb].
  - by rewrite F2, F3.
  - cbv beta zeta. intros [] s' (Hs & Hc & _). split; [| by rewrite (Hc Read)].
    unfold woken_by in Hs. rewrite F2, F3 in Hs. exact Hs.
Defined.

Lemma ahci_finish_spec_witness :
  wp (ahci_finish Read 0x2000) (fun r s' => r = 0 /\ (0x2000 ∉ used (h_env s')) /\ refines (view (l_mutex Read) s') [2; 3] [] (AMutex false [])) (waiting 0).
Proof.
  destruct (waiting_facts 0) as (_ & _ & _ & F4 & He). assert (port_is (ch Read (waiting 0)) = 0) as Hpis by by vm_compute.
  generalize dependent (waiting 0). intros w F4 He Hpis.
  eapply wp_mono; [apply (ahci_finish_spec 1 2 (done_regs 0) Read 0x2000 [2; 3] [] [] w); [rewrite He; apply done_hba_ok | rewrite He; by left | exact F4] |].
  intros r s' (-> & _ & Hp & Hrf & _). rewrite Hpis. split; [done |]. split; [by intros [? _]%Hp | exact Hrf].
Defined.

(** The interrupt comes at once; the ring was 1, 2, 3. *)
Lemma ahci_early_interrupt_witness :
  wp (ahci_block Read HBA_PORTS) (fun _ s1 => wp ahci_handler (fun _ s2 => ready_ring (h_sched s2) [1] /\
    scheduler_handler 0 0x111 (h_sched s2) = Ok (0x111, h_sched s2)) (set_h_env (done_hba 1) s1)) demo_ahci.
Proof.
  eapply wp_mono; [apply (ahci_early_interrupt (2%nat, 2%nat) demo_regs Read 1 [2; 3] demo_ahci demo_hba_ok (si_ring _ _ _ (three_inv RUNNING)) eq_refl eq_refl) |].
  intros [] s1 H. eapply wp_mono; [apply (H (1%nat, 2%nat) (done_regs 1) (done_hba 1) (done_hba_ok 1) eq_refl eq_refl) |]. intros [] s2 [H1 H2]. split; [exact H1 | apply H2].
Defined.
