(* ===== verification/Thread.v ===== *)
(** The life of threads ([kernel/scheduler/thread.c], [init_scheduler] of
    [kernel/scheduler/scheduler.c]): kernel and user threads with the stacks they
    start on, and their destruction. *)
From S2P Require Import Prelude Interfaces Cpu DList CString Sched Mutex.

(** * State *)

Definition sizeof_thread : Z := 152.
Definition sizeof_process : Z := 1088.
Definition MAX_FD : Z := 128.
Definition USER_TRAMPOLINE : Z := 0xffffffffffff0000.

(** What the functions use of the memory managers: objects, kernel areas, stacks.
    A user stack is added to the list whose head is given, in the address space
    of the given table; the result comes with the new head. *)
Class ThreadServices (St : Type) : Type := {
  th_kmalloc : Z -> M St Z;
  th_kfree : Z -> M St unit;
  th_vmalloc : Z -> M St Z;
  th_kernel_alloc_stack : Z -> M St Z;
  th_user_alloc_stack : Z -> Z -> Z -> M St (Z * Z);
  th_user_free_stack : Z -> Z -> Z -> M St Z;
  th_munmap_by_info : Z -> Z -> M St unit;
  th_area_next : Z -> M St Z;
  th_unmap_page : Z -> Z -> M St Z;
  th_free_page : Z -> M St unit;
}.

(** [t_umem] is the memory of the lower half, for each table of pages. *)
Record tsys (St : Type) : Type := TSys {
  t_env : St;
  t_sched : sched;
  t_kmem : memory;
  t_umem : gmap Z memory;
  next_thread_id : Z;
  sse_avx_buf_size : Z;
  create_thread_lock : Z;
  destroy_thread_lock : Z;
}.
Arguments TSys {St} t_env t_sched t_kmem t_umem next_thread_id sse_avx_buf_size create_thread_lock destroy_thread_lock.
Arguments t_env {St} t.
Arguments t_sched {St} t.
Arguments t_kmem {St} t.
Arguments t_umem {St} t.
Arguments next_thread_id {St} t.
Arguments sse_avx_buf_size {St} t.
Arguments create_thread_lock {St} t.
Arguments destroy_thread_lock {St} t.

Section setters.
Context {St : Type}.
Implicit Types s : tsys St.
Definition set_t_env (x : St) s := TSys x (t_sched s) (t_kmem s) (t_umem s) (next_thread_id s) (sse_avx_buf_size s) (create_thread_lock s) (destroy_thread_lock s).
Definition set_t_sched (x : sched) s := TSys (t_env s) x (t_kmem s) (t_umem s) (next_thread_id s) (sse_avx_buf_size s) (create_thread_lock s) (destroy_thread_lock s).
Definition set_t_kmem (x : memory) s := TSys (t_env s) (t_sched s) x (t_umem s) (next_thread_id s) (sse_avx_buf_size s) (create_thread_lock s) (destroy_thread_lock s).
Definition set_t_umem (x : gmap Z memory) s := TSys (t_env s) (t_sched s) (t_kmem s) x (next_thread_id s) (sse_avx_buf_size s) (create_thread_lock s) (destroy_thread_lock s).
Definition set_next_thread_id (x : Z) s := TSys (t_env s) (t_sched s) (t_kmem s) (t_umem s) x (sse_avx_buf_size s) (create_thread_lock s) (destroy_thread_lock s).
Definition set_create_lock (x : Z) s := TSys (t_env s) (t_sched s) (t_kmem s) (t_umem s) (next_thread_id s) (sse_avx_buf_size s) x (destroy_thread_lock s).
Definition set_destroy_lock (x : Z) s := TSys (t_env s) (t_sched s) (t_kmem s) (t_umem s) (next_thread_id s) (sse_avx_buf_size s) (create_thread_lock s) x.
Definition l_t_env : lens (tsys St) St := Lens t_env set_t_env.
Definition l_t_sched : lens (tsys St) sched := Lens t_sched set_t_sched.
Definition l_t_cpu : lens (tsys St) cpu := lens_compose l_t_sched l_s_cpu.
Definition l_create_lock : lens (tsys St) Z := Lens create_thread_lock set_create_lock.
Definition l_destroy_lock : lens (tsys St) Z := Lens destroy_thread_lock set_destroy_lock.
End setters.

(** Assignments to fields of a thread and of a process. *)
Definition set_sse (x : Z) (t : thread) : thread :=
  Thread (rsp t) (tid t) (state t) (kernel_stack t) (user_stack t) (page_guard_min t) (page_guard_max t) x
    (process t) (t_prev t) (t_next t) (next_blocked t) (next_sleeping t) (next_pthread t) (prev_pthread t).
Definition set_kernel_stack (x : stack) (t : thread) : thread :=
  Thread (rsp t) (tid t) (state t) x (user_stack t) (page_guard_min t) (page_guard_max t) (sse_avx_buffer t)
    (process t) (t_prev t) (t_next t) (next_blocked t) (next_sleeping t) (next_pthread t) (prev_pthread t).
Definition set_user_stack (x : stack) (t : thread) : thread :=
  Thread (rsp t) (tid t) (state t) (kernel_stack t) x (page_guard_min t) (page_guard_max t) (sse_avx_buffer t)
    (process t) (t_prev t) (t_next t) (next_blocked t) (next_sleeping t) (next_pthread t) (prev_pthread t).
Definition set_process (x : Z) (t : thread) : thread :=
  Thread (rsp t) (tid t) (state t) (kernel_stack t) (user_stack t) (page_guard_min t) (page_guard_max t) (sse_avx_buffer t)
    x (t_prev t) (t_next t) (next_blocked t) (next_sleeping t) (next_pthread t) (prev_pthread t).
Definition set_next_pthread (x : Z) (t : thread) : thread :=
  Thread (rsp t) (tid t) (state t) (kernel_stack t) (user_stack t) (page_guard_min t) (page_guard_max t) (sse_avx_buffer t)
    (process t) (t_prev t) (t_next t) (next_blocked t) (next_sleeping t) x (prev_pthread t).
Definition set_tid (x : Z) (t : thread) : thread :=
  Thread (rsp t) x (state t) (kernel_stack t) (user_stack t) (page_guard_min t) (page_guard_max t) (sse_avx_buffer t)
    (process t) (t_prev t) (t_next t) (next_blocked t) (next_sleeping t) (next_pthread t) (prev_pthread t).
Definition set_p_threads (x : Z) (p : proc) : proc :=
  Proc (p_cr3 p) (pid p) x (ustacks_infos p) (mmap_infos p) (fd_table p) (heap_start p) (p_heap_end p) (pages_alloced p).
Definition set_ustacks_infos (x : Z) (p : proc) : proc :=
  Proc (p_cr3 p) (pid p) (p_threads p) x (mmap_infos p) (fd_table p) (heap_start p) (p_heap_end p) (pages_alloced p).

(** * Operations *)

Section operations.
Context {St : Type} `{ThreadServices St}.

Definition on_thread (t : Z) (f : thread -> thread) : M (tsys St) unit := zoom l_t_sched (upd_thread t f).
Definition thread_at (t : Z) : M (tsys St) thread := zoom l_t_sched (get_thread t).
Definition proc_at (p : Z) : M (tsys St) proc := zoom l_t_sched (get_proc p).
Definition on_proc (p : Z) (f : proc -> proc) : M (tsys St) unit := zoom l_t_sched (upd_proc p f).
Definition kfree (p : Z) : M (tsys St) unit := zoom l_t_env (th_kfree p).

(** The object of a thread ends, and with it the thread. *)
Definition free_thread (t : Z) : M (tsys St) unit :=
  kfree t;; modify (fun s => set_t_sched (set_threads (delete t (threads (t_sched s))) (t_sched s)) s).

(** [stack_top--; *stack_top = v], in the address space in use. *)
Definition poke (a v : Z) (s : tsys St) : tsys St :=
  if a <? 2 ^ 47 then let c := cr3 (s_cpu (t_sched s)) in set_t_umem (<[c := store64 (default ∅ (t_umem s !! c)) a v]> (t_umem s)) s
  else set_t_kmem (store64 (t_kmem s) a v) s.
Definition push (top v : Z) : M (tsys St) Z :=
  let top' := u64 (top - 8) in modify (poke top' v);; mret top'.
Fixpoint push_zeros (n : nat) (top : Z) : M (tsys St) Z :=
  match n with O => mret top | S n' => top' ← push top 0; push_zeros n' top' end.

(** The stack of a new thread: where its function returns to, and the registers
    for the return from the interrupt that starts it. *)
Definition build_stack (top ret ss cs entry : Z) : M (tsys St) Z :=
  let stack_top := Z.land top (u64 (Z.lnot 15)) in
  clean ← push stack_top ret;
  t ← push clean ss;
  t ← push t clean;
  t ← push t 0x202;
  t ← push t cs;
  t ← push t entry;
  push_zeros 15 t.

(** [(thread_t * )kmalloc(sizeof(thread_t))], cleared. *)
Definition new_thread : M (tsys St) Z :=
  t ← zoom l_t_env (th_kmalloc sizeof_thread);
  when (truthy t) (modify (fun s => set_t_sched (set_threads (<[t := blank_thread]> (threads (t_sched s))) (t_sched s)) s));;
  mret t.

(** The buffer for vector registers; false when there is no memory for it. *)
Definition new_sse_buffer (t : Z) : M (tsys St) bool :=
  n ← gets sse_avx_buf_size;
  if truthy n then
    b ← zoom l_t_env (th_vmalloc n);
    on_thread t (set_sse b);;
    if negb (truthy b) then free_thread t;; mret false
    else modify (fun s => set_t_kmem (memset (Z.to_nat n) b 0 (t_kmem s)) s);; mret true
  else mret true.

(** [kfree(t->sse_avx_buffer); kfree(t)]. *)
Definition drop_thread (t : Z) : M (tsys St) unit :=
  x ← thread_at t;
  kfree (sse_avx_buffer x);;
  free_thread t.

(** The fields both kinds of threads are given last. *)
Definition start_thread (t stack_top : Z) : M (tsys St) unit :=
  on_thread t (set_rsp stack_top);;
  id ← gets next_thread_id;
  modify (set_next_thread_id (u64 (id + 1)));;
  on_thread t (set_tid id);;
  on_thread t (set_state READY);;
  on_thread t (set_t_next 0);;
  on_thread t (set_t_prev 0);;
  zoom l_t_sched (enqueue_thread t).

(** [exit_addr] is the address of [thread_exit]. *)
Definition create_thread (exit_addr entry_point stack_size : Z) : M (tsys St) Z :=
  t ← new_thread;
  if negb (truthy t) then mret 0
  else
    ok ← new_sse_buffer t;
    if negb (ok : bool) then mret 0
    else
      stack_mem ← zoom l_t_env (th_kernel_alloc_stack stack_size);
      if negb (truthy stack_mem) then drop_thread t;; mret 0
      else
        on_thread t (set_kernel_stack (Stack (u64 (stack_mem + stack_size)) stack_mem stack_size));;
        stack_top ← build_stack (u64 (stack_mem + stack_size)) exit_addr 0x10 0x08 entry_point;
        start_thread t stack_top;;
        mret t.

(** [t->process = proc] and the list of the threads of the process. *)
Definition join_process (t p : Z) : M (tsys St) unit :=
  on_thread t (set_process p);;
  x ← proc_at p;
  on_thread t (set_next_pthread (p_threads x));;
  when (truthy (p_threads x)) (on_thread (p_threads x) (set_t_prev t));;
  on_proc p (set_p_threads t).

(** The stack lists are switched with the address space. *)
Definition get_us_list : M (tsys St) Z := gets (fun s => us_list_head (t_sched s)).
Definition set_us_list (h : Z) : M (tsys St) unit :=
  modify (fun s => set_t_sched (set_lists h (mmap_list_head (t_sched s)) (t_sched s)) s).

Definition create_user_thread (p entry_point kstack_size ustack_size : Z) : M (tsys St) Z :=
  t ← new_thread;
  if negb (truthy t) then mret 0
  else
    ok ← new_sse_buffer t;
    if negb (ok : bool) then mret 0
    else
      kernel_stack_mem ← zoom l_t_env (th_kernel_alloc_stack kstack_size);
      if negb (truthy kernel_stack_mem) then drop_thread t;; mret 0
      else
        join_process t p;;
        old_list ← get_us_list;
        old_cr3 ← read_cr3 l_t_cpu;
        rflags ← spin_lock_irqsave l_t_cpu l_create_lock;
        x ← proc_at p;
        set_us_list (ustacks_infos x);;
        write_cr3 l_t_cpu (p_cr3 x);;
        h ← get_us_list;
        c ← read_cr3 l_t_cpu;
        r ← zoom l_t_env (th_user_alloc_stack h c ustack_size);
        set_us_list (snd r);;
        let user_stack_mem := fst r in
        if negb (truthy user_stack_mem) then
          set_us_list old_list;;
          write_cr3 l_t_cpu old_cr3;;
          drop_thread t;;
          mret 0
        else
          stack_top ← build_stack user_stack_mem USER_TRAMPOLINE 0x1B 0x23 entry_point;
          h ← get_us_list;
          on_proc p (set_ustacks_infos h);;
          set_us_list old_list;;
          write_cr3 l_t_cpu old_cr3;;
          spin_lock_irqrestore l_t_cpu l_create_lock rflags;;
          on_thread t (set_kernel_stack (Stack (u64 (kernel_stack_mem + kstack_size)) kernel_stack_mem kstack_size));;
          on_thread t (set_user_stack (Stack user_stack_mem (u64 (user_stack_mem - ustack_size)) ustack_size));;
          on_thread t (fun y => set_page_guard (u64 (u64 (user_stack_mem - PAGE_SIZE_4KB) - PAGE_SIZE_4KB)) (u64 (user_stack_mem - PAGE_SIZE_4KB)) y);;
          start_thread t stack_top;;
          mret t.

(** The memory of a process without threads. *)
Fixpoint munmap_all (fuel : nat) (cur pml4 : Z) : M (tsys St) unit :=
  if truthy cur then
    match fuel with
    | O => fail Hang
    | S fuel' =>
        zoom l_t_env (th_munmap_by_info cur pml4);;
        nxt ← zoom l_t_env (th_area_next cur);
        munmap_all fuel' nxt pml4
    end
  else mret tt.
Definition destroy_process (fuel : nat) (p : Z) : M (tsys St) unit :=
  x ← proc_at p;
  munmap_all fuel (mmap_infos x) (p_cr3 x);;
  for_loop (Z.to_nat (pages_alloced x)) 0 (fun i =>
    paddr ← zoom l_t_env (th_unmap_page (p_cr3 x) (u64 (heap_start x + i * PAGE_SIZE_4KB)));
    zoom l_t_env (th_free_page paddr));;
  for_loop (Z.to_nat (MAX_FD - 3)) 3 (fun i =>
    cur ← gets (fun s => current_thread (t_sched s));
    c ← thread_at cur;
    q ← proc_at (process c);
    when (truthy (default 0 (fd_table q !! i))) (kfree (default 0 (fd_table q !! i))));;
  kfree p;;
  modify (fun s => set_t_sched (set_procs (delete p (procs (t_sched s))) (t_sched s)) s);;
  x ← proc_at p;
  zoom l_t_env (th_free_page (p_cr3 x)).

(** The user stack is freed in the address space of the process. *)
Definition free_user_stack (p bottom : Z) : M (tsys St) unit :=
  old_list ← get_us_list;
  old_cr3 ← read_cr3 l_t_cpu;
  rflags ← spin_lock_irqsave l_t_cpu l_destroy_lock;
  x ← proc_at p;
  set_us_list (ustacks_infos x);;
  write_cr3 l_t_cpu (p_cr3 x);;
  h ← get_us_list;
  c ← read_cr3 l_t_cpu;
  h' ← zoom l_t_env (th_user_free_stack h c bottom);
  set_us_list h';;
  h ← get_us_list;
  on_proc p (set_ustacks_infos h);;
  set_us_list old_list;;
  write_cr3 l_t_cpu old_cr3;;
  spin_lock_irqrestore l_t_cpu l_destroy_lock rflags.

(** The comparison [t->process->threads == t->next] has no effect. *)
Definition leave_process (fuel : nat) (t : Z) : M (tsys St) unit :=
  x ← thread_at t;
  when (truthy (next_pthread x)) (on_thread (next_pthread x) (set_t_prev (t_prev x)));;
  x ← thread_at t;
  when (truthy (prev_pthread x)) (on_thread (prev_pthread x) (set_t_next (t_next x)));;
  p ← proc_at (process x);
  when (negb (truthy (p_threads p))) (destroy_process fuel (process x)).

Definition destroy_thread (fuel : nat) (t : Z) : M (tsys St) unit :=
  if truthy t then
    x ← thread_at t;
    when (truthy (bottom (kernel_stack x))) (kfree (bottom (kernel_stack x)));;
    when (truthy (bottom (user_stack x)) && truthy (process x)) (
      free_user_stack (process x) (bottom (user_stack x));;
      leave_process fuel t);;
    free_thread t
  else mret tt.

(** [cleanup_dead_threads]: the successor is read before a thread is destroyed. *)
Fixpoint destroy_dead (fuel depth : nat) (t : Z) : M (tsys St) unit :=
  if truthy t then
    match fuel with
    | O => fail Hang
    | S fuel' =>
        x ← thread_at t;
        destroy_thread depth t;;
        destroy_dead fuel' depth (t_next x)
    end
  else mret tt.
Definition cleanup_dead_threads (fuel depth : nat) : M (tsys St) unit :=
  cli l_t_cpu;;
  t ← gets (fun s => dead_list_head (t_sched s));
  modify (fun s => set_t_sched (set_dead_list_head 0 (t_sched s)) s);;
  sti l_t_cpu;;
  destroy_dead fuel depth t.

(** [init_scheduler]; the object of the main thread holds what the memory held,
    [junk]. [pcid_flags] is [CR3_NOFLUSH] when the processor has PCIDs, else 0. *)
Definition init_scheduler (exit_addr kring_flush cleanup_threads pcid_flags : Z) (junk : thread) : M (tsys St) Z :=
  kp ← zoom l_t_env (th_kmalloc sizeof_process);
  c ← read_cr3 l_t_cpu;
  modify (fun s => set_t_sched (set_procs (<[kp := Proc (Z.lor c pcid_flags) 0 0 0 0 ∅ 0 0 0]> (procs (t_sched s))) (t_sched s)) s);;
  main_thread ← zoom l_t_env (th_kmalloc sizeof_thread);
  modify (fun s => set_t_sched (set_threads (<[main_thread := junk]> (threads (t_sched s))) (t_sched s)) s);;
  n ← gets sse_avx_buf_size;
  b ← zoom l_t_env (th_vmalloc n);
  on_thread main_thread (set_sse b);;
  id ← gets next_thread_id;
  modify (set_next_thread_id (u64 (id + 1)));;
  on_thread main_thread (set_tid id);;
  on_thread main_thread (set_state RUNNING);;
  on_thread main_thread (set_rsp 0);;
  on_thread main_thread (fun x => set_kernel_stack (Stack (top (kernel_stack x)) 0 (stack_size (kernel_stack x))) x);;
  on_thread main_thread (set_process kp);;
  zoom l_t_sched (enqueue_thread main_thread);;
  modify (fun s => set_t_sched (set_current_thread main_thread (t_sched s)) s);;
  kr_thread ← create_thread exit_addr kring_flush 4096;
  cln_thread ← create_thread exit_addr cleanup_threads 4096;
  on_thread main_thread (set_next_pthread kr_thread);;
  on_thread kr_thread (set_next_pthread cln_thread);;
  on_proc kp (set_p_threads main_thread);;
  mret main_thread.

End operations.

(** * Specification *)

(** The result of a request for a kernel area of [n] bytes: null, which it is not
    while [v] are guaranteed, or an area apart from the others. *)
Inductive area_result (area area' : Z -> Z -> Prop) (v : nat) (n : Z) : Z -> Prop :=
  | no_area : v = O -> area' = area -> area_result area area' v n 0
  | an_area r : 2 ^ 47 <= r -> r + n <= 2 ^ 64 - 2 ^ 32 -> r mod 4096 = 0 -> (forall a m, area a m -> a + m <= r \/ r + n <= a) ->
      (forall a m, area' a m <-> (a = r /\ m = n) \/ area a m) -> area_result area area' v n r.

(** The services: [th_ok (k, v) s] guarantees [k] more objects and [v] more kernel
    areas; areas are page-aligned, above the user's half, and new. *)
Class ThreadLaws (St : Type) `{ThreadServices St} : Type := {
  th_ok : nat * nat -> St -> Prop;
  th_obj : St -> Z -> Prop;
  th_area : St -> Z -> Z -> Prop;
  wp_th_kmalloc k v n s : th_ok (k, v) s -> 0 < n ->
    wp (th_kmalloc n) (fun r s' => th_ok (Nat.pred k, v) s' /\ th_area s' = th_area s /\
      ((r = 0 /\ k = O /\ th_obj s' = th_obj s) \/ (r <> 0 /\ ~ th_obj s r /\ forall p, th_obj s' p <-> p = r \/ th_obj s p))) s;
  wp_th_kfree b p s : th_ok b s -> p = 0 \/ th_obj s p ->
    wp (th_kfree p) (fun _ s' => th_ok b s' /\ th_area s' = th_area s /\ forall q, th_obj s' q <-> th_obj s q /\ (q <> p \/ p = 0)) s;
  wp_th_vmalloc k v n s : th_ok (k, v) s -> 0 < n <= 2 ^ 31 ->
    wp (th_vmalloc n) (fun r s' => th_ok (k, Nat.pred v) s' /\ th_obj s' = th_obj s /\
      area_result (th_area s) (th_area s') v n r) s;
  wp_th_kernel_alloc_stack k v n s : th_ok (k, v) s -> 0 < n <= 2 ^ 31 ->
    wp (th_kernel_alloc_stack n) (fun r s' => th_ok (k, Nat.pred v) s' /\ th_obj s' = th_obj s /\
      area_result (th_area s) (th_area s') v n r) s;
  wp_th_user_alloc_stack b h c n s : th_ok b s -> 0 < n <= 2 ^ 31 ->
    wp (th_user_alloc_stack h c n) (fun r s' => th_ok b s' /\ (forall p, th_obj s p -> th_obj s' p) /\ th_area s' = th_area s /\
      ((r.1 = 0 /\ r.2 = h) \/ (2 ^ 31 + n <= r.1 <= 0x00007FFFFFFFF000))) s;
  wp_th_user_free_stack b h c p s : th_ok b s ->
    wp (th_user_free_stack h c p) (fun _ s' => th_ok b s' /\ th_obj s' = th_obj s /\ th_area s' = th_area s) s;
}.

(** What the return from the interrupt loads when the stack pointer is [sp]: the
    fifteen registers, and then where it goes on. *)
Record context : Type := Context { c_regs : list Z; c_rip : Z; c_cs : Z; c_rflags : Z; c_rsp : Z; c_ss : Z }.
Definition context_at (m : memory) (sp : Z) : context :=
  let w i := load64 m (sp + 8 * i) in
  Context (w <$> seqZ 0 15) (w 15) (w 16) (w 17) (w 18) (w 19).
(** A thread that begins to run [entry] with a clean stack; what the function
    finds as its return address. *)
Definition starts_at (m : memory) (sp entry cs ss ret : Z) : Prop :=
  context_at m sp = Context (replicate 15 0) entry cs 0x202 (sp + 160) ss /\ load64 m (sp + 160) = ret.

(** * Lemmas: the first stack *)

Definition l_space {St} (c : option Z) : lens (tsys St) memory :=
  match c with
  | None => Lens t_kmem set_t_kmem
  | Some c => Lens (fun s => default ∅ (t_umem s !! c)) (fun m s => set_t_umem (<[c := m]> (t_umem s)) s)
  end.
Section stacks.
Context {St : Type}.
Implicit Types s : tsys St.

Lemma view_space c m s : view (l_space c) (over (l_space c) m s) = m.
Proof. destruct c; [| done]. cbn. by rewrite lookup_insert_eq. Qed.
Lemma over_space c m m' s : over (l_space c) m (over (l_space c) m' s) = over (l_space c) m s.
Proof. destruct c; [| done]. cbn. unfold set_t_umem. cbn. by rewrite insert_insert_eq. Qed.

(** Which memory the addresses below [top] are of. *)
Definition in_space (c : option Z) (top : Z) s : Prop :=
  match c with None => 2 ^ 47 + 256 <= top < 2 ^ 64 | Some c => 256 <= top < 2 ^ 47 /\ c = cr3 (s_cpu (t_sched s)) end.

Lemma poke_space c top a v s : in_space c top s -> top - 256 <= a < top -> poke a v s = over (l_space c) (store64 (view (l_space c) s) a v) s.
Proof. intros Hc Ha. unfold poke. destruct c as [c|]; cbn in Hc |- *; [destruct Hc as [Hc ->] |]; destruct (Z.ltb_spec a (2 ^ 47)); [done | lia | lia | done]. Qed.

Lemma in_space_over c c' top m s : in_space c top (over (l_space c') m s) <-> in_space c top s.
Proof. by destruct c, c'. Qed.

(** Values stored one below the other. *)
Fixpoint stores (m : memory) (top : Z) (vs : list Z) : memory :=
  match vs with [] => m | v :: vs' => stores (store64 m (top - 8) v) (top - 8) vs' end.

Lemma stores_only m top vs : Forall (fun v => 0 <= v < 2 ^ 64) vs -> only_bytes (top - 8 * Z.of_nat (length vs)) top m (stores m top vs).
Proof.
  revert m top. induction vs as [|v vs IH]; intros m top Hv; cbn [stores length]; [by intros x Hx |]. apply Forall_cons in Hv as [Hv Hvs].
  intros x Hx. rewrite IH by (done || lia). apply rd_store64; lia.
Qed.

Lemma load64_frame a b m m' e : only_bytes a b m m' -> b <= e \/ e + 8 <= a -> load64 m' e = load64 m e.
Proof. intros Hm He. unfold load64, load32. by rewrite !Hm by lia. Qed.

Lemma load_stores m top vs i v : Forall (fun v => 0 <= v < 2 ^ 64) vs -> vs !! i = Some v -> load64 (stores m top vs) (top - 8 * Z.of_nat (S i)) = v.
Proof.
  revert m top i. induction vs as [|v0 vs IH]; intros m top i Hv Hi; [done |]. apply Forall_cons in Hv as [Hv Hvs]. destruct i as [|i]; cbn [stores].
  - injection Hi as ->. rewrite (load64_frame _ _ _ _ _ (stores_only _ _ _ Hvs)) by lia. replace (top - 8 * Z.of_nat 1) with (top - 8) by lia. by apply load_store64.
  - rewrite <- (IH (store64 m (top - 8) v0) (top - 8) i Hvs Hi). f_equal. lia.
Qed.

Lemma wp_push c top0 top v (Q : Z -> tsys St -> Prop) s : in_space c top0 s -> top0 - 248 <= top <= top0 ->
  Q (top - 8) (over (l_space c) (store64 (view (l_space c) s) (top - 8) v) s) -> wp (push top v) Q s.
Proof.
  intros Hc Ht HQ. assert (0 <= top - 8 < 2 ^ 64) as Hr by (destruct c as [c|]; cbn in Hc; lia).
  unfold push. rewrite u64_small by done. apply wp_bind, wp_modify, wp_ret. rewrite (poke_space c top0) by (done || lia). done.
Qed.

Lemma wp_push_zeros c top0 n top m (Q : Z -> tsys St -> Prop) s : in_space c top0 s -> top0 - 248 + 8 * Z.of_nat n <= top <= top0 ->
  Q (top - 8 * Z.of_nat n) (over (l_space c) (stores m top (replicate n 0)) s) -> wp (push_zeros n top) Q (over (l_space c) m s).
Proof.
  revert top m. induction n as [|n IH]; intros top m Hc Ht HQ; cbn [push_zeros replicate stores] in *.
  - apply wp_ret. by rewrite Z.sub_0_r in HQ.
  - apply wp_bind. eapply wp_push; [by apply in_space_over | lia |]. rewrite view_space, over_space. apply IH; [done | lia |].
    replace (top - 8 - 8 * Z.of_nat n) with (top - 8 * Z.of_nat (S n)) by lia. exact HQ.
Qed.

(** What [build_stack] writes below the aligned top. *)
Definition first_words (top ret ss cs entry : Z) : list Z := [ret; ss; top - 8; 0x202; cs; entry] ++ replicate 15 0.
Definition aligned (top : Z) : Z := top / 16 * 16.

Lemma wp_build_stack c top ret ss cs entry (Q : Z -> tsys St -> Prop) s : in_space c (aligned top) s -> 0 <= top < 2 ^ 64 ->
  Q (aligned top - 168) (over (l_space c) (stores (view (l_space c) s) (aligned top) (first_words (aligned top) ret ss cs entry)) s) ->
  wp (build_stack top ret ss cs entry) Q s.
Proof.
  intros Hc Ht HQ. unfold build_stack. change (u64 (Z.lnot 15)) with (2 ^ 64 - 2 ^ 4). rewrite land_high_mask by lia.
  change (2 ^ 4) with 16. fold (aligned top). set (A := aligned top) in *. clearbody A.
  do 6 (apply wp_bind; eapply wp_push; [repeat apply in_space_over; exact Hc | lia |]).
  rewrite !view_space, !over_space. eapply (wp_push_zeros c A); [done | lia |].
  replace (A - 8 - 8 - 8 - 8 - 8 - 8 - 8 * Z.of_nat 15) with (A - 168) by lia. exact HQ.
Qed.

Lemma first_words_start m top ret ss cs entry : 256 <= top < 2 ^ 64 -> 0 <= ret < 2 ^ 64 -> 0 <= ss < 2 ^ 16 -> 0 <= cs < 2 ^ 16 -> 0 <= entry < 2 ^ 64 ->
  let m' := stores m top (first_words top ret ss cs entry) in starts_at m' (top - 168) entry cs ss ret /\ only_bytes (top - 168) top m m'.
Proof.
  intros Ht Hr Hss Hcs He m'. set (vs := first_words top ret ss cs entry) in *.
  assert (Forall (fun v => 0 <= v < 2 ^ 64) vs) as Hv by (repeat constructor; lia).
  split; [| exact (stores_only m top vs Hv)]. 
  assert (forall i v, vs !! (20 - i)%nat = Some v -> (i <= 20)%nat -> load64 m' (top - 168 + 8 * Z.of_nat i) = v) as Hw.
  { intros i v Hi Hle. rewrite <- (load_stores m top vs (20 - i) v Hv Hi). unfold m'. f_equal. lia. }
  clearbody m'. unfold starts_at, context_at. cbn zeta.
  assert (load64 m' (top - 168 + 8 * 18) = top - 8) as E18 by (apply (Hw 18%nat); [done | lia]).
  split.
  - f_equal; [| by apply (Hw 15%nat); [| lia] | by apply (Hw 16%nat); [| lia] | by apply (Hw 17%nat); [| lia] | rewrite E18; lia | by apply (Hw 19%nat); [| lia]].
    apply list_eq. intros i. rewrite list_lookup_fmap. destruct (decide (i < 15)%nat) as [Hi|Hi].
    + rewrite <- (Nat2Z.id i) at 1. rewrite lookup_seqZ_lt by lia. rewrite lookup_replicate_2 by done. cbn. f_equal. rewrite Z.add_0_l, Nat2Z.id.
      apply Hw; [| lia]. replace (20 - i)%nat with (6 + (14 - i))%nat by lia. change (replicate 15 0 !! (14 - i)%nat = Some 0). apply lookup_replicate_2. lia.
    + rewrite !lookup_ge_None_2; [done | rewrite length_replicate; lia | rewrite length_seqZ; lia].
  - apply (Hw 20%nat); [done | lia].
Qed.
End stacks.

(** * Lemmas: making a thread *)

(** A thread outside of the ring and the list of the dead can be anything. *)
Lemma sched_inv_outside t x l d (s : sched) : sched_inv s l d -> t ∉ l -> t ∉ d -> sched_inv (set_threads (<[t := x]> (threads s)) s) l d.
Proof.
  intros [Hr Hc Hst Hd Hdj Hp H3] Hl Hdd.
  assert (forall p, p <> t -> thread_of (<[t := x]> (threads s)) p = thread_of (threads s) p) as Hof by (intros p Hp'; unfold thread_of; by rewrite lookup_insert_ne).
  assert (forall p, p ∈ l -> p <> t) as Hlt by (by intros p Hin ->). assert (forall p, p ∈ d -> p <> t) as Hdt by (by intros p Hin ->).
  split; cbn.
  - apply (ready_ring_ext s); [done | done |]. intros p Hin. cbn. rewrite Hof by auto. split; [| done]. rewrite lookup_insert_ne by (symmetry; auto). by apply Hr.
  - done.
  - intros p Hin Hne. rewrite Hof by auto. by apply Hst.
  - apply (linked_ext t_next (threads s)); [done |]. intros p Hin. rewrite Hof by auto. split; [| done]. by rewrite lookup_insert_ne by (symmetry; auto).
  - done.
  - intros p Hin. rewrite Hof by auto. by apply Hp.
  - unfold cur_proc. cbn. by rewrite Hof by auto.
Qed.

(** A new thread, whatever it holds so far, next to the rest of the system. *)
Definition with_thread {St} (t : Z) (x : thread) (s : tsys St) : tsys St := set_t_sched (set_threads (<[t := x]> (threads (t_sched s))) (t_sched s)) s.

(** The thread [t], made of [x], has joined the end of the ring. *)
Record created (t : Z) (x : thread) (l d : list Z) (s s' : sched) : Prop := {
  cr_sched : sched_inv s' (l ++ [t]) d;
  cr_thread : no_ring (thread_of (threads s') t) = x;
  cr_others p : p <> t -> no_ring (thread_of (threads s') p) = no_ring (thread_of (threads s) p);
  cr_live p : is_Some (threads s' !! p) <-> p = t \/ is_Some (threads s !! p);
  cr_rest : set_ready_list_head 0 (set_threads ∅ s') = set_ready_list_head 0 (set_threads ∅ s);
}.

Lemma created_rsp t x l d s s' : created t x l d s s' -> rsp (thread_of (threads s') t) = rsp x /\
  forall p, p <> t -> rsp (thread_of (threads s') p) = rsp (thread_of (threads s) p).
Proof.
  intros [_ Ht Ho _ _]. split; [exact (f_equal rsp Ht) |]. intros p Hp. exact (f_equal rsp (Ho p Hp)).
Qed.
Lemma created_same t x l d s s' : created t x l d s s' -> current_thread s' = current_thread s /\ procs s' = procs s.
Proof. intros [_ _ _ _ Hr]. split; [exact (f_equal current_thread Hr) | exact (f_equal procs Hr)]. Qed.

Section creation.
Context {St : Type} `{ThreadLaws St}.
Implicit Types s : tsys St.

Lemma with_thread_twice t x y s : with_thread t x (with_thread t y s) = with_thread t x s.
Proof. unfold with_thread. cbn. by rewrite insert_insert_eq. Qed.

Lemma wp_on_new t x f (Q : unit -> tsys St -> Prop) s : Q tt (with_thread t (f x) s) -> wp (on_thread t f) Q (with_thread t x s).
Proof.
  intros HQ. apply wp_zoom, wp_upd_thread; [cbn; rewrite lookup_insert_eq; by eexists |]. cbn.
  unfold upd, thread_of. rewrite lookup_insert_eq. cbn. rewrite insert_insert_eq. exact HQ.
Qed.

Lemma wp_thread_new t x (Q : thread -> tsys St -> Prop) s : Q x (with_thread t x s) -> wp (thread_at t) Q (with_thread t x s).
Proof.
  intros HQ. apply wp_zoom, wp_get_thread; [cbn; rewrite lookup_insert_eq; by eexists |]. cbn. unfold thread_of. by rewrite lookup_insert_eq.
Qed.

(** The state before a thread is made: its objects are in use. *)
Record tsys_ok (b : nat * nat) (l d : list Z) s : Prop := {
  tk_env : th_ok b (t_env s);
  tk_sched : sched_inv (t_sched s) l d;
  tk_objs p : is_Some (threads (t_sched s) !! p) -> th_obj (t_env s) p;
  tk_sse : 0 <= sse_avx_buf_size s <= 2 ^ 31;
}.

(** The dead have not lost their objects. *)
Lemma linked_live f m h d p : linked f m h d -> p ∈ d -> is_Some (m !! p).
Proof.
  revert h. induction d as [|a d IH]; intros h; cbn; [by intros _ ?%elem_of_nil |]. intros (_ & _ & Ha & Hd) [-> | Hp]%elem_of_cons; [done | by eapply IH].
Qed.
Lemma fresh_outside b l d s t : tsys_ok b l d s -> ~ th_obj (t_env s) t -> threads (t_sched s) !! t = None /\ (t ∉ l) /\ t ∉ d.
Proof.
  intros [_ Hs Ho _] Ht. assert (forall p, is_Some (threads (t_sched s) !! p) -> p <> t) as Hne by (intros p Hp ->; by apply Ht, Ho).
  split; [| split].
  - destruct (threads (t_sched s) !! t) eqn:E; [| done]. exfalso. by apply (Hne t).
  - intros Hin. by apply (Hne t (rr_live _ _ (si_ring _ _ _ Hs) t Hin)).
  - intros Hin. by apply (Hne t (linked_live _ _ _ _ _ (si_dead _ _ _ Hs) Hin)).
Qed.

Lemma wp_new_thread k v l d s (Q : Z -> tsys St -> Prop) : tsys_ok (S k, v) l d s ->
  (forall t e, t <> 0 -> ~ th_obj (t_env s) t -> th_ok (k, v) e -> th_area e = th_area (t_env s) -> (forall p, th_obj e p <-> p = t \/ th_obj (t_env s) p) ->
     Q t (with_thread t blank_thread (set_t_env e s))) -> wp new_thread Q s.
Proof.
  intros [He _ _ _] HQ. apply wp_bind, wp_zoom. eapply wp_mono; [by apply (wp_th_kmalloc (S k) v sizeof_thread) |].
  intros t e (He' & Ha & [(_ & [=] & _)|(Ht & Hf & Ho)]). apply wp_bind. rewrite (proj2 (truthy_true t) Ht). cbn [when]. apply wp_modify, wp_ret. by apply HQ.
Qed.

(** The buffer at [b], of the size it has when there is one, is cleared. *)
Definition buffer_clear (n b : Z) (m m' : memory) : Prop :=
  if n =? 0 then b = 0 /\ m' = m else m' = memset (Z.to_nat n) b 0 m /\ b <> 0.

Lemma wp_new_sse_buffer k v t x s (Q : bool -> tsys St -> Prop) : th_ok (k, S v) (t_env s) -> 0 <= sse_avx_buf_size s <= 2 ^ 31 -> sse_avx_buffer x = 0 ->
  (forall b e m, th_ok (k, v) e \/ th_ok (k, S v) e -> th_obj e = th_obj (t_env s) -> buffer_clear (sse_avx_buf_size s) b (t_kmem s) m ->
     (forall a n, th_area (t_env s) a n -> th_area e a n) -> (sse_avx_buf_size s <> 0 -> th_area e b (sse_avx_buf_size s) /\
        forall a n, th_area (t_env s) a n -> a + n <= b \/ b + sse_avx_buf_size s <= a) ->
     Q true (with_thread t (set_sse b x) (set_t_kmem m (set_t_env e s)))) ->
  wp (new_sse_buffer t) Q (with_thread t x s).
Proof.
  intros He Hn Hx HQ. unfold new_sse_buffer. apply wp_bind, wp_gets. cbn [sse_avx_buf_size with_thread set_t_sched]. unfold buffer_clear in HQ.
  destruct (truthy (sse_avx_buf_size s)) eqn:E; [apply truthy_true in E | apply truthy_false in E].
  - apply wp_bind, wp_zoom. eapply wp_mono; [apply (wp_th_vmalloc k (S v) (sse_avx_buf_size s)); [done | lia] |]. intros b e (He' & Ho & Hb).
    inversion Hb as [[=] | ? H1 H2 H3 H4 H5]; subst. apply wp_bind. apply (wp_on_new t x (set_sse b) _ (set_t_env e s)).
    rewrite (proj2 (truthy_true b)) by lia. cbn [negb]. apply wp_bind, wp_modify, wp_ret.
    refine (HQ b e (memset (Z.to_nat (sse_avx_buf_size s)) b 0 (t_kmem s)) _ Ho _ _ _); [by left | | intros; apply H5; by right | intros _; split; [apply H5; by left | exact H4]].
    rewrite (proj2 (Z.eqb_neq _ _) E). split; [done | lia].
  - apply wp_ret. assert (set_sse 0 x = x) as Ex by (destruct x; cbn in *; by subst).
    pose proof (HQ 0 (t_env s) (t_kmem s)) as HQ'. rewrite Ex, E in HQ'. cbn in HQ'. destruct s. apply HQ'; [by right | done | done | done | done].
Qed.

(** The last steps: [x] gets its stack pointer, number and state. *)
Definition started (sp id : Z) (x : thread) : thread := no_ring (set_state READY (set_tid id (set_rsp sp x))).

Lemma wp_start_thread t x sp l d s (Q : unit -> tsys St -> Prop) : sched_inv (t_sched s) l d -> t <> 0 -> threads (t_sched s) !! t = None -> t ∉ l -> t ∉ d ->
  (process x <> 0 -> is_Some (procs (t_sched s) !! process x)) ->
  (forall sc, created t (started sp (next_thread_id s) x) l d (t_sched s) sc -> Q tt (set_next_thread_id (u64 (next_thread_id s + 1)) (set_t_sched sc s))) ->
  wp (start_thread t sp) Q (with_thread t x s).
Proof.
  intros Hs Ht Hnone Hl Hd Hp HQ. unfold start_thread. apply wp_bind, wp_on_new, wp_bind, wp_gets, wp_bind, wp_modify. cbn [next_thread_id with_thread set_t_sched].
  set (id := next_thread_id s) in *. set (s1 := set_next_thread_id (u64 (id + 1)) s).
  change (set_next_thread_id (u64 (id + 1)) (with_thread t (set_rsp sp x) s)) with (with_thread t (set_rsp sp x) s1).
  do 4 (apply wp_bind, wp_on_new). set (y := set_t_prev 0 _). apply wp_zoom. cbn [view over l_t_sched with_thread t_sched set_t_sched].
  set (sc := set_threads (<[t:=y]> (threads (t_sched s1))) (t_sched s1)).
  assert (sched_inv sc l d) as Hsc by (by apply sched_inv_outside).
  assert (thread_of (threads sc) t = y) as Ey by (unfold thread_of, sc; cbn; by rewrite lookup_insert_eq).
  eapply wp_mono; [apply (wp_enqueue_thread l t sc); [apply Hsc | unfold sc; cbn; rewrite lookup_insert_eq; by eexists | done | done] |].
  intros [] sc' Hch. apply HQ. split.
  - apply (sched_inv_enqueue _ _ _ _ _ Hsc Hch Hd); rewrite Ey; [done | exact Hp].
  - destruct Hch as (m & h & -> & _ & Hm). cbn. rewrite (proj1 (proj2 (Hm t))), Ey. done.
  - destruct Hch as (m & h & -> & _ & Hm). intros p Hpt. cbn. rewrite (proj1 (proj2 (Hm p))). unfold thread_of, sc. cbn. by rewrite lookup_insert_ne.
  - destruct Hch as (m & h & -> & _ & Hm). intros p. cbn. rewrite (proj1 (Hm p)). unfold sc. cbn. rewrite lookup_insert_is_Some'. naive_solver.
  - destruct Hch as (m & h & -> & _ & _). done.
Qed.

Lemma aligned_bounds z : aligned z <= z < aligned z + 16.
Proof. unfold aligned. dlia. Qed.

(** ** Kernel threads *)

Lemma wp_create_thread k v l d exit_addr entry size s : tsys_ok (S k, S (S v)) l d s ->
  0 <= exit_addr < 2 ^ 64 -> 0 <= entry < 2 ^ 64 -> 272 <= size <= 2 ^ 31 ->
  wp (create_thread exit_addr entry size) (fun t s' => exists b r sp v', (v <= v')%nat /\
    created t (Thread sp (next_thread_id s) READY (Stack (r + size) r size) (Stack 0 0 0) 0 0 b 0 0 0 0 0 0 0) l d (t_sched s) (t_sched s') /\
    tsys_ok (k, v') (l ++ [t]) d s' /\ next_thread_id s' = u64 (next_thread_id s + 1) /\ r <= sp /\ sp + 168 <= r + size /\
    starts_at (t_kmem s') sp entry 0x08 0x10 exit_addr /\ (0 < sse_avx_buf_size s -> forall y, b <= y < b + sse_avx_buf_size s -> t_kmem s' @@ y = 0) /\
    (forall a n, th_area (t_env s) a n -> forall y, a <= y < a + n -> t_kmem s' @@ y = t_kmem s @@ y) /\ t_umem s' = t_umem s /\
    (forall a n, th_area (t_env s) a n \/ a = r /\ n = size -> th_area (t_env s') a n)) s.
Proof.
  intros Hok Hexit Hentry Hsize. unfold create_thread. apply wp_bind, (wp_new_thread k (S (S v)) l d); [done |]. intros t e Ht Hfresh He Ha Ho.
  destruct (fresh_outside _ _ _ _ _ Hok Hfresh) as (Hnone & Htl & Htd). rewrite (proj2 (truthy_true t) Ht). cbn [negb].
  apply wp_bind, (wp_new_sse_buffer k (S v)); [exact He | apply Hok | done |]. cbn [t_env set_t_env sse_avx_buf_size t_kmem]. intros b e1 m1 He1 Ho1 Hm1 Ha1 Hb1.
  assert (exists w, (v <= w)%nat /\ th_ok (k, S w) e1) as (w & Hw & He1') by (destruct He1; eauto). cbn [negb].
  apply wp_bind, wp_zoom. eapply wp_mono; [exact (wp_th_kernel_alloc_stack k (S w) size e1 He1' ltac:(lia)) |]. intros r e2 (He2 & Ho2 & Hr).
  inversion Hr as [[=] | ? H1 H2 H3 H4 H5]; subst. rewrite (proj2 (truthy_true r)) by lia. cbn [negb].
  set (s1 := set_t_kmem m1 (set_t_env e1 (set_t_env e s))). apply wp_bind, (wp_on_new t _ _ _ (set_t_env e2 s1)).
  rewrite u64_small by lia. set (x := set_kernel_stack _ _). set (s2 := set_t_env e2 s1). pose proof (aligned_bounds (r + size)) as Hal.
  apply wp_bind, (wp_build_stack None); [cbn; lia | lia |].
  destruct (first_words_start m1 (aligned (r + size)) exit_addr 0x10 0x08 entry) as [Hstart Honly]; [lia.. |].
  change (view (l_space None) (with_thread t x s2)) with m1. set (m2 := stores m1 _ _) in *. clearbody m2.
  apply wp_bind. change (over (l_space None) m2 (with_thread t x s2)) with (with_thread t x (set_t_kmem m2 s2)).
  apply (wp_start_thread t x _ l d); [apply Hok | done.. |]. intros sc Hsc. apply wp_ret. exists b, r, (aligned (r + size) - 168), w.
  split; [done |]. split; [exact Hsc |]. cbn [set_next_thread_id set_t_sched t_env t_sched t_kmem t_umem next_thread_id sse_avx_buf_size].
  split; [| split; [done |]]; [| split; [lia |]; split; [lia |]; split; [exact Hstart |]].
  { split; [done | apply (cr_sched _ _ _ _ _ _ Hsc) | | apply Hok]. intros p Hp. cbn. rewrite Ho2, Ho1, Ho. apply (cr_live _ _ _ _ _ _ Hsc) in Hp as [?|?]; [by left | right; by apply Hok]. }
  unfold buffer_clear in Hm1. split; [| split; [| split; [done |]]].
  - intros Hn y Hy. rewrite (proj2 (Z.eqb_neq _ _)) in Hm1 by lia. destruct Hm1 as [-> _]. destruct (Hb1 ltac:(lia)) as [Hb2 _]. apply H4 in Hb2.
    rewrite Honly by lia. rewrite memset_spec, decide_True by lia. done.
  - intros a n Han y Hy. rewrite Ha in Ha1, Hb1. pose proof (H4 a n (Ha1 a n Han)) as Hap. rewrite Honly by lia.
    destruct (Z.eqb_spec (sse_avx_buf_size s) 0) as [E|E]; [by destruct Hm1 as [_ ->] |]. destruct Hm1 as [-> _].
    destruct (Hb1 E) as [_ Hb2]. pose proof (Hb2 a n Han). rewrite memset_spec, decide_False by lia. done.
  - intros a n [Han | [-> ->]]; apply H5; [right; apply Ha1; by rewrite Ha | by left].
Qed.

(** ** User threads *)

(** The record of a process changes, but neither its table nor its existence. *)
Lemma sched_inv_procs l d (s : sched) p f : sched_inv s l d -> (forall x, p_cr3 (f x) = p_cr3 x) ->
  sched_inv (set_procs (<[p := f (proc_of (procs s) p)]> (procs s)) s) l d.
Proof.
  intros [Hr Hc Hst Hd Hdj Hp H3] Hf. split; cbn; [by apply (ready_ring_ext s); [.. | intros q Hq; split; [by apply Hr |]] | done | done | done | done | |].
  - intros q Hq Hne. destruct (decide (process (thread_of (threads s) q) = p)) as [-> | Hnp]; [rewrite lookup_insert_eq; by eexists |]. rewrite lookup_insert_ne by done. by apply Hp.
  - unfold cur_proc in *. cbn. intros Hne. rewrite H3 by done. unfold proc_of. destruct (decide (p = process (thread_of (threads s) (current_thread s)))) as [E|E].
    + rewrite <- E, lookup_insert_eq. cbn. by rewrite Hf.
    + by rewrite lookup_insert_ne.
Qed.

Lemma wp_proc_at p (Q : proc -> tsys St -> Prop) s : is_Some (procs (t_sched s) !! p) -> Q (proc_of (procs (t_sched s)) p) s -> wp (proc_at p) Q s.
Proof. intros Hp HQ. apply wp_zoom, wp_get_proc; [done |]. by destruct s. Qed.

Lemma wp_thread_at t x (Q : thread -> tsys St -> Prop) s : threads (t_sched s) !! t = Some x -> Q x s -> wp (thread_at t) Q s.
Proof.
  intros Hx HQ. apply wp_zoom, wp_get_thread; [by eexists |]. cbn. unfold thread_of. rewrite Hx. by destruct s.
Qed.

Lemma wp_on_proc p f (Q : unit -> tsys St -> Prop) s : is_Some (procs (t_sched s) !! p) ->
  Q tt (set_t_sched (set_procs (<[p := f (proc_of (procs (t_sched s)) p)]> (procs (t_sched s))) (t_sched s)) s) -> wp (on_proc p f) Q s.
Proof. intros Hp HQ. by apply wp_zoom, wp_upd_proc. Qed.

(** The process after it got its first thread. *)
Definition joined (t h : Z) (s : sched) (p : Z) : sched :=
  set_procs (<[p := set_ustacks_infos h (set_p_threads t (proc_of (procs s) p))]> (procs s)) s.

Definition first_user_thread (sp id r ks u us b p : Z) : thread :=
  Thread sp id READY (Stack (r + ks) r ks) (Stack u (u - us) us) (u - 0x2000) (u - 0x1000) b p 0 0 0 0 0 0.

(** A user stack can always be had. *)
Definition stacks_given (n : Z) : Prop := forall b e h c, th_ok b e -> wp (th_user_alloc_stack h c n) (fun r _ => r.1 <> 0) e.

Lemma wp_create_user_thread k v l d p entry ks us s : tsys_ok (S k, S (S v)) l d s -> create_thread_lock s = 0 ->
  is_Some (procs (t_sched s) !! p) -> p_threads (proc_of (procs (t_sched s)) p) = 0 ->
  0 <= entry < 2 ^ 64 -> 0 < ks <= 2 ^ 31 -> 0 < us <= 2 ^ 31 -> (sse_avx_buf_size s = 0 \/ stacks_given us) ->
  forall Q : Z -> tsys St -> Prop,
  (forall t x e w s1, t <> 0 -> threads (t_sched s) !! t = None -> th_ok (k, w) e -> th_obj e t ->
     sse_avx_buffer x = 0 -> t_env s1 = e -> create_thread_lock s1 = 1 ->
     t_sched s1 = set_s_cpu (Cpu (Z.ldiff (rflags (s_cpu (t_sched s))) FLAGS_IF) (cr3 (s_cpu (t_sched s))))
       (set_procs (<[p := set_p_threads t (proc_of (procs (t_sched s)) p)]> (procs (t_sched s))) (t_sched s)) ->
     wp (drop_thread t;; mret 0) Q (with_thread t x s1)) ->
  (forall t b r u h sp w s', (v <= w)%nat -> sp < u ->
     created t (first_user_thread sp (next_thread_id s) r ks u us b p) l d (joined t h (t_sched s) p) (t_sched s') ->
     tsys_ok (k, w) (l ++ [t]) d s' -> next_thread_id s' = u64 (next_thread_id s + 1) -> create_thread_lock s' = 0 ->
     (forall a n, th_area (t_env s) a n -> forall y, a <= y < a + n -> t_kmem s' @@ y = t_kmem s @@ y) ->
     let c := p_cr3 (proc_of (procs (t_sched s)) p) in
     (forall c', c' <> c -> t_umem s' !! c' = t_umem s !! c') -> starts_at (t_umem s' !!! c) sp entry 0x23 0x1B USER_TRAMPOLINE ->
     only_bytes (u - 184) u (t_umem s !!! c) (t_umem s' !!! c) -> Q t s') ->
  wp (create_user_thread p entry ks us) Q s.
Proof.
  intros Hok Hlock Hp Hfirst Hentry Hks Hus Hcan Q HF HS. unfold create_user_thread.
  apply wp_bind, (wp_new_thread k (S (S v)) l d); [done |]. intros t e Ht Hfresh He Ha Ho.
  destruct (fresh_outside _ _ _ _ _ Hok Hfresh) as (Hnone & Htl & Htd). rewrite (proj2 (truthy_true t) Ht). cbn [negb].
  apply wp_bind, (wp_new_sse_buffer k (S v)); [exact He | apply Hok | done |]. cbn [t_env set_t_env sse_avx_buf_size t_kmem]. intros b e1 m1 He1 Ho1 Hm1 Ha1 Hb1.
  assert (exists w, (v <= w)%nat /\ th_ok (k, S w) e1) as (w & Hw & He1') by (destruct He1; eauto). cbn [negb].
  apply wp_bind, wp_zoom. eapply wp_mono; [exact (wp_th_kernel_alloc_stack k (S w) ks e1 He1' Hks) |]. intros r e2 (He2 & Ho2 & Hr).
  inversion Hr as [[=] | ? H1 H2 H3 H4 H5]; subst. rewrite (proj2 (truthy_true r)) by lia. cbn [negb].
  set (s1 := set_t_env e2 (set_t_kmem m1 (set_t_env e1 (set_t_env e s)))). change (over l_t_env e2 _) with (with_thread t (set_sse b blank_thread) s1).
  apply wp_bind. unfold join_process. apply wp_bind, wp_on_new, wp_bind, wp_proc_at; [exact Hp |].
  change (proc_of (procs (t_sched (with_thread _ _ s1))) p) with (proc_of (procs (t_sched s)) p). rewrite Hfirst. set (pr := proc_of (procs (t_sched s)) p) in *.
  apply wp_bind, wp_on_new, wp_bind, wp_ret. apply wp_on_proc; [exact Hp |].
  set (x := set_next_pthread 0 _). set (P := <[p := set_p_threads t pr]> (procs (t_sched s))).
  set (s2 := set_t_sched (set_procs P (t_sched s1)) s1).
  change (set_t_sched (set_procs _ _) (with_thread t x s1)) with (with_thread t x s2).
  apply wp_bind, wp_gets, wp_bind, wp_gets, wp_bind. apply wp_spin_lock_irqsave. intros rf ->. split; [exact Hlock |].
  assert (proc_of P p = set_p_threads t pr) as EP by (unfold P, proc_of; by rewrite lookup_insert_eq).
  apply wp_bind, wp_proc_at; [cbn; unfold P; rewrite lookup_insert_eq; by eexists |].
  change (procs (t_sched (over l_create_lock _ _))) with P. rewrite EP. cbn [p_cr3 ustacks_infos set_p_threads].
  apply wp_bind, wp_modify, wp_bind, wp_modify, wp_bind, wp_gets, wp_bind, wp_gets.
  set (c0 := s_cpu (t_sched s)). set (sc := set_lists (ustacks_infos pr) (mmap_list_head (t_sched s))
    (set_s_cpu (Cpu (Z.ldiff (rflags c0) FLAGS_IF) (p_cr3 pr)) (set_procs P (t_sched s)))).
  match goal with |- wp _ _ ?z => change z with (with_thread t x (set_create_lock 1 (set_t_sched sc s1))) end.
  apply wp_bind, wp_zoom.
  apply (wp_mono _ (fun r e3 => (r.1 = 0 -> sse_avx_buf_size s = 0) /\ (th_ok (k, Nat.pred (S w)) e3 /\ (forall q, th_obj e2 q -> th_obj e3 q) /\
    th_area e3 = th_area e2 /\ ((r.1 = 0 /\ r.2 = ustacks_infos pr) \/ (2 ^ 31 + us <= r.1 <= 0x00007FFFFFFFF000))))).
  { apply wp_and; [| exact (wp_th_user_alloc_stack _ (ustacks_infos pr) (p_cr3 pr) us e2 He2 Hus)]. destruct Hcan as [Hcan | Hcan].
    { eapply wp_mono; [exact (wp_th_user_alloc_stack _ (ustacks_infos pr) (p_cr3 pr) us e2 He2 Hus) |]. by intros. }
    eapply wp_mono; [exact (Hcan _ e2 _ _ He2) |]. by intros r' e3 Hne Hz. }
  intros [u h] e3 (Hz & He3 & Ho3 & Ha3 & Hu). cbn [fst snd] in *.
  set (sc' := set_lists h (mmap_list_head (t_sched s)) sc). apply wp_bind, wp_modify.
  match goal with |- wp _ _ ?z => change z with (with_thread t x (set_create_lock 1 (set_t_sched sc' (set_t_env e3 s1)))) end.
  destruct Hu as [[-> ->] | Hu].
  - cbn [truthy Z.eqb negb]. apply wp_bind, wp_modify, wp_bind, wp_modify.
    match goal with |- wp _ _ ?z => change z with (with_thread t x (set_create_lock 1 (set_t_sched
      (set_s_cpu (Cpu (Z.ldiff (rflags c0) FLAGS_IF) (cr3 c0)) (set_procs P (t_sched s))) (set_t_env e3 s1)))) end.
    apply (HF t x e3 w); try done; [apply Ho3; rewrite Ho2, Ho1; apply Ho; by left |].
    unfold buffer_clear in Hm1. rewrite (Hz eq_refl) in Hm1. apply Hm1.
  - rewrite (proj2 (truthy_true u)) by lia. cbn [negb]. pose proof (aligned_bounds u) as Hal.
    apply wp_bind, (wp_build_stack (Some (p_cr3 pr))); [cbn; split; [lia | done] | lia |].
    destruct (first_words_start (t_umem s !!! p_cr3 pr) (aligned u) USER_TRAMPOLINE 0x1B 0x23 entry) as [Hstart Honly]; [lia | done | lia | lia | done |].
    change (view (l_space (Some (p_cr3 pr))) _) with (t_umem s !!! p_cr3 pr). set (m2 := stores _ _ _) in *. clearbody m2.
    apply wp_bind, wp_gets, wp_bind, wp_on_proc; [cbn; unfold P; rewrite lookup_insert_eq; by eexists |].
    match goal with |- context [proc_of ?m p] => change m with P end. rewrite EP.
    apply wp_bind, wp_modify, wp_bind, wp_modify, wp_bind, wp_spin_lock_irqrestore. cbv zeta.
    set (U := <[p_cr3 pr := m2]> (t_umem s)).
    assert (<[p := set_ustacks_infos h (set_p_threads t pr)]> P = procs (joined t h (t_sched s) p)) as EP2 by (unfold P, joined; cbn; by rewrite insert_insert_eq).
    match goal with |- wp _ _ ?z => change z with (with_thread t x (set_create_lock 0 (set_t_umem U (set_t_sched
      (set_s_cpu (Cpu (rflags c0) (cr3 c0)) (set_procs (<[p := set_ustacks_infos h (set_p_threads t pr)]> P) (t_sched s))) (set_t_env e3 s1))))) end.
    rewrite EP2. assert (set_s_cpu (Cpu (rflags c0) (cr3 c0)) (set_procs (procs (joined t h (t_sched s) p)) (t_sched s)) = joined t h (t_sched s) p) as ->.
    { unfold joined, c0. cbn. by destruct (t_sched s) as [[]]. }
    do 3 (apply wp_bind, wp_on_new). unfold PAGE_SIZE_4KB. rewrite (u64_small (r + ks)), (u64_small (u - us)), (u64_small (u - 0x1000)), (u64_small (u - 0x1000 - 0x1000)) by lia.
    assert (sched_inv (joined t h (t_sched s) p) l d) as Hj.
    { apply (sched_inv_procs l d (t_sched s) p (fun y => set_ustacks_infos h (set_p_threads t y))); [apply Hok | done]. }
    apply wp_bind. eapply (wp_start_thread t _ _ l d); [exact Hj | done | exact Hnone | done | done | |].
    { intros _. cbn. rewrite lookup_insert_eq. by eexists. }
    intros sc2 Hsc. apply wp_ret. cbn [next_thread_id set_create_lock set_t_umem set_t_sched set_t_env] in *.
    apply (HS t b r u h (aligned u - 168) w); [done | lia | | | done | done | | | |].
    + unfold started, first_user_thread in *. cbn in Hsc |- *. unfold PAGE_SIZE_4KB in Hsc. replace (u - 0x2000) with (u - 0x1000 - 0x1000) by lia. exact Hsc.
    + split; [exact He3 | apply (cr_sched _ _ _ _ _ _ Hsc) | | apply Hok]. intros q Hq. cbn. apply Ho3. rewrite Ho2, Ho1, Ho.
      apply (cr_live _ _ _ _ _ _ Hsc) in Hq as [?|?]; [by left | right; by apply Hok].
    + intros a n Han y Hy. cbn. unfold buffer_clear in Hm1. destruct (Z.eqb_spec (sse_avx_buf_size s) 0) as [E|E]; [by destruct Hm1 as [_ ->] |]. destruct Hm1 as [-> _].
      destruct (Hb1 E) as [_ Hb2]. rewrite Ha in Hb2. pose proof (Hb2 a n Han). rewrite memset_spec, decide_False by lia. done.
    + intros c' Hc'. cbn. unfold U. by rewrite lookup_insert_ne.
    + cbn. unfold U. by rewrite lookup_total_insert_eq.
    + cbn. unfold U. rewrite lookup_total_insert_eq. eapply only_bytes_weaken; [exact Honly | lia | lia].
Qed.

(** No stack: the thread is dropped, but not the lock. *)
Lemma wp_drop_new t x w e s1 (Q : Z -> tsys St -> Prop) : t <> 0 -> threads (t_sched s1) !! t = None -> th_ok w e -> th_obj e t -> t_env s1 = e -> sse_avx_buffer x = 0 ->
  (forall e', Q 0 (set_t_env e' s1)) -> wp (drop_thread t;; mret 0) Q (with_thread t x s1).
Proof.
  intros Ht Hnone He Hobj Ee Hx HQ. unfold drop_thread. apply wp_bind, wp_bind, wp_thread_new, wp_bind, wp_zoom.
  eapply wp_mono; [apply (wp_th_kfree w (sse_avx_buffer x)); [cbn; by rewrite Ee | by left] |]. intros [] e1 (He1 & _ & Ho1).
  apply wp_bind, wp_zoom. eapply wp_mono; [apply (wp_th_kfree w t); [exact He1 | right; apply Ho1; cbn; rewrite Ee, Hx; tauto] |].
  intros [] e2 _. apply wp_modify, wp_ret. cbn. rewrite delete_insert_eq, delete_id by done. pose proof (HQ e2) as HQ'. destruct s1. cbn in *. destruct t_sched0. exact HQ'.
Qed.

(** ** The end of a thread *)

(** Another thread gets the links of the one that goes. *)
Definition unlink_pthreads (x : thread) (m : gmap Z thread) : gmap Z thread :=
  if next_pthread x =? 0 then m else Sched.upd (next_pthread x) (set_t_prev (t_prev x)) m.

Lemma wp_free_user_stack b p bot s (Q : unit -> tsys St -> Prop) : th_ok b (t_env s) -> destroy_thread_lock s = 0 -> is_Some (procs (t_sched s) !! p) ->
  (forall h e, th_ok b e -> th_obj e = th_obj (t_env s) -> Q tt (set_t_sched (set_procs (<[p := set_ustacks_infos h (proc_of (procs (t_sched s)) p)]> (procs (t_sched s))) (t_sched s)) (set_t_env e s))) ->
  wp (free_user_stack p bot) Q s.
Proof.
  intros He Hlock Hp HQ. unfold free_user_stack. apply wp_bind, wp_gets, wp_bind, wp_gets, wp_bind, wp_spin_lock_irqsave. intros rf ->. split; [exact Hlock |].
  apply wp_bind, wp_proc_at; [exact Hp |]. apply wp_bind, wp_modify, wp_bind, wp_modify, wp_bind, wp_gets, wp_bind, wp_gets.
  apply wp_bind, wp_zoom. eapply wp_mono; [exact (wp_th_user_free_stack b _ _ bot _ He) |]. intros h e (He' & Ho & _).
  apply wp_bind, wp_modify, wp_bind, wp_gets, wp_bind, wp_on_proc; [exact Hp |]. apply wp_bind, wp_modify, wp_bind, wp_modify, wp_spin_lock_irqrestore.
  pose proof (HQ h e He' Ho) as HQ'. cbv zeta. destruct s as [e0 [[] ? ? ? ? ? ? ? ? ? ? ?] km um id sz lk dl]. cbn in Hlock. subst dl. exact HQ'.
Qed.

Lemma wp_destroy_user_thread fuel b t x p s : th_ok b (t_env s) -> destroy_thread_lock s = 0 ->
  t <> 0 -> threads (t_sched s) !! t = Some x -> th_obj (t_env s) t ->
  bottom (kernel_stack x) <> t -> (bottom (kernel_stack x) = 0 \/ th_obj (t_env s) (bottom (kernel_stack x))) ->
  bottom (user_stack x) <> 0 -> process x = p -> p <> 0 -> is_Some (procs (t_sched s) !! p) -> p_threads (proc_of (procs (t_sched s)) p) <> 0 ->
  prev_pthread x = 0 -> next_pthread x <> t -> (next_pthread x <> 0 -> is_Some (threads (t_sched s) !! next_pthread x)) ->
  wp (destroy_thread fuel t) (fun _ s' => exists h e, th_ok b e /\
    (forall q, th_obj e q <-> th_obj (t_env s) q /\ q <> t /\ (q <> bottom (kernel_stack x) \/ bottom (kernel_stack x) = 0)) /\
    s' = set_t_env e (set_t_sched (set_threads (delete t (unlink_pthreads x (threads (t_sched s))))
      (set_procs (<[p := set_ustacks_infos h (proc_of (procs (t_sched s)) p)]> (procs (t_sched s))) (t_sched s))) s)) s.
Proof.
  intros He Hlock Ht Hx Hobj Hbt Hb Hub Hproc Hp Hlp Hne Hprev Hnt Hnext. unfold destroy_thread. rewrite (proj2 (truthy_true t) Ht).
  apply wp_bind, (wp_thread_at t x); [done |].
  apply wp_bind. apply (wp_mono _ (fun _ s1 => exists e, s1 = set_t_env e s /\ th_ok b e /\
    forall q, th_obj e q <-> th_obj (t_env s) q /\ (q <> bottom (kernel_stack x) \/ bottom (kernel_stack x) = 0))).
  { apply wp_when; intros E; [apply truthy_true in E | apply truthy_false in E].
    - apply wp_zoom. eapply wp_mono; [apply (wp_th_kfree b _ _ He Hb) |]. intros [] e (He' & _ & Ho). by exists e.
    - exists (t_env s). split; [by destruct s |]. split; [done |]. tauto. }
  intros [] s1 (e1 & -> & He1 & Ho1). rewrite (proj2 (truthy_true _) Hub), Hproc, (proj2 (truthy_true _) Hp). cbn [andb when]. apply wp_bind, wp_bind.
  apply (wp_free_user_stack b); [done | done | done |]. intros h e2 He2 Ho2. set (P := <[p := _]> _). cbn [t_sched set_t_env procs] in P.
  set (s2 := set_t_sched _ _). assert (threads (t_sched s2) = threads (t_sched s)) as Et by done.
  unfold leave_process. apply wp_bind, (wp_thread_at t x); [done |].
  set (m := unlink_pthreads x (threads (t_sched s))). set (s3 := set_t_sched (set_threads m (t_sched s2)) s2).
  assert (m !! t = Some x) as Hmt by (unfold m, unlink_pthreads; destruct (Z.eqb_spec (next_pthread x) 0); [done | unfold Sched.upd; by rewrite lookup_insert_ne]).
  apply wp_bind. apply (wp_mono _ (fun _ s' => s' = s3)).
  { unfold s3, m, unlink_pthreads. destruct (Z.eqb_spec (next_pthread x) 0) as [E|E].
    - rewrite E. cbn [truthy Z.eqb negb when]. done.
    - rewrite (proj2 (truthy_true _) E). cbn [when]. apply wp_zoom, wp_upd_thread; [by apply Hnext | done]. }
  intros [] _ ->. apply wp_bind, (wp_thread_at t x); [exact Hmt |]. rewrite Hprev. cbn [truthy Z.eqb negb when]. apply wp_bind, wp_ret, wp_bind, wp_proc_at.
  { rewrite Hproc. change (procs (t_sched s3)) with P. unfold P. rewrite lookup_insert_eq. by eexists. }
  rewrite Hproc. assert (p_threads (proc_of (procs (t_sched s3)) p) <> 0) as Hne3.
  { change (procs (t_sched s3)) with P. unfold P, proc_of. rewrite lookup_insert_eq. exact Hne. }
  rewrite (proj2 (truthy_true _) Hne3). cbn [negb when]. apply wp_ret.
  apply wp_bind, wp_zoom. eapply wp_mono; [apply (wp_th_kfree b t e2); [exact He2 | right; rewrite Ho2; apply Ho1; split; [done | left; congruence]] |].
  intros [] e3 (He3 & _ & Ho3). apply wp_modify. exists h, e3. split; [done |]. split; [| done].
  intros q. rewrite Ho3, Ho2. cbn [t_env set_t_env]. rewrite Ho1. intuition congruence.
Qed.

(** ** The first threads *)

Lemma starts_at_frame m m' sp entry cs ss ret : (forall y, sp <= y < sp + 168 -> m' @@ y = m @@ y) -> starts_at m sp entry cs ss ret -> starts_at m' sp entry cs ss ret.
Proof.
  intros Hm [Hc Hr]. assert (forall i, 0 <= i <= 20 -> load64 m' (sp + 8 * i) = load64 m (sp + 8 * i)) as Hw by (intros i Hi; unfold load64, load32; by rewrite !Hm by lia).
  split; [| change 160 with (8 * 20); by rewrite Hw by lia]. rewrite <- Hc. unfold context_at. rewrite !Hw by lia. f_equal.
  apply list_fmap_ext. intros i y Hy. apply lookup_seqZ in Hy as [-> Hi]. apply Hw. lia.
Qed.

Lemma tsys_ok_relabel b l d x t s : tsys_ok b l d s -> is_Some (threads (t_sched s) !! t) ->
  tsys_ok b l d (set_t_sched (set_threads (Sched.upd t (set_next_pthread x) (threads (t_sched s))) (t_sched s)) s).
Proof.
  intros [He Hs Ho Hn] Ht. split; [done | | | done].
  - apply sched_inv_threads; [done |]. intros q. rewrite thread_of_upd. split; [intros; thread_live |]. by case_decide; subst.
  - intros q Hq. apply Ho. unfold Sched.upd in Hq. cbn in Hq. destruct (decide (q = t)) as [-> |]; [done |]. by rewrite lookup_insert_ne in Hq.
Qed.

Lemma wp_link_pthread b l d t x s (Q : unit -> tsys St -> Prop) : tsys_ok b l d s -> is_Some (threads (t_sched s) !! t) ->
  (forall s', tsys_ok b l d s' -> t_kmem s' = t_kmem s -> next_thread_id s' = next_thread_id s -> current_thread (t_sched s') = current_thread (t_sched s) ->
     (forall q, is_Some (threads (t_sched s) !! q) -> is_Some (threads (t_sched s') !! q)) ->
     procs (t_sched s') = procs (t_sched s) -> (forall q, rsp (thread_of (threads (t_sched s')) q) = rsp (thread_of (threads (t_sched s)) q)) -> Q tt s') -> wp (on_thread t (set_next_pthread x)) Q s.
Proof.
  intros Hok Ht HQ. apply wp_zoom, wp_upd_thread; [done |]. apply HQ; [by apply tsys_ok_relabel | done | done | done | intros q Hq; cbn; thread_live | done |].
  intros q. cbn. rewrite thread_of_upd. by case_decide; subst.
Qed.

(** The scheduler before it has a thread. *)
Record no_threads (b : nat * nat) s : Prop := {
  nt_env : th_ok b (t_env s);
  nt_threads : threads (t_sched s) = ∅;
  nt_heads : ready_list_head (t_sched s) = 0 /\ dead_list_head (t_sched s) = 0;
  nt_sse : 0 < sse_avx_buf_size s <= 2 ^ 31;
}.

Lemma wp_first_thread (sc : sched) main x kp (Q : unit -> sched -> Prop) : main <> 0 -> threads sc = <[main := x]> ∅ -> ready_list_head sc = 0 -> dead_list_head sc = 0 ->
  process x = kp -> kp <> 0 -> is_Some (procs sc !! kp) -> p_cr3 (proc_of (procs sc) kp) = cr3 (s_cpu sc) ->
  (forall sc' : sched, sched_inv (set_current_thread main sc') [main] [] -> no_ring (thread_of (threads sc') main) = no_ring x ->
     (forall p, is_Some (threads sc' !! p) <-> p = main) -> procs sc' = procs sc -> Q tt sc') -> wp (enqueue_thread main) Q sc.
Proof.
  intros Hm Ht Hh Hd Hx Hkp Hp Hc HQ.
  assert (thread_of (threads sc) main = x) as Ex by (unfold thread_of; by rewrite Ht, lookup_insert_eq).
  eapply wp_mono; [apply (wp_enqueue_thread [] main); [split; [by left | by intros ? ?%elem_of_nil] | rewrite Ht, lookup_insert_eq; by eexists | done | by intros ?%elem_of_nil] |].
  intros [] sc' (m & h & -> & Hr & Hrel). cbn in Hr. pose proof (relinked_fields _ _ _ main Hrel) as (_ & Epr & _). rewrite Ex in Epr. apply HQ.
  - split; cbn.
    + destruct Hr as [Hr1 Hr2]. by split.
    + by left.
    + by intros p ->%list_elem_of_singleton.
    + by rewrite Hd.
    + by intros p ?%elem_of_nil.
    + intros p ->%list_elem_of_singleton. by rewrite Epr, Hx.
    + intros _. unfold cur_proc. cbn. by rewrite Epr, Hx.
  - cbn. by rewrite (proj1 (proj2 (Hrel main))), Ex.
  - intros p. cbn. rewrite (proj1 (Hrel p)), Ht, lookup_insert_is_Some'. split; [intros [E | [? E]]; [done | by rewrite lookup_empty in E] | intros ->; by left].
  - done.
Qed.

Lemma wp_init_scheduler k v exit_addr f g pcid_flags junk s :
  no_threads (S (S (S (S k))), S (S (S (S (S v))))) s -> Z.lor (cr3 (s_cpu (t_sched s))) pcid_flags = cr3 (s_cpu (t_sched s)) ->
  0 <= exit_addr < 2 ^ 64 -> 0 <= f < 2 ^ 64 -> 0 <= g < 2 ^ 64 ->
  wp (init_scheduler exit_addr f g pcid_flags junk) (fun main s' => exists kr cln,
    sched_inv (t_sched s') [main; kr; cln] [] /\ current_thread (t_sched s') = main /\ next_thread_id s' = u64 (u64 (u64 (next_thread_id s + 1) + 1) + 1) /\
    starts_at (t_kmem s') (rsp (thread_of (threads (t_sched s')) kr)) f 0x08 0x10 exit_addr /\
    starts_at (t_kmem s') (rsp (thread_of (threads (t_sched s')) cln)) g 0x08 0x10 exit_addr) s.
Proof.
  intros [He Hth [Hrh Hdh] Hsse] Hpcid Hexit Hf Hg. unfold init_scheduler.
  apply wp_bind, wp_zoom. eapply wp_mono; [exact (wp_th_kmalloc _ _ sizeof_process _ He eq_refl) |]. intros kp e1 (He1 & Ha1 & [(_ & [=] & _)|(Hkp & _ & Ho1)]). cbn [Nat.pred] in He1.
  apply wp_bind, wp_gets, wp_bind, wp_modify. apply wp_bind, wp_zoom. eapply wp_mono; [apply (wp_th_kmalloc _ _ sizeof_thread e1 He1); done |].
  intros main e2 (He2 & Ha2 & [(_ & [=] & _)|(Hmain & _ & Ho2)]). cbn [Nat.pred] in He2. apply wp_bind, wp_modify, wp_bind, wp_gets.
  apply wp_bind, wp_zoom. eapply wp_mono; [apply (wp_th_vmalloc _ _ (sse_avx_buf_size s) e2 He2); cbn in Hsse; lia |]. intros b e3 (He3 & Ho3 & _). cbn [Nat.pred] in He3.
  set (P := <[kp := Proc (Z.lor (cr3 (s_cpu (t_sched s))) pcid_flags) 0 0 0 0 ∅ 0 0 0]> (procs (t_sched s))).
  set (s1 := set_t_sched (set_procs P (t_sched s)) (set_t_env e3 s)).
  match goal with |- wp _ _ ?z => change z with (with_thread main junk s1) end.
  apply wp_bind, wp_on_new, wp_bind, wp_gets, wp_bind, wp_modify. cbn [next_thread_id with_thread set_t_sched].
  set (s2 := set_next_thread_id (u64 (next_thread_id s + 1)) s1).
  match goal with |- wp _ _ ?z => change z with (with_thread main (set_sse b junk) s2) end.
  do 5 (apply wp_bind, wp_on_new). set (x := set_process kp _). apply wp_bind, wp_zoom.
  eapply (wp_first_thread _ main x kp); cbn; [done | by rewrite Hth | done | done | done | done | unfold P; rewrite lookup_insert_eq; by eexists | unfold P, proc_of; rewrite lookup_insert_eq; exact Hpcid |].
  intros sc Hsc _ Hlive Hprocs. apply wp_bind, wp_modify. match goal with |- wp _ _ ?z => set (s3 := z) end.
  assert (tsys_ok (S (S k), S (S (S (S v)))) [main] [] s3) as Hok3.
  { split; [exact He3 | exact Hsc | | cbn; lia]. intros p Hp. apply Hlive in Hp as ->. cbn. rewrite Ho3. apply Ho2. by left. }
  apply wp_bind. eapply wp_mono; [apply (wp_create_thread (S k) (S (S v)) [main] [] exit_addr f 4096 s3 Hok3 Hexit Hf); lia |].
  intros kr s4 (b1 & r1 & sp1 & v1 & Hv1 & Hc1 & Hok4 & Hid4 & Hr1 & Hsp1 & Hst1 & _ & _ & _ & Har1).
  destruct v1 as [|[|v1]]; [lia | lia |].
  apply wp_bind. eapply wp_mono; [apply (wp_create_thread k v1 [main; kr] [] exit_addr g 4096 s4 Hok4 Hexit Hg); lia |].
  intros cln s5 (b2 & r2 & sp2 & v2 & Hv2 & Hc2 & Hok5 & Hid5 & Hr2 & Hsp2 & Hst2 & _ & Hm5 & _ & _).
  assert (forall q, q ∈ [main; kr; cln] -> is_Some (threads (t_sched s5) !! q)) as Hl5 by (intros q Hq; by apply (rr_live _ _ (si_ring _ _ _ (tk_sched _ _ _ _ Hok5)))).
  apply wp_bind. eapply wp_link_pthread; [exact Hok5 | apply Hl5; by left |]. intros s6 Hok6 Hk6 Hid6 Hcur6 Hl6 Hp6 Hrsp6.
  apply wp_bind. eapply wp_link_pthread; [exact Hok6 | apply Hl6, Hl5; by right; left |]. intros s7 Hok7 Hk7 Hid7 Hcur7 Hl7 Hp7 Hrsp7.
  assert (procs (t_sched s7) = P) as Hprocs7.
  { rewrite Hp7, Hp6, (proj2 (created_same _ _ _ _ _ _ Hc2)), (proj2 (created_same _ _ _ _ _ _ Hc1)). exact Hprocs. }
  apply wp_bind, wp_on_proc; [rewrite Hprocs7; unfold P; rewrite lookup_insert_eq; by eexists |]. apply wp_ret. exists kr, cln.
  pose proof (proj1 (created_rsp _ _ _ _ _ _ Hc2)) as Er2. cbn [rsp] in Er2.
  assert (kr <> cln) as Hne.
  { intros E. assert (NoDup [main; kr; cln]) as Hnd by apply (ring_head _ _ _ _ (rr_ring _ _ (si_ring _ _ _ (tk_sched _ _ _ _ Hok5)))).
    rewrite E in Hnd. apply NoDup_cons in Hnd as [_ Hnd]. apply NoDup_cons in Hnd as [Hn _]. apply Hn. by left. }
  assert (rsp (thread_of (threads (t_sched s5)) kr) = sp1) as Er1.
  { rewrite (proj2 (created_rsp _ _ _ _ _ _ Hc2) kr Hne). apply (created_rsp _ _ _ _ _ _ Hc1). }
  cbn [t_sched set_t_sched t_kmem next_thread_id set_procs current_thread threads]. split; [apply sched_inv_procs; [apply Hok7 | done] |].
  split; [| split; [| rewrite Hrsp7, Hrsp6, Hrsp7, Hrsp6, Er1, Er2, Hk7, Hk6; split; [| exact Hst2]]].
  - by rewrite Hcur7, Hcur6, (proj1 (created_same _ _ _ _ _ _ Hc2)), (proj1 (created_same _ _ _ _ _ _ Hc1)).
  - by rewrite Hid7, Hid6, Hid5, Hid4.
  - eapply starts_at_frame; [| exact Hst1]. intros y Hy. apply (Hm5 r1 4096); [apply Har1; by right | lia].
Qed.

(** ** A second thread of a process *)

Lemma ring_next_in (s : sched) l q : ready_ring s l -> q ∈ l -> t_next (thread_of (threads s) q) ∈ l.
Proof.
  intros [Hr _] Hq. destruct (ring_head _ _ _ _ Hr) as [Hh _]. apply list_elem_of_split in Hq as (l1 & l2 & ->).
  destruct (ring_neighbours _ _ _ l1 q l2 Hr) as (H1 & _). cbn in H1. rewrite H1. destruct l2 as [|c l2]; cbn.
  - rewrite Hh. destruct l1; cbn; by left.
  - apply elem_of_app. right. right. by left.
Qed.

Lemma wp_second_thread t x sp p h l s (Q : unit -> tsys St -> Prop) : ready_ring (t_sched s) (h :: l) -> threads (t_sched s) !! t = None -> t <> 0 ->
  is_Some (procs (t_sched s) !! p) -> p_threads (proc_of (procs (t_sched s)) p) = h ->
  (forall s', state (thread_of (threads (t_sched s')) t) = READY -> ready_list_head (t_sched s') = h ->
     (forall q, q ∈ h :: l -> t_next (thread_of (threads (t_sched s')) q) = t_next (thread_of (threads (t_sched s)) q)) -> Q tt s') ->
  wp (join_process t p;; start_thread t sp) Q (with_thread t x s).
Proof.
  intros Hring Hnone Ht Hp Hh HQ. assert (h <> 0) as Hh0 by (apply (ring_valid _ _ _ _ h (rr_ring _ _ Hring)); by left).
  assert (is_Some (threads (t_sched s) !! h)) as Hlh by (apply Hring; by left). assert (h <> t) as Hht by (intros ->; rewrite Hnone in Hlh; by destruct Hlh).
  apply wp_bind. unfold join_process. apply wp_bind, wp_on_new, wp_bind, wp_proc_at; [exact Hp |]. change (proc_of (procs (t_sched (with_thread _ _ s))) p) with (proc_of (procs (t_sched s)) p).
  rewrite Hh, (proj2 (truthy_true h) Hh0). apply wp_bind, wp_on_new, wp_bind. cbn [when].
  apply wp_zoom, wp_upd_thread; [cbn; rewrite lookup_insert_ne by congruence; exact Hlh |].
  set (m := Sched.upd h (set_t_prev t) (threads (t_sched s))). set (s1 := set_t_sched (set_threads m (t_sched s)) s).
  match goal with |- wp _ _ (over _ (set_threads (Sched.upd h _ (threads (view _ (with_thread t ?y s)))) _) _) => set (x1 := y) end.
  assert (Sched.upd h (set_t_prev t) (<[t := x1]> (threads (t_sched s))) = <[t := x1]> m) as Em.
  { unfold m, Sched.upd, thread_of. rewrite lookup_insert_ne by congruence. by rewrite insert_insert_ne by congruence. }
  match goal with |- wp _ _ ?z => change z with (set_t_sched (set_threads (Sched.upd h (set_t_prev t) (<[t := x1]> (threads (t_sched s)))) (t_sched s)) s) end. rewrite Em.
  change (set_t_sched _ s) with (with_thread t x1 s1). apply wp_on_proc; [exact Hp |]. set (P := <[p := _]> _).
  set (s2 := set_t_sched (set_procs P (t_sched s1)) s1). match goal with |- wp _ _ ?z => change z with (with_thread t x1 s2) end.
  unfold start_thread. apply wp_bind, wp_on_new, wp_bind, wp_gets, wp_bind, wp_modify. cbn [next_thread_id with_thread set_t_sched].
  set (s3 := set_next_thread_id (u64 (next_thread_id s2 + 1)) s2). match goal with |- wp _ _ (set_next_thread_id _ (with_thread t ?y s2)) => change (set_next_thread_id _ (with_thread t y s2)) with (with_thread t y s3) end.
  do 4 (apply wp_bind, wp_on_new). set (y := set_t_prev 0 _). apply wp_zoom. destruct (ring_head _ _ _ _ (rr_ring _ _ Hring)) as [Ehead _]. cbn in Ehead.
  set (m3 := <[t := y]> m). assert (is_Some (m3 !! t)) as Hl3t by (unfold m3; rewrite lookup_insert_eq; by eexists).
  assert (is_Some (m3 !! h)) as Hl3h by (unfold m3; rewrite lookup_insert_ne by congruence; unfold m, Sched.upd; rewrite lookup_insert_eq; by eexists).
  assert (t_prev (thread_of m3 h) = t) as Ep3 by (unfold m3, thread_of; rewrite lookup_insert_ne by congruence; unfold m, Sched.upd; by rewrite lookup_insert_eq).
  match goal with |- wp _ _ ?z => set (sc := z) end. assert (threads sc = m3) as Et by done. assert (ready_list_head sc = h) as Eh by exact Ehead.
  clearbody sc. unfold enqueue_thread. apply wp_bind, wp_gets. rewrite Eh, (proj2 (truthy_true h) Hh0). cbn [negb].
  apply wp_bind, wp_get_thread; [by rewrite Et |]. rewrite Et, Ep3. cbv zeta.
  apply wp_bind. apply wp_upd_thread; [by rewrite Et |]. rewrite Et. apply wp_bind. thread_step. apply wp_bind. thread_step. thread_step.
  assert (thread_of m3 t = y) as Ey by (unfold thread_of, m3; by rewrite lookup_insert_eq).
  apply HQ; cbn [over l_t_sched t_sched set_t_sched threads set_threads ready_list_head]; [rewrite !thread_of_upd; repeat case_decide; try done; cbn; by rewrite Ey | exact Eh |].
  intros q Hq. assert (q <> t) as Hqt by (intros ->; pose proof (rr_live _ _ Hring t Hq) as Hlt; rewrite Hnone in Hlt; by destruct Hlt).
  rewrite !thread_of_upd. rewrite !(decide_False (P := t = q)) by congruence.
  assert (thread_of m3 q = thread_of m q) as Emq by (unfold thread_of, m3; by rewrite lookup_insert_ne by congruence).
  assert (t_next (thread_of m q) = t_next (thread_of (threads (t_sched s)) q)) as Emq2 by (unfold m; rewrite thread_of_upd; case_decide as E; [by rewrite E | done]).
  rewrite !(decide_False (P := t = h)) by congruence. case_decide as E; cbn; [rewrite E |]; by rewrite Emq.
Qed.
End creation.

(** * Theorems *)

Section theorems.
Context {St : Type} `{ThreadLaws St}.

(** A new kernel thread is at the end of the ring, ready, with the next number;
    its stack is a new area on which the interrupt return finds cleared registers
    and the entry point, and the function [thread_exit] to return to; its buffer
    for vector registers is cleared, and no other area of memory changes. *)
Theorem create_thread_spec k v l d exit_addr entry size (s : tsys St) : tsys_ok (S k, S (S v)) l d s ->
  0 <= exit_addr < 2 ^ 64 -> 0 <= entry < 2 ^ 64 -> 272 <= size <= 2 ^ 31 ->
  wp (create_thread exit_addr entry size) (fun t s' => exists b r sp v', (v <= v')%nat /\
    created t (Thread sp (next_thread_id s) READY (Stack (r + size) r size) (Stack 0 0 0) 0 0 b 0 0 0 0 0 0 0) l d (t_sched s) (t_sched s') /\
    tsys_ok (k, v') (l ++ [t]) d s' /\ next_thread_id s' = u64 (next_thread_id s + 1) /\ r <= sp /\ sp + 168 <= r + size /\
    starts_at (t_kmem s') sp entry 0x08 0x10 exit_addr /\ (0 < sse_avx_buf_size s -> forall y, b <= y < b + sse_avx_buf_size s -> t_kmem s' @@ y = 0) /\
    (forall a n, th_area (t_env s) a n -> forall y, a <= y < a + n -> t_kmem s' @@ y = t_kmem s @@ y) /\ t_umem s' = t_umem s /\
    (forall a n, th_area (t_env s) a n \/ a = r /\ n = size -> th_area (t_env s') a n)) s.
Proof. apply wp_create_thread. Qed.

(** C21: the first thread of a process starts in user mode on a stack in the address
    space of the process, with the trampoline to return to, and the address space,
    the list of stacks and interrupts are as before. But when no stack can be had,
    null is returned with the lock of the function still taken and interrupts
    off, and the process keeps a pointer to the freed thread. *)
Theorem create_user_thread_spec k v l d p entry ks us (s : tsys St) : tsys_ok (S k, S (S v)) l d s -> create_thread_lock s = 0 ->
  is_Some (procs (t_sched s) !! p) -> p_threads (proc_of (procs (t_sched s)) p) = 0 ->
  0 <= entry < 2 ^ 64 -> 0 < ks <= 2 ^ 31 -> 0 < us <= 2 ^ 31 -> (sse_avx_buf_size s = 0 \/ stacks_given us) ->
  wp (create_user_thread p entry ks us) (fun r s' =>
    (r = 0 /\ create_thread_lock s' = 1 /\ threads (t_sched s') = threads (t_sched s) /\
      rflags (s_cpu (t_sched s')) = Z.ldiff (rflags (s_cpu (t_sched s))) FLAGS_IF /\
      exists t, t <> 0 /\ threads (t_sched s) !! t = None /\ p_threads (proc_of (procs (t_sched s')) p) = t) \/
    (exists b a u h sp w, let c := p_cr3 (proc_of (procs (t_sched s)) p) in
      created r (first_user_thread sp (next_thread_id s) a ks u us b p) l d (joined r h (t_sched s) p) (t_sched s') /\
      tsys_ok (k, w) (l ++ [r]) d s' /\ create_thread_lock s' = 0 /\
      (forall a n, th_area (t_env s) a n -> forall y, a <= y < a + n -> t_kmem s' @@ y = t_kmem s @@ y) /\
      (forall c', c' <> c -> t_umem s' !! c' = t_umem s !! c') /\ starts_at (t_umem s' !!! c) sp entry 0x23 0x1B USER_TRAMPOLINE /\
      only_bytes (u - 184) u (t_umem s !!! c) (t_umem s' !!! c))) s.
Proof.
  intros Hok Hlock Hp Hf He Hks Hus Hcan. apply (wp_create_user_thread k v l d); try done.
  - intros t x e w s1 Ht Hnone Hw Hobj Ee Hx El Es. eapply (wp_drop_new t x _ e); [done | by rewrite Es | exact Hw | done | done | done |].
    intros e'. left. cbn [t_sched set_t_env create_thread_lock]. rewrite Es. split; [done |]. split; [done |]. split; [done |]. split; [done |]. exists t. split; [done |]. split; [done |].
    cbn. unfold proc_of. by rewrite lookup_insert_eq.
  - intros t b r u h sp w s' _ _ Hc Hok' _ Hl Hk c Hu Hs Ho. right. exists b, r, u, h, sp, w. done.
Qed.

(** A second thread is lost when the first one of its process heads the ring: the
    list of the threads of a process is linked with the field of the ring, the
    new thread becomes ready, and no walk along the ring comes to it. *)
Theorem second_thread_lost t x sp p h l (s : tsys St) : ready_ring (t_sched s) (h :: l) -> threads (t_sched s) !! t = None -> t <> 0 ->
  is_Some (procs (t_sched s) !! p) -> p_threads (proc_of (procs (t_sched s)) p) = h ->
  wp (join_process t p;; start_thread t sp) (fun _ s' => state (thread_of (threads (t_sched s')) t) = READY /\ ready_list_head (t_sched s') = h /\
    forall n, Nat.iter n (fun q => t_next (thread_of (threads (t_sched s')) q)) h <> t) (with_thread t x s).
Proof.
  intros Hring Hnone Ht Hp Hh. apply (wp_second_thread t x sp p h l); [done.. |]. intros s' Hst Hhd Hn. split; [done |]. split; [done |].
  assert (forall n, Nat.iter n (fun q => t_next (thread_of (threads (t_sched s')) q)) h ∈ h :: l) as Hin.
  { induction n as [|n IH]; [by left |]. rewrite Nat.iter_succ, (Hn _ IH). by apply ring_next_in. }
  intros n E. pose proof (Hin n) as Hi. rewrite E in Hi. pose proof (rr_live _ _ Hring t Hi) as Hl. rewrite Hnone in Hl. by destruct Hl.
Qed.

(** The end of a user thread frees its object and the bottom of its kernel stack,
    writes the link of the ring of the next thread of its process, and nothing
    else: the process, its mappings and its pages stay, since the list of its
    threads never becomes empty. *)
Theorem destroy_thread_spec fuel b t x p (s : tsys St) : th_ok b (t_env s) -> destroy_thread_lock s = 0 ->
  t <> 0 -> threads (t_sched s) !! t = Some x -> th_obj (t_env s) t ->
  bottom (kernel_stack x) <> t -> (bottom (kernel_stack x) = 0 \/ th_obj (t_env s) (bottom (kernel_stack x))) ->
  bottom (user_stack x) <> 0 -> process x = p -> p <> 0 -> is_Some (procs (t_sched s) !! p) -> p_threads (proc_of (procs (t_sched s)) p) <> 0 ->
  prev_pthread x = 0 -> next_pthread x <> t -> (next_pthread x <> 0 -> is_Some (threads (t_sched s) !! next_pthread x)) ->
  wp (destroy_thread fuel t) (fun _ s' => exists h e, th_ok b e /\
    (forall q, th_obj e q <-> th_obj (t_env s) q /\ q <> t /\ (q <> bottom (kernel_stack x) \/ bottom (kernel_stack x) = 0)) /\
    s' = set_t_env e (set_t_sched (set_threads (delete t (unlink_pthreads x (threads (t_sched s))))
      (set_procs (<[p := set_ustacks_infos h (proc_of (procs (t_sched s)) p)]> (procs (t_sched s))) (t_sched s))) s)) s.
Proof. apply wp_destroy_user_thread. Qed.

(** C29: after [init_scheduler] the ring consists of the main thread, which runs, and
    the two threads of the kernel, which are ready to start at their functions. *)
Theorem init_scheduler_spec k v exit_addr f g pcid_flags junk (s : tsys St) :
  no_threads (S (S (S (S k))), S (S (S (S (S v))))) s -> Z.lor (cr3 (s_cpu (t_sched s))) pcid_flags = cr3 (s_cpu (t_sched s)) ->
  0 <= exit_addr < 2 ^ 64 -> 0 <= f < 2 ^ 64 -> 0 <= g < 2 ^ 64 ->
  wp (init_scheduler exit_addr f g pcid_flags junk) (fun main s' => exists kr cln,
    sched_inv (t_sched s') [main; kr; cln] [] /\ current_thread (t_sched s') = main /\ next_thread_id s' = u64 (u64 (u64 (next_thread_id s + 1) + 1) + 1) /\
    starts_at (t_kmem s') (rsp (thread_of (threads (t_sched s')) kr)) f 0x08 0x10 exit_addr /\
    starts_at (t_kmem s') (rsp (thread_of (threads (t_sched s')) cln)) g 0x08 0x10 exit_addr) s.
Proof. apply wp_init_scheduler. Qed.

End theorems.

(** * Memory managers for the witnesses *)

(** Objects as a set of addresses; kernel areas one after the other up to a limit;
    user stacks at the top of the user's half, or none. *)
Record tmem (has_stacks : bool) : Type := Tmem { objs : gset Z; t_areas : list (Z * Z); area_brk : Z }.
Arguments Tmem {has_stacks} objs t_areas area_brk.
Arguments objs {has_stacks} t.
Arguments t_areas {has_stacks} t.
Arguments area_brk {has_stacks} t.
Definition area_limit : Z := 2 ^ 64 - 2 ^ 32.
Definition give_area {b : bool} (n : Z) : M (tmem b) Z := fun s =>
  let e := area_brk s + (n + 4095) / 4096 * 4096 in
  if e <=? area_limit then Ok (area_brk s, Tmem (objs s) ((area_brk s, n) :: t_areas s) e) else Ok (0, s).
#[export] Instance tmem_services b : ThreadServices (tmem b) := {
  th_kmalloc _ := fun s => let p := fresh ({[0]} ∪ objs s) in Ok (p, Tmem ({[p]} ∪ objs s) (t_areas s) (area_brk s));
  th_kfree p := fun s => Ok (tt, Tmem (if p =? 0 then objs s else objs s ∖ {[p]}) (t_areas s) (area_brk s));
  th_vmalloc := give_area;
  th_kernel_alloc_stack := give_area;
  th_user_alloc_stack h _ _ := fun s => Ok (if (b : bool) then (0x00007FFFFFFFF000, 8) else (0, h), s);
  th_user_free_stack h _ _ := mret h;
  th_munmap_by_info _ _ := mret tt;
  th_area_next _ := mret 0;
  th_unmap_page _ _ := mret 0;
  th_free_page _ := mret tt;
}.
Record tmem_ok {h : bool} (b : nat * nat) (s : tmem h) : Prop := {
  tm_low : 2 ^ 47 <= area_brk s;
  tm_page : area_brk s mod 4096 = 0;
  tm_room : area_brk s + Z.of_nat b.2 * 2 ^ 32 <= area_limit;
  tm_areas a m : (a, m) ∈ t_areas s -> a + m <= area_brk s;
}.

Lemma give_area_ok {h : bool} k v n (s : tmem h) : tmem_ok (k, v) s -> 0 < n <= 2 ^ 31 ->
  wp (give_area n) (fun r s' => tmem_ok (k, Nat.pred v) s' /\ (fun p => p ∈ objs s') = (fun p => p ∈ objs s) /\
    area_result (fun a m => (a, m) ∈ t_areas s) (fun a m => (a, m) ∈ t_areas s') v n r) s.
Proof.
  intros [H1 H2 H3 H4] Hn. unfold wp, give_area. cbn [snd] in H3. unfold area_limit in *.
  assert (n <= (n + 4095) / 4096 * 4096 < n + 4096) as Hr by (clear; dlia). set (z := (n + 4095) / 4096) in *.
  destruct (Z.leb_spec (area_brk s + z * 4096) (2 ^ 64 - 2 ^ 32)) as [Hle|Hgt].
  - split; [| split; [done |]].
    + split; cbn [area_brk t_areas snd]; [lia | by rewrite Z.mod_add | unfold area_limit; destruct v; cbn [Nat.pred] in *; lia |].
      intros a m [[= -> ->] | Hin]%elem_of_cons; [lia |]. specialize (H4 _ _ Hin). lia.
    + apply an_area; [done | lia | done | |]; cbn [t_areas].
      * intros a m Hin. left. by apply H4.
      * intros a m. rewrite elem_of_cons. split; [intros [[= -> ->] | ?]; auto | intros [[-> ->] | ?]; auto].
  - destruct v; [| lia]. split; [by split |]. split; [done |]. by apply no_area.
Qed.

#[export, refine] Instance tmem_laws b : ThreadLaws (tmem b) := {| th_ok := tmem_ok; th_obj := fun s p => p ∈ objs s; th_area := fun s a m => (a, m) ∈ t_areas s |}.
Proof.
  - intros k v n s [H1 H2 H3 H4] Hn. unfold wp, th_kmalloc. cbn [tmem_services]. split; [by split |]. split; [done |]. right.
    pose proof (is_fresh ({[0]} ∪ objs s)) as Hf. set (p := fresh _) in *. clearbody p. rewrite elem_of_union, elem_of_singleton in Hf.
    split; [by intros ->; apply Hf; left |]. split; [by intros Hin; apply Hf; right |]. intros q. cbn. by rewrite elem_of_union, elem_of_singleton.
  - intros b' p s [H1 H2 H3 H4] Hp. unfold wp, th_kfree. cbn [tmem_services]. split; [by split |]. split; [done |]. intros q. cbn.
    destruct (Z.eqb_spec p 0); [tauto |]. rewrite elem_of_difference, elem_of_singleton. tauto.
  - intros k v n s. apply give_area_ok.
  - intros k v n s. apply give_area_ok.
  - intros b' h c n s Hs Hn. unfold wp, th_user_alloc_stack. cbn [tmem_services]. split; [done |]. split; [done |]. split; [done |].
    destruct b; cbn; [right; lia | by left].
  - intros b' h c p s Hs. unfold wp, th_user_free_stack. cbn [tmem_services mret]. done.
Defined.

(** The three threads of the scheduler's witnesses, a process without threads, and
    a processor without vector registers, or with. *)
Definition t_demo_sched : sched :=
  let s := three RUNNING in set_procs (<[12 := proc_of (procs s) 12]> (procs s)) s.
Definition t_demo (n : Z) (stacks : bool) : tsys (tmem stacks) :=
  TSys (Tmem {[1; 2; 3]} [] 0xFFFFC00000000000) t_demo_sched ∅ ∅ 4 n 0 0.

Lemma t_demo_ok n stacks : 0 <= n <= 2 ^ 31 -> tsys_ok (1%nat, 2%nat) [1; 2; 3] [] (t_demo n stacks).
Proof.
  intros Hn. split; [| apply (sched_inv_procs _ _ (three RUNNING) 12 id); [apply three_inv | done] | | done].
  - split; [done | done | by vm_compute | by intros a m ?%elem_of_nil].
  - intros p Hp. cbn in Hp |- *. rewrite !lookup_insert_is_Some', lookup_empty in Hp. rewrite !elem_of_union, !elem_of_singleton.
    destruct Hp as [<- | [<- | [<- | [? ?]]]]; [by left; left | by left; right | by right | done].
Qed.

Lemma create_thread_spec_witness :
  wp (create_thread 0x500 0x600 4096) (fun t s' => exists sp, sched_inv (t_sched s') [1; 2; 3; t] [] /\
    starts_at (t_kmem s') sp 0x600 0x08 0x10 0x500 /\ rsp (thread_of (threads (t_sched s')) t) = sp) (t_demo 512 true).
Proof.
  eapply wp_mono; [apply (create_thread_spec 0 0 [1; 2; 3] [] 0x500 0x600 4096 (t_demo 512 true)); [by apply t_demo_ok | lia | lia | lia] |].
  intros t s' (b & r & sp & v' & _ & Hc & _ & _ & _ & _ & Hs & _). exists sp. split; [apply (cr_sched _ _ _ _ _ _ Hc) |]. split; [exact Hs |].
  apply (created_rsp _ _ _ _ _ _ Hc).
Defined.

Lemma stacks_demo n : stacks_given (St := tmem true) n.
Proof. by intros b e h c _. Qed.

Lemma create_user_thread_spec_witness :
  wp (create_user_thread 12 0x400000 0x2000 0x4000) (fun r s' => sched_inv (t_sched s') [1; 2; 3; r] [] /\ create_thread_lock s' = 0) (t_demo 512 true) /\
  wp (create_user_thread 12 0x400000 0x2000 0x4000) (fun r s' => r = 0 /\ create_thread_lock s' = 1) (t_demo 0 false).
Proof.
  split.
  - eapply wp_mono; [apply (wp_and _ (fun r _ => r <> 0)); [by vm_compute |
      apply (create_user_thread_spec 0 0 [1; 2; 3] [] 12 0x400000 0x2000 0x4000 (t_demo 512 true)); try done; [by apply t_demo_ok | right; apply stacks_demo]] |].
    intros r s' (Hr & [[? _] | (b & a & u & h & sp & w & Hc & _ & Hl & _)]); [done |]. split; [apply (cr_sched _ _ _ _ _ _ Hc) | exact Hl].
  - eapply wp_mono; [apply (wp_and _ (fun r _ => r = 0)); [by vm_compute |
      apply (create_user_thread_spec 0 0 [1; 2; 3] [] 12 0x400000 0x2000 0x4000 (t_demo 0 false)); try done; [by apply t_demo_ok | by left]] |].
    intros r s' (-> & [(_ & Hl & _) | (b & a & u & h & sp & w & Hc & _)]); [by split |].
    exfalso. apply (ring_valid _ _ _ _ 0 (rr_ring _ _ (si_ring _ _ _ (cr_sched _ _ _ _ _ _ Hc)))); [| done]. apply elem_of_app. right. by left.
Defined.

Lemma second_thread_lost_witness :
  wp (join_process 8 10;; start_thread 8 0x5000) (fun _ s' => forall n, Nat.iter n (fun q => t_next (thread_of (threads (t_sched s')) q)) 1 <> 8)
    (with_thread 8 blank_thread (t_demo 512 true)).
Proof.
  eapply wp_mono; [apply (second_thread_lost 8 blank_thread 0x5000 10 1 [2; 3] (t_demo 512 true)); try done; apply (tk_sched _ _ _ _ (t_demo_ok 512 true ltac:(lia))) |].
  by intros [] s' (_ & _ & H).
Defined.

(** A dead thread 8 of process 10, whose next thread is 2. *)
Definition dying : thread := Thread 0 7 DEAD (Stack 0x3000 0x2000 0x1000) (Stack 0x9000 0x5000 0x4000) 0 0 0 10 0 0 0 0 2 0.
Definition t_dying : tsys (tmem true) :=
  let s := with_thread 8 dying (t_demo 512 true) in set_t_env (Tmem {[1; 2; 3; 8; 0x2000]} [] 0xFFFFC00000000000) s.

Lemma destroy_thread_spec_witness :
  wp (destroy_thread 0 8) (fun _ s' => threads (t_sched s') !! 8 = None /\ t_prev (thread_of (threads (t_sched s')) 2) = 0 /\
    t_prev (thread_of (threads (t_sched t_dying)) 2) = 1 /\ is_Some (procs (t_sched s') !! 10)) t_dying.
Proof.
  eapply wp_mono; [apply (destroy_thread_spec 0 (1%nat, 2%nat) 8 dying 10 t_dying); try done |].
  - split; [done | done | by vm_compute | by intros a m ?%elem_of_nil].
  - right. change (0x2000 ∈ ({[1; 2; 3; 8; 0x2000]} : gset Z)). set_solver.
  - intros [] s' (h & e & _ & _ & ->). split_and!; [reflexivity | reflexivity | reflexivity | by eexists].
Defined.

(** At boot. *)
Definition t_boot : tsys (tmem true) :=
  TSys (Tmem ∅ [] 0xFFFFC00000000000) (Sched (Cpu 0x200 0x1000) ∅ ∅ 0 0 0 0 0 0 0 0 0) ∅ ∅ 0 512 0 0.

Lemma init_scheduler_spec_witness :
  wp (init_scheduler 0x500 0x600 0x700 0 blank_thread) (fun main s' => exists kr cln, ready_ring (t_sched s') [main; kr; cln] /\ next_thread_id s' = 3) t_boot.
Proof.
  eapply wp_mono; [apply (init_scheduler_spec 0 0 0x500 0x600 0x700 0 blank_thread t_boot); [| done | lia | lia | lia] |].
  - split; [split; [done | done | by vm_compute | by intros a m ?%elem_of_nil] | done | done | done].
  - intros main s' (kr & cln & Hs & _ & Hid & _). exists kr, cln. split; [apply Hs | exact Hid].
Defined.
