(* ===== verification/Mmap.v ===== *)
(** Mappings and page faults ([mm/mmap.c], [mm/page_fault.c]): areas of the user's
    address space, and the pages that are mapped when they are first used: of
    stacks, of the heap and of mappings. *)
From S2P Require Import Prelude Interfaces Cpu DList VmArea Sched.

(** * State *)

Definition PROT_WRITE : Z := 0x2.
Definition MAP_SHARED : Z := 0x1.
Definition MAP_PRIVATE : Z := 0x2.
Definition MAP_FIXED : Z := 0x10.
Definition MAP_ANONYMOUS : Z := 0x20.
Definition EINVAL : Z := 22.
Definition ENOMEM : Z := 12.
Definition FD_MAX : Z := 128.

(** What the handler uses of files: [dfs_read] of the file of a mapping into
    memory; its inode, as number and first block; the search in the page cache;
    the disk, a page; and the entry of a page in the cache. *)
Class FileServices (K : Type) : Type := {
  ff_dfs_read : Z -> Z -> Z -> Z -> M K Z;
  ff_inode : Z -> M K (Z * Z);
  ff_get_cache : Z -> Z -> M K Z;
  ff_ahci_read : Z -> Z -> Z -> M K Z;
  ff_add_page : Z -> Z -> Z -> Z -> M K unit;
}.

(** The areas and the scheduler, which share the heads of two of the lists. *)
Record msp (K : Type) : Type := Msp {
  p_vk : K;
  p_areas : gmap Z vm_area;
  p_vmalloc_head : Z;
  p_sched : sched;
  p_scheduler : Z;
}.
Arguments Msp {K} p_vk p_areas p_vmalloc_head p_sched p_scheduler.
Arguments p_vk {K} m.
Arguments p_areas {K} m.
Arguments p_vmalloc_head {K} m.
Arguments p_sched {K} m.
Arguments p_scheduler {K} m.

Definition set_p_vk {K} (x : K) (s : msp K) : msp K := Msp x (p_areas s) (p_vmalloc_head s) (p_sched s) (p_scheduler s).
Definition set_p_sched {K} (x : sched) (s : msp K) : msp K := Msp (p_vk s) (p_areas s) (p_vmalloc_head s) x (p_scheduler s).
Definition l_p_vk {K} : lens (msp K) K := Lens p_vk set_p_vk.
Definition l_p_sched {K} : lens (msp K) sched := Lens p_sched set_p_sched.
Definition l_p_cpu {K} : lens (msp K) cpu := lens_compose l_p_sched l_s_cpu.
Definition l_vmas {K} : lens (msp K) (vmas K) :=
  Lens (fun s => Vmas (p_vk s) (p_areas s) (p_vmalloc_head s) (mmap_list_head (p_sched s)) (us_list_head (p_sched s)))
    (fun v s => Msp (vk v) (areas v) (vmalloc_list_head v) (set_lists (VmArea.us_list_head v) (VmArea.mmap_list_head v) (p_sched s)) (p_scheduler s)).

Definition set_prot_flags (pr fl : Z) (a : vm_area) : vm_area := VmArea (base a) (size a) pr fl (file a) (file_pgoff a) (next a) (prev a).
Definition set_file (f off : Z) (a : vm_area) : vm_area := VmArea (base a) (size a) (prot a) (flags a) f off (next a) (prev a).
Definition set_mmap_infos (x : Z) (p : proc) : proc :=
  Proc (p_cr3 p) (pid p) (p_threads p) (ustacks_infos p) x (fd_table p) (heap_start p) (p_heap_end p) (pages_alloced p).
Definition set_pages_alloced (x : Z) (p : proc) : proc :=
  Proc (p_cr3 p) (pid p) (p_threads p) (ustacks_infos p) (mmap_infos p) (fd_table p) (heap_start p) (p_heap_end p) x.

(** * Operations *)

Section operations.
Context {K : Type} `{KernelMem K} `{FileServices K}.

(** [current_thread->process], and through it. *)
Definition cur_process : M (msp K) Z := zoom l_p_sched (t ← gets current_thread; x ← get_thread t; mret (process x)).
Definition cur_proc_rec : M (msp K) proc := p ← cur_process; zoom l_p_sched (get_proc p).
Definition cur_thread_rec : M (msp K) thread := zoom l_p_sched (t ← gets current_thread; get_thread t).
Definition on_cur_thread (f : thread -> thread) : M (msp K) unit := zoom l_p_sched (t ← gets current_thread; upd_thread t f).
Definition on_cur_proc (f : proc -> proc) : M (msp K) unit := p ← cur_process; zoom l_p_sched (upd_proc p f).

(** [fd_table[fd]]. *)
Definition fd_entry (x : proc) (fd : Z) : M (msp K) Z := if fd <? FD_MAX then mret (default 0 (fd_table x !! fd)) else fail Fault.

(** [size] and [offset] are 64-bit, [prot], [flags] 32-bit. *)
Definition mmap (sz pr fl fd off : Z) : M (msp K) Z :=
  if truthy (Z.land fl MAP_FIXED) || (sz =? 0) || truthy (Z.land off 0xFFF) then mret (u64 (- EINVAL))
  else
    i ← zoom l_vmas new_area;
    if negb (truthy i) then mret (u64 (- ENOMEM))
    else
      zoom l_vmas (upd_area i (set_size (page_round sz)));;
      zoom l_vmas (upd_area i (set_prot_flags pr fl));;
      (if negb (truthy (Z.land fl MAP_ANONYMOUS)) then
         x ← cur_proc_rec;
         f ← fd_entry x fd;
         when (truthy f) (zoom l_vmas (upd_area i (set_file f off)))
       else mret tt);;
      zoom l_vmas (mmap_add_to_list i);;
      h ← gets (fun s => mmap_list_head (p_sched s));
      on_cur_proc (set_mmap_infos h);;
      a ← zoom l_vmas (get_area i);
      mret (u64 (base a - size a)).

Definition munmap (ptr : Z) : M (msp K) unit :=
  c ← zoom l_vmas (search l_mmap_head (fun a => u64 (base a - size a) =? ptr));
  if negb (truthy c) then mret tt
  else
    x ← cur_proc_rec;
    zoom l_vmas (munmap_by_info c (p_cr3 x));;
    h ← gets (fun s => mmap_list_head (p_sched s));
    on_cur_proc (set_mmap_infos h).

(** A fresh page for the page of the address [v]. *)
Definition map_fresh (v fl : Z) : M (msp K) unit :=
  p ← zoom l_p_vk km_alloc_page;
  zoom l_p_vk (km_map_page p v fl).

(** What the handler does: it resumes the thread, or ends it. *)
Inductive fault_result : Type := Resumed | Exited.

Definition user_writable : Z := Z.lor PTE_WRITABLE_FLAG PTE_USER_FLAG.
(** [fault_address & PAGE_MASK_4KB], and where in the file the page comes from. *)
Definition page_of (va : Z) : Z := Z.land va PAGE_MASK_4KB.
Definition file_offset (a : vm_area) (va : Z) : Z := u64 (u64 (u64 (file_pgoff a + page_of va) - base a) + size a).
Definition area_page_flags (a : vm_area) : Z := if truthy (Z.land (flags a) PROT_WRITE) then Z.lor PTE_USER_FLAG PTE_WRITABLE_FLAG else PTE_USER_FLAG.

Definition area_fault (a : vm_area) (va : Z) : M (msp K) unit :=
  let fl := area_page_flags a in
  if truthy (Z.land (flags a) MAP_ANONYMOUS) then map_fresh (page_of va) fl
  else if truthy (Z.land (flags a) MAP_PRIVATE) then
    paddr ← zoom l_p_vk km_alloc_page;
    zoom l_p_vk (ff_dfs_read (file a) (u64 (paddr + DIRECT_OFFSET)) (file_offset a va) PAGE_SIZE_4KB);;
    zoom l_p_vk (km_map_page paddr (page_of va) fl)
  else if truthy (Z.land (flags a) MAP_SHARED) then
    ino ← zoom l_p_vk (ff_inode (file a));
    zoom l_p_vk (ff_get_cache (fst ino) (file_offset a va / PAGE_SIZE_4KB));;
    paddr ← zoom l_p_vk km_alloc_page;
    status ← zoom l_p_vk (ff_ahci_read (u64 (file_offset a va / 512 + snd ino * 8)) 8 paddr);
    if negb (status =? 0) then zoom l_p_vk (km_free_page paddr)
    else
      zoom l_p_vk (ff_add_page (fst ino) (file_offset a va / PAGE_SIZE_4KB) paddr 0);;
      zoom l_p_vk (km_map_page paddr (page_of va) fl)
  else mret tt.

(** The end of the handler: the first mapping that has the address; without one
    the handler stops the kernel. *)
Definition in_mapping (va : Z) (a : vm_area) : bool := (u64 (base a - size a) <=? va) && (va <? base a).
Definition find_mapping (cur va : Z) : M (msp K) fault_result :=
  fuel ← gets (fun s => map_size (p_areas s));
  c ← zoom l_vmas (find_area (S fuel) (in_mapping va) cur);
  if negb (truthy c) then fail Hang
  else a ← zoom l_vmas (get_area c); area_fault a va;; mret Resumed.

(** The handler past the test for the guard page; [x] is the process. *)
Definition fault_past_guard (x : proc) (va : Z) : M (msp K) fault_result :=
  if (heap_start x <=? va) && (va <? p_heap_end x) then
    map_fresh (page_of va) user_writable;;
    on_cur_proc (fun x => set_pages_alloced (u64 (pages_alloced x + 1)) x);;
    mret Resumed
  else find_mapping (mmap_infos x) va.

Definition page_fault_handler (va : Z) : M (msp K) fault_result :=
  on ← gets p_scheduler;
  if negb (truthy on) then fail Hang
  else
    t ← cur_thread_rec;
    if (va <? page_guard_max t) && (page_guard_min t <=? va) then
      if negb (page_guard_max t =? bottom (user_stack t)) then
        map_fresh (page_guard_min t) user_writable;;
        on_cur_thread (fun x => set_page_guard (page_guard_min x) (u64 (page_guard_max x - PAGE_SIZE_4KB)) x);;
        on_cur_thread (fun x => set_page_guard (u64 (page_guard_min x - PAGE_SIZE_4KB)) (page_guard_max x) x);;
        mret Resumed
      else zoom l_p_sched thread_exit;; mret Exited
    else x ← cur_proc_rec; fault_past_guard x va.

(** The faults at the addresses [vas], one after the other. *)
Fixpoint faults (vas : list Z) : M (msp K) (list fault_result) :=
  match vas with
  | [] => mret []
  | va :: vas' => r ← page_fault_handler va; rs ← faults vas'; mret (r :: rs)
  end.

End operations.

(** * Specification *)

(** What the handler relies on. Seen from outside, the memory is: the frames in
    use, the pages of the address space with their frames and flags, the pages
    of files that are in the cache, and the bytes of the frames. [fl_ok n k]:
    [n] more frames can be had, of which a new mapping may take three for its
    tables. The page of a file is the one in the cache, or else the one on the disk.
    [dfs_read] of a page that is not in the cache takes a frame for it, which enters
    the cache unless the disk fails, and gives 0 at the end of the file and on a
    failure. Only with [fl_reliable] does the disk not fail. *)
Class FaultLaws (K : Type) `{KernelMem K} `{FileServices K} : Type := {
  fl_ok : nat -> K -> Prop;
  used : K -> gset Z;
  maps : K -> gmap Z (Z * Z);
  cached : K -> gmap (Z * Z) Z;
  frame : K -> Z -> Z -> Z;
  fl_size : Z -> Z;
  fl_inode : Z -> Z * Z;
  fl_disk : Z -> Z -> Z;
  fl_reliable : Prop;
  keeps (k k' : K) : Prop := used k ⊆ used k' /\ forall q i, q ∈ used k -> frame k' q i = frame k q i;
  page_key (f off : Z) : Z * Z := ((fl_inode f).1, off / PAGE_SIZE_4KB);
  disk_byte (f off i : Z) : Z := fl_disk (u64 (off / 512 + (fl_inode f).2 * 8) + i / 512) (i mod 512);
  file_byte (k : K) (f off i : Z) : Z := match cached k !! page_key f off with Some c => frame k c i | None => disk_byte f off i end;
  cache_grown (k k' : K) (f off : Z) : Prop := cached k' = cached k \/
    exists c, (c ∉ used k) /\ (c ∈ used k') /\ cached k !! page_key f off = None /\ cached k' = <[page_key f off := c]> (cached k) /\
      forall i, 0 <= i < PAGE_SIZE_4KB -> frame k' c i = disk_byte f off i;
  fl_ok_less n k : fl_ok (S n) k -> fl_ok n k;
  fl_cached_used n k ix c : fl_ok n k -> cached k !! ix = Some c -> c ∈ used k;
  wp_fl_alloc n k : fl_ok (S n) k ->
    wp km_alloc_page (fun p k' => fl_ok n k' /\ keeps k k' /\ (p ∉ used k) /\ used k' = {[p]} ∪ used k /\ 0 < p < 2 ^ 46 /\
      maps k' = maps k /\ cached k' = cached k) k;
  wp_fl_map n k p v fl : fl_ok (3 + n) k -> v mod PAGE_SIZE_4KB = 0 ->
    wp (km_map_page p v fl) (fun _ k' => fl_ok n k' /\ keeps k k' /\ maps k' = <[v := (p, fl)]> (maps k) /\ cached k' = cached k) k;
  wp_fl_free n k p : fl_ok n k -> p ∈ used k -> (forall ix, cached k !! ix <> Some p) ->
    wp (km_free_page p) (fun _ k' => fl_ok n k' /\ used k' = used k ∖ {[p]} /\
      (forall q i, q ∈ used k' -> frame k' q i = frame k q i) /\ maps k' = maps k /\ cached k' = cached k) k;
  wp_fl_read n k f p off : fl_ok (S n) k -> p ∈ used k -> (forall ix, cached k !! ix <> Some p) -> 0 <= off -> off mod PAGE_SIZE_4KB = 0 ->
    wp (ff_dfs_read f (p + DIRECT_OFFSET) off PAGE_SIZE_4KB) (fun r k' => fl_ok n k' /\ used k ⊆ used k' /\ maps k' = maps k /\
      (forall q i, q ∈ used k -> q <> p -> frame k' q i = frame k q i) /\ cache_grown k k' f off /\
      (fl_reliable -> off < fl_size f -> r <> 0) /\
      (r <> 0 -> forall i, 0 <= i < PAGE_SIZE_4KB -> off + i < fl_size f -> frame k' p i = file_byte k f off i)) k;
  wp_fl_inode f k : wp (ff_inode f) (fun r k' => r = fl_inode f /\ k' = k) k;
  wp_fl_get_cache n i k : wp (ff_get_cache n i) (fun _ k' => k' = k) k;
  wp_fl_disk n k sec p : fl_ok n k -> p ∈ used k ->
    wp (ff_ahci_read sec 8 p) (fun st k' => fl_ok n k' /\ used k' = used k /\ maps k' = maps k /\ cached k' = cached k /\
      (forall q i, q <> p -> frame k' q i = frame k q i) /\
      (fl_reliable -> st = 0) /\ (st = 0 -> forall i, 0 <= i < PAGE_SIZE_4KB -> frame k' p i = fl_disk (sec + i / 512) (i mod 512))) k;
  wp_fl_add_page n k ino i p : fl_ok n k -> p ∈ used k ->
    wp (ff_add_page ino i p 0) (fun _ k' => fl_ok n k' /\ keeps k k' /\ maps k' = maps k /\ cached k' = <[(ino, i) := p]> (cached k)) k;
}.

Section specification.
Context {K : Type} `{Hk : KernelMem K} `{Hf : FileServices K} `{Hlaws : !FaultLaws K}.

(** The page at [v] now has the frame [p], which was not in use, with the flags
    [fl]; no other page, and nothing in other frames, has changed. *)
Record served (v fl p : Z) (k k' : K) : Prop := {
  sv_fresh : p ∉ used k;
  sv_used : p ∈ used k';
  sv_keeps : keeps k k';
  sv_maps : maps k' = <[v := (p, fl)]> (maps k);
}.

(** The user stack of [t] has its first [length ps] pages, from the top down, in
    the frames [ps], all different; the guard page is the next one. *)
Record stack_pages (t : thread) (ps : list Z) (k : K) : Prop := {
  sp_max : page_guard_max t = top (user_stack t) - Z.of_nat (length ps) * PAGE_SIZE_4KB;
  sp_min : page_guard_min t = page_guard_max t - PAGE_SIZE_4KB;
  sp_nodup : NoDup ps;
  sp_used p : p ∈ ps -> p ∈ used k;
  sp_mapped (i : nat) p : ps !! i = Some p ->
    maps k !! (top (user_stack t) - (Z.of_nat i + 1) * PAGE_SIZE_4KB) = Some (p, user_writable);
}.

(** The scheduler runs, and the current thread and its process are there. *)
Record user_mode (s : msp K) : Prop := {
  um_on : p_scheduler s <> 0;
  um_thread : is_Some (threads (p_sched s) !! current_thread (p_sched s));
  um_proc : is_Some (procs (p_sched s) !! cur_proc (p_sched s));
}.

Definition cur_thr (s : msp K) : thread := thread_of (threads (p_sched s)) (current_thread (p_sched s)).
Definition cur_prc (s : msp K) : proc := proc_of (procs (p_sched s)) (cur_proc (p_sched s)).
Definition in_guard (t : thread) (va : Z) : Prop := page_guard_min t <= va < page_guard_max t.
Definition in_heap (x : proc) (va : Z) : Prop := heap_start x <= va < p_heap_end x.



(** * Lemmas *)

Implicit Types s : msp K.

Lemma mem_keeps_refl k : keeps k k.
Proof. by split. Qed.

Lemma mem_keeps_trans k1 k2 k3 : keeps k1 k2 -> keeps k2 k3 -> keeps k1 k3.
Proof. intros [H1 F1] [H2 F2]. split; [set_solver |]. intros q i Hq. rewrite F2 by set_solver. by apply F1. Qed.


Lemma set_p_sched_id s : set_p_sched (p_sched s) s = s.
Proof. by destruct s. Qed.

Lemma wp_cur_thread_rec (Q : thread -> msp K -> Prop) s : user_mode s -> Q (cur_thr s) s -> wp cur_thread_rec Q s.
Proof.
  intros [_ Ht _] HQ. apply wp_zoom, wp_bind, wp_gets, wp_get_thread; [done |]. cbn [over view l_p_sched]. by rewrite set_p_sched_id.
Qed.

Lemma wp_cur_process (Q : Z -> msp K -> Prop) s : user_mode s -> Q (cur_proc (p_sched s)) s -> wp cur_process Q s.
Proof.
  intros [_ Ht _] HQ. apply wp_zoom, wp_bind, wp_gets, wp_bind, wp_get_thread; [done |]. apply wp_ret. cbn [over view l_p_sched]. by rewrite set_p_sched_id.
Qed.

Lemma wp_cur_proc_rec (Q : proc -> msp K -> Prop) s : user_mode s -> Q (cur_prc s) s -> wp cur_proc_rec Q s.
Proof.
  intros Hu HQ. apply wp_bind, wp_cur_process; [done |]. apply wp_zoom, wp_get_proc; [apply Hu |]. cbn [over view l_p_sched]. by rewrite set_p_sched_id.
Qed.

(** [s] after an assignment to the current thread, and to its process. *)
Definition with_thread (f : thread -> thread) s : msp K :=
  set_p_sched (set_threads (upd (current_thread (p_sched s)) f (threads (p_sched s))) (p_sched s)) s.
Definition with_proc (f : proc -> proc) s : msp K :=
  set_p_sched (set_procs (<[cur_proc (p_sched s) := f (cur_prc s)]> (procs (p_sched s))) (p_sched s)) s.

Lemma wp_on_cur_thread f (Q : unit -> msp K -> Prop) s : user_mode s -> Q tt (with_thread f s) -> wp (on_cur_thread f) Q s.
Proof. intros [_ Ht _] HQ. apply wp_zoom, wp_bind, wp_gets, wp_upd_thread; [done |]. exact HQ. Qed.

Lemma wp_on_cur_proc f (Q : unit -> msp K -> Prop) s : user_mode s -> Q tt (with_proc f s) -> wp (on_cur_proc f) Q s.
Proof. intros Hu HQ. apply wp_bind, wp_cur_process; [done |]. apply wp_zoom, wp_upd_proc; [apply Hu |]. exact HQ. Qed.

Lemma cur_thr_with f s : cur_thr (with_thread f s) = f (cur_thr s).
Proof. unfold cur_thr, with_thread. cbn. by rewrite thread_of_upd, decide_True. Qed.

Lemma cur_thread_twice f g s : with_thread g (with_thread f s) = with_thread (fun t => g (f t)) s.
Proof.
  unfold with_thread, upd, set_p_sched, set_threads. cbn. f_equal. f_equal. rewrite insert_insert_eq. f_equal. f_equal.
  unfold thread_of. by rewrite lookup_insert_eq.
Qed.

(** An assignment to the current thread that leaves its process. *)
Lemma user_mode_with_thread f s : (forall t, process (f t) = process t) -> user_mode s -> user_mode (with_thread f s).
Proof.
  intros Hfp [H1 H2 H3]. split; [done | by apply thread_live_upd |].
  unfold cur_proc in *. cbn. by rewrite thread_of_upd, decide_True, Hfp by done.
Qed.

Lemma wp_map_fresh n v fl s (Q : unit -> msp K -> Prop) : fl_ok (4 + n) (p_vk s) -> v mod PAGE_SIZE_4KB = 0 ->
  (forall p k, served v fl p (p_vk s) k -> cached k = cached (p_vk s) -> fl_ok n k -> Q tt (set_p_vk k s)) -> wp (map_fresh v fl) Q s.
Proof.
  intros Hk0 Hv HQ. apply wp_bind, wp_zoom. eapply wp_mono; [by apply (wp_fl_alloc (3 + n)) |]. cbn [view over l_p_vk].
  intros p k1 (Hk1 & Hkeep & Hp & Hp' & _ & Hm & Hc). apply wp_zoom. eapply wp_mono; [by apply (wp_fl_map n) |]. cbn [view over l_p_vk p_vk set_p_vk].
  intros [] k2 (Hk2 & Hkeep2 & Hm2 & Hc2). apply (HQ p k2); [| congruence | done].
  split; [done | destruct Hkeep2; set_solver | by eapply mem_keeps_trans | by rewrite Hm2, Hm].
Qed.

(** ** Stacks *)

(** A page-aligned stack, with room below for one more page. *)
Definition stack_ok (t : thread) : Prop :=
  top (user_stack t) mod PAGE_SIZE_4KB = 0 /\ 2 * PAGE_SIZE_4KB <= bottom (user_stack t) /\ top (user_stack t) < 2 ^ 64.

Definition lower_guard (t : thread) : thread :=
  set_page_guard (u64 (page_guard_min t - PAGE_SIZE_4KB)) (u64 (page_guard_max t - PAGE_SIZE_4KB)) t.

Lemma handler_on s (b : bool) : user_mode s ->
  forall (m1 : M (msp K) fault_result) Q, wp m1 Q s -> wp (on ← gets p_scheduler; if negb (truthy on) then fail Hang else m1) Q s.
Proof. intros [Hon _ _] m1 Q Hm. apply wp_bind, wp_gets. by rewrite (proj2 (truthy_true _) Hon). Qed.

Lemma stack_pages_grow t ps p k k' : stack_pages t ps k -> stack_ok t -> bottom (user_stack t) < page_guard_max t ->
  served (page_guard_min t) user_writable p k k' -> stack_pages (lower_guard t) (ps ++ [p]) k'.
Proof.
  intros [Hmax Hmin Hnd Hu Hm] (Ht & Hb & Ht64) Hlt [Hp Hp' [Hk1 _] Hmap].
  assert (0 <= page_guard_min t - PAGE_SIZE_4KB /\ page_guard_max t < 2 ^ 64) as [H1 H2] by (unfold PAGE_SIZE_4KB in *; lia).
  split; cbn [lower_guard set_page_guard page_guard_max page_guard_min user_stack].
  - rewrite u64_small by (unfold PAGE_SIZE_4KB in *; lia). rewrite length_app. cbn [length]. lia.
  - rewrite !u64_small by (unfold PAGE_SIZE_4KB in *; lia). lia.
  - apply NoDup_app. split_and!; [done | | apply NoDup_singleton]. intros q Hq ->%list_elem_of_singleton. by apply Hp, Hu.
  - intros q [Hq| ->%list_elem_of_singleton]%elem_of_app; [by apply Hk1, Hu | done].
  - intros i q [Hi|[Hi Hq]]%lookup_app_Some; rewrite Hmap.
    + rewrite lookup_insert_ne; [by apply Hm |]. apply lookup_lt_Some in Hi. unfold PAGE_SIZE_4KB in *. lia.
    + apply list_lookup_singleton_Some in Hq as [Hi0 <-]. rewrite lookup_insert_Some. left. split; [| done].
      assert (i = length ps) as -> by lia. lia.
Qed.

Lemma wp_stack_fault n ps va s (Q : fault_result -> msp K -> Prop) : user_mode s -> stack_ok (cur_thr s) ->
  stack_pages (cur_thr s) ps (p_vk s) -> in_guard (cur_thr s) va -> fl_ok (4 + n) (p_vk s) ->
  bottom (user_stack (cur_thr s)) < page_guard_max (cur_thr s) ->
  (forall p k, served (page_guard_min (cur_thr s)) user_writable p (p_vk s) k -> fl_ok n k ->
     Q Resumed (with_thread lower_guard (set_p_vk k s))) ->
  wp (page_fault_handler va) Q s.
Proof.
  intros Hu Hok Hsp Hva Hfl Hlt HQ. apply (handler_on s true Hu). apply wp_bind, wp_cur_thread_rec; [done |].
  unfold in_guard in Hva. rewrite (proj2 (Z.ltb_lt _ _) (proj2 Hva)), (proj2 (Z.leb_le _ _) (proj1 Hva)). cbn [andb].
  rewrite (proj2 (Z.eqb_neq _ _)) by lia. cbn [negb].
  apply wp_bind, (wp_map_fresh n); [done | |].
  { destruct Hsp as [-> -> _ _ _], Hok as (Ht & _). clear - Ht. unfold PAGE_SIZE_4KB in *. dlia. }
  intros p k Hsv _ Hk1. apply wp_bind. apply wp_on_cur_thread; [destruct Hu; by split |].
  apply wp_bind. apply wp_on_cur_thread; [apply user_mode_with_thread; [done | destruct Hu; by split] |]. apply wp_ret.
  rewrite cur_thread_twice. exact (HQ p k Hsv Hk1).
Qed.

(** Below a stack that has all its pages, the thread ends. *)
Definition ended s : msp K :=
  set_p_sched (set_threads (upd (current_thread (p_sched s)) (set_state DEAD) (threads (p_sched s)))
    (set_s_cpu (Cpu (Z.ldiff (rflags (s_cpu (p_sched s))) FLAGS_IF) (cr3 (s_cpu (p_sched s)))) (p_sched s))) s.

Lemma cur_thr_ended s : cur_thr (ended s) = set_state DEAD (cur_thr s).
Proof. unfold ended, cur_thr. cbn. by rewrite thread_of_upd, decide_True. Qed.

Lemma ended_intr s : Z.testbit (rflags (s_cpu (p_sched (ended s)))) 9 = false.
Proof.
  unfold ended. cbn [p_sched set_p_sched s_cpu set_threads set_s_cpu rflags]. change FLAGS_IF with (2 ^ 9).
  by rewrite testbit_clearbit by lia.
Qed.

Lemma wp_stack_end va s (Q : fault_result -> msp K -> Prop) : user_mode s -> in_guard (cur_thr s) va ->
  page_guard_max (cur_thr s) = bottom (user_stack (cur_thr s)) -> Q Exited (ended s) -> wp (page_fault_handler va) Q s.
Proof.
  intros Hu Hva Heq HQ. apply (handler_on s true Hu). apply wp_bind, wp_cur_thread_rec; [done |].
  unfold in_guard in Hva. rewrite (proj2 (Z.ltb_lt _ _) (proj2 Hva)), (proj2 (Z.leb_le _ _) (proj1 Hva)). cbn [andb].
  rewrite (proj2 (Z.eqb_eq _ _) Heq). cbn [negb]. apply wp_bind, wp_zoom, wp_bind, wp_modify, wp_bind, wp_gets, wp_upd_thread; [apply Hu |].
  apply wp_ret. exact HQ.
Qed.

(** The [i]th of the addresses lies in the [i]th page below the stack of [t]. *)
Definition descending (t : thread) (vas : list Z) : Prop :=
  forall (i : nat) va, vas !! i = Some va ->
    page_guard_min t - Z.of_nat i * PAGE_SIZE_4KB <= va < page_guard_max t - Z.of_nat i * PAGE_SIZE_4KB.

Lemma wp_faults_stack vas : forall ps va s, user_mode s -> stack_ok (cur_thr s) -> stack_pages (cur_thr s) ps (p_vk s) ->
  top (user_stack (cur_thr s)) - bottom (user_stack (cur_thr s)) = Z.of_nat (length ps + length vas) * PAGE_SIZE_4KB ->
  descending (cur_thr s) (vas ++ [va]) -> fl_ok (length vas * 4) (p_vk s) ->
  wp (faults (vas ++ [va])) (fun rs s' => rs = replicate (length vas) Resumed ++ [Exited] /\
    state (cur_thr s') = DEAD /\ Z.testbit (rflags (s_cpu (p_sched s'))) 9 = false /\
    exists qs, length qs = length vas /\ stack_pages (cur_thr s') (ps ++ qs) (p_vk s')) s.
Proof.
  induction vas as [|v vas IH]; intros ps va s Hu Hok Hsp Hsz Hd Hfl.
  - cbn [app faults]. pose proof (Hd 0%nat va eq_refl) as Hva. apply wp_bind, wp_stack_end; [done | unfold in_guard; lia | |].
    { rewrite (sp_max _ _ _ Hsp). cbn [length] in Hsz. lia. }
    apply wp_bind, wp_ret, wp_ret. split; [done |]. rewrite cur_thr_ended. split; [done |].
    split; [exact (ended_intr s) |]. exists []. split; [done |]. rewrite app_nil_r. destruct Hsp. by split.
  - cbn [app faults]. pose proof (Hd 0%nat v eq_refl) as Hva. pose proof (sp_max _ _ _ Hsp) as Hmax. cbn [length] in Hsz.
    apply wp_bind, (wp_stack_fault (length vas * 4) ps); [done.. | unfold in_guard; lia | exact Hfl | unfold PAGE_SIZE_4KB in *; lia |].
    intros p k Hsv Hk1. set (s1 := with_thread lower_guard (set_p_vk k s)).
    assert (cur_thr s1 = lower_guard (cur_thr s)) as Ht1 by exact (cur_thr_with lower_guard (set_p_vk k s)).
    assert (stack_pages (cur_thr s1) (ps ++ [p]) k) as Hsp1.
    { rewrite Ht1. apply (stack_pages_grow _ _ _ (p_vk s)); [done | done | unfold PAGE_SIZE_4KB in *; lia | done]. }
    apply wp_bind. eapply wp_mono; [apply (IH (ps ++ [p]) va s1) |].
    + apply user_mode_with_thread; [done |]. destruct Hu. by split.
    + by rewrite Ht1.
    + exact Hsp1.
    + rewrite Ht1, length_app. cbn. cbn in Hsz. lia.
    + intros i w Hi. rewrite Ht1. specialize (Hd (S i) w Hi). pose proof (sp_min _ _ _ Hsp). destruct Hok as (_ & Hb & Ht64). cbn [lower_guard set_page_guard page_guard_min page_guard_max].
      rewrite !u64_small by (unfold PAGE_SIZE_4KB in *; lia). lia.
    + exact Hk1.
    + intros rs s' (-> & Hst & Hi & qs & Hq & Hsp'). apply wp_ret. split; [done |]. do 2 (split; [done |]).
      exists (p :: qs). rewrite <- app_assoc in Hsp'. split; [cbn; lia | done].
Qed.

(** ** The heap and the mappings *)

Lemma page_of_aligned va : 0 <= va < 2 ^ 64 -> page_of va mod PAGE_SIZE_4KB = 0 /\ page_of va <= va < page_of va + PAGE_SIZE_4KB.
Proof. intros Hva. unfold page_of. rewrite land_page_mask by done. unfold PAGE_SIZE_4KB. clear. dlia. Qed.

(** Past the test for the guard page. *)
Lemma handler_past_guard va s : user_mode s -> ~ in_guard (cur_thr s) va ->
  page_fault_handler va s = fault_past_guard (cur_prc s) va s.
Proof.
  intros Hu Hva. destruct (wp_ok _ _ _ (wp_cur_thread_rec (fun t s' => t = cur_thr s /\ s' = s) s Hu (conj eq_refl eq_refl))) as (t & s1 & Et & -> & ->).
  destruct (wp_ok _ _ _ (wp_cur_proc_rec (fun x s' => x = cur_prc s /\ s' = s) s Hu (conj eq_refl eq_refl))) as (x & s1 & Ex & -> & ->).
  unfold page_fault_handler, mbind, M_bind, gets. rewrite (proj2 (truthy_true _) (um_on _ Hu)). cbn [negb]. rewrite Et.
  destruct (Z.ltb_spec va (page_guard_max (cur_thr s))), (Z.leb_spec (page_guard_min (cur_thr s)) va); cbn [andb]; try (by rewrite Ex).
  destruct Hva. unfold in_guard. lia.
Qed.

Lemma wp_heap_fault n va s (Q : fault_result -> msp K -> Prop) : user_mode s -> ~ in_guard (cur_thr s) va ->
  in_heap (cur_prc s) va -> 0 <= va < 2 ^ 64 -> fl_ok (4 + n) (p_vk s) ->
  (forall p k, served (page_of va) user_writable p (p_vk s) k -> fl_ok n k ->
     Q Resumed (with_proc (fun x => set_pages_alloced (u64 (pages_alloced x + 1)) x) (set_p_vk k s))) ->
  wp (page_fault_handler va) Q s.
Proof.
  intros Hu Hg [H1 H2] Hva Hfl HQ. unfold wp. rewrite handler_past_guard by done. change (wp (fault_past_guard (cur_prc s) va) Q s). unfold fault_past_guard.
  rewrite (proj2 (Z.leb_le _ _) H1), (proj2 (Z.ltb_lt _ _) H2). cbn [andb].
  apply wp_bind, (wp_map_fresh n); [done | by apply page_of_aligned |]. intros p k Hsv _ Hk1.
  apply wp_bind, wp_on_cur_proc; [destruct Hu; by split |]. apply wp_ret. by apply (HQ p k).
Qed.

(** An area as [mmap] makes it: pages of a file, or of none. *)
Record mapping_ok (a : vm_area) : Prop := {
  ma_start : (base a - size a) mod PAGE_SIZE_4KB = 0;
  ma_range : 0 <= base a - size a /\ 0 < size a /\ base a < 2 ^ 64;
  ma_pgoff : 0 <= file_pgoff a /\ file_pgoff a + size a < 2 ^ 64 /\ file_pgoff a mod PAGE_SIZE_4KB = 0;
}.











(** The mappings of the process in use, in the list [l]. *)
Record mappings (e : Z) (l : list Z) s : Prop := {
  mp_list : area_list Down MMAP_START e (mmap_infos (cur_prc s)) (p_areas s) l;
  mp_ok i : i ∈ l -> mapping_ok (area_of (p_areas s) i);
}.

Lemma in_mapping_true va a : mapping_ok a -> in_mapping va a = true <-> base a - size a <= va < base a.
Proof.
  intros [_ Hr _]. unfold in_mapping. rewrite u64_small by lia. rewrite andb_true_iff, Z.leb_le, Z.ltb_lt. done.
Qed.


(** The search of the handler: the mapping that has the address, 0 if there is none. *)
Lemma mapping_search e l va s : mappings e l s ->
  exists r, zoom l_vmas (find_area (S (map_size (p_areas s))) (in_mapping va) (mmap_infos (cur_prc s))) s = Ok (r, s) /\
    ((r = 0 /\ forall i, i ∈ l -> ~ in_area Down (area_of (p_areas s) i) va) \/
     (r ∈ l /\ r <> 0 /\ in_area Down (area_of (p_areas s) r) va)).
Proof.
  intros Hmp. pose proof (mp_list _ _ _ Hmp) as [(q & Hd & Hnd) Hl _].
  assert (over l_vmas (view l_vmas s) s = s) as Es by (destruct s as [? ? ? []]; done).
  assert (wp (zoom l_vmas (find_area (S (map_size (p_areas s))) (in_mapping va) (mmap_infos (cur_prc s)))) (fun r s' => s' = s /\
    ((r = 0 /\ forall i, i ∈ l -> ~ in_area Down (area_of (p_areas s) i) va) \/
     (r ∈ l /\ r <> 0 /\ in_area Down (area_of (p_areas s) r) va))) s) as Hw; [| by destruct (wp_ok _ _ _ Hw) as (r & s' & E & -> & Hr); exists r].
  apply wp_zoom. eapply (wp_find_area (in_mapping va) q); [exact Hd | exact Hl | |].
  { cbn [areas view l_vmas]. pose proof (nodup_length _ _ Hnd Hl). lia. }
  intros r Hr. split; [exact Es |]. destruct Hr as [[-> Hr]|[Hr Hp]].
  - left. split; [done |]. intros i Hi Hin. specialize (Hr i Hi). apply Bool.not_true_iff_false in Hr.
    apply Hr, in_mapping_true; [by apply Hmp | exact Hin].
  - right. split_and!; [done | by apply (dseg_valid _ _ _ _ _ _ _ r Hd) | apply in_mapping_true in Hp; [exact Hp | by apply Hmp]].
Qed.



(** Without a mapping the kernel stops. *)
Lemma unmapped_fault e l va s : user_mode s -> ~ in_guard (cur_thr s) va -> ~ in_heap (cur_prc s) va -> mappings e l s ->
  (forall i, i ∈ l -> ~ in_area Down (area_of (p_areas s) i) va) -> page_fault_handler va s = Err Hang.
Proof.
  intros Hu Hg Hh Hmp Hno. rewrite handler_past_guard by done. unfold fault_past_guard.
  destruct (_ && _) eqn:E; [exfalso; apply Hh; apply andb_true_iff in E; unfold in_heap; lia |].
  destruct (mapping_search e l va s Hmp) as (r & Er & [[-> _]|(Hr & _ & Hin)]); [| by destruct (Hno r Hr)].
  unfold find_mapping, mbind, M_bind, gets. by rewrite Er.
Qed.

End specification.

(** * Mappings *)

#[global] Instance vmas_laws {K} : LensLaws (l_vmas (K := K)).
Proof. split; [by intros [] ? | by intros [? ? ? []] | by intros ? [] ?]. Qed.

Section mappings.
Context {K : Type} `{Hk : KernelMem K} `{Hf : FileServices K} `{Hlaws : !KernelMemLaws K}.
Implicit Types s : msp K.

(** The areas of [s]. *)
Definition vm_of s : vmas K := view l_vmas s.
Definition mmaps_ok : Z -> list Z -> vmas K -> Prop := list_ok Down MMAP_START l_mmap_head.

Lemma user_mode_vmas v s : user_mode s -> user_mode (over l_vmas v s).
Proof. intros [H1 H2 H3]. by split. Qed.

Lemma user_mode_with_proc f s : user_mode s -> user_mode (with_proc f s).
Proof.
  intros [H1 H2 H3]. split; [done.. |]. unfold cur_proc, with_proc in *. cbn. by rewrite lookup_insert_eq.
Qed.

(** The process has taken note of the head of the list. *)
Definition noted s : msp K := with_proc (set_mmap_infos (mmap_list_head (p_sched s))) s.

Lemma noted_infos s : mmap_infos (cur_prc (noted s)) = mmap_list_head (p_sched (noted s)).
Proof. unfold noted, with_proc, cur_prc, cur_proc. cbn. by rewrite proc_of_insert, decide_True. Qed.

Lemma wp_note {A} (m : M (msp K) A) (Q : A -> msp K -> Prop) s : user_mode s -> wp m Q (noted s) ->
  wp (h ← gets (fun s => mmap_list_head (p_sched s)); on_cur_proc (set_mmap_infos h);; m) Q s.
Proof. intros Hu Hm. by apply wp_bind, wp_gets, wp_bind, wp_on_cur_proc. Qed.

(** The file of a mapping: the file object, 0 for none; without one the fields
    keep what the new object held. *)
Definition file_of s (fl fd : Z) : Z := if truthy (Z.land fl MAP_ANONYMOUS) then 0 else default 0 (fd_table (cur_prc s) !! fd).
Definition filled_file s (fl fd off : Z) (a : vm_area) : vm_area :=
  if truthy (file_of s fl fd) then set_file (file_of s fl fd) off a else a.

(** The new mapping [i] of [n] bytes: it is placed among the mappings [l], and has its fields. *)
Record mmapped (e n : Z) (l : list Z) (pr fl fd off i : Z) s s' : Prop := {
  mm_placed : placed Down MMAP_START l_mmap_head e n l i (vm_of s) (vm_of s');
  mm_infos : mmap_infos (cur_prc s') = mmap_list_head (p_sched s');
  mm_fields : no_links (set_base 0 (area_of (p_areas s') i)) =
     no_links (set_base 0 (filled_file s fl fd off (set_prot_flags pr fl (set_size n (area_of (p_areas s) i)))));
  mm_user : user_mode s';
}.

Lemma placed_range e n l i (v v' : vmas K) : placed Down MMAP_START l_mmap_head e n l i v v' -> e + n <= bound Down ->
  0 < n /\ 2 ^ 45 <= base (area_of (areas v') i) - n /\ base (area_of (areas v') i) <= MMAP_START.
Proof.
  intros (l1 & l2 & _ & [_ Hal _] & Hn & _) He. pose proof (al_chain _ _ _ _ _ _ Hal) as Hc.
  apply (chain_bounds _ _ _ _ (base (area_of (areas v') i)) (size (area_of (areas v') i))) in Hc; cycle 1.
  { apply (list_elem_of_fmap_2 (fun q => (base (area_of (areas v') q), size (area_of (areas v') q)))), elem_of_app. right. by left. }
  rewrite Hn in Hc. cbn [sgn bound] in *. lia.
Qed.

Lemma wp_mmap e l sz pr fl fd off s (Q : Z -> msp K -> Prop) : user_mode s -> mmaps_ok e l (vm_of s) -> - MMAP_START <= e ->
  0 < sz <= 2 ^ 45 -> e + page_round sz <= bound Down ->
  truthy (Z.land fl MAP_FIXED) = false -> truthy (Z.land off 0xFFF) = false ->
  fd < FD_MAX \/ truthy (Z.land fl MAP_ANONYMOUS) = true ->
  (forall s', mmaps_ok e l (vm_of s') -> p_areas s' = p_areas s -> p_sched s' = p_sched s -> Q (u64 (- ENOMEM)) s') ->
  (forall i s', mmapped e (page_round sz) l pr fl fd off i s s' -> Q (base (area_of (p_areas s') i) - page_round sz) s') ->
  wp (mmap sz pr fl fd off) Q s.
Proof.
  intros Hu Hok Hse Hsz He Hfix Hoff Hfd HQ0 HQ. destruct (page_round_pos sz) as [Hr _]; [lia |].
  unfold mmap. rewrite Hfix, Hoff. destruct (Z.eqb_spec sz 0); [lia |]. cbn [orb].
  apply wp_bind, wp_zoom. apply (wp_new_area Down MMAP_START l_mmap_head e l); [exact Hok | |].
  { intros k Hok'. apply wp_ret, HQ0; [exact Hok' | done | by destruct s as [? ? ? []]]. }
  intros i k Hi Hil Hk0 Hlv. rewrite (proj2 (truthy_true i) Hi). cbn [negb].
  pose proof (fresh_area_new l i k (vm_of s) Hi Hil Hk0 Hlv) as Hfr.
  set (v1 := set_areas _ _) in *. clearbody v1.
  apply wp_bind, wp_zoom. rewrite view_over. eapply wp_fill_area; [exact Hfr |]. clear Hfr. intros v2 Hfr. rewrite over_over.
  apply wp_bind, wp_zoom. rewrite view_over. eapply wp_fill_area; [exact Hfr |]. clear Hfr. intros v3 Hfr. rewrite over_over.
  assert (wp (if negb (truthy (Z.land fl MAP_ANONYMOUS)) then
         x ← cur_proc_rec; f ← fd_entry x fd; when (truthy f) (zoom l_vmas (upd_area i (set_file f off)))
       else mret tt) (fun _ s' => exists v4, s' = over l_vmas v4 s /\
         fresh_area (page_round sz) l i (filled_file s fl fd off (set_prot_flags pr fl (set_size (page_round sz) (area_of (areas (vm_of s)) i)))) (vm_of s) v4)
       (over l_vmas v3 s)) as Hfile.
  { unfold filled_file, file_of. destruct (truthy (Z.land fl MAP_ANONYMOUS)) eqn:Ean; cbn [negb]; [apply wp_ret; by exists v3 |].
    apply wp_bind, wp_cur_proc_rec; [by apply user_mode_vmas |]. unfold fd_entry. rewrite (proj2 (Z.ltb_lt fd FD_MAX)) by (destruct Hfd; done).
    apply wp_bind, wp_ret. change (cur_prc (over l_vmas v3 s)) with (cur_prc s). apply wp_when; intros E; rewrite E; [| by exists v3].
    apply wp_zoom. rewrite view_over. eapply wp_fill_area; [exact Hfr |]. intros v4 Hfr4. exists v4. by rewrite over_over. }
  apply wp_bind. eapply wp_mono; [exact Hfile |]. intros _ s4 (v4 & -> & Hfr4).
  apply wp_bind, wp_zoom. rewrite view_over. eapply (wp_add_fresh Down MMAP_START l_mmap_head e); [exact Hok | exact Hfr4 | unfold start_ok, MMAP_START; lia | exact Hse | lia | exact He |].
  intros v5 Hpl _ Hfields. rewrite over_over. apply wp_note; [by apply user_mode_vmas |].
  destruct (placed_range _ _ _ _ _ _ Hpl He) as (_ & Hb1 & Hb2).
  assert (vm_of (noted (over l_vmas v5 s)) = v5) as Ev by by destruct v5.
  apply wp_bind, wp_zoom. eapply wp_get_area; [|].
  { change (view l_vmas (noted (over l_vmas v5 s))) with (vm_of (noted (over l_vmas v5 s))). rewrite Ev. destruct Hpl as (l1 & l2 & _ & [_ Hal _] & _).
    apply area_live, (al_live _ _ _ _ _ _ Hal), elem_of_app. right. by left. }
  rewrite over_view. apply wp_ret.
  replace (size (area_of (areas v5) i)) with (page_round sz) by (by destruct Hpl as (? & ? & _ & _ & -> & _)).
  rewrite u64_small by (unfold MMAP_START in *; lia). apply (HQ i (noted (over l_vmas v5 s))). split.
  - by rewrite Ev.
  - apply noted_infos.
  - exact Hfields.
  - by apply user_mode_with_proc, user_mode_vmas.
Qed.

(** After [munmap]: no mapping starts at [ptr] and nothing has changed; or the one
    that does is gone, and the others are where they were. *)
Definition munmapped (e : Z) (l : list Z) (ptr : Z) s s' : Prop :=
  ((forall p, p ∈ l -> base (area_of (p_areas s) p) - size (area_of (p_areas s) p) <> ptr) /\ s' = s) \/
  (exists l1 i l2, l = l1 ++ i :: l2 /\ base (area_of (p_areas s) i) - size (area_of (p_areas s) i) = ptr /\
     displaced Down MMAP_START l_mmap_head e (l1 ++ l2) (vm_of s) (vm_of s') /\ mmap_infos (cur_prc s') = mmap_list_head (p_sched s')).

Lemma mmaps_start e l s p : mmaps_ok e l (vm_of s) -> e <= bound Down -> p ∈ l ->
  u64 (base (area_of (p_areas s) p) - size (area_of (p_areas s) p)) = base (area_of (p_areas s) p) - size (area_of (p_areas s) p).
Proof.
  intros [_ Hal _] He Hp. pose proof (al_chain _ _ _ _ _ _ Hal) as Hc.
  apply (chain_bounds _ _ _ _ (base (area_of (p_areas s) p)) (size (area_of (p_areas s) p))) in Hc; cycle 1.
  { by apply (list_elem_of_fmap_2 (fun q => (base (area_of (p_areas s) q), size (area_of (p_areas s) q)))). }
  apply u64_small. cbn [sgn bound] in *. unfold MMAP_START in *. lia.
Qed.

Lemma wp_munmap e l ptr s : user_mode s -> mmaps_ok e l (vm_of s) -> e <= bound Down ->
  wp (munmap ptr) (fun _ s' => munmapped e l ptr s s') s.
Proof.
  intros Hu Hok He. pose proof Hok as [Hkm Hal Hlive]. apply wp_bind, wp_zoom. apply (wp_search Down MMAP_START l_mmap_head _ e l); [exact Hal |].
  intros r Hr. rewrite over_view. destruct Hr as [[-> Hr]|[Hr Hp]].
  { apply wp_ret. left. split; [| done]. intros p Hp. specialize (Hr p Hp). rewrite <- (mmaps_start e l s p Hok He Hp). by apply Z.eqb_neq. }
  apply Z.eqb_eq in Hp. change (areas (view l_vmas s)) with (p_areas s) in Hp. rewrite (mmaps_start e l s r Hok He Hr) in Hp.
  assert (r <> 0) as Hr0.
  { destruct (al_dll _ _ _ _ _ _ Hal) as (q & Hd & _). by apply (dseg_valid _ _ _ _ _ _ _ r Hd) in Hr as [_ ?]. }
  rewrite (proj2 (truthy_true r) Hr0). cbn [negb]. apply wp_bind, wp_cur_proc_rec; [done |].
  apply wp_bind, wp_zoom. unfold munmap_by_info. apply wp_bind. eapply wp_get_area; [by apply area_live, (al_live _ _ _ _ _ _ Hal) |].
  apply list_elem_of_split in Hr as (l1 & l2 & ->).
  apply wp_bind, wp_release_pages; [by intros | exact Hkm |]. intros v1 Ho.
  apply (wp_displace Down MMAP_START l_mmap_head e l1 r l2 (vm_of s)); [exact Hok | exact Ho |]. intros v2 Hd.
  apply wp_bind, wp_gets, wp_on_cur_proc; [by apply user_mode_vmas |].
  right. exists l1, r, l2. split_and!; [done | done | | exact (noted_infos (over l_vmas v2 s))].
  by replace (vm_of (with_proc _ (over l_vmas v2 s))) with v2 by (by destruct v2).
Qed.

End mappings.

(** * Properties *)

Section fault_properties.
Context {K : Type} `{Hk : KernelMem K} `{Hf : FileServices K} `{Hlaws : !FaultLaws K}.
Implicit Types s : msp K.

(** C25: a user stack grows by one page, in a frame of its own that the user may
    write, with each access to the page below it, until it has its full size;
    the next access below ends the thread, with interrupts off. *)
Theorem stack_grows vas ps va s : user_mode s -> stack_ok (cur_thr s) -> stack_pages (cur_thr s) ps (p_vk s) ->
  top (user_stack (cur_thr s)) - bottom (user_stack (cur_thr s)) = Z.of_nat (length ps + length vas) * PAGE_SIZE_4KB ->
  descending (cur_thr s) (vas ++ [va]) -> fl_ok (length vas * 4) (p_vk s) ->
  wp (faults (vas ++ [va])) (fun rs s' => rs = replicate (length vas) Resumed ++ [Exited] /\
    state (cur_thr s') = DEAD /\ Z.testbit (rflags (s_cpu (p_sched s'))) 9 = false /\
    exists qs, length qs = length vas /\ stack_pages (cur_thr s') (ps ++ qs) (p_vk s')) s.
Proof. apply wp_faults_stack. Qed.

(** An access to a page of the heap below the break maps a new frame there,
    which the user may write, counts it, and resumes the thread. *)
Theorem heap_fault_spec n va s : user_mode s -> ~ in_guard (cur_thr s) va -> in_heap (cur_prc s) va -> 0 <= va < 2 ^ 64 ->
  fl_ok (4 + n) (p_vk s) ->
  wp (page_fault_handler va) (fun r s' => r = Resumed /\ fl_ok n (p_vk s') /\
    exists p, served (page_of va) user_writable p (p_vk s) (p_vk s') /\
      pages_alloced (cur_prc s') = u64 (pages_alloced (cur_prc s) + 1) /\ cur_thr s' = cur_thr s) s.
Proof.
  intros Hu Hg Hh Hva Hfl. apply (wp_heap_fault n); [done.. |]. intros p k Hsv Hk1. split; [done |]. split; [done |].
  exists p. split; [done |]. split; [| done]. unfold with_proc, cur_prc, cur_proc. cbn. by rewrite proc_of_insert, decide_True.
Qed.


(** An access by a thread to an address that is in no mapping, not in its heap
    and not in its guard page stops the kernel for good, not the thread. *)
Theorem unmapped_fault_hangs e l va s : user_mode s -> ~ in_guard (cur_thr s) va -> ~ in_heap (cur_prc s) va -> mappings e l s ->
  (forall i, i ∈ l -> ~ in_area Down (area_of (p_areas s) i) va) -> page_fault_handler va s = Err Hang.
Proof. apply unmapped_fault. Qed.

End fault_properties.

Section mmap_properties.
Context {K : Type} `{Hk : KernelMem K} `{Hf : FileServices K} `{Hlaws : !KernelMemLaws K}.
Implicit Types s : msp K.

(** C24: [mmap] of up to 2^45 bytes at an offset of whole pages: [-ENOMEM] and no
    change, or the start of a new mapping of the size in whole pages, with the
    protection, flags and file asked for, which meets no other; the others stay
    where they are, and the process has the new head of the list. *)
Theorem mmap_spec e l sz pr fl fd off s : user_mode s -> mmaps_ok e l (vm_of s) -> - MMAP_START <= e ->
  0 < sz <= 2 ^ 45 -> e + page_round sz <= bound Down ->
  truthy (Z.land fl MAP_FIXED) = false -> truthy (Z.land off 0xFFF) = false ->
  fd < FD_MAX \/ truthy (Z.land fl MAP_ANONYMOUS) = true ->
  wp (mmap sz pr fl fd off) (fun r s' =>
    (r = 2 ^ 64 - 12 /\ mmaps_ok e l (vm_of s') /\ p_areas s' = p_areas s /\ p_sched s' = p_sched s) \/
    (exists i, mmapped e (page_round sz) l pr fl fd off i s s' /\ r = base (area_of (p_areas s') i) - page_round sz)) s.
Proof. intros. apply (wp_mmap e l); [done.. | by left | intros i s' Hm; right; by exists i]. Qed.

(** [munmap] removes the mapping that starts at its argument and leaves the
    others where they are; for another address it does nothing. *)
Theorem munmap_spec e l ptr s : user_mode s -> mmaps_ok e l (vm_of s) -> e <= bound Down ->
  wp (munmap ptr) (fun _ s' => munmapped e l ptr s s') s.
Proof. apply wp_munmap. Qed.

(** [mmap] at a fixed address, of no bytes, or at an offset that is not of
    whole pages fails with [-EINVAL], and changes nothing. *)
Theorem mmap_rejects sz pr fl fd off s : truthy (Z.land fl MAP_FIXED) || (sz =? 0) || truthy (Z.land off 0xFFF) = true ->
  mmap sz pr fl fd off s = Ok (2 ^ 64 - 22, s).
Proof. intros E. unfold mmap. by rewrite E. Qed.

(** A mapping of a file whose descriptor is not open is made all the same, and
    its file is whatever the new object held. *)
Theorem mmap_bad_descriptor e l sz pr fl fd off s : user_mode s -> mmaps_ok e l (vm_of s) -> - MMAP_START <= e ->
  0 < sz <= 2 ^ 45 -> e + page_round sz <= bound Down ->
  truthy (Z.land fl MAP_FIXED) = false -> truthy (Z.land off 0xFFF) = false -> truthy (Z.land fl MAP_ANONYMOUS) = false ->
  fd < FD_MAX -> fd_table (cur_prc s) !! fd = None ->
  wp (mmap sz pr fl fd off) (fun r s' => r = 2 ^ 64 - 12 \/
    (2 ^ 45 <= r < MMAP_START /\ exists i, r = base (area_of (p_areas s') i) - page_round sz /\
      flags (area_of (p_areas s') i) = fl /\ file (area_of (p_areas s') i) = file (area_of (p_areas s) i))) s.
Proof.
  intros Hu Hok Hse Hsz He Hfix Hoff Han Hfd Hno. apply (wp_mmap e l); [done.. | by left | by left |].
  intros i s' [Hpl _ Ha _]. right. destruct (placed_range _ _ _ _ _ _ Hpl He) as (Hn & H1 & H2).
  change (areas (vm_of s')) with (p_areas s') in *. split; [lia |]. exists i.
  unfold filled_file, file_of in Ha. rewrite Han, Hno in Ha. split; [done |].
  split; [by apply (f_equal flags) in Ha | by apply (f_equal file) in Ha].
Qed.

End mmap_properties.

(** * Witnesses *)

(** A memory that hands out one frame after the other, a file of 5000 bytes and a disk. *)
Record demo_mem : Type := DemoMem {
  d_next : Z;
  d_used : gset Z;
  d_maps : gmap Z (Z * Z);
  d_cached : gmap (Z * Z) Z;
  d_frame : Z -> Z -> Z;
}.
Definition demo_disk (sec i : Z) : Z := (sec * 7 + i) mod 256.
Definition fill_frame (p : Z) (f : Z -> option Z) (k : demo_mem) : demo_mem :=
  DemoMem (d_next k) (d_used k) (d_maps k) (d_cached k) (fun q i => if decide (q = p) then default (d_frame k q i) (f i) else d_frame k q i).

#[local] Instance demo_mem_services : KernelMem demo_mem := {
  km_alloc n := fun k => let p := fresh ({[0]} ∪ d_used k) in Ok (p, DemoMem (d_next k) ({[p]} ∪ d_used k) (d_maps k) (d_cached k) (d_frame k));
  km_free p := fun k => Ok (tt, DemoMem (d_next k) (d_used k ∖ {[p]}) (d_maps k) (d_cached k) (d_frame k));
  km_alloc_page := fun k => let p := d_next k * PAGE_SIZE_4KB in
    Ok (p, DemoMem (d_next k + 1) ({[p]} ∪ d_used k) (d_maps k) (d_cached k) (d_frame k));
  km_free_page p := fun k => Ok (tt, DemoMem (d_next k) (d_used k ∖ {[p]}) (d_maps k) (d_cached k) (d_frame k));
  km_map_page p v f := fun k => Ok (tt, DemoMem (d_next k) (d_used k) (<[v := (p, f)]> (d_maps k)) (d_cached k) (d_frame k));
  km_unmap_page t v := mret 0x5000;
  km_read_cr3 := mret 0x1000;
}.
Definition cache_page (off : Z) (k : demo_mem) : demo_mem :=
  match d_cached k !! (3, off / PAGE_SIZE_4KB) with
  | Some _ => k
  | None => let c := d_next k * PAGE_SIZE_4KB in
      fill_frame c (fun i => Some (demo_disk (u64 (off / 512 + 100 * 8) + i / 512) (i mod 512)))
        (DemoMem (d_next k + 1) ({[c]} ∪ d_used k) (d_maps k) (<[(3, off / PAGE_SIZE_4KB) := c]> (d_cached k)) (d_frame k))
  end.
#[local] Instance demo_files : FileServices demo_mem := {
  ff_dfs_read f dst off n := fun k =>
    if 5000 <=? off then Ok (0, k)
    else let k1 := cache_page off k in
      Ok (Z.min n (5000 - off), fill_frame (dst - DIRECT_OFFSET) (fun i => Some (d_frame k1 (default 0 (d_cached k1 !! (3, off / PAGE_SIZE_4KB))) i)) k1);
  ff_inode f := mret (3, 100);
  ff_get_cache n i := mret 0;
  ff_ahci_read sec n p := fun k => Ok (0, fill_frame p (fun i => Some (demo_disk (sec + i / 512) (i mod 512))) k);
  ff_add_page ino i p d := fun k => Ok (tt, DemoMem (d_next k) (d_used k) (d_maps k) (<[(ino, i) := p]> (d_cached k)) (d_frame k));
}.
Record demo_ok (n : nat) (k : demo_mem) : Prop := {
  dk_next : 0 < d_next k /\ d_next k + Z.of_nat n < 2 ^ 30;
  dk_used p : p ∈ d_used k -> p < d_next k * PAGE_SIZE_4KB;
  dk_cached ix c : d_cached k !! ix = Some c -> c ∈ d_used k;
}.

(** A page that is not in the cache gets a new frame there. *)
Lemma cache_page_spec n k off : demo_ok (S n) k ->
  let k1 := cache_page off k in
  demo_ok n k1 /\ d_used k ⊆ d_used k1 /\ d_maps k1 = d_maps k /\ (forall q i, q ∈ d_used k -> d_frame k1 q i = d_frame k q i) /\
  exists c, d_cached k1 !! (3, off / PAGE_SIZE_4KB) = Some c /\ c ∈ d_used k1 /\
    ((k1 = k /\ d_cached k !! (3, off / PAGE_SIZE_4KB) = Some c) \/
     ((c ∉ d_used k) /\ d_cached k !! (3, off / PAGE_SIZE_4KB) = None /\ d_cached k1 = <[(3, off / PAGE_SIZE_4KB) := c]> (d_cached k) /\
      forall i, d_frame k1 c i = demo_disk (u64 (off / 512 + 100 * 8) + i / 512) (i mod 512))).
Proof.
  intros [Hn Hu Hc]. cbv zeta. unfold cache_page. destruct (d_cached k !! _) as [c|] eqn:E.
  - split; [split; [lia | done | done] |]. do 3 (split; [done |]). exists c. split_and!; [done | by eapply Hc | by left].
  - set (c := d_next k * PAGE_SIZE_4KB). assert (c ∉ d_used k) as Hnew by (intros Hx%Hu; unfold c in Hx; lia).
    cbn [fill_frame d_used d_maps d_cached d_frame d_next]. split; [split; cbn [d_used d_cached d_next] |].
    + cbn. lia.
    + intros p [->%elem_of_singleton|Hp%Hu]%elem_of_union; cbn; unfold c, PAGE_SIZE_4KB in *; lia.
    + cbn. intros ix c' [[_ <-]|[_ Hx]]%lookup_insert_Some; [set_solver |]. apply Hc in Hx. set_solver.
    + split; [set_solver |]. split; [done |]. split; [intros q i Hq; rewrite decide_False; [done | by intros ->] |].
      exists c. rewrite lookup_insert_eq. split; [done |]. split; [set_solver |]. right. do 3 (split; [done |]). intros i. by rewrite decide_True.
Qed.

#[local] Program Instance demo_fault_laws : FaultLaws demo_mem := {
  fl_ok := demo_ok;
  used := d_used;
  maps := d_maps;
  cached := d_cached;
  frame := d_frame;
  fl_size _ := 5000;
  fl_inode _ := (3, 100);
  fl_disk := demo_disk;
  fl_reliable := True;
}.
Next Obligation. intros n k [Hn Hu Hc]. split; [lia | done | done]. Qed.
Next Obligation. intros n k ix c [_ _ Hc] E. by eapply Hc. Qed.
Next Obligation.
  intros n k [Hn Hu Hc]. unfold wp. cbn. unfold PAGE_SIZE_4KB in *. split_and!; [split; cbn; [lia | |] | set_solver | done | | done | lia.. | done | done].
  - intros p Hp. rewrite elem_of_union, elem_of_singleton in Hp. unfold PAGE_SIZE_4KB. destruct Hp as [->|Hp%Hu]; lia.
  - intros ix c Hx%Hc. set_solver.
  - intros Hp%Hu. lia.
Qed.
Next Obligation. intros n k p v fl [Hn Hu Hc] _. unfold wp. cbn. split_and!; [split; cbn; [lia | done | done] | done..]. Qed.
Next Obligation.
  intros n k p [Hn Hu Hc] _ Hp. unfold wp. cbn. split_and!; [split; cbn; [lia | |] | done..].
  - intros q Hq. apply Hu. set_solver.
  - intros ix c Hx. pose proof (Hc _ _ Hx). assert (c <> p) by (intros ->; by apply (Hp ix)). set_solver.
Qed.
Next Obligation.
  intros n k f p off Hk Hp Hnc Ho Ha. unfold wp. cbn [ff_dfs_read demo_files].
  destruct (Z.leb_spec 5000 off).
  { destruct Hk as [Hn Hu Hc]. split_and!; [split; [lia | done | done] | done | done | done | by left | lia | done]. }
  destruct (cache_page_spec n k off Hk) as (Hk1 & Hu1 & Hm1 & Hf1 & c & Ec & Hcu & Hcase). cbv zeta in *. set (k1 := cache_page off k) in *. clearbody k1.
  cbn [fill_frame d_used d_maps d_cached d_frame]. replace (p + DIRECT_OFFSET - DIRECT_OFFSET) with p by lia. rewrite Ec. cbn [default from_option id].
  assert (c <> p) as Hcp.
  { intros ->. destruct Hcase as [[-> Hx]|(Hx & _)]; [by apply (Hnc _ Hx) | done]. }
  split_and!; [destruct Hk1; by split | done | done | | | unfold PAGE_SIZE_4KB; lia |].
  - intros q i Hq Hne. rewrite decide_False by done. by apply Hf1.
  - destruct Hcase as [[-> Hx]|(Hx & Hn & E & Hb)]; [by left | right]. exists c. split_and!; [done | done | done | done |].
    intros i _. cbn. rewrite decide_False by done. by apply Hb.
  - intros _ i _ _. rewrite decide_True by done. unfold page_key. cbn [fst]. destruct Hcase as [[-> Hx]|(Hx & Hn & E & Hb)]; [by rewrite Hx | by rewrite Hn, Hb].
Qed.
Next Obligation. by intros. Qed.
Next Obligation. by intros. Qed.
Next Obligation.
  intros n k sec p [Hn Hu Hc] Hp. unfold wp. cbn [ff_ahci_read demo_files fill_frame d_used d_maps d_cached d_frame].
  split_and!; [by split | done.. | | done |]; intros; by case_decide.
Qed.
Next Obligation.
  intros n k ino i p [Hn Hu Hc] Hp. unfold wp. cbn. split_and!; [split; cbn; [done | done |] | done..].
  intros ix c [[_ <-]|[_ Hx]]%lookup_insert_Some; [done | by apply Hc in Hx].
Qed.

(** Thread 1 of process 10, with a stack of four pages of which the first is
    mapped, a heap of three pages, and the mappings [mm], the first being [h]. *)
Definition demo_thread : thread :=
  Thread 0x100 1 RUNNING (Stack 0 0 0) (Stack 0x10000 0xC000 0x4000) 0xE000 0xF000 0 10 1 1 0 0 0 0.
Definition demo_proc (h : Z) : proc := Proc 0x1000 1 1 0 h ∅ 0x400000 0x403000 0.
Definition demo_sched (h : Z) : sched :=
  Sched (Cpu 0x200 0x1000) (<[1 := demo_thread]> ∅) (<[10 := demo_proc h]> ∅) 1 1 0 0 h 0 0 0 0.
Definition demo_mem0 : demo_mem := DemoMem 2 {[0x1000]} (<[0xF000 := (0x1000, user_writable)]> ∅) ∅ (fun _ _ => 0).
Definition demo_state (h : Z) (mm : gmap Z vm_area) : msp demo_mem := Msp demo_mem0 mm 0 (demo_sched h) 1.

Lemma demo_user h mm : user_mode (demo_state h mm).
Proof. split; [done | by eexists | by eexists]. Qed.

Lemma demo_guard h mm va : ~ (0xE000 <= va < 0xF000) -> ~ in_guard (cur_thr (demo_state h mm)) va.
Proof. done. Qed.

Lemma demo_heap h mm va : ~ (0x400000 <= va < 0x403000) -> ~ in_heap (cur_prc (demo_state h mm)) va.
Proof. done. Qed.

Lemma demo_mem0_ok (n : nat) : Z.of_nat n < 2 ^ 29 -> demo_ok n demo_mem0.
Proof. intros Hn. split; [cbn; lia | | done]. intros p Hp. cbn in Hp. apply elem_of_singleton in Hp as ->. done. Qed.

Lemma stack_grows_witness :
  wp (faults [0xE008; 0xDFF8; 0xC000; 0xBFF0])
    (fun rs s' => rs = [Resumed; Resumed; Resumed; Exited] /\ state (cur_thr s') = DEAD) (demo_state 0 ∅).
Proof.
  eapply wp_mono; [apply (stack_grows [0xE008; 0xDFF8; 0xC000] [0x1000] 0xBFF0 (demo_state 0 ∅)) |].
  - apply demo_user.
  - by closed_range.
  - split; [done.. | apply NoDup_singleton | |].
    + intros p ->%list_elem_of_singleton. cbn. by apply elem_of_singleton.
    + intros i p [-> <-]%list_lookup_singleton_Some. reflexivity.
  - reflexivity.
  - intros i va Hi. repeat (destruct i as [|i]; [injection Hi as <-; by closed_range |]). done.
  - by apply demo_mem0_ok.
  - intros rs s' (-> & Hst & _). split; [done | exact Hst].
Defined.

Lemma heap_fault_spec_witness :
  wp (page_fault_handler 0x401234) (fun r s' => r = Resumed /\ pages_alloced (cur_prc s') = 1 /\ is_Some (maps (p_vk s') !! 0x401000)) (demo_state 0 ∅).
Proof.
  eapply wp_mono; [apply (heap_fault_spec 0 0x401234 (demo_state 0 ∅)) |].
  - apply demo_user.
  - apply demo_guard. lia.
  - by closed_range.
  - lia.
  - by apply demo_mem0_ok.
  - intros r s' (-> & _ & p & Hsv & Hc & _). split; [done |]. split; [exact Hc |]. rewrite (sv_maps _ _ _ _ _ Hsv).
    change (page_of 0x401234) with 0x401000. rewrite lookup_insert_eq. by eexists.
Defined.

(** A private mapping of two pages of the file, from its second page on. *)
Definition demo_area : vm_area := VmArea 0x700000000000 0x2000 0 MAP_PRIVATE 7 0x1000 0 0.
Definition demo_areas : gmap Z vm_area := <[0x500 := demo_area]> ∅.

Lemma demo_mappings : mappings (- 2 ^ 46) [0x500] (demo_state 0x500 demo_areas).
Proof.
  split; [split |].
  - exists 0x500. split; [by repeat split | apply NoDup_singleton].
  - intros p ->%list_elem_of_singleton. by eexists.
  - by closed_range.
  - intros i ->%list_elem_of_singleton. split; by closed_range.
Qed.


Lemma unmapped_fault_hangs_witness : page_fault_handler 0x1234 (demo_state 0x500 demo_areas) = Err Hang.
Proof.
  apply (unmapped_fault_hangs (- 2 ^ 46) [0x500]).
  - apply demo_user.
  - apply demo_guard. lia.
  - apply demo_heap. lia.
  - apply demo_mappings.
  - intros i ->%list_elem_of_singleton. change (area_of _ 0x500) with demo_area. unfold in_area. cbn. lia.
Defined.

(** For [mmap] and [munmap], memory services whose objects are a set of addresses. *)
#[local] Existing Instances set_mem_services set_mem_laws.
#[local] Instance no_files : FileServices (gset Z) := {
  ff_dfs_read f dst off n := mret 0;
  ff_inode f := mret (3, 100);
  ff_get_cache n i := mret 0;
  ff_ahci_read sec n p := mret 0;
  ff_add_page ino i p d := mret tt;
}.
Definition demo_user_state : msp (gset Z) := Msp {[0x500]} demo_areas 0 (demo_sched 0x500) 1.

Lemma demo_user_state_ok : user_mode demo_user_state /\ mmaps_ok (- MMAP_START + 0x2000) [0x500] (vm_of demo_user_state).
Proof.
  split; [split; [done | by eexists | by eexists] |]. split; [done | split |].
  - exists 0x500. split; [by repeat split | apply NoDup_singleton].
  - intros p ->%list_elem_of_singleton. by eexists.
  - by closed_range.
  - intros p ->%list_elem_of_singleton. cbn. by apply elem_of_singleton.
Qed.

Lemma mmap_spec_witness :
  wp (mmap 0x1800 2 MAP_ANONYMOUS 0 0) (fun r s' => r = 2 ^ 64 - 12 \/ exists i, r + 0x2000 = base (area_of (p_areas s') i)) demo_user_state.
Proof.
  eapply wp_mono; [apply (mmap_spec (- MMAP_START + 0x2000) [0x500] 0x1800 2 MAP_ANONYMOUS 0 0 demo_user_state) |].
  - apply demo_user_state_ok.
  - apply demo_user_state_ok.
  - by closed_range.
  - by closed_range.
  - by closed_range.
  - reflexivity.
  - reflexivity.
  - by right.
  - intros r s' [(-> & _)|(i & _ & ->)]; [by left | right]. exists i. change (page_round 0x1800) with 0x2000. lia.
Defined.

Lemma munmap_spec_witness :
  wp (munmap 0x6FFFFFFFE000) (fun _ s' => munmapped (- MMAP_START + 0x2000) [0x500] 0x6FFFFFFFE000 demo_user_state s') demo_user_state.
Proof. apply (munmap_spec (- MMAP_START + 0x2000) [0x500]); [apply demo_user_state_ok | apply demo_user_state_ok | by closed_range]. Defined.

Lemma mmap_rejects_witness : mmap 0 2 MAP_ANONYMOUS 0 0 demo_user_state = Ok (2 ^ 64 - 22, demo_user_state).
Proof. by apply (mmap_rejects 0 2 MAP_ANONYMOUS 0 0). Defined.

Lemma mmap_bad_descriptor_witness :
  wp (mmap 0x1800 2 MAP_PRIVATE 5 0) (fun r s' => r = 2 ^ 64 - 12 \/ 2 ^ 45 <= r) demo_user_state.
Proof.
  eapply wp_mono; [apply (mmap_bad_descriptor (- MMAP_START + 0x2000) [0x500] 0x1800 2 MAP_PRIVATE 5 0 demo_user_state) |].
  - apply demo_user_state_ok.
  - apply demo_user_state_ok.
  - by closed_range.
  - by closed_range.
  - by closed_range.
  - reflexivity.
  - reflexivity.
  - reflexivity.
  - reflexivity.
  - reflexivity.
  - intros r s' [->|[Hr _]]; [by left | right; lia].
Defined.
