(* ===== verification/Process.v ===== *)
(** Processes ([arch/x86_64/elf/elf.c], [kernel/scheduler/process.c]): the loader
    of ELF files, which writes through the page tables of the new address space,
    and the creation of a user process from a file. *)
From S2P Require Import Prelude Cpu CString Sched.

(** * State *)

Definition PT_LOAD : Z := 1.
Definition ELFMAG : list Z := [0x7F; 0x45; 0x4C; 0x46].
Definition ELFCLASS64 : Z := 2.
Definition sizeof_phdr : Z := 56.
Definition TRAMPOLINE : Z := 0xFFFFFFFFFFFF0000.
(** [PTE_WRITABLE | PTE_USER]. *)
Definition user_page : Z := 6.

(** What the code uses of the rest of the kernel: memory for objects, pages and
    runs of pages, a word of a page table behind a direct address, [vmm_map_page]
    of a 4 KiB page in the space of a given table; the translation of an address
    by the processor, for the table in use; the size of the file with a path, if there is
    one, and the bytes that [dfs_read] gives of it; and [create_user_thread]. *)
Class ProcServices (K : Type) : Type := {
  ps_kmalloc : Z -> M K Z;
  ps_kfree : Z -> M K unit;
  ps_alloc_page : M K Z;
  ps_alloc_pages : Z -> M K Z;
  ps_load : Z -> M K Z;
  ps_store : Z -> Z -> M K unit;
  ps_map_page : Z -> Z -> Z -> Z -> M K unit;
  ps_translate : K -> Z -> Z -> option Z;
  ps_inode_size : Z -> M K (option Z);
  ps_dfs_read : Z -> Z -> Z -> M K (list Z);
  ps_create_user_thread : Z -> Z -> Z -> Z -> M K Z;
}.

(** [x_mem] are the bytes of physical memory; [x_stdin] and [x_stdout] the
    addresses of the two terminal files. *)
Record pst (K : Type) : Type := Pst {
  x_k : K;
  x_mem : memory;
  x_cpu : cpu;
  x_lock : Z;
  x_procs : gmap Z proc;
  next_process_id : Z;
  x_stdin : Z;
  x_stdout : Z;
}.
Arguments Pst {K} x_k x_mem x_cpu x_lock x_procs next_process_id x_stdin x_stdout.
Arguments x_k {K} p.
Arguments x_mem {K} p.
Arguments x_cpu {K} p.
Arguments x_lock {K} p.
Arguments x_procs {K} p.
Arguments next_process_id {K} p.
Arguments x_stdin {K} p.
Arguments x_stdout {K} p.

Definition set_x_k {K} x (s : pst K) : pst K := Pst x (x_mem s) (x_cpu s) (x_lock s) (x_procs s) (next_process_id s) (x_stdin s) (x_stdout s).
Definition set_x_mem {K} x (s : pst K) : pst K := Pst (x_k s) x (x_cpu s) (x_lock s) (x_procs s) (next_process_id s) (x_stdin s) (x_stdout s).
Definition set_x_cpu {K} x (s : pst K) : pst K := Pst (x_k s) (x_mem s) x (x_lock s) (x_procs s) (next_process_id s) (x_stdin s) (x_stdout s).
Definition set_x_lock {K} x (s : pst K) : pst K := Pst (x_k s) (x_mem s) (x_cpu s) x (x_procs s) (next_process_id s) (x_stdin s) (x_stdout s).
Definition l_x_k {K} : lens (pst K) K := Lens x_k set_x_k.
Definition l_x_cpu {K} : lens (pst K) cpu := Lens x_cpu set_x_cpu.
Definition l_x_lock {K} : lens (pst K) Z := Lens x_lock set_x_lock.

#[global] Instance l_x_k_laws {K} : LensLaws (l_x_k (K := K)).
Proof. split; [done | by intros [] | done]. Qed.
#[global] Instance l_x_cpu_laws {K} : LensLaws (l_x_cpu (K := K)).
Proof. split; [done | by intros [] | done]. Qed.
#[global] Instance l_x_lock_laws {K} : LensLaws (l_x_lock (K := K)).
Proof. split; [done | by intros [] | done]. Qed.

(** * Operations *)

Section operations.
Context {K : Type} `{ProcServices K}.

(** The physical address behind a pointer: of the direct mapping, or as the
    processor translates it in the address space in use. *)
Definition is_direct (va : Z) : bool := (DIRECT_OFFSET <=? va) && (va <? DIRECT_OFFSET + 2 ^ 46).
Definition phys_of (s : pst K) (va : Z) : option Z :=
  if is_direct va then Some (va - DIRECT_OFFSET) else ps_translate (x_k s) (cr3 (x_cpu s)) va.
Definition vload (va : Z) : M (pst K) Z :=
  p ← gets (fun s => phys_of s va);
  match p with Some pa => gets (fun s => x_mem s @@ pa) | None => fail Fault end.
Definition vstore (va b : Z) : M (pst K) unit :=
  p ← gets (fun s => phys_of s va);
  match p with Some pa => modify (fun s => set_x_mem (<[pa := b]> (x_mem s)) s) | None => fail Fault end.

(** A little-endian number of [n] bytes. *)
Fixpoint vload_le (n : nat) (va : Z) : M (pst K) Z :=
  match n with
  | O => mret 0
  | S n' => b ← vload va; r ← vload_le n' (va + 1); mret (b + 256 * r)
  end.

(** [memcpy] and [memset] through the page tables. *)
Fixpoint vmemcpy (n : nat) (d s : Z) : M (pst K) unit :=
  match n with
  | O => mret tt
  | S n' => b ← vload s; vstore d b;; vmemcpy n' (d + 1) (s + 1)
  end.
Fixpoint vmemset (n : nat) (d b : Z) : M (pst K) unit :=
  match n with
  | O => mret tt
  | S n' => vstore d (u8 b);; vmemset n' (d + 1) b
  end.

(** [Elf64_Phdr]: the fields that the loader reads. *)
Record phdr : Type := Phdr { p_type : Z; p_offset : Z; p_vaddr : Z; p_filesz : Z; p_memsz : Z }.

Definition read_phdr (a : Z) : M (pst K) phdr :=
  ty ← vload_le 4 a;
  off ← vload_le 8 (a + 8);
  va ← vload_le 8 (a + 16);
  fsz ← vload_le 8 (a + 32);
  msz ← vload_le 8 (a + 40);
  mret (Phdr ty off va fsz msz).

(** [(n + PAGE_SIZE_4KB - 1) / PAGE_SIZE_4KB]. *)
Definition pages_for (n : Z) : Z := u64 (n + PAGE_SIZE_4KB - 1) / PAGE_SIZE_4KB.

(** The pages [paddr ...] are mapped from [vaddr] on. *)
Definition map_run (paddr vaddr n : Z) : M (pst K) unit :=
  for_loop (Z.to_nat n) 0 (fun j =>
    c ← read_cr3 l_x_cpu;
    zoom l_x_k (ps_map_page c (u64 (paddr + j * PAGE_SIZE_4KB)) (u64 (vaddr + j * PAGE_SIZE_4KB)) user_page)).

(** One segment of the file at [data]; the result is the new [maxEnd]. *)
Definition load_segment (data : Z) (h : phdr) (maxEnd : Z) : M (pst K) Z :=
  if p_type h =? PT_LOAD then
    let e := u64 (p_vaddr h + p_memsz h) in
    paddr ← zoom l_x_k (ps_alloc_pages (pages_for (p_memsz h)));
    map_run paddr (p_vaddr h) (pages_for (p_memsz h));;
    when (0 <? p_filesz h) (vmemcpy (Z.to_nat (p_filesz h)) (p_vaddr h) (u64 (data + p_offset h)));;
    when (p_filesz h <? p_memsz h) (vmemset (Z.to_nat (p_memsz h - p_filesz h)) (u64 (p_vaddr h + p_filesz h)) 0);;
    mret (if maxEnd <? e then e else maxEnd)
  else mret maxEnd.

Fixpoint load_segments (n : nat) (data ph maxEnd : Z) : M (pst K) Z :=
  match n with
  | O => mret maxEnd
  | S n' => h ← read_phdr ph; m ← load_segment data h maxEnd; load_segments n' data (ph + sizeof_phdr) m
  end.

(** [load_elf]: the entry point, 0 if the file is none, and the end, which is
    left alone then. *)
Definition load_elf (data : Z) : M (pst K) (Z * Z) :=
  m0 ← vload data; m1 ← vload (data + 1); m2 ← vload (data + 2); m3 ← vload (data + 3); c ← vload (data + 4);
  if bool_decide ([m0; m1; m2; m3; c] = ELFMAG ++ [ELFCLASS64]) then
    phoff ← vload_le 8 (data + 32);
    phnum ← vload_le 2 (data + 56);
    maxEnd ← load_segments (Z.to_nat phnum) data (u64 (data + phoff)) 0;
    entry ← vload_le 8 (data + 24);
    mret (entry, maxEnd)
  else mret (0, 0).

(** ** Processes *)













End operations.

(** * Specification *)

(** Addresses that the processor accepts, and those of users. *)
Definition canonical (va : Z) : Prop := 0 <= va < 2 ^ 47 \/ 2 ^ 64 - 2 ^ 47 <= va < 2 ^ 64.

(** The sizes of the files that [dfs_read] gives completely when asked for all of
    them: it takes the length of the last of several pages modulo the page size, so
    that a file of two or more full pages comes without its last page. *)
Definition whole_read (n : Z) : Prop := n <= PAGE_SIZE_4KB \/ n mod PAGE_SIZE_4KB <> 0.
Definition file_pages (l : list Z) : nat := Z.to_nat (pages_for (Z.of_nat (length l))).

(** What creation relies on. [pk_ok r h k]: [r] more pages and [h] objects can be
    had. [pk_used]: the bytes of physical memory in use; their values are those of
    [x_mem] where neither the heap nor the tables are. [pk_root]: the tables of
    address spaces; [pk_blank]: pages that may become one, [pk_word] their words.
    A table with nothing in its lower half and the upper half of another is a
    space without user memory that agrees with the other above. A mapping costs at
    most three pages for tables, and changes one page of the space, and no user
    page of another space. With [pk_reliable] the disk answers all commands; reading
    a file then takes at most a page and an object of the cache for each of its pages. *)
Class ProcLaws (K : Type) `{ProcServices K} : Type := {
  pk_ok : Z -> nat -> K -> Prop;
  pk_used : K -> Z -> Prop;
  pk_root : K -> Z -> Prop;
  pk_blank : K -> Z -> Prop;
  pk_word : K -> Z -> Z -> Z;
  pk_file : Z -> option (list Z);
  pk_reliable : Prop;
  pk_keeps (k k' : K) : Prop := (forall x, pk_used k x -> pk_used k' x) /\ (forall q, pk_root k q -> pk_root k' q) /\
    forall q va, pk_root k q -> canonical va -> ps_translate k' q va = ps_translate k q va;
  wp_pk_kmalloc r h n k : pk_ok r (S h) k -> wp (ps_kmalloc n) (fun p k' => p <> 0 /\ pk_ok r h k' /\ pk_keeps k k') k;
  wp_pk_alloc_page r h k : pk_ok r h k -> 1 <= r ->
    wp ps_alloc_page (fun p k' => pk_ok (r - 1) h k' /\ pk_keeps k k' /\ p mod PAGE_SIZE_4KB = 0 /\ 0 < p < 2 ^ 46 /\ pk_blank k' p /\
      ~ pk_root k' p /\ (forall x, p <= x < p + PAGE_SIZE_4KB -> ~ pk_used k x /\ pk_used k' x)) k;
  wp_pk_alloc_pages r h n k : pk_ok r h k -> 0 <= n <= r ->
    wp (ps_alloc_pages n) (fun p k' => pk_ok (r - n) h k' /\ pk_keeps k k' /\ p mod PAGE_SIZE_4KB = 0 /\ 0 <= p /\ p + n * PAGE_SIZE_4KB < 2 ^ 46 /\
      (forall x, p <= x < p + n * PAGE_SIZE_4KB -> ~ pk_used k x /\ pk_used k' x)) k;
  wp_pk_load r h q i k : pk_ok r h k -> pk_root k q -> 0 <= i < 512 ->
    wp (ps_load (q + DIRECT_OFFSET + 8 * i)) (fun x k' => x = pk_word k q i /\ k' = k) k;
  wp_pk_store r h p i x k : pk_ok r h k -> pk_blank k p -> 0 <= i < 512 ->
    wp (ps_store (p + DIRECT_OFFSET + 8 * i) x) (fun _ k' => pk_ok r h k' /\ pk_blank k' p /\ (forall y, pk_used k y -> pk_used k' y) /\
      (forall q, q <> p -> pk_root k q -> pk_root k' q) /\
      (forall q va, q <> p -> pk_root k q -> canonical va -> ps_translate k' q va = ps_translate k q va) /\
      forall q j, pk_word k' q j = if decide (q = p /\ j = i) then x else pk_word k q j) k;
  pk_space r h p q k : pk_ok r h k -> pk_blank k p -> pk_root k q ->
    (forall i, 0 <= i < 256 -> pk_word k p i = 0) -> (forall i, 256 <= i < 512 -> pk_word k p i = pk_word k q i) ->
    pk_root k p /\ forall va, canonical va -> ps_translate k p va = if decide (va < 2 ^ 47) then None else ps_translate k q va;
  pk_root_range r h q k : pk_ok r h k -> pk_root k q -> 0 < q < 2 ^ 46;
  wp_pk_map r h root p v k : pk_ok r h k -> 3 <= r -> pk_root k root -> canonical v -> p mod PAGE_SIZE_4KB = 0 -> 0 <= p < 2 ^ 46 ->
    wp (ps_map_page root p v user_page) (fun _ k' => pk_ok (r - 3) h k' /\
      (forall x, pk_used k x -> pk_used k' x) /\ (forall q, pk_root k q -> pk_root k' q) /\
      (forall va, canonical va -> ps_translate k' root va =
         if decide (va / PAGE_SIZE_4KB = v / PAGE_SIZE_4KB) then Some (p + va mod PAGE_SIZE_4KB) else ps_translate k root va) /\
      (forall q va, q <> root -> pk_root k q -> canonical va -> va < 2 ^ 47 -> ps_translate k' q va = ps_translate k q va)) k;
  wp_pk_inode fp k : wp (ps_inode_size fp) (fun r k' => r = (Z.of_nat ∘ length) <$> pk_file fp /\ k' = k) k;
  wp_pk_read r h fp l k : pk_reliable -> pk_ok (pages_for (Z.of_nat (length l)) + r) (file_pages l + h) k -> 0 <= r ->
    pk_file fp = Some l -> whole_read (Z.of_nat (length l)) ->
    wp (ps_dfs_read fp 0 (Z.of_nat (length l))) (fun b k' => b = l /\ pk_ok r h k' /\ pk_keeps k k') k;
  wp_pk_thread r h p entry k : pk_ok r (S h) k ->
    wp (ps_create_user_thread p entry PAGE_SIZE_2MB PAGE_SIZE_2MB) (fun _ k' => (forall x, pk_used k x -> pk_used k' x) /\
      forall q va pa, pk_root k q -> canonical va -> ps_translate k q va = Some pa -> ps_translate k' q va = Some pa) k;
}.

(** ** ELF files *)

Fixpoint le (l : list Z) : Z := match l with [] => 0 | b :: l' => b + 256 * le l' end.
Definition field (elf : list Z) (off : Z) (n : nat) : Z := le (take n (drop (Z.to_nat off) elf)).

Definition phdr_of (elf : list Z) (a : Z) : phdr :=
  Phdr (field elf a 4) (field elf (a + 8) 8) (field elf (a + 16) 8) (field elf (a + 32) 8) (field elf (a + 40) 8).
Definition e_phoff (elf : list Z) : Z := field elf 32 8.
Definition e_phnum (elf : list Z) : Z := field elf 56 2.
Definition e_entry (elf : list Z) : Z := field elf 24 8.
Definition phdrs (elf : list Z) : list phdr :=
  (fun i => phdr_of elf (e_phoff elf + Z.of_nat i * sizeof_phdr)) <$> seq 0 (Z.to_nat (e_phnum elf)).
Definition loadable (h : phdr) : bool := p_type h =? PT_LOAD.
Definition seg_end (h : phdr) : Z := p_vaddr h + p_memsz h.

(** Byte [i] of a segment. *)
Definition seg_byte (elf : list Z) (h : phdr) (i : Z) : Z :=
  if i <? p_filesz h then default 0 (elf !! Z.to_nat (p_offset h + i)) else 0.

(** A segment of user memory whose bytes are in the file, and which does not
    reach past the pages that the loader counts from its first address. *)
Record seg_ok (elf : list Z) (h : phdr) : Prop := {
  sg_range : 0 <= p_vaddr h /\ seg_end h <= 2 ^ 46;
  sg_file : 0 <= p_filesz h <= p_memsz h /\ 0 <= p_offset h /\ p_offset h + p_filesz h <= Z.of_nat (length elf);
  sg_fits : p_vaddr h mod PAGE_SIZE_4KB + p_memsz h <= pages_for (p_memsz h) * PAGE_SIZE_4KB;
}.

(** Two segments without a common page. *)
Definition seg_apart (h h' : phdr) : Prop :=
  p_vaddr h / PAGE_SIZE_4KB + pages_for (p_memsz h) <= p_vaddr h' / PAGE_SIZE_4KB \/
  p_vaddr h' / PAGE_SIZE_4KB + pages_for (p_memsz h') <= p_vaddr h / PAGE_SIZE_4KB.

Record elf_ok (elf : list Z) : Prop := {
  ef_magic : take 5 elf = ELFMAG ++ [ELFCLASS64];
  ef_header : 64 <= Z.of_nat (length elf) < 2 ^ 40;
  ef_phdrs : 0 <= e_phoff elf /\ 0 <= e_phnum elf /\ e_phoff elf + e_phnum elf * sizeof_phdr <= Z.of_nat (length elf);
  ef_segs h : h ∈ phdrs elf -> loadable h = true -> seg_ok elf h;
  ef_apart : ForallOrdPairs seg_apart (filter (fun h => loadable h = true) (phdrs elf));
}.

(** The pages that loading takes, those for tables included. *)
Definition seg_cost (h : phdr) : Z := if loadable h then 4 * pages_for (p_memsz h) else 0.
Definition load_cost (hs : list phdr) : Z := foldr (fun h n => seg_cost h + n) 0 hs.
Definition image_end (hs : list phdr) (e : Z) : Z := foldl (fun e h => if loadable h then Z.max e (seg_end h) else e) e hs.

Section specification.
Context {K : Type} `{Hps : ProcServices K} `{Hlaws : !ProcLaws K}.

(** The byte at address [va] of the space [root]. *)
Definition byte_at (s : pst K) (root va b : Z) : Prop :=
  exists pa, ps_translate (x_k s) root va = Some pa /\ pk_used (x_k s) pa /\ x_mem s @@ pa = b.

Definition loaded (elf : list Z) (s : pst K) (root : Z) (h : phdr) : Prop :=
  forall i, 0 <= i < p_memsz h -> byte_at s root (p_vaddr h + i) (seg_byte elf h i).

(** The file lies at the physical address [d]. *)
Definition resident (elf : list Z) (d : Z) (s : pst K) : Prop :=
  0 <= d /\ d + Z.of_nat (length elf) < 2 ^ 46 /\
  forall (i : nat) b, elf !! i = Some b -> x_mem s @@ (d + Z.of_nat i) = b /\ pk_used (x_k s) (d + Z.of_nat i).

(** * Lemmas *)

Implicit Types s : pst K.



Lemma phys_direct s p : 0 <= p < 2 ^ 46 -> phys_of s (p + DIRECT_OFFSET) = Some p.
Proof.
  intros Hp. unfold phys_of, is_direct. rewrite (proj2 (Z.leb_le _ _)), (proj2 (Z.ltb_lt _ _)) by lia. cbn [andb]. f_equal. lia.
Qed.

Lemma phys_user s va : 0 <= va < 2 ^ 47 \/ va = TRAMPOLINE + va mod PAGE_SIZE_4KB -> phys_of s va = ps_translate (x_k s) (cr3 (x_cpu s)) va.
Proof.
  intros Hva. unfold phys_of, is_direct. assert (0 <= va mod PAGE_SIZE_4KB) by (apply Z.mod_pos_bound; done).
  destruct (Z.leb_spec DIRECT_OFFSET va), (Z.ltb_spec va (DIRECT_OFFSET + 2 ^ 46)); cbn [andb]; try done.
  exfalso. unfold TRAMPOLINE, DIRECT_OFFSET in *. lia.
Qed.

Lemma wp_vload va pa (Q : Z -> pst K -> Prop) s : phys_of s va = Some pa -> Q (x_mem s @@ pa) s -> wp (vload va) Q s.
Proof. intros E HQ. apply wp_bind, wp_gets. rewrite E. by apply wp_gets. Qed.

Lemma wp_vstore va pa b (Q : unit -> pst K -> Prop) s : phys_of s va = Some pa -> Q tt (set_x_mem (<[pa := b]> (x_mem s)) s) -> wp (vstore va b) Q s.
Proof. intros E HQ. apply wp_bind, wp_gets. rewrite E. by apply wp_modify. Qed.

Lemma phys_set_mem m s va : phys_of (set_x_mem m s) va = phys_of s va.
Proof. done. Qed.

Lemma set_x_mem_twice m m' s : set_x_mem m (set_x_mem m' s) = set_x_mem m s.
Proof. done. Qed.

(** Where the translation is affine, the loops are those of the string functions. *)
Lemma wp_vmemcpy n : forall d a P S s (Q : unit -> pst K -> Prop),
  (forall i, 0 <= i < Z.of_nat n -> phys_of s (d + i) = Some (P + i)) ->
  (forall i, 0 <= i < Z.of_nat n -> phys_of s (a + i) = Some (S + i)) ->
  Q tt (set_x_mem (memcpy n P S (x_mem s)) s) -> wp (vmemcpy n d a) Q s.
Proof.
  induction n as [|n IH]; intros d a P S s Q Hd Ha HQ; cbn [vmemcpy memcpy] in *; [apply wp_ret; by destruct s |].
  apply wp_bind. eapply wp_vload; [rewrite <- (Z.add_0_r a); apply Ha; lia |].
  apply wp_bind. eapply wp_vstore; [rewrite <- (Z.add_0_r d); apply Hd; lia |]. rewrite !Z.add_0_r.
  apply (IH _ _ (P + 1) (S + 1)); [| | exact HQ]; intros i Hi; rewrite phys_set_mem, <- Z.add_assoc;
    [rewrite Hd by lia | rewrite Ha by lia]; f_equal; lia.
Qed.

Lemma wp_vmemset n b : forall d P s (Q : unit -> pst K -> Prop),
  (forall i, 0 <= i < Z.of_nat n -> phys_of s (d + i) = Some (P + i)) ->
  Q tt (set_x_mem (memset n P b (x_mem s)) s) -> wp (vmemset n d b) Q s.
Proof.
  induction n as [|n IH]; intros d P s Q Hd HQ; cbn [vmemset memset] in *; [apply wp_ret; by destruct s |].
  apply wp_bind. eapply wp_vstore; [rewrite <- (Z.add_0_r d); apply Hd; lia |]. rewrite !Z.add_0_r.
  apply (IH _ (P + 1)); [| exact HQ]. intros i Hi. rewrite phys_set_mem, <- Z.add_assoc, Hd by lia. f_equal. lia.
Qed.

(** ** Reading the file *)

Lemma resident_byte elf d s i : resident elf d s -> 0 <= i < Z.of_nat (length elf) ->
  phys_of s (d + DIRECT_OFFSET + i) = Some (d + i) /\ x_mem s @@ (d + i) = default 0 (elf !! Z.to_nat i) /\ pk_used (x_k s) (d + i).
Proof.
  intros (Hd & Hlen & Hb) Hi. destruct (lookup_lt_is_Some_2 elf (Z.to_nat i)) as [b Eb]; [lia |].
  destruct (Hb _ _ Eb) as [E1 E2]. rewrite Z2Nat.id in E1, E2 by lia. split; [| by rewrite Eb].
  replace (d + DIRECT_OFFSET + i) with (d + i + DIRECT_OFFSET) by lia. apply phys_direct. lia.
Qed.

Lemma wp_vload_file elf d s i (Q : Z -> pst K -> Prop) : resident elf d s -> 0 <= i < Z.of_nat (length elf) ->
  Q (default 0 (elf !! Z.to_nat i)) s -> wp (vload (d + DIRECT_OFFSET + i)) Q s.
Proof. intros Hr Hi HQ. destruct (resident_byte elf d s i Hr Hi) as (E1 & E2 & _). eapply wp_vload; [exact E1 |]. by rewrite E2. Qed.

Lemma field_S elf off n : 0 <= off < Z.of_nat (length elf) ->
  field elf off (S n) = default 0 (elf !! Z.to_nat off) + 256 * field elf (off + 1) n.
Proof.
  intros Ho. unfold field. destruct (lookup_lt_is_Some_2 elf (Z.to_nat off)) as [b Eb]; [lia |].
  rewrite (drop_S _ _ _ Eb), Eb. cbn [take le default]. by replace (Z.to_nat (off + 1)) with (S (Z.to_nat off)) by lia.
Qed.

Lemma wp_vload_le elf d s n : forall i (Q : Z -> pst K -> Prop), resident elf d s -> 0 <= i -> i + Z.of_nat n <= Z.of_nat (length elf) ->
  Q (field elf i n) s -> wp (vload_le n (d + DIRECT_OFFSET + i)) Q s.
Proof.
  induction n as [|n IH]; intros i Q Hr Hi Hn HQ; cbn [vload_le]; [by apply wp_ret |].
  apply wp_bind. eapply wp_vload_file; [exact Hr | lia |]. apply wp_bind. rewrite <- Z.add_assoc.
  apply (IH (i + 1)); [exact Hr | lia | lia |]. apply wp_ret. by rewrite <- field_S by lia.
Qed.

Lemma wp_read_phdr elf d s a (Q : phdr -> pst K -> Prop) : resident elf d s -> 0 <= a -> a + sizeof_phdr <= Z.of_nat (length elf) ->
  Q (phdr_of elf a) s -> wp (read_phdr (d + DIRECT_OFFSET + a)) Q s.
Proof.
  intros Hr Ha Hn HQ. unfold sizeof_phdr in Hn. unfold read_phdr. rewrite <- !(Z.add_assoc _ a).
  apply wp_bind. apply (wp_vload_le elf); [done | lia | lia |]. apply wp_bind. apply (wp_vload_le elf); [done | lia | lia |].
  apply wp_bind. apply (wp_vload_le elf); [done | lia | lia |]. apply wp_bind. apply (wp_vload_le elf); [done | lia | lia |].
  apply wp_bind. apply (wp_vload_le elf); [done | lia | lia |]. by apply wp_ret.
Qed.

(** ** Mapping a run *)

(** In the space [root], [n] pages from that of [v] on lead to [paddr] and what
    follows; no other address of it, and no user address of another space, has
    changed. *)
Record run_mapped (root paddr v n : Z) (k0 k : K) : Prop := {
  rm_used x : pk_used k0 x -> pk_used k x;
  rm_root q : pk_root k0 q -> pk_root k q;
  rm_here va : canonical va -> ps_translate k root va =
    if decide (v / PAGE_SIZE_4KB <= va / PAGE_SIZE_4KB < v / PAGE_SIZE_4KB + n) then Some (paddr + (va - v / PAGE_SIZE_4KB * PAGE_SIZE_4KB))
    else ps_translate k0 root va;
  rm_other q va : q <> root -> pk_root k0 q -> 0 <= va < 2 ^ 47 -> ps_translate k q va = ps_translate k0 q va;
}.

Lemma run_mapped_step root paddr v j k0 k k' : run_mapped root paddr v j k0 k -> 0 <= j ->
  (forall x, pk_used k x -> pk_used k' x) -> (forall q, pk_root k q -> pk_root k' q) ->
  (forall va, canonical va -> ps_translate k' root va =
     if decide (va / PAGE_SIZE_4KB = (v + j * PAGE_SIZE_4KB) / PAGE_SIZE_4KB) then Some (paddr + j * PAGE_SIZE_4KB + va mod PAGE_SIZE_4KB)
     else ps_translate k root va) ->
  (forall q va, q <> root -> pk_root k q -> canonical va -> va < 2 ^ 47 -> ps_translate k' q va = ps_translate k q va) ->
  run_mapped root paddr v (j + 1) k0 k'.
Proof.
  intros [U R T O] Hj U' R' T' O'. split; [auto.. | |].
  - intros va Hva. rewrite T' by done. rewrite Z.div_add by done. rewrite T by done. pose proof (Z.div_mod va PAGE_SIZE_4KB ltac:(done)) as E.
    repeat case_decide; try lia; try done; f_equal; lia.
  - intros q va Hq Hr Hva. rewrite O'; [by apply O | done | auto | by left | lia].
Qed.

Lemma wp_map_pages r h paddr v n s (Q : unit -> pst K -> Prop) : 
  pk_ok (3 * n + r) h (x_k s) -> pk_root (x_k s) (cr3 (x_cpu s)) -> 0 <= r -> 0 <= n -> 0 <= v -> v + n * PAGE_SIZE_4KB <= 2 ^ 47 ->
  paddr mod PAGE_SIZE_4KB = 0 -> 0 <= paddr -> paddr + n * PAGE_SIZE_4KB < 2 ^ 46 ->
  (forall k, run_mapped (cr3 (x_cpu s)) paddr v n (x_k s) k -> pk_ok r h k -> Q tt (set_x_k k s)) ->
  wp (map_run paddr v n) Q s.
Proof.
  intros Hok Hroot Hr Hn Hv Hvn Hpa Hp0 Hpn HQ. unfold map_run. set (root := cr3 (x_cpu s)) in *. eapply wp_mono.
  - apply (wp_for _ (fun j s' => exists k, s' = set_x_k k s /\ run_mapped root paddr v j (x_k s) k /\ pk_ok (3 * (n - j) + r) h k)).
    + exists (x_k s). split; [by destruct s |]. split; [split; [auto.. | | auto] | by replace (n - 0) with n by lia].
      intros va _. by rewrite decide_False by lia.
    + intros j s' Hj (k & -> & Hm & Hk). rewrite Z2Nat.id in Hj by lia. assert (0 <= PAGE_SIZE_4KB) by done.
      assert (v + j * PAGE_SIZE_4KB < 2 ^ 47 /\ paddr + j * PAGE_SIZE_4KB < 2 ^ 46) as [Hv' Hp'] by (unfold PAGE_SIZE_4KB in *; lia).
      apply wp_bind, wp_gets, wp_zoom. rewrite !u64_small by (unfold PAGE_SIZE_4KB in *; lia).
      eapply wp_mono; [apply (wp_pk_map (3 * (n - j) + r) h); [exact Hk | lia | by apply (rm_root _ _ _ _ _ _ Hm) | left; unfold PAGE_SIZE_4KB in *; lia | | unfold PAGE_SIZE_4KB in *; lia] |].
      { rewrite Z_mod_plus_full. done. }
      intros [] k' (Hk' & U & R & T & O). exists k'. split; [done |]. replace (3 * (n - (j + 1)) + r) with (3 * (n - j) + r - 3) by lia.
      split; [| done]. apply (run_mapped_step _ _ _ _ _ k); [exact Hm | lia | exact U | exact R | exact T | exact O].
  - intros [] s' (k & -> & Hm & Hk). rewrite Z2Nat.id, Z.add_0_l in Hm, Hk by lia. apply HQ; [exact Hm |]. by replace r with (3 * (n - n) + r) by lia.
Qed.

(** The addresses of a run translate with a fixed offset. *)
Lemma run_phys root paddr v n k0 k s i : run_mapped root paddr v n k0 k -> x_k s = k -> cr3 (x_cpu s) = root -> 0 <= v -> 
  v + n * PAGE_SIZE_4KB <= 2 ^ 47 -> 0 <= i -> v mod PAGE_SIZE_4KB + i < n * PAGE_SIZE_4KB -> v + i < 2 ^ 47 ->
  phys_of s (v + i) = Some (paddr + v mod PAGE_SIZE_4KB + i) /\ ps_translate k root (v + i) = Some (paddr + v mod PAGE_SIZE_4KB + i).
Proof.
  intros Hm Hk Hc Hv Hvn Hi Hvi Hlt. assert (ps_translate k root (v + i) = Some (paddr + v mod PAGE_SIZE_4KB + i)) as E.
  { rewrite (rm_here _ _ _ _ _ _ Hm) by (left; lia). pose proof (Z.div_mod v PAGE_SIZE_4KB ltac:(done)) as Ev.
    rewrite decide_True; [f_equal; lia |]. clear - Hv Hi Hvi. unfold PAGE_SIZE_4KB in *. split; dlia. }
  split; [| exact E]. rewrite phys_user by (left; lia). by rewrite Hk, Hc.
Qed.

(** ** Segments *)

(** From [s] to [s'] memory in use keeps its bytes, the space [root] changes in the
    pages [pg] only, and the user's half of other spaces does not change. *)
Record grown (root : Z) (pg : Z -> Prop) s s' : Prop := {
  gr_shape : exists k m, s' = set_x_k k (set_x_mem m s);
  gr_used x : pk_used (x_k s) x -> pk_used (x_k s') x;
  gr_root q : pk_root (x_k s) q -> pk_root (x_k s') q;
  gr_mem x : pk_used (x_k s) x -> x_mem s' @@ x = x_mem s @@ x;
  gr_here va : canonical va -> ~ pg (va / PAGE_SIZE_4KB) -> ps_translate (x_k s') root va = ps_translate (x_k s) root va;
  gr_other q va : q <> root -> pk_root (x_k s) q -> 0 <= va < 2 ^ 47 -> ps_translate (x_k s') q va = ps_translate (x_k s) q va;
}.

Lemma grown_refl root pg s : grown root pg s s.
Proof. split; [exists (x_k s), (x_mem s); by destruct s | done..]. Qed.

Lemma grown_trans root (pg1 pg2 pg : Z -> Prop) s1 s2 s3 : grown root pg1 s1 s2 -> grown root pg2 s2 s3 ->
  (forall x, pg1 x \/ pg2 x -> pg x) -> grown root pg s1 s3.
Proof.
  intros [(k & m & ->) U R M T O] [(k' & m' & ->) U' R' M' T' O'] Hpg. split; [by eexists _, _ | auto.. | | |].
  - intros x Hx. rewrite M' by auto. by apply M.
  - intros va Hva Hn. rewrite T', T by (try done; naive_solver). done.
  - intros q va Hq Hr Hva. rewrite O' by auto. by apply O.
Qed.

Lemma grown_byte root pg s s' va b : grown root pg s s' -> canonical va -> ~ pg (va / PAGE_SIZE_4KB) -> byte_at s root va b -> byte_at s' root va b.
Proof.
  intros Hg Hva Hn (pa & E & Hu & Hb). exists pa. split_and!; [by rewrite (gr_here _ _ _ _ Hg) | by apply (gr_used _ _ _ _ Hg) | by rewrite (gr_mem _ _ _ _ Hg)].
Qed.

Lemma grown_resident root pg elf d s s' : grown root pg s s' -> resident elf d s -> resident elf d s'.
Proof.
  intros Hg (Hd & Hl & Hb). split_and!; [done.. |]. intros i b Hi. destruct (Hb i b Hi) as [E Hu].
  split; [by rewrite (gr_mem _ _ _ _ Hg) | by apply (gr_used _ _ _ _ Hg)].
Qed.

Lemma grown_cr3 root pg s s' : grown root pg s s' -> x_cpu s' = x_cpu s.
Proof. by intros [(k & m & ->) _ _ _ _ _]. Qed.

(** New pages, and their mapping. *)
Lemma wp_alloc_map r h v n s (Q : unit -> pst K -> Prop) :
  pk_ok (4 * n + r) h (x_k s) -> pk_root (x_k s) (cr3 (x_cpu s)) -> 0 <= r -> 0 <= n -> 0 <= v -> v + n * PAGE_SIZE_4KB <= 2 ^ 47 ->
  (forall paddr k, 0 <= paddr -> paddr + n * PAGE_SIZE_4KB < 2 ^ 46 ->
     (forall x, paddr <= x < paddr + n * PAGE_SIZE_4KB -> ~ pk_used (x_k s) x /\ pk_used k x) ->
     run_mapped (cr3 (x_cpu s)) paddr v n (x_k s) k -> pk_ok r h k -> Q tt (set_x_k k s)) ->
  wp (paddr ← zoom l_x_k (ps_alloc_pages n); map_run paddr v n) Q s.
Proof.
  intros Hok Hroot Hr Hn Hv Hvn HQ. apply wp_bind, wp_zoom. eapply wp_mono; [apply (wp_pk_alloc_pages (4 * n + r) h); [exact Hok | lia] |].
  intros paddr k1 (Hk1 & (U1 & R1 & T1) & Hal & Hp0 & Hpn & Hfr). cbn [view over l_x_k] in *.
  apply (wp_map_pages r h); cbn [x_k x_cpu set_x_k]; [by replace (3 * n + r) with (4 * n + r - n) by lia | by apply R1 | done.. |].
  intros k Hm Hk. apply (HQ paddr k); [done | done | | | done].
  - intros x Hx. destruct (Hfr x Hx) as [H1 H2]. split; [done | by apply (rm_used _ _ _ _ _ _ Hm)].
  - destruct Hm as [U R T O]. split; [auto.. | |].
    + intros va Hva. rewrite T by done. case_decide; [done | by apply T1].
    + intros q va Hq Hrq Hva. rewrite O by auto. apply T1; [done | by left].
Qed.

(** The pages of a segment. *)
Definition seg_pages (h : phdr) (pg : Z) : Prop :=
  p_vaddr h / PAGE_SIZE_4KB <= pg < p_vaddr h / PAGE_SIZE_4KB + pages_for (p_memsz h).

Lemma pages_for_bounds n : 0 <= n <= 2 ^ 46 -> 0 <= pages_for n /\ n <= pages_for n * PAGE_SIZE_4KB < n + PAGE_SIZE_4KB.
Proof. intros Hn. unfold pages_for, PAGE_SIZE_4KB. rewrite u64_small by lia. clear - Hn. dlia. Qed.

(** What the two loops write: the bytes of the file at [P], then zeros. *)
Lemma wp_fill_segment elf d hd P (Q : unit -> pst K -> Prop) s : resident elf d s -> seg_ok elf hd ->
  (forall i, 0 <= i < p_memsz hd -> phys_of s (p_vaddr hd + i) = Some (P + i)) ->
  p_filesz hd = 0 \/ P + p_memsz hd <= d \/ d + Z.of_nat (length elf) <= P ->
  (forall m, (forall x, x_mem (set_x_mem m s) @@ x = if decide (P <= x < P + p_memsz hd) then seg_byte elf hd (x - P) else x_mem s @@ x) ->
     Q tt (set_x_mem m s)) ->
  wp (when (0 <? p_filesz hd) (vmemcpy (Z.to_nat (p_filesz hd)) (p_vaddr hd) (u64 (d + DIRECT_OFFSET + p_offset hd)));;
      when (p_filesz hd <? p_memsz hd) (vmemset (Z.to_nat (p_memsz hd - p_filesz hd)) (u64 (p_vaddr hd + p_filesz hd)) 0)) Q s.
Proof.
  intros Hres [Hrange Hfile Hfits] Hph Hapart HQ. pose proof Hres as (Hd & Hlen & _). unfold seg_end in Hrange.
  rewrite !u64_small by (unfold DIRECT_OFFSET; lia).
  apply wp_bind. eapply (wp_mono _ (fun _ s1 => exists m, s1 = set_x_mem m s /\ forall x, m @@ x =
    if decide (P <= x < P + p_filesz hd) then x_mem s @@ (x - P + (d + p_offset hd)) else x_mem s @@ x)).
  - apply wp_when; intros E; cycle 1.
    { exists (x_mem s). split; [by destruct s |]. intros x. by rewrite decide_False by lia. }
    apply (wp_vmemcpy _ _ _ P (d + p_offset hd)).
    + intros i Hi. apply Hph. lia.
    + intros i Hi. replace (d + DIRECT_OFFSET + p_offset hd + i) with (d + p_offset hd + i + DIRECT_OFFSET) by lia. apply phys_direct. lia.
    + eexists. split; [done |]. intros x. rewrite memcpy_spec by lia. by rewrite Z2Nat.id by lia.
  - intros [] s1 (m & -> & Hm). apply wp_when; intros E.
    + apply (wp_vmemset _ _ _ (P + p_filesz hd)).
      { intros i Hi. rewrite phys_set_mem, <- Z.add_assoc, Hph by lia. f_equal. lia. }
      rewrite set_x_mem_twice. apply HQ. intros x. cbn [x_mem set_x_mem]. rewrite memset_spec, Hm. unfold seg_byte.
      destruct (Z.ltb_spec (x - P) (p_filesz hd)); repeat case_decide; try lia; [| done..].
      destruct (resident_byte elf d s (p_offset hd + (x - P)) Hres) as (_ & Eb & _); [lia |]. rewrite <- Eb. f_equal. lia.
    + apply HQ. intros x. cbn [x_mem set_x_mem]. rewrite Hm. unfold seg_byte.
      destruct (Z.ltb_spec (x - P) (p_filesz hd)); repeat case_decide; try lia; [| done..].
      destruct (resident_byte elf d s (p_offset hd + (x - P)) Hres) as (_ & Eb & _); [lia |]. rewrite <- Eb. f_equal. lia.
Qed.

(** Fresh frames at [paddr], mapped from [v] on and filled with [m]. *)
Lemma filled_grown paddr v n m s k : run_mapped (cr3 (x_cpu s)) paddr v n (x_k s) k ->
  (forall x, paddr <= x < paddr + n * PAGE_SIZE_4KB -> ~ pk_used (x_k s) x) ->
  (forall x, ~ paddr <= x < paddr + n * PAGE_SIZE_4KB -> m @@ x = x_mem s @@ x) ->
  grown (cr3 (x_cpu s)) (fun pg => v / PAGE_SIZE_4KB <= pg < v / PAGE_SIZE_4KB + n) s (set_x_mem m (set_x_k k s)).
Proof.
  intros [U R T O] Hfr Hm. split; [by exists k, m | exact U | exact R | | | exact O].
  - intros x Hx. apply Hm. by intros Hin%Hfr.
  - intros va Hva Hn. cbn [x_k set_x_mem set_x_k]. by rewrite T, decide_False.
Qed.

Lemma wp_load_segment elf d hd r h e s (Q : Z -> pst K -> Prop) : resident elf d s -> seg_ok elf hd -> loadable hd = true ->
  pk_ok (4 * pages_for (p_memsz hd) + r) h (x_k s) -> pk_root (x_k s) (cr3 (x_cpu s)) -> 0 <= r ->
  (forall s', grown (cr3 (x_cpu s)) (seg_pages hd) s s' -> pk_ok r h (x_k s') -> loaded elf s' (cr3 (x_cpu s)) hd ->
     Q (Z.max e (seg_end hd)) s') ->
  wp (load_segment (d + DIRECT_OFFSET) hd e) Q s.
Proof.
  intros Hres Hseg Hld Hok Hroot Hr HQ. pose proof Hseg as [Hrange Hfile Hfits]. pose proof Hres as (Hd & Hlen & Hb). unfold seg_end in *.
  destruct (pages_for_bounds (p_memsz hd)) as [Hn0 Hn]; [lia |]. set (n := pages_for (p_memsz hd)) in *.
  set (v := p_vaddr hd) in *. assert (0 <= v mod PAGE_SIZE_4KB < PAGE_SIZE_4KB) as Hvm by (apply Z.mod_pos_bound; done).
  unfold load_segment. unfold loadable in Hld. rewrite Hld. cbv zeta. fold n v.
  apply wp_bind_assoc, wp_bind, (wp_alloc_map r h); [done.. | lia | lia | unfold PAGE_SIZE_4KB in *; lia |].
  intros paddr k Hp0 Hpn Hfr Hm Hk. set (P := paddr + v mod PAGE_SIZE_4KB).
  assert (grown (cr3 (x_cpu s)) (seg_pages hd) s (set_x_k k s)) as Hg1.
  { replace (set_x_k k s) with (set_x_mem (x_mem s) (set_x_k k s)) by (by destruct s). apply (filled_grown paddr v n); [done | | done]. intros x Hx. by apply Hfr. }
  assert (forall i, 0 <= i < p_memsz hd -> phys_of (set_x_k k s) (v + i) = Some (P + i) /\ ps_translate k (cr3 (x_cpu s)) (v + i) = Some (P + i)) as Htr.
  { intros i Hi. apply (run_phys (cr3 (x_cpu s)) paddr v n (x_k s) k (set_x_k k s) i Hm); [done | done | lia | unfold PAGE_SIZE_4KB in *; lia | lia | lia | lia]. }
  apply wp_bind_assoc, wp_bind. apply (wp_fill_segment elf d hd P); [by eapply grown_resident | done | by intros i Hi; apply Htr | |].
  { destruct (Z.eq_dec (p_filesz hd) 0) as [E0|]; [by left | right].
    destruct (Z.le_gt_cases (P + p_memsz hd) d) as [|H1]; [by left |]. destruct (Z.le_gt_cases (d + Z.of_nat (length elf)) P) as [|H2]; [by right |]. exfalso.
    destruct (resident_byte elf d s (Z.max P d - d) Hres) as (_ & _ & Hu); [lia |].
    apply (proj1 (Hfr (d + (Z.max P d - d)) ltac:(lia))), Hu. }
  intros m Hmem. apply wp_ret. replace (if _ <? _ then _ else e) with (Z.max e (v + p_memsz hd)); cycle 1.
  { rewrite u64_small by lia. destruct (Z.ltb_spec e (v + p_memsz hd)); lia. }
  apply HQ; [| exact Hk |].
  - apply (filled_grown paddr v n); [done | by intros x Hx; apply Hfr |]. intros x Hx. cbn [x_mem set_x_mem set_x_k] in Hmem.
    rewrite Hmem, decide_False; [done |]. lia.
  - intros i Hi. destruct (Htr i Hi) as [_ E]. exists (P + i). split_and!; [exact E | apply Hfr; lia |].
    rewrite Hmem, decide_True by lia. f_equal. lia.
Qed.

Lemma seg_page_of elf hd i : seg_ok elf hd -> 0 <= i < p_memsz hd -> seg_pages hd ((p_vaddr hd + i) / PAGE_SIZE_4KB) /\ 0 <= p_vaddr hd + i < 2 ^ 47.
Proof.
  intros [Hr Hf Hfit] Hi. unfold seg_end, seg_pages in *. split; [| lia]. clear - Hfit Hi Hr. unfold PAGE_SIZE_4KB in *.
  generalize dependent (pages_for (p_memsz hd)). intros n Hn. split; dlia.
Qed.

Lemma grown_loaded root pg elf s s' hd : grown root pg s s' -> seg_ok elf hd -> (forall x, seg_pages hd x -> ~ pg x) ->
  loaded elf s root hd -> loaded elf s' root hd.
Proof.
  intros Hg Hok Hpg Hl i Hi. destruct (seg_page_of elf hd i Hok Hi) as [Hp Hc]. eapply grown_byte; [exact Hg | left; lia | by apply Hpg | by apply Hl].
Qed.

Lemma load_cost_pos elf hs : (forall h, h ∈ hs -> loadable h = true -> seg_ok elf h) -> 0 <= load_cost hs.
Proof.
  induction hs as [|h hs IH]; intros Hok; cbn [load_cost foldr]; [done |]. fold (load_cost hs).
  assert (0 <= load_cost hs) by (apply IH; intros; apply Hok; [by right | done]). unfold seg_cost. destruct (loadable h) eqn:E; [| lia].
  destruct (Hok h ltac:(by left) E) as [Hr Hf _]. unfold seg_end in Hr. pose proof (pages_for_bounds (p_memsz h) ltac:(lia)). lia.
Qed.

(** The headers from [a] on. *)
Definition phdrs_at (elf : list Z) (a : Z) (n : nat) : list phdr := (fun i => phdr_of elf (a + Z.of_nat i * sizeof_phdr)) <$> seq 0 n.

Lemma phdrs_at_S elf a n : phdrs_at elf a (S n) = phdr_of elf a :: phdrs_at elf (a + sizeof_phdr) n.
Proof.
  unfold phdrs_at. rewrite <- cons_seq, fmap_cons. f_equal; [f_equal; lia |]. rewrite <- fmap_S_seq, <- list_fmap_compose.
  apply list_fmap_ext. intros i x _. cbn. f_equal. lia.
Qed.

(** The pages of all loaded segments. *)
Definition image_pages (hs : list phdr) (pg : Z) : Prop := exists h, h ∈ hs /\ loadable h = true /\ seg_pages h pg.

Lemma wp_load_segments elf d n : forall a e r h s (Q : Z -> pst K -> Prop), resident elf d s -> 0 <= a -> a + Z.of_nat n * sizeof_phdr <= Z.of_nat (length elf) ->
  (forall hd, hd ∈ phdrs_at elf a n -> loadable hd = true -> seg_ok elf hd) ->
  ForallOrdPairs seg_apart (filter (fun hd => loadable hd = true) (phdrs_at elf a n)) ->
  pk_ok (load_cost (phdrs_at elf a n) + r) h (x_k s) -> pk_root (x_k s) (cr3 (x_cpu s)) -> 0 <= r ->
  (forall s', grown (cr3 (x_cpu s)) (image_pages (phdrs_at elf a n)) s s' -> pk_ok r h (x_k s') ->
     (forall hd, hd ∈ phdrs_at elf a n -> loadable hd = true -> loaded elf s' (cr3 (x_cpu s)) hd) -> Q (image_end (phdrs_at elf a n) e) s') ->
  wp (load_segments n (d + DIRECT_OFFSET) (d + DIRECT_OFFSET + a) e) Q s.
Proof.
  induction n as [|n IH]; intros a e r h s Q Hres Ha Hn Hok Hap Hk Hroot Hr HQ; cbn [load_segments].
  { apply wp_ret, (HQ s); [apply grown_refl | done | by intros hd ?%elem_of_nil]. }
  rewrite phdrs_at_S in *. set (hd := phdr_of elf a) in *. set (hs := phdrs_at elf (a + sizeof_phdr) n) in *.
  assert (0 <= Z.of_nat n * sizeof_phdr /\ a + sizeof_phdr + Z.of_nat n * sizeof_phdr <= Z.of_nat (length elf)) as [Hn0 Hn'] by (unfold sizeof_phdr in *; lia).
  assert (forall hd, hd ∈ hs -> loadable hd = true -> seg_ok elf hd) as Hok' by (intros; apply Hok; [by right | done]).
  pose proof (load_cost_pos elf hs Hok') as Hcost. cbn [load_cost foldr] in Hk. fold (load_cost hs) in Hk.
  apply wp_bind. apply (wp_read_phdr elf); [done | done | lia |]. fold hd. apply wp_bind. rewrite <- Z.add_assoc.
  unfold seg_cost in Hk. rewrite filter_cons in Hap. cbn [image_end foldl] in HQ. destruct (loadable hd) eqn:Eld.
  - rewrite decide_True in Hap by done. inversion Hap as [|? ? Hfirst Hrest]; subst.
    apply (wp_load_segment elf d hd (load_cost hs + r) h); [done | apply Hok; [by left | done] | done | | done | lia |].
    { by replace (4 * pages_for (p_memsz hd) + (load_cost hs + r)) with (4 * pages_for (p_memsz hd) + load_cost hs + r) by lia. }
    intros s1 Hg1 Hk1 Hl1. pose proof (grown_cr3 _ _ _ _ Hg1) as Ec.
    apply (IH _ _ r h); rewrite ?Ec; [by eapply grown_resident | unfold sizeof_phdr in *; lia | done | done | done | done | by apply (gr_root _ _ _ _ Hg1) | done |].
    intros s2 Hg2 Hk2 Hl2. apply HQ; [| done |].
    + eapply grown_trans; [exact Hg1 | exact Hg2 |]. intros x [Hx|(h' & Hh & Hld & Hx)]; [exists hd; split; [by left | done] | exists h'; split; [by right | done]].
    + intros h' [->|Hh]%elem_of_cons Hld; [| by apply Hl2]. eapply grown_loaded; [exact Hg2 | apply Hok; [by left | done] | | exact Hl1].
      intros x Hx (h' & Hh & Hld' & Hx'). rewrite Forall_forall in Hfirst. specialize (Hfirst h' ltac:(by apply list_elem_of_filter)).
      unfold seg_apart, seg_pages in *. lia.
  - rewrite decide_False in Hap by congruence. unfold load_segment. unfold loadable in Eld. rewrite Eld. apply wp_ret.
    apply (IH _ _ r h); [done | unfold sizeof_phdr in *; lia | done.. |]. intros s2 Hg2 Hk2 Hl2. apply HQ; [| done |].
    + eapply grown_trans; [apply (grown_refl _ (fun _ => False)) | exact Hg2 |]. intros x [[]|(h' & Hh & Hld & Hx)]. exists h'. split; [by right | done].
    + intros h' [->|Hh]%elem_of_cons Hld; [unfold loadable in Hld; congruence | by apply Hl2].
Qed.

(** ** The file *)

Lemma wp_magic elf d (A : Type) (f : Z -> Z -> Z -> Z -> Z -> M (pst K) A) Q s : resident elf d s -> 5 <= Z.of_nat (length elf) ->
  (forall m0 m1 m2 m3 c, take 5 elf = [m0; m1; m2; m3; c] -> wp (f m0 m1 m2 m3 c) Q s) ->
  wp (m0 ← vload (d + DIRECT_OFFSET); m1 ← vload (d + DIRECT_OFFSET + 1); m2 ← vload (d + DIRECT_OFFSET + 2);
      m3 ← vload (d + DIRECT_OFFSET + 3); c ← vload (d + DIRECT_OFFSET + 4); f m0 m1 m2 m3 c) Q s.
Proof.
  intros Hres Hl HQ. destruct elf as [|m0 [|m1 [|m2 [|m3 [|c elf]]]]]; try (cbn in Hl; lia).
  apply wp_bind. rewrite <- (Z.add_0_r (d + DIRECT_OFFSET)) at 1. eapply wp_vload_file; [done | lia |].
  do 4 (apply wp_bind; eapply wp_vload_file; [done | lia |]). by apply HQ.
Qed.

Lemma wp_load_elf elf d r h s (Q : Z * Z -> pst K -> Prop) : elf_ok elf -> resident elf d s ->
  pk_ok (load_cost (phdrs elf) + r) h (x_k s) -> pk_root (x_k s) (cr3 (x_cpu s)) -> 0 <= r ->
  (forall s', grown (cr3 (x_cpu s)) (image_pages (phdrs elf)) s s' -> pk_ok r h (x_k s') ->
     (forall hd, hd ∈ phdrs elf -> loadable hd = true -> loaded elf s' (cr3 (x_cpu s)) hd) -> Q (e_entry elf, image_end (phdrs elf) 0) s') ->
  wp (load_elf (d + DIRECT_OFFSET)) Q s.
Proof.
  intros [Hmag Hlen Hph Hsegs Hap] Hres Hk Hroot Hr HQ. pose proof Hres as (Hd & Hdl & _). unfold load_elf.
  apply (wp_magic elf); [done | lia |]. intros m0 m1 m2 m3 c Etake. rewrite bool_decide_true by congruence.
  apply wp_bind. apply (wp_vload_le elf); [done | lia | lia |]. apply wp_bind. apply (wp_vload_le elf); [done | lia | lia |].
  fold (e_phoff elf) (e_phnum elf). assert (0 <= e_phnum elf * sizeof_phdr) by (unfold sizeof_phdr; lia).
  rewrite u64_small by (unfold DIRECT_OFFSET; lia). apply wp_bind.
  apply (wp_load_segments elf d _ _ _ r h); [done | lia | rewrite Z2Nat.id; lia | exact Hsegs | exact Hap | exact Hk | done | done |].
  intros s' Hg Hk' Hl. apply wp_bind. apply (wp_vload_le elf); [by eapply grown_resident | lia | lia |]. apply wp_ret. by apply HQ.
Qed.

Lemma wp_load_elf_bad elf d s (Q : Z * Z -> pst K -> Prop) : resident elf d s -> 5 <= Z.of_nat (length elf) ->
  take 5 elf <> ELFMAG ++ [ELFCLASS64] -> Q (0, 0) s -> wp (load_elf (d + DIRECT_OFFSET)) Q s.
Proof.
  intros Hres Hlen Hmag HQ. unfold load_elf. apply (wp_magic elf); [done.. |]. intros m0 m1 m2 m3 c Etake.
  rewrite bool_decide_false by congruence. by apply wp_ret.
Qed.

(** ** Files without a header *)




(** ** A new address space *)





(** ** Bytes *)



(** ** The image *)





Lemma grown_weaken root (pg pg' : Z -> Prop) s s' : (forall x, pg x -> pg' x) -> grown root pg s s' -> grown root pg' s s'.
Proof. intros Hpg [A B C D E F]. split; auto. Qed.





(** ** Creation *)




(** After the thread was created every byte is still there. *)
Lemma byte_at_thread s m k q va b : byte_at s q va b -> x_mem s = m -> (forall x, pk_used (x_k s) x -> pk_used k x) ->
  (forall pa, ps_translate (x_k s) q va = Some pa -> ps_translate k q va = Some pa) ->
  forall s', x_k s' = k -> x_mem s' = m -> byte_at s' q va b.
Proof. intros (pa & E & Hu & Hb) <- U T s' <- Em. exists pa. split_and!; [by apply T | by apply U | by rewrite Em]. Qed.








(** ** Accesses that fault *)

Lemma err_bind {A B} (m : M (pst K) A) (f : A -> M (pst K) B) (P : A -> pst K -> Prop) s :
  wp m P s -> (forall a s', P a s' -> f a s' = Err Fault) -> (m ≫= f) s = Err Fault.
Proof. intros (a & s' & E & HP)%wp_ok Hf. unfold mbind, M_bind. rewrite E. by apply Hf. Qed.

Lemma err_bind_l {A B} (m : M (pst K) A) (f : A -> M (pst K) B) s : m s = Err Fault -> (m ≫= f) s = Err Fault.
Proof. intros E. unfold mbind, M_bind. by rewrite E. Qed.

Lemma bind_assoc_eq {A B C} (m : M (pst K) A) (f : A -> M (pst K) B) (g : B -> M (pst K) C) s :
  (m ≫= (fun a => f a ≫= g)) s = ((m ≫= f) ≫= g) s.
Proof. unfold mbind, M_bind. by destruct (m s) as [[a s']|]. Qed.

Lemma vstore_fault va b s : phys_of s va = None -> vstore va b s = Err Fault.
Proof. intros E. unfold vstore, mbind, M_bind, gets. by rewrite E. Qed.

(** The first address of the destination without a translation stops the loop. *)
Lemma vmemcpy_fault n : forall d a P S L s, 0 <= L < Z.of_nat n ->
  (forall i, 0 <= i < L -> phys_of s (d + i) = Some (P + i)) -> phys_of s (d + L) = None ->
  (forall i, 0 <= i < Z.of_nat n -> phys_of s (a + i) = Some (S + i)) -> vmemcpy n d a s = Err Fault.
Proof.
  induction n as [|n IH]; intros d a P S L s HL Hd Hno Ha; cbn [vmemcpy]; [lia |].
  eapply (err_bind _ _ (fun _ s' => s' = s)); [eapply wp_vload; [rewrite <- (Z.add_0_r a); apply Ha; lia | done] |]. intros b s' ->.
  destruct (Z.eq_dec L 0) as [->|]; [apply err_bind_l, vstore_fault; by rewrite Z.add_0_r in Hno |].
  eapply (err_bind _ _ (fun _ s' => exists m, s' = set_x_mem m s)); [eapply wp_vstore; [rewrite <- (Z.add_0_r d); apply Hd; lia | by eexists] |].
  intros [] s' (m & ->). apply (IH _ _ (P + 1) (S + 1) (L - 1)); [lia | | |].
  - intros i Hi. rewrite phys_set_mem, <- Z.add_assoc, Hd by lia. f_equal. lia.
  - rewrite phys_set_mem. by replace (d + 1 + (L - 1)) with (d + L) by lia.
  - intros i Hi. rewrite phys_set_mem, <- Z.add_assoc, Ha by lia. f_equal. lia.
Qed.

Lemma vmemset_fault n b : forall d P L s, 0 <= L < Z.of_nat n ->
  (forall i, 0 <= i < L -> phys_of s (d + i) = Some (P + i)) -> phys_of s (d + L) = None -> vmemset n d b s = Err Fault.
Proof.
  induction n as [|n IH]; intros d P L s HL Hd Hno; cbn [vmemset]; [lia |].
  destruct (Z.eq_dec L 0) as [->|]; [apply err_bind_l, vstore_fault; by rewrite Z.add_0_r in Hno |].
  eapply (err_bind _ _ (fun _ s' => exists m, s' = set_x_mem m s)); [eapply wp_vstore; [rewrite <- (Z.add_0_r d); apply Hd; lia | by eexists] |].
  intros [] s' (m & ->). apply (IH _ (P + 1) (L - 1)); [lia | |].
  - intros i Hi. rewrite phys_set_mem, <- Z.add_assoc, Hd by lia. f_equal. lia.
  - rewrite phys_set_mem. by replace (d + 1 + (L - 1)) with (d + L) by lia.
Qed.

(** A segment that starts inside a page and reaches past the pages counted from
    its size. *)
Record seg_past (elf : list Z) (h : phdr) : Prop := {
  sx_range : 0 <= p_vaddr h /\ seg_end h <= 2 ^ 46;
  sx_file : 0 <= p_filesz h <= p_memsz h /\ 0 < p_memsz h /\ 0 <= p_offset h /\ p_offset h + p_filesz h <= Z.of_nat (length elf);
  sx_past : pages_for (p_memsz h) * PAGE_SIZE_4KB < p_vaddr h mod PAGE_SIZE_4KB + p_memsz h;
}.

Lemma load_segment_fault elf d hd r h e s : resident elf d s -> seg_past elf hd -> loadable hd = true ->
  pk_ok (4 * pages_for (p_memsz hd) + r) h (x_k s) -> pk_root (x_k s) (cr3 (x_cpu s)) -> 0 <= r ->
  (forall va, 0 <= va < 2 ^ 47 -> ps_translate (x_k s) (cr3 (x_cpu s)) va = None) ->
  load_segment (d + DIRECT_OFFSET) hd e s = Err Fault.
Proof.
  intros Hres [Hrange Hfile Hpast] Hld Hok Hroot Hr Hno. pose proof Hres as (Hd & Hlen & _). unfold seg_end in *.
  destruct (pages_for_bounds (p_memsz hd)) as [Hn0 Hn]; [lia |]. set (n := pages_for (p_memsz hd)) in *.
  set (v := p_vaddr hd) in *. assert (0 <= v mod PAGE_SIZE_4KB < PAGE_SIZE_4KB) as Hvm by (apply Z.mod_pos_bound; done).
  set (L := n * PAGE_SIZE_4KB - v mod PAGE_SIZE_4KB). assert (0 <= L < p_memsz hd) as HL.
  { unfold L, PAGE_SIZE_4KB in *. lia. }
  unfold load_segment. unfold loadable in Hld. rewrite Hld. cbv zeta. fold n v. rewrite bind_assoc_eq.
  eapply (err_bind _ _ (fun _ s' => exists paddr k, s' = set_x_k k s /\ run_mapped (cr3 (x_cpu s)) paddr v n (x_k s) k)).
  { apply (wp_alloc_map r h); [done.. | lia | lia | unfold PAGE_SIZE_4KB in *; lia |]. intros paddr k _ _ _ Hm _. by exists paddr, k. }
  intros [] s1 (paddr & k & -> & Hm). set (P := paddr + v mod PAGE_SIZE_4KB).
  assert (forall i, 0 <= i < L -> phys_of (set_x_k k s) (v + i) = Some (P + i)) as Htr.
  { intros i Hi. apply (run_phys (cr3 (x_cpu s)) paddr v n (x_k s) k (set_x_k k s) i Hm); [done | done | lia | unfold PAGE_SIZE_4KB in *; lia | lia | lia | lia]. }
  assert (phys_of (set_x_k k s) (v + L) = None) as Hend.
  { rewrite phys_user by (left; lia). cbn [x_k x_cpu set_x_k]. rewrite (rm_here _ _ _ _ _ _ Hm) by (left; lia). rewrite decide_False; [apply Hno; lia |].
    assert (v + L = (v / PAGE_SIZE_4KB + n) * PAGE_SIZE_4KB) as -> by (pose proof (Z.div_mod v PAGE_SIZE_4KB ltac:(done)); unfold L; lia).
    rewrite Z.div_mul by done. lia. }
  rewrite !u64_small by (unfold DIRECT_OFFSET; lia).
  destruct (Z.lt_ge_cases L (p_filesz hd)) as [Hlt|Hge].
  - rewrite (proj2 (Z.ltb_lt 0 _)) by lia. apply err_bind_l. apply (vmemcpy_fault _ _ _ P (d + p_offset hd) L); [lia | done | done |].
    intros i Hi. replace (d + DIRECT_OFFSET + p_offset hd + i) with (d + p_offset hd + i + DIRECT_OFFSET) by lia. apply phys_direct. lia.
  - eapply (err_bind _ _ (fun _ s' => exists m, s' = set_x_mem m (set_x_k k s))).
    + apply wp_when; intros E; [| exists (x_mem s); by destruct s]. apply (wp_vmemcpy _ _ _ P (d + p_offset hd)); [| | by eexists].
      * intros i Hi. apply Htr. lia.
      * intros i Hi. replace (d + DIRECT_OFFSET + p_offset hd + i) with (d + p_offset hd + i + DIRECT_OFFSET) by lia. apply phys_direct. lia.
    + intros [] s2 (m & ->). rewrite (proj2 (Z.ltb_lt (p_filesz hd) _)) by lia. apply err_bind_l.
      apply (vmemset_fault _ _ _ (P + p_filesz hd) (L - p_filesz hd)); [lia | |].
      * intros i Hi. rewrite phys_set_mem, <- Z.add_assoc, Htr by lia. f_equal. lia.
      * rewrite phys_set_mem. by replace (v + p_filesz hd + (L - p_filesz hd)) with (v + L) by lia.
Qed.

End specification.

(** * Properties *)

Section properties.
Context {K : Type} `{Hps : ProcServices K} `{Hlaws : !ProcLaws K}.
Implicit Types s : pst K.


(** C19: loading an ELF file whose segments have pages of their own: each byte of each
    segment is the byte of the file or zero, the result is the entry point and the
    end of the last segment, and nothing else changes in this or another space. *)
Theorem load_elf_spec elf d r h s : elf_ok elf -> resident elf d s ->
  pk_ok (load_cost (phdrs elf) + r) h (x_k s) -> pk_root (x_k s) (cr3 (x_cpu s)) -> 0 <= r ->
  wp (load_elf (d + DIRECT_OFFSET)) (fun res s' => res = (e_entry elf, image_end (phdrs elf) 0) /\
    (forall hd, hd ∈ phdrs elf -> loadable hd = true -> loaded elf s' (cr3 (x_cpu s)) hd) /\
    grown (cr3 (x_cpu s)) (image_pages (phdrs elf)) s s') s.
Proof. intros. by apply (wp_load_elf elf d r h). Qed.

(** A file without the magic number of 64-bit ELF files is refused, with no effect. *)
Theorem load_elf_rejects elf d s : resident elf d s -> 5 <= Z.of_nat (length elf) -> take 5 elf <> ELFMAG ++ [ELFCLASS64] ->
  load_elf (d + DIRECT_OFFSET) s = Ok ((0, 0), s).
Proof.
  intros Hres Hl Hm. destruct (wp_ok _ _ _ (wp_load_elf_bad elf d s (fun r s' => r = (0, 0) /\ s' = s) Hres Hl Hm (conj eq_refl eq_refl))) as (r & s' & E & -> & ->).
  exact E.
Qed.

(** The pages of a segment are counted from its size alone: one that starts inside
    a page and reaches past that many pages makes the loader itself fault. *)
Theorem load_segment_past elf d hd r h e s : resident elf d s -> seg_past elf hd -> loadable hd = true ->
  pk_ok (4 * pages_for (p_memsz hd) + r) h (x_k s) -> pk_root (x_k s) (cr3 (x_cpu s)) -> 0 <= r ->
  (forall va, 0 <= va < 2 ^ 47 -> ps_translate (x_k s) (cr3 (x_cpu s)) va = None) ->
  load_segment (d + DIRECT_OFFSET) hd e s = Err Fault.
Proof. apply load_segment_fault. Qed.

End properties.

(** * Witnesses *)

(** A kernel that hands out one page after the other, with the tables by their
    words and translations by page: those of users by space, those above for all. *)
Record demo : Type := Demo {
  m_next : Z;
  m_tables : gset Z;
  m_words : gmap (Z * Z) Z;
  m_user : gmap (Z * Z) Z;
  m_kernel : gmap Z Z;
}.

(** Code of four bytes at 0x401000, in a segment of 0x1010. *)
Definition demo_elf : list Z :=
  [0x7F; 0x45; 0x4C; 0x46; 2] ++ replicate 19 0 ++ [0x00; 0x10; 0x40; 0; 0; 0; 0; 0] ++ [64; 0; 0; 0; 0; 0; 0; 0] ++ replicate 16 0 ++
  [1; 0] ++ replicate 6 0 ++
  [1; 0; 0; 0; 5; 0; 0; 0] ++ [120; 0; 0; 0; 0; 0; 0; 0] ++ [0x00; 0x10; 0x40; 0; 0; 0; 0; 0] ++ replicate 8 0 ++
  [4; 0; 0; 0; 0; 0; 0; 0] ++ [0x10; 0x10; 0; 0; 0; 0; 0; 0] ++ replicate 8 0 ++ [0x90; 0x90; 0xEB; 0xFE].

Definition demo_translate (k : demo) (q va : Z) : option Z :=
  p ← (if va <? 2 ^ 47 then m_user k !! (q, va / PAGE_SIZE_4KB) else m_kernel k !! (va / PAGE_SIZE_4KB)); Some (p + va mod PAGE_SIZE_4KB).

#[local] Instance demo_services : ProcServices demo := {
  ps_kmalloc n := mret 0x500;
  ps_kfree p := mret tt;
  ps_alloc_page := fun k => let p := m_next k * PAGE_SIZE_4KB in
    Ok (p, Demo (m_next k + 1) ({[p]} ∪ m_tables k) (<[(p, 511) := 0]> (m_words k)) (m_user k) (m_kernel k));
  ps_alloc_pages n := fun k => Ok (m_next k * PAGE_SIZE_4KB, Demo (m_next k + n) (m_tables k) (m_words k) (m_user k) (m_kernel k));
  ps_load a := gets (fun k => let x := a - DIRECT_OFFSET in m_words k @@ (x / PAGE_SIZE_4KB * PAGE_SIZE_4KB, x mod PAGE_SIZE_4KB / 8));
  ps_store a w := modify (fun k => let x := a - DIRECT_OFFSET in
    Demo (m_next k) (m_tables k) (<[(x / PAGE_SIZE_4KB * PAGE_SIZE_4KB, x mod PAGE_SIZE_4KB / 8) := w]> (m_words k)) (m_user k) (m_kernel k));
  ps_map_page root p v fl := modify (fun k =>
    if v <? 2 ^ 47 then Demo (m_next k) (m_tables k) (m_words k) (<[(root, v / PAGE_SIZE_4KB) := p]> (m_user k)) (m_kernel k)
    else Demo (m_next k) (m_tables k) (m_words k) (m_user k) (<[v / PAGE_SIZE_4KB := p]> (m_kernel k)));
  ps_translate := demo_translate;
  ps_inode_size fp := mret (Some (Z.of_nat (length demo_elf)));
  ps_dfs_read fp off n := mret demo_elf;
  ps_create_user_thread p e ks us := mret 0x600;
}.

(** Tables are pages, and only they have user pages. *)
Record demo_ok (r : Z) (k : demo) : Prop := {
  dm_next : 1 <= m_next k /\ 0 <= r /\ m_next k + r < 2 ^ 34;
  dm_tables q : q ∈ m_tables k -> exists n, q = n * PAGE_SIZE_4KB /\ 0 < n < m_next k;
  dm_user q pg : q ∉ m_tables k -> m_user k !! (q, pg) = None;
}.
Definition demo_root (k : demo) (q : Z) : Prop := q ∈ m_tables k /\ m_words k @@ (q, 511) = 1.
Definition demo_blank (k : demo) (p : Z) : Prop := p ∈ m_tables k /\ forall pg, m_user k !! (p, pg) = None.

Lemma demo_cell r k q i : demo_ok r k -> q ∈ m_tables k -> 0 <= i < 512 ->
  let x := q + DIRECT_OFFSET + 8 * i - DIRECT_OFFSET in x / PAGE_SIZE_4KB * PAGE_SIZE_4KB = q /\ x mod PAGE_SIZE_4KB / 8 = i.
Proof. intros [_ Ht _] (n & -> & Hn)%Ht Hi. unfold PAGE_SIZE_4KB. cbv zeta. split; dlia. Qed.

Lemma page_range va : canonical va -> va < 2 ^ 47 -> 0 <= va / PAGE_SIZE_4KB < 2 ^ 35.
Proof. intros [Hv|Hv] Hl; [| lia]. unfold PAGE_SIZE_4KB. dlia. Qed.

Lemma demo_map_user k root p v q va : canonical v -> canonical va -> v < 2 ^ 47 ->
  demo_translate (Demo (m_next k) (m_tables k) (m_words k) (<[(root, v / PAGE_SIZE_4KB) := p]> (m_user k)) (m_kernel k)) q va =
    if decide (q = root /\ va / PAGE_SIZE_4KB = v / PAGE_SIZE_4KB) then Some (p + va mod PAGE_SIZE_4KB) else demo_translate k q va.
Proof.
  intros Hv Hva Hlt. unfold demo_translate. cbn [m_user m_kernel]. destruct (Z.ltb_spec va (2 ^ 47)).
  - case_decide as E; [destruct E as [-> ->]; by rewrite lookup_insert_eq |]. rewrite lookup_insert_ne; [done |]. intros [= -> E']. by apply E.
  - rewrite decide_False; [done |]. intros [_ E]. apply page_range in Hlt; [| done]. destruct Hva as [Hva|Hva]; [lia |]. rewrite <- E in Hlt. clear - Hva Hlt. unfold PAGE_SIZE_4KB in *. dlia.
Qed.

Lemma demo_map_kernel k p v q va : canonical v -> canonical va -> 2 ^ 47 <= v ->
  demo_translate (Demo (m_next k) (m_tables k) (m_words k) (m_user k) (<[v / PAGE_SIZE_4KB := p]> (m_kernel k))) q va =
    if decide (va / PAGE_SIZE_4KB = v / PAGE_SIZE_4KB) then Some (p + va mod PAGE_SIZE_4KB) else demo_translate k q va.
Proof.
  intros Hv Hva Hlt. unfold demo_translate. cbn [m_user m_kernel]. destruct (Z.ltb_spec va (2 ^ 47)).
  - rewrite decide_False; [done |]. intros E. apply page_range in H; [| done]. destruct Hv as [Hv|Hv]; [lia |]. rewrite E in H. clear - Hv H. unfold PAGE_SIZE_4KB in *. dlia.
  - case_decide as E; [rewrite E; by rewrite lookup_insert_eq |]. by rewrite lookup_insert_ne.
Qed.

#[local] Program Instance demo_laws : ProcLaws demo := {
  pk_ok r h := demo_ok r;
  pk_used k x := 0 <= x < m_next k * PAGE_SIZE_4KB;
  pk_root := demo_root;
  pk_blank := demo_blank;
  pk_word k q i := m_words k @@ (q, i);
  pk_file _ := Some demo_elf;
  pk_reliable := True;
}.
Next Obligation. intros r h n k Hk. by split. Qed.
Next Obligation.
  intros r h k [Hn Ht Hu] Hr. unfold wp. cbn -[PAGE_SIZE_4KB demo_translate]. set (p := m_next k * PAGE_SIZE_4KB).
  assert (p ∉ m_tables k) as Hp by (intros (n & E & Hn')%Ht; unfold p, PAGE_SIZE_4KB in E; lia). split_and!.
  - split; cbn; [lia | |].
    + intros q [->%elem_of_singleton|Hq]%elem_of_union; [exists (m_next k); split; [done | lia] |]. destruct (Ht q Hq) as (n & -> & Hn'). exists n. split; [done | lia].
    + intros q pg Hq. apply Hu. set_solver.
  - intros x Hx. unfold PAGE_SIZE_4KB in *. lia.
  - intros q [Hq Hw]. split; [cbn; set_solver |]. cbn. rewrite rd_insert_ne; [done |]. intros [= <-]. by apply Hp.
  - done.
  - unfold p. apply Z_mod_mult.
  - unfold p, PAGE_SIZE_4KB. lia.
  - unfold p, PAGE_SIZE_4KB. lia.
  - split; cbn; [set_solver | intros pg; by apply Hu].
  - intros [_ Hw]. cbn in Hw. by rewrite rd_insert_eq in Hw.
  - intros x Hx. unfold p, PAGE_SIZE_4KB in *. lia.
Qed.
Next Obligation.
  intros r h n k [Hn Ht Hu] Hr. unfold wp. cbn -[PAGE_SIZE_4KB demo_translate]. split_and!; [split; cbn; [lia | | done] | | done | done | apply Z_mod_mult | unfold PAGE_SIZE_4KB; lia | unfold PAGE_SIZE_4KB; lia |].
  - intros q (m & -> & Hm)%Ht. exists m. split; [done | lia].
  - intros x Hx. unfold PAGE_SIZE_4KB in *. lia.
  - intros x Hx. unfold PAGE_SIZE_4KB in *. lia.
Qed.
Next Obligation.
  intros r h q i k Hk [Hq _] Hi. destruct (demo_cell r k q i Hk Hq Hi) as [E1 E2]. unfold wp, ps_load, demo_services, gets. cbv zeta in *. by rewrite E1, E2.
Qed.
Next Obligation.
  intros r h p i x k Hk [Hp Hb] Hi. destruct (demo_cell r k p i Hk Hp Hi) as [E1 E2]. unfold wp, ps_store, demo_services, modify. cbv zeta in *. rewrite E1, E2.
  destruct Hk as [Hn Ht Hu]. split_and!; [by split | by split | done | | done |].
  - intros q Hq [Hqt Hw]. split; [done |]. cbn [m_words]. rewrite rd_insert_ne; [done |]. congruence.
  - intros q j. cbn [m_words]. rewrite rd_insert. repeat case_decide; naive_solver.
Qed.
Next Obligation.
  intros r h p q k Hk [Hp Hb] [Hq Hw] H0 H1. split; [split; [done |]; rewrite H1 by lia; done |]. intros va Hva. unfold ps_translate, demo_services, demo_translate.
  destruct (Z.ltb_spec va (2 ^ 47)); [rewrite decide_True by done; by rewrite Hb | by rewrite decide_False by lia].
Qed.
Next Obligation.
  intros r h q k [Hn Ht Hu] [Hq _]. destruct (Ht q Hq) as (n & -> & Hn'). unfold PAGE_SIZE_4KB. lia.
Qed.
Next Obligation.
  intros r h root p v k [Hn Ht Hu] Hr [Hroot Hw] Hv Hp Hp'. unfold wp, ps_map_page, demo_services, modify. destruct (Z.ltb_spec v (2 ^ 47)) as [Hlt|Hge].
  - split; [split; cbn; [lia | done |] |].
    + intros q pg Hq. rewrite lookup_insert_ne by (intros [= <- _]; by apply Hq). by apply Hu.
    + split_and!; [done | done | |].
      * intros va Hva. unfold ps_translate. rewrite demo_map_user by done. repeat case_decide; naive_solver.
      * intros q va Hq _ Hva Hl. unfold ps_translate. rewrite demo_map_user by done. by rewrite decide_False by naive_solver.
  - split; [split; cbn; [lia | done | done] |]. split_and!; [done | done | |].
    + intros va Hva. unfold ps_translate. by rewrite demo_map_kernel by done.
    + intros q va Hq _ Hva Hl. unfold ps_translate. rewrite demo_map_kernel by done. rewrite decide_False; [done |]. intros E.
      apply page_range in Hl; [| done]. destruct Hv as [Hv|Hv]; [lia |]. rewrite E in Hl. clear - Hv Hl. unfold PAGE_SIZE_4KB in *. dlia.
Qed.
Next Obligation. done. Qed.
Next Obligation.
  intros r h fp l k _ [Hn Ht Hu] Hr [= <-] _. split; [done |]. split; [| by split]. split; [| done | done].
  assert (pages_for (Z.of_nat (length demo_elf)) = 1) as E by (by vm_compute). rewrite E in Hn. lia.
Qed.
Next Obligation. done. Qed.

Definition demo_hd : phdr := Phdr PT_LOAD 120 0x401000 4 0x1010.
Lemma demo_phdrs : phdrs demo_elf = [demo_hd].
Proof. vm_compute. reflexivity. Qed.

Lemma demo_elf_ok : elf_ok demo_elf.
Proof.
  split; rewrite ?demo_phdrs; [reflexivity | by closed_range | by closed_range | |].
  - intros h ->%list_elem_of_singleton _. split; by closed_range.
  - rewrite filter_cons, decide_True by reflexivity. repeat constructor.
Qed.

(** The file at 0x2000, and a space with the table at 0x1000. *)
Definition demo_k (n : Z) : demo := Demo n {[0x1000]} (<[(0x1000, 511) := 1]> ∅) ∅ ∅.
Definition demo_mem : memory := list_to_map (zip (seqZ 0x2000 (Z.of_nat (length demo_elf))) demo_elf).
Definition demo_loader : pst demo := Pst (demo_k 3) demo_mem (Cpu 0x200 0x1000) 0 ∅ 1 0x80 0x90.

Lemma demo_k_ok (n r : Z) : 2 <= n -> 0 <= r -> n + r < 2 ^ 34 -> demo_ok r (demo_k n).
Proof.
  intros Hn Hr Hnr. split; [cbn; lia | |].
  - intros q Hq. cbn in Hq. apply elem_of_singleton in Hq as ->. exists 1. split; [done | cbn; lia].
  - intros q pg _. apply lookup_empty.
Qed.

Lemma demo_k_root n : demo_root (demo_k n) 0x1000.
Proof. split; [cbn; by apply elem_of_singleton | reflexivity]. Qed.

Lemma demo_resident : resident demo_elf 0x2000 demo_loader.
Proof.
  split; [done |]. split; [by closed_range |]. intros i b Hi. pose proof (lookup_lt_Some _ _ _ Hi) as Hlt.
  assert (forallb (fun i => demo_mem @@ (0x2000 + Z.of_nat i) =? default 0 (demo_elf !! i)) (seq 0 (length demo_elf)) = true) as E by (vm_compute; reflexivity).
  rewrite forallb_forall in E. specialize (E i ltac:(apply in_seq; lia)). rewrite Hi in E. apply Z.eqb_eq in E. split; [exact E |].
  change (length demo_elf) with 124%nat in Hlt. change (0 <= 0x2000 + Z.of_nat i < 3 * PAGE_SIZE_4KB). unfold PAGE_SIZE_4KB. lia.
Qed.

Lemma load_elf_spec_witness :
  wp (load_elf (0x2000 + DIRECT_OFFSET)) (fun res s' => res = (0x401000, 0x402010) /\ byte_at s' 0x1000 0x401002 0xEB /\ byte_at s' 0x1000 0x402000 0) demo_loader.
Proof.
  eapply wp_mono; [apply (load_elf_spec demo_elf 0x2000 4 0 demo_loader) |].
  - apply demo_elf_ok.
  - apply demo_resident.
  - apply (demo_k_ok 3 (load_cost (phdrs demo_elf) + 4)); by closed_range.
  - apply demo_k_root.
  - done.
  - intros res s' (-> & Hl & _). specialize (Hl demo_hd ltac:(rewrite demo_phdrs; by left) eq_refl).
    split; [vm_compute; reflexivity |]. split; [apply (Hl 2); by closed_range | apply (Hl 0x1000); by closed_range].
Defined.

Lemma load_elf_rejects_witness : load_elf (0x2001 + DIRECT_OFFSET) demo_loader = Ok ((0, 0), demo_loader).
Proof.
  apply (load_elf_rejects (drop 1 demo_elf)); [| by closed_range | by vm_compute].
  destruct demo_resident as (_ & _ & Hr). split; [done |]. split; [by closed_range |]. intros i b Hi.
  rewrite lookup_drop in Hi. specialize (Hr _ _ Hi). by replace (0x2000 + Z.of_nat (1 + i)) with (0x2001 + Z.of_nat i) in Hr by lia.
Defined.

Lemma load_segment_past_witness :
  load_segment (0x2000 + DIRECT_OFFSET) (Phdr PT_LOAD 120 0x400FF0 4 0x20) 0 demo_loader = Err Fault.
Proof.
  apply (load_segment_past demo_elf 0x2000 _ 1 0).
  - apply demo_resident.
  - split; by closed_range.
  - reflexivity.
  - apply (demo_k_ok 3 (4 * pages_for 0x20 + 1)); by closed_range.
  - apply demo_k_root.
  - done.
  - intros va Hva. unfold ps_translate. cbn. unfold demo_translate. rewrite (proj2 (Z.ltb_lt va _)) by lia. cbn [m_user demo_k]. by rewrite lookup_empty.
Defined.


