(* ===== verification/Serial.v ===== *)
(** The serial port ([arch/x86_64/drivers/video/serial.c]): its initialisation,
    characters and formatted text, and the conversion of integers to text in
    memory. *)
From Stdlib Require Import Ascii String.
From S2P Require Import Prelude Interfaces CString Lfb Kprintf.
#[local] Open Scope Z_scope.
#[local] Open Scope list_scope.

(** * Operations *)

Definition COM1_PORT : Z := 0x3F8.

Definition codes (s : string) : list Z := (fun c => Z.of_N (N_of_ascii c)) <$> list_ascii_of_string s.

(** ** [itoa], on a memory of bytes *)

Definition itoa_char (i : Z) : Z := nth (Z.to_nat i) (codes "zyxwvutsrqponmlkjihgfedcba9876543210123456789abcdefghijklmnopqrstuvwxyz") 0.

(** The digits, the lowest first; the end of them. C divides towards zero. *)
Fixpoint itoa_digits (fuel : nat) (value base ptr : Z) (m : memory) : option (memory * Z) :=
  match fuel with
  | O => None
  | S fuel' =>
      let m := <[ptr := itoa_char (35 + Z.rem value base)]> m in
      let value := Z.quot value base in
      if truthy value then itoa_digits fuel' value base (ptr + 1) m else Some (m, ptr + 1)
  end.

Fixpoint itoa_reverse (fuel : nat) (low ptr : Z) (m : memory) : option memory :=
  if low <? ptr then
    match fuel with
    | O => None
    | S fuel' =>
        let tmp := m @@ low in
        itoa_reverse fuel' (low + 1) (ptr - 1) (<[ptr := tmp]> (<[low := m @@ ptr]> m))
    end
  else Some m.

(** An [int] has at most 32 digits. *)
Definition itoa (value str base : Z) (m : memory) : option (memory * Z) :=
  if (base <? 2) || (36 <? base) then Some (<[str := 0]> m, str)
  else
    let sign := (value <? 0) && (base =? 10) in
    let m := if sign then <[str := 45]> m else m in
    let low := if sign then str + 1 else str in
    '(m, ptr) ← itoa_digits 32 value base low m;
    let m := <[ptr := 0]> m in
    let ptr := ptr - 1 in
    m ← itoa_reverse 16 low ptr m;
    Some (m, str).

(** ** The port *)

Section Port.
Context {St : Type} `{Ports St} (fuel : nat).

Definition serial_init : M St unit :=
  outb (COM1_PORT + 1) 0x00;;
  outb (COM1_PORT + 3) 0x80;;
  outb (COM1_PORT + 0) 0x03;;
  outb (COM1_PORT + 1) 0x00;;
  outb (COM1_PORT + 3) 0x03;;
  outb (COM1_PORT + 2) 0xC7;;
  outb (COM1_PORT + 4) 0x0B.

(** The wait for an empty transmitter. *)
Fixpoint serial_wait (fuel : nat) : M St unit :=
  lsr ← inb (COM1_PORT + 5);
  if Z.land lsr 0x20 =? 0 then match fuel with O => fail Hang | S fuel' => serial_wait fuel' end else mret tt.

Definition serial_putchar (a : Z) : M St unit := serial_wait fuel;; outb COM1_PORT (u8 a).

(** The characters of [buf], the last first. *)
Fixpoint put_reversed (l : list Z) : M St unit :=
  match l with [] => mret tt | c :: l' => put_reversed l';; serial_putchar c end.

Definition serial_put_number (num base : Z) : M St unit :=
  if num =? 0 then serial_putchar 48 else put_reversed (num_digits 32 num base).

(** The case of [%llx], with its own loop: 16 digits of base 16. *)
Definition serial_put_u64 (val : Z) : M St unit :=
  if val =? 0 then serial_putchar 48 else put_reversed (num_digits 16 val 16).

(** An argument that is read as another integer type: the registers are as wide as
    the widest, and the low half is read. *)
Definition arg_int (a : arg) : option Z :=
  match a with AStr _ => None | AInt n | AU32 n | AU64 n => Some (s32 n) end.
Definition arg_u32 (a : arg) : option Z :=
  match a with AStr _ => None | AInt n | AU32 n | AU64 n => Some (u32 n) end.
Definition arg_u64 (a : arg) : option Z :=
  match a with AU64 n => Some (u64 n) | _ => None end.

Definition serial_dec (i : Z) : M St unit :=
  if i <? 0 then serial_putchar 45;; serial_put_number (u32 (s32 (- i))) 10 else serial_put_number (u32 i) 10.

(** The loop over the format; [print] is the function itself, called with a format
    and no argument. *)
Fixpoint serial_print_loop (print : list Z -> M St unit) (p : list Z) (args : list arg) : M St unit :=
  match p with
  | [] => mret tt
  | c :: p' =>
      if negb (c =? 37) then serial_putchar c;; serial_print_loop print p' args
      else
        match p' with
        | [] => fail Fault
        | d :: p2 =>
            if d =? 115 then
              match args with AStr s :: args' => print s;; serial_print_loop print p2 args' | _ => fail Fault end
            else if d =? 100 then
              match args with
              | a :: args' => match arg_int a with Some i => serial_dec i;; serial_print_loop print p2 args' | None => fail Fault end
              | [] => fail Fault
              end
            else if (d =? 120) || (d =? 112) then
              print (codes "0x");;
              match args with
              | a :: args' => match arg_u32 a with Some x => serial_put_number x 16;; serial_print_loop print p2 args' | None => fail Fault end
              | [] => fail Fault
              end
            else if d =? 108 then
              match p2 with
              | e :: f :: p3 =>
                  if (e =? 108) && (f =? 120) then
                    print (codes "0x");;
                    match args with
                    | a :: args' => match arg_u64 a with Some x => serial_put_u64 x;; serial_print_loop print p3 args' | None => fail Fault end
                    | [] => fail Fault
                    end
                  else serial_print_loop print p2 args
              | _ => serial_print_loop print p2 args
              end
            else if d =? 37 then serial_putchar 37;; serial_print_loop print p2 args
            else serial_print_loop print p2 args
        end
  end.

(** A call inside the call gives no argument, so that a call inside that one is
    followed by a fault, and the nesting ends. *)
Definition serial_print_plain (format : list Z) : M St unit := serial_print_loop (fun _ => fail Fault) format [].
Definition serial_print (format : list Z) (args : list arg) : M St unit := serial_print_loop serial_print_plain format args.
End Port.

(** * Specification *)

(** The text that a format and arguments denote, [sub] for a string argument: it
    is a format too. *)
Fixpoint text_loop (sub : list Z -> option (list Z)) (p : list Z) (args : list arg) : option (list Z) :=
  match p with
  | [] => Some []
  | c :: p' =>
      if negb (c =? 37) then put_text [c] (text_loop sub p' args)
      else
        match p' with
        | [] => None
        | d :: p2 =>
            if d =? 115 then
              match args with AStr s :: args' => t ← sub s; put_text t (text_loop sub p2 args') | _ => None end
            else if d =? 100 then
              match args with a :: args' => i ← arg_int a; put_text (dec i) (text_loop sub p2 args') | [] => None end
            else if (d =? 120) || (d =? 112) then
              match args with a :: args' => x ← arg_u32 a; put_text (hex x) (text_loop sub p2 args') | [] => None end
            else if d =? 108 then
              match p2 with
              | e :: f :: p3 =>
                  if (e =? 108) && (f =? 120)
                  then match args with a :: args' => x ← arg_u64 a; put_text (hex x) (text_loop sub p3 args') | [] => None end
                  else text_loop sub p2 args
              | _ => text_loop sub p2 args
              end
            else if d =? 37 then put_text [37] (text_loop sub p2 args)
            else text_loop sub p2 args
        end
  end.
Definition text_plain (format : list Z) : option (list Z) := text_loop (fun _ => None) format [].
Definition serial_text (format : list Z) (args : list arg) : option (list Z) := text_loop text_plain format args.

(** The arguments that both printers read alike: strings without [%], numbers in
    the range of their types, and pointers, which [%p] prints, below 2^32. *)
Definition plain (s : list Z) : Prop := Forall (fun c => c <> 37) s.
Fixpoint pointer_ok (p : list Z) (args : list arg) : Prop :=
  match p, args with
  | c :: p', _ =>
      if negb (c =? 37) then pointer_ok p' args
      else
        match p' with
        | [] => True
        | d :: p2 =>
            if (d =? 115) || (d =? 100) || (d =? 120) then match args with _ :: args' => pointer_ok p2 args' | [] => True end
            else if d =? 112 then match args with AU64 n :: args' => n < 2 ^ 32 /\ pointer_ok p2 args' | _ => True end
            else if d =? 108 then
              match p2 with
              | e :: f :: p3 =>
                  if (e =? 108) && (f =? 120) then match args with _ :: args' => pointer_ok p3 args' | [] => True end
                  else pointer_ok p2 args
              | _ => pointer_ok p2 args
              end
            else pointer_ok p2 args
        end
  | [], _ => True
  end.
Definition arg_plain (a : arg) : Prop := arg_ok a /\ match a with AStr s => plain s | _ => True end.

(** The transmitter: [tx_busy n l s] says that it has sent [l] and is free within
    [n] looks at the status, [tx_free l s] that the last look found it free. *)
Class Uart (St : Type) `{Ports St} : Type := {
  tx_busy : nat -> list Z -> St -> Prop;
  tx_free : list Z -> St -> Prop;
  tx_patience : nat;
  wp_inb_lsr n l s : tx_busy n l s ->
    wp (inb (COM1_PORT + 5)) (fun x s' => (Z.testbit x 5 = true /\ tx_free l s') \/ (Z.testbit x 5 = false /\ exists n', n = S n' /\ tx_busy n' l s')) s;
  wp_outb_thr l c s : tx_free l s -> 0 <= c < 2 ^ 8 ->
    wp (outb COM1_PORT c) (fun _ s' => tx_busy tx_patience (l ++ [c]) s') s;
}.

(** The registers of the chip: a divisor behind bit 7 of the line control, and a
    transmitter that is busy for some looks after each character. *)
Record uart : Type := UartSim { ier : Z; dll : Z; dlm : Z; fcr : Z; lcr : Z; mcr : Z; busy : nat; sent : list Z }.

Definition uart_out (p x : Z) (s : uart) : uart :=
  let dlab := Z.testbit (lcr s) 7 in
  if p =? COM1_PORT then
    if dlab then UartSim (ier s) x (dlm s) (fcr s) (lcr s) (mcr s) (busy s) (sent s)
    else if decide (busy s = O) then UartSim (ier s) (dll s) (dlm s) (fcr s) (lcr s) (mcr s) 3 (sent s ++ [x]) else s
  else if p =? COM1_PORT + 1 then
    if dlab then UartSim (ier s) (dll s) x (fcr s) (lcr s) (mcr s) (busy s) (sent s)
    else UartSim x (dll s) (dlm s) (fcr s) (lcr s) (mcr s) (busy s) (sent s)
  else if p =? COM1_PORT + 2 then UartSim (ier s) (dll s) (dlm s) x (lcr s) (mcr s) (busy s) (sent s)
  else if p =? COM1_PORT + 3 then UartSim (ier s) (dll s) (dlm s) (fcr s) x (mcr s) (busy s) (sent s)
  else if p =? COM1_PORT + 4 then UartSim (ier s) (dll s) (dlm s) (fcr s) (lcr s) x (busy s) (sent s)
  else s.

#[export] Instance uart_ports : Ports uart := {
  outb p x s := Ok (tt, uart_out p x s);
  inb p s :=
    if p =? COM1_PORT + 5 then
      Ok (match busy s with O => (0x60, s) | S n => (0, UartSim (ier s) (dll s) (dlm s) (fcr s) (lcr s) (mcr s) n (sent s)) end)
    else Ok (0, s);
  outl p x := mret tt;
  inl p := mret 0;
  read_tsc := mret 0;
}.

#[export, refine] Instance uart_laws : Uart uart := {|
  tx_busy n l s := (busy s <= n)%nat /\ sent s = l /\ Z.testbit (lcr s) 7 = false;
  tx_free l s := busy s = O /\ sent s = l /\ Z.testbit (lcr s) 7 = false;
  tx_patience := 3;
|}.
Proof.
  - intros n l s (Hb & Hl & Hd). unfold wp, inb. cbn -[Z.testbit]. destruct (busy s) as [|k] eqn:E; [by left |].
    right. split; [done |]. destruct n as [|n]; [lia |]. exists n. cbn -[Z.testbit]. split_and!; [done | lia | done | done].
  - intros l c s (Hb & Hl & Hd) Hc. unfold wp, outb. cbn -[Z.testbit uart_out]. unfold uart_out. cbn -[Z.testbit]. rewrite Hd. cbn -[Z.testbit]. rewrite decide_True by done. cbn -[Z.testbit].
    split_and!; [done | by rewrite Hl | done].
Defined.

Lemma wp_outb_uart p x (Q : unit -> uart -> Prop) s : Q tt (uart_out p x s) -> wp (outb p x) Q s.
Proof. done. Qed.

(** The line: 115200 / 3 baud, eight bits, no parity, one stop bit, FIFOs on,
    no interrupt. *)
Definition line_ready (s : uart) : Prop :=
  dlm s * 2 ^ 8 + dll s = 3 /\ lcr s = 0x03 /\ ier s = 0 /\ Z.testbit (fcr s) 0 = true /\ Z.land (mcr s) 0x03 = 0x03.

(** * Lemmas *)

(** ** Digits *)

Lemma num_digits_fuel f g num base : 2 <= base -> 0 <= num < base ^ Z.of_nat f -> (f <= g)%nat -> num_digits g num base = num_digits f num base.
Proof.
  intros Hb. revert g num. induction f as [|f IH]; intros [|g] num Hn Hfg; try lia; cbn [num_digits].
  - done.
  - rewrite Z.pow_0_r in Hn. destruct (Z.ltb_spec 0 num); [lia | done].
  - destruct (Z.ltb_spec 0 num); [| done]. f_equal. apply IH; [| lia].
    rewrite Nat2Z.inj_succ, Z.pow_succ_r in Hn by lia. split; [apply Z.div_pos; lia | apply Z.div_lt_upper_bound; lia].
Qed.

Lemma put_number_digits f num base : 2 <= base -> 0 <= num < base ^ Z.of_nat f -> (f <= 64)%nat -> num <> 0 ->
  rev (num_digits f num base) = local_putnum 255 num base.
Proof.
  intros Hb Hn Hf H0. unfold local_putnum. destruct (Z.eqb_spec num 0); [done |]. cbn [andb].
  rewrite take_ge by (rewrite length_rev; pose proof (num_digits_length 64 num base); lia). f_equal. symmetry. by apply num_digits_fuel.
Qed.

Lemma digit_byte d : 0 <= digit d < 2 ^ 8.
Proof.
  pose proof (nth_in_or_default (Z.to_nat d) [48; 49; 50; 51; 52; 53; 54; 55; 56; 57; 97; 98; 99; 100; 101; 102] 0) as Hin.
  unfold digit. set (x := nth _ _ _) in *. clearbody x. destruct Hin as [Hin|Hin]; simpl in Hin; lia.
Qed.

Lemma num_digits_bytes f num base : Forall (fun c => 0 <= c < 2 ^ 8) (num_digits f num base).
Proof. revert num. induction f as [|f IH]; intros num; cbn [num_digits]; [done |]. case_match; [| done]. constructor; [apply digit_byte | apply IH]. Qed.

(** ** The port *)

Section port_lemmas.
Context {St : Type} `{Uart St} (fuel : nat).
Hypothesis enough : (tx_patience <= fuel)%nat.
Implicit Types (s : St) (l t : list Z).

(** The transmitter has sent [l] and will be free. *)
Definition sending l s : Prop := tx_busy tx_patience l s.

Lemma wp_serial_wait n k l s (Q : unit -> St -> Prop) : tx_busy n l s -> (n <= k)%nat -> (forall s', tx_free l s' -> Q tt s') -> wp (serial_wait k) Q s.
Proof.
  intros Hs Hk HQ. revert n s Hs Hk. induction k as [|k IH]; intros n s Hs Hk; cbn [serial_wait]; apply wp_bind; (eapply wp_mono; [by apply (wp_inb_lsr n l) |]); intros x s'.
  all: assert ((Z.land x 0x20 =? 0) = negb (Z.testbit x 5)) as -> by (rewrite <- (land_pow2_testbit x 5) by lia; unfold truthy; by rewrite negb_involutive).
  all: intros [[-> Hf]|(-> & n' & -> & Hf)]; cbn [negb]; [by apply wp_ret, HQ |].
  - lia.
  - apply (IH n'); [done | lia].
Qed.

Lemma wp_serial_putchar l a s (Q : unit -> St -> Prop) : sending l s -> 0 <= a < 2 ^ 8 -> (forall s', sending (l ++ [a]) s' -> Q tt s') -> wp (serial_putchar fuel a) Q s.
Proof.
  intros Hs Ha HQ. apply wp_bind, (wp_serial_wait tx_patience fuel l); [done | done |]. intros s1 H1.
  rewrite u8_small by done. eapply wp_mono; [by apply (wp_outb_thr l) |]. intros [] s2. apply HQ.
Qed.

Lemma wp_put_reversed t l s (Q : unit -> St -> Prop) : sending l s -> Forall (fun c => 0 <= c < 2 ^ 8) t ->
  (forall s', sending (l ++ rev t) s' -> Q tt s') -> wp (put_reversed fuel t) Q s.
Proof.
  revert s Q. induction t as [|c t IH]; intros s Q Hs Ht HQ; cbn [put_reversed rev] in *.
  - apply wp_ret, HQ. by rewrite app_nil_r.
  - apply Forall_cons in Ht as [Hc Ht]. apply wp_bind, IH; [done | done |]. intros s1 H1.
    apply (wp_serial_putchar (l ++ rev t)); [done | done |]. rewrite <- app_assoc. exact HQ.
Qed.

Lemma wp_serial_put_number num base l s (Q : unit -> St -> Prop) : sending l s -> base = 10 \/ base = 16 -> 0 <= num < 2 ^ 32 ->
  (forall s', sending (l ++ local_putnum 255 num base) s' -> Q tt s') -> wp (serial_put_number fuel num base) Q s.
Proof.
  intros Hs Hb Hn HQ. unfold serial_put_number. destruct (Z.eqb_spec num 0) as [->|Hnz].
  - apply (wp_serial_putchar l); [done | done | exact HQ].
  - apply (wp_put_reversed _ l); [done | apply num_digits_bytes |]. rewrite put_number_digits; [exact HQ | lia | | lia | done].
    split; [lia |]. apply Z.lt_le_trans with (2 ^ 32); [lia |]. apply Z.pow_le_mono_l. lia.
Qed.

Lemma wp_serial_put_u64 num l s (Q : unit -> St -> Prop) : sending l s -> 0 <= num < 2 ^ 64 ->
  (forall s', sending (l ++ local_putnum 255 num 16) s' -> Q tt s') -> wp (serial_put_u64 fuel num) Q s.
Proof.
  intros Hs Hn HQ. unfold serial_put_u64. destruct (Z.eqb_spec num 0) as [->|Hnz].
  - apply (wp_serial_putchar l); [done | done | exact HQ].
  - apply (wp_put_reversed _ l); [done | apply num_digits_bytes |]. rewrite put_number_digits; [exact HQ | lia | | lia | done]. exact Hn.
Qed.

Lemma wp_serial_dec i l s (Q : unit -> St -> Prop) : sending l s -> - 2 ^ 31 <= i < 2 ^ 31 ->
  (forall s', sending (l ++ dec i) s' -> Q tt s') -> wp (serial_dec fuel i) Q s.
Proof.
  intros Hs Hi HQ. unfold serial_dec, dec in *. destruct (Z.ltb_spec i 0) as [Hneg|Hneg].
  - apply wp_bind, (wp_serial_putchar l); [done | done |]. intros s1 H1.
    assert (u32 (s32 (- i)) = - i) as -> by (unfold u32, s32; clear - Hi Hneg; dlia).
    apply (wp_serial_put_number _ _ (l ++ [45])); [done | by left | lia |]. rewrite <- app_assoc. exact HQ.
  - rewrite u32_small by lia. apply (wp_serial_put_number _ _ l); [done | by left | lia | exact HQ].
Qed.

Definition chars (t : list Z) : Prop := Forall (fun c => 0 <= c < 2 ^ 8) t.
Definition arg_chars (a : arg) : Prop := match a with AStr t => chars t | _ => True end.

Lemma arg_int_range a i : arg_int a = Some i -> - 2 ^ 31 <= i < 2 ^ 31.
Proof. assert (forall z, - 2 ^ 31 <= s32 z < 2 ^ 31) as Hr by (intros z; unfold s32; dlia). destruct a; intros [= <-]; apply Hr. Qed.
Lemma arg_u32_range a x : arg_u32 a = Some x -> 0 <= x < 2 ^ 32.
Proof. destruct a; intros [= <-]; apply u32_range. Qed.
Lemma arg_u64_range a x : arg_u64 a = Some x -> 0 <= x < 2 ^ 64.
Proof. destruct a; intros [= <-]. apply u64_range. Qed.

Lemma text_hex l x : (l ++ codes "0x") ++ local_putnum 255 x 16 = l ++ hex x.
Proof. by rewrite <- app_assoc. Qed.

Lemma wp_serial_print_loop (print : list Z -> M St unit) (sub : list Z -> option (list Z)) :
  (forall t out l s, chars t -> sub t = Some out -> sending l s -> wp (print t) (fun _ s' => sending (l ++ out) s') s) ->
  forall n p args l s out, (length p <= n)%nat -> (args <> [] -> sub (codes "0x") = Some (codes "0x")) -> text_loop sub p args = Some out ->
    chars p -> Forall arg_chars args -> sending l s ->
    wp (serial_print_loop fuel print p args) (fun _ s' => sending (l ++ out) s') s.
Proof.
  intros Hsub. induction n as [|n IH]; intros [|c p'] args l s out Hn H0x Ht Hp Hargs Hs; try (simpl in Hn; lia).
  1, 2: injection Ht as <-; apply wp_ret; by rewrite app_nil_r.
  cbn [text_loop serial_print_loop] in *. simpl length in Hn. apply Forall_cons in Hp as [Hc Hp].
  assert (forall q args2 t out, put_text t (text_loop sub q args2) = Some out -> (length q <= n)%nat -> (args2 <> [] -> args <> []) ->
    chars q -> Forall arg_chars args2 -> forall s2, sending (l ++ t) s2 -> wp (serial_print_loop fuel print q args2) (fun _ s' => sending (l ++ out) s') s2) as Hgo.
  { intros q args2 t out2 (out' & Hr & ->)%put_text_inv Hq Hne Hcq Hargs2 s2 H2. rewrite app_assoc. apply IH; auto. }
  assert (forall (k : Z -> M St unit) m x t, args <> [] -> (forall s1 Q, sending (l ++ codes "0x") s1 -> (forall s', sending ((l ++ codes "0x") ++ t) s' -> Q tt s') -> wp (k x) Q s1) ->
    (forall s2, sending (l ++ codes "0x" ++ t) s2 -> wp m (fun (_ : unit) s' => sending (l ++ out) s') s2) ->
    wp (print (codes "0x");; k x;; m) (fun _ s' => sending (l ++ out) s') s) as Hhex.
  { intros k m x t Hne Hk Hm. apply wp_bind. eapply wp_mono; [apply (Hsub _ (codes "0x") l); [by repeat constructor | by apply H0x | done] |].
    intros [] s1 H1. apply wp_bind, Hk; [done |]. intros s2 H2. apply Hm. by rewrite app_assoc. }
  destruct (negb (c =? 37)) eqn:Hc37.
  { apply wp_bind, (wp_serial_putchar l); [done | done |]. apply (Hgo p' args [c] out); done || lia. }
  destruct p' as [|d p2]; [done |]. simpl length in Hn. apply Forall_cons in Hp as [Hd Hp].
  destruct (d =? 115).
  { destruct args as [|[t| | |] args]; try done. apply Forall_cons in Hargs as [Ha Hargs]. apply bind_Some in Ht as (t' & Hst & Ht).
    apply wp_bind. eapply wp_mono; [by apply (Hsub _ t' l) |]. intros [] s1. apply (Hgo p2 args t'); done || lia. }
  destruct (d =? 100).
  { destruct args as [|a args]; [done |]. apply Forall_cons in Hargs as [Ha Hargs]. apply bind_Some in Ht as (i & Hi & Ht). rewrite Hi.
    apply wp_bind, (wp_serial_dec i l); [done | by eapply arg_int_range |]. apply (Hgo p2 args (dec i)); done || lia. }
  destruct ((d =? 120) || (d =? 112)).
  { destruct args as [|a args]; [done |]. apply Forall_cons in Hargs as [Ha Hargs]. apply bind_Some in Ht as (x & Hx & Ht). rewrite Hx.
    apply (Hhex (fun x => serial_put_number fuel x 16) _ x (local_putnum 255 x 16)); [done | |].
    - intros s1 Q H1. apply wp_serial_put_number; [done | by right | by eapply arg_u32_range].
    - apply (Hgo p2 args (hex x)); done || lia. }
  destruct (d =? 108).
  { destruct p2 as [|e [|f p3]]; [apply IH; simpl in *; done || lia.. |].
    destruct ((e =? 108) && (f =? 120)); [| apply IH; simpl in *; done || lia].
    destruct args as [|a args]; [done |]. apply Forall_cons in Hargs as [Ha Hargs]. apply bind_Some in Ht as (x & Hx & Ht). rewrite Hx.
    apply Forall_cons in Hp as [_ Hp]. apply Forall_cons in Hp as [_ Hp]. simpl in Hn.
    apply (Hhex (fun x => serial_put_u64 fuel x) _ x (local_putnum 255 x 16)); [done | |].
    - intros s1 Q H1. apply wp_serial_put_u64; [done | by eapply arg_u64_range].
    - apply (Hgo p3 args (hex x)); done || lia. }
  destruct (d =? 37); [| apply IH; simpl in *; done || lia].
  apply wp_bind, (wp_serial_putchar l); [done | done |]. apply (Hgo p2 args [37]); done || lia.
Qed.

Lemma wp_serial_print p args l s out : serial_text p args = Some out -> chars p -> Forall arg_chars args -> sending l s ->
  wp (serial_print fuel p args) (fun _ s' => sending (l ++ out) s') s.
Proof.
  intros Ht Hp Hargs Hs. apply (wp_serial_print_loop _ text_plain) with (n := length p); try done.
  intros t out2 l2 s2 Hct Ht2 Hs2. by apply (wp_serial_print_loop _ (fun _ => None)) with (n := length t).
Qed.
End port_lemmas.

(** ** The two printers *)

Lemma text_loop_plain sub t : plain t -> text_loop sub t [] = Some t.
Proof.
  induction t as [|c t IH]; [done |]. intros [Hc Ht]%Forall_cons. cbn [text_loop].
  rewrite (proj2 (Z.eqb_neq c 37)) by done. cbn [negb]. by rewrite IH.
Qed.

Lemma text_render n : forall p args, (length p <= n)%nat -> Forall arg_plain args -> pointer_ok p args -> text_loop text_plain p args = render p args \/ render p args = None.
Proof.
  induction n as [|n IH]; intros [|c p'] args Hn Ha Hp; try (simpl in Hn; lia); try by left.
  cbn [text_loop render pointer_ok] in *. simpl in Hn.
  assert (forall t q args', (length q <= n)%nat -> Forall arg_plain args' -> pointer_ok q args' ->
    put_text t (text_loop text_plain q args') = put_text t (render q args') \/ put_text t (render q args') = None) as Hgo.
  { intros t q args' Hq Ha' Hp'. destruct (IH q args' Hq Ha' Hp') as [-> | ->]; [by left | by right]. }
  destruct (negb (c =? 37)); [apply Hgo; done || lia |].
  destruct p' as [|d p2]; [by left |]. simpl in Hn.
  destruct (Z.eqb_spec d 115) as [->|]; cbn [orb] in *.
  { destruct args as [|[t| | |] args]; try by right. apply Forall_cons in Ha as [[_ Hpl] Ha]. replace (text_plain t) with (Some t) by (symmetry; by apply text_loop_plain).
    cbn [mbind option_bind]. apply Hgo; done || lia. }
  destruct (Z.eqb_spec d 100) as [->|]; cbn [orb] in *.
  { destruct args as [|[|i| |] args]; try by right. apply Forall_cons in Ha as [[Hr _] Ha]. cbn [arg_int mbind option_bind]. cbn in Hr.
    rewrite s32_small by lia. apply Hgo; done || lia. }
  destruct (Z.eqb_spec d 120) as [->|]; cbn [orb] in *.
  { destruct args as [|[| |i|] args]; try by right. apply Forall_cons in Ha as [[Hr _] Ha]. cbn [arg_u32 mbind option_bind]. cbn in Hr.
    rewrite u32_small by lia. apply Hgo; done || lia. }
  destruct (Z.eqb_spec d 112) as [->|]; cbn [orb Z.eqb Pos.eqb] in *.
  { destruct args as [|[| | |i] args]; try by right. apply Forall_cons in Ha as [[Hr _] Ha]. destruct Hp as [Hi Hp]. cbn [arg_u32 mbind option_bind]. cbn in Hr.
    rewrite u32_small by lia. apply Hgo; done || lia. }
  destruct (d =? 108).
  { destruct p2 as [|e [|f p3]]; [by apply IH; simpl in *; done || lia.. |].
    destruct ((e =? 108) && (f =? 120)); [| apply IH; simpl in *; done || lia].
    destruct args as [|[| | |i] args]; try by right. apply Forall_cons in Ha as [[Hr _] Ha]. cbn [arg_u64 mbind option_bind]. cbn in Hr.
    rewrite u64_small by lia. simpl in Hn. apply Hgo; done || lia. }
  destruct (d =? 37); [apply Hgo; done || lia | apply IH; done || lia].
Qed.

(** ** [itoa] *)

Definition digit36 (d : Z) : Z := nth (Z.to_nat d) (codes "0123456789abcdefghijklmnopqrstuvwxyz") 0.
Fixpoint digits36 (fuel : nat) (n base : Z) : list Z :=
  match fuel with
  | O => []
  | S fuel' => digit36 (n mod base) :: (if n / base =? 0 then [] else digits36 fuel' (n / base) base)
  end.

Lemma digit36_spec d : 0 <= d < 36 -> digit_value (digit36 d) = d /\ digit36 d <> 0 /\ itoa_char (35 + d) = digit36 d /\ itoa_char (35 - d) = digit36 d.
Proof.
  intros Hd. assert (forallb (fun i => let d := Z.of_nat i in (digit_value (digit36 d) =? d) && negb (digit36 d =? 0) && (itoa_char (35 + d) =? digit36 d) && (itoa_char (35 - d) =? digit36 d)) (seq 0 36) = true) as H by (vm_compute; reflexivity).
  apply (forall_Z_lt 36 (fun d => (digit_value (digit36 d) =? d) && negb (digit36 d =? 0) && (itoa_char (35 + d) =? digit36 d) && (itoa_char (35 - d) =? digit36 d))) with (k := d) in H; [| done].
  apply andb_true_iff in H as [[[?%Z.eqb_eq ?%negb_true_iff%Z.eqb_neq]%andb_true_iff ?%Z.eqb_eq]%andb_true_iff ?%Z.eqb_eq]. done.
Qed.

(** The digit of a number of either sign. *)
Lemma itoa_char_rem v base : 2 <= base <= 36 -> itoa_char (35 + Z.rem v base) = digit36 (Z.abs v mod base).
Proof.
  intros Hb. rewrite <- Z.rem_mod_nonneg, Z.rem_abs_l by lia. pose proof (Z.rem_bound_abs v base ltac:(lia)) as Hr.
  destruct (Z.abs_spec (Z.rem v base)) as [[Hp ->]|[Hp Ha]]; [apply digit36_spec; lia |].
  replace (35 + Z.rem v base) with (35 - Z.abs (Z.rem v base)) by lia. apply digit36_spec. lia.
Qed.

Lemma digits36_value fuel n base : 2 <= base <= 36 -> 0 <= n < base ^ Z.of_nat fuel -> value base (rev (digits36 fuel n base)) = n.
Proof.
  intros Hb. unfold value. revert n. induction fuel as [|fuel IH]; intros n Hn; [simpl in *; lia |]. cbn [digits36 rev].
  rewrite fold_left_app. cbn [fold_left]. assert (0 <= n mod base < 36) as Hm by (pose proof (Z.mod_pos_bound n base); lia).
  rewrite (proj1 (digit36_spec _ Hm)).
  pose proof (Z_div_mod_eq_full n base) as Hdm. rewrite Nat2Z.inj_succ, Z.pow_succ_r in Hn by lia.
  destruct (Z.eqb_spec (n / base) 0) as [E|_]; [simpl; lia |]. rewrite IH; [lia |].
  split; [apply Z.div_pos; lia | apply Z.div_lt_upper_bound; lia].
Qed.

Lemma digit36_digit base d : base <= 36 -> 0 <= d < base -> is_digit base (digit36 d).
Proof.
  intros Hb Hd. unfold is_digit. destruct (digit36_spec d ltac:(lia)) as [-> _]. split; [| lia].
  assert (forallb (fun i => let d := Z.of_nat i in ((48 <=? digit36 d) && (digit36 d <=? 57)) || ((97 <=? digit36 d) && (digit36 d <=? 122))) (seq 0 36) = true) as H by (vm_compute; reflexivity).
  apply (forall_Z_lt 36 (fun d => ((48 <=? digit36 d) && (digit36 d <=? 57)) || ((97 <=? digit36 d) && (digit36 d <=? 122)))) with (k := d) in H; [| lia].
  by rewrite orb_true_iff, !andb_true_iff, !Z.leb_le in H.
Qed.

(** The digits are those of the numeral: the highest is zero only for zero. *)
Lemma digits36_numeral fuel n base : 2 <= base <= 36 -> 0 <= n < base ^ Z.of_nat fuel -> (0 < fuel)%nat -> numeral base n (rev (digits36 fuel n base)).
Proof.
  intros Hb Hn Hf. split; [| split; [by apply digits36_value |]].
  - apply Forall_rev. clear Hn Hf. revert n. induction fuel as [|fuel IH]; intros n; cbn [digits36]; [done |]. constructor; [| case_match; [done | apply IH]].
    apply digit36_digit; [lia |]. apply Z.mod_pos_bound. lia.
  - revert n Hn Hf. induction fuel as [|fuel IH]; intros n Hn Hf; [lia |]. cbn [digits36 rev]. rewrite Nat2Z.inj_succ, Z.pow_succ_r in Hn by lia.
    destruct (Z.eqb_spec (n / base) 0) as [E|E]; [split; [done |]; by intros [= ->] |].
    assert (0 <= n / base < base ^ Z.of_nat fuel) as Hq by (split; [apply Z.div_pos; lia | apply Z.div_lt_upper_bound; lia]).
    destruct fuel as [|f]; [simpl in Hq; lia |]. destruct (IH (n / base) Hq ltac:(lia)) as [Hne Hz].
    pose proof (digits36_value (S f) (n / base) base Hb Hq) as Hv. destruct (rev (digits36 (S f) (n / base) base)) as [|c l] eqn:El; [done |].
    split; [done |]. intros Hc. specialize (Hz Hc). rewrite Hz in Hv. exfalso. apply E. by rewrite <- Hv.
Qed.

Lemma digits36_nonzero fuel n base : 2 <= base <= 36 -> Forall (fun c => c <> 0) (digits36 fuel n base).
Proof.
  intros Hb. revert n. induction fuel as [|fuel IH]; intros n; cbn [digits36]; [done |]. constructor; [| case_match; [done | apply IH]].
  apply digit36_spec. pose proof (Z.mod_pos_bound n base). lia.
Qed.

Lemma digits36_length fuel n base : (length (digits36 fuel n base) <= fuel)%nat.
Proof. revert n. induction fuel as [|fuel IH]; intros n; cbn [digits36]; [done |]. case_match; simpl; [|specialize (IH (n / base))]; lia. Qed.

Lemma itoa_digits_spec fuel : forall v base ptr m, 2 <= base <= 36 -> Z.abs v < base ^ Z.of_nat fuel -> (0 < fuel)%nat ->
  let D := digits36 fuel (Z.abs v) base in
  exists m', itoa_digits fuel v base ptr m = Some (m', ptr + Z.of_nat (length D)) /\ bytes m' ptr (length D) = D /\
    only_bytes ptr (ptr + Z.of_nat (length D)) m m'.
Proof.
  induction fuel as [|fuel IH]; intros v base ptr m Hb Hv Hf; [lia |]. cbn [itoa_digits digits36]. cbv zeta.
  rewrite itoa_char_rem by done. set (d := digit36 _). set (m1 := <[ptr := d]> m).
  assert (Z.abs v / base = Z.abs (Z.quot v base)) as Hq by (rewrite <- Z.quot_div_nonneg by lia; rewrite <- Z.quot_abs by lia; f_equal; lia).
  assert (m1 @@ ptr = d) as Hd by apply rd_insert_eq.
  assert (forall x, x <> ptr -> m1 @@ x = m @@ x) as Hx by (intros x Hne; by apply rd_insert_ne). clearbody m1 d.
  rewrite Hq. destruct (Z.eqb_spec (Z.abs (Z.quot v base)) 0) as [E|E].
  - rewrite (proj2 (truthy_false _)) by lia. exists m1. split; [f_equal; f_equal; simpl; lia |]. split.
    + cbn [length]. rewrite bytes_S. by rewrite Hd.
    + intros x Hr. apply Hx. simpl in Hr. lia.
  - rewrite (proj2 (truthy_true _)) by lia.
    assert (Z.abs (Z.quot v base) < base ^ Z.of_nat fuel) as Hlt.
    { rewrite <- Hq. rewrite Nat2Z.inj_succ, Z.pow_succ_r in Hv by lia. apply Z.div_lt_upper_bound; lia. }
    destruct fuel as [|f]; [simpl in Hlt; lia |].
    destruct (IH (Z.quot v base) base (ptr + 1) m1 Hb Hlt ltac:(lia)) as (m' & -> & HD & Ho). exists m'.
    set (D := digits36 (S f) (Z.abs (Z.quot v base)) base) in *. cbn [length]. split; [f_equal; f_equal; lia |]. split.
    + rewrite bytes_S, HD, Ho, Hd by lia. done.
    + intros x Hr. rewrite Ho, Hx by lia. done.
Qed.

Lemma itoa_reverse_spec fuel : forall low ptr m, ptr - low < 2 * Z.of_nat fuel + 1 ->
  exists m', itoa_reverse fuel low ptr m = Some m' /\
    forall x, m' @@ x = if decide (low <= x <= ptr) then m @@ (low + ptr - x) else m @@ x.
Proof.
  induction fuel as [|fuel IH]; intros low ptr m Hf; cbn [itoa_reverse].
  - rewrite (proj2 (Z.ltb_ge _ _)) by lia. exists m. split; [done |]. intros x. case_decide; [f_equal; lia | done].
  - destruct (Z.ltb_spec low ptr) as [Hlt|Hge].
    + destruct (IH (low + 1) (ptr - 1) (<[ptr := m @@ low]> (<[low := m @@ ptr]> m)) ltac:(lia)) as (m' & -> & Hm'). exists m'. split; [done |].
      intros x. rewrite Hm', !rd_insert. repeat case_decide; subst; try lia; try done; f_equal; lia.
    + exists m. split; [done |]. intros x. case_decide; [f_equal; lia | done].
Qed.

Lemma bytes_snoc m a n : bytes m a (S n) = bytes m a n ++ [m @@ (a + Z.of_nat n)].
Proof.
  revert a. induction n as [|n IH]; intros a; [rewrite bytes_S; simpl; do 2 f_equal; lia |].
  rewrite bytes_S, IH, bytes_S. cbn [app]. do 4 f_equal. lia.
Qed.

Lemma bytes_rev m m' n : forall a b, (forall i, 0 <= i < Z.of_nat n -> m' @@ (a + i) = m @@ (b + Z.of_nat n - 1 - i)) -> bytes m' a n = rev (bytes m b n).
Proof.
  induction n as [|n IH]; intros a b Hi; [done |]. rewrite bytes_S, bytes_snoc, rev_app_distr. cbn [rev app]. f_equal.
  - specialize (Hi 0 ltac:(lia)). replace (a + 0) with a in Hi by lia. rewrite Hi. f_equal. lia.
  - apply IH. intros i Hr. replace (a + 1 + i) with (a + (i + 1)) by lia. rewrite Hi by lia. f_equal. lia.
Qed.

(** The digits of [v] in the right order at [low], and the null byte. *)
Lemma itoa_body v base low m : 2 <= base <= 36 -> - 2 ^ 31 <= v < 2 ^ 31 ->
  exists m1 ptr m' l, itoa_digits 32 v base low m = Some (m1, ptr) /\ itoa_reverse 16 low (ptr - 1) (<[ptr := 0]> m1) = Some m' /\
    c_string m' low l /\ numeral base (Z.abs v) l /\ only_bytes low (low + 33) m m'.
Proof.
  intros Hb Hv. assert (Z.abs v < base ^ Z.of_nat 32) as Hlt.
  { apply Z.lt_le_trans with (2 ^ Z.of_nat 32); [lia |]. apply Z.pow_le_mono_l. lia. }
  destruct (itoa_digits_spec 32 v base low m Hb Hlt ltac:(lia)) as (m1 & E1 & HD & Ho1).
  pose proof (digits36_length 32 (Z.abs v) base) as Hlen. pose proof (digits36_nonzero 32 (Z.abs v) base Hb) as Hnz.
  pose proof (digits36_numeral 32 (Z.abs v) base Hb ltac:(lia) ltac:(lia)) as Hval.
  set (D := digits36 32 (Z.abs v) base) in *. clearbody D.
  destruct (itoa_reverse_spec 16 low (low + Z.of_nat (length D) - 1) (<[low + Z.of_nat (length D) := 0]> m1) ltac:(lia)) as (m' & E2 & Hm').
  exists m1, (low + Z.of_nat (length D)), m', (rev D). split_and!; [exact E1 | exact E2 | | exact Hval |].
  - unfold c_string. rewrite length_rev. split_and!.
    + rewrite <- HD at 2. apply bytes_rev. intros i Hi. rewrite Hm', decide_True by lia. rewrite rd_insert_ne by lia. f_equal. lia.
    + rewrite Hm', decide_False by lia. apply rd_insert_eq.
    + by apply Forall_rev.
  - intros x Hx. rewrite Hm', decide_False by lia. rewrite rd_insert_ne by lia. apply Ho1. lia.
Qed.

Lemma c_string_cons m s c l : m @@ s = c -> c <> 0 -> c_string m (s + 1) l -> c_string m s (c :: l).
Proof.
  intros Hc Hne (Hb & H0 & Hnz). unfold c_string. cbn [length]. rewrite bytes_S, Hb, Hc. split_and!; [done | | by constructor].
  rewrite <- H0. f_equal. lia.
Qed.

Lemma itoa_ok v str base m m1 ptr m' : 2 <= base <= 36 ->
  let sign := (v <? 0) && (base =? 10) in
  let low := if sign then str + 1 else str in
  itoa_digits 32 v base low (if sign then <[str := 45]> m else m) = Some (m1, ptr) ->
  itoa_reverse 16 low (ptr - 1) (<[ptr := 0]> m1) = Some m' -> itoa v str base m = Some (m', str).
Proof.
  intros Hb. unfold itoa. rewrite (proj2 (Z.ltb_ge base 2)), (proj2 (Z.ltb_ge 36 base)) by lia.
  generalize (itoa_digits 32), (itoa_reverse 16). intros f g. cbv zeta. cbn [orb].
  destruct ((v <? 0) && (base =? 10)); intros H1 H2; rewrite H1; cbn [mbind option_bind]; rewrite H2; reflexivity.
Qed.

(** * Properties *)

(** C35: [itoa] ends for every integer and base, and writes at [str] the string that
    is the numeral of the integer in that base, without leading zeros, after a sign
    in base 10 and without one in the others, and nothing but these at most 34 bytes. *)
Theorem itoa_roundtrip v str base m : 2 <= base <= 36 -> - 2 ^ 31 <= v < 2 ^ 31 ->
  exists m' l, itoa v str base m = Some (m', str) /\ c_string m' str l /\ only_bytes str (str + 34) m m' /\
    (if (v <? 0) && (base =? 10) then exists d, l = 45 :: d /\ numeral 10 (- v) d else numeral base (Z.abs v) l).
Proof.
  intros Hb Hv. pose proof (itoa_ok v str base m) as Hok. destruct ((v <? 0) && (base =? 10)) eqn:E.
  - apply andb_true_iff in E as [E1%Z.ltb_lt ->%Z.eqb_eq].
    destruct (itoa_body v 10 (str + 1) (<[str := 45]> m) Hb Hv) as (m1 & ptr & m' & l & H1 & H2 & Hs & Hl & Ho).
    exists m', (45 :: l). split; [exact (Hok m1 ptr m' Hb H1 H2) |]. clear Hok H1 H2 Hv. split; [| split; [| exists l; split; [reflexivity |]; by rewrite Z.abs_neq in Hl by lia]].
    + apply c_string_cons; [| done | exact Hs]. rewrite Ho by lia. apply rd_insert_eq.
    + intros x Hx. rewrite Ho by lia. apply rd_insert_ne. lia.
  - destruct (itoa_body v base str m Hb Hv) as (m1 & ptr & m' & l & H1 & H2 & Hs & Hl & Ho).
    exists m', l. split; [exact (Hok m1 ptr m' Hb H1 H2) |]. clear Hok H1 H2 Hv. split; [exact Hs | split; [| exact Hl]].
    eapply only_bytes_weaken; [exact Ho | lia | lia].
Qed.

(** [serial_print] waits for the transmitter before every character and sends
    exactly the text of its format and arguments; [%p] prints the low half of the
    pointer, and a string argument is itself taken as a format. *)
Theorem serial_print_sends {St : Type} `{Uart St} (fuel : nat) p args l s out : (tx_patience <= fuel)%nat ->
  serial_text p args = Some out -> chars p -> Forall arg_chars args -> tx_busy tx_patience l s ->
  wp (serial_print fuel p args) (fun _ s' => tx_busy tx_patience (l ++ out) s') s.
Proof. intros Hf Ht Hp Ha Hs. exact (wp_serial_print fuel Hf p args l s out Ht Hp Ha Hs). Qed.

(** The two formatted printers of the kernel agree: what [kprintf] prints,
    [serial_print] prints too, if no string argument contains [%] and the pointers
    are below 2^32. *)
Theorem serial_print_agrees p args out : Forall arg_plain args -> pointer_ok p args -> render p args = Some out -> serial_text p args = Some out.
Proof. intros Ha Hp Hr. unfold serial_text. destruct (text_render (length p) p args (le_n _) Ha Hp) as [-> |]; [done | congruence]. Qed.

(** A string argument with a conversion in it makes [serial_print] read an
    argument that was not given. *)
Theorem serial_print_nested {St : Type} `{Uart St} (fuel : nat) d s : In d [100; 115] -> serial_print fuel [37; 115] [AStr [37; d]] s = Err Fault.
Proof. intros [<-|[<-|[]]]; done. Qed.

(** From the state of the chip after a reset, or any with the divisor not
    selected, [serial_init] sets the line to 38400 baud with 8 data bits, no parity
    and 1 stop bit, without interrupts, and leaves the transmitter ready for
    [serial_putchar]. *)
Theorem serial_init_ready (s : uart) : Z.testbit (lcr s) 7 = false ->
  wp (serial_init (St := uart)) (fun _ s' => line_ready s' /\ tx_busy (busy s) (sent s) s') s.
Proof.
  destruct s as [i a b f l m n t]. cbn [lcr busy sent]. intros Hd.
  assert (uart_out (COM1_PORT + 1) 0 (UartSim i a b f l m n t) = UartSim 0 a b f l m n t) as E1 by (unfold uart_out; cbn [lcr]; rewrite Hd; reflexivity).
  apply wp_bind, wp_outb_uart. rewrite E1.
  apply wp_bind, wp_outb_uart. change (uart_out _ _ _) with (UartSim 0 a b f 0x80 m n t).
  apply wp_bind, wp_outb_uart. change (uart_out _ _ _) with (UartSim 0 3 b f 0x80 m n t).
  apply wp_bind, wp_outb_uart. change (uart_out _ _ _) with (UartSim 0 3 0 f 0x80 m n t).
  apply wp_bind, wp_outb_uart. change (uart_out _ _ _) with (UartSim 0 3 0 f 0x03 m n t).
  apply wp_bind, wp_outb_uart. change (uart_out _ _ _) with (UartSim 0 3 0 0xC7 0x03 m n t).
  apply wp_outb_uart. change (uart_out _ _ _) with (UartSim 0 3 0 0xC7 0x03 0x0B n t).
  split; [by split_and! | split_and!; [reflexivity | reflexivity | reflexivity]].
Qed.

(** * Witnesses *)

Definition uart0 : uart := UartSim 0 0 0 0 0 0 0 [].

Lemma serial_init_ready_witness : Z.testbit (lcr uart0) 7 = false /\ wp (serial_init (St := uart)) (fun _ s' => line_ready s' /\ tx_busy 0 [] s') uart0.
Proof. split; [done | by apply (serial_init_ready uart0)]. Defined.

(** [serial_print("n=%d %p", -42, 0x1234567890)] *)
Lemma serial_print_sends_witness : exists s, (busy s <= 3)%nat /\
  wp (serial_print 3 (codes "n=%d %p") [AInt (-42); AU64 0x1234567890]) (fun _ s' => sent s' = codes "n=-42 0x34567890") s.
Proof.
  exists (UartSim 0 3 0 0xC7 3 0x0B 2 []). split; [simpl; lia |].
  eapply wp_mono; [apply (serial_print_sends (St := uart) 3 (codes "n=%d %p") [AInt (-42); AU64 0x1234567890] [] _ (codes "n=-42 0x34567890"));
    [done | vm_compute; reflexivity | by repeat constructor | by repeat constructor | split_and!; simpl; [lia | done | done]] |].
  intros [] s' (_ & Hs & _). exact Hs.
Defined.

Lemma serial_print_agrees_witness : exists out, render (codes "%s: %p%%") [AStr (codes "pte"); AU64 0xbeef] = Some out /\
  serial_text (codes "%s: %p%%") [AStr (codes "pte"); AU64 0xbeef] = Some out.
Proof.
  exists (codes "pte: 0xbeef%"). split; [vm_compute; reflexivity |].
  apply (serial_print_agrees (codes "%s: %p%%") [AStr (codes "pte"); AU64 0xbeef]); [by repeat constructor | done | vm_compute; reflexivity].
Defined.

Lemma serial_print_nested_witness : In 100 [100; 115] /\ serial_print 3 [37; 115] [AStr [37; 100]] uart0 = Err Fault.
Proof. split; [by left | apply (serial_print_nested 3 100 uart0); by left]. Defined.

Lemma itoa_roundtrip_witness : exists m' l, itoa (-2 ^ 31) 0x1000 10 ∅ = Some (m', 0x1000) /\ c_string m' 0x1000 l /\ l = codes "-2147483648".
Proof.
  destruct (itoa_roundtrip (-2 ^ 31) 0x1000 10 ∅) as (m' & l & E & (Hs & _ & _) & _ & d & -> & Hd); [done | done |].
  exists m', (codes "-2147483648"). split_and!; [exact E | | done].
  vm_compute in E. injection E as <-. split_and!; [vm_compute; reflexivity | vm_compute; reflexivity | repeat constructor; vm_compute; congruence].
Defined.
