(* ===== verification/Vector.v ===== *)
(** The registers of the vector unit ([arch/x86_64/context/vector.c],
    [arch/x86_64/utils/utils.c], [arch/x86_64/utils/sse_avx.asm]): which unit the
    processor has, and the switching of its registers between threads, which is
    put off until a thread uses them. *)
From S2P Require Import Prelude Cpu DList Sched.

(** * State *)

(** The answers of [cpuid]: the two registers of leaf 1 and, of leaf 0xD, the
    features that can be saved, which is in [eax], and the size of the area for
    those in use, which is in [ebx]. *)
Record features : Type := Features { leaf1_ecx : Z; leaf1_edx : Z; leafD_eax : Z; leafD_ebx : Z }.

(** The scheduler's state; the registers of the vector unit, as one value of [R];
    the areas in memory to which they are saved, by address; and the globals. *)
Record vec (R : Type) : Type := Vec {
  v_sched : sched;
  cr4 : Z;
  xcr0 : Z;
  vregs : R;
  vbufs : gmap Z R;
  ctx_thread : Z;
  sse_avx : Z;
  sse_avx_buf_size : Z;
  pcid : Z;
}.
Arguments Vec {R} v_sched cr4 xcr0 vregs vbufs ctx_thread sse_avx sse_avx_buf_size pcid.
Arguments v_sched {R} v.
Arguments cr4 {R} v.
Arguments xcr0 {R} v.
Arguments vregs {R} v.
Arguments vbufs {R} v.
Arguments ctx_thread {R} v.
Arguments sse_avx {R} v.
Arguments sse_avx_buf_size {R} v.
Arguments pcid {R} v.

Section state.
Context {R : Type}.
Implicit Types s : vec R.

Definition set_v_sched x s := Vec x (cr4 s) (xcr0 s) (vregs s) (vbufs s) (ctx_thread s) (sse_avx s) (sse_avx_buf_size s) (pcid s).
Definition set_cr4 x s := Vec (v_sched s) x (xcr0 s) (vregs s) (vbufs s) (ctx_thread s) (sse_avx s) (sse_avx_buf_size s) (pcid s).
Definition set_xcr0 x s := Vec (v_sched s) (cr4 s) x (vregs s) (vbufs s) (ctx_thread s) (sse_avx s) (sse_avx_buf_size s) (pcid s).
Definition set_vregs x s := Vec (v_sched s) (cr4 s) (xcr0 s) x (vbufs s) (ctx_thread s) (sse_avx s) (sse_avx_buf_size s) (pcid s).
Definition set_vbufs x s := Vec (v_sched s) (cr4 s) (xcr0 s) (vregs s) x (ctx_thread s) (sse_avx s) (sse_avx_buf_size s) (pcid s).
Definition set_ctx_thread x s := Vec (v_sched s) (cr4 s) (xcr0 s) (vregs s) (vbufs s) x (sse_avx s) (sse_avx_buf_size s) (pcid s).
Definition set_sse_avx x s := Vec (v_sched s) (cr4 s) (xcr0 s) (vregs s) (vbufs s) (ctx_thread s) x (sse_avx_buf_size s) (pcid s).
Definition set_buf_size x s := Vec (v_sched s) (cr4 s) (xcr0 s) (vregs s) (vbufs s) (ctx_thread s) (sse_avx s) x (pcid s).
Definition set_pcid x s := Vec (v_sched s) (cr4 s) (xcr0 s) (vregs s) (vbufs s) (ctx_thread s) (sse_avx s) (sse_avx_buf_size s) x.
Definition l_v_sched : lens (vec R) sched := Lens v_sched set_v_sched.
End state.

(** * Operations *)

(** ** Detection *)

(** [sse_avx_check]: 2 for AVX that can be enabled, 1 for SSE2, 0 for neither. *)
Definition sse_avx_check (f : features) : Z :=
  if Z.testbit (leaf1_ecx f) 26 && Z.testbit (leaf1_ecx f) 28 then 2
  else if Z.testbit (leaf1_edx f) 26 then 1 else 0.

Definition check_pcid (f : features) : Z := if Z.testbit (leaf1_ecx f) 17 then 1 else 0.

Section Vector.
Context {R : Type} (f : features).

Definition or_cr0 (x : Z) : M (vec R) unit := zoom l_v_sched (modify (fun s => set_cr0 (Z.lor (cr0 s) x) s)).
Definition or_cr4 (x : Z) : M (vec R) unit := modify (fun s => set_cr4 (Z.lor (cr4 s) x) s).

Definition init_sse_avx : M (vec R) unit :=
  x ← gets sse_avx;
  when (negb (u8 x =? 0)) (
    or_cr0 (2 ^ 1);;
    zoom l_v_sched (modify (fun s => set_cr0 (Z.ldiff (cr0 s) (2 ^ 2)) s));;
    or_cr4 (2 ^ 9);;
    or_cr4 (2 ^ 10);;
    when (u8 x =? 2) (
      or_cr4 (2 ^ 18);;
      modify (fun s => set_xcr0 (Z.lor (xcr0 s) 0x7) s))).

(** The result is in [rax]; with AVX, [cpuid] has left the features there. *)
Definition get_sse_avx_buf_size : M (vec R) Z :=
  x ← gets sse_avx;
  mret (if u8 x =? 0 then 0 else if u8 x =? 2 then leafD_eax f else 512).

Definition enable_pcid : M (vec R) unit := or_cr4 (2 ^ 17).

(** The condition of the second branch assigns. *)
Definition init_utils : M (vec R) unit :=
  modify (set_sse_avx (sse_avx_check f));;
  init_sse_avx;;
  n ← get_sse_avx_buf_size;
  modify (set_buf_size n);;
  x ← gets sse_avx;
  (if x =? 1 then mret tt else modify (set_sse_avx 2));;
  modify (set_pcid (check_pcid f));;
  p ← gets pcid;
  when (truthy p) enable_pcid.

(** ** Switching *)

Definition clts : M (vec R) unit := zoom l_v_sched (modify (fun s => set_cr0 (Z.ldiff (cr0 s) 8) s)).

(** [save_sse_ctx] and [save_avx_ctx], [restore_sse_ctx] and [restore_avx_ctx]:
    between the registers and an area of memory. *)
Definition save_ctx (buf : Z) : M (vec R) unit :=
  m ← gets vbufs;
  match m !! buf with
  | None => fail Fault
  | Some _ => modify (fun s => set_vbufs (<[buf := vregs s]> (vbufs s)) s)
  end.
Definition restore_ctx (buf : Z) : M (vec R) unit :=
  m ← gets vbufs;
  match m !! buf with
  | None => fail Fault
  | Some r => modify (set_vregs r)
  end.
Definition buffer_of (t : Z) : M (vec R) Z := x ← zoom l_v_sched (get_thread t); mret (sse_avx_buffer x).

Definition switch_ctx (cur ctx : Z) : M (vec R) unit :=
  when (truthy ctx) (b ← buffer_of ctx; save_ctx b);;
  modify (set_ctx_thread cur);;
  b ← buffer_of cur;
  restore_ctx b.

Definition vector_ctx_switch : M (vec R) unit :=
  clts;;
  cur ← gets (fun s => current_thread (v_sched s));
  ctx ← gets ctx_thread;
  if cur =? ctx then mret tt
  else
    x ← gets sse_avx;
    if x =? 1 then switch_ctx cur ctx
    else if x =? 2 then switch_ctx cur ctx
    else mret tt.

(** An instruction of the running thread that changes the registers by [g]: with
    bit 3 of [cr0] set the processor raises exception 7 first, whose handler is
    [vector_ctx_switch], and then runs the instruction. *)
Definition vector_op (g : R -> R) : M (vec R) unit :=
  ts ← gets (fun s => Z.testbit (cr0 (v_sched s)) 3);
  when ts vector_ctx_switch;;
  modify (fun s => set_vregs (g (vregs s)) s).

(** What happens on the processor: the running thread uses the registers, or the
    scheduler runs. [run] collects the instructions with the threads they ran in. *)
Inductive event : Type :=
  | Op (g : R -> R)
  | Tick (old_rsp : Z).

Fixpoint run (sstacks : Z) (es : list event) : M (vec R) (list (Z * (R -> R))) :=
  match es with
  | [] => mret []
  | Op g :: es' =>
      vector_op g;;
      cur ← gets (fun s => current_thread (v_sched s));
      l ← run sstacks es';
      mret ((cur, g) :: l)
  | Tick r :: es' => zoom l_v_sched (scheduler_handler sstacks r);; run sstacks es'
  end.

(** * Specification *)

(** The registers of a thread, wherever they are: in the processor, or in its
    area. *)
Definition regs_of (s : vec R) (p : Z) : R :=
  if decide (p = ctx_thread s) then vregs s
  else default (vregs s) (vbufs s !! sse_avx_buffer (thread_of (threads (v_sched s)) p)).

(** Registers of its own for each thread: an instruction changes those of the
    thread it runs in. *)
Fixpoint own_regs (l : list (Z * (R -> R))) (regs : Z -> R) : Z -> R :=
  match l with
  | [] => regs
  | (p, g) :: l' => own_regs l' (fun q => if decide (q = p) then g (regs q) else regs q)
  end.

(** The threads [L] have areas of their own; the registers belong to one of them,
    or to none; and they are not used without a switch unless they belong to the
    thread that runs. *)
Record vec_inv (L : list Z) (s : vec R) : Prop := {
  vi_unit : sse_avx s = 1 \/ sse_avx s = 2;
  vi_live p : p ∈ L -> p <> 0 /\ is_Some (threads (v_sched s) !! p);
  vi_buf p : p ∈ L -> is_Some (vbufs s !! sse_avx_buffer (thread_of (threads (v_sched s)) p));
  vi_own p q : p ∈ L -> q ∈ L -> sse_avx_buffer (thread_of (threads (v_sched s)) p) = sse_avx_buffer (thread_of (threads (v_sched s)) q) -> p = q;
  vi_cur : current_thread (v_sched s) ∈ L;
  vi_ctx : ctx_thread s = 0 \/ ctx_thread s ∈ L;
  vi_ts : Z.testbit (cr0 (v_sched s)) 3 = false -> current_thread (v_sched s) = ctx_thread s;
}.
End Vector.

(** * Lemmas *)

(** ** The scheduler and the areas *)

(** The threads and their areas stay, and [cr0] does. *)
Definition buffers_kept (s s' : sched) : Prop :=
  cr0 s' = cr0 s /\ forall p, (is_Some (threads s' !! p) <-> is_Some (threads s !! p)) /\
    sse_avx_buffer (thread_of (threads s') p) = sse_avx_buffer (thread_of (threads s) p).

#[local] Instance buffers_kept_preorder : PreOrder buffers_kept.
Proof.
  split; [done |]. intros a b c [H1 H2] [H3 H4]. split; [congruence |]. intros p. destruct (H2 p), (H4 p). split; [by etrans | congruence].
Qed.

Definition keeps {A} (m : M sched A) : Prop := forall s a s', m s = Ok (a, s') -> buffers_kept s s'.

Lemma keeps_ret {A} (a : A) : keeps (mret a).
Proof. intros s b s' [= _ <-]. done. Qed.
Lemma keeps_fail {A} e : keeps (fail (A := A) e).
Proof. done. Qed.
Lemma keeps_bind {A B} (m : M sched A) (k : A -> M sched B) : keeps m -> (forall a, keeps (k a)) -> keeps (m ≫= k).
Proof.
  intros Hm Hk s b s'. unfold mbind, M_bind. destruct (m s) as [[a t]|e] eqn:E; [| done]. intros Hb. etrans; [by eapply Hm | by eapply Hk].
Qed.
Lemma keeps_gets {A} (g : sched -> A) : keeps (gets g).
Proof. intros s b s' [= _ <-]. done. Qed.
Lemma keeps_modify g : (forall s, cr0 (g s) = cr0 s /\ threads (g s) = threads s) -> keeps (modify g).
Proof. intros Hg s b s' [= _ <-]. destruct (Hg s) as [H1 H2]. split; [done |]. by rewrite H2. Qed.
Lemma keeps_when b (m : M sched unit) : keeps m -> keeps (when b m).
Proof. destruct b; [done |]. intros _. apply keeps_ret. Qed.
Lemma keeps_get_thread p : keeps (get_thread p).
Proof. apply keeps_bind; [apply keeps_gets |]. intros m. case_match; [apply keeps_ret | apply keeps_fail]. Qed.
Lemma keeps_get_proc p : keeps (get_proc p).
Proof. apply keeps_bind; [apply keeps_gets |]. intros m. case_match; [apply keeps_ret | apply keeps_fail]. Qed.
Lemma keeps_upd_thread p g : (forall t, sse_avx_buffer (g t) = sse_avx_buffer t) -> keeps (upd_thread p g).
Proof.
  intros Hg s a s'. unfold upd_thread, get_thread, mbind, M_bind, gets. destruct (threads s !! p) as [t|] eqn:E; [| done].
  intros [= _ <-]. split; [done |]. intros q. cbn [threads set_threads]. rewrite lookup_insert. unfold thread_of. rewrite lookup_insert.
  case_decide; [subst q | done]. rewrite E. split; [by split | apply Hg].
Qed.
Lemma keeps_upd_proc p g : keeps (upd_proc p g).
Proof. apply keeps_bind; [apply keeps_get_proc |]. intros x. by apply keeps_modify. Qed.

#[local] Hint Resolve keeps_ret keeps_fail keeps_gets keeps_get_thread keeps_get_proc keeps_upd_proc : core.
Ltac keeps_tac := repeat first
  [ progress eauto | by apply keeps_upd_thread | by apply keeps_modify | apply keeps_bind; [| intros ?] | apply keeps_when | case_match ].

Lemma keeps_dequeue t : keeps (dequeue_thread t).
Proof. unfold dequeue_thread. keeps_tac. Qed.
Lemma keeps_find fuel a b : keeps (find_runnable fuel a b).
Proof. revert b. induction fuel as [|n IH]; intros b; cbn [find_runnable]; keeps_tac. Qed.
Lemma keeps_retire o r : keeps (retire_thread o r).
Proof. unfold retire_thread. pose proof keeps_dequeue. keeps_tac. Qed.
Lemma keeps_run ss o n : keeps (run_thread ss o n).
Proof. unfold run_thread, switch_process, read_cr3, write_cr3. keeps_tac. Qed.

(** Whenever the handler gives the processor away, it makes the next use of the
    registers raise an exception. *)
Lemma handler_keeps ss r s r' s' : scheduler_handler ss r s = Ok (r', s') ->
  s' = s \/ buffers_kept (set_cr0 (Z.lor (cr0 s) 8) s) s'.
Proof.
  intros (h & s1 & [= <- <-] & H)%bind_inv_ok. apply bind_inv_ok in H as (idle & s1 & Hi & H).
  assert (s1 = s) as ->.
  { destruct (truthy (ready_list_head s)); [| by injection Hi as _ ->]. apply bind_inv_ok in Hi as (t & s2 & Ht & [= _ <-]).
    apply bind_inv_ok in Ht as (m & s3 & [= <- <-] & Ht). destruct (threads s !! _); by inversion Ht. }
  destruct idle; [left; by injection H as _ -> | right]. apply bind_inv_ok in H as (u & s1 & [= _ <-] & H).
  revert H. set (s1 := set_cr0 _ s). clearbody s1. revert s1 r' s'. change (keeps (
    old_thread ← gets current_thread;
    o ← get_thread old_thread;
    retire_thread old_thread r;;
    h ← gets ready_list_head;
    let starting_point := if stopped (state o) then h else t_next o in
    if negb (truthy starting_point) then mret r
    else
      fuel ← gets (fun s => map_size (threads s));
      found ← find_runnable fuel starting_point starting_point;
      match found with
      | None => if stopped (state o) then fail Hang else upd_thread old_thread (set_state RUNNING);; mret r
      | Some next_thread => run_thread ss old_thread next_thread
      end)).
  pose proof keeps_retire. pose proof keeps_find. pose proof keeps_run. cbv zeta. keeps_tac.
Qed.

(** ** Switching *)

Section switching.
Context {R : Type} (L : list Z).
Implicit Types s : vec R.

Lemma ldiff_ts c : Z.testbit (Z.ldiff c 8) 3 = false.
Proof. change 8 with (2 ^ 3). rewrite testbit_clearbit by lia. done. Qed.
Lemma lor_ts c : Z.testbit (Z.lor c 8) 3 = true.
Proof. change 8 with (2 ^ 3). rewrite testbit_setbit by lia. done. Qed.

(** The registers of [p] in terms of its area. *)
Lemma regs_of_area s p : vec_inv L s -> p ∈ L -> p <> ctx_thread s ->
  vbufs s !! sse_avx_buffer (thread_of (threads (v_sched s)) p) = Some (regs_of s p).
Proof. intros Hi Hp Hne. unfold regs_of. rewrite decide_False by done. by destruct (vi_buf _ _ Hi p Hp) as [r ->]. Qed.

Lemma wp_buffer_of p s (Q : Z -> vec R -> Prop) : is_Some (threads (v_sched s) !! p) ->
  Q (sse_avx_buffer (thread_of (threads (v_sched s)) p)) s -> wp (buffer_of p) Q s.
Proof.
  intros Hp HQ. apply wp_bind, wp_zoom, wp_get_thread; [done |]. apply wp_ret. by destruct s.
Qed.

(** The switch moves the registers, and each thread has what it had. *)
Lemma wp_vector_ctx_switch s : vec_inv L s -> wp vector_ctx_switch (fun _ s' =>
  vec_inv L s' /\ ctx_thread s' = current_thread (v_sched s) /\ current_thread (v_sched s') = current_thread (v_sched s) /\
  threads (v_sched s') = threads (v_sched s) /\ v_sched s' = set_cr0 (cr0 (v_sched s')) (v_sched s) /\ forall p, p ∈ L -> regs_of s' p = regs_of s p) s.
Proof.
  intros Hi. pose proof (vi_cur _ _ Hi) as Hcur. apply wp_bind, wp_zoom, wp_modify. cbn [view over l_v_sched].
  set (s1 := set_v_sched _ s).
  apply wp_bind, wp_gets, wp_bind, wp_gets. change (ctx_thread s1) with (ctx_thread s). change (current_thread (v_sched s1)) with (current_thread (v_sched s)).
  set (cur := current_thread (v_sched s)) in *. destruct (Z.eqb_spec cur (ctx_thread s)) as [E|E].
  { apply wp_ret. split_and!; try done. destruct Hi. by split. }
  apply wp_bind, wp_gets. change (sse_avx s1) with (sse_avx s).
  assert (wp (switch_ctx cur (ctx_thread s)) (fun _ s' => exists m r, s' = set_vregs r (set_ctx_thread cur (set_vbufs m s1)) /\
    (forall p, p ∈ L -> is_Some (m !! sse_avx_buffer (thread_of (threads (v_sched s)) p))) /\
    m !! sse_avx_buffer (thread_of (threads (v_sched s)) cur) = Some r /\
    (forall p, p ∈ L -> m !! sse_avx_buffer (thread_of (threads (v_sched s)) p) =
       (if decide (p = ctx_thread s) then Some (vregs s) else vbufs s !! sse_avx_buffer (thread_of (threads (v_sched s)) p)))) s1) as Hsw.
  { destruct (vi_live _ _ Hi cur Hcur) as [Hc0 Hcl]. destruct (vi_buf _ _ Hi cur Hcur) as [rc Hrc].
    apply wp_bind, (wp_mono _ (fun _ s' => exists m, s' = set_vbufs m s1 /\ forall p, p ∈ L -> m !! sse_avx_buffer (thread_of (threads (v_sched s)) p) =
       (if decide (p = ctx_thread s) then Some (vregs s) else vbufs s !! sse_avx_buffer (thread_of (threads (v_sched s)) p)))).
    - apply wp_when; intros Ht.
      + apply truthy_true in Ht. destruct (vi_ctx _ _ Hi) as [|Hx]; [done |]. destruct (vi_live _ _ Hi _ Hx) as [_ Hxl]. destruct (vi_buf _ _ Hi _ Hx) as [rx Hrx].
        apply wp_bind, wp_buffer_of; [done |]. apply wp_bind, wp_gets. change (vbufs s1) with (vbufs s). change (threads (v_sched s1)) with (threads (v_sched s)). rewrite Hrx.
        apply wp_modify. eexists. split; [reflexivity |]. intros p Hp. cbn. destruct (decide (p = ctx_thread s)) as [->|Hne]; [apply lookup_insert_eq |].
        apply lookup_insert_ne. intros Eb. apply Hne. symmetry. by apply (vi_own _ _ Hi).
      + apply truthy_false in Ht. exists (vbufs s). split; [by destruct s |]. intros p Hp. rewrite decide_False; [done |]. intros ->. by destruct (vi_live _ _ Hi _ Hp).
    - intros [] s' (m & -> & Hm). apply wp_bind, wp_modify. apply wp_bind, wp_buffer_of; [done |]. apply wp_bind, wp_gets. cbn [vbufs set_ctx_thread set_vbufs].
      change (threads (v_sched _)) with (threads (v_sched s)). rewrite (Hm cur Hcur), decide_False, Hrc by done. apply wp_modify.
      exists m, rc. split_and!; [done | | by rewrite (Hm cur Hcur), decide_False | done]. intros p Hp. rewrite Hm by done. case_decide; [done | by apply (vi_buf _ _ Hi)]. }
  destruct (vi_unit _ _ Hi) as [Hu|Hu]; rewrite Hu; cbn [Z.eqb Pos.eqb].
  all: eapply wp_mono; [exact Hsw |]; intros [] s' (m & r & -> & Hm & Hr & Hmv).
  all: split_and!; [| done.. |].
  1, 3: destruct Hi; split; try done; by right.
  all: intros p Hp; unfold regs_of; cbn; case_decide as Hpc; [subst p; rewrite decide_False by done; rewrite (Hmv _ Hp), decide_False in Hr by done; by rewrite Hr |].
  all: rewrite (Hmv _ Hp); case_decide; [done |]; by destruct (vi_buf _ _ Hi p Hp) as [rp ->].
Qed.

Lemma wp_vector_op g s : vec_inv L s -> wp (vector_op g) (fun _ s' => vec_inv L s' /\
  v_sched s' = set_cr0 (cr0 (v_sched s')) (v_sched s) /\
  forall p, p ∈ L -> regs_of s' p = if decide (p = current_thread (v_sched s)) then g (regs_of s p) else regs_of s p) s.
Proof.
  intros Hi. apply wp_bind, wp_gets. apply wp_bind.
  apply (wp_mono _ (fun _ s' => vec_inv L s' /\ ctx_thread s' = current_thread (v_sched s) /\ current_thread (v_sched s') = current_thread (v_sched s) /\
    v_sched s' = set_cr0 (cr0 (v_sched s')) (v_sched s) /\ forall p, p ∈ L -> regs_of s' p = regs_of s p)).
  - apply wp_when; intros Hts.
    + eapply wp_mono; [by apply wp_vector_ctx_switch |]. intros [] s' (H1 & H2 & H3 & _ & H4 & H5). done.
    + pose proof (vi_ts _ _ Hi Hts) as Hc. split_and!; [done | done | done | | done]. by destruct (v_sched s).
  - intros [] s' (Hi' & Hx & Hcur & Hs & Hreg). apply wp_modify. split_and!; [destruct Hi'; by split | done |].
    intros p Hp. rewrite <- (Hreg p Hp). unfold regs_of. cbn. rewrite Hx. destruct (decide _); [done |].
    by destruct (vi_buf _ _ Hi' p Hp) as [rp ->].
Qed.

Lemma wp_tick ss r l1 cur l2 n d s : vec_inv L s -> sched_inv (v_sched s) (l1 ++ cur :: l2) d -> current_thread (v_sched s) = cur ->
  stopped (state (thread_of (threads (v_sched s)) cur)) = false -> head (l2 ++ l1) = Some n -> n ∈ L ->
  wp (zoom l_v_sched (scheduler_handler ss r)) (fun _ s' => vec_inv L s' /\ sched_inv (v_sched s') (l1 ++ cur :: l2) d /\
    current_thread (v_sched s') = n /\ state (thread_of (threads (v_sched s')) n) = RUNNING /\ forall p, p ∈ L -> regs_of s' p = regs_of s p) s.
Proof.
  intros Hi Hs Hcur Hst Hn HnL. apply wp_zoom. cbn [view l_v_sched].
  assert (n <> cur) as Hnc by (by destruct (ready_next _ _ _ _ _ (si_ring _ _ _ Hs) Hn) as (_ & ? & _)).
  destruct (wp_ok _ _ _ (wp_handler_next ss r l1 cur l2 n d _ Hs Hcur Hst Hn)) as (r' & t & E & _ & Hr & Hs' & _).
  eapply wp_of_ok; [exact E |]. cbn [over l_v_sched]. pose proof (ru_cur _ _ _ Hr) as Hcn.
  destruct (handler_keeps _ _ _ _ _ E) as [->|[Hcr Hk]]; [congruence |]. cbn [cr0 set_cr0 threads] in Hcr, Hk.
  assert (forall p, sse_avx_buffer (thread_of (threads t) p) = sse_avx_buffer (thread_of (threads (v_sched s)) p)) as Hb by apply Hk.
  split_and!; [| done | done | by apply (ru_state _ _ _ Hr) |].
  - destruct Hi as [H1 H2 H3 H4 H5 H6 H7]. split; cbn [set_v_sched v_sched vbufs ctx_thread sse_avx]; [done | | | | by rewrite Hcn | done |].
    + intros p Hp. split; [by apply H2 |]. by apply Hk, H2.
    + intros p Hp. rewrite Hb. by apply H3.
    + intros p q Hp Hq. rewrite !Hb. by apply H4.
    + rewrite Hcr, lor_ts. done.
  - intros p Hp. unfold regs_of. cbn. by rewrite Hb.
Qed.
End switching.

Section runs.
Context {R : Type} (ss : Z) (L : list Z).
Implicit Types s : vec R.

(** The threads in the ring take turns, and each has an area. *)
Record turns (l d : list Z) s : Prop := {
  tu_sched : sched_inv (v_sched s) l d;
  tu_vec : vec_inv L s;
  tu_sub p : p ∈ l -> p ∈ L;
  tu_run : state (thread_of (threads (v_sched s)) (current_thread (v_sched s))) = RUNNING;
}.

Lemma sched_inv_cr0 c (t : sched) l d : sched_inv t l d -> sched_inv (set_cr0 c t) l d.
Proof. intros [[H1 H2] H3 H4 H5 H6 H7 H8]. by split; [split | ..]. Qed.

Lemma wp_run l d es : (1 < length l)%nat -> forall s, turns l d s -> wp (run ss es)
  (fun tr s' => turns l d s' /\ forall p, p ∈ L -> regs_of s' p = own_regs tr (regs_of s) p) s.
Proof.
  intros Hl. assert (forall tr (a b : Z -> R), (forall p, p ∈ L -> a p = b p) -> forall p, p ∈ L -> own_regs tr a p = own_regs tr b p) as Hext.
  { induction tr as [|[q g] tr IH]; intros a b Hab p Hp; [by apply Hab |]. cbn [own_regs]. apply IH; [| done]. intros x Hx. by rewrite (Hab x Hx). }
  induction es as [|[g|r] es IH]; intros s Hs; cbn [run].
  - by apply wp_ret.
  - destruct Hs as [Hsi Hvi Hsub Hrun]. apply wp_bind. eapply wp_mono; [by apply (wp_vector_op L) |]. intros [] s1 (Hi1 & E1 & Hr1).
    assert (turns l d s1) as Ht1 by (split; [rewrite E1; by apply sched_inv_cr0 | done | done | rewrite E1; exact Hrun]).
    apply wp_bind, wp_gets, wp_bind. eapply wp_mono; [by apply IH |]. intros tr s2 (Ht2 & Hr2). apply wp_ret. split; [done |].
    intros p Hp. rewrite Hr2 by done. cbn [own_regs]. apply Hext; [| done]. intros q Hq. rewrite Hr1 by done. by rewrite E1.
  - destruct Hs as [Hsi Hvi Hsub Hrun]. apply wp_bind.
    destruct (list_elem_of_split l (current_thread (v_sched s)) (si_cur _ _ _ Hsi)) as (l1 & l2 & ->).
    destruct (l2 ++ l1) as [|n l3] eqn:En; [rewrite length_app in Hl; apply (f_equal length) in En; rewrite length_app in En; simpl in *; lia |].
    assert (n ∈ l1 ++ current_thread (v_sched s) :: l2) as Hn.
    { assert (n ∈ l2 ++ l1) as Hin by (rewrite En; by left). rewrite !elem_of_app, elem_of_cons in *. tauto. }
    eapply wp_mono; [apply (wp_tick L ss r l1 (current_thread (v_sched s)) l2 n d); try done; [by rewrite Hrun | by rewrite En | by apply Hsub] |].
    intros r' s1 (Hi1 & Hs1 & Hc1 & Hr1 & Hreg). eapply wp_mono; [apply IH; split; [done | done | done | by rewrite Hc1] |].
    intros tr s2 (Ht2 & Hr2). split; [done |]. intros p Hp. rewrite Hr2 by done. by apply Hext.
Qed.
End runs.

(** * Properties *)

(** C7: lazy switching is invisible: in any run of instructions and timer interrupts,
    each thread has the registers that its own instructions alone would have made
    of those it had, although the registers are moved only when another thread
    first uses them. *)
Theorem vector_registers_private {R : Type} ss L l d es (s : vec R) : (1 < length l)%nat -> turns L l d s ->
  wp (run ss es) (fun tr s' => turns L l d s' /\ forall p, p ∈ L -> regs_of s' p = own_regs tr (regs_of s) p) s.
Proof. intros Hl. by apply wp_run. Qed.

(** What the thread that runs at boot leaves in the registers is lost: they
    belong to no thread before the first exception, and the first other thread
    that uses them replaces them without saving. *)
Theorem first_switch_loses {R : Type} ss r l1 cur l2 n d (g h : R -> R) (s : vec R) b c :
  sched_inv (v_sched s) (l1 ++ cur :: l2) d -> current_thread (v_sched s) = cur ->
  stopped (state (thread_of (threads (v_sched s)) cur)) = false -> head (l2 ++ l1) = Some n ->
  sse_avx s = 1 \/ sse_avx s = 2 -> ctx_thread s = 0 -> Z.testbit (cr0 (v_sched s)) 3 = false ->
  vbufs s !! sse_avx_buffer (thread_of (threads (v_sched s)) cur) = Some b ->
  vbufs s !! sse_avx_buffer (thread_of (threads (v_sched s)) n) = Some c ->
  wp (run ss [Op g; Tick r; Op h]) (fun tr s' => tr = [(cur, g); (n, h)] /\ regs_of s' cur = b /\ vregs s' = h c) s.
Proof.
  intros Hs Hcur Hst Hn Hu Hx Hts Hb Hc. cbn [run]. apply wp_bind.
  assert (n <> cur) as Hnc by (by destruct (ready_next _ _ _ _ _ (si_ring _ _ _ Hs) Hn) as (_ & ? & _)).
  assert (n ∈ l1 ++ cur :: l2 /\ n <> 0) as [Hnl Hn0] by (by destruct (ready_next _ _ _ _ _ (si_ring _ _ _ Hs) Hn) as (? & _ & ? & _)).
  apply wp_bind, wp_gets. rewrite Hts. cbn [when]. apply wp_bind, wp_ret, wp_modify. apply wp_bind, wp_gets, wp_bind, wp_bind.
  cbn [v_sched set_vregs]. rewrite Hcur. apply wp_zoom. cbn [view over l_v_sched v_sched set_vregs].
  destruct (wp_ok _ _ _ (wp_handler_next ss r l1 cur l2 n d _ Hs Hcur Hst Hn)) as (r' & t & E & _ & Hr & Hs' & _).
  eapply wp_of_ok; [exact E |]. pose proof (ru_cur _ _ _ Hr) as Hcn.
  destruct (handler_keeps _ _ _ _ _ E) as [->|[Hcr Hk]]; [congruence |]. cbn [cr0 set_cr0 threads] in Hcr, Hk.
  assert (forall p, sse_avx_buffer (thread_of (threads t) p) = sse_avx_buffer (thread_of (threads (v_sched s)) p)) as Hbuf by apply Hk.
  assert (is_Some (threads t !! n)) as Hln by (apply Hk; by apply (rr_live _ _ (si_ring _ _ _ Hs))).
  set (s1 := set_v_sched t _). apply wp_bind, wp_bind, wp_gets. change (v_sched s1) with t. rewrite Hcr, lor_ts. cbn [when].
  apply wp_bind, wp_bind, wp_zoom, wp_modify. cbn [view over l_v_sched]. set (s2 := set_v_sched _ s1).
  apply wp_bind, wp_gets, wp_bind, wp_gets. change (current_thread (v_sched s2)) with (current_thread t). change (ctx_thread s2) with (ctx_thread s).
  rewrite Hcn, Hx, (proj2 (Z.eqb_neq n 0)) by done. apply wp_bind, wp_gets. change (sse_avx s2) with (sse_avx s).
  assert (wp (switch_ctx n 0) (fun _ s' => s' = set_vregs c (set_ctx_thread n s2)) s2) as Hsw.
  { apply wp_bind, wp_ret, wp_bind, wp_modify. apply wp_bind, wp_buffer_of; [done |]. change (threads (v_sched (set_ctx_thread n s2))) with (threads t).
    apply wp_bind, wp_gets. change (vbufs (set_ctx_thread n s2)) with (vbufs s). rewrite Hbuf, Hc. by apply wp_modify. }
  destruct Hu as [Hu|Hu]; rewrite Hu; cbn [Z.eqb Pos.eqb].
  all: eapply wp_mono; [exact Hsw |]; intros [] s' ->; apply wp_modify, wp_bind, wp_gets, wp_bind, wp_ret, wp_ret.
  all: split_and!; [by rewrite <- Hcn | | done]; unfold regs_of; cbn; rewrite decide_False by done; by rewrite Hbuf, Hb.
Qed.

(** A thread whose object is freed while the registers belong to it leaves a
    dangling pointer: the next switch reads the object. *)
Theorem stale_context {R : Type} (s : vec R) : let cur := current_thread (v_sched s) in let ctx := ctx_thread s in
  ctx <> 0 -> cur <> ctx -> threads (v_sched s) !! ctx = None -> sse_avx s = 1 \/ sse_avx s = 2 -> vector_ctx_switch s = Err Fault.
Proof.
  intros cur ctx H0 Hne Hd Hu. unfold vector_ctx_switch, clts, zoom, modify, mbind, M_bind, gets. cbn -[switch_ctx Z.eqb]. fold cur ctx.
  rewrite (proj2 (Z.eqb_neq cur ctx)) by done. set (s1 := set_v_sched _ s).
  assert (switch_ctx cur ctx s1 = Err Fault) as E.
  { unfold switch_ctx, when. rewrite (proj2 (truthy_true ctx)) by done. unfold buffer_of, get_thread, zoom, mbind, M_bind, gets. cbn. by rewrite Hd. }
  change (sse_avx s1) with (sse_avx s). destruct Hu as [-> | ->]; exact E.
Qed.

(** [init_utils] records that vector registers are switched even on a processor
    without them, which it has just found: the test of the second message is an
    assignment. On others it enables what it has found; with AVX the size of the
    areas is the mask of the features and not their size. *)
Theorem init_utils_spec {R : Type} f (s : vec R) : wp (init_utils f) (fun _ s' =>
  sse_avx s' = (if sse_avx_check f =? 1 then 1 else 2) /\
  sse_avx_buf_size s' = (if sse_avx_check f =? 0 then 0 else if sse_avx_check f =? 2 then leafD_eax f else 512) /\
  (sse_avx_check f = 0 -> cr0 (v_sched s') = cr0 (v_sched s) /\ xcr0 s' = xcr0 s) /\
  (sse_avx_check f <> 0 -> Z.testbit (cr0 (v_sched s')) 1 = true /\ Z.testbit (cr0 (v_sched s')) 2 = false /\ Z.testbit (cr4 s') 9 = true /\ Z.testbit (cr4 s') 10 = true) /\
  (sse_avx_check f = 2 -> Z.testbit (cr4 s') 18 = true /\ Z.land (xcr0 s') 7 = 7) /\
  Z.testbit (cr4 s') 17 = Z.testbit (cr4 s) 17 || truthy (check_pcid f)) s.
Proof.
  assert (forall x, Z.land (Z.lor x 7) 7 = 7) as H7.
  { intros x. apply Z.bits_inj'. intros i _. rewrite Z.land_spec, Z.lor_spec. destruct (Z.testbit x i), (Z.testbit 7 i); done. }
  assert (forall x, Z.testbit (Z.lor x (2 ^ 17)) 17 = Z.testbit x 17 || true) as H17 by (intros; rewrite testbit_setbit, orb_true_r by lia; done).
  unfold wp, init_utils, init_sse_avx, get_sse_avx_buf_size, enable_pcid, or_cr0, or_cr4, zoom, modify, gets, when, mbind, M_bind, mret, M_ret.
  assert (sse_avx_check f = 0 \/ sse_avx_check f = 1 \/ sse_avx_check f = 2) as Hf by (unfold sse_avx_check; repeat case_match; auto).
  cbn -[Z.testbit Z.lor Z.ldiff Z.pow Z.land truthy check_pcid sse_avx_check u8].
  destruct Hf as [-> |[-> | ->]]; [change (u8 0) with 0 | change (u8 1) with 1 | change (u8 2) with 2];
    cbn -[Z.testbit Z.lor Z.ldiff Z.pow Z.land truthy check_pcid].
  all: destruct (truthy (check_pcid f)); cbn -[Z.testbit Z.lor Z.ldiff Z.pow Z.land]; split_and!; intros; try done;
    rewrite ?testbit_clearbit, ?testbit_setbit, ?H7, ?orb_true_r, ?orb_false_r by lia; try done.
Qed.

(** * Witnesses *)

(** Three threads in turn; the registers are a number. *)
Definition with_buffer (b : Z) (t : thread) : thread :=
  Thread (rsp t) (tid t) (state t) (kernel_stack t) (user_stack t) (page_guard_min t) (page_guard_max t) b
    (process t) (t_prev t) (t_next t) (next_blocked t) (next_sleeping t) (next_pthread t) (prev_pthread t).
Definition demo_sched : sched :=
  set_threads (<[1 := with_buffer 0x1000 (thread_at RUNNING 0x100 10 3 2)]> (<[2 := with_buffer 0x2000 (thread_at READY 0x200 0 1 3)]>
    (<[3 := with_buffer 0x3000 (thread_at READY 0x300 11 2 1)]> ∅))) (three RUNNING).
Definition demo_vec (ctx : Z) : vec Z :=
  Vec demo_sched 0 0 7 (<[0x1000 := 10]> (<[0x2000 := 20]> (<[0x3000 := 30]> ∅))) ctx 1 512 0.

Lemma demo_sched_inv : sched_inv demo_sched [1; 2; 3] [].
Proof.
  split; [split | | | | | |].
  - right. split_and!; [done | by apply (bool_decide_unpack _); vm_compute | exists 3]. simpl. by vm_compute.
  - intros p Hp. rewrite !elem_of_cons in Hp. destruct Hp as [-> |[-> |[-> |?%elem_of_nil]]]; [by eexists.. | done].
  - by left.
  - intros p Hp. rewrite !elem_of_cons in Hp. destruct Hp as [-> |[-> |[-> |?%elem_of_nil]]]; [by intros ? | done..].
  - done.
  - by intros p ?%elem_of_nil.
  - intros p Hp. rewrite !elem_of_cons in Hp. destruct Hp as [-> |[-> |[-> |?%elem_of_nil]]]; intros H0; [by eexists | by destruct H0 | by eexists | done].
  - done.
Qed.

Lemma demo_turns : turns [1; 2; 3] [1; 2; 3] [] (demo_vec 1).
Proof.
  split; [exact demo_sched_inv | | done | done]. split; [by left | | | | by left | right; by left | done].
  - intros p Hp. rewrite !elem_of_cons in Hp. destruct Hp as [-> |[-> |[-> |?%elem_of_nil]]]; [split; [lia | by eexists].. | done].
  - intros p Hp. rewrite !elem_of_cons in Hp. destruct Hp as [-> |[-> |[-> |?%elem_of_nil]]]; [by eexists.. | done].
  - intros p q Hp Hq. rewrite !elem_of_cons in Hp, Hq.
    destruct Hp as [-> |[-> |[-> |?%elem_of_nil]]], Hq as [-> |[-> |[-> |?%elem_of_nil]]]; done.
Qed.

(** Thread 1 adds 1 to its registers twice, with a turn of each other thread in
    between, of which 2 doubles its own. *)
Lemma vector_registers_private_witness :
  wp (run 0 [Op (Z.add 1); Tick 0; Op (Z.mul 2); Tick 0; Tick 0; Op (Z.add 1)]) (fun _ s' => regs_of s' 1 = 9 /\ regs_of s' 2 = 40 /\ regs_of s' 3 = 30) (demo_vec 1).
Proof.
  pose proof (vector_registers_private 0 [1; 2; 3] [1; 2; 3] [] [Op (Z.add 1); Tick 0; Op (Z.mul 2); Tick 0; Tick 0; Op (Z.add 1)] (demo_vec 1) ltac:(simpl; lia) demo_turns) as H.
  unfold wp in *. destruct (run _ _ _) as [[tr s']|e] eqn:E; [| done]. destruct H as [_ H].
  assert ((fst <$> tr, (fun pg => pg.2 0) <$> tr, (fun pg => pg.2 1) <$> tr) = ([1; 2; 1], [1; 0; 1], [2; 2; 2])) as Htr by (vm_compute in E; injection E as <- _; reflexivity).
  split_and!; rewrite H by (rewrite !elem_of_cons; tauto); vm_compute in E; injection E as <- _; vm_compute; reflexivity.
Defined.

Lemma first_switch_loses_witness : wp (run 0 [Op (Z.add 1); Tick 0; Op (Z.mul 2)]) (fun _ s' => regs_of s' 1 = 10) (demo_vec 0).
Proof.
  eapply wp_mono; [exact (first_switch_loses 0 0 [] 1 [2; 3] 2 [] (Z.add 1) (Z.mul 2) (demo_vec 0) 10 20 demo_sched_inv eq_refl eq_refl eq_refl ltac:(by left) eq_refl eq_refl eq_refl eq_refl) |].
  intros tr s' (_ & H & _). exact H.
Defined.

Lemma stale_context_witness : current_thread demo_sched = 1 /\ vector_ctx_switch (demo_vec 5) = Err Fault.
Proof. split; [reflexivity | apply (stale_context (demo_vec 5)); [discriminate | discriminate | reflexivity | by left]]. Defined.
