(* ===== verification/Syscalls.v ===== *)
(** System calls ([arch/x86_64/syscalls/syscalls.c] and [syscalls.asm]): the
    registers of the processor that enable the instruction, the way into the
    kernel and back, and the dispatch on the number. *)
From S2P Require Import Prelude Interfaces Cpu CString FsSim Dfs DfsDemo Vfs Desc.

(** * Constants and state *)

Definition IA32_EFER : Z := 0xC0000080.
Definition IA32_STAR : Z := 0xC0000081.
Definition IA32_LSTAR : Z := 0xC0000082.
Definition IA32_FMASK : Z := 0xC0000084.
Definition IA32_KERNEL_GS_BASE : Z := 0xC0000102.

Definition FLAGS_DF : Z := 0x400.
Definition FLAGS_TF : Z := 0x100.

Definition SYS_READ : Z := 0.
Definition SYS_WRITE : Z := 1.
Definition SYS_OPEN : Z := 2.
Definition SYS_CLOSE : Z := 3.
Definition SYS_LSEEK : Z := 8.
Definition SYS_MMAP : Z := 9.
Definition SYS_MUNMAP : Z := 11.
Definition SYS_BRK : Z := 12.
Definition SYS_EXIT : Z := 60.
Definition SYS_FSYNC : Z := 74.
Definition SYS_SYNC : Z := 162.
Definition SYS_TIME : Z := 201.
Definition SYS_EXIT_GROUP : Z := 231.

(** The registers as [syscall_entry] leaves them on the kernel stack. *)
Record SyscallRegisters : Type := Regs {
  rax : Z; rbx : Z; rdx : Z; rsi : Z; rdi : Z; rbp : Z; r8 : Z; r9 : Z; r10 : Z;
  r11 : Z; r12 : Z; r13 : Z; r14 : Z; r15 : Z;
  sr_rip : Z; sr_rflags : Z;
}.
Definition set_rax (x : Z) (r : SyscallRegisters) : SyscallRegisters :=
  Regs x (rbx r) (rdx r) (rsi r) (rdi r) (rbp r) (r8 r) (r9 r) (r10 r) (r11 r) (r12 r) (r13 r) (r14 r) (r15 r) (sr_rip r) (sr_rflags r).

(** What the calls do, by name. Reading and writing give the value of [rax], with
    the flags of the file looked at; a file offset, a status and a number of bytes
    are [int]s in C. *)
Class SysOps (St : Type) : Type := {
  do_read : Z -> Z -> Z -> M St Z;
  do_write : Z -> Z -> Z -> M St Z;
  do_open : Z -> Z -> M St Z;
  do_close : Z -> M St Z;
  do_lseek : Z -> Z -> Z -> M St Z;
  do_mmap : Z -> Z -> Z -> Z -> Z -> Z -> M St Z;
  do_munmap : Z -> M St unit;
  do_brk : Z -> M St Z;
  do_thread_exit : M St unit;
  do_fsync : Z -> M St Z;
  do_sync : M St Z;
  do_time : M St Z;
  do_exit_group : M St unit;
}.

(** * Operations *)

(** ** Initialisation *)

(** The model-specific registers, by number; two halves of 32 bits are written. *)
Section Msrs.
Implicit Types m : gmap Z Z.


(** The addresses of [sstacks] and [syscall_entry]. *)
Context (sstacks syscall_entry : Z).

Definition init_kernel_gs_base : M (gmap Z Z) unit := write_msr IA32_KERNEL_GS_BASE (u32 sstacks) (u32 (Z.shiftr sstacks 32)).

Definition init_syscalls : M (gmap Z Z) unit :=
  '(low, high) ← read_msr IA32_EFER;
  let efer := Z.lor (Z.lor (Z.shiftl high 32) low) 1 in
  write_msr IA32_EFER (u32 efer) (u32 (Z.shiftr efer 32));;
  let star := Z.lor (Z.shiftl 0x10 48) (Z.shiftl 0x08 32) in
  write_msr IA32_STAR (u32 star) (u32 (Z.shiftr star 32));;
  write_msr IA32_LSTAR (u32 syscall_entry) (u32 (Z.shiftr syscall_entry 32));;
  let mflags := Z.lor (Z.lor FLAGS_IF FLAGS_DF) FLAGS_TF in
  write_msr IA32_FMASK (u32 mflags) (u32 (Z.shiftr mflags 32));;
  init_kernel_gs_base.
End Msrs.

(** ** Dispatch *)

Section Handler.
Context {St : Type} `{SysOps St} (Lc : lens St cpu).

(** The statement that a case ends with: the result, as a word, in [rax]. *)
Definition result (regs : SyscallRegisters) (m : M St Z) : M St SyscallRegisters := x ← m; mret (set_rax (u64 x) regs).

Definition syscall_case (regs : SyscallRegisters) : M St SyscallRegisters :=
  let n := rax regs in
  if n =? SYS_READ then result regs (do_read (rdi regs) (rsi regs) (rdx regs))
  else if n =? SYS_WRITE then result regs (do_write (rdi regs) (rsi regs) (rdx regs))
  else if n =? SYS_OPEN then result regs (do_open (rdi regs) (rsi regs))
  else if n =? SYS_CLOSE then result regs (do_close (rdi regs))
  else if n =? SYS_LSEEK then result regs (do_lseek (rdi regs) (rsi regs) (rdx regs))
  else if n =? SYS_MMAP then result regs (do_mmap (rdi regs) (rsi regs) (u32 (rdx regs)) (u32 (r10 regs)) (r8 regs) (r9 regs))
  else if n =? SYS_MUNMAP then do_munmap (rdi regs);; mret regs
  else if n =? SYS_BRK then result regs (do_brk (rdi regs))
  else if n =? SYS_EXIT then do_thread_exit;; mret regs
  else if n =? SYS_FSYNC then result regs (do_fsync (rdi regs))
  else if n =? SYS_SYNC then result regs do_sync
  else if n =? SYS_TIME then result regs do_time
  else if n =? SYS_EXIT_GROUP then do_exit_group;; mret regs
  else mret (set_rax (u64 (-38)) regs).

Definition syscall_handler (regs : SyscallRegisters) : M St SyscallRegisters :=
  sti Lc;;
  regs ← syscall_case regs;
  cli Lc;;
  mret regs.
End Handler.

(** ** The way in and out *)

(** The processor, its model-specific registers and memory as 64-bit words, with
    the rest of the kernel's state. *)
Record machine (St : Type) : Type := Machine {
  m_env : St;
  m_mem : gmap Z Z;
  m_msrs : gmap Z Z;
  m_regs : SyscallRegisters;
  m_rcx : Z;
  m_rsp : Z;
  m_cs : Z;
  m_ss : Z;
  m_gs : Z;
}.
Arguments Machine {St} m_env m_mem m_msrs m_regs m_rcx m_rsp m_cs m_ss m_gs.
Arguments m_env {St} m.
Arguments m_mem {St} m.
Arguments m_msrs {St} m.
Arguments m_regs {St} m.
Arguments m_rcx {St} m.
Arguments m_rsp {St} m.
Arguments m_cs {St} m.
Arguments m_ss {St} m.
Arguments m_gs {St} m.

Section Entry.
Context {St : Type} `{SysOps St} (Lc : lens St cpu).
Implicit Types s : machine St.

Definition set_m_env (x : St) s := Machine x (m_mem s) (m_msrs s) (m_regs s) (m_rcx s) (m_rsp s) (m_cs s) (m_ss s) (m_gs s).
Definition set_m_mem x s := Machine (m_env s) x (m_msrs s) (m_regs s) (m_rcx s) (m_rsp s) (m_cs s) (m_ss s) (m_gs s).
Definition set_m_msrs x s := Machine (m_env s) (m_mem s) x (m_regs s) (m_rcx s) (m_rsp s) (m_cs s) (m_ss s) (m_gs s).
Definition set_m_regs x s := Machine (m_env s) (m_mem s) (m_msrs s) x (m_rcx s) (m_rsp s) (m_cs s) (m_ss s) (m_gs s).
Definition set_m_rcx x s := Machine (m_env s) (m_mem s) (m_msrs s) (m_regs s) x (m_rsp s) (m_cs s) (m_ss s) (m_gs s).
Definition set_m_rsp x s := Machine (m_env s) (m_mem s) (m_msrs s) (m_regs s) (m_rcx s) x (m_cs s) (m_ss s) (m_gs s).
Definition set_m_cs x s := Machine (m_env s) (m_mem s) (m_msrs s) (m_regs s) (m_rcx s) (m_rsp s) x (m_ss s) (m_gs s).
Definition set_m_ss x s := Machine (m_env s) (m_mem s) (m_msrs s) (m_regs s) (m_rcx s) (m_rsp s) (m_cs s) x (m_gs s).
Definition set_m_gs x s := Machine (m_env s) (m_mem s) (m_msrs s) (m_regs s) (m_rcx s) (m_rsp s) (m_cs s) (m_ss s) x.
Definition l_m_env : lens (machine St) St := Lens m_env set_m_env.

(** The processor's [syscall]: the next instruction and the flags are kept in
    [rcx] and [r11]; [sr_rip] and [sr_rflags] of [m_regs] are those registers. *)
Definition with_r11 (x : Z) (r : SyscallRegisters) : SyscallRegisters :=
  Regs (rax r) (rbx r) (rdx r) (rsi r) (rdi r) (rbp r) (r8 r) (r9 r) (r10 r) x (r12 r) (r13 r) (r14 r) (r15 r) (sr_rip r) (sr_rflags r).
Definition with_rbx (x : Z) (r : SyscallRegisters) : SyscallRegisters :=
  Regs (rax r) x (rdx r) (rsi r) (rdi r) (rbp r) (r8 r) (r9 r) (r10 r) (r11 r) (r12 r) (r13 r) (r14 r) (r15 r) (sr_rip r) (sr_rflags r).
Definition with_ip (ip fl : Z) (r : SyscallRegisters) : SyscallRegisters :=
  Regs (rax r) (rbx r) (rdx r) (rsi r) (rdi r) (rbp r) (r8 r) (r9 r) (r10 r) (r11 r) (r12 r) (r13 r) (r14 r) (r15 r) ip fl.

Definition cpu_syscall : M (machine St) unit :=
  modify (fun s =>
    let r := m_regs s in
    let star := m_msrs s @@ IA32_STAR in
    let c := Z.land (u16 (Z.shiftr star 32)) 0xFFFC in
    set_m_rcx (sr_rip r) (set_m_cs c (set_m_ss (c + 8)
      (set_m_regs (with_ip (m_msrs s @@ IA32_LSTAR) (Z.ldiff (sr_rflags r) (m_msrs s @@ IA32_FMASK)) (with_r11 (sr_rflags r) r)) s)))).

Definition push (x : Z) : M (machine St) unit :=
  modify (fun s => set_m_rsp (m_rsp s - 8) (set_m_mem (<[m_rsp s - 8 := x]> (m_mem s)) s)).
Definition pop : M (machine St) Z := fun s => Ok (m_mem s @@ m_rsp s, set_m_rsp (m_rsp s + 8) s).
Definition swapgs : M (machine St) unit :=
  modify (fun s => set_m_gs (m_msrs s @@ IA32_KERNEL_GS_BASE) (set_m_msrs (<[IA32_KERNEL_GS_BASE := m_gs s]> (m_msrs s)) s)).

(** [syscall_entry] up to the call of the handler. *)
Definition syscall_enter : M (machine St) unit :=
  swapgs;;
  modify (fun s => set_m_mem (<[m_gs s := m_rsp s]> (m_mem s)) s);;
  modify (fun s => set_m_rsp (m_mem s @@ (m_gs s + 8)) s);;
  r ← gets m_regs; c ← gets m_rcx;
  push (r11 r);; push c;;
  push (r15 r);; push (r14 r);; push (r13 r);; push (r12 r);; push (r11 r);; push (r10 r);; push (r9 r);; push (r8 r);;
  push (rbp r);; push (rdi r);; push (rsi r);; push (rdx r);; push (rbx r);; push (rax r).

(** The call: the handler has a pointer to the words on the stack. *)
Definition load_regs (m : gmap Z Z) (p : Z) : SyscallRegisters :=
  Regs (m @@ p) (m @@ (p + 8)) (m @@ (p + 16)) (m @@ (p + 24)) (m @@ (p + 32)) (m @@ (p + 40)) (m @@ (p + 48)) (m @@ (p + 56)) (m @@ (p + 64))
    (m @@ (p + 72)) (m @@ (p + 80)) (m @@ (p + 88)) (m @@ (p + 96)) (m @@ (p + 104)) (m @@ (p + 112)) (m @@ (p + 120)).
Definition call_handler : M (machine St) unit :=
  p ← gets m_rsp;
  r ← gets (fun s => load_regs (m_mem s) p);
  r' ← zoom l_m_env (syscall_handler Lc r);
  modify (fun s => set_m_mem (<[p := rax r']> (m_mem s)) s).

(** The rest; [iretq] takes five words off the stack. *)
Definition syscall_leave : M (machine St) unit :=
  a ← pop; b ← pop; d ← pop; si ← pop; di ← pop; bp ← pop; x8 ← pop; x9 ← pop; x10 ← pop; x11 ← pop; x12 ← pop; x13 ← pop; x14 ← pop; x15 ← pop;
  r ← gets m_regs;
  modify (set_m_regs (Regs a b d si di bp x8 x9 x10 x11 x12 x13 x14 x15 (sr_rip r) (sr_rflags r)));;
  c ← pop; modify (set_m_rcx c);;
  fl ← pop; modify (fun s => set_m_regs (with_r11 fl (m_regs s)) s);;
  push b;;
  modify (fun s => set_m_regs (with_rbx (m_mem s @@ m_gs s) (m_regs s)) s);;
  push 0x1B;;
  u ← gets (fun s => rbx (m_regs s)); push u;;
  f ← gets (fun s => r11 (m_regs s)); push f;;
  push 0x23;;
  c ← gets m_rcx; push c;;
  modify (fun s => set_m_regs (with_rbx (m_mem s @@ (m_rsp s + 40)) (m_regs s)) s);;
  swapgs;;
  ip ← pop; cs ← pop; fl ← pop; sp ← pop; ss ← pop;
  modify (fun s => set_m_cs cs (set_m_ss ss (set_m_rsp sp (set_m_regs (with_ip ip fl (m_regs s)) s)))).

Definition syscall_entry : M (machine St) unit := syscall_enter;; call_handler;; syscall_leave.
End Entry.

(** * Specification *)

(** The registers of the processor that [init_syscalls] sets. *)
Definition msrs_ready (sstacks entry : Z) (m : gmap Z Z) : Prop :=
  Z.testbit (m @@ IA32_EFER) 0 = true /\ m @@ IA32_STAR = 0x10 * 2 ^ 48 + 0x08 * 2 ^ 32 /\ m @@ IA32_LSTAR = entry /\
  m @@ IA32_FMASK = 0x700 /\ m @@ IA32_KERNEL_GS_BASE = sstacks.

(** A thread in user mode, ready to enter the kernel: [gs] of the kernel is
    [sstacks], whose second word is the top of a kernel stack with room for the
    words that are pushed, apart from [sstacks]. *)
Definition stack_ok (sstacks top : Z) : Prop := sstacks + 8 < top - 128 \/ top <= sstacks.
Record can_enter {St} (sstacks entry top : Z) (s : machine St) : Prop := {
  ce_msrs : msrs_ready sstacks entry (m_msrs s);
  ce_top : m_mem s @@ (sstacks + 8) = top;
  ce_stack : stack_ok sstacks top;
}.

(** The user's registers as the handler sees them. *)
Definition user_regs {St} (s : machine St) : SyscallRegisters := with_r11 (sr_rflags (m_regs s)) (m_regs s).

(** Back in user mode: everything is as it was but [rax], [rcx] and [r11], and the
    selectors name the segments of user mode. *)
Record returned {St} (a : Z) (s s' : machine St) : Prop := {
  rt_regs : m_regs s' = set_rax a (user_regs s);
  rt_rcx : m_rcx s' = sr_rip (m_regs s);
  rt_rsp : m_rsp s' = m_rsp s;
  rt_seg : m_cs s' = 0x23 /\ m_ss s' = 0x1B;
  rt_gs : m_gs s' = m_gs s;
  rt_msrs : forall i, m_msrs s' @@ i = m_msrs s @@ i;
}.

(** Only the kernel stack and the first word of [sstacks] are written. *)
Definition stack_written (sstacks top : Z) (m m' : gmap Z Z) : Prop := forall x, ~ top - 128 <= x < top -> x <> sstacks -> m' @@ x = m @@ x.

(** 64-bit words. *)
Definition word (x : Z) : Prop := 0 <= x < 2 ^ 64.
Definition regs_words (r : SyscallRegisters) : Prop :=
  Forall word [rax r; rbx r; rdx r; rsi r; rdi r; rbp r; r8 r; r9 r; r10 r; r11 r; r12 r; r13 r; r14 r; r15 r; sr_rip r; sr_rflags r].
Record words {St} (s : machine St) : Prop := {
  wd_regs : regs_words (m_regs s);
  wd_rcx : word (m_rcx s);
  wd_mem x : word (m_mem s @@ x);
  wd_msrs i : word (m_msrs s @@ i);
  wd_gs : word (m_gs s);
}.

(** * Lemmas *)

(** ** Initialisation *)

Lemma msr_halves x : word x -> Z.lor (u32 (u32 x)) (Z.shiftl (u32 (u32 (Z.shiftr x 32))) 32) = x.
Proof.
  intros Hx. rewrite Z.shiftr_div_pow2, Z.shiftl_mul_pow2 by lia. unfold u32. rewrite !Zmod_mod.
  rewrite (Z.mod_small (x / 2 ^ 32)) by (unfold word in Hx; clear -Hx; dlia). rewrite (Z.mul_comm (x / _)), lor_shifted; [| lia | apply Z.mod_pos_bound; lia].
  pose proof (Z_div_mod_eq_full x (2 ^ 32)). lia.
Qed.

Lemma wp_write_msr i x (Q : unit -> gmap Z Z -> Prop) m : word x -> Q tt (<[i := x]> m) -> wp (write_msr i (u32 x) (u32 (Z.shiftr x 32))) Q m.
Proof. intros Hx HQ. apply wp_modify. by rewrite msr_halves. Qed.

Lemma lor_word a b : word a -> word b -> word (Z.lor a b).
Proof.
  intros Ha Hb. split; [apply Z.lor_nonneg; split; apply Ha || apply Hb |].
  destruct (Z.eq_dec (Z.lor a b) 0) as [->|Hne]; [done |]. apply Z.log2_lt_pow2; [assert (0 <= Z.lor a b) by (apply Z.lor_nonneg; split; apply Ha || apply Hb); lia |].
  rewrite Z.log2_lor by (apply Ha || apply Hb). apply Z.max_lub_lt.
  - destruct (Z.eq_dec a 0) as [->|]; [done |]. apply Z.log2_lt_pow2; unfold word in *; lia.
  - destruct (Z.eq_dec b 0) as [->|]; [done |]. apply Z.log2_lt_pow2; unfold word in *; lia.
Qed.

Lemma wp_init_syscalls sstacks entry m : word sstacks -> word entry -> word (m @@ IA32_EFER) ->
  wp (init_syscalls sstacks entry) (fun _ m' => msrs_ready sstacks entry m' /\ m' @@ IA32_EFER = Z.lor (m @@ IA32_EFER) 1 /\
    forall i, i ∉ [IA32_EFER; IA32_STAR; IA32_LSTAR; IA32_FMASK; IA32_KERNEL_GS_BASE] -> m' @@ i = m @@ i) m.
Proof.
  intros Hs He Hf. apply wp_bind, wp_gets. cbv beta zeta iota.
  assert (Z.lor (Z.shiftl (u32 (Z.shiftr (m @@ IA32_EFER) 32)) 32) (u32 (m @@ IA32_EFER)) = m @@ IA32_EFER) as ->.
  { rewrite Z.lor_comm. pose proof (msr_halves _ Hf) as E. unfold u32 in *. by rewrite !Zmod_mod in E. }
  set (efer := Z.lor _ 1). assert (word efer) as Hef by (apply lor_word; [exact Hf | done]).
  apply wp_bind, wp_write_msr; [done |]. apply wp_bind, wp_write_msr; [done |]. apply wp_bind, wp_write_msr; [done |].
  apply wp_bind, wp_write_msr; [done |]. apply wp_write_msr; [done |]. split_and!.
  - unfold msrs_ready. split_and!; rewrite ?rd_insert_ne by (vm_compute; congruence); rewrite rd_insert_eq; try done.
    unfold efer. rewrite (testbit_setbit _ 0) by lia. done.
  - rewrite !rd_insert_ne by (vm_compute; congruence). apply rd_insert_eq.
  - intros i Hi. rewrite !elem_of_cons in Hi. rewrite !rd_insert_ne; [done | intros <-; naive_solver..].
Qed.

(** ** The kernel stack *)

(** The words [l] pushed from [top] down. *)
Fixpoint pushed (top : Z) (l : list Z) (m : gmap Z Z) : gmap Z Z :=
  match l with [] => m | x :: l' => pushed (top - 8) l' (<[top - 8 := x]> m) end.

Lemma pushed_other top l m x : ~ top - 8 * Z.of_nat (length l) <= x < top -> pushed top l m @@ x = m @@ x.
Proof.
  revert top m. induction l as [|y l IH]; intros top m Hx; [done |]. cbn [pushed length] in *. rewrite IH by lia. apply rd_insert_ne. lia.
Qed.

Lemma pushed_lookup top l m i x y : l !! i = Some y -> x = top - 8 * (Z.of_nat i + 1) -> pushed top l m @@ x = y.
Proof.
  revert top m i. induction l as [|z l IH]; intros top m [|i] Hi Hx; try done; cbn [pushed].
  - injection Hi as ->. rewrite pushed_other by lia. replace x with (top - 8) by lia. apply rd_insert_eq.
  - apply IH with i; [done | lia].
Qed.

Lemma pushed_snoc top l x m : pushed top (l ++ [x]) m = <[top - 8 * (Z.of_nat (length l) + 1) := x]> (pushed top l m).
Proof.
  revert top m. induction l as [|y l IH]; intros top m; cbn [pushed app length].
  - by replace (top - 8 * (Z.of_nat 0 + 1)) with (top - 8) by lia.
  - rewrite IH. by replace (top - 8 - 8 * (Z.of_nat (length l) + 1)) with (top - 8 * (Z.of_nat (S (length l)) + 1)) by lia.
Qed.

Lemma pushed_words top l m : Forall word l -> (forall x, word (m @@ x)) -> forall x, word (pushed top l m @@ x).
Proof.
  revert top m. induction l as [|y l IH]; intros top m Hl Hm; [done |]. apply Forall_cons in Hl as [Hy Hl]. apply IH; [done |].
  intros x. rewrite rd_insert. by case_decide.
Qed.

Section entry_lemmas.
Context {St : Type} `{SysOps St} (Lc : lens St cpu).
Implicit Types s : machine St.

Definition push_state (l : list Z) s : machine St := set_m_rsp (m_rsp s - 8 * Z.of_nat (length l)) (set_m_mem (pushed (m_rsp s) l (m_mem s)) s).

Lemma wp_push_word l x s (Q : unit -> machine St -> Prop) : Q tt (push_state (l ++ [x]) s) -> wp (push x) Q (push_state l s).
Proof.
  intros HQ. apply wp_modify. unfold push_state in *. rewrite pushed_snoc, length_app in HQ. cbn [length m_rsp m_mem set_m_rsp set_m_mem] in *.
  replace (m_rsp s - 8 * Z.of_nat (length l) - 8) with (m_rsp s - 8 * Z.of_nat (length l + 1)) by lia.
  by replace (m_rsp s - 8 * Z.of_nat (length l + 1)) with (m_rsp s - 8 * (Z.of_nat (length l) + 1)) at 2 by lia.
Qed.

Lemma push_state_nil s : s = push_state [] s.
Proof. destruct s. unfold push_state, set_m_rsp, set_m_mem. cbn [length pushed m_rsp m_mem m_env m_msrs m_regs m_rcx m_cs m_ss m_gs]. by rewrite Z.mul_0_r, Z.sub_0_r. Qed.

(** The words that the entry pushes. *)
Definition frame (r : SyscallRegisters) (c : Z) : list Z :=
  [r11 r; c; r15 r; r14 r; r13 r; r12 r; r11 r; r10 r; r9 r; r8 r; rbp r; rdi r; rsi r; rdx r; rbx r; rax r].

Lemma load_frame r c top m : load_regs (pushed top (frame r c) m) (top - 128) = with_ip c (r11 r) r.
Proof.
  unfold load_regs, with_ip, frame. f_equal;
    [eapply (pushed_lookup _ _ _ 15) | eapply (pushed_lookup _ _ _ 14) | eapply (pushed_lookup _ _ _ 13) | eapply (pushed_lookup _ _ _ 12)
    | eapply (pushed_lookup _ _ _ 11) | eapply (pushed_lookup _ _ _ 10) | eapply (pushed_lookup _ _ _ 9) | eapply (pushed_lookup _ _ _ 8)
    | eapply (pushed_lookup _ _ _ 7) | eapply (pushed_lookup _ _ _ 6) | eapply (pushed_lookup _ _ _ 5) | eapply (pushed_lookup _ _ _ 4)
    | eapply (pushed_lookup _ _ _ 3) | eapply (pushed_lookup _ _ _ 2) | eapply (pushed_lookup _ _ _ 1) | eapply (pushed_lookup _ _ _ 0)]; try reflexivity; lia.
Qed.

(** The state at the call of the handler. *)
Record entered sstacks entry top s s1 : Prop := {
  en_env : m_env s1 = m_env s;
  en_frame : load_regs (m_mem s1) (top - 128) = user_regs s;
  en_user : m_mem s1 @@ sstacks = m_rsp s;
  en_mem : stack_written sstacks top (m_mem s) (m_mem s1);
  en_rsp : m_rsp s1 = top - 128;
  en_seg : m_cs s1 = 0x08 /\ m_ss s1 = 0x10;
  en_ip : sr_rip (m_regs s1) = entry /\ Z.testbit (sr_rflags (m_regs s1)) 9 = false;
  en_gs : m_gs s1 = sstacks;
  en_words : regs_words (m_regs s) -> word (m_rsp s) -> (forall x, word (m_mem s @@ x)) -> forall x, word (m_mem s1 @@ x);
  en_msrs i : m_msrs s1 @@ i = if decide (i = IA32_KERNEL_GS_BASE) then m_gs s else m_msrs s @@ i;
}.

Lemma wp_enter sstacks entry top s (Q : unit -> machine St -> Prop) : can_enter sstacks entry top s ->
  (forall s1, entered sstacks entry top s s1 -> Q tt s1) -> wp (cpu_syscall;; syscall_enter) Q s.
Proof.
  intros [(_ & Hstar & Hlstar & Hmask & Hgs) Htop Hok] HQ. apply wp_bind, wp_modify. rewrite Hstar, Hlstar, Hmask.
  change (Z.land (u16 (Z.shiftr (0x10 * 2 ^ 48 + 0x08 * 2 ^ 32) 32)) 0xFFFC) with 8.
  set (s1 := set_m_rcx _ _). apply wp_bind, wp_modify. change (m_msrs s1) with (m_msrs s). rewrite Hgs. set (s2 := set_m_gs _ _).
  apply wp_bind, wp_modify. change (m_gs s2) with sstacks. change (m_rsp s2) with (m_rsp s). change (m_mem s2) with (m_mem s). set (s3 := set_m_mem _ s2).
  apply wp_bind, wp_modify. change (m_mem s3 @@ (m_gs s3 + 8)) with (<[sstacks := m_rsp s]> (m_mem s) @@ (sstacks + 8)).
  rewrite rd_insert_ne, Htop by lia. set (s4 := set_m_rsp top s3). apply wp_bind, wp_gets, wp_bind, wp_gets. rewrite (push_state_nil s4).
  change (m_regs (push_state [] s4)) with (m_regs s4). change (m_rcx (push_state [] s4)) with (m_rcx s4).
  do 15 (apply wp_bind, wp_push_word; cbn [app]). apply wp_push_word. cbn [app].
  change (push_state _ s4) with (push_state (frame (m_regs s4) (m_rcx s4)) s4). apply HQ.
  assert (m_mem (push_state (frame (m_regs s4) (m_rcx s4)) s4) = pushed top (frame (m_regs s4) (m_rcx s4)) (<[sstacks := m_rsp s]> (m_mem s))) as Hmem by done.
  split; try done; rewrite ?Hmem.
  - rewrite load_frame. reflexivity.
  - rewrite pushed_other; [apply rd_insert_eq |]. unfold stack_ok in Hok. simpl length. lia.
  - intros x Hx Hne. rewrite pushed_other by (simpl length; lia). by apply rd_insert_ne.
  - split; [done |]. change (sr_rflags _) with (Z.ldiff (sr_rflags (m_regs s)) 0x700).
    rewrite Z.ldiff_spec. change (Z.testbit 0x700 9) with true. apply andb_false_r.
  - intros Hr Hu Hm. apply pushed_words.
    + unfold regs_words in Hr. rewrite !Forall_cons in Hr. unfold frame. rewrite !Forall_cons. change (m_rcx s4) with (sr_rip (m_regs s)).
      change (r11 (m_regs s4)) with (sr_rflags (m_regs s)). cbn. tauto.
    + intros x. rewrite rd_insert. by case_decide.
  - intros i. change (m_msrs (push_state _ s4)) with (<[IA32_KERNEL_GS_BASE := m_gs s]> (m_msrs s)). rewrite rd_insert. repeat case_decide; by subst.
Qed.

Lemma wp_pop_word p k k' s (Q : Z -> machine St -> Prop) : k' = k + 8 -> Q (m_mem s @@ (p + k)) (set_m_rsp (p + k') s) -> wp pop Q (set_m_rsp (p + k) s).
Proof. intros -> HQ. unfold wp, pop. cbn [m_mem m_rsp set_m_rsp]. rewrite <- Z.add_assoc. exact HQ. Qed.

(** The state after the way out. *)
Record left_kernel (R : SyscallRegisters) (p : Z) s s' : Prop := {
  lk_env : m_env s' = m_env s;
  lk_regs : m_regs s' = with_r11 (sr_rflags R) R;
  lk_rcx : m_rcx s' = sr_rip R;
  lk_rsp : m_rsp s' = m_mem s @@ m_gs s;
  lk_seg : m_cs s' = 0x23 /\ m_ss s' = 0x1B;
  lk_gs : m_gs s' = m_msrs s @@ IA32_KERNEL_GS_BASE;
  lk_msrs i : m_msrs s' @@ i = if decide (i = IA32_KERNEL_GS_BASE) then m_gs s else m_msrs s @@ i;
  lk_words : regs_words R -> (forall x, word (m_mem s @@ x)) -> forall x, word (m_mem s' @@ x);
  lk_mem x : ~ p <= x < p + 128 -> m_mem s' @@ x = m_mem s @@ x;
}.

(** What [iretq] takes is what was pushed for it. *)
Lemma wp_leave p R s (Q : unit -> machine St -> Prop) : m_rsp s = p -> load_regs (m_mem s) p = R -> ~ p <= m_gs s < p + 128 ->
  (forall s', left_kernel R p s s' -> Q tt s') -> wp syscall_leave Q s.
Proof.
  intros Hp HR Hgs HQ. assert (s = set_m_rsp (p + 0) s) as Hs by (destruct s; cbn in *; subst; unfold set_m_rsp; cbn; by rewrite Z.add_0_r).
  rewrite Hs. unfold syscall_leave.
  apply wp_bind, (wp_pop_word _ 0 8), wp_bind, (wp_pop_word _ 8 16), wp_bind, (wp_pop_word _ 16 24), wp_bind, (wp_pop_word _ 24 32), wp_bind, (wp_pop_word _ 32 40), wp_bind, (wp_pop_word _ 40 48),
    wp_bind, (wp_pop_word _ 48 56), wp_bind, (wp_pop_word _ 56 64), wp_bind, (wp_pop_word _ 64 72), wp_bind, (wp_pop_word _ 72 80), wp_bind, (wp_pop_word _ 80 88),
    wp_bind, (wp_pop_word _ 88 96), wp_bind, (wp_pop_word _ 96 104), wp_bind, (wp_pop_word _ 104 112); try reflexivity.
  assert (load_regs (m_mem s) p = load_regs (m_mem s) p) as E by done. unfold load_regs in E at 1. rewrite HR in E.
  rewrite Z.add_0_r. apply wp_bind, wp_gets, wp_bind, wp_modify.
  change (set_m_regs ?r (set_m_rsp ?x s)) with (set_m_rsp x (set_m_regs r s)).
  apply wp_bind, (wp_pop_word _ 112 120); [done |]. apply wp_bind, wp_modify. change (set_m_rcx ?c (set_m_rsp ?x ?t)) with (set_m_rsp x (set_m_rcx c t)).
  apply wp_bind, (wp_pop_word _ 120 128); [done |]. apply wp_bind, wp_modify. change (set_m_regs ?r (set_m_rsp ?x ?t)) with (set_m_rsp x (set_m_regs r t)).
  change (m_mem (set_m_regs _ s)) with (m_mem s). change (m_mem (set_m_rcx _ _)) with (m_mem s). subst R.
  set (R := load_regs (m_mem s) p). set (t := set_m_rsp (p + 128) _). assert (m_rsp t = p + 128) as Ht by done.
  rewrite (push_state_nil t). apply wp_bind, wp_push_word. cbn [app].
  apply wp_bind, wp_modify. change (m_gs (push_state _ t)) with (m_gs s). change (m_mem (push_state [m_mem s @@ (p + 8)] t)) with (pushed (p + 128) [rbx R] (m_mem s)).
  rewrite pushed_other by (simpl length; lia). set (U := m_mem s @@ m_gs s).
  change (set_m_regs ?r (push_state ?l t)) with (push_state [rbx R] (set_m_regs (with_rbx U (m_regs t)) t)). set (t2 := set_m_regs _ t).
  apply wp_bind, wp_push_word; cbn [app]. apply wp_bind, wp_gets. change (rbx (m_regs (push_state _ t2))) with U. apply wp_bind, wp_push_word; cbn [app].
  apply wp_bind, wp_gets. change (r11 (m_regs (push_state _ t2))) with (sr_rflags R). apply wp_bind, wp_push_word; cbn [app].
  apply wp_bind, wp_push_word; cbn [app]. apply wp_bind, wp_gets. change (m_rcx (push_state _ t2)) with (sr_rip R). apply wp_bind, wp_push_word; cbn [app].
  set (l := [rbx R; 0x1B; U; sr_rflags R; 0x23; sr_rip R]). apply wp_bind, wp_modify.
  change (m_mem (push_state l t2)) with (pushed (p + 128) l (m_mem s)). change (m_rsp (push_state l t2)) with (p + 128 - 8 * Z.of_nat (length l)).
  rewrite (pushed_lookup _ l _ 0 _ (rbx R)) by (done || simpl length; lia). apply wp_bind, wp_modify.
  set (t3 := set_m_gs _ _).
  assert (t3 = set_m_rsp (p + 80 + 0) t3) as ->.
  { unfold t3, push_state, set_m_gs, set_m_msrs, set_m_regs, set_m_rsp, set_m_mem. cbn [m_rsp m_env m_mem m_msrs m_regs m_rcx m_cs m_ss m_gs]. f_equal. change (m_rsp t2) with (p + 128). simpl length. lia. }
  assert (m_mem t3 = pushed (p + 128) l (m_mem s)) as Hm by done.
  apply wp_bind, (wp_pop_word _ 0 8), wp_bind, (wp_pop_word _ 8 16), wp_bind, (wp_pop_word _ 16 24), wp_bind, (wp_pop_word _ 24 32), wp_bind, (wp_pop_word _ 32 40); try reflexivity.
  change (m_mem (set_m_rsp _ t3)) with (m_mem t3). rewrite Hm.
  rewrite (pushed_lookup _ l _ 5 (p + 80 + 0) (sr_rip R)), (pushed_lookup _ l _ 4 (p + 80 + 8) 0x23), (pushed_lookup _ l _ 3 (p + 80 + 16) (sr_rflags R)), (pushed_lookup _ l _ 2 (p + 80 + 24) U), (pushed_lookup _ l _ 1 (p + 80 + 32) 0x1B) by (done || lia).
  apply wp_modify, HQ. split; try done.
  - intros i. change (m_msrs (set_m_cs _ _)) with (<[IA32_KERNEL_GS_BASE := m_gs s]> (m_msrs s)). rewrite rd_insert. repeat case_decide; by subst.
  - intros Hr Hmw. change (m_mem (set_m_cs _ _)) with (m_mem t3). rewrite Hm. apply pushed_words; [| done].
    unfold regs_words in Hr. rewrite !Forall_cons in Hr. specialize (Hmw (m_gs s)). fold U in Hmw. fold R in Hr.
    assert (word 0x1B /\ word 0x23) as [? ?] by done. unfold l. rewrite !Forall_cons. tauto.
  - intros x Hx. change (m_mem (set_m_cs _ _)) with (m_mem t3). rewrite Hm. apply pushed_other. simpl length. lia.
Qed.

(** The handler changes [rax] at most, to a word. *)
Lemma syscall_case_rax r (s : St) r' (s' : St) : syscall_case r s = Ok (r', s') -> r' = set_rax (rax r') r /\ (r' = r \/ word (rax r')).
Proof.
  assert (forall m (t : St), result r m t = Ok (r', s') -> r' = set_rax (rax r') r /\ (r' = r \/ word (rax r'))) as Hres.
  { intros m t. unfold result, mbind, M_bind. destruct (m t) as [[x t']|e]; [| done]. intros [= <- _]. split; [done | right; apply u64_range]. }
  assert (forall (m : M St unit) t, (m;; mret r) t = Ok (r', s') -> r' = set_rax (rax r') r /\ (r' = r \/ word (rax r'))) as Hret.
  { intros m t. unfold mbind, M_bind. destruct (m t) as [[x t']|e]; [| done]. intros [= <- _]. split; [by destruct r | by left]. }
  unfold syscall_case. cbv zeta. repeat (case_match; [by eauto |]). intros [= <- _]. split; [done | right; by vm_compute].
Qed.

Lemma syscall_handler_rax r (s : St) r' (s' : St) : syscall_handler Lc r s = Ok (r', s') -> r' = set_rax (rax r') r /\ (r' = r \/ word (rax r')).
Proof.
  unfold syscall_handler, mbind, M_bind, sti, cli, modify. cbn -[syscall_case]. destruct (syscall_case r _) as [[x t]|e] eqn:E; [| done].
  cbn. intros [= <- _]. by eapply syscall_case_rax.
Qed.

Lemma load_set_rax m p a : load_regs (<[p := a]> m) p = set_rax a (load_regs m p).
Proof.
  unfold load_regs, set_rax. rewrite rd_insert_eq. cbn [rbx rdx rsi rdi rbp r8 r9 r10 r11 r12 r13 r14 r15 sr_rip sr_rflags]. rewrite !rd_insert_ne by lia. done.
Qed.

Lemma wp_system_call sstacks entry top s (Q : Z -> St -> Prop) : can_enter sstacks entry top s ->
  wp (syscall_handler Lc (user_regs s)) (fun r e => Q (rax r) e) (m_env s) ->
  wp (cpu_syscall;; syscall_entry Lc) (fun _ s' => exists a, Q a (m_env s') /\ (a = rax (m_regs s) \/ word a) /\ returned a s s' /\ m_mem s' @@ sstacks = m_rsp s /\
    stack_written sstacks top (m_mem s) (m_mem s') /\ (words s -> word (m_rsp s) -> words s')) s.
Proof.
  intros Hce Hh. unfold syscall_entry. apply (wp_bind_assoc cpu_syscall (fun _ => syscall_enter) (fun _ => call_handler Lc;; syscall_leave)).
  pose proof (ce_stack _ _ _ _ Hce) as Hok. apply wp_bind, (wp_enter sstacks entry top); [done |]. intros s1 He.
  apply wp_bind. destruct (wp_ok _ _ _ Hh) as (r' & e' & Er & HQr). destruct (syscall_handler_rax _ _ _ _ Er) as [Hr' Hw].
  apply wp_bind, wp_gets, wp_bind, wp_gets. rewrite (en_rsp _ _ _ _ _ He), (en_frame _ _ _ _ _ He).
  apply wp_bind, wp_zoom. cbn [view l_m_env]. rewrite (en_env _ _ _ _ _ He). eapply wp_of_ok; [exact Er |]. apply wp_modify.
  set (s2 := set_m_mem _ _). apply (wp_leave (top - 128) (set_rax (rax r') (user_regs s))); [apply He | | |].
  - change (m_mem s2) with (<[top - 128 := rax r']> (m_mem s1)). by rewrite load_set_rax, (en_frame _ _ _ _ _ He).
  - change (m_gs s2) with (m_gs s1). rewrite (en_gs _ _ _ _ _ He). unfold stack_ok in Hok. lia.
  - assert (m_mem s2 @@ sstacks = m_rsp s) as Hus.
    { change (m_mem s2) with (<[top - 128 := rax r']> (m_mem s1)). rewrite rd_insert_ne by (unfold stack_ok in Hok; lia). apply (en_user _ _ _ _ _ He). }
    intros s3 Hl. exists (rax r'). split_and!.
    + rewrite (lk_env _ _ _ _ Hl). exact HQr.
    + destruct Hw as [->|Hw]; [by left | by right].
    + split.
      * rewrite (lk_regs _ _ _ _ Hl). done.
      * apply (lk_rcx _ _ _ _ Hl).
      * rewrite (lk_rsp _ _ _ _ Hl). change (m_gs s2) with (m_gs s1). by rewrite (en_gs _ _ _ _ _ He).
      * apply (lk_seg _ _ _ _ Hl).
      * rewrite (lk_gs _ _ _ _ Hl). change (m_msrs s2) with (m_msrs s1). by rewrite (en_msrs _ _ _ _ _ He).
      * intros i. rewrite (lk_msrs _ _ _ _ Hl). change (m_gs s2) with (m_gs s1). change (m_msrs s2) with (m_msrs s1).
        rewrite (en_msrs _ _ _ _ _ He), (en_gs _ _ _ _ _ He). destruct (decide (i = IA32_KERNEL_GS_BASE)) as [->|]; [| done].
        symmetry. apply (ce_msrs _ _ _ _ Hce).
    + rewrite (lk_mem _ _ _ _ Hl) by (unfold stack_ok in Hok; lia). exact Hus.
    + intros x Hx Hne. rewrite (lk_mem _ _ _ _ Hl) by lia. change (m_mem s2) with (<[top - 128 := rax r']> (m_mem s1)).
      rewrite rd_insert_ne by lia. by apply (en_mem _ _ _ _ _ He).
    + intros [Hwr Hwc Hwm Hwi Hwg] Hsp. assert (word (rax r')) as Ha by (destruct Hw as [->|]; [by inversion Hwr | done]).
      assert (regs_words (set_rax (rax r') (user_regs s))) as Hru.
      { unfold regs_words in *. rewrite !Forall_cons in *. cbn. tauto. }
      split.
      * rewrite (lk_regs _ _ _ _ Hl). exact Hru.
      * rewrite (lk_rcx _ _ _ _ Hl). unfold regs_words in Hru. rewrite !Forall_cons in Hru. tauto.
      * apply (lk_words _ _ _ _ Hl Hru). intros x. change (m_mem s2) with (<[top - 128 := rax r']> (m_mem s1)). rewrite rd_insert.
        case_decide; [done |]. by apply (en_words _ _ _ _ _ He).
      * intros i. rewrite (lk_msrs _ _ _ _ Hl). change (m_gs s2) with (m_gs s1). change (m_msrs s2) with (m_msrs s1).
        rewrite (en_msrs _ _ _ _ _ He), (en_gs _ _ _ _ _ He). destruct (decide _); [| done].
        destruct (ce_msrs _ _ _ _ Hce) as (_ & _ & _ & _ & <-). apply Hwi.
      * rewrite (lk_gs _ _ _ _ Hl). change (m_msrs s2) with (m_msrs s1). by rewrite (en_msrs _ _ _ _ _ He), decide_True.
Qed.
End entry_lemmas.

(** ** The calls of the file system *)

(** The operations on files and the heap, with the others given. *)
Record other_calls (St : Type) : Type := OtherCalls {
  oc_mmap : Z -> Z -> Z -> Z -> Z -> Z -> M St Z;
  oc_munmap : Z -> M St unit;
  oc_thread_exit : M St unit;
  oc_time : M St Z;
  oc_exit_group : M St unit;
}.
Arguments oc_mmap {St} o.
Arguments oc_munmap {St} o.
Arguments oc_thread_exit {St} o.
Arguments oc_time {St} o.
Arguments oc_exit_group {St} o.

Section kernel.
Context {St : Type} `{FsServices St} (rounds fuel : nat) (tread twrite : Z -> Z -> Z -> M (kernel St) Z) (o : other_calls (kernel St)).

#[local] Instance kernel_calls : SysOps (kernel St) := {
  do_read := sys_read rounds fuel tread twrite;
  do_write := sys_write rounds fuel tread twrite;
  do_open := open fuel;
  do_close := close rounds fuel tread twrite;
  do_lseek := lseek;
  do_mmap := oc_mmap o;
  do_munmap := oc_munmap o;
  do_brk := brk;
  do_thread_exit := oc_thread_exit o;
  do_fsync := fsync rounds fuel tread twrite;
  do_sync := zoom l_k_dfs (sys_sync fuel);
  do_time := oc_time o;
  do_exit_group := oc_exit_group o;
}.

(** A descriptor that cannot be closed: the standard ones give 0, those out of the
    table -1. *)
Lemma close_call_rejects r s : rax r = SYS_CLOSE -> rdi r <= 2 \/ MAX_FD < rdi r ->
  wp (syscall_handler l_k_cpu r) (fun r' s' => r' = set_rax (if rdi r <=? 2 then 0 else 2 ^ 64 - 1) r /\
    k_dfs s' = k_dfs s /\ k_proc s' = k_proc s /\ open_lock s' = open_lock s) s.
Proof.
  intros Hn Hfd. apply wp_bind, wp_modify. apply wp_bind. unfold syscall_case. rewrite Hn. cbn [Z.eqb SYS_CLOSE SYS_READ SYS_WRITE SYS_OPEN].
  apply wp_bind. change (do_close (rdi r)) with (close rounds fuel tread twrite (rdi r)). unfold close, with_file. destruct (Z.leb_spec (rdi r) 2).
  - apply wp_ret, wp_ret, wp_bind, wp_modify, wp_ret. done.
  - destruct (Z.ltb_spec MAX_FD (rdi r)); [| lia]. apply wp_ret, wp_ret, wp_bind, wp_modify, wp_ret. done.
Qed.
End kernel.

(** * Properties *)

(** After the initialisation the instruction is enabled and enters the kernel at
    [syscall_entry] in the kernel's segments with interrupts off, and no other
    register of the processor has changed. *)
Theorem init_syscalls_spec sstacks entry m : word sstacks -> word entry -> word (m @@ IA32_EFER) ->
  wp (init_syscalls sstacks entry) (fun _ m' => msrs_ready sstacks entry m' /\ m' @@ IA32_EFER = Z.lor (m @@ IA32_EFER) 1 /\
    forall i, i ∉ [IA32_EFER; IA32_STAR; IA32_LSTAR; IA32_FMASK; IA32_KERNEL_GS_BASE] -> m' @@ i = m @@ i) m.
Proof. apply wp_init_syscalls. Qed.

(** The selectors that the way into the kernel and the way back load name the
    segments that [init_GDT] has put there: 64-bit code and data of the kernel, and
    64-bit code and data of user mode, with the privilege that each asks for. *)
Theorem syscall_segments {St : Type} (L : link_map) (d : desc St) : link_ok L ->
  wp (init_GDT L) (fun _ d' =>
    let seg sel := segment_at (d_mem d') (gdt_entries L + sel / 8 * 8) in
    let dpl sel := seg_access (seg sel) / 2 ^ 5 mod 4 in
    (seg_flags (seg 0x08) = 2 /\ Z.testbit (seg_access (seg 0x08)) 3 = true /\ dpl 0x08 = 0) /\
    (Z.testbit (seg_access (seg 0x10)) 3 = false /\ dpl 0x10 = 0) /\
    (seg_flags (seg 0x23) = 2 /\ Z.testbit (seg_access (seg 0x23)) 3 = true /\ dpl 0x23 = 0x23 mod 4) /\
    (Z.testbit (seg_access (seg 0x1B)) 3 = false /\ dpl 0x1B = 0x1B mod 4)) d.
Proof.
  intros HL. eapply wp_mono; [by apply wp_init_GDT |]. intros [] d' (_ & Hs & _). cbv beta zeta.
  change (0x08 / 8 * 8) with (1 * 8). change (0x10 / 8 * 8) with (2 * 8). change (0x23 / 8 * 8) with (4 * 8). change (0x1B / 8 * 8) with (3 * 8).
  rewrite !Hs by lia. repeat split; reflexivity.
Qed.

(** C8: a system call comes back: whatever the call does to the kernel, the thread
    goes on after its instruction, in user mode, on its own stack and with its own
    flags and registers, but for the result in [rax] and the two that the
    instruction uses; only its kernel stack and [sstacks] have been written. *)
Theorem system_call_roundtrip {St : Type} `{SysOps St} (Lc : lens St cpu) sstacks entry top (s : machine St) (Q : Z -> St -> Prop) :
  can_enter sstacks entry top s -> wp (syscall_handler Lc (user_regs s)) (fun r e => Q (rax r) e) (m_env s) ->
  wp (cpu_syscall;; syscall_entry Lc) (fun _ s' => exists a, Q a (m_env s') /\ returned a s s' /\ stack_written sstacks top (m_mem s) (m_mem s')) s.
Proof.
  intros Hc Hh. eapply wp_mono; [by apply (wp_system_call Lc sstacks entry top s Q) |].
  intros [] s' (a & HQ & _ & Hr & _ & Hw & _). by exists a.
Qed.

(** An unknown number gives [-38] to the thread, and changes nothing of the kernel
    but that interrupts are off, as they were. *)
Theorem unknown_system_call {St : Type} `{SysOps St} (Lc : lens St cpu) sstacks entry top (s : machine St) : LensLaws Lc ->
  can_enter sstacks entry top s -> rax (m_regs s) ∉ [0; 1; 2; 3; 8; 9; 11; 12; 60; 74; 162; 201; 231] ->
  wp (cpu_syscall;; syscall_entry Lc) (fun _ s' => returned (2 ^ 64 - 38) s s' /\
    m_env s' = over Lc (Cpu (Z.ldiff (Z.lor (rflags (view Lc (m_env s))) FLAGS_IF) FLAGS_IF) (cr3 (view Lc (m_env s)))) (m_env s)) s.
Proof.
  intros HL Hc Hn. rewrite !not_elem_of_cons in Hn. set (e0 := over Lc _ (m_env s)).
  eapply wp_mono; [apply (wp_system_call Lc sstacks entry top s (fun a e => a = 2 ^ 64 - 38 /\ e = e0) Hc) |].
  - apply wp_bind, wp_modify, wp_bind. unfold syscall_case. change (rax (user_regs s)) with (rax (m_regs s)). cbv zeta.
    unfold SYS_READ, SYS_WRITE, SYS_OPEN, SYS_CLOSE, SYS_LSEEK, SYS_MMAP, SYS_MUNMAP, SYS_BRK, SYS_EXIT, SYS_FSYNC, SYS_SYNC, SYS_TIME, SYS_EXIT_GROUP.
    repeat (match goal with |- wp (if ?a =? ?b then _ else _) _ _ => rewrite (proj2 (Z.eqb_neq a b)) by tauto end). apply wp_ret, wp_bind, wp_modify, wp_ret. split; [done |].
    rewrite view_over, over_over. reflexivity.
  - intros [] s' (a & [-> He] & _ & Hr & _). by split.
Qed.

(** C39: the user's stack pointer is kept in one word for all threads: when a thread
    is preempted in a system call and another one makes a call in the meantime, the
    first goes back to user mode on the stack of the other. *)
Theorem system_call_preempted {St : Type} `{SysOps St} (Lc : lens St cpu) sstacks entry top top' (s : machine St) :
  can_enter sstacks entry top s -> stack_ok sstacks top' -> top <= top' - 128 \/ top' <= top - 128 ->
  wp (cpu_syscall;; syscall_enter) (fun _ s1 =>
    forall t, m_mem t = <[sstacks + 8 := top']> (m_mem s1) -> msrs_ready sstacks entry (m_msrs t) ->
      wp (syscall_handler Lc (user_regs t)) (fun _ _ => True) (m_env t) ->
      wp (cpu_syscall;; syscall_entry Lc) (fun _ t' =>
        wp syscall_leave (fun _ s' => m_rsp s' = m_rsp t /\ m_regs s' = user_regs s /\ m_cs s' = 0x23) (set_m_mem (m_mem t') s1)) t) s.
Proof.
  intros Hc Hok' Hdis. apply (wp_enter sstacks entry top); [done |]. intros s1 He t Hm Hmsr Hh.
  assert (can_enter sstacks entry top' t) as Hct by (split; [done | rewrite Hm; apply rd_insert_eq | done]).
  eapply wp_mono; [by apply (wp_system_call Lc sstacks entry top' t (fun _ _ => True)) |]. intros [] t' (a & _ & _ & _ & Hu & Hw & _).
  pose proof (ce_stack _ _ _ _ Hc) as Hok. unfold stack_ok in *.
  apply (wp_leave (top - 128) (user_regs s)); [apply He | | |].
  - rewrite <- (en_frame _ _ _ _ _ He). change (m_mem (set_m_mem (m_mem t') s1)) with (m_mem t').
    assert (forall x, top - 128 <= x < top -> m_mem t' @@ x = m_mem s1 @@ x) as Hx.
    { intros x Hr. rewrite Hw by lia. rewrite Hm. apply rd_insert_ne. lia. }
    unfold load_regs. by rewrite !Hx by lia.
  - change (m_gs (set_m_mem (m_mem t') s1)) with (m_gs s1). rewrite (en_gs _ _ _ _ _ He). lia.
  - intros s' Hl. split_and!; [| by rewrite (lk_regs _ _ _ _ Hl) | apply (lk_seg _ _ _ _ Hl)].
    rewrite (lk_rsp _ _ _ _ Hl). change (m_gs (set_m_mem (m_mem t') s1)) with (m_gs s1). by rewrite (en_gs _ _ _ _ _ He).
Qed.

(** * Witnesses *)

Definition demo_other : other_calls (kernel fs_sim) :=
  OtherCalls _ (fun _ _ _ _ _ _ => mret (u64 (- 22))) (fun _ => mret tt) (mret tt) (mret 0) (mret tt).
#[local] Instance demo_calls : SysOps (kernel fs_sim) := kernel_calls 4 4 no_terminal no_terminal demo_other.

Definition demo_msrs : gmap Z Z :=
  <[IA32_EFER := 0x501]> (<[IA32_STAR := 0x10 * 2 ^ 48 + 0x08 * 2 ^ 32]> (<[IA32_LSTAR := 0x8000]> (<[IA32_FMASK := 0x700]> (<[IA32_KERNEL_GS_BASE := 0x9000]> ∅)))).
(** A thread that is about to make call [n] with argument [x]. *)
Definition demo_user (n x : Z) : machine (kernel fs_sim) :=
  Machine demo_kernel (<[0x9008 := 0x10000]> ∅) demo_msrs (Regs n 1 2 3 x 5 6 7 8 9 10 11 12 13 0x401000 0x202) 14 0x7000 0x23 0x1B 0.

Lemma demo_can_enter n x : can_enter 0x9000 0x8000 0x10000 (demo_user n x).
Proof. split; [repeat split; vm_compute; reflexivity | reflexivity | left; lia]. Qed.

Lemma demo_close x : x <= 2 \/ MAX_FD < x ->
  wp (syscall_handler l_k_cpu (user_regs (demo_user 3 x))) (fun r e => rax r = (if x <=? 2 then 0 else 2 ^ 64 - 1) /\ k_proc e = k_proc demo_kernel) demo_kernel.
Proof.
  intros Hx. eapply wp_mono; [exact (close_call_rejects 4 4 no_terminal no_terminal demo_other (user_regs (demo_user 3 x)) demo_kernel eq_refl Hx) |].
  intros r e (-> & _ & -> & _). split; reflexivity.
Qed.

Lemma init_syscalls_spec_witness : wp (init_syscalls 0x9000 0x8000) (fun _ m' => m' @@ IA32_LSTAR = 0x8000 /\ m' @@ IA32_EFER = 0x501) (<[IA32_EFER := 0x500]> ∅).
Proof.
  eapply wp_mono; [apply (init_syscalls_spec 0x9000 0x8000 (<[IA32_EFER := 0x500]> ∅)); by vm_compute |].
  intros [] m' ((_ & _ & Hl & _) & He & _). split; [exact Hl | rewrite He; by vm_compute].
Defined.

Lemma syscall_segments_witness : exists L (d : desc unit), link_ok L /\ wp (init_GDT L) (fun _ d' => seg_flags (segment_at (d_mem d') (gdt_entries L + 0x20)) = 2) d.
Proof.
  exists demo_link, (Desc tt ∅ (0, 0) 0 0 0 (0, 0) ∅). split; [exact demo_link_ok |].
  eapply wp_mono; [apply (syscall_segments demo_link (Desc tt ∅ (0, 0) 0 0 0 (0, 0) ∅) demo_link_ok) |].
  intros [] d' (_ & _ & (H & _) & _). exact H.
Defined.

(** [close(200)] gives -1, to the stack and the instruction it came from. *)
Lemma system_call_roundtrip_witness : wp (cpu_syscall;; syscall_entry l_k_cpu) (fun _ s' => rax (m_regs s') = 2 ^ 64 - 1 /\ rbx (m_regs s') = 1 /\
  m_rsp s' = 0x7000 /\ sr_rip (m_regs s') = 0x401000 /\ k_proc (m_env s') = k_proc demo_kernel) (demo_user 3 200).
Proof.
  eapply wp_mono; [apply (system_call_roundtrip l_k_cpu 0x9000 0x8000 0x10000 (demo_user 3 200) (fun a e => a = 2 ^ 64 - 1 /\ k_proc e = k_proc demo_kernel) (demo_can_enter 3 200));
    apply (demo_close 200); by right |].
  intros [] s' (a & [-> He] & Hr & _). rewrite (rt_regs _ _ _ Hr), (rt_rsp _ _ _ Hr). done.
Defined.

Lemma unknown_system_call_witness : wp (cpu_syscall;; syscall_entry l_k_cpu) (fun _ s' => rax (m_regs s') = 2 ^ 64 - 38) (demo_user 39 0).
Proof.
  eapply wp_mono; [apply (unknown_system_call l_k_cpu 0x9000 0x8000 0x10000 (demo_user 39 0)) |].
  - split; [done | by intros [] | done].
  - apply demo_can_enter.
  - rewrite !not_elem_of_cons. split_and!; [discriminate.. | apply not_elem_of_nil].
  - intros [] s' [Hr _]. by rewrite (rt_regs _ _ _ Hr).
Defined.

(** The other thread has its user stack at 0x5000 and its kernel stack below 0x20000. *)
Lemma system_call_preempted_witness : wp (cpu_syscall;; syscall_enter) (fun _ s1 =>
    let t := Machine demo_kernel (<[0x9008 := 0x20000]> (m_mem s1)) demo_msrs (m_regs (demo_user 3 0)) 0 0x5000 0x23 0x1B 0 in
    wp (cpu_syscall;; syscall_entry l_k_cpu) (fun _ t' => wp syscall_leave (fun _ s' => m_rsp s' = 0x5000) (set_m_mem (m_mem t') s1)) t) (demo_user 3 200).
Proof.
  eapply wp_mono; [apply (system_call_preempted l_k_cpu 0x9000 0x8000 0x10000 0x20000 (demo_user 3 200) (demo_can_enter 3 200)); [left; lia | left; lia] |].
  intros [] s1 H. cbv zeta. eapply wp_mono; [apply H; [done | apply (ce_msrs _ _ _ _ (demo_can_enter 3 0)) |] |].
  - eapply wp_mono; [apply (demo_close 0); by left | done].
  - intros [] t' Hl. eapply wp_mono; [exact Hl |]. by intros [] s' [Hsp _].
Defined.
